(* ===== verification/_CoqProject ===== *)
-Q . S2P
Prelude.v
Bytes.v
Mem.v
CString.v
Dictionary.v
DictionarySpec.v
IniParser.v
IniParserSpec.v
HyperampQueue.v
HyperampQueueLemmas.v
HyperampQueueSpec.v
HyperampRun.v
RingZones.v
RingZonesSpec.v
HyperampLinux.v
Spinlock.v
SharedMemIO.v
ByteStore.v
Message.v
PoolPort.v
Build.v
BuildSpec.v
Session.v
Device.v
Responses.v
SessionPool.v
SessionPoolSpec.v
SessionPoolRun.v
UtHash.v
UtHashLinks.v
UtHashSpec.v
UtHashPool.v
SessionData.v
SessionDataSpec.v
Iot.v
IotSpec.v
Proto.v
ProtoSpec.v
IotMessages.v
Engine.v
EngineSpec.v
Channel.v
IotPolls.v
DevConfig.v
DevConfigSpec.v
DevConfigFile.v
Endpoint.v
LinkStats.v
IotConfig.v
IotConfigSpec.v
Netns.v
NetnsSpec.v
Scenario.v
ScenarioSpec.v
EngineInit.v
EngineInitSpec.v
ShutdownSpec.v
Lifecycle.v
Turn.v
TurnCheck.v
LifecycleSpec.v
Dump.v
DumpSpec.v
Xsk.v
XskSpec.v
XskSetup.v
Peers.v
PeersSpec.v
