(* ===== verification/Prelude.v ===== *)
(** * HighSpeedCProxy, backend proxy: a verification library (root file)

    ** The program

    The backend proxy runs in the root Linux zone and gives the applications of
    another zone (the frontend, on seL4) access to the network and to IoT
    devices.  The two sides exchange messages through two ring queues in shared
    memory.  The engine (src/engine.c) turns forever: it takes the frontend's
    messages off the RX ring and dispatches them, writes pending data to the
    session sockets, polls the sockets for input, moves that input to the TX
    ring, and polls the IoT devices.  Sessions live in a pool with a hash table
    keyed by a 16-bit id (src/session_pool.c); each is linked to a session node
    of one network device and, while it has data to move, to one of two work
    queues.

    ** Files

    - [Prelude] (this file): machine-width integers, the status codes, the
      [outcome] monad, shared lemmas and automation.  [Bytes]: little-endian
      codec and bounds-checked private buffers.  [Mem]: byte memory shared
      between the zones.
    - [HyperampQueue], [HyperampQueueLemmas], [HyperampQueueSpec],
      [HyperampRun]: the ring queue of src/hyperamp_shm_queue.c, the algebra of
      its packed control block, its refinement of a bounded FIFO, and whole
      runs against a queue of messages.  [HyperampLinux]: mapping a channel,
      and the engine's queue ports.
    - [Spinlock]: the lock of the ring, one step per memory access, for any
      number of zones ([arm] and [soft] variants).  [RingZones],
      [RingZonesSpec]: lock, enqueue and dequeue together as programs of single
      accesses, run by any number of zones at once.
    - [SharedMemIO], [PoolPort]: the pool queue of src/shared_mem_io.c, and the
      engine's ports over it.
    - [ByteStore]: the interface of a buffer as the builders and parsers use it
      (a class with its laws, implemented by private buffers and by shared
      memory).  [Message]: the wire format of include/message.h.  [Build],
      [BuildSpec]: the message builders of src/backend_proto.c.
    - [Session]: session, segment, node and device records, the queue macros,
      and [world], the state the session code touches.  [Device]: node macros
      and device selection (src/engine.c).  [Responses]: responses to the
      frontend.
    - [SessionPool], [SessionPoolSpec], [SessionPoolRun]: src/session_pool.c,
      its invariant, and instances.  [SessionData], [SessionDataSpec]: the
      three data movers.
    - [UtHash], [UtHashLinks], [UtHashSpec], [UtHashPool]: the hash table of
      include/uthash.h link by link, its representation invariant, and the
      session table over it.
    - [Iot], [IotSpec]: the IoT half of src/session.c.
    - [Proto], [ProtoSpec]: the dispatcher and the handlers of
      src/backend_proto.c.  [IotMessages]: every received message is handled.
      [Engine], [EngineSpec]: the event loop (src/engine.c, src/poller.c).
      [Channel]: what memory a turn may write.  [IotPolls]: the polls of the IoT
      devices return.
    - [CString]: the string functions of the C library the configuration code
      calls (comparison, snprintf, the sscanf directives used, strtol).
      [Dictionary], [DictionarySpec]: src/dictionary.c.  [IniParser],
      [IniParserSpec]: src/iniparser.c.
    - [DevConfig], [DevConfigSpec], [DevConfigFile]: engine_init_hs_net_dev and
      what it makes of any file and of a file that describes devices.
      [IotConfig], [IotConfigSpec]: the IoT devices and their sessions.
    - [Netns], [NetnsSpec]: sockets in network namespaces (src/netns_socket.c)
      on the process's view of the kernel.
    - [EngineInit], [EngineInitSpec], [ShutdownSpec]: engine_init,
      engine_run_hyperamp with the guards in front of its loop, and
      engine_destory.  [Lifecycle], [LifecycleSpec]: the invariant between
      start-up and shutdown, the defects that break it as decidable conditions
      on a message, and the life of the proxy.  [Turn], [TurnCheck]: a whole
      turn of the event loop under that invariant, and a decision procedure for
      what it asks of its surroundings on concrete turns.
    - [Dump], [DumpSpec]: the dissectors and message printers
      (src/common_utils.c) and the traces of the payloads, with every read they
      make.  [LinkStats]: src/ethtool_stats.c.
    - [Endpoint]: the macros of include/session.h that read an address and a
      port from text.  [Scenario], [ScenarioSpec]: the test client of
      senario_src, which plays the frontend inside the proxy, and what its
      messages do to a backend.
    - [Xsk], [XskSpec]: the AF_XDP rings and the receiver and sender of
      xdp/xdp_redirect_sock_user.c, in step with the kernel.  [XskSetup]: its
      start and its exits, and the program in the kernel.
    - [Peers], [PeersSpec]: the programs at the other end - CAN and L2CAP
      servers and clients (can, bt), the HTTP probe of src/rtt_stats.c - as
      interaction trees over their system calls.

    ** How code becomes definitions

    - A C integer is a [Z]; where the C type truncates, [u8]/[u16]/[u32]/[u64]
      is applied.  Bit operations are those of [Z].  A C string is the list of
      its bytes before the NUL; plain char is unsigned, as on aarch64.
    - A private buffer is a [list Z] of bytes; access outside it is the fault
      [OutOfBounds].  Shared memory is a function from addresses to bytes, and
      the ring's control block is read and written at its field offsets.
    - A computation yields an [outcome]: [Done] with a result, [Spin] when it
      does not come back (a loop without an end, or exit), [Fault] when its behaviour is undefined.
    - Objects from malloc are at addresses of a finite map; using an address
      with no live object is [UseAfterFree].  A fresh object holds arbitrary
      values, given as a record.  A TAILQ is the list of its elements;
      unlinking an element that is not on the list is [BadUnlink].
    - What malloc, the kernel and libmodbus answer is an argument ([MapEnv],
      [create_env], [read_env], [recv_env], [turn_env], [hs_env],
      [iot_dev_env], [netns_env], [init_env], ...), so theorems hold
      for every answer their hypotheses admit.
    - A loop that is driven by the environment recurses over the list of its
      answers and [Spin]s when the list ends.  The engine's receive loop takes
      fuel; any fuel above the number of pending blocks is enough, which is
      part of its theorem.  The walk along a bucket chain takes the number of
      elements as fuel.  The configuration loader takes the length of the
      file as fuel, the table's probing loop the size of the table; both are
      shown to end.  The two loops that never end
      ([enable_hs_net_dev], the Bluetooth server poll) are shown not to return
      for every bound.
    - The servers of [Peers] run until a signal or the other side ends them;
      they are loops of interaction trees, which need no fuel, and are run
      against a finite script of what read answers.

    ** What the theorems show

    - The whole life ([LifecycleSpec]): [proxy_inv] says that the nodes on the
      protocol lists of the configured devices hold exactly the sessions of the
      table, that every session knows its node, and that nothing else is
      allocated.  It says nothing of a session's [dev_id], which creation on
      request never sets.  engine_init establishes it; engine_run_hyperamp
      passes its guards and keeps it, turn after turn, whatever messages of
      whatever type the frontend has written before each and whichever calls
      fail, up to the first turn that meets one of seven defects of the code
      ([turn_meets_defect], a boolean function of the state and the turn's
      answers); and engine_destory at any point before that leaves the heaps as
      they were before the start.  Of the surroundings, [steps_ok] asks only
      that fresh memory is fresh, that epoll reports live sessions and that
      reads and polls end.  Independently of that, a turn that returns has
      written shared memory only inside its channel ([Channel]).
    - Configuration: the string table implements a finite map; the loader ends
      on every file; a file reads back what it says and what the writer wrote.
      On every file the two start-up functions return with a well-typed device
      table or an error, or the file has a section header that makes a key
      without a value (a colon in it, or, for IoT, 127 characters or more) and
      the missing value is dereferenced.  An address goes from the file to bind
      unchanged; the first device of a protocol gets its session.  After a
      failed start engine_run_hyperamp returns at its guards.
    - Namespaces: for every transport, creating a socket leaks no descriptor
      and comes home; the fast path's OK creates nothing; the socket of a
      session is in its device's namespace and connected to the endpoint of the
      request.
    - The ring: initialisation establishes the invariant; enqueue, dequeue,
      peek, alloc and release act on the abstract FIFO on every branch, return,
      and release the lock; any run of enqueues and dequeues answers as a queue
      of messages does.  The aarch64 lock is mutually exclusive in every
      interleaving, and the sequential lock of the ring model is its solo run.
      Together: whatever zones call enqueue and dequeue, and however their
      accesses interleave, the ring is linearizable - each call takes effect at
      one instant, the store-exclusive that takes the lock - and every call can
      return.  Alone, the programs are the functions of [HyperampQueue].
    - Messages: what the builder puts on the TX ring parses back to the header
      and payload given; create requests are decoded exactly; device and
      strategy messages change nothing and are answered by their length table.
    - Sessions: the initial pool satisfies the invariant (table, work queues,
      counter and free ids agree); a creation that succeeds publishes the
      session and answers once; one that fails before it answers undoes what it
      did; a close message removes the session and, when its [dev_id]
      names its device, gives the node back.  The table that the pool's
      theorems take for a finite map is one: uthash's chains, insertion order
      and bucket expansion answer as the map does in every run, and no table
      ever has more than 1024 buckets ([UtHashPool]).
    - Data: pending DATA messages reach exactly the sessions they name, in
      order; socket input reaches the TX ring as DATA messages, in order; the
      frontend's segments go to the socket in order; a walk over the f2b queue
      leaves exactly the sessions whose socket is full.
    - End to end ([ScenarioSpec]): the test client's device, strategy, session
      and data messages go through the pool queue, the engine's port and the
      dispatcher, and leave a connected session on a chosen device whose data
      one more step hands to the socket.  It composes the lemmas of the pool
      queue, the builders, the dispatcher, the selector, the session pool, the
      responses and the channel's frame.  Its pass over the f2b queue is step 2
      of the event loop.  An endpoint survives its text.
    - The other end: the CAN server answers every complete frame that begins
      with H exactly once; client and server understand each other; a message
      of the proxy's CAN session is answered, and the answer makes the session
      read past its frame; the echo server returns what it reads, in order; the HTTP probe ends on every
      script.
    - IoT: CAN frames, the Modbus request/response automaton, Modbus parsing.
    - Diagnostics: the dissectors that run on every block read only inside it,
      whatever it holds; the %s traces return exactly when the payload contains
      a zero byte.  A report of ethtool is read back entry by entry.
    - The fast path: under every interleaving with the kernel, and across the
      wrap-around of the ring words, each frame has exactly one owner; a batch
      finishes and its reservation is never retried; rx_drop moves the batch in
      order.  A start that fails before the socket exists leaves the interface
      alone.
    - Behaviours that are not what the code means: the TX and RX rings of a
      channel share their blocks; an oversized DATA header is copied from
      beyond the buffer; a send error unlinks a session twice; a creation whose
      response does not fit leaves a freed session in the table; the fallback
      lock admits two holders; a session whose [dev_id] was never set leaves its
      node pointing at freed memory; a CAN receive reads past its frame; the pool
      queue hands out another block than the one sent; round robin gives up
      after one inactive device; two loops do not end; a report the builder
      refuses takes the newest message off the receive queue; the HTTP probe
      closes a file it could not open.

    ** Not modelled

    In the components other than [Dump], the prints (their reads are those of
    [Dump]: the model of the event loop does not repeat them, so its theorems
    are about a build whose traces return); cache maintenance and barriers
    (they have no effect on the sequential memory); sleep; the signal handler;
    exit() when the 16-byte element of an id cannot be allocated; the functions
    of src/shared_mem_io.c and src/backend_proto.c that only return a constant;
    iniparser_getdouble (floating point) and the parser's error callback; the
    uthash macros that the pool does not use; the functions of libbpf that the
    AF_XDP program is set up with; the Modbus programs
    (src/modbusTCP), which only call libmodbus; the headers of the libraries
    under src/lib.  Reading a message from shared memory is one step: the
    frontend does not change a block while the backend handles it.

    ** Plan

    Open: the traces inside the event loop, so that the hypotheses of a turn
    say which payloads contain a zero byte; peek and the slot functions among
    the calls of several zones, and both rings of a channel at once, which share
    their blocks. *)

From stdpp Require Import base list numbers option.
From Stdlib Require Import ZArith Lia.
#[local] Open Scope Z_scope.


(** ** Machine integers *)

Definition u8  (z : Z) : Z := z mod 2 ^ 8.
Definition u16 (z : Z) : Z := z mod 2 ^ 16.
Definition u32 (z : Z) : Z := z mod 2 ^ 32.
Definition u64 (z : Z) : Z := z mod 2 ^ 64.

Lemma u8_id z : 0 <= z < 256 -> u8 z = z.
Proof. intros. unfold u8. apply Z.mod_small. lia. Qed.

Lemma u16_id z : 0 <= z < 65536 -> u16 z = z.
Proof. intros. unfold u16. apply Z.mod_small. lia. Qed.

Lemma u32_id z : 0 <= z < 4294967296 -> u32 z = z.
Proof. intros. unfold u32. apply Z.mod_small. lia. Qed.

Lemma u64_id z : 0 <= z < 18446744073709551616 -> u64 z = z.
Proof. intros. unfold u64. apply Z.mod_small. lia. Qed.

Lemma u8_range z : 0 <= u8 z < 256.
Proof. unfold u8. pose proof (Z.mod_pos_bound z (2 ^ 8)). lia. Qed.

Lemma u16_range z : 0 <= u16 z < 65536.
Proof. unfold u16. pose proof (Z.mod_pos_bound z (2 ^ 16)). lia. Qed.

Lemma u32_range z : 0 <= u32 z < 4294967296.
Proof. unfold u32. pose proof (Z.mod_pos_bound z (2 ^ 32)). lia. Qed.

Create HintDb proxy.
#[export] Hint Resolve u8_range u16_range u32_range : proxy.

(** A single flag bit of a status byte ([x & 1]). *)
Definition bit0 (x : Z) : bool := Z.testbit x 0.
#[global] Arguments bit0 : simpl never.

Lemma land1_bit0 x : Z.land x 1 = Z.b2z (bit0 x).
Proof.
  unfold bit0. apply Z.bits_inj'. intros n Hn.
  rewrite Z.land_spec.
  destruct (decide (n = 0)) as [->|Hne].
  - destruct (Z.testbit x 0); reflexivity.
  - replace (Z.testbit 1 n) with false.
    + rewrite andb_false_r. destruct (Z.testbit x 0); cbn [Z.b2z].
      * symmetry. change 1 with (2 ^ 0). rewrite Z.pow2_bits_eqb by lia.
        apply Z.eqb_neq. lia.
      * symmetry. apply Z.testbit_0_l.
    + symmetry. change 1 with (2 ^ 0). rewrite Z.pow2_bits_eqb by lia.
      apply Z.eqb_neq. lia.
Qed.

Lemma bit0_land1 x : bit0 (Z.land x 1) = bit0 x.
Proof. unfold bit0. rewrite Z.land_spec. apply andb_true_r. Qed.

Lemma bit0_lor1 x : bit0 (Z.lor x 1) = true.
Proof. unfold bit0. rewrite Z.lor_spec. apply orb_true_r. Qed.

Lemma bit0_clear x : bit0 (Z.land x (Z.lnot 1)) = false.
Proof. unfold bit0. rewrite Z.land_spec, Z.lnot_spec by lia. apply andb_false_r. Qed.

(** ** Status codes

    BACKEND_PROXY_PROCESS_OK/ERROR/AGAIN (include/session.h) and
    HYPERAMP_OK/ERROR/AGAIN (include/hyperamp_shm_queue.h) carry the same three
    integers. *)

Inductive status := PROCESS_OK | PROCESS_ERROR | PROCESS_AGAIN.

Definition status_code (s : status) : Z :=
  match s with PROCESS_OK => 0 | PROCESS_ERROR => -1 | PROCESS_AGAIN => 1 end.

#[export] Instance status_eq_dec : EqDecision status.
Proof. solve_decision. Defined.

(** ** Outcomes of C code

    [Done a]: the call returns [a].  [Spin]: it busy-waits on a lock nobody
    releases in this (sequential) execution.  [Fault f]: it reaches undefined
    behaviour or an aborting assertion, of kind [f]. *)

Inductive fault :=
  | NullDeref | OutOfBounds | BadUnlink | UseAfterFree | DivByZero | IntOverflow | AssertFailed.

#[export] Instance fault_eq_dec : EqDecision fault.
Proof. solve_decision. Defined.

Inductive outcome (A : Type) :=
  | Done (a : A)
  | Spin
  | Fault (f : fault).
Arguments Done {A} a.
Arguments Spin {A}.
Arguments Fault {A} f.

#[export] Instance outcome_ret : MRet outcome := fun A a => Done a.
#[export] Instance outcome_bind : MBind outcome := fun A B f o =>
  match o with Done a => f a | Spin => Spin | Fault x => Fault x end.

(** [require b f]: the execution is defined only when [b] holds. *)
Definition require (b : bool) (f : fault) : outcome unit :=
  if b then Done () else Fault f.

Lemma bind_Done {A B} (o : outcome A) (f : A -> outcome B) b :
  (o ≫= f) = Done b <-> exists a, o = Done a /\ f a = Done b.
Proof.
  destruct o; cbn; split; try (intros (?&?&?); congruence); try discriminate; eauto.
Qed.

Lemma bind_assoc {A B C} (o : outcome A) (f : A -> outcome B) (g : B -> outcome C) :
  ((o ≫= f) ≫= g) = (o ≫= fun a => f a ≫= g).
Proof. destruct o; reflexivity. Qed.

Lemma require_Done b f u : require b f = Done u <-> b = true.
Proof. destruct b, u; cbn; split; congruence. Qed.

Lemma require_true b f : b = true -> require b f = Done ().
Proof. intros ->. reflexivity. Qed.

Lemma require_false {A} b f (k : unit -> outcome A) :
  b = false -> (require b f ≫= k) = Fault f.
Proof. intros ->. reflexivity. Qed.

(** Partial correctness: if the computation returns, its result satisfies [Q]. *)
Definition ensures {A} (o : outcome A) (Q : A -> Prop) : Prop := forall a, o = Done a -> Q a.

Lemma ensures_ret {A} (a : A) (Q : A -> Prop) : Q a -> ensures (Done a) Q.
Proof. intros H b [= <-]. exact H. Qed.

Lemma ensures_bind {A B} (o : outcome A) (f : A -> outcome B) (P : A -> Prop) (Q : B -> Prop) :
  ensures o P -> (forall a, P a -> ensures (f a) Q) -> ensures (o ≫= f) Q.
Proof. intros Ho Hf b (a & Ha & Hb)%bind_Done. by apply (Hf a (Ho a Ha)). Qed.

Lemma ensures_weaken {A} (o : outcome A) (P Q : A -> Prop) : ensures o P -> (forall a, P a -> Q a) -> ensures o Q.
Proof. intros Ho H a Ha. by apply H, Ho. Qed.

Lemma ensures_true {A} (o : outcome A) : ensures o (fun _ => True).
Proof. by intros a _. Qed.

(** Invert every monadic equation of the context. *)
Ltac outcome_inv :=
  repeat match goal with
  | H : (_ ≫= _) = Done _ |- _ =>
      let a := fresh "r" in let H1 := fresh "Ho" in let H2 := fresh "Hk" in
      apply bind_Done in H as (a & H1 & H2)
  | H : require _ _ = Done _ |- _ => apply require_Done in H
  | H : Done _ = Done _ |- _ => injection H as H
  | H : Fault _ = Done _ |- _ => discriminate H
  | H : Spin = Done _ |- _ => discriminate H
  | H : mret _ = Done _ |- _ => unfold mret, outcome_ret in H
  end.
