(* ===== verification/Bytes.v ===== *)
(** * Bytes: little-endian codec, bounds-checked buffers, byte memory

    Private C buffers ([uint8_t msg_buf[4096]], [global_amp_tx_buf], a malloc'd
    segment) are [list Z] of byte values; reading or writing outside one is the
    fault [OutOfBounds].  The memory shared with the other zone is a total
    function from addresses to bytes.  Both targets of the code (aarch64,
    x86_64) are little-endian. *)

From S2P Require Import Prelude.
From stdpp Require Import base list numbers option.
From Stdlib Require Import ZArith Lia.
#[local] Open Scope Z_scope.

(** ** Little-endian codec *)

Fixpoint le_bytes (n : nat) (v : Z) : list Z :=
  match n with
  | O => []
  | S n' => v mod 256 :: le_bytes n' (v / 256)
  end.

Fixpoint le_val (l : list Z) : Z :=
  match l with
  | [] => 0
  | b :: l' => b + 256 * le_val l'
  end.

Definition is_byte (b : Z) : Prop := 0 <= b < 256.

Lemma length_le_bytes n v : length (le_bytes n v) = n.
Proof. revert v. induction n; intros; cbn; [done|]. by rewrite IHn. Qed.

Lemma le_bytes_bytes n v : Forall is_byte (le_bytes n v).
Proof.
  revert v. induction n; intros; cbn; constructor; [|done].
  unfold is_byte. pose proof (Z.mod_pos_bound v 256). lia.
Qed.

Lemma pow256_S n : 2 ^ (8 * Z.of_nat (S n)) = 256 * 2 ^ (8 * Z.of_nat n).
Proof.
  rewrite Nat2Z.inj_succ.
  replace (8 * Z.succ (Z.of_nat n)) with (8 + 8 * Z.of_nat n) by lia.
  rewrite Z.pow_add_r by lia. reflexivity.
Qed.

Lemma le_val_bytes n v : le_val (le_bytes n v) = v mod 2 ^ (8 * Z.of_nat n).
Proof.
  revert v. induction n as [|n IH]; intros v; cbn [le_bytes le_val].
  - change (2 ^ (8 * Z.of_nat 0)) with 1. by rewrite Z.mod_1_r.
  - rewrite IH, pow256_S. symmetry. apply Z.rem_mul_r; [lia|].
    apply Z.pow_pos_nonneg; lia.
Qed.

Lemma le_val_range l : Forall is_byte l -> 0 <= le_val l < 2 ^ (8 * Z.of_nat (length l)).
Proof.
  induction 1 as [|b l Hb Hl IH]; [cbn; lia|].
  cbn [length le_val]. rewrite pow256_S. unfold is_byte in Hb. lia.
Qed.

Lemma le_bytes_val l : Forall is_byte l -> le_bytes (length l) (le_val l) = l.
Proof.
  induction 1 as [|b l Hb Hl IH]; cbn [length le_val le_bytes]; [done|].
  unfold is_byte in Hb. f_equal.
  - rewrite Z.mul_comm, Z.mod_add by lia. apply Z.mod_small. lia.
  - rewrite Z.mul_comm, Z.div_add by lia. rewrite Z.div_small by lia. exact IH.
Qed.

Lemma le_val_small n v :
  0 <= v < 2 ^ (8 * Z.of_nat n) -> le_val (le_bytes n v) = v.
Proof. intros. rewrite le_val_bytes. by apply Z.mod_small. Qed.

Lemma le_val16 v : 0 <= v < 65536 -> le_val (le_bytes 2 v) = v.
Proof. intros. apply le_val_small. change (2 ^ (8 * Z.of_nat 2)) with 65536. lia. Qed.

Lemma le_bytes_add n m v :
  le_bytes (n + m) v = le_bytes n v ++ le_bytes m (v / 2 ^ (8 * Z.of_nat n)).
Proof.
  revert v. induction n as [|n IH]; intros v.
  - cbn [le_bytes app Nat.add]. change (2 ^ (8 * Z.of_nat 0)) with 1. by rewrite Z.div_1_r.
  - cbn [Nat.add le_bytes]. rewrite IH, pow256_S. cbn [app]. do 2 f_equal.
    rewrite Z.div_div by (try lia; apply Z.pow_pos_nonneg; lia). reflexivity.
Qed.

(** ** Bounds-checked buffers *)

Definition blen (buf : list Z) : Z := Z.of_nat (length buf).

Lemma blen_nonneg buf : 0 <= blen buf.
Proof. unfold blen. lia. Qed.

Definition in_range (buf : list Z) (off len : Z) : bool :=
  (0 <=? off) && (0 <=? len) && (off + len <=? blen buf).

(** The [len] bytes at offset [off] of [buf]. *)
Definition bread (buf : list Z) (off len : Z) : outcome (list Z) :=
  if in_range buf off len
  then Done (take (Z.to_nat len) (drop (Z.to_nat off) buf))
  else Fault OutOfBounds.

(** [memcpy(buf + off, bytes, sizeof bytes)]. *)
Definition bwrite (buf : list Z) (off : Z) (bytes : list Z) : outcome (list Z) :=
  if in_range buf off (blen bytes)
  then Done (take (Z.to_nat off) buf ++ bytes ++ drop (Z.to_nat off + length bytes) buf)
  else Fault OutOfBounds.

(** An [n]-byte unsigned little-endian field. *)
Definition bget (n : nat) (buf : list Z) (off : Z) : outcome Z :=
  l ← bread buf off (Z.of_nat n); Done (le_val l).

Definition bput (n : nat) (buf : list Z) (off v : Z) : outcome (list Z) :=
  bwrite buf off (le_bytes n v).

Lemma in_range_true buf off len :
  in_range buf off len = true <-> 0 <= off /\ 0 <= len /\ off + len <= blen buf.
Proof. unfold in_range. rewrite !andb_true_iff, !Z.leb_le. tauto. Qed.

Lemma bread_ok buf off len :
  0 <= off -> 0 <= len -> off + len <= blen buf ->
  bread buf off len = Done (take (Z.to_nat len) (drop (Z.to_nat off) buf)).
Proof.
  intros. unfold bread. rewrite (proj2 (in_range_true _ _ _)); auto.
Qed.

Lemma bread_length buf off len l :
  bread buf off len = Done l -> blen l = len.
Proof.
  unfold bread, blen. destruct (in_range _ _ _) eqn:E; [|discriminate].
  apply in_range_true in E. unfold blen in E. intros [= <-].
  rewrite length_take, length_drop. lia.
Qed.

Lemma bread_bytes buf off len l :
  Forall is_byte buf -> bread buf off len = Done l -> Forall is_byte l.
Proof.
  unfold bread. destruct (in_range _ _ _); [|discriminate].
  intros H [= <-]. by apply Forall_take, Forall_drop.
Qed.

Lemma bwrite_length buf off bytes buf' :
  bwrite buf off bytes = Done buf' -> blen buf' = blen buf.
Proof.
  unfold bwrite, blen. destruct (in_range _ _ _) eqn:E; [|discriminate].
  apply in_range_true in E. unfold blen in E. intros [= <-].
  rewrite !length_app, length_take, length_drop. lia.
Qed.

Lemma bwrite_ok buf off bytes :
  0 <= off -> off + blen bytes <= blen buf ->
  exists buf', bwrite buf off bytes = Done buf'.
Proof.
  intros. unfold bwrite. rewrite (proj2 (in_range_true _ _ _)); eauto.
  unfold blen in *. lia.
Qed.

(** Reading back exactly what was written. *)
Lemma bread_bwrite_eq buf off bytes buf' :
  bwrite buf off bytes = Done buf' -> bread buf' off (blen bytes) = Done bytes.
Proof.
  intros Hw. pose proof (bwrite_length _ _ _ _ Hw) as Hl. revert Hw.
  unfold bwrite. destruct (in_range _ _ _) eqn:E; [|discriminate].
  apply in_range_true in E. intros [= <-].
  rewrite bread_ok by lia. f_equal.
  unfold blen in *. rewrite drop_app_length' by (rewrite length_take; lia).
  rewrite Nat2Z.id. apply take_app_length.
Qed.

(** Filling a whole buffer. *)
Lemma bwrite_whole buf bytes : blen buf = blen bytes -> bwrite buf 0 bytes = Done bytes.
Proof.
  intros Hl. unfold bwrite. rewrite (proj2 (in_range_true _ _ _)) by (unfold blen in *; lia).
  unfold blen in Hl. cbn. by rewrite drop_ge, app_nil_r by lia.
Qed.

(** Reads away from a write see the old contents. *)
Lemma bread_bwrite_ne buf off bytes buf' off' len' :
  bwrite buf off bytes = Done buf' ->
  off' + len' <= off \/ off + blen bytes <= off' ->
  bread buf' off' len' = bread buf off' len'.
Proof.
  intros Hw Hd. pose proof (bwrite_length _ _ _ _ Hw) as Hl. revert Hw.
  unfold bwrite. destruct (in_range buf off _) eqn:E; [|discriminate].
  apply in_range_true in E. intros [= Hb].
  unfold bread, in_range. rewrite Hl.
  destruct ((0 <=? off') && (0 <=? len') && (off' + len' <=? blen buf)) eqn:E'; [|done].
  rewrite !andb_true_iff, !Z.leb_le in E'. f_equal. unfold blen in *.
  apply list_eq. intros i. subst buf'.
  destruct (decide (i < Z.to_nat len')%nat); last first.
  { rewrite !lookup_ge_None_2; [done|rewrite length_take; lia|rewrite length_take; lia]. }
  rewrite !lookup_take, !lookup_drop. rewrite !decide_True by done.
  destruct Hd.
  - rewrite lookup_app_l by (rewrite length_take; lia).
    rewrite lookup_take, decide_True by lia. done.
  - rewrite app_assoc. rewrite lookup_app_r by (rewrite length_app, length_take; lia).
    rewrite lookup_drop, length_app, length_take. f_equal. lia.
Qed.

Lemma bput_length n buf off v buf' : bput n buf off v = Done buf' -> blen buf' = blen buf.
Proof. apply bwrite_length. Qed.

Lemma bget_bput_eq n buf off v buf' :
  bput n buf off v = Done buf' -> bget n buf' off = Done (v mod 2 ^ (8 * Z.of_nat n)).
Proof.
  unfold bput, bget. intros Hw.
  pose proof (bread_bwrite_eq _ _ _ _ Hw) as Hr.
  unfold blen in Hr. rewrite length_le_bytes in Hr. rewrite Hr. cbn.
  by rewrite le_val_bytes.
Qed.

Lemma bget_bput_ne n k buf off off' v buf' :
  bput n buf off v = Done buf' ->
  off' + Z.of_nat k <= off \/ off + Z.of_nat n <= off' ->
  bget k buf' off' = bget k buf off'.
Proof.
  unfold bput, bget. intros Hw Hd.
  rewrite (bread_bwrite_ne _ _ _ _ _ _ Hw); [done|].
  unfold blen. rewrite length_le_bytes. lia.
Qed.

Lemma bget_bwrite_ne k buf off bytes off' buf' :
  bwrite buf off bytes = Done buf' ->
  off' + Z.of_nat k <= off \/ off + blen bytes <= off' ->
  bget k buf' off' = bget k buf off'.
Proof. unfold bget. intros Hw Hd. by rewrite (bread_bwrite_ne _ _ _ _ _ _ Hw). Qed.

Lemma bget_ok n buf off :
  0 <= off -> off + Z.of_nat n <= blen buf -> exists v, bget n buf off = Done v.
Proof. intros. unfold bget. rewrite bread_ok by lia. cbn. eauto. Qed.

Lemma bget_range n buf off v :
  Forall is_byte buf -> bget n buf off = Done v -> 0 <= v < 2 ^ (8 * Z.of_nat n).
Proof.
  unfold bget. intros Hb H. outcome_inv. subst v.
  pose proof (bread_length _ _ _ _ Ho) as Hl. unfold blen in Hl.
  replace n with (length r) by lia. apply le_val_range. eauto using bread_bytes.
Qed.

Lemma bput_ok n buf off v :
  0 <= off -> off + Z.of_nat n <= blen buf -> exists buf', bput n buf off v = Done buf'.
Proof.
  intros. apply bwrite_ok; [done|]. unfold blen in *. rewrite length_le_bytes. lia.
Qed.

Lemma bread_fault buf off len :
  0 <= off -> 0 <= len -> blen buf < off + len -> bread buf off len = Fault OutOfBounds.
Proof.
  intros. unfold bread. destruct (in_range _ _ _) eqn:E; [|done].
  apply in_range_true in E. lia.
Qed.

(** Executable form of [Forall is_byte]. *)
Definition bytesb (l : list Z) : bool := forallb (fun b => (0 <=? b) && (b <? 256)) l.

Lemma bytesb_ok l : bytesb l = true -> Forall is_byte l.
Proof.
  unfold bytesb. induction l as [|b l IH]; cbn; [constructor|].
  rewrite !andb_true_iff, Z.leb_le, Z.ltb_lt. intros [? ?]. constructor; [done|auto].
Qed.
