(* ===== verification/Mem.v ===== *)
(** * Mem: the byte memory shared between the zones

    Addresses are integers; a memory is a total function.  Field accesses of
    the packed control block are [mload]/[mstore] at the field's offset.  Two
    memories are compared pointwise ([≡]), with [Proper] instances for the
    accessors. *)

From S2P Require Import Prelude Bytes.
From stdpp Require Import base list numbers option.
From Stdlib Require Import ZArith Lia.
#[local] Open Scope Z_scope.

Definition mem := Z -> Z.

#[export] Instance mem_equiv : Equiv mem := fun m1 m2 => forall a, m1 a = m2 a.

#[export] Instance mem_equivalence : Equivalence (≡@{mem}).
Proof.
  split; [intros m a; done | intros m1 m2 H a; by rewrite H
         | intros m1 m2 m3 H1 H2 a; by rewrite H1, H2].
Qed.

Definition mset (m : mem) (a v : Z) : mem := fun x => if x =? a then v else m x.

Definition mem_bytes (m : mem) : Prop := forall a, is_byte (m a).

Fixpoint mwrite (m : mem) (a : Z) (l : list Z) : mem :=
  match l with
  | [] => m
  | b :: l' => mwrite (mset m a b) (a + 1) l'
  end.

Fixpoint mread (m : mem) (a : Z) (n : nat) : list Z :=
  match n with
  | O => []
  | S n' => m a :: mread m (a + 1) n'
  end.

Definition mload (n : nat) (m : mem) (a : Z) : Z := le_val (mread m a n).
Definition mstore (n : nat) (m : mem) (a v : Z) : mem := mwrite m a (le_bytes n v).

#[export] Instance mset_proper : Proper ((≡) ==> (=) ==> (=) ==> (≡)) mset.
Proof. intros m1 m2 H a ? <- v ? <- x. unfold mset. case_match; [done|apply H]. Qed.

#[export] Instance mwrite_proper : Proper ((≡) ==> (=) ==> (=) ==> (≡)) mwrite.
Proof.
  intros m1 m2 H a ? <- l ? <-. revert m1 m2 H a.
  induction l; intros; cbn; [done|]. apply IHl. by apply mset_proper.
Qed.

#[export] Instance mread_proper : Proper ((≡) ==> (=) ==> (=) ==> (=)) mread.
Proof.
  intros m1 m2 H a ? <- n ? <-. revert a.
  induction n; intros; cbn; [done|]. by rewrite IHn, (H a).
Qed.

#[export] Instance mload_proper n : Proper ((≡) ==> (=) ==> (=)) (mload n).
Proof. intros m1 m2 H a ? <-. unfold mload. by rewrite (mread_proper _ _ H a a eq_refl n n eq_refl). Qed.

Lemma mset_eq m a v : mset m a v a = v.
Proof. unfold mset. by rewrite Z.eqb_refl. Qed.

Lemma mset_ne m a v x : x <> a -> mset m a v x = m x.
Proof. intros. unfold mset. by rewrite (proj2 (Z.eqb_neq _ _)). Qed.

(** Pointwise description of a block write. *)
Lemma mwrite_spec m a l x :
  mwrite m a l x =
  if (a <=? x) && (x <? a + blen l) then default 0 (l !! Z.to_nat (x - a)) else m x.
Proof.
  revert m a. induction l as [|b l IH]; intros m a; cbn [mwrite]; unfold blen in *.
  - cbn [length]. destruct (Z.leb_spec a x), (Z.ltb_spec x (a + Z.of_nat 0)); cbn; try done; lia.
  - rewrite IH. cbn [length]. rewrite Nat2Z.inj_succ.
    destruct (Z.leb_spec (a + 1) x); cbn [andb].
    + replace (a + Z.succ (Z.of_nat (length l))) with (a + 1 + Z.of_nat (length l)) by lia.
      rewrite (proj2 (Z.leb_le a x)) by lia. cbn [andb].
      destruct (Z.ltb_spec x (a + 1 + Z.of_nat (length l))).
      * replace (Z.to_nat (x - a)) with (S (Z.to_nat (x - (a + 1)))) by lia. done.
      * apply mset_ne. lia.
    + destruct (Z.leb_spec a x); cbn [andb].
      * assert (x = a) as -> by lia.
        rewrite (proj2 (Z.ltb_lt _ _)) by lia. rewrite Z.sub_diag. cbn. apply mset_eq.
      * apply mset_ne. lia.
Qed.

Lemma mwrite_out m a l x : x < a \/ a + blen l <= x -> mwrite m a l x = m x.
Proof.
  intros. rewrite mwrite_spec.
  destruct (Z.leb_spec a x), (Z.ltb_spec x (a + blen l)); cbn; try done; lia.
Qed.

Lemma mread_length m a n : length (mread m a n) = n.
Proof. revert a. induction n; intros; cbn; auto. Qed.

Lemma mread_ext m1 m2 a n :
  (forall x, a <= x < a + Z.of_nat n -> m1 x = m2 x) -> mread m1 a n = mread m2 a n.
Proof.
  revert a. induction n as [|n IH]; intros a H; cbn; [done|].
  f_equal; [apply H; lia|]. apply IH. intros. apply H. lia.
Qed.

Lemma mread_mwrite_eq m a l : mread (mwrite m a l) a (length l) = l.
Proof.
  revert m a. induction l as [|b l IH]; intros m a; cbn; [done|].
  f_equal; [|apply IH].
  rewrite mwrite_out by lia. apply mset_eq.
Qed.

Lemma mread_mwrite_ne m a l a' n :
  a' + Z.of_nat n <= a \/ a + blen l <= a' ->
  mread (mwrite m a l) a' n = mread m a' n.
Proof. intros. apply mread_ext. intros. apply mwrite_out. lia. Qed.

Lemma mread_app m a n k : mread m a (n + k) = mread m a n ++ mread m (a + Z.of_nat n) k.
Proof.
  revert a. induction n as [|n IH]; intros a; cbn [Nat.add mread app].
  - by rewrite Z.add_0_r.
  - f_equal. rewrite IH. do 2 f_equal. lia.
Qed.

Lemma mread_bytes m a n : mem_bytes m -> Forall is_byte (mread m a n).
Proof. intros H. revert a. induction n; intros; cbn; constructor; auto. Qed.

Lemma mwrite_bytes m a l : mem_bytes m -> Forall is_byte l -> mem_bytes (mwrite m a l).
Proof.
  intros Hm Hl x. rewrite mwrite_spec. case_match; [|apply Hm].
  destruct (l !! _) eqn:E; cbn; [|unfold is_byte; lia].
  by eapply Forall_lookup_1 in E.
Qed.

Lemma mload_mstore_eq n m a v :
  mload n (mstore n m a v) a = v mod 2 ^ (8 * Z.of_nat n).
Proof.
  unfold mload, mstore.
  pose proof (mread_mwrite_eq m a (le_bytes n v)) as H. rewrite length_le_bytes in H.
  rewrite H. apply le_val_bytes.
Qed.

Lemma mload_mstore_id n m a v :
  0 <= v < 2 ^ (8 * Z.of_nat n) -> mload n (mstore n m a v) a = v.
Proof. intros. rewrite mload_mstore_eq. by apply Z.mod_small. Qed.

Lemma mload_mwrite_ne k m a l a' :
  a' + Z.of_nat k <= a \/ a + blen l <= a' -> mload k (mwrite m a l) a' = mload k m a'.
Proof. intros. unfold mload. by rewrite mread_mwrite_ne. Qed.

Lemma mload_mstore_ne n k m a a' v :
  a' + Z.of_nat k <= a \/ a + Z.of_nat n <= a' ->
  mload k (mstore n m a v) a' = mload k m a'.
Proof. intros. apply mload_mwrite_ne. unfold blen. rewrite length_le_bytes. lia. Qed.

Lemma mstore_out n m a v x : x < a \/ a + Z.of_nat n <= x -> mstore n m a v x = m x.
Proof. intros. apply mwrite_out. unfold blen. rewrite length_le_bytes. lia. Qed.

Lemma mstore_bytes n m a v : mem_bytes m -> mem_bytes (mstore n m a v).
Proof. intros. apply mwrite_bytes; [done|apply le_bytes_bytes]. Qed.

Create HintDb proxymem.
#[export] Hint Resolve mstore_bytes mwrite_bytes le_bytes_bytes mread_bytes : proxymem.

Lemma mload_range n m a : mem_bytes m -> 0 <= mload n m a < 2 ^ (8 * Z.of_nat n).
Proof.
  intros. unfold mload. pose proof (le_val_range (mread m a n)) as Hr.
  rewrite mread_length in Hr. auto with proxymem.
Qed.

Lemma mload_ext n m1 m2 a :
  (forall x, a <= x < a + Z.of_nat n -> m1 x = m2 x) -> mload n m1 a = mload n m2 a.
Proof. intros. unfold mload. by erewrite mread_ext. Qed.

Lemma mread_mstore_ne n m a v a' k :
  a' + Z.of_nat k <= a \/ a + Z.of_nat n <= a' ->
  mread (mstore n m a v) a' k = mread m a' k.
Proof. intros. apply mread_mwrite_ne. unfold blen. rewrite length_le_bytes. lia. Qed.

(** Evaluate loads over stores at literal offsets of one base. *)
Ltac mem_load_step :=
  match goal with
  | |- context [mload ?n (mstore ?n _ ?a _) ?a] => rewrite (mload_mstore_eq n _ a)
  | |- context [mload ?k (mstore ?n _ _ _) _] => rewrite (mload_mstore_ne n k) by lia
  | |- context [mload ?k (mwrite _ _ _) _] => rewrite (mload_mwrite_ne k) by lia
  end.
Ltac mem_load := repeat mem_load_step.
