(* ===== verification/CString.v ===== *)
(** * CString: C strings and the library functions the configuration code uses

    A C string is the list of its bytes, without the terminating NUL.  The
    functions are those of the C locale; [sscanf] is an interpreter of the
    directives that occur in src/iniparser.c and src/engine.c, and [strtol] is
    used with base 0 on a 64-bit long. *)

From S2P Require Import Prelude.
From stdpp Require Import base list numbers option.
From Stdlib Require Import ZArith Lia String Ascii.
#[local] Open Scope Z_scope.

Abbreviation cstring := (list Z).

(** The bytes of a string literal. *)
Definition lit (s : string) : cstring :=
  List.map (fun a => Z.of_N (N_of_ascii a)) (list_ascii_of_string s).

(** ** Characters *)

Definition isspace (c : Z) : bool := (c =? 32) || ((9 <=? c) && (c <=? 13)).
Definition tolower (c : Z) : Z := if (65 <=? c) && (c <=? 90) then c + 32 else c.

Definition hex_digit (c : Z) : option Z :=
  if (48 <=? c) && (c <=? 57) then Some (c - 48)
  else if (97 <=? c) && (c <=? 102) then Some (c - 87)
  else if (65 <=? c) && (c <=? 70) then Some (c - 55)
  else None.

(** ** Comparison and search *)

Definition strcmp_eq (a b : cstring) : bool := bool_decide (a = b).
Definition strcasecmp_eq (a b : cstring) : bool := bool_decide (List.map tolower a = List.map tolower b).
Definition strncmp_eq (a b : cstring) (n : nat) : bool := bool_decide (take n a = take n b).
Definition strchr (s : cstring) (c : Z) : bool := existsb (fun x => x =? c) s.

(** The string up to the first NUL of a byte array. *)
Fixpoint up_to_nul (l : list Z) : cstring :=
  match l with
  | [] => []
  | c :: l => if c =? 0 then [] else c :: up_to_nul l
  end.

(** snprintf into a buffer of [size] bytes keeps the first [size - 1]. *)
Definition snprintf (size : nat) (s : cstring) : cstring := take (size - 1) s.

(** ** Spans *)

Fixpoint take_while (p : Z -> bool) (s : cstring) : cstring :=
  match s with
  | [] => []
  | c :: s => if p c then c :: take_while p s else []
  end.

Fixpoint drop_while (p : Z -> bool) (s : cstring) : cstring :=
  match s with
  | [] => []
  | c :: s' => if p c then drop_while p s' else s
  end.

(** ** sscanf *)

Inductive directive :=
  | Blank                                    (** white space *)
  | Char (c : Z)                             (** a literal character *)
  | Scan (negated : bool) (set : cstring)    (** [%\[...\]] and [%\[^...\]] *)
  | Hex2.                                    (** [%02hhx] *)

(** What a conversion stores. *)
Inductive conversion := Str (s : cstring) | Byte (b : Z).

Definition in_set (negated : bool) (set : cstring) (c : Z) : bool := xorb negated (strchr set c).

(** At most two characters: an optional sign, then hexadecimal digits.  The
    item 0x is a prefix of a number that the width cuts off: no match. *)
Definition scan_hex2 (s : cstring) : option (Z * cstring) :=
  match drop_while isspace s with
  | c :: s' =>
      match hex_digit c with
      | Some d =>
          match s' with
          | c' :: s'' =>
              match hex_digit c' with
              | Some d' => Some (d * 16 + d', s'')
              | None => if (c =? 48) && ((c' =? 120) || (c' =? 88)) then None else Some (d, s')
              end
          | [] => Some (d, [])
          end
      | None =>
          if (c =? 43) || (c =? 45) then
            match s' with
            | c' :: s'' =>
                match hex_digit c' with
                | Some d => Some (if c =? 45 then u8 (- d) else d, s'')
                | None => None
                end
            | [] => None
            end
          else None
      end
  | [] => None
  end.

(** The conversions made before the first directive that does not match. *)
Fixpoint sscanf (fmt : list directive) (s : cstring) : list conversion :=
  match fmt with
  | [] => []
  | Blank :: fmt => sscanf fmt (drop_while isspace s)
  | Char c :: fmt =>
      match s with
      | c' :: s' => if c' =? c then sscanf fmt s' else []
      | [] => []
      end
  | Scan neg set :: fmt =>
      match take_while (in_set neg set) s with
      | [] => []
      | t => Str t :: sscanf fmt (drop_while (in_set neg set) s)
      end
  | Hex2 :: fmt =>
      match scan_hex2 s with
      | None => []
      | Some (b, s') => Byte b :: sscanf fmt s'
      end
  end.

(** ** strtol(s, NULL, 0) *)

Definition LONG_MAX : Z := 2 ^ 63 - 1.
Definition LONG_MIN : Z := - 2 ^ 63.

(** The value of the leading digits of base [base]. *)
Fixpoint digits_val (base : Z) (acc : Z) (s : cstring) : Z :=
  match s with
  | c :: s' =>
      match hex_digit c with
      | Some d => if d <? base then digits_val base (acc * base + d) s' else acc
      | None => acc
      end
  | [] => acc
  end.

Definition magnitude (s : cstring) : Z :=
  match s with
  | c :: s' =>
      if c =? 48 then
        match s' with
        | x :: h :: _ =>
            if ((x =? 120) || (x =? 88)) && bool_decide (is_Some (hex_digit h))
            then digits_val 16 0 (drop 2 s) else digits_val 8 0 s
        | _ => digits_val 8 0 s
        end
      else digits_val 10 0 s
  | [] => 0
  end.

Definition strtol0 (s : cstring) : Z :=
  match drop_while isspace s with
  | c :: s' =>
      if c =? 45 then Z.max LONG_MIN (- magnitude s')
      else if c =? 43 then Z.min LONG_MAX (magnitude s')
      else Z.min LONG_MAX (magnitude (c :: s'))
  | [] => 0
  end.

(** Conversion of a long to int. *)
Definition int_of_long (z : Z) : Z := (z + 2 ^ 31) mod 2 ^ 32 - 2 ^ 31.
