(* ===== verification/Dictionary.v ===== *)
(** * Dictionary: the string table behind the configuration files

    src/dictionary.c: three parallel arrays (keys, values, hashes) searched
    linearly.  A NULL entry is [None]; an array whose calloc failed has no
    cells, so that the first access is a fault.  What calloc and malloc answer
    is an argument.  [char] is unsigned, as on the aarch64 target. *)

From S2P Require Import Prelude CString.
From stdpp Require Import base list numbers option gmap.
From Stdlib Require Import ZArith Lia.
#[local] Open Scope Z_scope.

Record dictionary := {
  d_n : nat;
  d_size : nat;
  d_val : list (option cstring);
  d_key : list (option cstring);
  d_hash : list Z }.

Definition DICTMINSZ : nat := 128.

(** Access to a cell of an array. *)
Definition cell {A} (l : list A) (i : nat) : outcome A :=
  match l !! i with Some x => Done x | None => Fault OutOfBounds end.

(** ** The hash *)

Definition hash_step (hash c : Z) : Z :=
  let hash := u32 (hash + c) in
  let hash := u32 (hash + Z.shiftl hash 10) in
  Z.lxor hash (Z.shiftr hash 6).

Definition dictionary_hash (key : cstring) : Z :=
  let hash := fold_left hash_step key 0 in
  let hash := u32 (hash + Z.shiftl hash 3) in
  let hash := Z.lxor hash (Z.shiftr hash 11) in
  u32 (hash + Z.shiftl hash 15).

(** ** Creation *)

(** Whether the calloc of the struct and of each array succeeds. *)
Record new_env := { ne_dict : bool; ne_val : bool; ne_key : bool; ne_hash : bool }.

Definition dictionary_new (env : new_env) (size : nat) : option dictionary :=
  let size := if (size <? DICTMINSZ)%nat then DICTMINSZ else size in
  if negb (ne_dict env) then None else
  Some {| d_n := 0; d_size := size;
          d_val := if ne_val env then replicate size None else [];
          d_key := if ne_key env then replicate size None else [];
          d_hash := if ne_hash env then replicate size 0 else [] |}.

(** [ok]: the three callocs succeed. *)
Definition dictionary_grow (ok : bool) (d : dictionary) : option dictionary :=
  if negb ok then None else
  Some {| d_n := d_n d; d_size := d_size d * 2;
          d_val := take (d_size d) (d_val d) ++ replicate (d_size d) None;
          d_key := take (d_size d) (d_key d) ++ replicate (d_size d) None;
          d_hash := take (d_size d) (d_hash d) ++ replicate (d_size d) 0 |}.

(** ** Search *)

(** The loop over the slots [i], ..., [i + fuel - 1] that get, set and unset
    share. *)
Fixpoint dict_find (d : dictionary) (hash : Z) (key : cstring) (fuel i : nat) : outcome (option nat) :=
  match fuel with
  | O => Done None
  | S fuel =>
      k ← cell (d_key d) i;
      match k with
      | None => dict_find d hash key fuel (S i)
      | Some k =>
          h ← cell (d_hash d) i;
          if (hash =? h) && strcmp_eq key k then Done (Some i) else dict_find d hash key fuel (S i)
      end
  end.

(** [None]: the default is returned; [Some v]: the value stored, NULL or not. *)
Definition dictionary_get (d : dictionary) (key : cstring) : outcome (option (option cstring)) :=
  r ← dict_find d (dictionary_hash key) key (d_size d) 0;
  match r with
  | None => Done None
  | Some i => v ← cell (d_val d) i; Done (Some v)
  end.

(** ** Update *)

(** [for (i = d->n; d->key\[i\]; ) if (++i == d->size) i = 0;]
    A loop that has met [d_size] keys goes round for ever. *)
Fixpoint free_slot (d : dictionary) (fuel i : nat) : outcome nat :=
  match fuel with
  | O => Spin
  | S fuel =>
      k ← cell (d_key d) i;
      match k with
      | None => Done i
      | Some _ => free_slot d fuel (if S i =? d_size d then 0 else S i)%nat
      end
  end.

(** Whether dictionary_grow, and the copies of the key and of the value, get
    their memory. *)
Record set_env := { se_grow : bool; se_key : bool; se_val : bool }.

Definition xstrdup (ok : bool) (s : cstring) : option cstring := if ok then Some s else None.

Definition store_slot (d : dictionary) (i n : nat) (key val : option cstring) (hash : Z) : outcome dictionary :=
  _ ← cell (d_key d) i; _ ← cell (d_val d) i; _ ← cell (d_hash d) i;
  Done {| d_n := n; d_size := d_size d; d_val := <[i := val]> (d_val d);
          d_key := <[i := key]> (d_key d); d_hash := <[i := hash]> (d_hash d) |}.

(** The result is 0, or -1 when the table cannot grow. *)
Definition dictionary_set (env : set_env) (d : option dictionary) (key : option cstring) (val : option cstring)
  : outcome (Z * option dictionary) :=
  match d, key with
  | Some d, Some key =>
      let hash := dictionary_hash key in
      r ← (if (0 <? d_n d)%nat then dict_find d hash key (d_size d) 0 else Done None);
      match r with
      | Some i =>
          _ ← cell (d_val d) i;
          Done (0, Some {| d_n := d_n d; d_size := d_size d;
                           d_val := <[i := val ≫= xstrdup (se_val env)]> (d_val d);
                           d_key := d_key d; d_hash := d_hash d |})
      | None =>
          match (if (d_n d =? d_size d)%nat then dictionary_grow (se_grow env) d else Some d) with
          | None => Done (-1, Some d)
          | Some d =>
              i ← free_slot d (d_size d) (d_n d);
              d ← store_slot d i (S (d_n d)) (xstrdup (se_key env) key) (val ≫= xstrdup (se_val env)) hash;
              Done (0, Some d)
          end
      end
  | _, _ => Done (-1, d)
  end.

Definition dictionary_unset (d : option dictionary) (key : option cstring) : outcome (option dictionary) :=
  match d, key with
  | Some d, Some key =>
      r ← dict_find d (dictionary_hash key) key (d_size d) 0;
      match r with
      | None => Done (Some d)
      | Some i => d ← store_slot d i (d_n d - 1) None None 0; Done (Some d)
      end
  | _, _ => Done d
  end.

(** The binding a slot holds, if any. *)
Definition slot_binding (k : option cstring) (v : option cstring) : option (cstring * option cstring) :=
  (fun k => (k, v)) <$> k.
