(* ===== verification/DictionarySpec.v ===== *)
(** * DictionarySpec: the string table is a finite map

    The abstract table maps keys to optional values.  Lookup, insertion and
    removal of src/dictionary.c are shown to be those of the map, and to end,
    whatever malloc answers. *)

From S2P Require Import Prelude CString Dictionary.
From stdpp Require Import base list numbers option gmap.
From Stdlib Require Import ZArith Lia.
#[local] Open Scope Z_scope.

(** Number of keys in use. *)
Definition key_count (d : dictionary) : nat := length (filter is_Some (d_key d)).

(** [d_n] may exceed the number of keys after a failed copy of a key. *)
Record dict_wf (d : dictionary) : Prop := {
  dw_val : length (d_val d) = d_size d;
  dw_key : length (d_key d) = d_size d;
  dw_hash : length (d_hash d) = d_size d;
  dw_pos : (0 < d_size d)%nat;
  dw_count : (key_count d <= d_n d <= d_size d)%nat;
  dw_unique : forall i j k, d_key d !! i = Some (Some k) -> d_key d !! j = Some (Some k) -> i = j;
  dw_hashed : forall i k, d_key d !! i = Some (Some k) -> d_hash d !! i = Some (dictionary_hash k) }.

(** The bindings in slot order, and the map they form. *)
Definition bindings (d : dictionary) : list (cstring * option cstring) :=
  omap id (zip_with slot_binding (d_key d) (d_val d)).
Definition dict_map (d : dictionary) : gmap cstring (option cstring) := list_to_map (bindings d).

(** Lookup in the map is lookup of a slot. *)
Definition binds (d : dictionary) (k : cstring) (v : option cstring) : Prop :=
  exists i, d_key d !! i = Some (Some k) /\ d_val d !! i = Some v.

Lemma elem_of_bindings d k v : (k, v) ∈ bindings d <-> binds d k v.
Proof.
  unfold bindings, binds. rewrite list_elem_of_omap. split.
  - intros (x & Hx & Hid). cbn in Hid. subst x. apply list_elem_of_lookup in Hx as [i Hi].
    apply lookup_zip_with_Some in Hi as (a & b & Hs & Ha & Hb).
    unfold slot_binding in Hs. destruct a; [|done]. cbn in Hs. simplify_eq. eauto.
  - intros (i & Hk & Hv). exists (Some (k, v)). split; [|done]. apply list_elem_of_lookup. exists i.
    apply lookup_zip_with_Some. by exists (Some k), v.
Qed.

Definition unique_keys (ks : list (option cstring)) : Prop :=
  forall i j k, ks !! i = Some (Some k) -> ks !! j = Some (Some k) -> i = j.

Lemma NoDup_slot_keys ks vs : unique_keys ks -> NoDup (omap id (zip_with slot_binding ks vs)).*1.
Proof.
  revert vs. induction ks as [|[k|] ks IH]; intros [|v vs] Hu; cbn; try apply NoDup_nil_2.
  - apply NoDup_cons_2.
    + intros Hk. apply list_elem_of_fmap in Hk as ([k' w] & -> & Hk).
      apply list_elem_of_omap in Hk as (x & Hx & Hid). cbn in Hid. subst x.
      apply list_elem_of_lookup in Hx as [j Hj].
      apply lookup_zip_with_Some in Hj as (a & b & Hs & Ha & Hb).
      destruct a; [|done]. cbn in Hs. simplify_eq. discriminate (Hu 0%nat (S j) _ eq_refl Ha).
    + apply IH. intros i j x Hi Hj. by injection (Hu (S i) (S j) x Hi Hj).
  - apply IH. intros i j x Hi Hj. by injection (Hu (S i) (S j) x Hi Hj).
Qed.

(** The map a table stands for. *)
Definition represents (d : dictionary) (m : gmap cstring (option cstring)) : Prop :=
  forall k v, m !! k = Some v <-> binds d k v.

Lemma represents_dict_map d : dict_wf d -> represents d (dict_map d).
Proof.
  intros Hw k v. unfold dict_map. rewrite <- elem_of_list_to_map, elem_of_bindings; [done|].
  apply NoDup_slot_keys. intros i j x. apply (dw_unique _ Hw).
Qed.

Lemma cell_lookup {A} (l : list A) i x : l !! i = Some x -> cell l i = Done x.
Proof. unfold cell. by intros ->. Qed.

(** ** Search *)

Lemma find_none d key fuel i :
  dict_wf d -> (i + fuel <= d_size d)%nat ->
  (forall j, (i <= j < i + fuel)%nat -> d_key d !! j <> Some (Some key)) ->
  dict_find d (dictionary_hash key) key fuel i = Done None.
Proof.
  intros Hw. revert i. induction fuel as [|fuel IH]; intros i Hi Hn; [done|]. cbn [dict_find].
  destruct (lookup_lt_is_Some_2 (d_key d) i) as [k Hk]; [rewrite (dw_key _ Hw); lia|].
  rewrite (cell_lookup _ _ _ Hk). cbn [mbind outcome_bind].
  assert (dict_find d (dictionary_hash key) key fuel (S i) = Done None) as E
    by (apply IH; [lia|intros j Hj; apply Hn; lia]).
  destruct k as [k|]; [|done]. rewrite (cell_lookup _ _ _ (dw_hashed _ Hw _ _ Hk)). cbn [mbind outcome_bind].
  unfold strcmp_eq. rewrite bool_decide_eq_false_2, andb_false_r; [done|].
  intros ->. apply (Hn i); [lia|done].
Qed.

Lemma find_some d key fuel i j :
  dict_wf d -> (i <= j < i + fuel)%nat -> (i + fuel <= d_size d)%nat -> d_key d !! j = Some (Some key) ->
  dict_find d (dictionary_hash key) key fuel i = Done (Some j).
Proof.
  intros Hw. revert i. induction fuel as [|fuel IH]; intros i Hj Hi Hk; [lia|]. cbn [dict_find].
  destruct (lookup_lt_is_Some_2 (d_key d) i) as [k Hk']; [rewrite (dw_key _ Hw); lia|].
  rewrite (cell_lookup _ _ _ Hk'). cbn [mbind outcome_bind].
  destruct (decide (i = j)) as [->|Hne].
  - rewrite Hk in Hk'. injection Hk' as <-. rewrite (cell_lookup _ _ _ (dw_hashed _ Hw _ _ Hk)). cbn [mbind outcome_bind].
    unfold strcmp_eq. by rewrite Z.eqb_refl, bool_decide_eq_true_2.
  - assert (dict_find d (dictionary_hash key) key fuel (S i) = Done (Some j)) as E by (apply IH; [lia|lia|done]).
    destruct k as [k|]; [|done]. rewrite (cell_lookup _ _ _ (dw_hashed _ Hw _ _ Hk')). cbn [mbind outcome_bind].
    unfold strcmp_eq. rewrite bool_decide_eq_false_2, andb_false_r; [done|].
    intros ->. by apply Hne, (dw_unique _ Hw i j k).
Qed.

(** A search over the whole table. *)
Lemma find_spec d key m :
  dict_wf d -> represents d m ->
  match m !! key with
  | Some v => exists i, dict_find d (dictionary_hash key) key (d_size d) 0 = Done (Some i) /\
                        d_key d !! i = Some (Some key) /\ d_val d !! i = Some v
  | None => dict_find d (dictionary_hash key) key (d_size d) 0 = Done None /\
            forall i, d_key d !! i <> Some (Some key)
  end.
Proof.
  intros Hw Hr. destruct (m !! key) as [v|] eqn:E.
  - apply Hr in E as (i & Hk & Hv). exists i. split; [|done]. apply find_some; try done.
    apply lookup_lt_Some in Hk. rewrite (dw_key _ Hw) in Hk. lia.
  - assert (forall i, d_key d !! i <> Some (Some key)) as Hn; [|split; [apply find_none; auto|done] ].
    intros i Hk. destruct (lookup_lt_is_Some_2 (d_val d) i) as [v Hv].
    { rewrite (dw_val _ Hw), <- (dw_key _ Hw). by eapply lookup_lt_Some. }
    assert (m !! key = Some v) by (apply Hr; exists i; done). congruence.
Qed.

(** ** Free slots *)

Lemma count_lt_free (l : list (option cstring)) :
  (length (filter is_Some l) < length l)%nat -> exists j, l !! j = Some None.
Proof.
  induction l as [|[k|] l IH]; intros H; [cbn in H; lia| |by exists 0%nat].
  rewrite filter_cons_True in H by eauto. cbn [length] in H. destruct IH as [j Hj]; [lia|]. by exists (S j).
Qed.

Lemma free_slot_found d j fuel i :
  dict_wf d -> d_key d !! j = Some None -> (i < d_size d)%nat ->
  ((if i <=? j then j - i else j + d_size d - i) < fuel)%nat ->
  exists r, free_slot d fuel i = Done r /\ d_key d !! r = Some None.
Proof.
  intros Hw Hj. assert (j < d_size d)%nat as Hlt by (rewrite <- (dw_key _ Hw); by eapply lookup_lt_Some).
  revert i. induction fuel as [|fuel IH]; intros i Hi Hd; [lia|]. cbn [free_slot].
  destruct (lookup_lt_is_Some_2 (d_key d) i) as [k Hk]; [rewrite (dw_key _ Hw); lia|].
  rewrite (cell_lookup _ _ _ Hk). cbn [mbind outcome_bind]. destruct k as [k|]; [|eauto].
  assert (i <> j) by congruence.
  apply IH; destruct (Nat.eqb_spec (S i) (d_size d)); try lia;
    destruct (Nat.leb_spec i j); repeat case_match; try lia;
    repeat match goal with H : (_ <=? _)%nat = true |- _ => apply Nat.leb_le in H
                         | H : (_ <=? _)%nat = false |- _ => apply Nat.leb_gt in H end; lia.
Qed.

(** ** Writing a slot *)

Lemma filter_length_insert {A} (P : A -> Prop) `{!forall x, Decision (P x)} (l : list A) i x y :
  l !! i = Some x ->
  (length (filter P (<[i := y]> l)) + (if decide (P x) then 1 else 0) =
   length (filter P l) + (if decide (P y) then 1 else 0))%nat.
Proof.
  intros Hi. rewrite insert_take_drop by (by eapply lookup_lt_Some).
  rewrite <- (take_drop_middle l i x Hi) at 3. rewrite !filter_app, !length_app.
  destruct (decide (P x)), (decide (P y));
    rewrite ?(filter_cons_True P x), ?(filter_cons_True P y), ?(filter_cons_False P x), ?(filter_cons_False P y) by done;
    cbn [length]; lia.
Qed.

Section Slots.
Context (d : dictionary) (Hw : dict_wf d).

Lemma store_slot_ok i n k v h x :
  d_key d !! i = Some x ->
  store_slot d i n k v h =
  Done {| d_n := n; d_size := d_size d; d_val := <[i := v]> (d_val d);
          d_key := <[i := k]> (d_key d); d_hash := <[i := h]> (d_hash d) |}.
Proof.
  intros Hi. pose proof (lookup_lt_Some _ _ _ Hi) as Hlt. rewrite (dw_key _ Hw) in Hlt.
  destruct (lookup_lt_is_Some_2 (d_val d) i) as [v0 Hv]; [by rewrite (dw_val _ Hw)|].
  destruct (lookup_lt_is_Some_2 (d_hash d) i) as [h0 Hh]; [by rewrite (dw_hash _ Hw)|].
  unfold store_slot. by rewrite (cell_lookup _ _ _ Hi), (cell_lookup _ _ _ Hv), (cell_lookup _ _ _ Hh).
Qed.

(** A new key in a slot that was free or held another key. *)
Lemma stored_wf i n k v h x :
  d_key d !! i = Some x -> (forall k', k = Some k' -> h = dictionary_hash k' /\ forall j, d_key d !! j <> Some k) ->
  (key_count d + (if decide (is_Some k) then 1 else 0) <= n + (if decide (is_Some x) then 1 else 0))%nat ->
  (n <= d_size d)%nat ->
  dict_wf {| d_n := n; d_size := d_size d; d_val := <[i := v]> (d_val d);
             d_key := <[i := k]> (d_key d); d_hash := <[i := h]> (d_hash d) |}.
Proof.
  intros Hi Hk Hc Hn. destruct Hw as [W1 W2 W3 W4 W5 W6 W7].
  assert (i < d_size d)%nat as Hlt by (rewrite <- W2; by eapply lookup_lt_Some).
  split; cbn; rewrite ?length_insert; try done.
  - unfold key_count in *. cbn. pose proof (filter_length_insert is_Some (d_key d) i x k Hi). lia.
  - intros a b k' Ha Hb. destruct (decide (a = i)) as [->|Na], (decide (b = i)) as [->|Nb]; try done.
    + rewrite list_lookup_insert_eq in Ha by lia. rewrite list_lookup_insert_ne in Hb by done.
      injection Ha as ->. by destruct (proj2 (Hk k' eq_refl) b).
    + rewrite list_lookup_insert_eq in Hb by lia. rewrite list_lookup_insert_ne in Ha by done.
      injection Hb as ->. by destruct (proj2 (Hk k' eq_refl) a).
    + rewrite list_lookup_insert_ne in Ha, Hb by done. by eapply W6.
  - intros a k' Ha. destruct (decide (a = i)) as [->|Na].
    + rewrite list_lookup_insert_eq in Ha by lia. injection Ha as ->. rewrite list_lookup_insert_eq by lia.
      by rewrite (proj1 (Hk k' eq_refl)).
    + rewrite list_lookup_insert_ne in Ha by done. rewrite list_lookup_insert_ne by done. auto.
Qed.

(** The map after writing a slot whose old key was [x]. *)
Lemma stored_represents i n k v h x m :
  represents d m -> d_key d !! i = Some x ->
  (forall k', k = Some k' -> forall j, d_key d !! j <> Some k) ->
  represents {| d_n := n; d_size := d_size d; d_val := <[i := v]> (d_val d);
                d_key := <[i := k]> (d_key d); d_hash := <[i := h]> (d_hash d) |}
    (let m := match x with Some x => delete x m | None => m end in
     match k with Some k => <[k := v]> m | None => m end).
Proof.
  intros Hr Hi Hfresh. destruct Hw as [W1 W2 W3 W4 W5 W6 W7].
  assert (i < d_size d)%nat as Hlt by (rewrite <- W2; by eapply lookup_lt_Some).
  assert (forall q w, (match x with Some x => delete x m | None => m end) !! q = Some w <->
                      exists j, j <> i /\ d_key d !! j = Some (Some q) /\ d_val d !! j = Some w) as Hm.
  { intros q w. destruct x as [x|].
    - rewrite lookup_delete_Some, (Hr q w). split.
      + intros (Hne & j & Hj & Hv). exists j. split; [congruence|done].
      + intros (j & Hne & Hj & Hv). split; [intros ->; by apply Hne, (W6 j i q)|by exists j].
    - rewrite (Hr q w). split.
      + intros (j & Hj & Hv). exists j. split; [congruence|done].
      + intros (j & _ & Hj & Hv). by exists j. }
  intros q w. unfold binds. cbn. trans (exists j, (j <> i /\ d_key d !! j = Some (Some q) /\ d_val d !! j = Some w) \/
                                           (j = i /\ k = Some q /\ v = w)).
  - destruct k as [k|].
    + rewrite lookup_insert_Some, (Hm q w). split.
      * intros [(-> & ->)|(Hne & j & Hj)]; [exists i; by right|exists j; by left].
      * intros (j & [Hj|(-> & [= ->] & ->)]); [right|by left]. split; [|by exists j].
        intros ->. by eapply Hfresh; [|apply Hj].
    + rewrite (Hm q w). split; intros (j & Hj); exists j; [by left|by destruct Hj as [Hj|(_ & [=] & _)] ].
  - split; intros (j & Hj); exists j.
    + destruct Hj as [(Hne & Hj)|(-> & -> & ->)]; [by rewrite !list_lookup_insert_ne|].
      by rewrite !list_lookup_insert_eq by lia.
    + destruct (decide (j = i)) as [->|Hne]; [right|left].
      * rewrite !list_lookup_insert_eq in Hj by lia. by destruct Hj as [[= ->] [= ->] ].
      * by rewrite !list_lookup_insert_ne in Hj.
Qed.
End Slots.

Lemma filter_free n : filter is_Some (replicate n (@None cstring)) = [].
Proof. induction n as [|n IH]; [done|]. cbn [replicate]. rewrite filter_cons_False by (by intros []). done. Qed.

Lemma new_wf size : dict_wf {| d_n := 0; d_size := S size; d_val := replicate (S size) None;
                               d_key := replicate (S size) None; d_hash := replicate (S size) 0 |}.
Proof.
  split; cbn [d_val d_key d_hash d_size d_n]; rewrite ?length_replicate; try lia.
  - unfold key_count. cbn [d_key]. rewrite filter_free. cbn; lia.
  - intros i j k Hi. apply lookup_replicate in Hi as [ [=] _].
  - intros i k Hi. apply lookup_replicate in Hi as [ [=] _].
Qed.

(** Growing keeps every binding and leaves room. *)
Lemma grow_spec d m :
  dict_wf d -> represents d m ->
  exists d', dictionary_grow true d = Some d' /\ dict_wf d' /\ represents d' m /\
  d_n d' = d_n d /\ d_size d' = (d_size d * 2)%nat /\
  forall i k, d_key d' !! i = Some (Some k) -> d_key d !! i = Some (Some k).
Proof.
  intros Hw Hr. pose proof Hw as [W1 W2 W3 W4 W5 W6 W7]. eexists. split; [reflexivity|].
  cbn [d_n d_size d_key]. rewrite !firstn_all2 by lia.
  assert (forall i k, (d_key d ++ replicate (d_size d) None) !! i = Some (Some k) -> d_key d !! i = Some (Some k)) as Hkey.
  { intros i k. rewrite lookup_app. destruct (d_key d !! i) eqn:E; [done|].
    intros H. apply lookup_replicate in H as [ [=] _]. }
  split_and!; try done.
  - split; cbn [d_val d_key d_hash d_size d_n]; rewrite ?length_app, ?length_replicate; try lia.
    + unfold key_count in *. cbn [d_key]. rewrite filter_app, length_app, filter_free. cbn; lia.
    + intros i j k Hi Hj. eauto.
    + intros i k Hi%Hkey. rewrite lookup_app_l; [auto|]. rewrite W3, <- W2. by eapply lookup_lt_Some.
  - intros k v. rewrite (Hr k v). unfold binds. cbn [d_key d_val]. split; intros (i & Hk & Hv); exists i.
    + by rewrite !lookup_app_l by (eapply lookup_lt_Some; eauto).
    + apply Hkey in Hk. split; [done|]. rewrite lookup_app_l in Hv; [done|].
      rewrite W1, <- W2. by eapply lookup_lt_Some.
Qed.

(** ** The operations *)

(** Lookup in the string table is lookup in the map it represents: the
    search ends, touches only allocated cells, and tells a missing key from a
    key with a NULL value. *)
Lemma dictionary_get_lookup d m key :
  dict_wf d -> represents d m -> dictionary_get d key = Done (m !! key).
Proof.
  intros Hw Hr. pose proof (find_spec d key m Hw Hr) as H. unfold dictionary_get.
  destruct (m !! key) as [v|].
  - destruct H as (i & -> & _ & Hv). cbn [mbind outcome_bind]. by rewrite (cell_lookup _ _ _ Hv).
  - by destruct H as [-> _].
Qed.

(** Replacing the value of a key that is there. *)
Lemma set_value_spec d m key v v' i :
  dict_wf d -> represents d m -> d_key d !! i = Some (Some key) -> d_val d !! i = Some v ->
  let d' := {| d_n := d_n d; d_size := d_size d; d_val := <[i := v']> (d_val d);
               d_key := d_key d; d_hash := d_hash d |} in
  dict_wf d' /\ represents d' (<[key := v']> m).
Proof.
  intros Hw Hr Hk Hv. pose proof (lookup_lt_Some _ _ _ Hv). split.
  - destruct Hw. split; cbn; rewrite ?length_insert; done.
  - intros q w. rewrite lookup_insert_Some, (Hr q w). unfold binds. cbn. split.
    + intros [(-> & ->)|(Hne & j & Hj & Hw')]; [exists i; by rewrite list_lookup_insert_eq|].
      exists j. rewrite list_lookup_insert_ne by congruence. done.
    + intros (j & Hj & Hw'). destruct (decide (j = i)) as [->|Hne].
      * rewrite list_lookup_insert_eq in Hw' by done. left. split; congruence.
      * rewrite list_lookup_insert_ne in Hw' by done. right. split; [|by exists j].
        intros ->. by apply Hne, (dw_unique _ Hw j i q).
Qed.

(** Storing a new key where there is room. *)
Lemma set_new_spec env d m key val :
  dict_wf d -> represents d m -> (d_n d < d_size d)%nat -> (forall i, d_key d !! i <> Some (Some key)) ->
  exists d', (i ← free_slot d (d_size d) (d_n d);
              d ← store_slot d i (S (d_n d)) (xstrdup (se_key env) key) (val ≫= xstrdup (se_val env)) (dictionary_hash key);
              Done (0, Some d)) = Done (0, Some d') /\ dict_wf d' /\
  represents d' (if se_key env then <[key := val ≫= xstrdup (se_val env)]> m else m).
Proof.
  intros Hw Hr Hn Hk. destruct (count_lt_free (d_key d)) as [j Hj].
  { pose proof (dw_count _ Hw). unfold key_count in *. rewrite (dw_key _ Hw). lia. }
  pose proof (lookup_lt_Some _ _ _ Hj) as Hlt. rewrite (dw_key _ Hw) in Hlt.
  destruct (free_slot_found d j (d_size d) (d_n d) Hw Hj Hn) as (i & -> & Hi).
  { destruct (Nat.leb_spec (d_n d) j); lia. }
  cbn [mbind outcome_bind]. rewrite (store_slot_ok d Hw i _ _ _ _ None) by done. cbn [mbind outcome_bind].
  eexists. split; [reflexivity|]. pose proof (dw_count _ Hw). split.
  - apply stored_wf with (x := None); try done; [|repeat case_decide; destruct (se_key env); cbn; lia].
    intros k' E. destruct (se_key env); [|done]. injection E as <-. split; [done|]. intros j'. apply Hk.
  - pose proof (stored_represents d Hw i (S (d_n d)) (xstrdup (se_key env) key)
      (val ≫= xstrdup (se_val env)) (dictionary_hash key) None m Hr Hi) as H'.
    destruct (se_key env); cbn in *; apply H'; [|done]. intros k' _ j'. apply Hk.
Qed.

(** Storing a binding always ends and inserts it into the map the table
    represents; the table grows when it is full.  Only two things can go
    wrong, both for want of memory: a full table that cannot grow is left
    unchanged and -1 is returned; a key that cannot be copied is not stored. *)
Lemma dictionary_set_spec env d m key val :
  dict_wf d -> represents d m ->
  exists r d', dictionary_set env (Some d) (Some key) val = Done (r, Some d') /\ dict_wf d' /\
  match m !! key with
  | Some _ => r = 0 /\ represents d' (<[key := val ≫= xstrdup (se_val env)]> m)
  | None =>
      if (d_n d =? d_size d)%nat && negb (se_grow env) then r = -1 /\ d' = d
      else r = 0 /\ represents d' (if se_key env then <[key := val ≫= xstrdup (se_val env)]> m else m)
  end.
Proof.
  intros Hw Hr. unfold dictionary_set. pose proof (find_spec d key m Hw Hr) as Hf.
  pose proof (dw_count _ Hw) as Hc. pose proof (dw_pos _ Hw) as Hp.
  destruct (m !! key) as [v|] eqn:Em.
  - destruct Hf as (i & Hf & Hk & Hv).
    assert ((0 <? d_n d)%nat = true) as ->.
    { apply Nat.ltb_lt. enough (0 < key_count d)%nat by lia. unfold key_count.
      destruct (filter is_Some (d_key d)) eqn:E; [|cbn; lia]. exfalso.
      assert (Some key ∈ filter is_Some (d_key d)) as Hin
        by (apply list_elem_of_filter; split; [eauto|by eapply list_elem_of_lookup_2]).
      rewrite E in Hin. by apply not_elem_of_nil in Hin. }
    rewrite Hf. cbn [mbind outcome_bind]. rewrite (cell_lookup _ _ _ Hv). cbn [mbind outcome_bind].
    destruct (set_value_spec d m key v (val ≫= xstrdup (se_val env)) i) as [H1 H2]; try done. eauto 8.
  - destruct Hf as [Hf Hk].
    assert ((if (0 <? d_n d)%nat then dict_find d (dictionary_hash key) key (d_size d) 0 else Done None) = Done None) as ->
      by (by destruct (0 <? d_n d)%nat).
    cbn [mbind outcome_bind]. destruct (Nat.eqb_spec (d_n d) (d_size d)) as [En|En]; cbn [andb].
    + destruct (se_grow env); cbn [negb].
      * destruct (grow_spec d m Hw Hr) as (d1 & -> & W1 & R1 & N1 & S1 & K1).
        destruct (set_new_spec env d1 m key val) as (d2 & -> & W2 & R2); try done; [lia| |eauto 8].
        intros i Hi. by apply (Hk i), K1.
      * cbn. eauto 8.
    + destruct (set_new_spec env d m key val) as (d2 & -> & W2 & R2); try done; [lia|eauto 8].
Qed.

(** Removing a key removes it from the map and nothing else. *)
Lemma dictionary_unset_spec d m key :
  dict_wf d -> represents d m ->
  exists d', dictionary_unset (Some d) (Some key) = Done (Some d') /\ dict_wf d' /\ represents d' (delete key m).
Proof.
  intros Hw Hr. unfold dictionary_unset. pose proof (find_spec d key m Hw Hr) as Hf.
  destruct (m !! key) as [v|] eqn:Em.
  - destruct Hf as (i & -> & Hk & Hv). cbn [mbind outcome_bind].
    rewrite (store_slot_ok d Hw i _ _ _ _ (Some key)) by done. cbn [mbind outcome_bind].
    eexists. split; [reflexivity|]. pose proof (dw_count _ Hw). split.
    + apply stored_wf with (x := Some key); try done; try lia.
      rewrite decide_False by (by intros []). rewrite decide_True by eauto. lia.
    + by apply (stored_represents d Hw i (d_n d - 1) None None 0 (Some key) m Hr Hk).
  - destruct Hf as [-> _]. cbn [mbind outcome_bind]. exists d. rewrite delete_id by done. done.
Qed.

(** ** Whole runs *)

Inductive dict_op := OpGet (k : cstring) | OpSet (k : cstring) (v : option cstring) | OpUnset (k : cstring).

Definition memory_ok : set_env := {| se_grow := true; se_key := true; se_val := true |}.

(** What a call answers: the value found, or the return code. *)
Inductive dict_answer := Found (v : option (option cstring)) | Code (r : Z) | Gone.

Definition dict_step (d : dictionary) (o : dict_op) : outcome (dict_answer * dictionary) :=
  match o with
  | OpGet k => v ← dictionary_get d k; Done (Found v, d)
  | OpSet k v => r ← dictionary_set memory_ok (Some d) (Some k) v; Done (Code (fst r), default d (snd r))
  | OpUnset k => r ← dictionary_unset (Some d) (Some k); Done (Gone, default d r)
  end.

Fixpoint dict_run (d : dictionary) (ops : list dict_op) : outcome (list dict_answer * dictionary) :=
  match ops with
  | [] => Done ([], d)
  | o :: ops => r ← dict_step d o; rs ← dict_run (snd r) ops; Done (fst r :: fst rs, snd rs)
  end.

(** The specification: a finite map. *)
Definition map_step (m : gmap cstring (option cstring)) (o : dict_op) : dict_answer * gmap cstring (option cstring) :=
  match o with
  | OpGet k => (Found (m !! k), m)
  | OpSet k v => (Code 0, <[k := v]> m)
  | OpUnset k => (Gone, delete k m)
  end.

Fixpoint map_run (m : gmap cstring (option cstring)) (ops : list dict_op) : list dict_answer * gmap cstring (option cstring) :=
  match ops with
  | [] => ([], m)
  | o :: ops => let (a, m) := map_step m o in let (l, m) := map_run m ops in (a :: l, m)
  end.

(** ** Order *)

(** The keys fill the first slots, in order. *)
Definition filled (d : dictionary) (ks : list cstring) : Prop :=
  d_key d = (Some <$> ks) ++ replicate (d_size d - length ks) None /\ d_n d = length ks /\ (length ks <= d_size d)%nat.

Definition add_key (k : cstring) (ks : list cstring) : list cstring := if decide (k ∈ ks) then ks else ks ++ [k].

Lemma filled_elem d ks k : filled d ks -> (exists i, d_key d !! i = Some (Some k)) <-> k ∈ ks.
Proof.
  intros [E _]. rewrite E. split.
  - intros [i [Hi|[_ Hi] ]%lookup_app_Some]; [|by apply lookup_replicate in Hi as [ [=] _] ].
    apply list_lookup_fmap_Some in Hi as (x & [= <-] & Hx). by eapply list_elem_of_lookup_2.
  - intros [i Hi]%list_elem_of_lookup. exists i. rewrite lookup_app_l by (rewrite length_fmap; by eapply lookup_lt_Some).
    by rewrite list_lookup_fmap, Hi.
Qed.

Lemma filled_grow d d' ks : filled d ks -> dictionary_grow true d = Some d' -> filled d' ks /\ d_size d' = (d_size d * 2)%nat.
Proof.
  intros (E & En & Hl) [= <-]. split; [|done]. split; [|cbn; split; [done|lia] ]. cbn [d_key d_size]. rewrite E, firstn_all2.
  - rewrite <- app_assoc, <- replicate_add. do 2 f_equal. lia.
  - rewrite length_app, length_fmap, length_replicate. lia.
Qed.

(** A new key goes to the slot after the last one. *)
Lemma filled_store d d' ks key v h :
  dict_wf d -> filled d ks -> (length ks < d_size d)%nat ->
  (i ← free_slot d (d_size d) (d_n d);
   d ← store_slot d i (S (d_n d)) (Some key) v h; Done (0, Some d)) = Done (0, Some d') ->
  filled d' (ks ++ [key]).
Proof.
  intros Hw (E & En & Hl) Hlt. assert (d_key d !! length ks = Some None) as Hk.
  { rewrite E, lookup_app_r, length_fmap, Nat.sub_diag by (rewrite length_fmap; lia). apply lookup_replicate. split; [done|lia]. }
  destruct (d_size d) as [|n] eqn:Es; [lia|]. cbn [free_slot]. rewrite En, (cell_lookup _ _ _ Hk). cbn [mbind outcome_bind].
  rewrite (store_slot_ok d Hw _ _ _ _ _ None) by done. cbn [mbind outcome_bind]. intros [= <-].
  unfold filled. cbn [d_key d_size d_n]. rewrite length_app, E, Es. cbn [length]. split; [|split; lia].
  rewrite insert_app_r_alt, length_fmap, Nat.sub_diag by (rewrite length_fmap; lia).
  replace (S n - length ks)%nat with (S (S n - (length ks + 1))) by lia. cbn [replicate]. by rewrite fmap_app, <- app_assoc.
Qed.

Lemma set_filled env d m key val d' ks :
  se_grow env = true -> se_key env = true -> dict_wf d -> represents d m -> filled d ks ->
  dictionary_set env (Some d) (Some key) val = Done (0, Some d') -> filled d' (add_key key ks).
Proof.
  intros E1 E2 Hw Hr Hf. unfold dictionary_set, add_key. rewrite E1, E2. cbn [xstrdup].
  pose proof (find_spec d key m Hw Hr) as Hs. pose proof (filled_elem d ks key Hf) as Hin.
  pose proof Hf as (E & En & Hl).
  assert ((if (0 <? d_n d)%nat then dict_find d (dictionary_hash key) key (d_size d) 0 else Done None) =
          dict_find d (dictionary_hash key) key (d_size d) 0 \/ d_n d = 0%nat /\
          (if (0 <? d_n d)%nat then dict_find d (dictionary_hash key) key (d_size d) 0 else Done None) = Done None) as Hfind
    by (destruct (Nat.ltb_spec 0 (d_n d)); [by left|right; split; [lia|done] ]).
  destruct (m !! key) as [v|].
  - destruct Hs as (i & Hfi & Hk & Hv). assert (key ∈ ks) as Hkin by (apply Hin; eauto).
    destruct Hfind as [->|[H0 _] ]; [|rewrite En in H0; by apply length_zero_iff_nil in H0 as ->; apply not_elem_of_nil in Hkin].
    rewrite Hfi. cbn [mbind outcome_bind]. rewrite (cell_lookup _ _ _ Hv). cbn [mbind outcome_bind]. intros [= <-].
    rewrite decide_True by done. done.
  - destruct Hs as [Hfi Hno]. rewrite decide_False by (rewrite <- Hin; by intros [i Hi%Hno]).
    destruct Hfind as [->|[_ ->] ]; rewrite ?Hfi; cbn [mbind outcome_bind];
      (destruct (Nat.eqb_spec (d_n d) (d_size d)) as [Hfull|Hroom];
       [destruct (grow_spec d m Hw Hr) as (dg & Eg & Wg & _); rewrite Eg;
        destruct (filled_grow d dg ks Hf Eg) as [Fg Sg]; apply filled_store; [done|done|rewrite Sg; pose proof (dw_pos _ Hw); lia]
       |apply filled_store; [done|done|lia] ]).
Qed.

Lemma bind_xstrdup (v : option cstring) : v ≫= xstrdup true = v.
Proof. by destruct v. Qed.

Lemma set_memory_ok env d m key val :
  se_grow env = true -> se_key env = true -> se_val env = true -> dict_wf d -> represents d m ->
  exists d', dictionary_set env (Some d) (Some key) val = Done (0, Some d') /\ dict_wf d' /\
  represents d' (<[key := val]> m) /\ forall ks, filled d ks -> filled d' (add_key key ks).
Proof.
  intros E1 E2 E3 Hw Hr. destruct (dictionary_set_spec env d m key val Hw Hr) as (r & d' & E & Hw' & H).
  rewrite E1, E2, E3, bind_xstrdup, andb_false_r in H. exists d'.
  assert (r = 0) as -> by (destruct (m !! key); apply H).
  split; [done|]. split; [done|]. split; [destruct (m !! key); apply H|]. intros ks Hf. by apply (set_filled env d m key val).
Qed.

Lemma dict_step_refines d m o :
  dict_wf d -> represents d m ->
  exists d', dict_step d o = Done (fst (map_step m o), d') /\ dict_wf d' /\ represents d' (snd (map_step m o)).
Proof.
  intros Hw Hr. destruct o as [k|k v|k]; cbn [dict_step map_step fst snd].
  - rewrite (dictionary_get_lookup d m) by done. eexists. done.
  - destruct (set_memory_ok memory_ok d m k v) as (d' & -> & ? & ? & _); try done. by exists d'.
  - destruct (dictionary_unset_spec d m k) as (d' & -> & ? & ?); try done. by exists d'.
Qed.

(** C22. The string table implements a finite map: from a table of any size
    fresh from dictionary_new, every sequence of lookups, insertions and
    removals runs to its end (the probing loop always finds a slot, growing
    the table when it is full) and answers what the map answers. *)
Theorem dictionary_run_refines new size ops :
  ne_dict new = true -> ne_val new = true -> ne_key new = true -> ne_hash new = true ->
  exists d0 d, dictionary_new new size = Some d0 /\
  dict_run d0 ops = Done (fst (map_run ∅ ops), d) /\ dict_wf d /\ represents d (snd (map_run ∅ ops)).
Proof.
  intros E1 E2 E3 E4. unfold dictionary_new. rewrite E1, E2, E3, E4. cbn [negb].
  set (n := if (size <? DICTMINSZ)%nat then DICTMINSZ else size).
  assert (exists n', n = S n') as [n' ->].
  { unfold n, DICTMINSZ. destruct (Nat.ltb_spec size 128); [by exists 127%nat|]. exists (size - 1)%nat. lia. }
  set (d0 := {| d_n := 0 |}). exists d0.
  assert (dict_wf d0 /\ represents d0 ∅) as [Hw Hr].
  { split; [apply new_wf|]. intros k v. rewrite lookup_empty. split; [done|].
    intros (i & Hi & _). apply lookup_replicate in Hi as [ [=] _]. }
  enough (forall d m, dict_wf d -> represents d m -> exists d', dict_run d ops = Done (fst (map_run m ops), d') /\
          dict_wf d' /\ represents d' (snd (map_run m ops))) as H
    by (destruct (H d0 ∅ Hw Hr) as (d & ? & ? & ?); by exists d).
  clearbody d0. clear. induction ops as [|o ops IH]; intros d m Hw Hr; [by exists d|]. cbn [dict_run map_run].
  destruct (dict_step_refines d m o Hw Hr) as (d1 & -> & Hw1 & Hr1). cbn [mbind outcome_bind fst snd].
  destruct (map_step m o) as [a m1]. destruct (IH d1 m1 Hw1 Hr1) as (d2 & -> & Hw2 & Hr2).
  exists d2. cbn [mbind outcome_bind fst snd]. destruct (map_run m1 ops). done.
Qed.

Lemma dictionary_run_refines_witness :
  let new := {| ne_dict := true; ne_val := true; ne_key := true; ne_hash := true |} in
  let ops := [OpSet [97] (Some [49]); OpSet [98] None; OpGet [98]; OpUnset [97]; OpGet [97] ] in
  exists d0 d, dictionary_new new 0 = Some d0 /\
  dict_run d0 ops = Done ([Code 0; Code 0; Found (Some None); Gone; Found None], d) /\
  represents d (snd (map_run ∅ ops)).
Proof.
  intros new ops. destruct (dictionary_run_refines new 0 ops) as (d0 & d & H1 & H2 & _ & H3); try reflexivity.
  exists d0, d. split; [exact H1|]. split; [exact H2|exact H3].
Defined.
