(* ===== verification/IniParser.v ===== *)
(** * IniParser: reading and writing configuration files

    src/iniparser.c.  A file is the list of its bytes; [fgets] splits it the
    way the code reads it, into chunks of at most [ASCIILINESZ - 1] bytes.
    Pointers into the table that the getters return are given as the strings
    they point to.  The error callback only prints and is not modelled. *)

From S2P Require Import Prelude CString Dictionary.
From stdpp Require Import base list numbers option gmap strings.
From Stdlib Require Import ZArith Lia.
#[local] Open Scope Z_scope.

Definition ASCIILINESZ : nat := 1024.

Inductive line_status := LINE_ERROR | LINE_EMPTY | LINE_COMMENT | LINE_SECTION | LINE_VALUE.

(** ** Strings *)

(** [strlwc(in, out, len)] with [len > 0]: at most [len - 1] characters. *)
Definition strlwc (s : cstring) (len : nat) : cstring := List.map tolower (take (len - 1) s).

Definition strip_end (s : cstring) : cstring := rev (drop_while isspace (rev s)).
Definition strstrip (s : cstring) : cstring := strip_end (drop_while isspace s).

(** ** Lines *)

(** The buffers [section], [key] and [val] of iniparser_load. *)
Record ini_bufs := { b_section : cstring; b_key : cstring; b_val : cstring }.

(** The buffers after a sscanf with two conversions, and whether both were made. *)
Definition scan2 (fmt : list directive) (line : cstring) (key val : cstring) : bool * cstring * cstring :=
  match sscanf fmt line with
  | [Str k] => (false, k, val)
  | [Str k; Str v] => (true, k, v)
  | _ => (false, key, val)
  end.

Definition key_directives : list directive := [Scan true [61]; Blank; Char 61; Blank].
Definition double_quoted : list directive := key_directives ++ [Char 34; Scan true [34]; Char 34].
Definition single_quoted : list directive := key_directives ++ [Char 39; Scan true [39]; Char 39].
Definition unquoted : list directive := key_directives ++ [Scan true [59; 35]].
Definition only_comment : list directive := key_directives ++ [Scan false [59; 35]].
Definition only_equals : list directive := [Scan true [61]; Blank; Scan false [61]].

(** [dup]: the copy of the line got its memory (a NULL line has length 0). *)
Definition iniparser_line (dup : bool) (input_line : cstring) (b : ini_bufs) : line_status * ini_bufs :=
  let line := if dup then strstrip input_line else [] in
  let len := length line in
  let c0 := default 0 (head line) in
  let value key val :=
    (LINE_VALUE, {| b_section := b_section b; b_key := strlwc (strstrip key) len; b_val := val |}) in
  if (len <? 1)%nat then (LINE_EMPTY, b)
  else if (c0 =? 35) || (c0 =? 59) then (LINE_COMMENT, b)
  else if (c0 =? 91) && (default 0 (last line) =? 93) then
    let section := match sscanf [Char 91; Scan true [93] ] line with [Str s] => s | _ => b_section b end in
    (LINE_SECTION, {| b_section := strlwc (strstrip section) len; b_key := b_key b; b_val := b_val b |})
  else
    let '(ok, key, val) := scan2 double_quoted line (b_key b) (b_val b) in
    if ok then value key val else
    let '(ok, key, val) := scan2 single_quoted line key val in
    if ok then value key val else
    let '(ok, key, val) := scan2 unquoted line key val in
    if ok then
      let val := strstrip val in
      value key (if strcmp_eq val [34; 34] || strcmp_eq val [39; 39] then [] else val)
    else
    let '(ok, key, val) := scan2 only_comment line key val in
    if ok then value key [] else
    let '(ok, key, val) := scan2 only_equals line key val in
    if ok then value key [] else
    (LINE_ERROR, {| b_section := b_section b; b_key := key; b_val := val |}).

(** ** Files *)

(** At most [n] bytes, up to and including a newline; what is left; whether
    the end of the file was met.  (With nothing left fgets returns NULL.) *)
Fixpoint fgets (n : nat) (f : list Z) : list Z * list Z * bool :=
  match n, f with
  | O, _ => ([], f, false)
  | S _, [] => ([], [], true)
  | S n, c :: f =>
      if c =? 10 then ([c], f, false)
      else let '(t, r, eof) := fgets n f in (c :: t, r, eof)
  end.

(** What malloc answers while a line is processed. *)
Record line_env := { le_dup : bool; le_set : set_env }.

(** [line] and [last] are kept over continuation lines.  [None]: the table is
    deleted and NULL returned.  The loop ends because every turn reads at
    least one byte; [fuel] is the number of turns allowed. *)
Fixpoint load_loop (env : nat -> line_env) (fuel k : nat) (f : list Z) (line : cstring) (last_ : nat)
    (b : ini_bufs) (dict : dictionary) (errs : bool) : outcome (option dictionary) :=
  match fuel with
  | O => Spin
  | S fuel =>
      match f with
      | [] => Done (if errs then None else Some dict)
      | _ =>
          let '(chunk, f, eof) := fgets (ASCIILINESZ - last_ - 1) f in
          let line := up_to_nul (take last_ line ++ chunk) in
          if (length line <=? 1)%nat then load_loop env fuel (S k) f line last_ b dict errs else
          if negb (default 0 (last line) =? 10) && negb eof then Done None else
          let line := strip_end line in
          if default 0 (last line) =? 92 then
            load_loop env fuel (S k) f line (length line - 1) b dict errs
          else
            let '(sta, b) := iniparser_line (le_dup (env k)) line b in
            match sta with
            | LINE_EMPTY | LINE_COMMENT => load_loop env fuel (S k) f [] 0 b dict errs
            | LINE_ERROR => load_loop env fuel (S k) f [] 0 b dict true
            | LINE_SECTION | LINE_VALUE =>
                r ← (match sta with
                     | LINE_SECTION => dictionary_set (le_set (env k)) (Some dict) (Some (b_section b)) None
                     | _ => dictionary_set (le_set (env k)) (Some dict) (Some (b_section b ++ [58] ++ b_key b)) (Some (b_val b))
                     end);
                let '(mem_err, d) := r in
                let dict := default dict d in
                if mem_err <? 0 then Done (if errs then None else Some dict)
                else load_loop env fuel (S k) f [] 0 b dict errs
            end
      end
  end.

(** [file] is [None] when fopen fails. *)
Definition iniparser_load (new : new_env) (env : nat -> line_env) (file : option (list Z)) : outcome (option dictionary) :=
  match file with
  | None => Done None
  | Some f =>
      match dictionary_new new 0 with
      | None => Done None
      | Some dict =>
          load_loop env (S (length f)) 0 f [] 0 {| b_section := []; b_key := []; b_val := [] |} dict false
      end
  end.

(** ** Getters *)

(** The key as it is looked up. *)
Definition lookup_key (key : cstring) : cstring := strlwc key (ASCIILINESZ + 1).

(** [None]: the caller's default. *)
Definition ini_lookup (d : option dictionary) (key : option cstring) : outcome (option (option cstring)) :=
  match d, key with
  | Some d, Some key => dictionary_get d (lookup_key key)
  | _, _ => Done None
  end.

Definition iniparser_getstring (d : option dictionary) (key : cstring) (def : option cstring) : outcome (option cstring) :=
  r ← ini_lookup d (Some key); Done (default def r).

Definition iniparser_getlongint (d : option dictionary) (key : cstring) (notfound : Z) : outcome Z :=
  r ← ini_lookup d (Some key);
  match r with
  | None => Done notfound
  | Some None => Fault NullDeref
  | Some (Some s) => Done (strtol0 s)
  end.

Definition iniparser_getint (d : option dictionary) (key : cstring) (notfound : Z) : outcome Z :=
  z ← iniparser_getlongint d key notfound; Done (int_of_long z).

Definition iniparser_getboolean (d : option dictionary) (key : cstring) (notfound : Z) : outcome Z :=
  r ← ini_lookup d (Some key);
  match r with
  | None => Done notfound
  | Some None => Fault NullDeref
  | Some (Some s) =>
      let c := default 0 (head s) in
      Done (if (c =? 121) || (c =? 89) || (c =? 49) || (c =? 116) || (c =? 84) then 1
            else if (c =? 110) || (c =? 78) || (c =? 48) || (c =? 102) || (c =? 70) then 0
            else notfound)
  end.

Definition iniparser_find_entry (d : option dictionary) (entry : cstring) : outcome bool :=
  r ← ini_lookup d (Some entry); Done (bool_decide (is_Some r)).

Definition iniparser_set (env : set_env) (d : option dictionary) (entry : option cstring) (val : option cstring)
  : outcome (Z * option dictionary) :=
  dictionary_set env d (lookup_key <$> entry) val.

Definition iniparser_unset (d : option dictionary) (entry : option cstring) : outcome (option dictionary) :=
  dictionary_unset d (lookup_key <$> entry).

(** ** Sections *)

(** The cells [0], ..., [size - 1] of the key array. *)
Definition key_slots (d : dictionary) : outcome (list (option cstring)) :=
  _ ← require (d_size d <=? length (d_key d))%nat OutOfBounds; Done (take (d_size d) (d_key d)).

Fixpoint count_sections (ks : list (option cstring)) (nsec : Z) : Z :=
  match ks with
  | [] => nsec
  | None :: ks => count_sections ks nsec
  | Some k :: ks => count_sections ks (if strchr k 58 then nsec else nsec + 1)
  end.

Definition iniparser_getnsec (d : option dictionary) : outcome Z :=
  match d with
  | None => Done (-1)
  | Some d => ks ← key_slots d; Done (count_sections ks 0)
  end.

(** The key at which [foundsec] exceeds [n]. *)
Fixpoint nth_section (ks : list (option cstring)) (n foundsec : Z) : option cstring :=
  match ks with
  | [] => None
  | None :: ks => nth_section ks n foundsec
  | Some k :: ks =>
      if strchr k 58 then nth_section ks n foundsec
      else if n <? foundsec + 1 then Some k else nth_section ks n (foundsec + 1)
  end.

Definition iniparser_getsecname (d : option dictionary) (n : Z) : outcome (option cstring) :=
  match d with
  | None => Done None
  | Some d => if n <? 0 then Done None else ks ← key_slots d; Done (nth_section ks n 0)
  end.

(** The keys of the slots that begin with [keym]. *)
Definition section_keys (ks : list (option cstring)) (keym : cstring) : list cstring :=
  List.filter (fun k => strncmp_eq k keym (length keym)) (omap id ks).

(** [keym] is a buffer of [ASCIILINESZ + 1] bytes. *)
Definition iniparser_getseckeys (d : option dictionary) (s : cstring) : outcome (option (list cstring)) :=
  match d with
  | None => Done None
  | Some d' =>
      found ← iniparser_find_entry d s;
      if negb found then Done None else
      _ ← require (length s <=? ASCIILINESZ)%nat OutOfBounds;
      ks ← key_slots d'; Done (Some (section_keys ks (List.map tolower s ++ [58])))
  end.

Definition iniparser_getsecnkeys (d : option dictionary) (s : cstring) : outcome Z :=
  r ← iniparser_getseckeys d s; Done (match r with None => 0 | Some l => Z.of_nat (length l) end).

(** ** Writing a table *)

(** "%-30s" *)
Definition pad30 (s : cstring) : cstring := s ++ replicate (30 - length s) 32.

Definition slot_bindings (d : dictionary) : outcome (list (cstring * option cstring)) :=
  ks ← key_slots d;
  _ ← require (d_size d <=? length (d_val d))%nat OutOfBounds;
  Done (omap id (zip_with slot_binding ks (take (d_size d) (d_val d)))).

Definition iniparser_dumpsection_ini (d : dictionary) (s : cstring) : outcome (list Z) :=
  found ← iniparser_find_entry (Some d) s;
  if negb found then Done [] else
  _ ← require (length s <? ASCIILINESZ)%nat OutOfBounds;
  bs ← slot_bindings d;
  Done ([10; 91] ++ s ++ [93; 10] ++
        mjoin (List.map (fun '(k, v) => pad30 (drop (length s + 1) k) ++ [32; 61; 32] ++ default [] v ++ [10])
          (List.filter (fun '(k, _) => strncmp_eq k (s ++ [58]) (length s + 1)) bs)) ++ [10]).

Fixpoint dump_sections (d : dictionary) (n i : nat) : outcome (list Z) :=
  match n with
  | O => Done []
  | S n =>
      s ← iniparser_getsecname (Some d) (Z.of_nat i);
      match s with
      | None => Fault NullDeref
      | Some s => a ← iniparser_dumpsection_ini d s; b ← dump_sections d n (S i); Done (a ++ b)
      end
  end.

(** A NULL value printed with %s: glibc writes "(null)". *)
Definition iniparser_dump_ini (d : dictionary) : outcome (list Z) :=
  nsec ← iniparser_getnsec (Some d);
  if nsec <? 1 then
    bs ← slot_bindings d;
    Done (mjoin (List.map (fun '(k, v) => k ++ [32; 61; 32] ++ default (lit "(null)") v ++ [10]) bs))
  else
    t ← dump_sections d (Z.to_nat nsec) 0; Done (t ++ [10]).

(** ** The debugging dumps *)

Definition UNDEF : cstring := lit "UNDEF".

(** One line per binding; the dictionary or the file may be NULL. *)
Definition iniparser_dump (d : option dictionary) (f : bool) : outcome (list Z) :=
  match d with
  | None => Done []
  | Some d =>
      if negb f then Done [] else
      bs ← slot_bindings d;
      Done (mjoin (List.map (fun '(k, v) => [91] ++ k ++ [93; 61] ++
        match v with Some v => [91] ++ v ++ [93; 10] | None => UNDEF ++ [10] end) bs))
  end.

Definition empty_note : cstring := lit "empty dictionary" ++ [10].

(** "%20s" *)
Definition pad20_left (s : cstring) : cstring := replicate (20 - length s) 32 ++ s.

Definition dictionary_dump (d : option dictionary) (out : bool) : outcome (list Z) :=
  match d with
  | None => Done []
  | Some d =>
      if negb out then Done [] else
      if (d_n d <? 1)%nat then Done empty_note else
      bs ← slot_bindings d;
      Done (mjoin (List.map (fun '(k, v) => pad20_left k ++ [9; 91] ++ default UNDEF v ++ [93; 10]) bs))
  end.
