(* ===== verification/IniParserSpec.v ===== *)
(** * IniParserSpec: what a configuration file means, and that it is read so

    [ini_line] is the abstract syntax of a file; its printed form is read back
    by the loader of src/iniparser.c into a table that represents exactly the
    bindings written.  The loader ends on every file, and what the dumper
    writes is loaded to the same bindings. *)

From S2P Require Import Prelude CString Dictionary DictionarySpec IniParser.
From stdpp Require Import base list numbers option gmap.
From Stdlib Require Import ZArith Lia.
#[local] Open Scope Z_scope.

(** ** Spans *)

Lemma take_drop_while p s : take_while p s ++ drop_while p s = s.
Proof. induction s as [|c s IH]; [done|]. cbn. destruct (p c); cbn; [by rewrite IH|done]. Qed.

Definition stops (p : Z -> bool) (s : cstring) : bool := match s with [] => true | c :: _ => negb (p c) end.

Lemma take_while_span p a b : forallb p a = true -> stops p b = true -> take_while p (a ++ b) = a.
Proof.
  intros Ha Hb. induction a as [|c a IH]; cbn in *.
  - destruct b as [|c b]; [done|]. cbn in *. by destruct (p c).
  - apply andb_true_iff in Ha as [-> Ha]. by rewrite IH.
Qed.

Lemma drop_while_span p a b : forallb p a = true -> stops p b = true -> drop_while p (a ++ b) = b.
Proof.
  intros Ha Hb. induction a as [|c a IH]; cbn in *.
  - destruct b as [|c b]; [done|]. cbn in *. by destruct (p c).
  - apply andb_true_iff in Ha as [-> Ha]. by apply IH.
Qed.

Lemma drop_while_stop p s : stops p s = true -> drop_while p s = s.
Proof. intros. by apply (drop_while_span p []). Qed.

Lemma drop_while_all p s : forallb p s = true -> drop_while p s = [].
Proof. intros. rewrite <- (app_nil_r s). by apply drop_while_span. Qed.

(** ** Trimming *)

Definition blanks (s : cstring) : bool := forallb isspace s.

(** No white space at either end. *)
Definition trimmed (s : cstring) : bool := stops isspace s && stops isspace (rev s).

Lemma forallb_rev (p : Z -> bool) s : forallb p (rev s) = forallb p s.
Proof. induction s as [|c s IH]; [done|]. cbn. rewrite forallb_app, IH. cbn. destruct (p c), (forallb p s); done. Qed.

Lemma strip_end_blanks s ws : stops isspace (rev s) = true -> blanks ws = true -> strip_end (s ++ ws) = s.
Proof.
  intros Hs Hw. unfold strip_end. rewrite rev_app_distr, drop_while_span; [apply rev_involutive| |done].
  by rewrite forallb_rev.
Qed.

Lemma strip_end_all ws : blanks ws = true -> strip_end ws = [].
Proof. intros. apply (strip_end_blanks [] ws); done. Qed.

Lemma strstrip_trimmed ws s ws' : trimmed s = true -> blanks ws = true -> blanks ws' = true -> strstrip (ws ++ s ++ ws') = s.
Proof.
  intros Hs Hw Hw'. apply andb_true_iff in Hs as [H1 H2]. unfold strstrip. destruct s as [|c s].
  - cbn [app]. rewrite <- (app_nil_r (ws ++ ws')), drop_while_span; [done| |done]. unfold blanks in *. by rewrite forallb_app, Hw, Hw'.
  - rewrite drop_while_span by done. by apply strip_end_blanks.
Qed.

Lemma strstrip_end s ws : trimmed s = true -> blanks ws = true -> strstrip (s ++ ws) = s.
Proof. intros. by apply (strstrip_trimmed [] s ws). Qed.

Lemma last_rev_head {A} (s : list A) : last s = head (rev s).
Proof. induction s as [|c s IH] using rev_ind; [done|]. by rewrite last_snoc, rev_unit. Qed.

(** ** Abstract files *)

(** Layout around the words is part of a line: leading and trailing white
    space, white space around the equals sign, a trailing comment. *)
Inductive ini_line :=
  | IBlank (ws : cstring)
  | IComment (ws : cstring) (mark : Z) (text : cstring)
  | ISection (ws : cstring) (name : cstring) (ws' : cstring)
  | IValue (ws : cstring) (key : cstring) (ws1 ws2 : cstring) (val : cstring) (ws3 : cstring) (comment : cstring).

Definition line_text (l : ini_line) : cstring :=
  match l with
  | IBlank ws => ws
  | IComment ws mark text => ws ++ mark :: text
  | ISection ws name ws' => ws ++ [91] ++ name ++ [93] ++ ws'
  | IValue ws key ws1 ws2 val ws3 comment => ws ++ key ++ ws1 ++ [61] ++ ws2 ++ val ++ ws3 ++ comment
  end.

Definition print_line (l : ini_line) : list Z := line_text l ++ [10].
Definition print_ini (ls : list ini_line) : list Z := mjoin (print_line <$> ls).

(** Characters a line may hold at all. *)
Definition plain (c : Z) : bool := negb (c =? 0) && negb (c =? 10).
Definition upper (c : Z) : bool := (65 <=? c) && (c <=? 90).

(** A word: not empty, trimmed, in lower case. *)
Definition word (s : cstring) : bool :=
  negb (bool_decide (s = [])) && trimmed s && forallb (fun c => plain c && negb (upper c)) s.

Definition comment_ok (s : cstring) : bool :=
  match s with [] => true | c :: _ => ((c =? 59) || (c =? 35)) end.

(** The conditions under which a line means what it says. *)
Definition line_ok (l : ini_line) : bool :=
  (length (line_text l) <=? 1022)%nat && forallb plain (line_text l) &&
  negb (default 0 (last (strip_end (line_text l))) =? 92) &&
  match l with
  | IBlank ws => blanks ws
  | IComment ws mark text => blanks ws && ((mark =? 59) || (mark =? 35))
  | ISection ws name ws' => blanks ws && blanks ws' && word name && negb (strchr name 93)
  | IValue ws key ws1 ws2 val ws3 comment =>
      blanks ws && blanks ws1 && blanks ws2 && blanks ws3 && comment_ok comment &&
      word key && negb (strchr key 61) && negb (strchr [35; 59; 91] (default 0 (head key))) &&
      trimmed val && negb (strchr val 59) && negb (strchr val 35) && negb (strchr [34; 39] (default 0 (head val)))
  end.

(** The bindings a file makes: the current section, and the map so far. *)
Definition ini_state : Type := cstring * gmap cstring (option cstring).

Definition line_effect (st : ini_state) (l : ini_line) : ini_state :=
  match l with
  | IBlank _ | IComment _ _ _ => st
  | ISection _ name _ => (name, <[name := None]> (snd st))
  | IValue _ key _ _ val _ _ => (fst st, <[fst st ++ [58] ++ key := Some val]> (snd st))
  end.

Definition ini_meaning (ls : list ini_line) : gmap cstring (option cstring) :=
  snd (fold_left line_effect ls ([], ∅)).

(** The keys in the order in which they are first met. *)
Definition line_keys (st : cstring * list cstring) (l : ini_line) : cstring * list cstring :=
  match l with
  | IBlank _ | IComment _ _ _ => st
  | ISection _ name _ => (name, add_key name (snd st))
  | IValue _ key _ _ val _ _ => (fst st, add_key (fst st ++ [58] ++ key) (snd st))
  end.

Definition ini_keys (ls : list ini_line) : list cstring := snd (fold_left line_keys ls ([], [])).

(** ** One line *)

Lemma drop_while_app_not p a b : drop_while p a <> [] -> drop_while p (a ++ b) = drop_while p a ++ b.
Proof. induction a as [|c a IH]; [done|]. cbn. destruct (p c); [done|by intros]. Qed.

Lemma drop_while_nil p s : drop_while p s = [] -> forallb p s = true.
Proof. induction s as [|c s IH]; [done|]. cbn. by destruct (p c). Qed.

Lemma strip_end_app a b : stops isspace (rev a) = true -> strip_end (a ++ b) = a ++ strip_end b.
Proof.
  intros Ha. unfold strip_end. rewrite rev_app_distr. destruct (drop_while isspace (rev b)) eqn:E.
  - rewrite drop_while_span, rev_involutive by (by try apply drop_while_nil). by rewrite app_nil_r.
  - rewrite drop_while_app_not by (by rewrite E). by rewrite rev_app_distr, rev_involutive, E.
Qed.

Lemma strip_end_idemp s : strip_end (strip_end s) = strip_end s.
Proof.
  unfold strip_end. rewrite rev_involutive. f_equal. induction (rev s) as [|c t IH]; [done|]. cbn.
  destruct (isspace c) eqn:E; [done|]. cbn. by rewrite E.
Qed.

Lemma strip_end_head c s : isspace c = false -> strip_end (c :: s) = c :: strip_end s.
Proof. intros Hc. apply (strip_end_app [c]). cbn. by rewrite Hc. Qed.

(** Leading blanks, then a text that does not begin with one. *)
Lemma strstrip_strip_end ws c s : blanks ws = true -> isspace c = false -> strstrip (strip_end (ws ++ c :: s)) = strip_end (c :: s).
Proof.
  intros Hw Hc. change (c :: s) with ([c] ++ s). rewrite app_assoc, strip_end_app.
  2:{ rewrite rev_app_distr. cbn. by rewrite Hc. }
  rewrite <- app_assoc. cbn [app]. unfold strstrip. rewrite drop_while_span by (try done; cbn; by rewrite Hc).
  rewrite !strip_end_head by done. by rewrite strip_end_idemp.
Qed.

Lemma strlwc_word s n : forallb (fun c => plain c && negb (upper c)) s = true -> (length s < n)%nat -> strlwc s n = s.
Proof.
  intros Hs Hn. unfold strlwc. rewrite take_ge by lia. induction s as [|c s IH]; [done|]. cbn in *.
  apply andb_true_iff in Hs as [Hc Hs]. rewrite IH by (done || lia). f_equal. unfold tolower.
  apply andb_true_iff in Hc as [_ Hc]. unfold upper in Hc. by destruct ((65 <=? c) && (c <=? 90)).
Qed.

Lemma word_spec s : word s = true -> s <> [] /\ trimmed s = true /\ forallb (fun c => plain c && negb (upper c)) s = true.
Proof. unfold word. rewrite !andb_true_iff, negb_true_iff, bool_decide_eq_false. tauto. Qed.

Lemma trimmed_head c s : trimmed (c :: s) = true -> isspace c = false.
Proof. unfold trimmed. cbn [stops]. rewrite andb_true_iff, negb_true_iff. tauto. Qed.

Lemma in_set_none set s : Forall (fun x => strchr s x = false) set -> forallb (in_set true set) s = true.
Proof.
  intros H. apply forallb_forall. intros c Hc. unfold in_set. cbn. rewrite Forall_forall in H.
  apply negb_true_iff, not_true_iff_false. intros (x & Hx & E)%existsb_exists. apply Z.eqb_eq in E as ->.
  assert (strchr s c = true) as E by (apply existsb_exists; exists c; split; [done|apply Z.eqb_refl]).
  by rewrite (H c) in E by (by apply list_elem_of_In).
Qed.

(** A scan set that stops at one character. *)
Lemma scan_until s x rest : strchr s x = false -> take_while (in_set true [x]) (s ++ x :: rest) = s /\
  drop_while (in_set true [x]) (s ++ x :: rest) = x :: rest.
Proof.
  intros Hs. assert (forallb (in_set true [x]) s = true) as Ha by (apply in_set_none; by repeat constructor).
  assert (stops (in_set true [x]) (x :: rest) = true) as Hb by (cbn; rewrite Z.eqb_refl; done).
  split; [by apply take_while_span|by apply drop_while_span].
Qed.

Lemma strchr_app a b c : strchr (a ++ b) c = strchr a c || strchr b c.
Proof. apply existsb_app. Qed.

Lemma blanks_no s c : blanks s = true -> isspace c = false -> strchr s c = false.
Proof.
  intros Hb Hc. unfold strchr. apply not_true_iff_false. intros (x & Hx & E)%existsb_exists.
  apply Z.eqb_eq in E as ->. unfold blanks in Hb. rewrite forallb_forall in Hb. by rewrite (Hb c Hx) in Hc.
Qed.

(** The part up to the equals sign, scanned by every value format. *)
Lemma scan_key key ws1 rest fmt :
  key <> [] -> strchr key 61 = false -> blanks ws1 = true ->
  sscanf (key_directives ++ fmt) (key ++ ws1 ++ 61 :: rest) = Str (key ++ ws1) :: sscanf fmt (drop_while isspace rest).
Proof.
  intros Hk H61 Hb. unfold key_directives. cbn [app sscanf].
  destruct (scan_until (key ++ ws1) 61 rest) as [E1 E2].
  { by rewrite strchr_app, H61, (blanks_no ws1). }
  rewrite app_assoc, E1, E2. destruct key as [|c key]; [done|]. cbn [app]. done.
Qed.

Lemma scan_value key ws1 rest fmt k0 v0 :
  key <> [] -> strchr key 61 = false -> blanks ws1 = true ->
  scan2 (key_directives ++ fmt) (key ++ ws1 ++ 61 :: rest) k0 v0 =
  match sscanf fmt (drop_while isspace rest) with
  | [] => (false, key ++ ws1, v0)
  | [Str v] => (true, key ++ ws1, v)
  | _ => (false, k0, v0)
  end.
Proof.
  intros. unfold scan2. rewrite scan_key by done. by destruct (sscanf fmt _) as [|[] []].
Qed.

(** What follows the equals sign, once stripped. *)
Lemma strip_value ws2 val ws3 comment :
  blanks ws2 = true -> blanks ws3 = true -> trimmed val = true -> comment_ok comment = true ->
  exists rest, drop_while isspace (strip_end (ws2 ++ val ++ ws3 ++ comment)) = val ++ rest /\
  (rest = [] \/ exists ws c t, rest = ws ++ c :: t /\ blanks ws = true /\ (c = 59 \/ c = 35) /\ (val = [] -> ws = [])).
Proof.
  intros H2 H3 Hv Hc. destruct comment as [|c t].
  - exists []. split; [|by left]. rewrite !app_nil_r. destruct val as [|x val].
    + rewrite strip_end_all; [done|]. cbn [app]. unfold blanks in *. by rewrite forallb_app, H2, H3.
    + pose proof (trimmed_head _ _ Hv) as Hx. apply andb_true_iff in Hv as [_ Hr].
      rewrite app_assoc, strip_end_blanks; [|rewrite rev_app_distr|done].
      * apply drop_while_span; [done|]. cbn. by rewrite Hx.
      * destruct (rev (x :: val)) as [|y r] eqn:E; [|done]. cbn in E. by apply app_nil in E as [_ ?].
  - cbn in Hc. apply orb_true_iff in Hc. assert (c = 59 \/ c = 35) as Hc' by (destruct Hc as [->%Z.eqb_eq | ->%Z.eqb_eq]; auto).
    assert (isspace c = false) as Hsp by (by destruct Hc' as [->| ->]).
    replace (ws2 ++ val ++ ws3 ++ c :: t) with ((ws2 ++ val ++ ws3 ++ [c]) ++ t) by (rewrite <- !app_assoc; done).
    rewrite strip_end_app; [|rewrite !app_assoc, rev_app_distr; cbn; by rewrite Hsp].
    rewrite <- !app_assoc. cbn [app]. destruct val as [|x val].
    + exists (c :: strip_end t). cbn [app]. split; [|right; by exists [], c, (strip_end t)].
      rewrite app_assoc, drop_while_span; [done| |cbn; by rewrite Hsp]. unfold blanks in *. by rewrite forallb_app, H2, H3.
    + exists (ws3 ++ c :: strip_end t). split; [|right; exists ws3, c, (strip_end t); by split_and!].
      apply drop_while_span; [done|]. cbn. by rewrite (trimmed_head _ _ Hv).
Qed.

(** The value is cut at the comment and trimmed. *)
Lemma scan_unquoted val ws c t :
  val <> [] -> strchr val 59 = false -> strchr val 35 = false -> blanks ws = true -> (c = 59 \/ c = 35) ->
  sscanf [Scan true [59; 35] ] (val ++ ws ++ c :: t) = [Str (val ++ ws)].
Proof.
  intros Hv H1 H2 Hb Hc. cbn [sscanf]. rewrite app_assoc.
  assert (forallb (in_set true [59; 35]) (val ++ ws) = true) as Ha.
  { apply in_set_none. repeat constructor; by rewrite strchr_app, ?H1, ?H2, (blanks_no ws). }
  rewrite take_while_span; [|done|by destruct Hc as [->| ->] ]. by destruct val.
Qed.

Lemma scan_equals key ws1 rest k0 v0 :
  key <> [] -> strchr key 61 = false -> blanks ws1 = true ->
  exists v, scan2 only_equals (key ++ ws1 ++ 61 :: rest) k0 v0 = (true, key ++ ws1, v).
Proof.
  intros Hk H61 Hb. unfold scan2, only_equals. cbn [sscanf].
  destruct (scan_until (key ++ ws1) 61 rest) as [E1 E2]; [by rewrite strchr_app, H61, (blanks_no ws1)|].
  rewrite app_assoc, E1, E2. destruct key as [|c key]; [done|]. cbn [app drop_while isspace].
  cbn. by eexists.
Qed.

Lemma last_cons_ne {A} (x : A) s d : s <> [] -> default d (last (x :: s)) = default d (last s).
Proof. by destruct s. Qed.

(** The scans of a value line, tried in order, find the value. *)
Lemma scan_formats key ws1 rest val r k0 v0 {A} (ok : cstring -> cstring -> A) (err : cstring -> cstring -> A) :
  key <> [] -> strchr key 61 = false -> blanks ws1 = true -> trimmed val = true ->
  strchr val 59 = false -> strchr val 35 = false -> strchr [34; 39] (default 0 (head val)) = false ->
  drop_while isspace rest = val ++ r ->
  (r = [] \/ exists ws c t, r = ws ++ c :: t /\ blanks ws = true /\ (c = 59 \/ c = 35) /\ (val = [] -> ws = [])) ->
  (let line := key ++ ws1 ++ 61 :: rest in
   let '(b, k, v) := scan2 double_quoted line k0 v0 in if b then ok k v else
   let '(b, k, v) := scan2 single_quoted line k v in if b then ok k v else
   let '(b, k, v) := scan2 unquoted line k v in
   if b then let v := strstrip v in ok k (if strcmp_eq v [34; 34] || strcmp_eq v [39; 39] then [] else v) else
   let '(b, k, v) := scan2 only_comment line k v in if b then ok k [] else
   let '(b, k, v) := scan2 only_equals line k v in if b then ok k [] else err k v) = ok (key ++ ws1) val.
Proof.
  intros Hk H61 Hb Ht H59 H35 Hq E Hr. cbv zeta. unfold double_quoted, single_quoted, unquoted, only_comment.
  rewrite scan_value, E by done. destruct val as [|x val].
  - destruct Hr as [->|(ws & c & t & -> & _ & Hc & Hws)].
    + do 4 (try rewrite scan_value, E by done; cbn -[scan2 key_directives]).
      destruct (scan_equals key ws1 rest (key ++ ws1) v0) as [v ->]; done.
    + rewrite (Hws eq_refl) in E |- *. cbn [app] in *. destruct Hc as [->| ->];
        do 4 (try rewrite scan_value, E by done; cbn -[scan2 key_directives]); done.
  - unfold strchr in Hq. cbn [existsb head from_option id] in Hq. rewrite !orb_false_iff, !Z.eqb_neq in Hq.
    destruct Hq as (Hq1 & Hq2 & _).
    assert (sscanf [Char 34; Scan true [34]; Char 34] ((x :: val) ++ r) = []) as ->
      by (cbn [sscanf app]; by rewrite (proj2 (Z.eqb_neq x 34)) by auto).
    rewrite scan_value, E by done.
    assert (sscanf [Char 39; Scan true [39]; Char 39] ((x :: val) ++ r) = []) as ->
      by (cbn [sscanf app]; by rewrite (proj2 (Z.eqb_neq x 39)) by auto).
    rewrite scan_value, E by done.
    assert (exists ws, blanks ws = true /\ sscanf [Scan true [59; 35] ] ((x :: val) ++ r) = [Str ((x :: val) ++ ws)]) as (ws & Hws & ->).
    { destruct Hr as [->|(ws & c & t & -> & Hws & Hc & _)]; [|exists ws; split; [done|by apply scan_unquoted] ].
      exists []. split; [done|]. cbn [sscanf]. rewrite take_while_span; [by rewrite app_nil_r| |done].
      apply in_set_none. by repeat constructor. }
    rewrite (strstrip_end (x :: val) ws) by done.
    unfold strcmp_eq. rewrite !bool_decide_eq_false_2; [done| |]; intros [= -> ->]; done.
Qed.

Lemma parse_value ws key ws1 ws2 val ws3 comment b :
  line_ok (IValue ws key ws1 ws2 val ws3 comment) = true ->
  iniparser_line true (strip_end (line_text (IValue ws key ws1 ws2 val ws3 comment))) b =
  (LINE_VALUE, {| b_section := b_section b; b_key := key; b_val := val |}).
Proof.
  unfold line_ok. rewrite !andb_true_iff, !negb_true_iff.
  intros (_ & (((((((((((Hw & H1) & H2) & H3) & Hc) & Hk) & H61) & Hh) & Ht) & H59) & H35) & Hq)).
  apply word_spec in Hk as (Hne & Htr & Hlow). destruct key as [|x key]; [done|].
  pose proof (trimmed_head _ _ Htr) as Hx. cbn [line_text]. unfold iniparser_line.
  cbn [app]. rewrite strstrip_strip_end by done.
  change (x :: key ++ ws1 ++ 61 :: ws2 ++ val ++ ws3 ++ comment)
    with ((x :: key) ++ ws1 ++ [61] ++ ws2 ++ val ++ ws3 ++ comment).
  rewrite (app_assoc ws1), (app_assoc (x :: key)), strip_end_app by (rewrite !app_assoc, rev_app_distr; done).
  rewrite <- !app_assoc. cbn [app].
  destruct (strip_value ws2 val ws3 comment H2 H3 Ht Hc) as (r & Er & Hr).
  set (rest := strip_end (ws2 ++ val ++ ws3 ++ comment)) in *.
  unfold strchr in Hh. cbn [existsb head from_option id] in Hh. rewrite !orb_false_iff, !Z.eqb_neq in Hh.
  destruct Hh as (Hh1 & Hh2 & Hh3 & _). cbn [head from_option id].
  rewrite (proj2 (Z.eqb_neq x 35)), (proj2 (Z.eqb_neq x 59)), (proj2 (Z.eqb_neq x 91)) by auto.
  cbn [length Nat.ltb Nat.leb orb andb].
  etransitivity; [apply (scan_formats (x :: key) ws1 rest val r (b_key b) (b_val b)
    (fun k v => (LINE_VALUE, {| b_section := b_section b; b_key := strlwc (strstrip k) (S (length (key ++ ws1 ++ 61 :: rest))); b_val := v |}))
    (fun k v => (LINE_ERROR, {| b_section := b_section b; b_key := k; b_val := v |}))); try done|].
  cbn beta. rewrite strstrip_end, strlwc_word; try done.
  rewrite !length_app. cbn [length]. lia.
Qed.

Lemma parse_section ws name ws' b :
  line_ok (ISection ws name ws') = true ->
  iniparser_line true (strip_end (line_text (ISection ws name ws'))) b =
  (LINE_SECTION, {| b_section := name; b_key := b_key b; b_val := b_val b |}).
Proof.
  unfold line_ok. rewrite !andb_true_iff, !negb_true_iff. intros (_ & ((Hw & Hw') & Hn) & H93).
  apply word_spec in Hn as (Hne & Htr & Hlow). cbn [line_text]. unfold iniparser_line.
  cbn [app]. rewrite strstrip_strip_end by done.
  change (91 :: name ++ 93 :: ws') with ([91] ++ name ++ [93] ++ ws'). rewrite (app_assoc name), (app_assoc [91]).
  rewrite strip_end_blanks by (try done; rewrite app_assoc, rev_app_distr; done). cbn [app].
  assert (default 0 (last (91 :: name ++ [93])) = 93) as -> by (rewrite app_comm_cons, last_snoc; done).
  cbn -[sscanf strlwc]. f_equal. f_equal. cbn [sscanf]. change (91 =? 91) with true. cbv iota.
  destruct (scan_until name 93 [] H93) as [-> _]. destruct name as [|c name]; [done|]. cbn [sscanf].
  pose proof (strstrip_end (c :: name) [] Htr eq_refl) as E. rewrite app_nil_r in E. rewrite E.
  apply strlwc_word; [done|]. rewrite length_app. cbn [length]. lia.
Qed.

Lemma parse_other l b :
  line_ok l = true -> match l with IBlank _ | IComment _ _ _ => True | _ => False end ->
  exists sta, iniparser_line true (strip_end (line_text l)) b = (sta, b) /\ (sta = LINE_EMPTY \/ sta = LINE_COMMENT).
Proof.
  unfold line_ok. rewrite !andb_true_iff. intros (_ & Hl) Hk. destruct l as [ws|ws c t| |]; try done; unfold iniparser_line.
  - cbn [line_text]. rewrite strip_end_all by done. exists LINE_EMPTY. by split; [|left].
  - apply andb_true_iff in Hl as [Hw Hc]. exists LINE_COMMENT. split; [|by right]. cbn [line_text].
    assert (isspace c = false) as Hs
      by (apply orb_true_iff in Hc; destruct Hc as [->%Z.eqb_eq | ->%Z.eqb_eq]; done).
    rewrite strstrip_strip_end, strip_end_head by done. cbn [head from_option id].
    replace ((c =? 35) || (c =? 59)) with true by (by rewrite orb_comm). done.
Qed.

(** ** Reading lines *)

Lemma fgets_line n t f : (length t < n)%nat -> forallb plain t = true -> fgets n (t ++ 10 :: f) = (t ++ [10], f, false).
Proof.
  revert n. induction t as [|c t IH]; intros [|n] Hn Hp; cbn in *; try lia; [done|].
  apply andb_true_iff in Hp as [Hc Hp]. unfold plain in Hc.
  apply andb_true_iff in Hc as [_ ->%negb_true_iff]. by rewrite IH by (done || lia).
Qed.

Lemma up_to_nul_plain t : forallb plain t = true -> up_to_nul (t ++ [10]) = t ++ [10].
Proof.
  induction t as [|c t IH]; [done|]. cbn. intros [Hc Hp]%andb_true_iff. rewrite (IH Hp).
  unfold plain in Hc. apply andb_true_iff in Hc as [->%negb_true_iff _]. done.
Qed.

Lemma load_loop_fresh env fuel k f line b d errs :
  load_loop env fuel k f line 0 b d errs = load_loop env fuel k f [] 0 b d errs.
Proof. by destruct fuel. Qed.

(** One line of a file costs one turn of the loop. *)
Lemma load_step env fuel k l f b d errs :
  line_ok l = true -> le_dup (env k) = true ->
  load_loop env (S fuel) k (print_line l ++ f) [] 0 b d errs =
  let '(sta, b) := iniparser_line true (strip_end (line_text l)) b in
  match sta with
  | LINE_EMPTY | LINE_COMMENT => load_loop env fuel (S k) f [] 0 b d errs
  | LINE_ERROR => load_loop env fuel (S k) f [] 0 b d true
  | LINE_SECTION | LINE_VALUE =>
      r ← (match sta with
           | LINE_SECTION => dictionary_set (le_set (env k)) (Some d) (Some (b_section b)) None
           | _ => dictionary_set (le_set (env k)) (Some d) (Some (b_section b ++ [58] ++ b_key b)) (Some (b_val b))
           end);
      let '(mem_err, d') := r in
      let dict := default d d' in
      if mem_err <? 0 then Done (if errs then None else Some dict)
      else load_loop env fuel (S k) f [] 0 b dict errs
  end.
Proof.
  intros Hl Hd. unfold line_ok in Hl. rewrite !andb_true_iff in Hl. destruct Hl as (((Hlen & Hp) & H92) & _).
  apply Nat.leb_le in Hlen. unfold print_line. rewrite <- app_assoc. cbn [app load_loop].
  destruct (line_text l ++ 10 :: f) as [|c0 f0] eqn:Ef; [by destruct (line_text l)|]. rewrite <- Ef. clear c0 f0 Ef.
  rewrite fgets_line; [|unfold ASCIILINESZ; lia|done]. cbn [take app]. rewrite up_to_nul_plain by done.
  destruct (line_text l) as [|c t] eqn:Et.
  - cbn [app length Nat.leb]. rewrite load_loop_fresh. done.
  - rewrite length_app. rewrite (proj2 (Nat.leb_gt _ 1)) by (cbn; lia).
    rewrite last_snoc. cbn [from_option id]. change (10 =? 10) with true. cbn [negb andb].
    assert (strip_end ((c :: t) ++ [10]) = strip_end (c :: t)) as ->.
    { unfold strip_end. by rewrite rev_app_distr. }
    apply negb_true_iff in H92. rewrite H92, Hd. reflexivity.
Qed.

Definition mem_available (e : line_env) : Prop :=
  le_dup e = true /\ se_grow (le_set e) = true /\ se_key (le_set e) = true /\ se_val (le_set e) = true.

Lemma load_lines env ls fuel k b d m ks :
  (forall j, mem_available (env j)) -> Forall (fun l => line_ok l = true) ls -> (length ls < fuel)%nat ->
  dict_wf d -> represents d m -> filled d ks ->
  exists d', load_loop env fuel k (print_ini ls) [] 0 b d false = Done (Some d') /\ dict_wf d' /\
  represents d' (snd (fold_left line_effect ls (b_section b, m))) /\
  filled d' (snd (fold_left line_keys ls (b_section b, ks))).
Proof.
  intros Hm Hls. revert fuel k b d m ks. induction Hls as [|l ls Hl Hls IH]; intros fuel k b d m ks Hf Hw Hr Hd.
  { destruct fuel; [cbn in Hf; lia|]. exists d. done. }
  destruct fuel as [|fuel]; [cbn in Hf; lia|]. cbn [length] in Hf.
  change (print_ini (l :: ls)) with (print_line l ++ print_ini ls). rewrite load_step; [|done|apply Hm].
  destruct (Hm k) as (_ & M1 & M2 & M3). cbn [fold_left].
  assert (forall sec b0 d0, b_section b0 = sec -> b_section b = sec -> d0 = d ->
          exists d', load_loop env fuel (S k) (print_ini ls) [] 0 b0 d0 false = Done (Some d') /\ dict_wf d' /\
          represents d' (snd (fold_left line_effect ls (sec, m))) /\
          filled d' (snd (fold_left line_keys ls (sec, ks)))) as Hskip.
  { intros sec b0 d0 <- Hb ->. apply IH; (done || lia). }
  destruct l as [ws|ws c t|ws name ws'|ws key ws1 ws2 val ws3 comment].
  - destruct (parse_other _ b Hl I) as (sta & -> & [-> | ->]); by apply Hskip.
  - destruct (parse_other _ b Hl I) as (sta & -> & [-> | ->]); by apply Hskip.
  - rewrite parse_section by done. cbn [b_section b_key b_val].
    destruct (set_memory_ok (le_set (env k)) d m name None) as (d1 & -> & W1 & R1 & F1); try done.
    cbn [mbind outcome_bind]. apply (IH fuel (S k) {| b_section := name; b_key := b_key b; b_val := b_val b |} d1 (<[name := None]> m)); [lia|done|done|by apply F1].
  - rewrite parse_value by done. cbn [b_section b_key b_val].
    destruct (set_memory_ok (le_set (env k)) d m (b_section b ++ [58] ++ key) (Some val)) as (d1 & -> & W1 & R1 & F1); try done.
    cbn [mbind outcome_bind]. apply (IH fuel (S k) {| b_section := b_section b; b_key := key; b_val := val |} d1); [lia|done|done|by apply F1].
Qed.

Lemma print_ini_length ls : (length ls <= length (print_ini ls))%nat.
Proof.
  induction ls as [|l ls IH]; [done|]. change (print_ini (l :: ls)) with (print_line l ++ print_ini ls).
  unfold print_line. rewrite !length_app. cbn [length]. lia.
Qed.

Definition new_available (e : new_env) : Prop :=
  ne_dict e = true /\ ne_val e = true /\ ne_key e = true /\ ne_hash e = true.

Lemma load_start new env f :
  new_available new ->
  exists d, dict_wf d /\ represents d ∅ /\ filled d [] /\
  iniparser_load new env (Some f) =
  load_loop env (S (length f)) 0 f [] 0 {| b_section := []; b_key := []; b_val := [] |} d false.
Proof.
  intros (E1 & E2 & E3 & E4). unfold iniparser_load, dictionary_new. rewrite E1, E2, E3, E4. cbn [negb].
  change (if (0 <? DICTMINSZ)%nat then DICTMINSZ else 0%nat) with 128%nat.
  eexists. split; [|split; [|split; [|reflexivity] ] ]; [apply new_wf| |split; [done|split; [done|cbn; lia] ] ].
  intros k v. rewrite lookup_empty. split; [done|]. intros (i & Hi & _). by apply lookup_replicate in Hi as [ [=] _].
Qed.

(** A file of well-formed lines is loaded to the bindings it states, in the
    order of the file. *)
Lemma load_order new env ls :
  new_available new -> (forall j, mem_available (env j)) -> Forall (fun l => line_ok l = true) ls ->
  exists d, iniparser_load new env (Some (print_ini ls)) = Done (Some d) /\ dict_wf d /\ represents d (ini_meaning ls) /\
  filled d (ini_keys ls).
Proof.
  intros Hn Hm Hls. destruct (load_start new env (print_ini ls) Hn) as (d0 & Hw & Hr & Hf & ->).
  pose proof (print_ini_length ls). apply (load_lines env ls _ 0 {| b_section := []; b_key := []; b_val := [] |} d0 ∅ []); (done || lia).
Qed.

Lemma load_meaning new env ls :
  new_available new -> (forall j, mem_available (env j)) -> Forall (fun l => line_ok l = true) ls ->
  exists d, iniparser_load new env (Some (print_ini ls)) = Done (Some d) /\ dict_wf d /\ represents d (ini_meaning ls).
Proof. intros Hn Hm Hls. destruct (load_order new env ls Hn Hm Hls) as (d & ? & ? & ? & _). by exists d. Qed.

(** ** The loader ends on every file *)

Lemma fgets_consumes n f t r eof : fgets n f = (t, r, eof) -> f <> [] -> (0 < n)%nat ->
  (length r < length f)%nat /\ (length t <= n)%nat.
Proof.
  revert f t r eof. induction n as [|n IH]; intros f t r eof H Hf Hn; [lia|]. destruct f as [|c f]; [done|]. cbn in H.
  destruct (c =? 10); [injection H as <- <- <-; cbn; lia|].
  destruct (fgets n f) as [[t' r'] e'] eqn:E. injection H as <- <- <-. cbn [length].
  destruct f as [|c' f]; [destruct n; cbn in E; injection E as <- <- <-; cbn; lia|].
  destruct n as [|n]; [cbn in E; injection E as <- <- <-; cbn; lia|].
  destruct (IH _ _ _ _ E); [done|lia|]. lia.
Qed.

Lemma up_to_nul_length l : (length (up_to_nul l) <= length l)%nat.
Proof. induction l as [|c l IH]; [done|]. cbn. destruct (c =? 0); cbn; lia. Qed.

Lemma strip_end_length s : (length (strip_end s) <= length s)%nat.
Proof.
  unfold strip_end. rewrite length_rev. rewrite <- (length_rev s).
  induction (rev s) as [|c t IH]; [done|]. cbn. destruct (isspace c); cbn; lia.
Qed.

Lemma load_loop_total env fuel k f line n b d errs :
  dict_wf d -> (n <= 1022)%nat -> (length f < fuel)%nat ->
  exists r, load_loop env fuel k f line n b d errs = Done r /\ forall d', r = Some d' -> dict_wf d'.
Proof.
  revert k f line n b d errs. induction fuel as [|fuel IH]; intros k f line n b d errs Hw Hn Hf; [lia|]. cbn [load_loop].
  destruct f as [|c f]; [eexists; split; [reflexivity|]; intros d'; by destruct errs; [|intros [= <-] ] |].
  destruct (fgets (ASCIILINESZ - n - 1) (c :: f)) as [[t r] eof] eqn:E.
  destruct (fgets_consumes _ _ _ _ _ E) as [Hr Ht]; [done|unfold ASCIILINESZ; lia|].
  set (l := up_to_nul (take n line ++ t)). assert (length l <= 1023)%nat as Hl.
  { unfold l. etransitivity; [apply up_to_nul_length|]. rewrite length_app, length_take. unfold ASCIILINESZ in Ht. lia. }
  destruct (length l <=? 1)%nat; [apply IH; (done || lia)|].
  destruct (negb _ && negb eof); [by eexists|].
  destruct (_ =? 92); [apply IH; [done| |lia]; pose proof (strip_end_length l); lia|].
  destruct (iniparser_line (le_dup (env k)) (strip_end l) b) as [sta b'].
  assert (forall key val, exists r0, (r0 ← dictionary_set (le_set (env k)) (Some d) (Some key) val;
     let '(mem_err, d') := r0 in let dict := default d d' in
     if mem_err <? 0 then Done (if errs then None else Some dict) else load_loop env fuel (S k) r [] 0 b' dict errs) = Done r0 /\
     forall d', r0 = Some d' -> dict_wf d') as Hset.
  { intros key val. destruct (dictionary_set_spec (le_set (env k)) d (dict_map d) key val Hw) as (x & d1 & -> & W1 & _).
    { by apply represents_dict_map. }
    cbn [mbind outcome_bind from_option id]. destruct (x <? 0); [|apply IH; (done || lia)].
    eexists. split; [reflexivity|]. intros d'. by destruct errs; [|intros [= <-] ]. }
  destruct sta; try (apply IH; (done || lia)); apply Hset.
Qed.

(** C24. The loader ends on every sequence of bytes, whatever malloc answers
    meanwhile, without touching memory outside its tables; a table it returns
    is well formed. *)
Theorem iniparser_load_total new env file :
  new_available new ->
  exists r, iniparser_load new env file = Done r /\ forall d, r = Some d -> dict_wf d.
Proof.
  intros Hn. destruct file as [f|]; [|by exists None].
  destruct (load_start new env f Hn) as (d & Hw & _ & _ & ->). apply load_loop_total; [done|lia|lia].
Qed.

(** ** Getters *)

Lemma ini_lookup_spec d m key : dict_wf d -> represents d m -> ini_lookup (Some d) (Some key) = Done (m !! lookup_key key).
Proof. apply dictionary_get_lookup. Qed.

Lemma getstring_spec d m key def :
  dict_wf d -> represents d m -> iniparser_getstring (Some d) key def = Done (default def (m !! lookup_key key)).
Proof. intros. unfold iniparser_getstring. by rewrite (ini_lookup_spec d m). Qed.

Lemma getint_spec d m key def s :
  dict_wf d -> represents d m -> m !! lookup_key key = Some (Some s) ->
  iniparser_getint (Some d) key def = Done (int_of_long (strtol0 s)).
Proof.
  intros Hw Hr E. unfold iniparser_getint, iniparser_getlongint. by rewrite (ini_lookup_spec d m), E by done.
Qed.

Lemma getint_missing d m key def :
  dict_wf d -> represents d m -> m !! lookup_key key = None ->
  iniparser_getint (Some d) key def = Done (int_of_long def).
Proof.
  intros Hw Hr E. unfold iniparser_getint, iniparser_getlongint. by rewrite (ini_lookup_spec d m), E by done.
Qed.

(** C25. A configuration file says what is read from it: after loading a file
    of well-formed lines (sections, values with white space and comments
    around them, comments, blank lines), every getstring answers the value
    written last for the key, upper or lower case, and the default for a key
    that is not in the file. *)
Theorem ini_file_read_back new env ls :
  new_available new -> (forall j, mem_available (env j)) -> Forall (fun l => line_ok l = true) ls ->
  exists d, iniparser_load new env (Some (print_ini ls)) = Done (Some d) /\
  forall key def, iniparser_getstring (Some d) key def = Done (default def (ini_meaning ls !! lookup_key key)).
Proof.
  intros Hn Hm Hls. destruct (load_meaning new env ls Hn Hm Hls) as (d & Hd & Hw & Hr).
  exists d. split; [done|]. intros key def. by apply getstring_spec.
Qed.

(** ** Sections *)

(** The section names of a table, in slot order. *)
Definition is_section (k : cstring) : bool := negb (strchr k 58).
Definition sections (d : dictionary) : list cstring := List.filter is_section (omap id (d_key d)).

Lemma count_sections_spec ks n : count_sections ks n = n + Z.of_nat (length (List.filter is_section (omap id ks))).
Proof.
  revert n. induction ks as [|[k|] ks IH]; intros n; cbn [count_sections omap list_omap id List.filter length]; [lia| |apply IH].
  rewrite IH. change (is_section k) with (negb (strchr k 58)). destruct (strchr k 58); cbn [negb length]; lia.
Qed.

Lemma nth_section_spec ks n f :
  f <= n -> nth_section ks n f = List.filter is_section (omap id ks) !! Z.to_nat (n - f).
Proof.
  revert f. induction ks as [|[k|] ks IH]; intros f Hf; cbn [nth_section omap list_omap id List.filter]; [done| |by apply IH].
  change (is_section k) with (negb (strchr k 58)). destruct (strchr k 58); cbn [negb]; [by apply IH|].
  destruct (Z.ltb_spec n (f + 1)).
  - replace (Z.to_nat (n - f)) with 0%nat by lia. done.
  - rewrite IH by lia. replace (Z.to_nat (n - f)) with (S (Z.to_nat (n - (f + 1)))) by lia. done.
Qed.

Lemma key_slots_wf d : dict_wf d -> key_slots d = Done (d_key d).
Proof.
  intros Hw. unfold key_slots. rewrite require_true by (apply Nat.leb_le; rewrite (dw_key _ Hw); lia).
  cbn [mbind outcome_bind]. by rewrite take_ge by (rewrite (dw_key _ Hw); lia).
Qed.

Lemma getnsec_spec d : dict_wf d -> iniparser_getnsec (Some d) = Done (Z.of_nat (length (sections d))).
Proof. intros Hw. unfold iniparser_getnsec. rewrite key_slots_wf by done. cbn [mbind outcome_bind]. by rewrite count_sections_spec. Qed.

Lemma getsecname_spec d i : dict_wf d -> iniparser_getsecname (Some d) (Z.of_nat i) = Done (sections d !! i).
Proof.
  intros Hw. unfold iniparser_getsecname. rewrite (proj2 (Z.ltb_ge _ _)) by lia. rewrite key_slots_wf by done.
  cbn [mbind outcome_bind]. rewrite nth_section_spec by lia. by rewrite Z.sub_0_r, Nat2Z.id.
Qed.

Lemma slot_bindings_wf d : dict_wf d -> slot_bindings d = Done (bindings d).
Proof.
  intros Hw. unfold slot_bindings. rewrite key_slots_wf by done. cbn [mbind outcome_bind].
  rewrite require_true by (apply Nat.leb_le; rewrite (dw_val _ Hw); lia). cbn [mbind outcome_bind].
  by rewrite take_ge by (rewrite (dw_val _ Hw); lia).
Qed.

(** The debugging dumps print every binding of a well-formed table once, in
    slot order; an empty one is announced. *)
Lemma dumps_total d : dict_wf d ->
  iniparser_dump (Some d) true = Done (mjoin (List.map (fun '(k, v) => [91] ++ k ++ [93; 61] ++
    match v with Some v => [91] ++ v ++ [93; 10] | None => UNDEF ++ [10] end) (bindings d))) /\
  exists out, dictionary_dump (Some d) true = Done out /\ (d_n d = 0%nat -> out = empty_note).
Proof.
  intros Hw. unfold iniparser_dump, dictionary_dump. rewrite slot_bindings_wf by done. split; [reflexivity|]. cbn [negb].
  destruct (Nat.ltb_spec (d_n d) 1); eexists; (split; [reflexivity|]); [done|lia].
Qed.

Lemma elem_of_sections d s : dict_wf d -> s ∈ sections d <-> is_section s = true /\ exists v, binds d s v.
Proof.
  intros Hw. unfold sections. rewrite list_elem_of_In, filter_In, <- list_elem_of_In, list_elem_of_omap. split.
  - intros [(k & Hk & E) Hs]. cbn in E. subst k. split; [done|]. apply list_elem_of_lookup in Hk as [i Hi].
    destruct (lookup_lt_is_Some_2 (d_val d) i) as [v Hv]; [|by exists v, i].
    rewrite (dw_val _ Hw), <- (dw_key _ Hw). by eapply lookup_lt_Some.
  - intros [Hs (v & i & Hi & _)]. split; [|done]. exists (Some s). split; [by eapply list_elem_of_lookup_2|done].
Qed.

(** ** Writing a table and reading it back *)

(** The lines the dumper writes for a binding and for a section. *)
Definition dump_value (s k : cstring) (v : option cstring) : ini_line :=
  let key := drop (length s + 1) k in
  IValue [] key (replicate (30 - length key) 32 ++ [32]) [32] (default [] v) [] [].

Definition of_section (s : cstring) (bs : list (cstring * option cstring)) : list (cstring * option cstring) :=
  List.filter (fun '(k, _) => strncmp_eq k (s ++ [58]) (length s + 1)) bs.

Definition dump_section (bs : list (cstring * option cstring)) (s : cstring) : list ini_line :=
  [IBlank []; ISection [] s [] ] ++ List.map (fun '(k, v) => dump_value s k v) (of_section s bs) ++ [IBlank [] ].

(** A table that comes from a file: section names bind NULL, every other key
    is that of a value in one of the sections, and all can be written on a line. *)
Definition dumpable_binding (d : dictionary) (b : cstring * option cstring) : Prop :=
  let '(k, v) := b in
  if is_section k then v = None /\ line_ok (ISection [] k []) = true
  else exists s, is_section s = true /\ binds d s None /\ take (length s + 1) k = s ++ [58] /\ is_Some v /\
       line_ok (dump_value s k v) = true.

Definition dumpable (d : dictionary) : Prop := dict_wf d /\ Forall (dumpable_binding d) (bindings d).

Lemma print_ini_app a b : print_ini (a ++ b) = print_ini a ++ print_ini b.
Proof. unfold print_ini. by rewrite fmap_app, join_app. Qed.

Lemma print_dump_values s l :
  print_ini (List.map (fun '(k, v) => dump_value s k v) l) =
  mjoin (List.map (fun '(k, v) => pad30 (drop (length s + 1) k) ++ [32; 61; 32] ++ default [] v ++ [10]) l).
Proof.
  induction l as [|[k v] l IH]; [done|]. cbn [List.map mjoin list_join].
  change (print_ini (?x :: ?y)) with (print_line x ++ print_ini y). rewrite IH. f_equal.
  unfold print_line, dump_value, pad30. cbn [line_text app]. rewrite !app_nil_r, <- !app_assoc. done.
Qed.

Lemma section_line_ok s : line_ok (ISection [] s []) = true -> word s = true /\ (length s <= 1020)%nat.
Proof.
  unfold line_ok. cbn [line_text app]. rewrite !andb_true_iff. intros (((Hl & _) & _) & (_ & Hw) & _).
  split; [done|]. apply Nat.leb_le in Hl. cbn in Hl. rewrite length_app in Hl. cbn in Hl. lia.
Qed.

Lemma dump_section_text d s :
  dumpable d -> s ∈ sections d -> iniparser_dumpsection_ini d s = Done (print_ini (dump_section (bindings d) s)).
Proof.
  intros [Hw Hd] (Hs & v & Hb)%elem_of_sections; [|done].
  assert (dumpable_binding d (s, v)) as Hds by (rewrite Forall_forall in Hd; by apply Hd, elem_of_bindings).
  cbn in Hds. rewrite Hs in Hds. destruct Hds as [-> Hok]. apply section_line_ok in Hok as [Hword Hlen].
  apply word_spec in Hword as (_ & _ & Hlow).
  unfold iniparser_dumpsection_ini, iniparser_find_entry.
  rewrite (ini_lookup_spec d (dict_map d)) by (by try apply represents_dict_map). cbn [mbind outcome_bind].
  unfold lookup_key. rewrite strlwc_word by (try done; unfold ASCIILINESZ; lia).
  assert (dict_map d !! s = Some None) as -> by (by apply represents_dict_map).
  rewrite bool_decide_true by eauto. cbn [negb].
  rewrite require_true by (apply Nat.ltb_lt; unfold ASCIILINESZ; lia). cbn [mbind outcome_bind].
  rewrite slot_bindings_wf by done. cbn [mbind outcome_bind]. f_equal.
  unfold dump_section. rewrite !print_ini_app, print_dump_values. unfold of_section. cbn. by rewrite app_nil_r, <- !app_assoc.
Qed.

Lemma dump_sections_text d l1 l2 :
  dumpable d -> sections d = l1 ++ l2 ->
  dump_sections d (length l2) (length l1) = Done (print_ini (mjoin (dump_section (bindings d) <$> l2))).
Proof.
  intros Hd. revert l1. induction l2 as [|s l2 IH]; intros l1 E; [done|]. cbn [length dump_sections].
  rewrite getsecname_spec by apply Hd. rewrite E, lookup_app_r by lia. rewrite Nat.sub_diag.
  cbn [lookup list_lookup mbind outcome_bind].
  rewrite dump_section_text; [|done|rewrite E; apply elem_of_app; right; left]. cbn [mbind outcome_bind].
  specialize (IH (l1 ++ [s])). rewrite length_app in IH. cbn [length] in IH. rewrite Nat.add_1_r in IH.
  rewrite IH by (rewrite E, <- app_assoc; done). cbn [mbind outcome_bind fmap list_fmap mjoin list_join].
  by rewrite print_ini_app.
Qed.

Definition inserts (l : list (cstring * option cstring)) (m : gmap cstring (option cstring)) : gmap cstring (option cstring) :=
  fold_left (fun m '(k, v) => <[k := v]> m) l m.

(** Insertions that agree with a map. *)
Lemma inserts_lookup (m : gmap cstring (option cstring)) l acc k :
  Forall (fun '(k, v) => m !! k = Some v) l ->
  inserts l acc !! k = if decide (k ∈ l.*1) then m !! k else acc !! k.
Proof.
  intros H. revert acc. induction H as [|[k' v'] l Hk Hl IH]; intros acc; [by rewrite decide_False by apply not_elem_of_nil|].
  unfold inserts in *. cbn [fold_left fmap list_fmap fst]. rewrite IH. destruct (decide (k ∈ l.*1)) as [Hin|Hout].
  - by rewrite decide_True by (by right).
  - destruct (decide (k = k')) as [->|Hne].
    + rewrite decide_True by (by left). by rewrite lookup_insert_eq.
    + rewrite decide_False by (rewrite elem_of_cons; tauto). by rewrite lookup_insert_ne by congruence.
Qed.

(** The bindings written for a section. *)
Definition section_bindings (bs : list (cstring * option cstring)) (s : cstring) : list (cstring * option cstring) :=
  (s, None) :: List.map (fun '(k, v) => (k, Some (default [] v))) (of_section s bs).

Lemma of_section_spec s bs k v :
  (k, v) ∈ of_section s bs <-> (k, v) ∈ bs /\ take (length s + 1) k = s ++ [58].
Proof.
  unfold of_section. rewrite list_elem_of_In, filter_In, <- list_elem_of_In. unfold strncmp_eq.
  rewrite bool_decide_eq_true, (take_ge (s ++ [58])) by (rewrite length_app; cbn; lia). done.
Qed.

Lemma section_effect bs s x acc :
  fold_left line_effect (dump_section bs s) (x, acc) = (s, inserts (section_bindings bs s) acc).
Proof.
  unfold dump_section. cbn [app fold_left line_effect fst snd]. rewrite fold_left_app. cbn [fold_left line_effect].
  unfold section_bindings, inserts. cbn [fold_left].
  assert (Forall (fun '(k, _) => take (length s + 1) k = s ++ [58]) (of_section s bs)) as H.
  { apply Forall_forall. intros [k v] Hk. by apply of_section_spec in Hk as [_ Hk]. }
  revert H. generalize (<[s := None]> acc). induction (of_section s bs) as [|[k v] l IH]; intros m H; [done|].
  apply Forall_cons in H as [Hk H]. cbn [List.map fold_left]. rewrite <- IH by done. f_equal.
  unfold dump_value. cbn [line_effect fst snd]. by rewrite app_assoc, <- Hk, take_drop.
Qed.

Lemma sections_effect bs l x acc :
  snd (fold_left line_effect (mjoin (dump_section bs <$> l)) (x, acc)) = inserts (mjoin (section_bindings bs <$> l)) acc.
Proof.
  revert x acc. induction l as [|s l IH]; intros x acc; [done|].
  change (mjoin (dump_section bs <$> s :: l)) with (dump_section bs s ++ mjoin (dump_section bs <$> l)).
  change (mjoin (section_bindings bs <$> s :: l)) with (section_bindings bs s ++ mjoin (section_bindings bs <$> l)).
  rewrite fold_left_app, section_effect, IH. unfold inserts. by rewrite fold_left_app.
Qed.

Lemma not_section k s : take (length s + 1) k = s ++ [58] -> is_section k = false.
Proof.
  intros E. rewrite <- (take_drop (length s + 1) k), E. unfold is_section. rewrite !strchr_app. cbn.
  by rewrite orb_true_r.
Qed.

(** What the dumper writes means the table. *)
Lemma dump_meaning d :
  dumpable d ->
  inserts (mjoin (section_bindings (bindings d) <$> sections d)) ∅ = dict_map d.
Proof.
  intros [Hw Hd]. pose proof (represents_dict_map d Hw) as Hr. rewrite Forall_forall in Hd.
  set (l := mjoin _). assert (Forall (fun '(k, v) => dict_map d !! k = Some v) l) as Hl.
  { apply Forall_forall. intros [k v] Hk. unfold l in Hk. apply list_elem_of_join in Hk as (b & Hk & Hb).
    apply list_elem_of_fmap in Hb as (s & -> & Hs). apply elem_of_sections in Hs as (Hs & w & Hb); [|done].
    apply elem_of_cons in Hk as [ [= -> ->]|Hk].
    - pose proof (Hd (s, w)) as Hds. cbn in Hds. rewrite Hs in Hds. apply Hr.
      destruct Hds as [-> _]; [by apply elem_of_bindings|done].
    - apply list_elem_of_In, in_map_iff in Hk as ([k' v'] & [= <- <-] & Hk). apply list_elem_of_In, of_section_spec in Hk as [Hk Ht].
      pose proof (Hd _ Hk) as Hdk. cbn in Hdk. rewrite (not_section _ _ Ht) in Hdk.
      destruct Hdk as (? & _ & _ & _ & (v & ->) & _). by apply Hr, elem_of_bindings. }
  apply map_eq. intros k. rewrite (inserts_lookup (dict_map d)) by done. rewrite lookup_empty.
  destruct (decide (k ∈ l.*1)) as [|Hout]; [done|]. symmetry. apply eq_None_not_Some. intros [v Hv]. apply Hout. clear Hout.
  apply Hr in Hv. pose proof (Hd (k, v) (proj2 (elem_of_bindings _ _ _) Hv)) as Hk. cbn in Hk.
  destruct (is_section k) eqn:Es.
  - apply list_elem_of_fmap. exists (k, None). split; [done|]. apply list_elem_of_join. eexists. split; [by left|].
    apply list_elem_of_fmap. exists k. split; [done|]. apply elem_of_sections; [done|]. eauto.
  - destruct Hk as (s & Hs & Hb & Ht & _). apply list_elem_of_fmap. exists (k, Some (default [] v)). split; [done|].
    apply list_elem_of_join. exists (section_bindings (bindings d) s). split.
    + right. apply list_elem_of_In, in_map_iff. exists (k, v). split; [done|].
      apply list_elem_of_In, of_section_spec. split; [by apply elem_of_bindings|done].
    + apply list_elem_of_fmap. exists s. split; [done|]. apply elem_of_sections; [done|]. eauto.
Qed.

Lemma section_unique s s' k :
  is_section s = true -> is_section s' = true ->
  take (length s + 1) k = s ++ [58] -> take (length s' + 1) k = s' ++ [58] -> s = s'.
Proof.
  revert s' k. induction s as [|c s IH]; intros [|c' s'] k Hs Hs' E E'; [done| | |].
  - destruct k as [|x k]; [done|]. cbn in E, E'. injection E as E. injection E' as E' _. subst. done.
  - destruct k as [|x k]; [done|]. cbn in E, E'. injection E' as E'. injection E as E _. subst. done.
  - destruct k as [|x k]; [done|]. cbn in E, E'. injection E as E1 E2. injection E' as E1' E2'.
    unfold is_section in *. rewrite !negb_true_iff in *. cbn in Hs, Hs'.
    apply orb_false_iff in Hs as [_ Hs]. apply orb_false_iff in Hs' as [_ Hs'].
    f_equal; [congruence|]. apply (IH s' k); unfold is_section; try done; by apply negb_true_iff.
Qed.

Lemma dump_lines_ok d s : dumpable d -> s ∈ sections d -> Forall (fun l => line_ok l = true) (dump_section (bindings d) s).
Proof.
  intros [Hw Hd] (Hs & v & Hb)%elem_of_sections; [|done]. rewrite Forall_forall in Hd.
  pose proof (Hd (s, v) (proj2 (elem_of_bindings _ _ _) Hb)) as Hds. cbn in Hds. rewrite Hs in Hds.
  unfold dump_section. repeat (apply Forall_cons; split; [first [reflexivity|apply Hds] |]).
  apply Forall_app. split; [|by repeat constructor]. apply Forall_forall. intros l Hl.
  apply list_elem_of_In, in_map_iff in Hl as ([k w] & <- & Hk). apply list_elem_of_In, of_section_spec in Hk as [Hk Ht].
  pose proof (Hd _ Hk) as Hdk. cbn in Hdk. rewrite (not_section _ _ Ht) in Hdk.
  destruct Hdk as (s' & Hs' & _ & Ht' & _ & Hok). by rewrite (section_unique s s' k Hs Hs' Ht Ht').
Qed.

Lemma no_sections_empty d : dumpable d -> sections d = [] -> bindings d = [].
Proof.
  intros [Hw Hd] E. destruct (bindings d) as [|[k v] l] eqn:Eb; [done|].
  apply Forall_cons in Hd as [Hd _]. cbn in Hd. assert (exists s, s ∈ sections d) as [s Hs].
  { destruct (is_section k) eqn:Ek.
    - exists k. apply elem_of_sections; [done|]. split; [done|]. exists v. apply elem_of_bindings. rewrite Eb. by left.
    - destruct Hd as (s & Hs & Hb & _). exists s. apply elem_of_sections; [done|]. eauto. }
  rewrite E in Hs. by apply not_elem_of_nil in Hs.
Qed.

(** C26. What iniparser_dump_ini writes, iniparser_load reads back: for a
    table whose names and values can be written on lines, the file written is
    loaded to a table that represents the same bindings. *)
Theorem dump_load_roundtrip new env d :
  dumpable d -> new_available new -> (forall j, mem_available (env j)) ->
  exists text d', iniparser_dump_ini d = Done text /\ iniparser_load new env (Some text) = Done (Some d') /\
  dict_wf d' /\ represents d' (dict_map d).
Proof.
  intros Hd Hn Hm. pose proof Hd as [Hw _]. unfold iniparser_dump_ini. rewrite getnsec_spec by done. cbn [mbind outcome_bind].
  destruct (sections d) as [|s0 l0] eqn:Es.
  - cbn [length]. rewrite slot_bindings_wf, (no_sections_empty d Hd Es) by done. cbn [mbind outcome_bind List.map].
    destruct (load_meaning new env [] Hn Hm) as (d' & H1 & H2 & H3); [constructor|]. exists [], d'.
    split_and!; try done. unfold dict_map. by rewrite (no_sections_empty d Hd Es).
  - rewrite <- Es, Nat2Z.id. rewrite (proj2 (Z.ltb_ge _ 1)) by (rewrite Es; cbn [length]; lia).
    pose proof (dump_sections_text d [] (sections d) Hd eq_refl) as Et. cbn [length] in Et. rewrite Et. cbn [mbind outcome_bind].
    set (ls := mjoin (dump_section (bindings d) <$> sections d) ++ [IBlank [] ]).
    destruct (load_meaning new env ls Hn Hm) as (d' & H1 & H2 & H3).
    { apply Forall_app. split; [|by repeat constructor]. apply Forall_forall. intros l Hl.
      apply list_elem_of_join in Hl as (b & Hl & Hb). apply list_elem_of_fmap in Hb as (s & -> & Hs).
      pose proof (dump_lines_ok d s Hd Hs) as Hok. rewrite Forall_forall in Hok. by apply Hok. }
    exists (print_ini ls), d'. split; [unfold ls; by rewrite print_ini_app|]. split_and!; try done.
    unfold ini_meaning, ls in H3. rewrite fold_left_app in H3. cbn [fold_left line_effect] in H3.
    by rewrite sections_effect, dump_meaning in H3.
Qed.

(** ** Instances *)

Definition demo_new : new_env := {| ne_dict := true; ne_val := true; ne_key := true; ne_hash := true |}.
Definition demo_line_env : line_env := {| le_dup := true; le_set := memory_ok |}.

(** "[a]", "x = 1 ; one", "Y" in upper case is not a word. *)
Definition demo_lines : list ini_line :=
  [IComment [] 59 [32; 110]; ISection [32] [97] [];
   IValue [32] [120] [9; 32] [32] [49] [32] [59; 111]; IBlank []; IValue [] [121] [] [] [] [] [] ].

Lemma demo_mem_available : forall j : nat, mem_available ((fun _ => demo_line_env) j).
Proof. done. Qed.

Lemma iniparser_load_total_witness :
  exists r, iniparser_load demo_new (fun _ => demo_line_env) (Some [91; 93; 0; 10; 61; 61; 92]) = Done r /\
  forall d, r = Some d -> dict_wf d.
Proof. apply (iniparser_load_total demo_new (fun _ => demo_line_env)). done. Defined.

Lemma ini_file_read_back_witness :
  exists d, iniparser_load demo_new (fun _ => demo_line_env) (Some (print_ini demo_lines)) = Done (Some d) /\
  iniparser_getstring (Some d) [65; 58; 120] None = Done (Some [49]) /\
  iniparser_getstring (Some d) [97; 58; 121] None = Done (Some []) /\
  iniparser_getstring (Some d) [97; 58; 122] (Some [63]) = Done (Some [63]).
Proof.
  destruct (ini_file_read_back demo_new (fun _ => demo_line_env) demo_lines) as (d & Hd & Hg).
  - done.
  - exact demo_mem_available.
  - repeat (apply Forall_cons; split; [vm_compute; reflexivity|]). apply Forall_nil. exact I.
  - exists d. split; [exact Hd|]. rewrite !Hg. repeat split.
Defined.

(** The table loaded from that file. *)
Definition demo_dict : dictionary :=
  {| d_n := 2; d_size := 3; d_val := [None; Some [49]; None];
     d_key := [Some [97]; Some [97; 58; 120]; None];
     d_hash := [dictionary_hash [97]; dictionary_hash [97; 58; 120]; 0] |}.

Lemma demo_dict_wf : dict_wf demo_dict.
Proof.
  split; try (cbn; lia).
  - vm_compute. lia.
  - intros i j k Hi Hj. destruct i as [|[|[|i] ] ], j as [|[|[|j] ] ]; cbn in Hi, Hj; by simplify_eq.
  - intros i k Hi. destruct i as [|[|[|i] ] ]; cbn in Hi; by simplify_eq.
Qed.

Lemma dump_load_roundtrip_witness :
  exists text d', iniparser_dump_ini demo_dict = Done text /\
  iniparser_load demo_new (fun _ => demo_line_env) (Some text) = Done (Some d') /\
  represents d' (dict_map demo_dict).
Proof.
  destruct (dump_load_roundtrip demo_new (fun _ => demo_line_env) demo_dict) as (text & d' & H1 & H2 & _ & H3).
  - split; [exact demo_dict_wf|]. repeat apply Forall_cons_2; [split; vm_compute; reflexivity| |apply Forall_nil; exact I].
    exists [97]. split; [reflexivity|]. split; [by exists 0%nat|]. split; [reflexivity|]. split; [eauto|]. vm_compute. reflexivity.
  - done.
  - exact demo_mem_available.
  - exists text, d'. auto.
Defined.
