(* ===== verification/HyperampQueue.v ===== *)
(** * HyperampQueue: the ring queue in memory shared with the seL4 zone

    src/hyperamp_shm_queue.c and include/hyperamp_shm_queue.h.  The control
    block is a packed struct in byte memory; every operation reads and writes
    it through field offsets.  Logging ([printf],
    [parse_proxy_protocol_and_print]) and the memory barriers have no effect in
    this sequential model; the interleavings of the lock are in [Spinlock]. *)

From S2P Require Import Prelude Bytes Mem.
From stdpp Require Import base list numbers option.
From Stdlib Require Import ZArith Lia.
#[local] Open Scope Z_scope.

(** ** The packed control block *)

Inductive qfield :=
  | F_map_mode1 | F_map_mode2 | F_header | F_tail | F_capacity | F_block_size
  | F_reserved | F_phy_addr | F_virt_addr1 | F_virt_addr2 | F_table1 | F_table2
  | F_lock_value | F_owner_zone_id | F_lock_count | F_contention_count
  | F_magic | F_version | F_enqueue_count | F_dequeue_count.

#[export] Instance qfield_eq_dec : EqDecision qfield.
Proof. solve_decision. Defined.

Definition HYPERAMP_MAX_MAP_TABLE_ENTRIES : Z := 125.
Definition sizeof_HyperampMapTableEntry : Z := 16.

(** Declaration order of [HyperampShmQueue] ([queue_lock] inlined). *)
Definition HyperampShmQueue : list qfield :=
  [F_map_mode1; F_map_mode2; F_header; F_tail; F_capacity; F_block_size;
   F_reserved; F_phy_addr; F_virt_addr1; F_virt_addr2; F_table1; F_table2;
   F_lock_value; F_owner_zone_id; F_lock_count; F_contention_count;
   F_magic; F_version; F_enqueue_count; F_dequeue_count].

Definition field_size (f : qfield) : Z :=
  match f with
  | F_map_mode1 | F_map_mode2 => 1
  | F_header | F_tail | F_capacity | F_block_size | F_reserved => 2
  | F_phy_addr | F_virt_addr1 | F_virt_addr2 => 8
  | F_table1 | F_table2 => HYPERAMP_MAX_MAP_TABLE_ENTRIES * sizeof_HyperampMapTableEntry
  | _ => 4
  end.

(** [__attribute__((packed))]: a field starts where the previous one ends. *)
Fixpoint offset_in (l : list qfield) (f : qfield) : Z :=
  match l with
  | [] => 0
  | g :: l' => if decide (g = f) then 0 else field_size g + offset_in l' f
  end.

Definition offsetof (f : qfield) : Z := offset_in HyperampShmQueue f.
Definition sizeof_HyperampShmQueue : Z :=
  fold_right (fun f n => field_size f + n) 0 HyperampShmQueue.

Definition qget (f : qfield) (m : mem) (q : Z) : Z :=
  mload (Z.to_nat (field_size f)) m (q + offsetof f).
Definition qset (f : qfield) (m : mem) (q v : Z) : mem :=
  mstore (Z.to_nat (field_size f)) m (q + offsetof f) v.

(** ** The lock, seen by one zone *)

Definition hyperamp_spinlock_init (m : mem) (q : Z) : mem :=
  if q =? 0 then m else
  let m := qset F_lock_value m q 0 in
  let m := qset F_owner_zone_id m q 0 in
  let m := qset F_lock_count m q 0 in
  qset F_contention_count m q 0.

(** Nobody else runs: a taken lock is never released and the loop spins. *)
Definition hyperamp_spinlock_lock (m : mem) (q zone_id : Z) : outcome mem :=
  if q =? 0 then Done m else
  if qget F_lock_value m q =? 0 then
    let m := qset F_lock_value m q 1 in
    let m := qset F_owner_zone_id m q zone_id in
    Done (qset F_lock_count m q (u32 (qget F_lock_count m q + 1)))
  else Spin.

Definition hyperamp_spinlock_unlock (m : mem) (q : Z) : mem :=
  if q =? 0 then m else
  let m := qset F_owner_zone_id m q 0 in
  qset F_lock_value m q 0.

Definition hyperamp_spinlock_trylock (m : mem) (q zone_id : Z) : status * mem :=
  if q =? 0 then (PROCESS_ERROR, m) else
  if qget F_lock_value m q =? 0 then
    let m := qset F_lock_value m q 1 in
    let m := qset F_owner_zone_id m q zone_id in
    (PROCESS_OK, qset F_lock_count m q (u32 (qget F_lock_count m q + 1)))
  else (PROCESS_AGAIN, m).

(** ** Byte-by-byte memory primitives *)

(** [for (i = 0; i < len; i++) p[i] = val]. *)
Fixpoint hyperamp_safe_memset (m : mem) (dst val : Z) (len : nat) : mem :=
  match len with
  | O => m
  | S n => hyperamp_safe_memset (mset m dst val) (dst + 1) val n
  end.

(** [hyperamp_safe_memcpy] from a private buffer into shared memory. *)
Definition hyperamp_safe_memcpy_in (m : mem) (dst : Z) (src : list Z) (len : Z)
  : outcome mem :=
  l ← bread src 0 len; Done (mwrite m dst l).

(** [hyperamp_safe_memcpy] from shared memory into a private buffer. *)
Definition hyperamp_safe_memcpy_out (m : mem) (dst : list Z) (src len : Z)
  : outcome (list Z) :=
  bwrite dst 0 (mread m src (Z.to_nat len)).

(** [for (i = 0; i < n; i++) val |= (uintN_t)p[offset + i] << (i * 8)]. *)
Fixpoint safe_read_loop (n : nat) (m : mem) (p i val : Z) : Z :=
  match n with
  | O => val
  | S n' => safe_read_loop n' m p (i + 1) (Z.lor val (Z.shiftl (m (p + i)) (i * 8)))
  end.

Definition hyperamp_safe_read_u16 (m : mem) (addr offset : Z) : Z :=
  safe_read_loop 2 m (addr + offset) 0 0.
Definition hyperamp_safe_read_u32 (m : mem) (addr offset : Z) : Z :=
  safe_read_loop 4 m (addr + offset) 0 0.
Definition hyperamp_safe_read_u64 (m : mem) (addr offset : Z) : Z :=
  safe_read_loop 8 m (addr + offset) 0 0.

(** ** Initialisation *)

Record HyperampQueueConfig := {
  cfg_map_mode : Z;
  cfg_capacity : Z;
  cfg_block_size : Z;
  cfg_phy_addr : Z;
  cfg_virt_addr : Z }.

Definition HYPERAMP_QUEUE_MAGIC : Z := 0x48415150.

(** [for (i = 0; i < n; i++) p[off + i] = (v >> (i * 8)) & 0xFF]. *)
Fixpoint write_bytes_loop (n : nat) (m : mem) (p i v : Z) : mem :=
  match n with
  | O => m
  | S n' => write_bytes_loop n' (mset m (p + i) (Z.land (Z.shiftr v (i * 8)) 255)) p (i + 1) v
  end.

Definition hyperamp_queue_init_creator (m : mem) (p : Z) (c : HyperampQueueConfig) : mem :=
  let m := mset m (p + 0) (u8 (cfg_map_mode c)) in
  let m := mset m (p + 1) (u8 (cfg_map_mode c)) in
  let m := mset m (p + 2) 0 in
  let m := mset m (p + 3) 0 in
  let m := mset m (p + 4) 0 in
  let m := mset m (p + 5) 0 in
  let cap := cfg_capacity c in
  let m := mset m (p + 6) (Z.land cap 255) in
  let m := mset m (p + 7) (Z.land (Z.shiftr cap 8) 255) in
  let bs := cfg_block_size c in
  let m := mset m (p + 8) (Z.land bs 255) in
  let m := mset m (p + 9) (Z.land (Z.shiftr bs 8) 255) in
  let m := mset m (p + 10) 0 in
  let m := mset m (p + 11) 0 in
  let m := write_bytes_loop 8 m (p + 12) 0 (cfg_phy_addr c) in
  let m := write_bytes_loop 8 m (p + 20) 0 (cfg_virt_addr c) in
  let m := hyperamp_safe_memset m (p + 28) 0 8 in
  let m := hyperamp_spinlock_init m p in
  let magic_offset := offsetof F_magic in
  let m := write_bytes_loop 4 m (p + magic_offset) 0 HYPERAMP_QUEUE_MAGIC in
  let m := write_bytes_loop 4 m (p + (magic_offset + 4)) 0 1 in
  let m := hyperamp_safe_memset m (p + (magic_offset + 8)) 0 4 in
  hyperamp_safe_memset m (p + (magic_offset + 12)) 0 4.

Definition hyperamp_queue_init (m : mem) (queue : Z) (config : option HyperampQueueConfig)
    (is_creator : bool) : status * mem :=
  match config with
  | None => (PROCESS_ERROR, m)
  | Some c =>
      if queue =? 0 then (PROCESS_ERROR, m) else
      if (cfg_block_size c =? 0) || (cfg_capacity c =? 0) then (PROCESS_ERROR, m) else
      if is_creator then (PROCESS_OK, hyperamp_queue_init_creator m queue c)
      else (PROCESS_OK, qset F_virt_addr2 m queue (cfg_virt_addr c))
  end.

Definition hyperamp_queue_is_initialized (m : mem) (queue : Z) : bool :=
  if queue =? 0 then false else
  0 <? safe_read_loop 2 m (queue + offsetof F_capacity) 0 0.

(** ** Queue operations *)

(** [uint16_t n = i + 1; if (n >= capacity) n -= capacity;] *)
Definition next_index (i capacity : Z) : Z :=
  let n := u16 (i + 1) in
  if capacity <=? n then u16 (n - capacity) else n.

(** [(uint64_t)virt_base + (uint64_t)(i + 1) * block_size]. *)
Definition slot_addr (virt_base block_size i : Z) : Z :=
  u64 (virt_base + (i + 1) * block_size).

Definition hyperamp_queue_enqueue (m : mem) (queue zone_id : Z) (data : option (list Z))
    (data_len virt_base : Z) : outcome (status * mem) :=
  match data with
  | None => Done (PROCESS_ERROR, m)
  | Some buf =>
      if (queue =? 0) || (data_len =? 0) then Done (PROCESS_ERROR, m) else
      if qget F_block_size m queue <? data_len then Done (PROCESS_ERROR, m) else
      m ← hyperamp_spinlock_lock m queue zone_id;
      let new_header := next_index (qget F_header m queue) (qget F_capacity m queue) in
      if new_header =? qget F_tail m queue
      then Done (PROCESS_AGAIN, hyperamp_spinlock_unlock m queue)
      else
        let write_addr := slot_addr virt_base (qget F_block_size m queue) (qget F_header m queue) in
        m ← hyperamp_safe_memcpy_in m write_addr buf data_len;
        let m := qset F_header m queue new_header in
        let m := qset F_enqueue_count m queue (u32 (qget F_enqueue_count m queue + 1)) in
        Done (PROCESS_OK, hyperamp_spinlock_unlock m queue)
  end.

(** Status, memory, the caller's buffer, and [*actual_len] when it is written. *)
Record dequeued := {
  dq_status : status;
  dq_mem : mem;
  dq_data : list Z;
  dq_len : option Z }.

Definition hyperamp_queue_dequeue (m : mem) (queue zone_id : Z) (data : option (list Z))
    (max_len virt_base : Z) : outcome dequeued :=
  match data with
  | None => Done {| dq_status := PROCESS_ERROR; dq_mem := m; dq_data := []; dq_len := None |}
  | Some buf =>
      if (queue =? 0) || (max_len =? 0)
      then Done {| dq_status := PROCESS_ERROR; dq_mem := m; dq_data := buf; dq_len := None |}
      else
      m ← hyperamp_spinlock_lock m queue zone_id;
      if qget F_tail m queue =? qget F_header m queue
      then Done {| dq_status := PROCESS_AGAIN; dq_mem := hyperamp_spinlock_unlock m queue;
                   dq_data := buf; dq_len := None |}
      else
        let block_size := qget F_block_size m queue in
        let read_addr := slot_addr virt_base block_size (qget F_tail m queue) in
        let read_len := if max_len <? block_size then max_len else block_size in
        buf ← hyperamp_safe_memcpy_out m buf read_addr read_len;
        let new_tail := next_index (qget F_tail m queue) (qget F_capacity m queue) in
        let m := qset F_tail m queue new_tail in
        let m := qset F_dequeue_count m queue (u32 (qget F_dequeue_count m queue + 1)) in
        Done {| dq_status := PROCESS_OK; dq_mem := hyperamp_spinlock_unlock m queue;
                dq_data := buf; dq_len := Some read_len |}
  end.

Definition hyperamp_queue_peek (m : mem) (queue zone_id : Z) (data : option (list Z))
    (max_len virt_base : Z) : outcome dequeued :=
  match data with
  | None => Done {| dq_status := PROCESS_ERROR; dq_mem := m; dq_data := []; dq_len := None |}
  | Some buf =>
      if (queue =? 0) || (max_len =? 0)
      then Done {| dq_status := PROCESS_ERROR; dq_mem := m; dq_data := buf; dq_len := None |}
      else
      m ← hyperamp_spinlock_lock m queue zone_id;
      if qget F_tail m queue =? qget F_header m queue
      then Done {| dq_status := PROCESS_ERROR; dq_mem := hyperamp_spinlock_unlock m queue;
                   dq_data := buf; dq_len := None |}
      else
        let block_size := qget F_block_size m queue in
        let read_addr := slot_addr virt_base block_size (qget F_tail m queue) in
        let read_len := if max_len <? block_size then max_len else block_size in
        buf ← hyperamp_safe_memcpy_out m buf read_addr read_len;
        Done {| dq_status := PROCESS_OK; dq_mem := hyperamp_spinlock_unlock m queue;
                dq_data := buf; dq_len := Some read_len |}
  end.

(** The slot address is [None] when [*slot_addr] is not written. *)
Definition hyperamp_queue_alloc_slot (m : mem) (queue zone_id virt_base : Z)
  : outcome (status * mem * option Z) :=
  if queue =? 0 then Done (PROCESS_ERROR, m, None) else
  m ← hyperamp_spinlock_lock m queue zone_id;
  _ ← require (negb (qget F_capacity m queue =? 0)) DivByZero;
  let next_header := u16 ((qget F_header m queue + 1) mod qget F_capacity m queue) in
  if next_header =? qget F_tail m queue
  then Done (PROCESS_ERROR, hyperamp_spinlock_unlock m queue, None)
  else
    let addr := slot_addr virt_base (qget F_block_size m queue) (qget F_header m queue) in
    let m := qset F_header m queue next_header in
    let m := qset F_enqueue_count m queue (u32 (qget F_enqueue_count m queue + 1)) in
    Done (PROCESS_OK, hyperamp_spinlock_unlock m queue, Some addr).

Definition hyperamp_queue_release_slot (m : mem) (queue zone_id : Z) : outcome (status * mem) :=
  if queue =? 0 then Done (PROCESS_ERROR, m) else
  m ← hyperamp_spinlock_lock m queue zone_id;
  if qget F_tail m queue =? qget F_header m queue
  then Done (PROCESS_ERROR, hyperamp_spinlock_unlock m queue)
  else
    _ ← require (negb (qget F_capacity m queue =? 0)) DivByZero;
    let new_tail := u16 ((qget F_tail m queue + 1) mod qget F_capacity m queue) in
    let m := qset F_tail m queue new_tail in
    let m := qset F_dequeue_count m queue (u32 (qget F_dequeue_count m queue + 1)) in
    Done (PROCESS_OK, hyperamp_spinlock_unlock m queue).

(** The queue-state macros of the header file, on index values. *)
Definition HYPERAMP_QUEUE_IS_EMPTY (header tail : Z) : bool := tail =? header.
Definition HYPERAMP_QUEUE_IS_FULL (header tail capacity : Z) : bool :=
  (header + 1) mod capacity =? tail.
Definition HYPERAMP_QUEUE_LENGTH (header tail capacity : Z) : Z :=
  if tail <=? header then header - tail else capacity - tail + header.
