(* ===== verification/HyperampQueueLemmas.v ===== *)
(** * HyperampQueueLemmas: the control block's algebra and the ring arithmetic

    Reads over writes of the packed fields, the equivalence of the
    byte-by-byte primitives with field accesses, and index arithmetic. *)

From S2P Require Import Prelude Bytes Mem HyperampQueue.
From stdpp Require Import base list numbers option.
From Stdlib Require Import ZArith Lia.
#[local] Open Scope Z_scope.

(** ** Layout *)

Definition fields_disjoint (f g : qfield) : bool :=
  (offsetof f + field_size f <=? offsetof g) || (offsetof g + field_size g <=? offsetof f).

Lemma qfield_listed f : In f HyperampShmQueue.
Proof. destruct f; cbn; tauto. Qed.

Lemma layout_check :
  forallb (fun f => forallb (fun g => bool_decide (f = g) || fields_disjoint f g)
                            HyperampShmQueue) HyperampShmQueue = true.
Proof. vm_compute. reflexivity. Qed.

Lemma field_bounds_check :
  forallb (fun f => (0 <=? offsetof f) && (0 <? field_size f) &&
                    (offsetof f + field_size f <=? sizeof_HyperampShmQueue))
          HyperampShmQueue = true.
Proof. vm_compute. reflexivity. Qed.

Lemma field_bounds f :
  0 <= offsetof f /\ 0 < field_size f /\ offsetof f + field_size f <= sizeof_HyperampShmQueue.
Proof.
  pose proof field_bounds_check as H. rewrite forallb_forall in H.
  specialize (H f (qfield_listed f)). rewrite !andb_true_iff in H.
  rewrite !Z.leb_le, Z.ltb_lt in H. tauto.
Qed.

Lemma fields_disjoint_spec f g :
  f <> g ->
  offsetof f + field_size f <= offsetof g \/ offsetof g + field_size g <= offsetof f.
Proof.
  intros Hne. pose proof layout_check as H. rewrite forallb_forall in H.
  specialize (H f (qfield_listed f)). rewrite forallb_forall in H.
  specialize (H g (qfield_listed g)). rewrite bool_decide_eq_false_2 in H by done.
  cbn [orb] in H. unfold fields_disjoint in H. rewrite orb_true_iff, !Z.leb_le in H. done.
Qed.

Lemma sizeof_queue : sizeof_HyperampShmQueue = 4068.
Proof. reflexivity. Qed.

(** ** Fields *)

Definition field_max (f : qfield) : Z := 2 ^ (8 * field_size f).

Lemma qget_qset_eq f m q v : 0 <= v < field_max f -> qget f (qset f m q v) q = v.
Proof.
  intros. unfold qget, qset. apply mload_mstore_id.
  pose proof (field_bounds f). rewrite Z2Nat.id by lia. done.
Qed.

Lemma qget_qset_ne f g m q v : f <> g -> qget f (qset g m q v) q = qget f m q.
Proof.
  intros Hne. unfold qget, qset. apply mload_mstore_ne.
  pose proof (field_bounds f). pose proof (field_bounds g).
  rewrite !Z2Nat.id by lia. pose proof (fields_disjoint_spec f g Hne). lia.
Qed.

Lemma qset_out f m q v x :
  x < q \/ q + sizeof_HyperampShmQueue <= x -> qset f m q v x = m x.
Proof.
  intros. unfold qset. apply mstore_out. pose proof (field_bounds f).
  rewrite Z2Nat.id by lia. lia.
Qed.

Lemma mread_qset f m q v a n :
  a + Z.of_nat n <= q \/ q + sizeof_HyperampShmQueue <= a ->
  mread (qset f m q v) a n = mread m a n.
Proof. intros. apply mread_ext. intros. apply qset_out. lia. Qed.

Lemma qget_mwrite f m q a l :
  a + blen l <= q \/ q + sizeof_HyperampShmQueue <= a ->
  qget f (mwrite m a l) q = qget f m q.
Proof.
  intros. unfold qget. apply mload_mwrite_ne. pose proof (field_bounds f).
  rewrite Z2Nat.id by lia. lia.
Qed.

Lemma qset_bytes f m q v : mem_bytes m -> mem_bytes (qset f m q v).
Proof. apply mstore_bytes. Qed.

Lemma qget_range f m q : mem_bytes m -> 0 <= qget f m q < field_max f.
Proof.
  intros. pose proof (field_bounds f). unfold qget, field_max.
  pose proof (mload_range (Z.to_nat (field_size f)) m (q + offsetof f) H) as Hr.
  rewrite Z2Nat.id in Hr by lia. done.
Qed.

Lemma qget_ext f m1 m2 q :
  (forall x, q <= x < q + sizeof_HyperampShmQueue -> m1 x = m2 x) -> qget f m1 q = qget f m2 q.
Proof.
  intros H. pose proof (field_bounds f). unfold qget. apply mload_ext.
  intros x Hx. apply H. rewrite Z2Nat.id in Hx by lia. lia.
Qed.

#[export] Hint Resolve qset_bytes : proxymem.

(** Evaluate a field read over a chain of field writes. *)
Ltac qfields :=
  repeat first
    [ rewrite qget_qset_ne by discriminate
    | rewrite qget_qset_eq by (unfold field_max; cbn; lia) ].

(** ** The lock *)

Lemma lock_Done m q z m' :
  q <> 0 -> hyperamp_spinlock_lock m q z = Done m' ->
  qget F_lock_value m q = 0 /\
  m' = qset F_lock_count (qset F_owner_zone_id (qset F_lock_value m q 1) q z) q
         (u32 (qget F_lock_count m q + 1)).
Proof.
  intros Hq. unfold hyperamp_spinlock_lock. rewrite (proj2 (Z.eqb_neq q 0) Hq).
  destruct (Z.eqb_spec (qget F_lock_value m q) 0); [|discriminate].
  intros [= <-]. split; [done|]. by qfields.
Qed.

Lemma lock_free m q z :
  q <> 0 -> qget F_lock_value m q = 0 ->
  hyperamp_spinlock_lock m q z =
  Done (qset F_lock_count (qset F_owner_zone_id (qset F_lock_value m q 1) q z) q
          (u32 (qget F_lock_count m q + 1))).
Proof.
  intros Hq Hl. unfold hyperamp_spinlock_lock.
  rewrite (proj2 (Z.eqb_neq q 0) Hq), Hl. cbn [Z.eqb]. by qfields.
Qed.

(** The fields the lock owns. *)
Definition lock_field (f : qfield) : bool :=
  match f with
  | F_lock_value | F_owner_zone_id | F_lock_count | F_contention_count => true
  | _ => false
  end.

Lemma lock_frame m q z m' f :
  q <> 0 -> hyperamp_spinlock_lock m q z = Done m' -> lock_field f = false ->
  qget f m' q = qget f m q.
Proof.
  intros Hq H Hf. apply lock_Done in H as [_ ->]; [|done].
  rewrite !qget_qset_ne; [done|..]; intros ->; discriminate.
Qed.

Lemma unlock_frame m q f :
  lock_field f = false -> qget f (hyperamp_spinlock_unlock m q) q = qget f m q.
Proof.
  intros Hf. unfold hyperamp_spinlock_unlock. destruct (q =? 0); [done|].
  rewrite !qget_qset_ne; [done|..]; intros ->; discriminate.
Qed.

Lemma unlock_value m q : q <> 0 -> qget F_lock_value (hyperamp_spinlock_unlock m q) q = 0.
Proof.
  intros. unfold hyperamp_spinlock_unlock. rewrite (proj2 (Z.eqb_neq q 0)) by done. by qfields.
Qed.

Lemma lock_out m q z m' x :
  q <> 0 -> hyperamp_spinlock_lock m q z = Done m' ->
  x < q \/ q + sizeof_HyperampShmQueue <= x -> m' x = m x.
Proof. intros Hq H Hx. apply lock_Done in H as [_ ->]; [|done]. by rewrite !qset_out. Qed.

Lemma unlock_out m q x :
  x < q \/ q + sizeof_HyperampShmQueue <= x -> hyperamp_spinlock_unlock m q x = m x.
Proof.
  intros. unfold hyperamp_spinlock_unlock. destruct (q =? 0); [done|]. by rewrite !qset_out.
Qed.

Lemma lock_bytes m q z m' :
  hyperamp_spinlock_lock m q z = Done m' -> mem_bytes m -> mem_bytes m'.
Proof.
  unfold hyperamp_spinlock_lock. repeat case_match; try discriminate;
    intros [= <-]; auto with proxymem.
Qed.

Lemma unlock_bytes m q : mem_bytes m -> mem_bytes (hyperamp_spinlock_unlock m q).
Proof. intros. unfold hyperamp_spinlock_unlock. case_match; auto with proxymem. Qed.

(** ** Byte loops are field accesses *)

Lemma shiftr_byte v i :
  0 <= i -> Z.land (Z.shiftr v (i * 8)) 255 = (v / 2 ^ (8 * i)) mod 256.
Proof.
  intros. change 255 with (Z.ones 8). rewrite Z.land_ones by lia.
  rewrite Z.shiftr_div_pow2 by lia. by rewrite (Z.mul_comm i 8).
Qed.

Lemma write_bytes_loop_spec n m p i v :
  0 <= i -> write_bytes_loop n m p i v = mwrite m (p + i) (le_bytes n (v / 2 ^ (8 * i))).
Proof.
  revert m i. induction n as [|n IH]; intros m i Hi; cbn [write_bytes_loop le_bytes mwrite]; [done|].
  rewrite IH, shiftr_byte by lia. f_equal; [lia|]. f_equal.
  rewrite Z.div_div by (try lia; apply Z.pow_pos_nonneg; lia). f_equal.
  replace (8 * (i + 1)) with (8 * i + 8) by lia. rewrite Z.pow_add_r by lia. reflexivity.
Qed.

Lemma write_bytes_loop_store n m p v : write_bytes_loop n m p 0 v = mstore n m p v.
Proof.
  rewrite write_bytes_loop_spec by lia. unfold mstore.
  rewrite Z.add_0_r. change (2 ^ (8 * 0)) with 1. by rewrite Z.div_1_r.
Qed.

Lemma memset_zero_store n m p : hyperamp_safe_memset m p 0 n = mstore n m p 0.
Proof.
  unfold mstore. revert m p. induction n as [|n IH]; intros; cbn; [done|]. apply IH.
Qed.

Lemma memset_spec n m p v x :
  hyperamp_safe_memset m p v n x =
  if (p <=? x) && (x <? p + Z.of_nat n) then v else m x.
Proof.
  revert m p. induction n as [|n IH]; intros m p; cbn [hyperamp_safe_memset].
  - destruct (Z.leb_spec p x), (Z.ltb_spec x (p + Z.of_nat 0)); cbn; try done; lia.
  - rewrite IH. destruct (Z.leb_spec (p + 1) x), (Z.ltb_spec x (p + 1 + Z.of_nat n)),
      (Z.leb_spec p x), (Z.ltb_spec x (p + Z.of_nat (S n))); cbn [andb]; try done; try lia;
      unfold mset; destruct (Z.eqb_spec x p); try done; lia.
Qed.

Lemma lor_shift_add a b i :
  0 <= i -> 0 <= a < 2 ^ (8 * i) -> 0 <= b -> Z.lor a (Z.shiftl b (i * 8)) = a + 2 ^ (8 * i) * b.
Proof.
  intros Hi Ha Hb. rewrite Z.shiftl_mul_pow2 by lia. rewrite (Z.mul_comm i 8).
  rewrite <- (Z.mul_comm (2 ^ (8 * i))). symmetry.
  rewrite <- Z.lxor_lor.
  - rewrite <- Z.add_nocarry_lxor; [done|].
    apply Z.bits_inj'. intros n Hn. rewrite Z.land_spec, Z.testbit_0_l.
    destruct (Z.ltb_spec n (8 * i)).
    + rewrite Z.mul_comm, Z.mul_pow2_bits_low by lia. apply andb_false_r.
    + replace (Z.testbit a n) with false; [done|]. symmetry.
      rewrite <- (Z.mod_small a (2 ^ (8 * i))) by lia. apply Z.mod_pow2_bits_high. lia.
  - apply Z.bits_inj'. intros n Hn. rewrite Z.land_spec, Z.testbit_0_l.
    destruct (Z.ltb_spec n (8 * i)).
    + rewrite Z.mul_comm, Z.mul_pow2_bits_low by lia. apply andb_false_r.
    + replace (Z.testbit a n) with false; [done|]. symmetry.
      rewrite <- (Z.mod_small a (2 ^ (8 * i))) by lia. apply Z.mod_pow2_bits_high. lia.
Qed.

Lemma safe_read_loop_spec n m p i val :
  mem_bytes m -> 0 <= i -> 0 <= val < 2 ^ (8 * i) ->
  safe_read_loop n m p i val = val + 2 ^ (8 * i) * mload n m (p + i).
Proof.
  intros Hm. revert i val. induction n as [|n IH]; intros i val Hi Hv.
  - unfold mload. cbn. lia.
  - cbn [safe_read_loop]. pose proof (Hm (p + i)) as Hb. unfold is_byte in Hb.
    rewrite lor_shift_add by lia.
    assert (2 ^ (8 * (i + 1)) = 2 ^ (8 * i) * 256) as Hp.
    { replace (8 * (i + 1)) with (8 * i + 8) by lia. rewrite Z.pow_add_r by lia. reflexivity. }
    rewrite IH by (try lia; nia).
    rewrite Hp. unfold mload. cbn [mread le_val].
    replace (p + (i + 1)) with (p + i + 1) by lia. lia.
Qed.

Lemma safe_read_u16_load m a o : mem_bytes m -> hyperamp_safe_read_u16 m a o = mload 2 m (a + o).
Proof.
  intros. unfold hyperamp_safe_read_u16. rewrite safe_read_loop_spec by (cbn; lia || done).
  rewrite Z.add_0_r. change (2 ^ (8 * 0)) with 1. lia.
Qed.

Lemma safe_read_u32_load m a o : mem_bytes m -> hyperamp_safe_read_u32 m a o = mload 4 m (a + o).
Proof.
  intros. unfold hyperamp_safe_read_u32. rewrite safe_read_loop_spec by (cbn; lia || done).
  rewrite Z.add_0_r. change (2 ^ (8 * 0)) with 1. lia.
Qed.

(** ** Ring arithmetic *)

Lemma next_index_mod i cap :
  0 < cap < 65536 -> 0 <= i < cap -> next_index i cap = (i + 1) mod cap.
Proof.
  intros. unfold next_index. rewrite (u16_id (i + 1)) by lia.
  destruct (Z.leb_spec cap (i + 1)).
  - assert (i + 1 = cap) as -> by lia. rewrite Z.sub_diag, Z.mod_same by lia. by rewrite u16_id by lia.
  - by rewrite Z.mod_small by lia.
Qed.

Lemma slot_addr_id vb bs i :
  0 <= vb + (i + 1) * bs < 18446744073709551616 -> slot_addr vb bs i = vb + (i + 1) * bs.
Proof. intros. unfold slot_addr. by apply u64_id. Qed.

(** ** The creator's byte writes are field writes *)

Lemma mset_store1 m a v : mset m a (u8 v) = mstore 1 m a v.
Proof. reflexivity. Qed.

Lemma mset_pair_store m p o v :
  mset (mset m (p + o) (Z.land v 255)) (p + (o + 1)) (Z.land (Z.shiftr v 8) 255)
  = mstore 2 m (p + o) v.
Proof.
  unfold mstore. cbn [le_bytes mwrite]. change 255 with (Z.ones 8).
  rewrite !Z.land_ones, Z.shiftr_div_pow2 by lia. change (2 ^ 8) with 256.
  by rewrite Z.add_assoc.
Qed.

Lemma init_creator_fields m p c :
  p <> 0 ->
  hyperamp_queue_init_creator m p c =
  fold_left (fun m '(f, v) => qset f m p v)
    [(F_map_mode1, cfg_map_mode c); (F_map_mode2, cfg_map_mode c);
     (F_header, 0); (F_tail, 0); (F_capacity, cfg_capacity c); (F_block_size, cfg_block_size c);
     (F_reserved, 0); (F_phy_addr, cfg_phy_addr c); (F_virt_addr1, cfg_virt_addr c);
     (F_virt_addr2, 0); (F_lock_value, 0); (F_owner_zone_id, 0); (F_lock_count, 0);
     (F_contention_count, 0); (F_magic, HYPERAMP_QUEUE_MAGIC); (F_version, 1);
     (F_enqueue_count, 0); (F_dequeue_count, 0)] m.
Proof.
  intros Hp. unfold hyperamp_queue_init_creator, hyperamp_spinlock_init.
  rewrite (proj2 (Z.eqb_neq p 0) Hp). cbv zeta.
  rewrite !write_bytes_loop_store, !memset_zero_store, !mset_store1.
  change (mset (mset ?m (p + 2) 0) (p + 3) 0) with
    (mset (mset m (p + 2) (Z.land 0 255)) (p + (2 + 1)) (Z.land (Z.shiftr 0 8) 255)).
  change (mset (mset ?m (p + 4) 0) (p + 5) 0) with
    (mset (mset m (p + 4) (Z.land 0 255)) (p + (4 + 1)) (Z.land (Z.shiftr 0 8) 255)).
  change (mset (mset ?m (p + 10) 0) (p + 11) 0) with
    (mset (mset m (p + 10) (Z.land 0 255)) (p + (10 + 1)) (Z.land (Z.shiftr 0 8) 255)).
  change (p + 7) with (p + (6 + 1)). change (p + 9) with (p + (8 + 1)).
  rewrite !mset_pair_store. reflexivity.
Qed.
