(* ===== verification/HyperampQueueSpec.v ===== *)
(** * HyperampQueueSpec: the shared ring implements a bounded FIFO

    The abstract queue is a list of blocks, oldest first.  The abstraction
    function reads the blocks between [tail] and [header] out of shared memory;
    each operation is shown to act on that list as a FIFO of capacity
    [capacity - 1], to keep the well-formedness invariant, and to release the
    lock on every path. *)

From S2P Require Import Prelude Bytes Mem HyperampQueue HyperampQueueLemmas.
From stdpp Require Import base list numbers option.
From Stdlib Require Import ZArith Lia.
#[local] Open Scope Z_scope.

(** ** The abstract queue *)

Module fifo.
Definition queue := list (list Z).
Definition push (bound : nat) (b : list Z) (s : queue) : status * queue :=
  if decide (length s < bound)%nat then (PROCESS_OK, s ++ [b]) else (PROCESS_AGAIN, s).
Definition pop (s : queue) : status * option (list Z) * queue :=
  match s with
  | [] => (PROCESS_AGAIN, None, [])
  | b :: s' => (PROCESS_OK, Some b, s')
  end.
End fifo.

(** ** Geometry of one queue *)

Record geometry := { g_queue : Z; g_base : Z; g_cap : Z; g_bs : Z }.

(** The control block and the slots [1 .. capacity] of the data region are
    disjoint, inside the 64-bit address space, and of 16-bit dimensions. *)
Definition geometry_ok (g : geometry) : bool :=
  (0 <? g_queue g) && (0 <? g_cap g) && (g_cap g <? 65536) &&
  (0 <? g_bs g) && (g_bs g <? 65536) && (0 <=? g_base g) &&
  (g_base g + (g_cap g + 1) * g_bs g <? 18446744073709551616) &&
  ((g_queue g + sizeof_HyperampShmQueue <=? g_base g + g_bs g)
   || (g_base g + (g_cap g + 1) * g_bs g <=? g_queue g)).

(** The invariant of a queue nobody is operating on. *)
Record qwf (g : geometry) (m : mem) : Prop := {
  qwf_geo : geometry_ok g = true;
  qwf_cap : qget F_capacity m (g_queue g) = g_cap g;
  qwf_bs : qget F_block_size m (g_queue g) = g_bs g;
  qwf_header : 0 <= qget F_header m (g_queue g) < g_cap g;
  qwf_tail : 0 <= qget F_tail m (g_queue g) < g_cap g;
  qwf_lock : qget F_lock_value m (g_queue g) = 0;
  qwf_bytes : mem_bytes m }.

Definition qheader g m := qget F_header m (g_queue g).
Definition qtail g m := qget F_tail m (g_queue g).
Definition qlength g m := HYPERAMP_QUEUE_LENGTH (qheader g m) (qtail g m) (g_cap g).
Definition slot g (i : Z) : Z := g_base g + (i + 1) * g_bs g.
Definition ring_block g m (i : Z) : list Z := mread m (slot g i) (Z.to_nat (g_bs g)).
Definition ring_index g (t k : Z) : Z := (t + k) mod g_cap g.

(** The abstraction function. *)
Definition contents (g : geometry) (m : mem) : fifo.queue :=
  map (fun k => ring_block g m (ring_index g (qtail g m) (Z.of_nat k)))
      (seq 0 (Z.to_nat (qlength g m))).

Lemma geometry_ok_spec g :
  geometry_ok g = true ->
  0 < g_queue g /\ 0 < g_cap g < 65536 /\ 0 < g_bs g < 65536 /\ 0 <= g_base g /\
  g_base g + (g_cap g + 1) * g_bs g < 18446744073709551616 /\
  (g_queue g + sizeof_HyperampShmQueue <= g_base g + g_bs g
   \/ g_base g + (g_cap g + 1) * g_bs g <= g_queue g).
Proof.
  unfold geometry_ok. rewrite !andb_true_iff, orb_true_iff, !Z.ltb_lt, !Z.leb_le. tauto.
Qed.

Ltac geo g H :=
  let Hg := fresh "Hgeo" in
  pose proof (geometry_ok_spec g (qwf_geo g _ H)) as Hg;
  destruct Hg as (? & ? & ? & ? & ? & ?).

(** ** Slots *)

Lemma slot_range g i :
  geometry_ok g = true -> 0 <= i < g_cap g ->
  g_base g + g_bs g <= slot g i /\ slot g i + g_bs g <= g_base g + (g_cap g + 1) * g_bs g.
Proof.
  intros Hg Hi. apply geometry_ok_spec in Hg as (? & ? & ? & ? & ? & ?).
  unfold slot. nia.
Qed.

Lemma slot_outside_control g i :
  geometry_ok g = true -> 0 <= i < g_cap g ->
  slot g i + g_bs g <= g_queue g \/ g_queue g + sizeof_HyperampShmQueue <= slot g i.
Proof.
  intros Hg Hi. pose proof (slot_range g i Hg Hi).
  apply geometry_ok_spec in Hg as (? & ? & ? & ? & ? & ?). lia.
Qed.

Lemma slot_addr_slot g m :
  qwf g m -> forall i, 0 <= i < g_cap g -> slot_addr (g_base g) (g_bs g) i = slot g i.
Proof.
  intros Hw i Hi. pose proof (slot_range g i (qwf_geo g m Hw) Hi) as Hs. geo g Hw.
  unfold slot in *. apply slot_addr_id. nia.
Qed.

Lemma slots_apart g i j :
  geometry_ok g = true -> i <> j ->
  slot g i + g_bs g <= slot g j \/ slot g j + g_bs g <= slot g i.
Proof.
  intros Hg Hne. apply geometry_ok_spec in Hg as (? & ? & ? & ? & ? & ?).
  unfold slot. destruct (Z.lt_total i j) as [|[|]]; [left|done|right]; nia.
Qed.

Lemma block_ext g m1 m2 i :
  (forall x, slot g i <= x < slot g i + g_bs g -> m1 x = m2 x) -> 0 <= g_bs g ->
  ring_block g m1 i = ring_block g m2 i.
Proof. intros H ?. apply mread_ext. intros. apply H. lia. Qed.

Lemma block_qset g m f v i :
  geometry_ok g = true -> 0 <= i < g_cap g ->
  ring_block g (qset f m (g_queue g) v) i = ring_block g m i.
Proof.
  intros Hg Hi. pose proof (slot_outside_control g i Hg Hi).
  apply geometry_ok_spec in Hg as (? & ? & ? & ? & ? & ?).
  apply mread_qset. lia.
Qed.

Lemma block_write_same g m i l :
  blen l <= g_bs g ->
  ring_block g (mwrite m (slot g i) l) i = l ++ drop (length l) (ring_block g m i).
Proof.
  intros Hl. unfold ring_block, blen in *.
  replace (Z.to_nat (g_bs g)) with (length l + (Z.to_nat (g_bs g) - length l))%nat by lia.
  rewrite !mread_app, mread_mwrite_eq. f_equal.
  rewrite drop_app_length' by (by rewrite mread_length).
  apply mread_mwrite_ne. unfold blen. lia.
Qed.

Lemma block_write_other g m i j l :
  geometry_ok g = true -> blen l <= g_bs g -> i <> j ->
  ring_block g (mwrite m (slot g j) l) i = ring_block g m i.
Proof.
  intros Hg Hl Hne. pose proof (slots_apart g i j Hg Hne).
  apply geometry_ok_spec in Hg as (? & ? & ? & ? & ? & ?).
  apply mread_mwrite_ne. lia.
Qed.

(** ** Ring indices *)

Lemma ring_index_cases g t k :
  0 <= t < g_cap g -> 0 <= k < g_cap g ->
  ring_index g t k = if t + k <? g_cap g then t + k else t + k - g_cap g.
Proof.
  intros. unfold ring_index. destruct (Z.ltb_spec (t + k) (g_cap g)).
  - apply Z.mod_small. lia.
  - rewrite <- (Z.mod_small (t + k - g_cap g) (g_cap g)) by lia.
    replace (t + k) with (t + k - g_cap g + 1 * g_cap g) at 1 by lia.
    apply Z.mod_add. lia.
Qed.

Lemma ring_index_range g t k :
  0 < g_cap g -> 0 <= ring_index g t k < g_cap g.
Proof. intros. unfold ring_index. apply Z.mod_pos_bound. lia. Qed.

Lemma qlength_range g m : qwf g m -> 0 <= qlength g m < g_cap g.
Proof.
  intros [? ? ? Hh Ht ? ?]. unfold qlength, HYPERAMP_QUEUE_LENGTH, qheader, qtail.
  destruct (Z.leb_spec (qget F_tail m (g_queue g)) (qget F_header m (g_queue g))); lia.
Qed.

Lemma contents_length g m : length (contents g m) = Z.to_nat (qlength g m).
Proof. unfold contents. by rewrite length_map, length_seq. Qed.

Lemma qlength_zero g m :
  qwf g m -> qlength g m = 0 <-> qtail g m = qheader g m.
Proof.
  intros [? ? ? Hh Ht ? ?]. unfold qlength, HYPERAMP_QUEUE_LENGTH, qheader, qtail.
  destruct (Z.leb_spec (qget F_tail m (g_queue g)) (qget F_header m (g_queue g))); lia.
Qed.

Lemma next_index_cases i cap :
  0 < cap < 65536 -> 0 <= i < cap ->
  next_index i cap = if i + 1 =? cap then 0 else i + 1.
Proof.
  intros. rewrite next_index_mod by done. destruct (Z.eqb_spec (i + 1) cap).
  - subst cap. by rewrite Z.mod_same by lia.
  - apply Z.mod_small. lia.
Qed.

Lemma full_iff g m :
  qwf g m ->
  next_index (qheader g m) (g_cap g) = qtail g m <-> qlength g m = g_cap g - 1.
Proof.
  intros H. geo g H. destruct H as [? ? ? Hh Ht ? ?]. unfold qheader, qtail in *.
  rewrite next_index_cases by done. unfold qlength, HYPERAMP_QUEUE_LENGTH, qheader, qtail.
  destruct (Z.eqb_spec (qget F_header m (g_queue g) + 1) (g_cap g)),
    (Z.leb_spec (qget F_tail m (g_queue g)) (qget F_header m (g_queue g))); lia.
Qed.

(** The slot the producer writes is the one just past the stored blocks. *)
Lemma header_index g m :
  qwf g m -> ring_index g (qtail g m) (qlength g m) = qheader g m.
Proof.
  intros H. pose proof (qlength_range g m H). geo g H. destruct H as [? ? ? Hh Ht ? ?].
  rewrite ring_index_cases by (unfold qtail; lia).
  unfold qlength, HYPERAMP_QUEUE_LENGTH, qheader, qtail in *.
  destruct (Z.leb_spec (qget F_tail m (g_queue g)) (qget F_header m (g_queue g)));
    match goal with |- context [?a <? ?b] => destruct (Z.ltb_spec a b) end; lia.
Qed.

Lemma stored_index_ne_header g m k :
  qwf g m -> 0 <= k < qlength g m -> ring_index g (qtail g m) k <> qheader g m.
Proof.
  intros H Hk. pose proof (qlength_range g m H). geo g H. destruct H as [? ? ? Hh Ht ? ?].
  rewrite ring_index_cases by (unfold qtail; lia).
  unfold qlength, HYPERAMP_QUEUE_LENGTH, qheader, qtail in *.
  destruct (Z.leb_spec (qget F_tail m (g_queue g)) (qget F_header m (g_queue g)));
    match goal with |- context [?a <? ?b] => destruct (Z.ltb_spec a b) end; lia.
Qed.

(** ** How index updates act on the contents *)

Lemma contents_frame g m m' :
  qwf g m -> qheader g m' = qheader g m -> qtail g m' = qtail g m ->
  (forall i, 0 <= i < g_cap g -> ring_block g m' i = ring_block g m i) ->
  contents g m' = contents g m.
Proof.
  intros Hw Hh Ht Hb. geo g Hw. unfold contents, qlength. rewrite Hh, Ht.
  apply map_ext. intros k. apply Hb. apply ring_index_range. lia.
Qed.

Lemma contents_push g m m' b :
  qwf g m -> qlength g m < g_cap g - 1 ->
  qtail g m' = qtail g m -> qheader g m' = next_index (qheader g m) (g_cap g) ->
  ring_block g m' (qheader g m) = b ->
  (forall i, 0 <= i < g_cap g -> i <> qheader g m -> ring_block g m' i = ring_block g m i) ->
  contents g m' = contents g m ++ [b].
Proof.
  intros Hw Hlt Ht Hh Hb Ho. pose proof (qlength_range g m Hw) as Hr.
  pose proof (header_index g m Hw) as Hi.
  assert (qlength g m' = qlength g m + 1) as Hl'.
  { geo g Hw. destruct Hw as [? ? ? Hh0 Ht0 ? ?].
    unfold qlength in *. rewrite Ht, Hh. rewrite next_index_cases by done.
    unfold HYPERAMP_QUEUE_LENGTH, qheader, qtail in *.
    repeat match goal with
    | |- context [?a =? ?b] => destruct (Z.eqb_spec a b)
    | |- context [?a <=? ?b] => destruct (Z.leb_spec a b)
    | H : context [?a <=? ?b] |- _ => destruct (Z.leb_spec a b)
    end; lia. }
  unfold contents. rewrite Hl', Ht.
  replace (Z.to_nat (qlength g m + 1)) with (Z.to_nat (qlength g m) + 1)%nat by lia.
  rewrite seq_app, map_app. cbn [seq map Nat.add]. f_equal.
  - apply map_ext_in. intros k Hk%in_seq. geo g Hw. apply Ho; [apply ring_index_range; lia|].
    apply stored_index_ne_header; [done|lia].
  - rewrite Z2Nat.id by lia. by rewrite Hi, Hb.
Qed.

Lemma contents_pop g m m' :
  qwf g m -> qtail g m <> qheader g m ->
  qheader g m' = qheader g m -> qtail g m' = next_index (qtail g m) (g_cap g) ->
  (forall i, 0 <= i < g_cap g -> ring_block g m' i = ring_block g m i) ->
  contents g m = ring_block g m (qtail g m) :: contents g m'.
Proof.
  intros Hw Hne Hh Ht Hb. pose proof (qlength_range g m Hw) as Hr. geo g Hw.
  assert (qlength g m' = qlength g m - 1 /\ 0 < qlength g m) as [Hl' Hpos].
  { destruct Hw as [? ? ? Hh0 Ht0 ? ?].
    unfold qlength in *. rewrite Ht, Hh. rewrite next_index_cases by done.
    unfold HYPERAMP_QUEUE_LENGTH, qheader, qtail in *.
    repeat match goal with
    | |- context [?a =? ?b] => destruct (Z.eqb_spec a b)
    | |- context [?a <=? ?b] => destruct (Z.leb_spec a b)
    | H : context [?a <=? ?b] |- _ => destruct (Z.leb_spec a b)
    end; lia. }
  unfold contents. rewrite Hl', Ht.
  replace (Z.to_nat (qlength g m)) with (S (Z.to_nat (qlength g m - 1))) by lia.
  cbn [seq map]. f_equal.
  - destruct Hw as [? ? ? Hh0 Ht0 ? ?]. f_equal. unfold ring_index.
    rewrite Z.add_0_r. apply Z.mod_small. apply Ht0.
  - rewrite <- seq_shift, map_map. apply map_ext. intros k.
    rewrite Hb by (apply ring_index_range; lia). f_equal.
    destruct Hw as [? ? ? Hh0 Ht0 ? ?]. rewrite next_index_mod by done.
    unfold ring_index. rewrite Nat2Z.inj_succ, Zplus_mod_idemp_l. f_equal. lia.
Qed.

(** ** Locked states

    [locked g m m']: [m'] is [m] with the lock taken; every other field and
    the whole data region are unchanged. *)

Lemma lock_qwf g m z :
  qwf g m -> exists m', hyperamp_spinlock_lock m (g_queue g) z = Done m' /\
  mem_bytes m' /\
  (forall f, lock_field f = false -> qget f m' (g_queue g) = qget f m (g_queue g)) /\
  (forall i, 0 <= i < g_cap g -> ring_block g m' i = ring_block g m i).
Proof.
  intros Hw. geo g Hw. rewrite lock_free by (try lia; apply Hw).
  eexists. split; [reflexivity|]. split; [|split].
  - destruct Hw. auto with proxymem.
  - intros f Hf. rewrite !qget_qset_ne; [done|..]; intros ->; discriminate.
  - intros i Hi. rewrite !block_qset by (done || apply Hw). done.
Qed.

(** Closing the critical section: what a caller finds after the unlock. *)
Lemma unlock_qwf g m :
  geometry_ok g = true -> mem_bytes m ->
  qget F_capacity m (g_queue g) = g_cap g -> qget F_block_size m (g_queue g) = g_bs g ->
  0 <= qget F_header m (g_queue g) < g_cap g -> 0 <= qget F_tail m (g_queue g) < g_cap g ->
  qwf g (hyperamp_spinlock_unlock m (g_queue g)).
Proof.
  intros Hg Hb Hc Hs Hh Ht. pose proof (geometry_ok_spec g Hg) as (? & _).
  split; rewrite ?unlock_frame by done; try done; [apply unlock_value; lia|by apply unlock_bytes].
Qed.

Lemma block_unlock g m i :
  geometry_ok g = true -> 0 <= i < g_cap g ->
  ring_block g (hyperamp_spinlock_unlock m (g_queue g)) i = ring_block g m i.
Proof.
  intros Hg Hi. unfold hyperamp_spinlock_unlock. case_match; [done|].
  by rewrite !block_qset.
Qed.

Lemma unlock_contents g m m1 :
  qwf g m -> mem_bytes m1 ->
  (forall f, lock_field f = false -> qget f m1 (g_queue g) = qget f m (g_queue g)) ->
  (forall i, 0 <= i < g_cap g -> ring_block g m1 i = ring_block g m i) ->
  qwf g (hyperamp_spinlock_unlock m1 (g_queue g)) /\
  contents g (hyperamp_spinlock_unlock m1 (g_queue g)) = contents g m.
Proof.
  intros Hw Hb Hf Hbl. split.
  - destruct Hw. apply unlock_qwf; rewrite ?Hf by done; done.
  - apply contents_frame; [done|..]; unfold qheader, qtail; rewrite ?unlock_frame, ?Hf by done; try done.
    intros i Hi. rewrite block_unlock by (done || apply Hw). auto.
Qed.

(** Bookkeeping of the two index updates. *)
Lemma header_update_qwf g m m2 v c :
  qwf g m -> mem_bytes m2 ->
  (forall f, lock_field f = false -> qget f m2 (g_queue g) = qget f m (g_queue g)) ->
  0 <= v < g_cap g ->
  let m' := hyperamp_spinlock_unlock
              (qset F_enqueue_count (qset F_header m2 (g_queue g) v) (g_queue g) c) (g_queue g) in
  qwf g m' /\ qheader g m' = v /\ qtail g m' = qtail g m /\
  (forall i, 0 <= i < g_cap g -> ring_block g m' i = ring_block g m2 i).
Proof.
  intros Hw Hb Hf Hv m'. geo g Hw. destruct Hw.
  assert (0 <= v < field_max F_header) by (unfold field_max; cbn; lia).
  split; [|split; [|split]].
  - apply unlock_qwf; try (auto with proxymem); qfields; rewrite ?qget_qset_eq, ?Hf by done; done.
  - unfold m', qheader. rewrite unlock_frame by done. by qfields.
  - unfold m', qtail. rewrite unlock_frame by done. qfields. by rewrite Hf.
  - intros i Hi. unfold m'. by rewrite block_unlock, !block_qset.
Qed.

Lemma tail_update_qwf g m m2 v c :
  qwf g m -> mem_bytes m2 ->
  (forall f, lock_field f = false -> qget f m2 (g_queue g) = qget f m (g_queue g)) ->
  0 <= v < g_cap g ->
  let m' := hyperamp_spinlock_unlock
              (qset F_dequeue_count (qset F_tail m2 (g_queue g) v) (g_queue g) c) (g_queue g) in
  qwf g m' /\ qtail g m' = v /\ qheader g m' = qheader g m /\
  (forall i, 0 <= i < g_cap g -> ring_block g m' i = ring_block g m2 i).
Proof.
  intros Hw Hb Hf Hv m'. geo g Hw. destruct Hw.
  assert (0 <= v < field_max F_tail) by (unfold field_max; cbn; lia).
  split; [|split; [|split]].
  - apply unlock_qwf; try (auto with proxymem); qfields; rewrite ?qget_qset_eq, ?Hf by done; done.
  - unfold m', qtail. rewrite unlock_frame by done. by qfields.
  - unfold m', qheader. rewrite unlock_frame by done. qfields. by rewrite Hf.
  - intros i Hi. unfold m'. by rewrite block_unlock, !block_qset.
Qed.

Lemma next_index_range i cap :
  0 < cap < 65536 -> 0 <= i < cap -> 0 <= next_index i cap < cap.
Proof. intros. rewrite next_index_mod by done. apply Z.mod_pos_bound. lia. Qed.

(** ** Enqueue *)

(** The block left in the written slot: the message, then the old bytes. *)
Definition stored_block g m (buf : list Z) (len : Z) : list Z :=
  take (Z.to_nat len) buf ++ drop (Z.to_nat len) (ring_block g m (qheader g m)).

Lemma enqueue_ready g m z buf len :
  qwf g m -> 0 < len <= g_bs g ->
  hyperamp_queue_enqueue m (g_queue g) z (Some buf) len (g_base g) =
  (m1 ← hyperamp_spinlock_lock m (g_queue g) z;
   let new_header := next_index (qget F_header m1 (g_queue g)) (qget F_capacity m1 (g_queue g)) in
   if new_header =? qget F_tail m1 (g_queue g)
   then Done (PROCESS_AGAIN, hyperamp_spinlock_unlock m1 (g_queue g))
   else
     m2 ← hyperamp_safe_memcpy_in m1
            (slot_addr (g_base g) (qget F_block_size m1 (g_queue g)) (qget F_header m1 (g_queue g)))
            buf len;
     let m3 := qset F_header m2 (g_queue g) new_header in
     let m4 := qset F_enqueue_count m3 (g_queue g) (u32 (qget F_enqueue_count m3 (g_queue g) + 1)) in
     Done (PROCESS_OK, hyperamp_spinlock_unlock m4 (g_queue g))).
Proof.
  intros Hw Hl. geo g Hw. unfold hyperamp_queue_enqueue.
  rewrite (proj2 (Z.eqb_neq (g_queue g) 0)), (proj2 (Z.eqb_neq len 0)) by lia. cbn [orb].
  rewrite (qwf_bs g m Hw). rewrite (proj2 (Z.ltb_ge (g_bs g) len)) by lia. done.
Qed.

Lemma enqueue_full g m z buf len :
  qwf g m -> 0 < len <= g_bs g -> qlength g m = g_cap g - 1 ->
  exists m', hyperamp_queue_enqueue m (g_queue g) z (Some buf) len (g_base g)
             = Done (PROCESS_AGAIN, m') /\ qwf g m' /\ contents g m' = contents g m.
Proof.
  intros Hw Hl Hfull. rewrite enqueue_ready by done.
  destruct (lock_qwf g m z Hw) as (m1 & -> & Hb & Hf & Hbl). cbn.
  rewrite !Hf by done. rewrite (qwf_cap g m Hw).
  pose proof (proj2 (full_iff g m Hw) Hfull) as Hn. unfold qheader, qtail in Hn.
  rewrite Hn, Z.eqb_refl. eexists. split; [done|]. by apply unlock_contents.
Qed.

Lemma enqueue_room_slot g m z buf len :
  qwf g m -> 0 < len <= g_bs g -> len <= blen buf -> Forall is_byte buf ->
  qlength g m < g_cap g - 1 ->
  exists m', hyperamp_queue_enqueue m (g_queue g) z (Some buf) len (g_base g)
             = Done (PROCESS_OK, m') /\ qwf g m' /\
             contents g m' = contents g m ++ [stored_block g m buf len] /\
             ring_block g m' (qheader g m) = stored_block g m buf len.
Proof.
  intros Hw Hl Hlen Hbuf Hroom. rewrite enqueue_ready by done.
  destruct (lock_qwf g m z Hw) as (m1 & -> & Hb & Hf & Hbl). cbn.
  rewrite !Hf by done. rewrite (qwf_cap g m Hw), (qwf_bs g m Hw).
  pose proof (full_iff g m Hw) as Hfull. unfold qheader, qtail in Hfull.
  rewrite (proj2 (Z.eqb_neq _ _)) by (intros E; apply Hfull in E; lia).
  geo g Hw. pose proof (qwf_geo g m Hw) as Hgeo.
  rewrite (slot_addr_slot g m Hw) by apply Hw.
  unfold hyperamp_safe_memcpy_in. rewrite bread_ok by lia. cbn.
  set (l := take (Z.to_nat len) (drop (Z.to_nat 0) buf)).
  assert (blen l = len) as Hll.
  { unfold l, blen in *. rewrite length_take, length_drop. lia. }
  assert (Forall is_byte l) as Hlb by (by apply Forall_take, Forall_drop).
  set (h := qget F_header m (g_queue g)).
  pose proof (slot_outside_control g h Hgeo (qwf_header g m Hw)) as Hso.
  edestruct (header_update_qwf g m (mwrite m1 (slot g h) l) (next_index h (g_cap g)))
    as (Hw' & Hh' & Ht' & Hbl'); [done|auto with proxymem| | |].
  { intros f Hff. rewrite qget_mwrite by lia. auto. }
  { apply next_index_range; [done|apply Hw]. }
  eexists. split; [reflexivity|]. split; [exact Hw'|].
  match type of Hw' with qwf _ ?m' =>
    assert (ring_block g m' (qheader g m) = stored_block g m buf len) as Hst end.
  { rewrite Hbl' by apply Hw. fold h. rewrite block_write_same by lia.
    unfold stored_block. change (drop (Z.to_nat 0) buf) with buf in l. f_equal.
    rewrite Hbl by apply Hw. f_equal. unfold blen in Hll. lia. }
  split; [|exact Hst]. apply contents_push; [done|done|done|done|exact Hst|].
  - intros i Hi Hne. rewrite Hbl' by done. rewrite block_write_other by (done || lia). auto.
Qed.

Lemma enqueue_room g m z buf len :
  qwf g m -> 0 < len <= g_bs g -> len <= blen buf -> Forall is_byte buf ->
  qlength g m < g_cap g - 1 ->
  exists m', hyperamp_queue_enqueue m (g_queue g) z (Some buf) len (g_base g)
             = Done (PROCESS_OK, m') /\ qwf g m' /\
             contents g m' = contents g m ++ [stored_block g m buf len].
Proof.
  intros. destruct (enqueue_room_slot g m z buf len) as (m' & ? & ? & ? & _); try done. eauto.
Qed.

(** C3. [hyperamp_queue_enqueue] implements the bounded FIFO's push: on a
    well-formed unlocked queue and a message of 1..block_size bytes it always
    returns; it reports AGAIN exactly when [capacity - 1] blocks are stored
    and otherwise appends the message as the newest block; the invariant
    (indices in range, lock free) holds again afterwards. *)
Theorem enqueue_refines_push g m z buf len :
  qwf g m -> 0 < len <= g_bs g -> len <= blen buf -> Forall is_byte buf ->
  let '(st, s') := fifo.push (Z.to_nat (g_cap g - 1)) (stored_block g m buf len) (contents g m) in
  exists m', hyperamp_queue_enqueue m (g_queue g) z (Some buf) len (g_base g) = Done (st, m') /\
             qwf g m' /\ contents g m' = s'.
Proof.
  intros Hw Hl Hlen Hbuf. pose proof (qlength_range g m Hw) as Hr.
  unfold fifo.push. rewrite contents_length. case_decide.
  - apply enqueue_room; try done. lia.
  - apply enqueue_full; try done. lia.
Qed.

(** ** Dequeue *)

Definition read_length (max_len bs : Z) : Z := if max_len <? bs then max_len else bs.

Lemma dequeue_ready g m z buf max_len :
  qwf g m -> 0 < max_len ->
  hyperamp_queue_dequeue m (g_queue g) z (Some buf) max_len (g_base g) =
  (m1 ← hyperamp_spinlock_lock m (g_queue g) z;
   if qget F_tail m1 (g_queue g) =? qget F_header m1 (g_queue g)
   then Done {| dq_status := PROCESS_AGAIN; dq_mem := hyperamp_spinlock_unlock m1 (g_queue g);
                dq_data := buf; dq_len := None |}
   else
     let n := read_length max_len (qget F_block_size m1 (g_queue g)) in
     buf' ← hyperamp_safe_memcpy_out m1 buf
              (slot_addr (g_base g) (qget F_block_size m1 (g_queue g)) (qget F_tail m1 (g_queue g))) n;
     let m2 := qset F_tail m1 (g_queue g)
                 (next_index (qget F_tail m1 (g_queue g)) (qget F_capacity m1 (g_queue g))) in
     let m3 := qset F_dequeue_count m2 (g_queue g) (u32 (qget F_dequeue_count m2 (g_queue g) + 1)) in
     Done {| dq_status := PROCESS_OK; dq_mem := hyperamp_spinlock_unlock m3 (g_queue g);
             dq_data := buf'; dq_len := Some n |}).
Proof.
  intros Hw Hl. geo g Hw. unfold hyperamp_queue_dequeue, read_length.
  rewrite (proj2 (Z.eqb_neq (g_queue g) 0)), (proj2 (Z.eqb_neq max_len 0)) by lia. done.
Qed.

Lemma memcpy_out_block g m m1 buf n i :
  qwf g m -> (forall i, 0 <= i < g_cap g -> ring_block g m1 i = ring_block g m i) ->
  0 <= i < g_cap g -> 0 < n <= g_bs g -> n <= blen buf ->
  hyperamp_safe_memcpy_out m1 buf (slot g i) n =
  Done (take (Z.to_nat n) (ring_block g m i) ++ drop (Z.to_nat n) buf).
Proof.
  intros Hw Hbl Hi Hn Hbuf. unfold hyperamp_safe_memcpy_out, bwrite, blen in *.
  rewrite (proj2 (in_range_true _ _ _)) by (rewrite mread_length; unfold blen; lia).
  change (Z.to_nat 0) with 0%nat. rewrite take_0. cbn [app Nat.add]. rewrite mread_length. do 2 f_equal.
  rewrite <- Hbl by done. unfold ring_block.
  replace (Z.to_nat (g_bs g)) with (Z.to_nat n + (Z.to_nat (g_bs g) - Z.to_nat n))%nat by lia.
  rewrite mread_app, take_app_length' by (by rewrite mread_length). reflexivity.
Qed.

Lemma dequeue_empty g m z buf max_len :
  qwf g m -> 0 < max_len -> contents g m = [] ->
  exists d, hyperamp_queue_dequeue m (g_queue g) z (Some buf) max_len (g_base g) = Done d /\
  qwf g (dq_mem d) /\ contents g (dq_mem d) = [] /\
  dq_status d = PROCESS_AGAIN /\ dq_data d = buf /\ dq_len d = None.
Proof.
  intros Hw Hmax Hc. rewrite dequeue_ready by done.
  destruct (lock_qwf g m z Hw) as (m1 & -> & Hb & Hf & Hbl). cbn.
  rewrite !Hf by done. pose proof (qlength_zero g m Hw) as Hz. unfold qtail, qheader in Hz.
  pose proof (contents_length g m) as Hl. rewrite Hc in Hl. pose proof (qlength_range g m Hw).
  rewrite (proj1 Hz) by (cbn in Hl; lia). rewrite Z.eqb_refl.
  destruct (unlock_contents g m m1) as [Hw' Hc']; try done.
  eexists. split; [done|]. rewrite Hc in Hc'. cbn. auto.
Qed.

Lemma dequeue_nonempty g m z buf max_len b s :
  qwf g m -> 0 < max_len -> read_length max_len (g_bs g) <= blen buf -> contents g m = b :: s ->
  exists d, hyperamp_queue_dequeue m (g_queue g) z (Some buf) max_len (g_base g) = Done d /\
  qwf g (dq_mem d) /\ contents g (dq_mem d) = s /\ dq_status d = PROCESS_OK /\
  let n := Z.to_nat (read_length max_len (g_bs g)) in
  dq_data d = take n b ++ drop n buf /\ dq_len d = Some (read_length max_len (g_bs g)).
Proof.
  intros Hw Hmax Hbuf Hc. rewrite dequeue_ready by done.
  destruct (lock_qwf g m z Hw) as (m1 & -> & Hb & Hf & Hbl). cbn.
  rewrite !Hf by done. rewrite (qwf_cap g m Hw), (qwf_bs g m Hw).
  geo g Hw. pose proof (qwf_geo g m Hw) as Hgeo. pose proof (qlength_zero g m Hw) as Hz.
  pose proof (contents_length g m) as Hl. rewrite Hc in Hl. cbn in Hl.
  assert (qget F_tail m (g_queue g) <> qget F_header m (g_queue g)) as He.
  { intros He. apply Hz in He. lia. }
  rewrite (proj2 (Z.eqb_neq _ _) He).
  assert (0 < read_length max_len (g_bs g) <= g_bs g) as Hn.
  { unfold read_length. destruct (Z.ltb_spec max_len (g_bs g)); lia. }
  rewrite (slot_addr_slot g m Hw) by apply Hw.
  rewrite (memcpy_out_block g m) by (done || apply Hw || lia). cbn.
  edestruct (tail_update_qwf g m m1 (next_index (qget F_tail m (g_queue g)) (g_cap g)))
    as (Hw' & Ht' & Hh' & Hbl'); [done|done|done| |].
  { apply next_index_range; [done|apply Hw]. }
  eexists. split; [reflexivity|]. cbn [dq_mem]. split; [exact Hw'|].
  erewrite (contents_pop g m) in Hc; [|done|exact He|exact Hh'|exact Ht'|].
  - injection Hc as <- <-. cbn. auto.
  - intros i Hi. rewrite Hbl' by done. auto.
Qed.

(** C4. [hyperamp_queue_dequeue] implements the FIFO's pop: on a well-formed
    unlocked queue it always returns; an empty queue gives AGAIN and leaves the
    caller's buffer alone; otherwise the oldest block is removed, its first
    min(max_len, block_size) bytes are in the caller's buffer and
    [*actual_len] is that number. *)
Theorem dequeue_refines_pop g m z buf max_len :
  qwf g m -> 0 < max_len -> read_length max_len (g_bs g) <= blen buf ->
  exists d, hyperamp_queue_dequeue m (g_queue g) z (Some buf) max_len (g_base g) = Done d /\
  qwf g (dq_mem d) /\
  let '(st, b, s') := fifo.pop (contents g m) in
  dq_status d = st /\ contents g (dq_mem d) = s' /\
  match b with
  | None => dq_data d = buf /\ dq_len d = None
  | Some b =>
      let n := Z.to_nat (read_length max_len (g_bs g)) in
      dq_data d = take n b ++ drop n buf /\ dq_len d = Some (read_length max_len (g_bs g))
  end.
Proof.
  intros Hw Hmax Hbuf. destruct (contents g m) as [|b s] eqn:Hc.
  - destruct (dequeue_empty g m z buf max_len) as (d & ? & ? & ? & ? & ? & ?); try done.
    exists d. split_and!; done.
  - destruct (dequeue_nonempty g m z buf max_len b s) as (d & ? & ? & ? & ? & ? & ?); try done.
    exists d. split_and!; done.
Qed.

(** ** Initialisation *)

Definition config_ok (c : HyperampQueueConfig) : bool :=
  (0 <? cfg_capacity c) && (cfg_capacity c <? 65536) &&
  (0 <? cfg_block_size c) && (cfg_block_size c <? 65536).

Definition config_geometry (queue base : Z) (c : HyperampQueueConfig) : geometry :=
  {| g_queue := queue; g_base := base; g_cap := cfg_capacity c; g_bs := cfg_block_size c |}.

Lemma config_ok_spec c :
  config_ok c = true -> 0 < cfg_capacity c < 65536 /\ 0 < cfg_block_size c < 65536.
Proof. unfold config_ok. rewrite !andb_true_iff, !Z.ltb_lt. tauto. Qed.

Lemma fold_qset_bytes (l : list (qfield * Z)) m p :
  mem_bytes m -> mem_bytes (fold_left (fun m '(f, v) => qset f m p v) l m).
Proof.
  revert m. induction l as [|[f v] l IH]; intros m H; cbn; [done|]. auto with proxymem.
Qed.

Lemma fold_qset_out (l : list (qfield * Z)) m p x :
  x < p \/ p + sizeof_HyperampShmQueue <= x ->
  fold_left (fun m '(f, v) => qset f m p v) l m x = m x.
Proof.
  intros Hx. revert m. induction l as [|[f v] l IH]; intros m; cbn; [done|].
  rewrite IH. by apply qset_out.
Qed.

Lemma init_creator_ok m queue c :
  queue <> 0 -> config_ok c = true ->
  hyperamp_queue_init m queue (Some c) true = (PROCESS_OK, hyperamp_queue_init_creator m queue c).
Proof.
  intros Hq Hc%config_ok_spec. unfold hyperamp_queue_init.
  rewrite (proj2 (Z.eqb_neq queue 0) Hq).
  by rewrite (proj2 (Z.eqb_neq (cfg_block_size c) 0)), (proj2 (Z.eqb_neq (cfg_capacity c) 0)) by lia.
Qed.

Lemma init_creator_qwf m queue base c :
  mem_bytes m -> config_ok c = true ->
  geometry_ok (config_geometry queue base c) = true ->
  qwf (config_geometry queue base c) (hyperamp_queue_init_creator m queue c) /\
  contents (config_geometry queue base c) (hyperamp_queue_init_creator m queue c) = [].
Proof.
  intros Hm Hc%config_ok_spec Hg.
  pose proof (geometry_ok_spec _ Hg) as (Hq & _). cbn [g_queue config_geometry] in Hq.
  rewrite init_creator_fields by lia.
  split.
  - split; cbn [g_queue g_cap g_bs config_geometry]; try done;
      [..|by apply fold_qset_bytes]; cbn [fold_left]; qfields; lia.
  - apply nil_length_inv. rewrite contents_length.
    unfold qlength, qheader, qtail, HYPERAMP_QUEUE_LENGTH.
    cbn [g_queue config_geometry fold_left]. qfields. reflexivity.
Qed.

(** The creator's byte-by-byte [hyperamp_queue_init] establishes an empty
    well-formed queue with the configured dimensions, the magic number and
    version, zeroed counters and a free lock, makes
    [hyperamp_queue_is_initialized] true, and touches nothing outside the
    control block. *)
Theorem init_establishes_queue m queue base c :
  mem_bytes m -> config_ok c = true ->
  geometry_ok (config_geometry queue base c) = true ->
  exists m', hyperamp_queue_init m queue (Some c) true = (PROCESS_OK, m') /\
  qwf (config_geometry queue base c) m' /\ contents (config_geometry queue base c) m' = [] /\
  hyperamp_queue_is_initialized m' queue = true /\
  qget F_magic m' queue = HYPERAMP_QUEUE_MAGIC /\ qget F_version m' queue = 1 /\
  qget F_enqueue_count m' queue = 0 /\ qget F_dequeue_count m' queue = 0 /\
  qget F_virt_addr2 m' queue = 0 /\
  (forall x, x < queue \/ queue + sizeof_HyperampShmQueue <= x -> m' x = m x).
Proof.
  intros Hm Hc Hg. pose proof (geometry_ok_spec _ Hg) as (Hq & _).
  cbn [g_queue config_geometry] in Hq.
  destruct (init_creator_qwf m queue base c Hm Hc Hg) as [Hw Hcont].
  eexists. split; [apply init_creator_ok; [lia|done]|].
  split; [exact Hw|split; [exact Hcont|]]. split.
  - unfold hyperamp_queue_is_initialized. rewrite (proj2 (Z.eqb_neq queue 0)) by lia.
    apply Z.ltb_lt. rewrite safe_read_loop_spec by (cbn; lia || apply Hw).
    pose proof (qwf_cap _ _ Hw) as Hcap. unfold qget in Hcap.
    cbn [g_queue g_cap config_geometry field_size] in Hcap.
    rewrite Z.add_0_r. change (Z.to_nat 2) with 2%nat in Hcap. rewrite Hcap.
    apply config_ok_spec in Hc. lia.
  - rewrite init_creator_fields by lia.
    unfold HYPERAMP_QUEUE_MAGIC.
    split_and!; [cbn [fold_left]; qfields; reflexivity..|]. intros x Hx. by apply fold_qset_out.
Qed.

(** ** Rejected calls *)

(** A call with a null queue, a null or empty message, or a message longer
    than a block is refused with ERROR, before the lock is taken and without
    changing memory. *)
Theorem enqueue_rejects m queue z data len base :
  queue = 0 \/ data = None \/ len = 0 \/ qget F_block_size m queue < len ->
  hyperamp_queue_enqueue m queue z data len base = Done (PROCESS_ERROR, m).
Proof.
  intros H. unfold hyperamp_queue_enqueue. destruct data as [buf|]; [|done].
  destruct (Z.eqb_spec queue 0); [done|]. destruct (Z.eqb_spec len 0); [done|]. cbn [orb].
  destruct H as [|[|[|H]]]; try done. by rewrite (proj2 (Z.ltb_lt _ _) H).
Qed.

(** ** Peek and the zero-copy pair *)

(** [hyperamp_queue_peek] returns the oldest block without removing it, and
    ERROR (not AGAIN) on an empty queue; in both cases the contents and the
    invariant are unchanged. *)
Theorem peek_reads_front g m z buf max_len :
  qwf g m -> 0 < max_len -> read_length max_len (g_bs g) <= blen buf ->
  exists d, hyperamp_queue_peek m (g_queue g) z (Some buf) max_len (g_base g) = Done d /\
  qwf g (dq_mem d) /\ contents g (dq_mem d) = contents g m /\
  match contents g m with
  | [] => dq_status d = PROCESS_ERROR /\ dq_data d = buf
  | b :: _ => dq_status d = PROCESS_OK /\
      let n := Z.to_nat (read_length max_len (g_bs g)) in dq_data d = take n b ++ drop n buf
  end.
Proof.
  intros Hw Hmax Hbuf. geo g Hw. unfold hyperamp_queue_peek.
  rewrite (proj2 (Z.eqb_neq (g_queue g) 0)), (proj2 (Z.eqb_neq max_len 0)) by lia. cbn [orb].
  destruct (lock_qwf g m z Hw) as (m1 & -> & Hb & Hf & Hbl). cbn.
  rewrite !Hf by done. rewrite (qwf_bs g m Hw). fold (read_length max_len (g_bs g)).
  pose proof (qlength_zero g m Hw) as Hz. pose proof (qlength_range g m Hw) as Hr.
  destruct (unlock_contents g m m1) as [Hw' Hc]; try done.
  destruct (Z.eqb_spec (qget F_tail m (g_queue g)) (qget F_header m (g_queue g))) as [He|He].
  - eexists. split; [done|]. cbn [dq_mem]. split_and!; try done.
    rewrite (nil_length_inv (contents g m)); [done|]. rewrite contents_length, (proj2 Hz He). reflexivity.
  - assert (0 < read_length max_len (g_bs g) <= g_bs g) as Hn.
    { unfold read_length. destruct (Z.ltb_spec max_len (g_bs g)); lia. }
    rewrite (slot_addr_slot g m Hw) by apply Hw.
    rewrite (memcpy_out_block g m) by (done || apply Hw || lia). cbn.
    eexists. split; [done|]. cbn [dq_mem]. split_and!; try done.
    unfold contents. destruct (Z.to_nat (qlength g m)) eqn:El.
    { exfalso. apply He, Hz. lia. }
    cbn [seq map]. split; [done|]. cbn. do 3 f_equal. symmetry. unfold ring_index.
    rewrite Z.add_0_r. apply Z.mod_small, Hw.
Qed.

Lemma u16_mod_next i cap :
  0 < cap < 65536 -> 0 <= i < cap -> u16 ((i + 1) mod cap) = next_index i cap.
Proof.
  intros. rewrite next_index_mod by done. apply u16_id.
  pose proof (Z.mod_pos_bound (i + 1) cap). lia.
Qed.

Lemma alloc_slot_spec g m z :
  qwf g m ->
  exists st m' a, hyperamp_queue_alloc_slot m (g_queue g) z (g_base g) = Done (st, m', a) /\
  qwf g m' /\
  if decide (length (contents g m) < Z.to_nat (g_cap g - 1))%nat
  then st = PROCESS_OK /\ a = Some (slot g (qheader g m)) /\
       contents g m' = contents g m ++ [ring_block g m (qheader g m)]
  else st = PROCESS_ERROR /\ a = None /\ contents g m' = contents g m.
Proof.
  intros Hw. geo g Hw. pose proof (qlength_range g m Hw) as Hr. rewrite contents_length.
  destruct (lock_qwf g m z Hw) as (m1 & Hl & Hb & Hf & Hbl).
  destruct (unlock_contents g m m1) as [Hwu Hcu]; try done.
  unfold hyperamp_queue_alloc_slot. rewrite (proj2 (Z.eqb_neq (g_queue g) 0)) by lia.
  rewrite Hl. cbn. rewrite !Hf by done. rewrite (qwf_cap g m Hw), (qwf_bs g m Hw).
  rewrite (proj2 (Z.eqb_neq (g_cap g) 0)) by lia. cbn.
  rewrite u16_mod_next by (done || apply Hw).
  pose proof (full_iff g m Hw) as Hfull. unfold qheader, qtail in Hfull.
  case_decide as Hd.
  - rewrite (proj2 (Z.eqb_neq _ _)) by (intros E; apply Hfull in E; lia).
    rewrite (slot_addr_slot g m Hw) by apply Hw.
    edestruct (header_update_qwf g m m1) as (Hw' & Hh' & Ht' & Hbl'); [done|done|done| |].
    { apply next_index_range; [done|apply (qwf_header g m Hw)]. }
    do 3 eexists. split; [reflexivity|]. split; [exact Hw'|]. split_and!; [done|done|].
    apply contents_push; [done|lia|done|done|..].
    + rewrite Hbl' by apply Hw. apply Hbl, Hw.
    + intros i Hi Hne. rewrite Hbl' by done. auto.
  - rewrite (proj2 Hfull) by lia. rewrite Z.eqb_refl. do 3 eexists. eauto.
Qed.

Lemma release_slot_spec g m z :
  qwf g m ->
  exists st m', hyperamp_queue_release_slot m (g_queue g) z = Done (st, m') /\
  qwf g m' /\
  match contents g m with
  | [] => st = PROCESS_ERROR /\ contents g m' = []
  | _ :: s => st = PROCESS_OK /\ contents g m' = s
  end.
Proof.
  intros Hw. geo g Hw. destruct (lock_qwf g m z Hw) as (m1 & Hl & Hb & Hf & Hbl).
  destruct (unlock_contents g m m1) as [Hwu Hcu]; try done.
  unfold hyperamp_queue_release_slot. rewrite (proj2 (Z.eqb_neq (g_queue g) 0)) by lia.
  rewrite Hl. cbn. rewrite !Hf by done. rewrite (qwf_cap g m Hw).
  pose proof (qlength_zero g m Hw) as Hz. unfold qheader, qtail in Hz.
  destruct (Z.eqb_spec (qget F_tail m (g_queue g)) (qget F_header m (g_queue g))) as [He|He].
  - assert (contents g m = []) as Hc.
    { apply nil_length_inv. rewrite contents_length, (proj2 Hz He). reflexivity. }
    rewrite Hc in *. do 2 eexists. eauto.
  - rewrite (proj2 (Z.eqb_neq (g_cap g) 0)) by lia. cbn.
    rewrite u16_mod_next by (done || apply Hw).
    edestruct (tail_update_qwf g m m1) as (Hw' & Ht' & Hh' & Hbl'); [done|done|done| |].
    { apply next_index_range; [done|apply (qwf_tail g m Hw)]. }
    do 2 eexists. split; [reflexivity|]. split; [exact Hw'|].
    erewrite (contents_pop g m); [split; reflexivity|done|done|exact Hh'|exact Ht'|].
    intros i Hi. rewrite Hbl' by done. auto.
Qed.

(** The zero-copy pair: [hyperamp_queue_alloc_slot] hands out the address
    of the slot after the newest block and makes that slot part of the queue
    (ERROR when [capacity - 1] blocks are stored); [hyperamp_queue_release_slot]
    drops the oldest block (ERROR when empty).  Both keep the invariant. *)
Theorem alloc_release_slots g m z :
  qwf g m ->
  (exists st m' a, hyperamp_queue_alloc_slot m (g_queue g) z (g_base g) = Done (st, m', a) /\
     qwf g m' /\
     if decide (length (contents g m) < Z.to_nat (g_cap g - 1))%nat
     then st = PROCESS_OK /\ a = Some (slot g (qheader g m)) /\
          contents g m' = contents g m ++ [ring_block g m (qheader g m)]
     else st = PROCESS_ERROR /\ a = None /\ contents g m' = contents g m) /\
  (exists st m', hyperamp_queue_release_slot m (g_queue g) z = Done (st, m') /\
     qwf g m' /\
     match contents g m with
     | [] => st = PROCESS_ERROR /\ contents g m' = []
     | _ :: s => st = PROCESS_OK /\ contents g m' = s
     end).
Proof. split; [by apply alloc_slot_spec|by apply release_slot_spec]. Qed.
