(* ===== verification/HyperampRun.v ===== *)
(** * HyperampRun: whole runs of the shared ring against the message FIFO

    Any interleaving of enqueues and dequeues, executed on shared memory,
    delivers the messages a plain list of messages would: first in, first out,
    with the same statuses. *)

From S2P Require Import Prelude Bytes Mem HyperampQueue HyperampQueueLemmas HyperampQueueSpec.
From stdpp Require Import base list numbers option.
From Stdlib Require Import ZArith Lia.
#[local] Open Scope Z_scope.

Inductive qop := Enq (msg : list Z) | Deq.

(** A step of the ring: the status and, for a dequeue, the receiver's buffer. *)
Definition ring_step (g : geometry) (zone : Z) (m : mem) (op : qop)
  : outcome (status * list Z * mem) :=
  match op with
  | Enq msg =>
      r ← hyperamp_queue_enqueue m (g_queue g) zone (Some msg) (blen msg) (g_base g);
      Done (fst r, [], snd r)
  | Deq =>
      d ← hyperamp_queue_dequeue m (g_queue g) zone (Some (replicate (Z.to_nat (g_bs g)) 0))
            (g_bs g) (g_base g);
      Done (dq_status d, dq_data d, dq_mem d)
  end.

Fixpoint ring_run (g : geometry) (zone : Z) (m : mem) (ops : list qop)
  : outcome (list (status * list Z) * mem) :=
  match ops with
  | [] => Done ([], m)
  | op :: ops' =>
      r ← ring_step g zone m op;
      rs ← ring_run g zone (snd r) ops';
      Done (fst r :: fst rs, snd rs)
  end.

(** The specification: a list of messages holding at most [bound] of them. *)
Definition msg_step (bound : nat) (s : list (list Z)) (op : qop)
  : status * list Z * list (list Z) :=
  match op with
  | Enq msg => let '(st, s') := fifo.push bound msg s in (st, [], s')
  | Deq => let '(st, b, s') := fifo.pop s in (st, default [] b, s')
  end.

Fixpoint msg_run (bound : nat) (s : list (list Z)) (ops : list qop)
  : list (status * list Z) * list (list Z) :=
  match ops with
  | [] => ([], s)
  | op :: ops' =>
      let '(st, d, s1) := msg_step bound s op in
      let '(rs, s2) := msg_run bound s1 ops' in ((st, d) :: rs, s2)
  end.

(** A block holds a message in its first bytes. *)
Definition holds (msg blk : list Z) : Prop := take (length msg) blk = msg.

Definition represents (g : geometry) (m : mem) (s : list (list Z)) : Prop :=
  Forall2 holds s (contents g m).

Definition same_result (spec impl : status * list Z) : Prop :=
  fst spec = fst impl /\ holds (snd spec) (snd impl).

Definition msg_ok (g : geometry) (op : qop) : Prop :=
  match op with
  | Enq msg => 0 < blen msg <= g_bs g /\ Forall is_byte msg
  | Deq => True
  end.

Lemma holds_app msg rest : holds msg (msg ++ rest).
Proof. unfold holds. apply take_app_length. Qed.

Lemma holds_nil l : holds [] l.
Proof. done. Qed.

Lemma stored_block_holds g m msg : holds msg (stored_block g m msg (blen msg)).
Proof.
  unfold stored_block, blen. rewrite Nat2Z.id, take_ge by lia. apply holds_app.
Qed.

Lemma contents_block_length g m b : b ∈ contents g m -> length b = Z.to_nat (g_bs g).
Proof.
  unfold contents. intros Hb. apply list_elem_of_In, in_map_iff in Hb as (k & <- & _).
  apply mread_length.
Qed.

Lemma ring_step_refines g zone m s op :
  qwf g m -> represents g m s -> msg_ok g op ->
  let '(st, d, s') := msg_step (Z.to_nat (g_cap g - 1)) s op in
  exists st' d' m', ring_step g zone m op = Done (st', d', m') /\
  qwf g m' /\ represents g m' s' /\ same_result (st, d) (st', d').
Proof.
  intros Hw Hrep Hop. geo g Hw. pose proof (Forall2_length Hrep) as Hlen.
  destruct op as [msg|]; cbn [msg_step ring_step].
  - destruct Hop as [Hm Hb]. pose proof (qlength_range g m Hw) as Hr.
    unfold fifo.push. rewrite Hlen, contents_length. case_decide.
    + destruct (enqueue_room g m zone msg (blen msg)) as (m' & -> & Hw' & Hc); try done; try lia.
      cbn. do 3 eexists. split; [done|]. split_and!; try done.
      unfold represents. rewrite Hc. apply Forall2_app; [done|].
      constructor; [apply stored_block_holds|constructor].
    + destruct (enqueue_full g m zone msg (blen msg)) as (m' & -> & Hw' & Hc); try done; try lia.
      cbn. do 3 eexists. split; [done|]. split_and!; try done. unfold represents. by rewrite Hc.
  - assert (read_length (g_bs g) (g_bs g) = g_bs g) as Hrl.
    { unfold read_length. by rewrite Z.ltb_irrefl. }
    set (buf := replicate (Z.to_nat (g_bs g)) 0).
    assert (blen buf = g_bs g) as Hbl by (unfold buf, blen; rewrite length_replicate; lia).
    destruct s as [|msg s].
    + apply Forall2_nil_inv_l in Hrep.
      destruct (dequeue_empty g m zone buf (g_bs g)) as (d & -> & Hw' & Hc & Hst & _);
        [done|lia|done|]. cbn. do 3 eexists. split; [done|].
      split_and!; [done| |by split]. unfold represents. by rewrite Hc.
    + apply Forall2_cons_inv_l in Hrep as (b & bs & Hmb & Hms & Hc0).
      destruct (dequeue_nonempty g m zone buf (g_bs g) b bs)
        as (d & -> & Hw' & Hc & Hst & Hdat & _); [done|lia|lia|done|].
      cbn. do 3 eexists. split; [done|]. split_and!; [done|unfold represents; by rewrite Hc|].
      split; [done|]. cbn. rewrite Hdat, Hrl.
      rewrite (take_ge b) by (rewrite (contents_block_length g m); [lia|rewrite Hc0; left]).
      unfold holds in *. rewrite take_app_le; [done|]. rewrite <- Hmb, length_take. lia.
Qed.

(** C5. Any sequence of enqueues (messages of 1..block_size bytes) and dequeues
    started on a well-formed queue runs to completion, and its statuses and
    delivered messages are those of a FIFO of [capacity - 1] messages. *)
Theorem ring_run_refines g zone ops m s :
  qwf g m -> represents g m s -> Forall (msg_ok g) ops ->
  let '(rs, s') := msg_run (Z.to_nat (g_cap g - 1)) s ops in
  exists rs' m', ring_run g zone m ops = Done (rs', m') /\
  qwf g m' /\ represents g m' s' /\ Forall2 same_result rs rs'.
Proof.
  revert m s. induction ops as [|op ops IH]; intros m s Hw Hrep Hops; cbn [msg_run ring_run].
  - do 2 eexists. split; [done|]. split_and!; try done.
  - apply Forall_cons_1 in Hops as [Hop Hops].
    pose proof (ring_step_refines g zone m s op Hw Hrep Hop) as Hstep.
    destruct (msg_step _ s op) as [[st d] s1].
    destruct Hstep as (st' & d' & m1 & -> & Hw1 & Hrep1 & Hres). cbn.
    specialize (IH m1 s1 Hw1 Hrep1 Hops).
    destruct (msg_run _ s1 ops) as [rs s2]. destruct IH as (rs' & m2 & -> & ? & ? & ?).
    cbn. do 2 eexists. split; [done|]. split_and!; try done. by constructor.
Qed.

(** ** A concrete queue for the witnesses *)

Definition demo_mem0 : mem := fun _ => 0.
Definition demo_config : HyperampQueueConfig :=
  {| cfg_map_mode := 0; cfg_capacity := 3; cfg_block_size := 8;
     cfg_phy_addr := 4096; cfg_virt_addr := 4096 |}.
Definition demo_geo : geometry := config_geometry 4096 8192 demo_config.
Definition demo_mem : mem := hyperamp_queue_init_creator demo_mem0 4096 demo_config.

Lemma demo_qwf : qwf demo_geo demo_mem /\ contents demo_geo demo_mem = [].
Proof.
  apply init_creator_qwf; [|reflexivity|reflexivity].
  intros a. unfold is_byte, demo_mem0. lia.
Qed.

(** Two messages fit, the third is refused, and they come
    back in order. *)
Example demo_run :
  match ring_run demo_geo 0 demo_mem
          [Enq [1; 2; 3]; Enq [4; 5]; Enq [6]; Deq; Enq [7]; Deq; Deq; Deq] with
  | Done (rs, _) => map (fun '(st, d) => (status_code st, d)) rs
  | _ => []
  end =
  [(0, []); (0, []); (1, []); (0, [1; 2; 3; 0; 0; 0; 0; 0]); (0, []);
   (0, [4; 5; 0; 0; 0; 0; 0; 0]); (0, [7; 0; 0; 0; 0; 0; 0; 0]); (1, [0; 0; 0; 0; 0; 0; 0; 0])].
Proof. vm_compute. reflexivity. Qed.

Lemma enqueue_refines_push_witness :
  exists m', hyperamp_queue_enqueue demo_mem 4096 0 (Some [1; 2; 3]) 3 8192 = Done (PROCESS_OK, m')
  /\ contents demo_geo m' = [[1; 2; 3; 0; 0; 0; 0; 0]].
Proof.
  pose proof (enqueue_refines_push demo_geo demo_mem 0 [1; 2; 3] 3 (proj1 demo_qwf)
    ltac:(cbn; lia) ltac:(vm_compute; discriminate) (bytesb_ok [1; 2; 3] eq_refl)) as H.
  rewrite (proj2 demo_qwf) in H. cbn [fifo.push app] in H.
  destruct H as (m' & He & _ & Hc). exists m'. split; [exact He|].
  rewrite Hc. vm_compute. reflexivity.
Defined.

Lemma dequeue_refines_pop_witness :
  exists d, hyperamp_queue_dequeue demo_mem 4096 0 (Some [9; 9]) 2 8192 = Done d
  /\ dq_status d = PROCESS_AGAIN /\ dq_data d = [9; 9].
Proof.
  destruct (dequeue_refines_pop demo_geo demo_mem 0 [9; 9] 2 (proj1 demo_qwf)
    ltac:(lia) ltac:(vm_compute; discriminate)) as (d & He & _ & Hd).
  rewrite (proj2 demo_qwf) in Hd. cbn in Hd. exists d. split; [exact He|]. tauto.
Defined.

Lemma init_establishes_queue_witness :
  exists m', hyperamp_queue_init demo_mem0 4096 (Some demo_config) true = (PROCESS_OK, m')
  /\ hyperamp_queue_is_initialized m' 4096 = true.
Proof.
  destruct (init_establishes_queue demo_mem0 4096 8192 demo_config) as (m' & He & _ & _ & Hi & _);
    [intros a; unfold is_byte, demo_mem0; lia|reflexivity|reflexivity|eauto].
Defined.

Lemma peek_reads_front_witness :
  exists d, hyperamp_queue_peek demo_mem 4096 0 (Some [9; 9]) 2 8192 = Done d
  /\ dq_status d = PROCESS_ERROR.
Proof.
  destruct (peek_reads_front demo_geo demo_mem 0 [9; 9] 2 (proj1 demo_qwf)
    ltac:(lia) ltac:(vm_compute; discriminate)) as (d & He & _ & _ & Hd).
  rewrite (proj2 demo_qwf) in Hd. exists d. split; [exact He|]. tauto.
Defined.

Lemma alloc_release_slots_witness :
  exists m', hyperamp_queue_alloc_slot demo_mem 4096 0 8192 = Done (PROCESS_OK, m', Some 8200).
Proof.
  destruct (alloc_release_slots demo_geo demo_mem 0 (proj1 demo_qwf)) as [(st & m' & a & He & _ & H) _].
  rewrite (proj2 demo_qwf) in H. cbn [length] in H.
  rewrite decide_True in H by (vm_compute; lia). destruct H as (-> & -> & _).
  exists m'. exact He.
Defined.

Lemma enqueue_rejects_witness :
  hyperamp_queue_enqueue demo_mem 4096 0 (Some (replicate 9 1)) 9 8192 = Done (PROCESS_ERROR, demo_mem).
Proof. apply enqueue_rejects. do 3 right. vm_compute. reflexivity. Defined.

Lemma ring_run_refines_witness :
  exists rs m', ring_run demo_geo 0 demo_mem [Enq [1; 2]; Deq] = Done (rs, m') /\
  Forall2 same_result [(PROCESS_OK, []); (PROCESS_OK, [1; 2])] rs.
Proof.
  assert (represents demo_geo demo_mem []) as Hrep.
  { unfold represents. rewrite (proj2 demo_qwf). apply Forall2_nil_2. }
  assert (Forall (msg_ok demo_geo) [Enq [1; 2]; Deq]) as Hops.
  { constructor; [split; [split; [reflexivity|vm_compute; discriminate]|by apply bytesb_ok]|]. constructor; [exact I|constructor]. }
  destruct (ring_run_refines demo_geo 0 [Enq [1; 2]; Deq] demo_mem [] (proj1 demo_qwf) Hrep Hops)
    as (rs & m' & He & _ & _ & Hr).
  exists rs, m'. split; [exact He|exact Hr].
Defined.
