(* ===== verification/RingZones.v ===== *)
(** * RingZones: the ring queue used by several zones at once

    The same functions of src/hyperamp_shm_queue.c as in [HyperampQueue], this
    time as programs over the shared memory: one step per access, so that the
    accesses of different zones interleave.  The lock is taken as the aarch64
    code takes it, with LDAXR and STLXR and a retry; everything else, the owner
    and the counters of the lock included, is plain loads and stores.  A copy
    between a private buffer and the ring goes byte by byte.  Accesses are
    sequentially consistent. *)

From S2P Require Import Prelude Bytes Mem HyperampQueue HyperampQueueSpec HyperampRun.
From stdpp Require Import base list numbers option functions.
From Stdlib Require Import ZArith Lia.
#[local] Open Scope Z_scope.

(** ** Programs *)

(** [Acquire a p] is the loop around LDAXR and STLXR on the word at [a];
    [Release a p] is the STLR of zero. *)
Inductive prog (A : Type) : Type :=
  | Ret (r : A)
  | Crash (f : fault)
  | Ld (n : nat) (a : Z) (k : Z -> prog A)
  | St (a : Z) (l : list Z) (p : prog A)
  | Acquire (a : Z) (p : prog A)
  | Release (a : Z) (p : prog A).
Arguments Ret {A} r.
Arguments Crash {A} f.
Arguments Ld {A} n a k.
Arguments St {A} a l p.
Arguments Acquire {A} a p.
Arguments Release {A} a p.

#[export] Instance prog_ret : MRet prog := fun A => Ret.
#[export] Instance prog_bind : MBind prog := fun A B f =>
  fix bind p :=
    match p with
    | Ret r => f r
    | Crash x => Crash x
    | Ld n a k => Ld n a (fun v => bind (k v))
    | St a l p => St a l (bind p)
    | Acquire a p => Acquire a (bind p)
    | Release a p => Release a (bind p)
    end.

(** A field of the control block. *)
Definition ld (f : qfield) (q : Z) : prog Z := Ld (Z.to_nat (field_size f)) (q + offsetof f) Ret.
Definition st (f : qfield) (q v : Z) : prog unit := St (q + offsetof f) (le_bytes (Z.to_nat (field_size f)) v) (Ret ()).

(** ** The functions of the queue *)

Definition spinlock_lock (q zone_id : Z) : prog unit :=
  if q =? 0 then Ret () else
  _ ← Acquire (q + offsetof F_lock_value) (Ret ());
  _ ← st F_owner_zone_id q zone_id;
  c ← ld F_lock_count q;
  st F_lock_count q (u32 (c + 1)).

Definition spinlock_unlock (q : Z) : prog unit :=
  if q =? 0 then Ret () else
  _ ← st F_owner_zone_id q 0;
  Release (q + offsetof F_lock_value) (Ret ()).

(** hyperamp_safe_memcpy into the ring and out of it, from byte [i] on. *)
Fixpoint copy_in (n : nat) (dst : Z) (src : list Z) (i : nat) : prog unit :=
  match n with
  | O => Ret ()
  | S n =>
      match src !! i with
      | None => Crash OutOfBounds
      | Some b => St (dst + Z.of_nat i) [b] (copy_in n dst src (S i))
      end
  end.

Fixpoint copy_out (n : nat) (dst : list Z) (src : Z) (i : nat) : prog (list Z) :=
  match n with
  | O => Ret dst
  | S n =>
      Ld 1 (src + Z.of_nat i) (fun v =>
        match dst !! i with
        | None => Crash OutOfBounds
        | Some _ => copy_out n (<[i := v]> dst) src (S i)
        end)
  end.

(** [uint16_t n = queue->f + 1; if (n >= queue->capacity) n -= queue->capacity;] *)
Definition next_slot (f : qfield) (q : Z) : prog Z :=
  i ← ld f q;
  let n := u16 (i + 1) in
  c ← ld F_capacity q;
  if c <=? n then c ← ld F_capacity q; Ret (u16 (n - c)) else Ret n.

(** The trace of both functions prints the indices. *)
Definition trace_indices (q : Z) : prog unit :=
  _ ← ld F_tail q; _ ← ld F_header q; Ret ().

Definition queue_enqueue (q zone_id : Z) (data : option (list Z)) (data_len virt_base : Z) : prog status :=
  match data with
  | None => Ret PROCESS_ERROR
  | Some buf =>
      if (q =? 0) || (data_len =? 0) then Ret PROCESS_ERROR else
      bs ← ld F_block_size q;
      if bs <? data_len then Ret PROCESS_ERROR else
      _ ← spinlock_lock q zone_id;
      _ ← trace_indices q;
      new_header ← next_slot F_header q;
      t ← ld F_tail q;
      if new_header =? t then _ ← spinlock_unlock q; Ret PROCESS_AGAIN
      else
        h ← ld F_header q;
        bs ← ld F_block_size q;
        _ ← copy_in (Z.to_nat data_len) (slot_addr virt_base bs h) buf 0;
        _ ← st F_header q new_header;
        c ← ld F_enqueue_count q;
        _ ← st F_enqueue_count q (u32 (c + 1));
        _ ← spinlock_unlock q;
        Ret PROCESS_OK
  end.

(** The status, the caller's buffer, and [*actual_len] when it is written.  The
    third load of the block size is an argument of the cache operation. *)
Definition queue_dequeue (q zone_id : Z) (data : option (list Z)) (max_len virt_base : Z)
  : prog (status * list Z * option Z) :=
  match data with
  | None => Ret (PROCESS_ERROR, [], None)
  | Some buf =>
      if (q =? 0) || (max_len =? 0) then Ret (PROCESS_ERROR, buf, None) else
      _ ← spinlock_lock q zone_id;
      _ ← trace_indices q;
      t ← ld F_tail q;
      h ← ld F_header q;
      if t =? h then _ ← spinlock_unlock q; Ret (PROCESS_AGAIN, buf, None)
      else
        t ← ld F_tail q;
        bs ← ld F_block_size q;
        let read_addr := slot_addr virt_base bs t in
        _ ← ld F_block_size q;
        bs ← ld F_block_size q;
        read_len ← (if max_len <? bs then Ret max_len else ld F_block_size q);
        buf ← copy_out (Z.to_nat read_len) buf read_addr 0;
        new_tail ← next_slot F_tail q;
        _ ← st F_tail q new_tail;
        c ← ld F_dequeue_count q;
        _ ← st F_dequeue_count q (u32 (c + 1));
        _ ← spinlock_unlock q;
        Ret (PROCESS_OK, buf, Some read_len)
  end.

(** ** One zone alone *)

(** With nobody else running, a taken lock is never released. *)
Fixpoint solo {A} (p : prog A) (m : mem) : outcome (A * mem) :=
  match p with
  | Ret r => Done (r, m)
  | Crash f => Fault f
  | Ld n a k => solo (k (mload n m a)) m
  | St a l p => solo p (mwrite m a l)
  | Acquire a p => if mload 4 m a =? 0 then solo p (mstore 4 m a 1) else Spin
  | Release a p => solo p (mstore 4 m a 0)
  end.

(** ** Several zones *)

(** What the zones do on one queue: the calls of [HyperampRun], a dequeue into
    a zeroed buffer of one block. *)
Definition op_prog (g : geometry) (zone_id : Z) (op : qop) : prog (status * list Z) :=
  match op with
  | Enq msg => s ← queue_enqueue (g_queue g) zone_id (Some msg) (blen msg) (g_base g); Ret (s, [])
  | Deq =>
      r ← queue_dequeue (g_queue g) zone_id (Some (replicate (Z.to_nat (g_bs g)) 0)) (g_bs g) (g_base g);
      Ret (fst (fst r), snd (fst r))
  end.

(** A zone between two instructions.  [Test1 v a p] has [v] from LDAXR,
    [Test2 v a p] has the result of STLXR in the register. *)
Inductive zone_pc :=
  | Idle
  | At (p : prog (status * list Z))
  | Test1 (v : Z) (a : Z) (p : prog (status * list Z))
  | Stlxr (a : Z) (p : prog (status * list Z))
  | Test2 (v : Z) (a : Z) (p : prog (status * list Z)).

(** The exclusive monitor of a zone watches the word it was armed for. *)
Record zones := { z_mem : mem; z_mon : nat -> option Z; z_pc : nat -> zone_pc }.

Definition overlaps (a n b k : Z) : bool := (a <? b + k) && (b <? a + n).

(** A store disarms every monitor that watches one of its bytes. *)
Definition store (s : zones) (a : Z) (l : list Z) : zones :=
  {| z_mem := mwrite (z_mem s) a l;
     z_mon := fun z => match z_mon s z with Some x => if overlaps a (blen l) x 4 then None else Some x | None => None end;
     z_pc := z_pc s |}.
Definition goto (s : zones) (z : nat) (p : zone_pc) : zones :=
  {| z_mem := z_mem s; z_mon := z_mon s; z_pc := <[z := p]> (z_pc s) |}.
Definition arm (s : zones) (z : nat) (a : option Z) : zones :=
  {| z_mem := z_mem s; z_mon := <[z := a]> (z_mon s); z_pc := z_pc s |}.

Inductive event := Called (z : nat) (op : qop) | Returned (z : nat) (r : status * list Z).

(** Enter a function, or run the next instruction; [fails] is the spurious
    failure of a store-exclusive. *)
Inductive move := Enter (op : qop) | Next (fails : bool).

Definition zone_step (g : geometry) (zid : nat -> Z) (z : nat) (mv : move) (s : zones) : option (option event * zones) :=
  match mv, z_pc s z with
  | Enter op, Idle => Some (Some (Called z op), goto s z (At (op_prog g (zid z) op)))
  | Next _, At (Ret r) => Some (Some (Returned z r), goto s z Idle)
  | Next _, At (Ld n a k) => Some (None, goto s z (At (k (mload n (z_mem s) a))))
  | Next _, At (St a l p) => Some (None, goto (store s a l) z (At p))
  | Next _, At (Acquire a p) => Some (None, goto (arm s z (Some a)) z (Test1 (mload 4 (z_mem s) a) a p))
  | Next _, At (Release a p) => Some (None, goto (store s a (le_bytes 4 0)) z (At p))
  | Next _, Test1 v a p => Some (None, goto s z (if v =? 0 then Stlxr a p else At (Acquire a p)))
  | Next fails, Stlxr a p =>
      if bool_decide (z_mon s z = Some a) && negb fails
      then Some (None, goto (store s a (le_bytes 4 1)) z (Test2 0 a p))
      else Some (None, goto (arm s z None) z (Test2 1 a p))
  | Next _, Test2 v a p => Some (None, goto s z (if v =? 0 then At p else At (Acquire a p)))
  | _, _ => None
  end.

(** A message is a list of bytes. *)
Definition op_bytes (op : qop) : Prop := match op with Enq msg => Forall is_byte msg | Deq => True end.
Definition move_bytes (mv : move) : Prop := match mv with Enter op => op_bytes op | Next _ => True end.

(** The calls and returns seen from outside. *)
Inductive zones_trace (g : geometry) (zid : nat -> Z) (s : zones) : list event -> zones -> Prop :=
  | zt_start : zones_trace g zid s [] s
  | zt_step tr s1 z mv e s2 :
      zones_trace g zid s tr s1 -> move_bytes mv -> zone_step g zid z mv s1 = Some (e, s2) ->
      zones_trace g zid s (tr ++ option_list e) s2.

Definition zones_start (m : mem) : zones := {| z_mem := m; z_mon := fun _ => None; z_pc := fun _ => Idle |}.

(** Runs a schedule; the events in order. *)
Fixpoint zones_run (g : geometry) (zid : nat -> Z) (sched : list (nat * move)) (s : zones) : option (list event * zones) :=
  match sched with
  | [] => Some ([], s)
  | (z, mv) :: sched =>
      r ← zone_step g zid z mv s;
      rs ← zones_run g zid sched (snd r);
      Some (option_list (fst r) ++ fst rs, snd rs)
  end.

(** ** The atomic queue

    Each call takes effect at one instant between its start and its return. *)

Definition queue_step (g : geometry) (s : list (list Z)) (op : qop) : status * list Z * list (list Z) :=
  match op with
  | Enq msg => if (blen msg =? 0) || (g_bs g <? blen msg) then (PROCESS_ERROR, [], s) else msg_step (Z.to_nat (g_cap g - 1)) s op
  | Deq => msg_step (Z.to_nat (g_cap g - 1)) s op
  end.

Inductive caller := Resting | Pending (op : qop) | Decided (r : status * list Z).

Record atomic_queue := { aq_msgs : list (list Z); aq_caller : nat -> caller }.

Definition set_caller (a : atomic_queue) (z : nat) (c : caller) : atomic_queue :=
  {| aq_msgs := aq_msgs a; aq_caller := <[z := c]> (aq_caller a) |}.

(** A dequeue returns the block whose first bytes are the message. *)
Inductive atomic_step (g : geometry) : atomic_queue -> option event -> atomic_queue -> Prop :=
  | as_call a z op : aq_caller a z = Resting -> atomic_step g a (Some (Called z op)) (set_caller a z (Pending op))
  | as_take a z op st d s :
      aq_caller a z = Pending op -> queue_step g (aq_msgs a) op = (st, d, s) ->
      atomic_step g a None {| aq_msgs := s; aq_caller := <[z := Decided (st, d)]> (aq_caller a) |}
  | as_return a z r r' :
      aq_caller a z = Decided r -> same_result r r' -> atomic_step g a (Some (Returned z r')) (set_caller a z Resting).

Inductive atomic_trace (g : geometry) (a : atomic_queue) : list event -> atomic_queue -> Prop :=
  | at_start : atomic_trace g a [] a
  | at_step tr a1 e a2 : atomic_trace g a tr a1 -> atomic_step g a1 e a2 -> atomic_trace g a (tr ++ option_list e) a2.

Definition atomic_start (s : list (list Z)) : atomic_queue := {| aq_msgs := s; aq_caller := fun _ => Resting |}.
