(* ===== verification/RingZonesSpec.v ===== *)
(** * RingZonesSpec: the ring shared by zones is an atomic queue

    Run alone, the programs of [RingZones] are the functions of
    [HyperampQueue].  Run together, in every interleaving of their accesses,
    they give the answers of a queue whose calls take effect at one instant
    each, and every call can finish. *)

From S2P Require Import Prelude Bytes Mem HyperampQueue HyperampQueueLemmas HyperampQueueSpec HyperampRun RingZones.
From stdpp Require Import base list numbers option functions.
From Stdlib Require Import ZArith Lia.
#[local] Open Scope Z_scope.

(** ** One zone alone *)

Lemma solo_bind {A B} (p : prog A) (f : A -> prog B) m :
  solo (p ≫= f) m = (r ← solo p m; solo (f (fst r)) (snd r)).
Proof.
  revert m. induction p as [r|x|n a k IH|a l p IH|a p IH|a p IH]; intros m.
  - done.
  - done.
  - exact (IH _ m).
  - exact (IH _).
  - change (solo (Acquire a p ≫= f) m) with (if mload 4 m a =? 0 then solo (p ≫= f) (mstore 4 m a 1) else Spin).
    cbn [solo]. case_match; [exact (IH _)|done].
  - exact (IH _).
Qed.

Lemma solo_ld f q m : solo (ld f q) m = Done (qget f m q, m).
Proof. done. Qed.

Lemma solo_st f q v m : solo (st f q v) m = Done ((), qset f m q v).
Proof. done. Qed.

Lemma solo_lock q zone m : solo (spinlock_lock q zone) m = (m' ← hyperamp_spinlock_lock m q zone; Done ((), m')).
Proof.
  unfold spinlock_lock, hyperamp_spinlock_lock. destruct (q =? 0); [done|].
  rewrite solo_bind. cbn [solo]. change (mload 4 m (q + offsetof F_lock_value)) with (qget F_lock_value m q).
  by destruct (qget F_lock_value m q =? 0).
Qed.

Lemma solo_unlock q m : solo (spinlock_unlock q) m = Done ((), hyperamp_spinlock_unlock m q).
Proof. unfold spinlock_unlock, hyperamp_spinlock_unlock. by destruct (q =? 0). Qed.

Lemma solo_next_slot f q m : solo (next_slot f q) m = Done (next_index (qget f m q) (qget F_capacity m q), m).
Proof.
  unfold next_slot, next_index. rewrite solo_bind, solo_ld. cbn [mbind outcome_bind fst snd].
  rewrite solo_bind, solo_ld. cbn [mbind outcome_bind fst snd]. by case_match.
Qed.

Lemma solo_trace q m : solo (trace_indices q) m = Done ((), m).
Proof. done. Qed.

Lemma solo_copy_in n : forall dst src i m, (i <= length src)%nat ->
  solo (copy_in n dst src i) m =
  if bool_decide (i + n <= length src)%nat then Done ((), mwrite m (dst + Z.of_nat i) (take n (drop i src))) else Fault OutOfBounds.
Proof.
  induction n as [|n IH]; intros dst src i m Hi; cbn [copy_in].
  - by rewrite bool_decide_true by lia.
  - destruct (src !! i) as [b|] eqn:E.
    + pose proof (lookup_lt_Some _ _ _ E). cbn [solo]. rewrite IH by lia.
      destruct (decide (i + S n <= length src)%nat).
      * rewrite !bool_decide_true by lia. rewrite (drop_S _ _ _ E). cbn [take mwrite].
        do 3 f_equal. lia.
      * by rewrite !bool_decide_false by lia.
    + apply lookup_ge_None in E. by rewrite bool_decide_false by lia.
Qed.

Lemma solo_copy_out n : forall dst src i m, (i <= length dst)%nat ->
  solo (copy_out n dst src i) m =
  if bool_decide (i + n <= length dst)%nat
  then Done (take i dst ++ mread m (src + Z.of_nat i) n ++ drop (i + n) dst, m) else Fault OutOfBounds.
Proof.
  induction n as [|n IH]; intros dst src i m Hi; cbn [copy_out].
  - rewrite bool_decide_true by lia. cbn. by rewrite Nat.add_0_r, take_drop.
  - cbn [solo]. destruct (dst !! i) as [b|] eqn:E.
    + pose proof (lookup_lt_Some _ _ _ E). rewrite IH by (rewrite length_insert; lia). rewrite length_insert.
      destruct (decide (i + S n <= length dst)%nat).
      * rewrite !bool_decide_true by lia. do 2 f_equal. cbn [mread].
        rewrite (take_S_r _ _ (mload 1 m (src + Z.of_nat i))) by (apply list_lookup_insert_eq; lia).
        rewrite take_insert_ge, drop_insert_lt by lia. rewrite <- app_assoc. cbn [app].
        unfold mload. cbn [mread le_val]. rewrite Z.add_0_r.
        replace (src + Z.of_nat (S i)) with (src + Z.of_nat i + 1) by lia. by replace (S i + n)%nat with (i + S n)%nat by lia.
      * by rewrite !bool_decide_false by lia.
    + apply lookup_ge_None in E. by rewrite bool_decide_false by lia.
Qed.

Lemma range_here buf len : 0 <= len -> in_range buf 0 len = bool_decide (len <= blen buf).
Proof. intros. unfold in_range. case_bool_decide; lia. Qed.

Lemma copy_in_memcpy dst src len m : 0 <= len ->
  solo (copy_in (Z.to_nat len) dst src 0) m = (m' ← hyperamp_safe_memcpy_in m dst src len; Done ((), m')).
Proof.
  intros Hl. rewrite solo_copy_in by lia. unfold hyperamp_safe_memcpy_in, bread.
  destruct (decide (0 + Z.to_nat len <= length src)%nat) as [Hle|Hle].
  - rewrite bool_decide_true by done. rewrite range_here, bool_decide_true by (unfold blen; lia). cbn. by rewrite Z.add_0_r.
  - rewrite bool_decide_false by done. by rewrite range_here, bool_decide_false by (unfold blen; lia).
Qed.

Lemma copy_out_memcpy dst src len m :
  solo (copy_out (Z.to_nat len) dst src 0) m = (d ← hyperamp_safe_memcpy_out m dst src len; Done (d, m)).
Proof.
  rewrite solo_copy_out by lia. unfold hyperamp_safe_memcpy_out, bwrite.
  assert (blen (mread m src (Z.to_nat len)) = Z.of_nat (Z.to_nat len)) as -> by (unfold blen; by rewrite mread_length).
  rewrite mread_length.
  destruct (decide (0 + Z.to_nat len <= length dst)%nat).
  - rewrite bool_decide_true by done. rewrite range_here, bool_decide_true by (unfold blen; lia). cbn. by rewrite Z.add_0_r.
  - rewrite bool_decide_false by done. by rewrite range_here, bool_decide_false by (unfold blen; lia).
Qed.

(** Runs a program next to the function it is compared with. *)
Ltac solo_step :=
  first [rewrite solo_bind | rewrite solo_ld | rewrite solo_st | rewrite solo_lock | rewrite solo_unlock | rewrite solo_next_slot | rewrite solo_trace];
  cbn [mbind outcome_bind fst snd].

Lemma enqueue_solo m q zone data len base : 0 <= len ->
  solo (queue_enqueue q zone data len base) m = hyperamp_queue_enqueue m q zone data len base.
Proof.
  intros Hl. unfold queue_enqueue, hyperamp_queue_enqueue. destruct data as [buf|]; [|done].
  destruct ((q =? 0) || (len =? 0)); [done|]. do 2 solo_step. case_match; [done|].
  repeat solo_step. destruct (hyperamp_spinlock_lock m q zone) as [m1| |f]; [|done|done]. cbn [mbind outcome_bind fst snd].
  repeat solo_step. case_match; [by repeat solo_step|].
  repeat solo_step. rewrite copy_in_memcpy by done.
  destruct (hyperamp_safe_memcpy_in _ _ _ _) as [m2| |f]; [|done|done]. cbn [mbind outcome_bind fst snd]. by repeat solo_step.
Qed.

Lemma dequeue_solo m q zone data len base :
  solo (queue_dequeue q zone data len base) m =
    (d ← hyperamp_queue_dequeue m q zone data len base; Done (dq_status d, dq_data d, dq_len d, dq_mem d)).
Proof.
  unfold queue_dequeue, hyperamp_queue_dequeue. destruct data as [buf|]; [|done].
  destruct ((q =? 0) || (len =? 0)); [done|].
  repeat solo_step. destruct (hyperamp_spinlock_lock m q zone) as [m1| |f]; [|done|done]. cbn [mbind outcome_bind fst snd].
  repeat solo_step. case_match; [by repeat solo_step|].
  repeat solo_step. set (rl := if len <? _ then len else _).
  replace (solo (if len <? _ then _ else _) m1) with (Done (rl, m1)) by (unfold rl; by case_match).
  cbn [mbind outcome_bind fst snd]. solo_step. rewrite copy_out_memcpy.
  destruct (hyperamp_safe_memcpy_out _ _ _ _) as [d| |f]; [|done|done]. cbn [mbind outcome_bind fst snd]. by repeat solo_step.
Qed.

Lemma op_prog_solo g zone op m : solo (op_prog g zone op) m = ring_step g zone m op.
Proof.
  destruct op as [msg|]; unfold op_prog, ring_step; rewrite solo_bind.
  - rewrite enqueue_solo by apply blen_nonneg. by destruct (hyperamp_queue_enqueue _ _ _ _ _ _) as [ [s m']| |f].
  - rewrite dequeue_solo. by destruct (hyperamp_queue_dequeue _ _ _ _ _ _) as [d| |f].
Qed.

(** ** The critical section

    From the store-exclusive to the release, a program stores without touching
    the lock word and the block size, and ends by releasing the lock. *)

Section Section_of.
Context (g : geometry).

Definition lock_word : Z := g_queue g + offsetof F_lock_value.

Definition kept (m : mem) : Prop :=
  qget F_lock_value m (g_queue g) = 1 /\ qget F_block_size m (g_queue g) = g_bs g.

Fixpoint quiet {A} (p : prog A) (m : mem) : Prop :=
  match p with
  | Ret _ => True
  | Ld n a k => quiet (k (mload n m a)) m
  | St a l p => kept (mwrite m a l) /\ quiet p (mwrite m a l)
  | _ => False
  end.

Fixpoint section {A} (p : prog A) (m : mem) : Prop :=
  match p with
  | Ld n a k => section (k (mload n m a)) m
  | St a l p => kept (mwrite m a l) /\ section p (mwrite m a l)
  | Release a p => a = lock_word /\ exists r, p = Ret r
  | _ => False
  end.

Lemma quiet_bind {A B} (p : prog A) (f : A -> prog B) m :
  kept m -> quiet p m -> (forall a m', solo p m = Done (a, m') -> kept m' -> section (f a) m') -> section (p ≫= f) m.
Proof.
  revert m. induction p as [r|x|n a k IH|a l p IH|a p IH|a p IH]; intros m Hk Hq Hf; try done.
  - by apply Hf.
  - by apply (IH _ m).
  - destruct Hq as [Hk' Hq]. split; [done|]. by apply IH.
Qed.

Lemma bind_ret_inv {A B} (p : prog A) (f : A -> prog B) r : p ≫= f = Ret r -> exists a, p = Ret a /\ f a = Ret r.
Proof. destruct p; try done. eauto. Qed.

Lemma section_assoc {A B C} (p : prog A) (f : A -> prog B) (h : B -> prog C) m :
  section ((p ≫= f) ≫= h) m <-> section (p ≫= fun a => f a ≫= h) m.
Proof.
  revert m. induction p as [r|x|n a k IH|a l p IH|a p IH|a p IH]; intros m; try done.
  - exact (IH _ m).
  - apply and_iff_compat_l. exact (IH _).
  - apply and_iff_compat_l. split; intros [r Hr].
    + apply bind_ret_inv in Hr as (b & Hb & Hh). apply bind_ret_inv in Hb as (x & -> & Hf). exists r. cbn. by rewrite Hf.
    + apply bind_ret_inv in Hr as (x & -> & Hf). apply bind_ret_inv in Hf as (b & Hb & Hh). exists r. cbn. by rewrite Hb.
Qed.

Lemma section_ld {A} f q (k : Z -> prog A) m : section (ld f q ≫= k) m <-> section (k (qget f m q)) m.
Proof. done. Qed.

Lemma section_st {A} f v (k : unit -> prog A) m :
  kept m -> negb (bool_decide (f = F_lock_value)) && negb (bool_decide (f = F_block_size)) = true ->
  (kept (qset f m (g_queue g) v) -> section (k ()) (qset f m (g_queue g) v)) ->
  section (st f (g_queue g) v ≫= k) m.
Proof.
  intros [Hl Hb] [Hfl%negb_true_iff%bool_decide_eq_false Hfb%negb_true_iff%bool_decide_eq_false]%andb_true_iff Hk.
  assert (kept (qset f m (g_queue g) v)) as H by (split; rewrite qget_qset_ne by done; done).
  split; [exact H|auto].
Qed.

Lemma section_trace {A} q (k : unit -> prog A) m : section (trace_indices q ≫= k) m <-> section (k ()) m.
Proof. done. Qed.

Lemma section_next {A} f q (k : Z -> prog A) m :
  section (next_slot f q ≫= k) m <-> section (k (next_index (qget f m q) (qget F_capacity m q))) m.
Proof.
  unfold next_slot, next_index. rewrite section_assoc, section_ld, section_assoc, section_ld. by case_match.
Qed.

Lemma section_unlock {A} (r : A) (k : unit -> prog A) m :
  g_queue g <> 0 -> k () = Ret r -> kept m -> section (spinlock_unlock (g_queue g) ≫= k) m.
Proof.
  intros Hq Hk Hm. unfold spinlock_unlock. rewrite (proj2 (Z.eqb_neq _ _) Hq). rewrite section_assoc.
  apply section_st; [done|done|]. intros _. split; [done|]. exists r. exact Hk.
Qed.

(** The copies: into a block outside the control block, and out of one. *)
Lemma quiet_copy_in n : forall dst src i m, (i + n <= length src)%nat ->
  dst + blen src <= g_queue g \/ g_queue g + sizeof_HyperampShmQueue <= dst -> kept m -> quiet (copy_in n dst src i) m.
Proof.
  induction n as [|n IH]; intros dst src i m Hn Hd Hk; [done|]. cbn [copy_in].
  destruct (lookup_lt_is_Some_2 src i) as [b ->]; [lia|]. unfold blen in Hd.
  assert (kept (mwrite m (dst + Z.of_nat i) [b])) as Hk'.
  { destruct Hk. split; rewrite qget_mwrite by (unfold blen; cbn [length]; lia); done. }
  split; [done|]. apply IH; [lia|done|done].
Qed.

Lemma quiet_copy_out n : forall dst src i m, (i + n <= length dst)%nat -> quiet (copy_out n dst src i) m.
Proof.
  induction n as [|n IH]; intros dst src i m Hn; [done|]. cbn [copy_out quiet].
  destruct (lookup_lt_is_Some_2 dst i) as [b ->]; [lia|]. apply IH. rewrite length_insert. lia.
Qed.

(** From the start of a call to its store-exclusive: the block size may be
    read; then comes a critical section. *)
Fixpoint entering {A} (p : prog A) : Prop :=
  match p with
  | Ld n a k => n = 2%nat /\ a = g_queue g + offsetof F_block_size /\ entering (k (g_bs g))
  | Acquire a p => a = lock_word /\ forall m, qwf g m -> section p (mstore 4 m a 1)
  | _ => False
  end.

Lemma entering_assoc {A B C} (p : prog A) (f : A -> prog B) (h : B -> prog C) :
  entering ((p ≫= f) ≫= h) <-> entering (p ≫= fun a => f a ≫= h).
Proof.
  induction p as [r|x|n a k IH|a l p IH|a p IH|a p IH]; try done.
  - apply and_iff_compat_l, and_iff_compat_l. exact (IH _).
  - apply and_iff_compat_l. split; intros H m Hm; by apply section_assoc, H.
Qed.

Lemma entering_ld {A} (k : Z -> prog A) : entering (k (g_bs g)) -> entering (ld F_block_size (g_queue g) ≫= k).
Proof. intros H. split; [done|]. by split. Qed.

Lemma entering_lock {A} zone (k : unit -> prog A) :
  g_queue g <> 0 ->
  (forall m, qwf g m -> let m1 := qset F_owner_zone_id (qset F_lock_value m (g_queue g) 1) (g_queue g) zone in
     let m2 := qset F_lock_count m1 (g_queue g) (u32 (qget F_lock_count m1 (g_queue g) + 1)) in
     kept m2 -> section (k ()) m2) ->
  entering (spinlock_lock (g_queue g) zone ≫= k).
Proof.
  intros Hq Hk. unfold spinlock_lock. rewrite (proj2 (Z.eqb_neq _ _) Hq). rewrite !entering_assoc.
  split; [done|]. intros m Hm. change (mstore 4 m (g_queue g + offsetof F_lock_value) 1) with (qset F_lock_value m (g_queue g) 1).
  cbn [prog_bind]. rewrite ?section_assoc. apply section_st; [split; qfields; [done|apply Hm]|done|]. intros H1.
  rewrite ?section_assoc, section_ld. apply section_st; [done|done|]. by apply Hk.
Qed.

Ltac section_step :=
  first [ rewrite section_assoc | rewrite section_ld | rewrite section_trace | rewrite section_next
        | apply section_st; [done|done|intros ?] ].

Lemma dequeue_entering zone : geometry_ok g = true -> entering (op_prog g zone Deq).
Proof.
  intros Hg. apply geometry_ok_spec in Hg as (Hq & Hc & Hb & _).
  unfold op_prog, queue_dequeue. rewrite (proj2 (Z.eqb_neq (g_queue g) 0)), (proj2 (Z.eqb_neq (g_bs g) 0)) by lia.
  cbn [orb]. rewrite entering_assoc. apply entering_lock; [lia|]. intros m Hm m1 m2 Hk. subst m1.
  repeat section_step. case_match.
  { rewrite section_assoc. eapply section_unlock; [lia|done|done]. }
  repeat section_step. assert (qget F_block_size m2 (g_queue g) = g_bs g) as Hbs by apply Hk. rewrite !Hbs, Z.ltb_irrefl.
  repeat section_step. rewrite Hbs. apply quiet_bind; [done| |].
  { apply quiet_copy_out. rewrite length_replicate. lia. }
  intros d m' _ Hk'. repeat section_step. eapply section_unlock; [lia|done|done].
Qed.

Lemma enqueue_entering zone msg : geometry_ok g = true -> 0 < blen msg <= g_bs g -> entering (op_prog g zone (Enq msg)).
Proof.
  intros Hg Hl. pose proof Hg as Hg'. apply geometry_ok_spec in Hg' as (Hq & Hc & Hb & _).
  unfold op_prog, queue_enqueue. rewrite (proj2 (Z.eqb_neq (g_queue g) 0)), (proj2 (Z.eqb_neq (blen msg) 0)) by lia.
  cbn [orb]. rewrite entering_assoc. apply entering_ld.
  rewrite (proj2 (Z.ltb_ge (g_bs g) (blen msg))) by lia. rewrite entering_assoc.
  apply entering_lock; [lia|]. intros m Hm m1 m2 Hk. subst m1.
  repeat section_step. case_match.
  { rewrite section_assoc. eapply section_unlock; [lia|done|done]. }
  repeat section_step. assert (qget F_block_size m2 (g_queue g) = g_bs g) as Hbs by apply Hk. rewrite !Hbs.
  assert (qget F_header m2 (g_queue g) = qget F_header m (g_queue g)) as -> by (unfold m2; by qfields).
  rewrite (slot_addr_slot g m Hm) by apply Hm.
  pose proof (slot_outside_control g _ Hg (qwf_header g m Hm)) as Hs.
  apply quiet_bind; [done| |].
  { apply quiet_copy_in; [unfold blen; lia|lia|done]. }
  intros d m' _ Hk'. repeat section_step. eapply section_unlock; [lia|done|done].
Qed.
End Section_of.

(** ** A call on its way to the lock *)

(** Taking the lock decides the call: from any ring that holds [s], the rest of
    the program alone gives the answer of the queue. *)
Definition decided_by (g : geometry) (p : prog (status * list Z)) (m : mem) (r : status * list Z) (s : list (list Z)) : Prop :=
  exists r' m', solo p m = Done (r', m') /\ same_result r r' /\ qwf g m' /\ represents g m' s.

Definition ready (g : geometry) (op : qop) (p : prog (status * list Z)) : Prop :=
  forall m s, qwf g m -> represents g m s ->
  exists r s', queue_step g s op = (r, s') /\ decided_by g p (mstore 4 m (lock_word g) 1) r s' /\ section g p (mstore 4 m (lock_word g) 1).

Fixpoint calling (g : geometry) (op : qop) (p : prog (status * list Z)) : Prop :=
  match p with
  | Ret r => forall s, queue_step g s op = (r, s)
  | Ld n a k => n = 2%nat /\ a = g_queue g + offsetof F_block_size /\ calling g op (k (g_bs g))
  | Acquire a p => a = lock_word g /\ ready g op p
  | _ => False
  end.

Lemma calling_of_entering g op p :
  (forall m s, qwf g m -> represents g m s -> exists r s', queue_step g s op = (r, s') /\ decided_by g p m r s') ->
  entering g p -> calling g op p.
Proof.
  induction p as [r|x|n a k IH|a l p IH|a p IH|a p IH]; intros Hs He; try done.
  - destruct He as (-> & -> & He). split; [done|]. split; [done|]. apply IH; [|done]. intros m s Hm Hr.
    destruct (Hs m s Hm Hr) as (r & s' & Hq & r' & m' & E & Hd). exists r, s'. split; [done|]. exists r', m'. split; [|done].
    cbn [solo] in E. change (mload 2 m (g_queue g + offsetof F_block_size)) with (qget F_block_size m (g_queue g)) in E.
    by rewrite (qwf_bs g m Hm) in E.
  - destruct He as [-> He]. split; [done|]. intros m s Hm Hr.
    destruct (Hs m s Hm Hr) as (r & s' & Hq & r' & m' & E & Hd). exists r, s'. split; [done|]. split; [|by apply He].
    exists r', m'. split; [|done]. cbn [solo] in E. unfold lock_word in *.
    change (mload 4 m (g_queue g + offsetof F_lock_value)) with (qget F_lock_value m (g_queue g)) in E.
    by rewrite (qwf_lock g m Hm) in E.
Qed.

Lemma op_calling g zone op : geometry_ok g = true -> op_bytes op -> calling g op (op_prog g zone op).
Proof.
  intros Hg Hb. assert (msg_ok g op -> entering g (op_prog g zone op) -> (forall s, queue_step g s op = msg_step (Z.to_nat (g_cap g - 1)) s op) ->
    calling g op (op_prog g zone op)) as Hok.
  { intros Hop He Hq. apply calling_of_entering; [|done]. intros m s Hm Hr. rewrite Hq.
    pose proof (ring_step_refines g zone m s op Hm Hr Hop) as Hs. destruct (msg_step _ s op) as [ [st d] s'] eqn:E.
    destruct Hs as (st' & d' & m' & E' & ? & ? & ?). exists (st, d), s'. split; [done|]. exists (st', d'), m'.
    by rewrite op_prog_solo. }
  destruct op as [msg|]; [|apply Hok; [done|by apply dequeue_entering|done] ].
  pose proof (blen_nonneg msg). destruct (decide (0 < blen msg <= g_bs g)) as [Hl|Hl].
  - apply Hok; [done|by apply enqueue_entering|]. intros s. unfold queue_step.
    by rewrite (proj2 (Z.eqb_neq _ _)), (proj2 (Z.ltb_ge _ _)) by lia.
  - pose proof (geometry_ok_spec g Hg) as (Hq & _).
    assert (forall s, queue_step g s (Enq msg) = (PROCESS_ERROR, [], s)) as Hr.
    { intros s. unfold queue_step. destruct (Z.eqb_spec (blen msg) 0); [done|]. by rewrite (proj2 (Z.ltb_lt _ _)) by lia. }
    unfold op_prog, queue_enqueue. rewrite (proj2 (Z.eqb_neq (g_queue g) 0)) by lia. cbn [orb].
    destruct (Z.eqb_spec (blen msg) 0) as [|Hne]; [exact Hr|].
    split; [done|]. split; [done|]. cbn [mbind prog_bind ld]. rewrite (proj2 (Z.ltb_lt (g_bs g) (blen msg))) by lia. exact Hr.
Qed.

(** ** The simulation *)

Section Simulation.
Context (g : geometry) (zid : nat -> Z).
Implicit Types (s : zones) (a : atomic_queue).

Definition word (m : mem) : Z := mload 4 m (lock_word g).

(** A zone that does not hold the lock. *)
Definition outside s a (z : nat) : Prop :=
  match z_pc s z, aq_caller a z with
  | Idle, Resting => True
  | At p, Pending op => calling g op p
  | At p, Decided r => exists r', p = Ret r' /\ same_result r r'
  | Test1 v x p, Pending op => x = lock_word g /\ ready g op p /\ (z_mon s z = Some x -> word (z_mem s) = v)
  | Stlxr x p, Pending op => x = lock_word g /\ ready g op p /\ (z_mon s z = Some x -> word (z_mem s) = 0)
  | Test2 v x p, Pending op => v <> 0 /\ x = lock_word g /\ ready g op p
  | _, _ => False
  end.

(** The zone that holds it. *)
Definition inside s a (z : nat) : Prop :=
  kept g (z_mem s) /\ exists p r,
  (z_pc s z = At p \/ z_pc s z = Test2 0 (lock_word g) p) /\ aq_caller a z = Decided r /\
  section g p (z_mem s) /\ decided_by g p (z_mem s) r (aq_msgs a).

Definition holder_ok s a (h : option nat) : Prop :=
  match h with
  | None => qwf g (z_mem s) /\ represents g (z_mem s) (aq_msgs a)
  | Some z => inside s a z
  end.

Definition sim s a (h : option nat) : Prop :=
  geometry_ok g = true /\ holder_ok s a h /\ forall z, h <> Some z -> outside s a z.

Lemma word_kept m : kept g m -> word m = 1.
Proof. intros H. apply H. Qed.

Lemma word_free m : qwf g m -> word m = 0.
Proof. intros H. apply (qwf_lock g m H). Qed.

Lemma sim_word s a h : sim s a h -> word (z_mem s) = match h with Some _ => 1 | None => 0 end.
Proof. intros (_ & H & _). destruct h as [z|]; [apply word_kept, H|apply word_free, H]. Qed.

Lemma sim_block_size s a h : sim s a h -> mload 2 (z_mem s) (g_queue g + offsetof F_block_size) = g_bs g.
Proof. intros (_ & H & _). destruct h as [z|]; [apply H|apply (qwf_bs g _ (proj1 H))]. Qed.

(** What another zone's step does to a zone outside. *)
Lemma outside_frame s s' a a' z :
  z_pc s' z = z_pc s z -> aq_caller a' z = aq_caller a z ->
  (z_mon s' z = Some (lock_word g) -> z_mon s z = Some (lock_word g) /\ word (z_mem s') = word (z_mem s)) ->
  outside s a z -> outside s' a' z.
Proof.
  intros Hp Hc Hm. unfold outside. rewrite Hp, Hc. destruct (z_pc s z); try done; destruct (aq_caller a z); try done;
    intros (-> & ? & Hw); split; auto; split; auto; intros Hs; destruct (Hm Hs) as [? ->]; auto.
Qed.

(** A step of a zone outside that touches neither the memory nor the queue. *)
Lemma outside_step s s' a a' h z :
  sim s a h -> h <> Some z -> z_mem s' = z_mem s -> aq_msgs a' = aq_msgs a ->
  (forall x, x <> z -> z_pc s' x = z_pc s x /\ aq_caller a' x = aq_caller a x /\ z_mon s' x = z_mon s x) ->
  outside s' a' z -> sim s' a' h.
Proof.
  intros (Hg & Hh & Ho) Hz Hm Hq Hx Hz'. split; [done|]. split.
  - destruct h as [y|]; cbn [holder_ok] in *; [|by rewrite Hm, Hq].
    destruct (Hx y) as (Hp & Hc & _); [congruence|]. unfold inside. rewrite Hm, Hp, Hc, Hq. exact Hh.
  - intros x Hne. destruct (decide (x = z)) as [->|Hxz]; [done|]. destruct (Hx x Hxz) as (Hp & Hc & Hmo).
    apply (outside_frame s s' a a'); [done|done| |by apply Ho]. by rewrite Hmo, Hm.
Qed.

(** A store of the zone that holds the lock, or takes it. *)
Lemma store_monitor s w l x : z_mon (store s w l) x = Some (lock_word g) ->
  z_mon s x = Some (lock_word g) /\ overlaps w (blen l) (lock_word g) 4 = false.
Proof. cbn. case_match; [|done]. case_match; [done|]. intros [= ->]. done. Qed.

Lemma others_frame s a a' z w l p :
  (forall x, x <> z -> aq_caller a' x = aq_caller a x) ->
  overlaps w (blen l) (lock_word g) 4 = true \/ word (mwrite (z_mem s) w l) = word (z_mem s) ->
  forall x, x <> z -> outside s a x -> outside (goto (store s w l) z p) a' x.
Proof.
  intros Hc Hw x Hx. apply outside_frame; [by cbn; rewrite fn_lookup_insert_ne|by apply Hc|].
  cbn [goto z_mon]. intros [Hm Hov]%store_monitor. split; [done|]. destruct Hw as [Hw|Hw]; [congruence|exact Hw].
Qed.

Lemma overlaps_self k : overlaps (lock_word g) (blen (le_bytes 4 k)) (lock_word g) 4 = true.
Proof. unfold overlaps, blen. rewrite length_le_bytes. apply andb_true_iff; rewrite !Z.ltb_lt; lia. Qed.

Lemma same_result_refl r : same_result r r.
Proof. split; [done|]. unfold holds. by rewrite take_ge. Qed.

Ltac here := unfold outside; cbn [goto arm store z_pc z_mon z_mem set_caller aq_caller aq_msgs]; rewrite ?fn_lookup_insert.
Ltac elsewhere := intros ? ?; try split_and!; cbn [goto arm store z_pc z_mon z_mem set_caller aq_caller aq_msgs]; by rewrite ?fn_lookup_insert_ne by done.

(** The zone inside takes a step: nobody sees it. *)
Lemma holder_step s a z fails e s' :
  sim s a (Some z) -> zone_step g zid z (Next fails) s = Some (e, s') ->
  e = None /\ (sim s' a (Some z) \/ sim s' a None /\ exists r, z_pc s' z = At (Ret r)).
Proof.
  intros Hs E. pose proof (sim_word _ _ _ Hs) as Hw. destruct Hs as (Hg & (Hk & p & r & Hp & Hc & Hsec & Hd) & Ho).
  assert (forall x, x <> z -> outside s a x) as Ho' by (intros x Hx; apply Ho; congruence).
  unfold zone_step in E. destruct Hp as [Hp|Hp]; rewrite Hp in E.
  - destruct p as [v|x|n w k|w l p|w p|w p]; try done.
    + injection E as <- <-. split; [done|]. left. split; [done|]. split.
      * split; [done|]. exists (k (mload n (z_mem s) w)), r. split; [left; by here|]. done.
      * intros x Hx. eapply (outside_frame s _ a); [cbn; rewrite fn_lookup_insert_ne; congruence|done|done|by apply Ho].
    + injection E as <- <-. destruct Hsec as [Hk' Hsec]. split; [done|]. left. split; [done|]. split.
      * split; [done|]. exists p, r. split; [left; by here|]. done.
      * intros x Hx. eapply others_frame; [done| |congruence|by apply Ho]. right. by rewrite Hw, word_kept.
    + injection E as <- <-. destruct Hsec as [-> [r' ->]]. split; [done|]. right. split; [|exists r'; by here].
      destruct Hd as (r1 & m' & [= <- <-] & Hsame & Hwf & Hrep). split; [done|]. split; [done|].
      intros x _. destruct (decide (x = z)) as [->|Hx].
      * here. rewrite Hc. eauto.
      * eapply others_frame; [done| |done|by apply Ho']. left. apply overlaps_self.
  - injection E as <- <-. split; [done|]. left. split; [done|]. split.
    + split; [done|]. exists p, r. split; [left; by here|]. done.
    + intros x Hx. eapply (outside_frame s _ a); [cbn; rewrite fn_lookup_insert_ne; congruence|done|done|by apply Ho].
Qed.

Lemma atomic_one a e a' : atomic_step g a e a' -> atomic_trace g a (option_list e) a'.
Proof. intros H. apply (at_step g a [] a e a' (at_start g a) H). Qed.

Lemma atomic_trans a tr1 a1 tr2 a2 : atomic_trace g a tr1 a1 -> atomic_trace g a1 tr2 a2 -> atomic_trace g a (tr1 ++ tr2) a2.
Proof.
  intros H1 H2. induction H2 as [|tr a2 e a3 H2 IH Hst]; [by rewrite app_nil_r|].
  rewrite app_assoc. by eapply at_step.
Qed.

Lemma acquire_kept m : qwf g m -> kept g (mstore 4 m (lock_word g) 1).
Proof.
  intros Hm. change (mstore 4 m (lock_word g) 1) with (qset F_lock_value m (g_queue g) 1).
  split; qfields; [done|apply Hm].
Qed.

(** The store-exclusive that takes the lock is the instant of the call. *)
Lemma take_step s a z op p :
  sim s a None -> z_pc s z = Stlxr (lock_word g) p -> aq_caller a z = Pending op -> ready g op p ->
  exists a', atomic_trace g a [] a' /\ sim (goto (store s (lock_word g) (le_bytes 4 1)) z (Test2 0 (lock_word g) p)) a' (Some z).
Proof.
  intros (Hg & [Hm Hr] & Ho) Hp Hc Hready. destruct (Hready _ _ Hm Hr) as (r & s' & Hq & Hd & Hsec). destruct r as [st d].
  eexists. split; [apply (atomic_one a None), (as_take g a z op st d s' Hc Hq)|]. split; [done|]. split.
  - split; [by apply acquire_kept|]. exists p, (st, d). split; [right; by here|]. split; [by here|]. done.
  - intros x Hx. assert (x <> z) as Hxz by congruence. eapply others_frame; [|left; apply overlaps_self|done|by apply Ho].
    intros y Hy. cbn. by rewrite fn_lookup_insert_ne.
Qed.

Lemma outside_moves s a h z mv e s' :
  sim s a h -> h <> Some z -> move_bytes mv -> zone_step g zid z mv s = Some (e, s') ->
  exists a' h', atomic_trace g a (option_list e) a' /\ sim s' a' h'.
Proof.
  intros Hs Hh Hop E. pose proof (sim_word _ _ _ Hs) as Hw. pose proof (sim_block_size _ _ _ Hs) as Hbs.
  pose proof Hs as (Hg & _ & Ho). specialize (Ho z Hh). unfold outside in Ho. unfold zone_step in E.
  destruct mv as [op|fails], (z_pc s z) as [|p|v w p|w p|v w p] eqn:Hp; try done.
  - destruct (aq_caller a z) eqn:Hc; [|done|done]. injection E as <- <-. exists (set_caller a z (Pending op)), h.
    split; [apply atomic_one; by constructor|]. eapply (outside_step s _ a); [done|done|done|done|elsewhere|].
    here. by apply op_calling.
  - destruct (aq_caller a z) as [|op|r] eqn:Hc; [done| |].
    + destruct p as [v|x|n w k|w l p|w p|w p]; try done; injection E as <- <-.
      * destruct v as [st d]. set (a1 := {| aq_msgs := aq_msgs a; aq_caller := <[z := Decided (st, d)]> (aq_caller a) |}).
        assert (atomic_step g a None a1) as H1 by (apply (as_take g a z op st d (aq_msgs a) Hc), Ho).
        assert (atomic_step g a1 (Some (Returned z (st, d))) (set_caller a1 z Resting)) as H2.
        { eapply as_return; [cbn; by rewrite fn_lookup_insert|apply same_result_refl]. }
        exists (set_caller a1 z Resting), h. split; [exact (atomic_trans _ [] _ _ _ (atomic_one _ _ _ H1) (atomic_one _ _ _ H2))|]. subst a1.
        eapply (outside_step s _ a); [done|done|done|done|elsewhere|]. by here.
      * destruct Ho as (-> & -> & Ho). exists a, h. split; [constructor|].
        eapply (outside_step s _ a); [done|done|done|done|elsewhere|]. here. rewrite Hc. by rewrite Hbs.
      * destruct Ho as (-> & Ho). exists a, h. split; [constructor|].
        eapply (outside_step s _ a); [done|done|done|done|elsewhere|]. here. by rewrite Hc.
    + destruct Ho as (r' & -> & Hr). injection E as <- <-. exists (set_caller a z Resting), h.
      split; [by apply atomic_one; econstructor|]. eapply (outside_step s _ a); [done|done|done|done|elsewhere|]. by here.
  - destruct (aq_caller a z) as [|op|r] eqn:Hc; [done| |done]. injection E as <- <-. destruct Ho as (-> & Hr & Hv).
    exists a, h. split; [constructor|]. eapply (outside_step s _ a); [done|done|done|done|elsewhere|].
    here. rewrite Hc. destruct (Z.eqb_spec v 0) as [->|]; done.
  - destruct (aq_caller a z) as [|op|r] eqn:Hc; [done| |done]. destruct Ho as (-> & Hr & Hv).
    case_bool_decide as Hm; [destruct fails|]; cbn [negb andb] in E; injection E as <- <-.
    2:{ destruct h as [y|]; [by rewrite Hv in Hw|]. destruct (take_step s a z op p Hs Hp Hc Hr) as (a' & Ha & Hs').
        by exists a', (Some z). }
    all: exists a, h; split; [constructor|]; eapply (outside_step s _ a); [done|done|done|done|elsewhere|];
      here; by rewrite Hc.
  - destruct (aq_caller a z) as [|op|r] eqn:Hc; [done| |done]. injection E as <- <-. destruct Ho as (Hv & -> & Hr).
    exists a, h. split; [constructor|]. eapply (outside_step s _ a); [done|done|done|done|elsewhere|].
    here. rewrite Hc. by rewrite (proj2 (Z.eqb_neq v 0) Hv).
Qed.

Lemma step_simulated s a h z mv e s' :
  sim s a h -> move_bytes mv -> zone_step g zid z mv s = Some (e, s') ->
  exists a' h', atomic_trace g a (option_list e) a' /\ sim s' a' h'.
Proof.
  intros Hs Hop E. destruct (decide (h = Some z)) as [->|Hh]; [|by eapply outside_moves].
  destruct mv as [op|fails].
  - exfalso. destruct Hs as (_ & (_ & p & r & Hp & _) & _). unfold zone_step in E. destruct Hp as [Hp|Hp]; by rewrite Hp in E.
  - destruct (holder_step _ _ _ _ _ _ Hs E) as (-> & [Hs'|[Hs' _] ]); eexists a, _; (split; [constructor|exact Hs']).
Qed.

Lemma trace_simulated m c tr msgs : qwf g m -> represents g m msgs -> zones_trace g zid (zones_start m) tr c ->
  exists a h, atomic_trace g (atomic_start msgs) tr a /\ sim c a h.
Proof.
  intros Hm Hr. induction 1 as [|tr s1 z mv e s2 _ IH Hb E].
  - exists (atomic_start msgs), None. split; [constructor|]. split; [apply (qwf_geo g m Hm)|]. by split.
  - destruct IH as (a & h & Ha & Hs). destruct (step_simulated _ _ _ _ _ _ _ Hs Hb E) as (a' & h' & Ha' & Hs').
    exists a', h'. split; [by eapply atomic_trans|done].
Qed.

(** C2. The ring is linearizable.  Whatever zones call enqueue and dequeue, and
    however their single accesses interleave, spurious failures of the
    store-exclusive included: the calls and returns seen are those of an atomic
    queue of [capacity - 1] messages, where each call takes effect at one
    instant between its start and its return; no zone runs into a fault; and
    when every zone is out of the functions the ring is well formed, unlocked
    and holds the atomic queue's messages. *)
Theorem ring_is_atomic_queue m c tr msgs :
  qwf g m -> represents g m msgs -> zones_trace g zid (zones_start m) tr c ->
  exists a, atomic_trace g (atomic_start msgs) tr a /\
  (forall z f, z_pc c z <> At (Crash f)) /\
  ((forall z, z_pc c z = Idle) -> qwf g (z_mem c) /\ represents g (z_mem c) (aq_msgs a)).
Proof.
  intros Hm Hr Ht. destruct (trace_simulated _ _ _ _ Hm Hr Ht) as (a & h & Ha & _ & Hh & Ho). exists a. split; [done|]. split.
  - intros z f Hp. destruct (decide (h = Some z)) as [->|Hz].
    + destruct Hh as (_ & p & r & [Hp'|Hp'] & _ & Hsec & _); rewrite Hp in Hp'; [|done]. by injection Hp' as <-.
    + specialize (Ho z Hz). unfold outside in Ho. rewrite Hp in Ho. destruct (aq_caller a z); [done|done|]. by destruct Ho as (r' & ? & _).
  - intros Hi. destruct h as [z|]; [|exact Hh]. destruct Hh as (_ & p & r & Hp & _). rewrite Hi in Hp. by destruct Hp.
Qed.

(** ** Every call can return *)

Lemma zones_trace_trans s tr1 s1 tr2 s2 : zones_trace g zid s tr1 s1 -> zones_trace g zid s1 tr2 s2 -> zones_trace g zid s (tr1 ++ tr2) s2.
Proof.
  intros H1 H2. induction H2 as [|tr s2 z mv e s3 H2 IH Hb E]; [by rewrite app_nil_r|].
  rewrite app_assoc. by eapply zt_step.
Qed.

Lemma silent_step s z fails s' : zone_step g zid z (Next fails) s = Some (None, s') -> zones_trace g zid s [] s'.
Proof. intros E. exact (zt_step g zid s [] s z (Next fails) None s' (zt_start g zid s) I E). Qed.

Definition can_return s (z : nat) : Prop := exists tr s', zones_trace g zid s tr s' /\ z_pc s' z = Idle.

Lemma trace_can_return s tr s' z : zones_trace g zid s tr s' -> can_return s' z -> can_return s z.
Proof. intros H (tr' & s2 & H2 & Hp). exists (tr ++ tr'), s2. split; [by eapply zones_trace_trans|done]. Qed.

Lemma next_can_return s z fails e s' : zone_step g zid z (Next fails) s = Some (e, s') -> can_return s' z -> can_return s z.
Proof. intros E. eapply trace_can_return. by eapply (zt_step g zid s [] s z (Next fails)); [constructor| |]. Qed.

Lemma ret_can_return s z r : z_pc s z = At (Ret r) -> can_return s z.
Proof.
  intros Hp. eapply (next_can_return s z false); [unfold zone_step; by rewrite Hp|].
  eexists [], _. split; [constructor|by here].
Qed.

(** The zone inside leaves. *)
Lemma holder_leaves z p : forall s a, sim s a (Some z) -> z_pc s z = At p ->
  exists s', zones_trace g zid s [] s' /\ sim s' a None /\ exists r, z_pc s' z = At (Ret r).
Proof.
  induction p as [r|x|n w k IH|w l p IH|w p IH|w p IH]; intros s a Hs Hp.
  all: try (exfalso; destruct Hs as (_ & (_ & p' & r' & [Hp'|Hp'] & _ & Hsec & _) & _); rewrite Hp in Hp'; [|done];
    injection Hp' as <-; exact Hsec).
  all: assert (exists s', zone_step g zid z (Next false) s = Some (None, s')) as [s' E] by (unfold zone_step; rewrite Hp; eauto);
    destruct (holder_step _ _ _ _ _ _ Hs E) as (_ & Hs'); pose proof (silent_step _ _ _ _ E) as Ht;
    unfold zone_step in E; rewrite Hp in E; injection E as E.
  all: destruct Hs' as [Hs'|[Hs' Hret] ]; [|by exists s'].
  1: destruct (IH (mload n (z_mem s) w) s' a Hs') as (s2 & Ht2 & H2 & Hr); [rewrite <- E; by here|].
  2,3: destruct (IH s' a Hs') as (s2 & Ht2 & H2 & Hr); [rewrite <- E; by here|].
  all: exists s2; split; [exact (zones_trace_trans _ [] _ [] _ Ht Ht2)|]; by split.
Qed.

Lemma holder_out s a z : sim s a (Some z) -> exists s', zones_trace g zid s [] s' /\ sim s' a None /\ exists r, z_pc s' z = At (Ret r).
Proof.
  intros Hs. pose proof Hs as (_ & (_ & p & r & [Hp|Hp] & _) & _).
  - destruct (holder_leaves z p s a Hs Hp) as (s' & ? & ? & ?). eauto.
  - assert (zone_step g zid z (Next false) s = Some (None, goto s z (At p))) as E by (unfold zone_step; by rewrite Hp).
    pose proof (silent_step _ _ _ _ E) as Ht.
    destruct (holder_step _ _ _ _ _ _ Hs E) as (_ & [Hs1|[Hs1 Hr] ]); [|eauto].
    destruct (holder_leaves z p _ a Hs1) as (s' & Ht' & ? & ?); [by here|].
    exists s'. split; [exact (zones_trace_trans _ [] _ [] _ Ht Ht')|done].
Qed.

Lemma holder_can_return s a z : sim s a (Some z) -> can_return s z.
Proof.
  intros Hs. destruct (holder_out _ _ _ Hs) as (s' & Ht & _ & [r Hr]). eapply trace_can_return; [exact Ht|by eapply ret_can_return].
Qed.

Lemma next_simulated s a h z fails e s' : sim s a h -> zone_step g zid z (Next fails) s = Some (e, s') -> exists a' h', sim s' a' h'.
Proof. intros Hs E. destruct (step_simulated _ _ _ _ (Next fails) _ _ Hs I E) as (a' & h' & _ & Hs'). eauto. Qed.

Lemma test2_holds s a h z x p : sim s a h -> z_pc s z = Test2 0 x p -> h = Some z.
Proof.
  intros (_ & _ & Ho) Hp. destruct (decide (h = Some z)) as [|Hz]; [done|]. specialize (Ho z Hz).
  unfold outside in Ho. rewrite Hp in Ho. destruct (aq_caller a z); try done. by destruct Ho as [Hv _].
Qed.

(** With the lock free, the loop around the store-exclusive succeeds. *)
Lemma acquire_can_return s a z p : sim s a None -> z_pc s z = At (Acquire (lock_word g) p) -> can_return s z.
Proof.
  intros Hs Hp. pose proof (sim_word _ _ _ Hs) as Hw. unfold word in Hw.
  assert (zone_step g zid z (Next false) s = Some (None, goto (arm s z (Some (lock_word g))) z (Test1 0 (lock_word g) p))) as E1
    by (unfold zone_step; by rewrite Hp, Hw).
  eapply next_can_return; [exact E1|]. destruct (next_simulated _ _ _ _ _ _ _ Hs E1) as (a1 & h1 & Hs1). set (s1 := goto _ _ _) in *.
  assert (zone_step g zid z (Next false) s1 = Some (None, goto s1 z (Stlxr (lock_word g) p))) as E2
    by (unfold zone_step, s1; here; done).
  eapply next_can_return; [exact E2|]. destruct (next_simulated _ _ _ _ _ _ _ Hs1 E2) as (a2 & h2 & Hs2). set (s2 := goto s1 _ _) in *.
  assert (zone_step g zid z (Next false) s2 =
    Some (None, goto (store s2 (lock_word g) (le_bytes 4 1)) z (Test2 0 (lock_word g) p))) as E3.
  { assert (z_mon s2 z = Some (lock_word g)) as Hm by (unfold s2, s1; by here).
    assert (z_pc s2 z = Stlxr (lock_word g) p) as Hp2 by (unfold s2; by here).
    unfold zone_step. rewrite Hp2, Hm. by rewrite bool_decide_true. }
  eapply next_can_return; [exact E3|]. destruct (next_simulated _ _ _ _ _ _ _ Hs2 E3) as (a3 & h3 & Hs3). set (s3 := goto (store s2 _ _) _ _) in *.
  assert (h3 = Some z) as -> by (eapply test2_holds; [exact Hs3|unfold s3; by here]). by eapply holder_can_return.
Qed.

Lemma calling_can_return z op p : forall s a, sim s a None -> z_pc s z = At p -> calling g op p -> can_return s z.
Proof.
  induction p as [r|x|n w k IH|w l p IH|w p IH|w p IH]; intros s a Hs Hp Hc; try done.
  - by eapply ret_can_return.
  - destruct Hc as (-> & -> & Hc). pose proof (sim_block_size _ _ _ Hs) as Hbs.
    assert (zone_step g zid z (Next false) s = Some (None, goto s z (At (k (g_bs g))))) as E by (unfold zone_step; by rewrite Hp, Hbs).
    eapply next_can_return; [exact E|]. destruct (next_simulated _ _ _ _ _ _ _ Hs E) as (a1 & h1 & Hs1).
    assert (h1 = None) as ->.
    { pose proof (sim_word _ _ _ Hs1) as Hw1. pose proof (sim_word _ _ _ Hs) as Hw. cbn [goto z_mem] in Hw1. rewrite Hw in Hw1. by destruct h1. }
    eapply (IH (g_bs g) _ a1); [exact Hs1|by here|done].
  - destruct Hc as (-> & _). by eapply acquire_can_return.
Qed.

Lemma free_steps s a z s' : sim s a None -> zone_step g zid z (Next true) s = Some (None, s') -> z_mem s' = z_mem s -> exists a', sim s' a' None.
Proof.
  intros Hs E Hm. destruct (next_simulated _ _ _ _ _ _ _ Hs E) as (a' & h & Hs'). exists a'.
  pose proof (sim_word _ _ _ Hs') as Hw'. rewrite Hm, (sim_word _ _ _ Hs) in Hw'. by destruct h.
Qed.

Lemma test2_can_return s a z v p : sim s a None -> z_pc s z = Test2 v (lock_word g) p -> can_return s z.
Proof.
  intros Hs Hp. destruct (Z.eqb_spec v 0) as [->|Hv]; [by pose proof (test2_holds _ _ _ _ _ _ Hs Hp)|].
  assert (zone_step g zid z (Next true) s = Some (None, goto s z (At (Acquire (lock_word g) p)))) as E
    by (unfold zone_step; rewrite Hp; by rewrite (proj2 (Z.eqb_neq v 0) Hv)).
  eapply next_can_return; [exact E|]. destruct (free_steps _ _ _ _ Hs E eq_refl) as (a1 & Hs1).
  eapply acquire_can_return; [exact Hs1|by here].
Qed.

Lemma stlxr_can_return s a z p : sim s a None -> z_pc s z = Stlxr (lock_word g) p -> can_return s z.
Proof.
  intros Hs Hp. assert (zone_step g zid z (Next true) s = Some (None, goto (arm s z None) z (Test2 1 (lock_word g) p))) as E
    by (unfold zone_step; rewrite Hp; by rewrite andb_false_r).
  eapply next_can_return; [exact E|]. destruct (free_steps _ _ _ _ Hs E eq_refl) as (a1 & Hs1).
  eapply test2_can_return; [exact Hs1|by here].
Qed.

Lemma test1_can_return s a z v p : sim s a None -> z_pc s z = Test1 v (lock_word g) p -> can_return s z.
Proof.
  intros Hs Hp.
  assert (zone_step g zid z (Next true) s = Some (None, goto s z (if v =? 0 then Stlxr (lock_word g) p else At (Acquire (lock_word g) p)))) as E
    by (unfold zone_step; by rewrite Hp).
  eapply next_can_return; [exact E|]. destruct (free_steps _ _ _ _ Hs E eq_refl) as (a1 & Hs1).
  destruct (v =? 0); [eapply stlxr_can_return|eapply acquire_can_return]; try exact Hs1; by here.
Qed.

Lemma free_can_return s a z : sim s a None -> can_return s z.
Proof.
  intros Hs. assert (outside s a z) as Ho by (by apply Hs). unfold outside in Ho.
  destruct (z_pc s z) as [|p|v x p|x p|v x p] eqn:Hp; [exists [], s; split; [constructor|done]|..];
    destruct (aq_caller a z) as [|op|r]; try done.
  - by eapply calling_can_return.
  - destruct Ho as (r' & -> & _). by eapply ret_can_return.
  - destruct Ho as (-> & _). by eapply test1_can_return.
  - destruct Ho as (-> & _). by eapply stlxr_can_return.
  - destruct Ho as (_ & -> & _). by eapply test2_can_return.
Qed.

(** C6. No zone is ever stuck: in every state that any interleaving of calls
    reaches, each call under way can still return - the zone that holds the lock
    reaches its release, and then a waiting zone takes the lock and finishes. *)
Theorem every_call_can_return m c tr msgs z :
  qwf g m -> represents g m msgs -> zones_trace g zid (zones_start m) tr c ->
  exists tr' c', zones_trace g zid c tr' c' /\ z_pc c' z = Idle.
Proof.
  intros Hm Hr Ht. destruct (trace_simulated _ _ _ _ Hm Hr Ht) as (a & [y|] & _ & Hs); [|by eapply free_can_return].
  destruct (holder_out _ _ _ Hs) as (s1 & Ht1 & Hs1 & _). eapply trace_can_return; [exact Ht1|by eapply free_can_return].
Qed.
End Simulation.

(** ** A run of two zones *)

Lemma zones_run_trace g zid sched : forall s tr s', zones_run g zid sched s = Some (tr, s') ->
  Forall (fun x => move_bytes (snd x)) sched -> zones_trace g zid s tr s'.
Proof.
  induction sched as [|[z mv] sched IH]; intros s tr s'; cbn [zones_run].
  - intros [= <- <-] _. constructor.
  - intros E Hb. apply Forall_cons_1 in Hb as [Hb1 Hb]. destruct (zone_step g zid z mv s) as [ [e s1]|] eqn:E1; [|done].
    cbn [mbind option_bind fst snd] in E. destruct (zones_run g zid sched s1) as [ [tr2 s2]|] eqn:E2; [|done].
    injection E as <- <-. eapply zones_trace_trans; [|by apply IH].
    exact (zt_step g zid s [] s z mv e s1 (zt_start g zid s) Hb1 E1).
Qed.

(** Zone 1 takes the lock; zone 2 waits while zone 1 writes its message; then
    zone 2 takes it out. *)
Definition demo_schedule : list (nat * move) :=
  (1%nat, Enter (Enq [1; 2; 3])) :: replicate 6 (1%nat, Next false) ++ (2%nat, Enter Deq) ::
  mjoin (replicate 18 [(1%nat, Next false); (2%nat, Next false)]) ++ replicate 30 (2%nat, Next false).

Definition demo_zones (n : nat) : option (list event * zones) :=
  zones_run demo_geo Z.of_nat (take n demo_schedule) (zones_start demo_mem).

Lemma demo_schedule_bytes n : Forall (fun x => move_bytes (snd x)) (take n demo_schedule).
Proof.
  apply Forall_take. constructor; [by apply (bytesb_ok [1; 2; 3])|]. cbn. repeat (constructor; [exact I|]). constructor.
Qed.

Lemma demo_empty : represents demo_geo demo_mem [].
Proof. unfold represents. rewrite (proj2 demo_qwf). apply Forall2_nil_2. Qed.

Lemma demo_zones_trace n tr c : demo_zones n = Some (tr, c) -> zones_trace demo_geo Z.of_nat (zones_start demo_mem) tr c.
Proof. intros E. eapply zones_run_trace; [exact E|apply demo_schedule_bytes]. Qed.

Definition demo_events : list event :=
  [Called 1 (Enq [1; 2; 3]); Called 2 Deq; Returned 1 (PROCESS_OK, []); Returned 2 (PROCESS_OK, [1; 2; 3; 0; 0; 0; 0; 0])].

Lemma demo_done : exists c, zones_trace demo_geo Z.of_nat (zones_start demo_mem) demo_events c.
Proof.
  assert (fst <$> demo_zones 100 = Some demo_events) as Ht by (vm_compute; reflexivity).
  destruct (demo_zones 100) as [ [tr c]|] eqn:E; [|discriminate]. injection Ht as ->. exists c. by eapply demo_zones_trace.
Qed.

Lemma ring_is_atomic_queue_witness : exists a, atomic_trace demo_geo (atomic_start []) demo_events a.
Proof.
  destruct demo_done as [c Hc].
  destruct (ring_is_atomic_queue demo_geo Z.of_nat demo_mem c _ [] (proj1 demo_qwf) demo_empty Hc) as (a & Ha & _).
  exists a. exact Ha.
Defined.

(** In the middle of it, zone 1 inside and zone 2 waiting. *)
Lemma demo_middle : exists tr c, zones_trace demo_geo Z.of_nat (zones_start demo_mem) tr c /\ z_pc c 1%nat <> Idle /\ z_pc c 2%nat <> Idle.
Proof.
  assert (match demo_zones 30 with Some (_, c) => match z_pc c 1, z_pc c 2 with Idle, _ | _, Idle => false | _, _ => true end | None => false end = true) as H
    by (vm_compute; reflexivity).
  destruct (demo_zones 30) as [ [tr c]|] eqn:E; [|discriminate]. exists tr, c. split; [by eapply demo_zones_trace|].
  split; intros Hp; rewrite Hp in H; [discriminate|]. by destruct (z_pc c 1).
Qed.

Lemma every_call_can_return_witness : exists c, z_pc c 1%nat <> Idle /\ z_pc c 2%nat <> Idle /\
  exists tr c', zones_trace demo_geo Z.of_nat c tr c' /\ z_pc c' 2%nat = Idle.
Proof.
  destruct demo_middle as (tr & c & Ht & H1 & H2). exists c. split; [exact H1|]. split; [exact H2|].
  exact (every_call_can_return demo_geo Z.of_nat demo_mem c tr [] 2 (proj1 demo_qwf) demo_empty Ht).
Defined.

