(* ===== verification/HyperampLinux.v ===== *)
(** * HyperampLinux: mapping a channel and the engine's queue ports

    [hyperamp_linux_init] and its helpers (src/hyperamp_shm_queue.c), and the
    engine functions that use the mapped queues (src/engine.c).  The kernel's
    answers to open/mmap/sysconf are the argument [MapEnv]. *)

From S2P Require Import Prelude Bytes Mem HyperampQueue HyperampQueueLemmas HyperampQueueSpec.
From stdpp Require Import base list numbers option.
From Stdlib Require Import ZArith Lia.
#[local] Open Scope Z_scope.

(** ** Configuration constants *)

Definition SHM_START_PADDR : Z := 0x7E000000.
Definition SHM_CH1_PADDR : Z := SHM_START_PADDR + 0x200000.
Definition SHM_CH2_PADDR : Z := SHM_START_PADDR + 0x300000.
Definition SHM_QUEUE_SIZE : Z := 4 * 1024.
Definition SHM_DATA_REGION_OFFSET : Z := SHM_QUEUE_SIZE * 2.
Definition SHM_CH0_TOTAL_SIZE : Z := 2 * 1024 * 1024.
Definition SHM_CH1_TOTAL_SIZE : Z := 1 * 1024 * 1024.
Definition SHM_CH2_TOTAL_SIZE : Z := 1 * 1024 * 1024.
Definition DEFAULT_QUEUE_CAPACITY : Z := 256.
Definition DEFAULT_BLOCK_SIZE : Z := 4096.
Definition HYPERAMP_ZONE_ID_Linux : Z := 0.
Definition HYPERAMP_ZONE_ID_SEL4 : Z := 1.

(** ** The context *)

Record HyperampLinuxContext := {
  fd_mem : Z;
  shm_base : Z;
  shm_size : Z;
  phys_addr : Z;
  tx_queue : Z;
  rx_queue : Z;
  data_region : Z;
  initialized : bool;
  tx_count : Z; rx_count : Z; tx_errors : Z; rx_errors : Z }.

Definition g_ctx_initial : HyperampLinuxContext :=
  {| fd_mem := 0; shm_base := 0; shm_size := 0; phys_addr := 0; tx_queue := 0; rx_queue := 0;
     data_region := 0; initialized := false;
     tx_count := 0; rx_count := 0; tx_errors := 0; rx_errors := 0 |}.

(** What the kernel answers: a descriptor (negative on failure), the page size,
    and the mapping's address ([None] for MAP_FAILED). *)
Record MapEnv := { env_open : Z; env_page_size : Z; env_mmap : option Z }.

Definition set_fd (c : HyperampLinuxContext) (fd : Z) : HyperampLinuxContext :=
  {| fd_mem := fd; shm_base := shm_base c; shm_size := shm_size c; phys_addr := phys_addr c;
     tx_queue := tx_queue c; rx_queue := rx_queue c; data_region := data_region c;
     initialized := initialized c; tx_count := tx_count c; rx_count := rx_count c;
     tx_errors := tx_errors c; rx_errors := rx_errors c |}.

Definition set_mapping (c : HyperampLinuxContext) (base size phys : Z) : HyperampLinuxContext :=
  {| fd_mem := fd_mem c; shm_base := base; shm_size := size; phys_addr := phys;
     tx_queue := tx_queue c; rx_queue := rx_queue c; data_region := data_region c;
     initialized := initialized c; tx_count := tx_count c; rx_count := rx_count c;
     tx_errors := tx_errors c; rx_errors := rx_errors c |}.

Definition map_physical_memory (env : MapEnv) (c : HyperampLinuxContext) (phys size : Z)
  : status * HyperampLinuxContext :=
  let c := set_fd c (env_open env) in
  if fd_mem c <? 0 then (PROCESS_ERROR, c) else
  let page_offset := Z.land phys (env_page_size env - 1) in
  match env_mmap env with
  | None => (PROCESS_ERROR, set_fd c (-1))
  | Some mapped => (PROCESS_OK, set_mapping c (mapped + page_offset) size phys)
  end.

Definition unmap_physical_memory (c : HyperampLinuxContext) : HyperampLinuxContext :=
  let c := if shm_base c =? 0 then c else set_mapping c 0 (shm_size c) (phys_addr c) in
  if 0 <=? fd_mem c then set_fd c (-1) else c.

Definition channel_map_size (phys : Z) : Z :=
  if phys =? SHM_CH1_PADDR then SHM_CH1_TOTAL_SIZE
  else if phys =? SHM_CH2_PADDR then SHM_CH2_TOTAL_SIZE else SHM_CH0_TOTAL_SIZE.

Definition channel_data_size (phys : Z) : Z := channel_map_size phys - SHM_DATA_REGION_OFFSET.

(** The "safe queue capacity" of a data region. *)
Definition safe_queue_capacity (data_size : Z) : Z :=
  let max_capacity := u16 (data_size / DEFAULT_BLOCK_SIZE) in
  let max_capacity := if 0 <? max_capacity then u16 (max_capacity - 1) else max_capacity in
  if max_capacity <? DEFAULT_QUEUE_CAPACITY then max_capacity else DEFAULT_QUEUE_CAPACITY.

Definition set_queues (c : HyperampLinuxContext) : HyperampLinuxContext :=
  {| fd_mem := fd_mem c; shm_base := shm_base c; shm_size := shm_size c; phys_addr := phys_addr c;
     tx_queue := shm_base c + SHM_QUEUE_SIZE; rx_queue := shm_base c;
     data_region := shm_base c + 2 * SHM_QUEUE_SIZE;
     initialized := initialized c; tx_count := tx_count c; rx_count := rx_count c;
     tx_errors := tx_errors c; rx_errors := rx_errors c |}.

Definition set_initialized (c : HyperampLinuxContext) : HyperampLinuxContext :=
  {| fd_mem := fd_mem c; shm_base := shm_base c; shm_size := shm_size c; phys_addr := phys_addr c;
     tx_queue := tx_queue c; rx_queue := rx_queue c; data_region := data_region c;
     initialized := true; tx_count := 0; rx_count := 0; tx_errors := 0; rx_errors := 0 |}.

Definition tx_config (c : HyperampLinuxContext) (phys capacity : Z) : HyperampQueueConfig :=
  {| cfg_map_mode := 0; cfg_capacity := capacity; cfg_block_size := DEFAULT_BLOCK_SIZE;
     cfg_phy_addr := phys + SHM_QUEUE_SIZE; cfg_virt_addr := tx_queue c |}.

Definition rx_config (c : HyperampLinuxContext) (phys capacity : Z) : HyperampQueueConfig :=
  {| cfg_map_mode := 0; cfg_capacity := capacity; cfg_block_size := DEFAULT_BLOCK_SIZE;
     cfg_phy_addr := phys; cfg_virt_addr := rx_queue c |}.

Definition hyperamp_linux_init (env : MapEnv) (c : HyperampLinuxContext) (m : mem)
    (phys : Z) (is_creator : bool) : status * HyperampLinuxContext * mem :=
  if initialized c then (PROCESS_OK, c, m) else
  let phys := if phys =? 0 then SHM_START_PADDR else phys in
  let map_size := channel_map_size phys in
  let data_size := channel_data_size phys in
  let queue_capacity := safe_queue_capacity data_size in
  match map_physical_memory env c phys map_size with
  | (PROCESS_OK, c) =>
      let c := set_queues c in
      if is_creator then
        match hyperamp_queue_init m (tx_queue c) (Some (tx_config c phys queue_capacity)) true with
        | (PROCESS_OK, m) =>
            match hyperamp_queue_init m (rx_queue c) (Some (rx_config c phys queue_capacity)) true with
            | (PROCESS_OK, m) =>
                let m := hyperamp_safe_memset m (data_region c) 0 (Z.to_nat data_size) in
                (PROCESS_OK, set_initialized c, m)
            | (_, m) => (PROCESS_ERROR, unmap_physical_memory c, m)
            end
        | (_, m) => (PROCESS_ERROR, unmap_physical_memory c, m)
        end
      else (PROCESS_OK, set_initialized c, m)
  | (_, c) => (PROCESS_ERROR, c, m)
  end.

(** ** The engine's ports *)

(** Fields [hyper_rx_queue], [hyper_tx_queue] and [hyper_amp_data_region] of
    [BackendEngine]; 0 is NULL. *)
Record hyper_ports := { hyper_rx_queue : Z; hyper_tx_queue : Z; hyper_amp_data_region : Z }.

Definition engine_init_hyperamp_queue (env : MapEnv) (c : HyperampLinuxContext) (m : mem)
    (p : hyper_ports) : status * hyper_ports * HyperampLinuxContext * mem :=
  match hyperamp_linux_init env c m SHM_CH1_PADDR false with
  | (PROCESS_ERROR, c, m) => (PROCESS_ERROR, p, c, m)
  | (_, c, m) =>
      (PROCESS_OK, {| hyper_rx_queue := rx_queue c; hyper_tx_queue := tx_queue c;
                      hyper_amp_data_region := data_region c |}, c, m)
  end.

(** [out_len] tells whether the caller passed a non-null length pointer. *)
Definition backend_engine_hyperamp_rx_queue_get (eng : option hyper_ports) (m : mem)
    (max_msg_len : Z) (data : option (list Z)) (out_len : bool) : outcome dequeued :=
  let refused := {| dq_status := PROCESS_ERROR; dq_mem := m; dq_data := default [] data;
                    dq_len := None |} in
  match eng with
  | None => Done refused
  | Some p =>
      if hyper_rx_queue p =? 0 then Done refused else
      if hyper_amp_data_region p =? 0 then Done refused else
      match data with
      | None => Done refused
      | Some buf =>
          if negb out_len then Done refused else
          hyperamp_queue_dequeue m (hyper_rx_queue p) HYPERAMP_ZONE_ID_Linux (Some buf)
            max_msg_len (hyper_amp_data_region p)
      end
  end.

Definition backend_engine_hyperamp_tx_queue_put (eng : option hyper_ports) (m : mem)
    (data : option (list Z)) (msg_len : Z) : outcome (status * mem) :=
  match eng with
  | None => Done (PROCESS_ERROR, m)
  | Some p =>
      if hyper_tx_queue p =? 0 then Done (PROCESS_ERROR, m) else
      if qget F_block_size m (hyper_tx_queue p) <? msg_len then Done (PROCESS_ERROR, m) else
      if hyper_amp_data_region p =? 0 then Done (PROCESS_ERROR, m) else
      match data with
      | None => Done (PROCESS_ERROR, m)
      | Some buf =>
          hyperamp_queue_enqueue m (hyper_tx_queue p) HYPERAMP_ZONE_ID_Linux (Some buf)
            msg_len (hyper_amp_data_region p)
      end
  end.

(** ** Lemmas *)

Lemma safe_capacity_fits data_size :
  2 * DEFAULT_BLOCK_SIZE <= data_size < 65536 * DEFAULT_BLOCK_SIZE ->
  0 < safe_queue_capacity data_size <= DEFAULT_QUEUE_CAPACITY /\
  (safe_queue_capacity data_size + 1) * DEFAULT_BLOCK_SIZE <= data_size.
Proof.
  unfold safe_queue_capacity, DEFAULT_BLOCK_SIZE, DEFAULT_QUEUE_CAPACITY. intros H.
  assert (2 <= data_size / 4096 < 65536) as Hd.
  { split; [apply Z.div_le_lower_bound; lia|apply Z.div_lt_upper_bound; lia]. }
  pose proof (Z.mul_div_le data_size 4096).
  rewrite (u16_id (data_size / 4096)) by lia. rewrite (proj2 (Z.ltb_lt 0 _)) by lia.
  rewrite u16_id by lia. destruct (Z.ltb_spec (data_size / 4096 - 1) 256); lia.
Qed.

Lemma channel_data_range phys :
  channel_data_size phys = 2088960 \/ channel_data_size phys = 1040384.
Proof. unfold channel_data_size, channel_map_size. repeat case_match; cbv; auto. Qed.

(** A queue's invariant only depends on its control block. *)
Lemma qwf_frame g m m' :
  qwf g m -> mem_bytes m' ->
  (forall x, g_queue g <= x < g_queue g + sizeof_HyperampShmQueue -> m' x = m x) ->
  qwf g m'.
Proof.
  intros [] Hb Hx. split; try done; by rewrite (qget_ext _ m' m).
Qed.

Definition channel_geometry (queue base phys : Z) : geometry :=
  {| g_queue := queue; g_base := base; g_cap := safe_queue_capacity (channel_data_size phys);
     g_bs := DEFAULT_BLOCK_SIZE |}.

(** The two rings of a channel mapped at [base]. *)
Definition rx_geometry (base phys : Z) : geometry :=
  channel_geometry base (base + 2 * SHM_QUEUE_SIZE) phys.
Definition tx_geometry (base phys : Z) : geometry :=
  channel_geometry (base + SHM_QUEUE_SIZE) (base + 2 * SHM_QUEUE_SIZE) phys.

Definition base_ok (base : Z) : Prop := 0 < base /\ base < 2 ^ 63.

Lemma channel_geometry_ok base phys :
  base_ok base ->
  geometry_ok (rx_geometry base phys) = true /\ geometry_ok (tx_geometry base phys) = true.
Proof.
  intros [Hb1 Hb2]. change (2 ^ 63) with 9223372036854775808 in Hb2.
  destruct (safe_capacity_fits (channel_data_size phys)) as [Hc Hf].
  { unfold DEFAULT_BLOCK_SIZE. destruct (channel_data_range phys); lia. }
  pose proof sizeof_queue as Hsz. pose proof (channel_data_range phys) as Hd.
  unfold DEFAULT_QUEUE_CAPACITY, DEFAULT_BLOCK_SIZE in *.
  unfold geometry_ok, rx_geometry, tx_geometry, channel_geometry, SHM_QUEUE_SIZE, DEFAULT_BLOCK_SIZE;
    cbn [g_queue g_base g_cap g_bs]; rewrite Hsz;
    rewrite !andb_true_iff, !orb_true_iff, !Z.ltb_lt, !Z.leb_le. split; split_and!; lia.
Qed.

Lemma init_creator_out m q c x :
  q <> 0 -> x < q \/ q + sizeof_HyperampShmQueue <= x ->
  hyperamp_queue_init_creator m q c x = m x.
Proof. intros. rewrite init_creator_fields by done. by apply fold_qset_out. Qed.

Lemma memset_bytes m p v n : is_byte v -> mem_bytes m -> mem_bytes (hyperamp_safe_memset m p v n).
Proof. intros Hv Hm x. rewrite memset_spec. case_match; [done|apply Hm]. Qed.

Lemma memset_out m p v n x : x < p -> hyperamp_safe_memset m p v n x = m x.
Proof. intros. rewrite memset_spec. by rewrite (proj2 (Z.leb_gt p x)). Qed.

(** The memory a creator leaves: TX control block, RX control block, zeroed data. *)
Definition created_memory (m : mem) (c : HyperampLinuxContext) (phys : Z) : mem :=
  let cap := safe_queue_capacity (channel_data_size phys) in
  hyperamp_safe_memset
    (hyperamp_queue_init_creator
       (hyperamp_queue_init_creator m (tx_queue c) (tx_config c phys cap))
       (rx_queue c) (rx_config c phys cap))
    (data_region c) 0 (Z.to_nat (channel_data_size phys)).

Lemma empty_frame g m m' :
  contents g m = [] ->
  (forall x, g_queue g <= x < g_queue g + sizeof_HyperampShmQueue -> m' x = m x) ->
  contents g m' = [].
Proof.
  intros Hc Hx. apply nil_length_inv. pose proof (contents_length g m) as Hl.
  rewrite Hc in Hl. rewrite contents_length. unfold qlength, qheader, qtail in *.
  rewrite !(qget_ext _ m' m) by done. done.
Qed.

Lemma created_agree_rx m c phys x :
  x < shm_base c + 2 * SHM_QUEUE_SIZE ->
  created_memory m (set_queues c) phys x =
  hyperamp_queue_init_creator
    (hyperamp_queue_init_creator m (tx_queue (set_queues c))
       (tx_config (set_queues c) phys (safe_queue_capacity (channel_data_size phys))))
    (rx_queue (set_queues c))
    (rx_config (set_queues c) phys (safe_queue_capacity (channel_data_size phys))) x.
Proof. intros. unfold created_memory. apply memset_out. exact H. Qed.

Lemma created_agree_tx m c phys x :
  0 < shm_base c -> shm_base c + SHM_QUEUE_SIZE <= x < shm_base c + 2 * SHM_QUEUE_SIZE ->
  created_memory m (set_queues c) phys x =
  hyperamp_queue_init_creator m (tx_queue (set_queues c))
    (tx_config (set_queues c) phys (safe_queue_capacity (channel_data_size phys))) x.
Proof.
  intros Hb Hx. rewrite created_agree_rx by lia. pose proof sizeof_queue.
  apply init_creator_out; cbn [rx_queue set_queues]; unfold SHM_QUEUE_SIZE in *; lia.
Qed.

Lemma channel_config_ok phys v a :
  config_ok {| cfg_map_mode := 0; cfg_capacity := safe_queue_capacity (channel_data_size phys);
               cfg_block_size := DEFAULT_BLOCK_SIZE; cfg_phy_addr := a; cfg_virt_addr := v |} = true.
Proof.
  destruct (safe_capacity_fits (channel_data_size phys)) as [Hcap _].
  { unfold DEFAULT_BLOCK_SIZE. destruct (channel_data_range phys); lia. }
  unfold config_ok, DEFAULT_BLOCK_SIZE, DEFAULT_QUEUE_CAPACITY in *.
  cbn [cfg_capacity cfg_block_size]. rewrite !andb_true_iff, !Z.ltb_lt. lia.
Qed.

Lemma created_queues m c phys :
  mem_bytes m -> base_ok (shm_base c) ->
  let m' := created_memory m (set_queues c) phys in
  (qwf (rx_geometry (shm_base c) phys) m' /\ contents (rx_geometry (shm_base c) phys) m' = []) /\
  (qwf (tx_geometry (shm_base c) phys) m' /\ contents (tx_geometry (shm_base c) phys) m' = []).
Proof.
  intros Hm Hb. destruct (channel_geometry_ok (shm_base c) phys Hb) as [Hgr Hgt].
  set (c' := set_queues c). set (cap := safe_queue_capacity (channel_data_size phys)).
  pose proof sizeof_queue as Hsz. destruct Hb as [Hb _].
  destruct (init_creator_qwf m (tx_queue c') (data_region c') (tx_config c' phys cap) Hm
              (channel_config_ok _ _ _) Hgt) as [Ht Htc].
  destruct (init_creator_qwf (hyperamp_queue_init_creator m (tx_queue c') (tx_config c' phys cap))
              (rx_queue c') (data_region c') (rx_config c' phys cap) (qwf_bytes _ _ Ht)
              (channel_config_ok _ _ _) Hgr) as [Hr Hrc].
  assert (mem_bytes (created_memory m c' phys)) as Hbytes.
  { apply memset_bytes; [unfold is_byte; lia|apply Hr]. }
  assert (forall x, shm_base c <= x < shm_base c + sizeof_HyperampShmQueue ->
            x < shm_base c + 2 * SHM_QUEUE_SIZE) as Hrx.
  { unfold SHM_QUEUE_SIZE. lia. }
  assert (forall x, shm_base c + SHM_QUEUE_SIZE <= x < shm_base c + SHM_QUEUE_SIZE + sizeof_HyperampShmQueue ->
            shm_base c + SHM_QUEUE_SIZE <= x < shm_base c + 2 * SHM_QUEUE_SIZE) as Htx.
  { unfold SHM_QUEUE_SIZE. lia. }
  split; split.
  - eapply qwf_frame; [exact Hr|exact Hbytes|]. intros x Hx. apply created_agree_rx. auto.
  - eapply empty_frame; [exact Hrc|]. intros x Hx. apply created_agree_rx. auto.
  - eapply qwf_frame; [exact Ht|exact Hbytes|]. intros x Hx. apply created_agree_tx; auto.
  - eapply empty_frame; [exact Htc|]. intros x Hx. apply created_agree_tx; auto.
Qed.

(** ** Properties *)

(** A creator's [hyperamp_linux_init] on an uninitialised context whose
    mapping succeeds always returns OK and leaves both rings of the selected
    channel well formed and empty: the computed capacity is positive, every
    slot of either ring lies inside the mapped data region, and the data
    region is zeroed. *)
Theorem linux_init_creates_channel env c m phys mapped :
  mem_bytes m -> initialized c = false -> phys <> 0 ->
  0 <= env_open env -> env_mmap env = Some mapped ->
  base_ok (mapped + Z.land phys (env_page_size env - 1)) ->
  exists c' m', hyperamp_linux_init env c m phys true = (PROCESS_OK, c', m') /\
  initialized c' = true /\ shm_base c' = mapped + Z.land phys (env_page_size env - 1) /\
  let rg := rx_geometry (shm_base c') phys in let tg := tx_geometry (shm_base c') phys in
  g_queue rg = rx_queue c' /\ g_queue tg = tx_queue c' /\
  g_base rg = data_region c' /\ g_base tg = data_region c' /\
  qwf rg m' /\ contents rg m' = [] /\ qwf tg m' /\ contents tg m' = [] /\
  (forall i, 0 <= i < g_cap rg ->
     data_region c' <= slot rg i /\ slot rg i + g_bs rg <= shm_base c' + channel_map_size phys) /\
  (forall x, data_region c' <= x < shm_base c' + channel_map_size phys -> m' x = 0).
Proof.
  intros Hm Hi Hp Ho Hmap Hb. unfold hyperamp_linux_init. rewrite Hi.
  rewrite (proj2 (Z.eqb_neq phys 0) Hp). unfold map_physical_memory. cbn [fd_mem set_fd].
  rewrite (proj2 (Z.ltb_ge (env_open env) 0) Ho), Hmap.
  set (cm := set_mapping _ _ _ _). assert (shm_base cm <> 0) as Hq by (destruct Hb; cbn; lia).
  assert (tx_queue (set_queues cm) <> 0) as Hqt by (destruct Hb; cbn; unfold SHM_QUEUE_SIZE; lia).
  rewrite !init_creator_ok by (done || apply channel_config_ok).
  destruct (created_queues m cm phys Hm Hb) as [[Hr Hrc] [Ht Htc]].
  do 2 eexists. split; [reflexivity|]. do 6 (split; [reflexivity|]).
  split; [exact Hr|]. split; [exact Hrc|]. split; [exact Ht|]. split; [exact Htc|]. split.
  - intros i Hir. destruct (slot_range _ i (qwf_geo _ _ Hr) Hir) as [Hs1 Hs2].
    destruct (safe_capacity_fits (channel_data_size phys)) as [_ Hf].
    { unfold DEFAULT_BLOCK_SIZE. destruct (channel_data_range phys); lia. }
    cbn in Hs1, Hs2, Hf |- *.
    unfold channel_data_size, SHM_DATA_REGION_OFFSET, SHM_QUEUE_SIZE, DEFAULT_BLOCK_SIZE in *. lia.
  - intros x Hx. rewrite memset_spec. unfold channel_data_size, SHM_DATA_REGION_OFFSET in *.
    cbn in Hx |- *. rewrite (proj2 (Z.leb_le _ _)) by lia. rewrite (proj2 (Z.ltb_lt _ _)); [done|].
    unfold SHM_QUEUE_SIZE in *. lia.
Qed.

Definition demo_env : MapEnv := {| env_open := 3; env_page_size := 4096; env_mmap := Some 0x10000 |}.

Lemma linux_init_creates_channel_witness :
  exists c' m', hyperamp_linux_init demo_env g_ctx_initial (fun _ => 7) SHM_CH1_PADDR true
                = (PROCESS_OK, c', m') /\
  initialized c' = true /\ contents (tx_geometry 0x10000 SHM_CH1_PADDR) m' = [].
Proof.
  destruct (linux_init_creates_channel demo_env g_ctx_initial (fun _ => 7) SHM_CH1_PADDR 0x10000)
    as (c' & m' & He & Hi & Hb & _ & _ & _ & _ & _ & _ & _ & Hc & _).
  - intros x. unfold is_byte. lia.
  - reflexivity.
  - discriminate.
  - vm_compute. discriminate.
  - reflexivity.
  - split; reflexivity.
  - exists c', m'. split; [exact He|]. split; [exact Hi|].
    change (0x10000 + Z.land SHM_CH1_PADDR (env_page_size demo_env - 1)) with 0x10000 in Hb.
    rewrite Hb in Hc. exact Hc.
Defined.

(** ** What one ring's operation does to the other

    The footprint of a successful enqueue is the control block of its queue
    and the slot at [header]. *)

Lemma enqueue_footprint g m z buf len m' x :
  qwf g m -> 0 < len <= g_bs g -> len <= blen buf ->
  hyperamp_queue_enqueue m (g_queue g) z (Some buf) len (g_base g) = Done (PROCESS_OK, m') ->
  x < g_queue g \/ g_queue g + sizeof_HyperampShmQueue <= x ->
  x < slot g (qheader g m) \/ slot g (qheader g m) + g_bs g <= x ->
  m' x = m x.
Proof.
  intros Hw Hl Hlen He Hq Hs. geo g Hw. rewrite enqueue_ready in He by done. outcome_inv.
  pose proof (fun f => lock_frame m (g_queue g) z r f ltac:(lia) Ho) as Hf.
  cbn zeta in Hk. destruct (next_index _ _ =? _); [discriminate Hk|].
  outcome_inv. unfold hyperamp_safe_memcpy_in in Ho0.
  outcome_inv. subst. pose proof (bread_length _ _ _ _ Ho1) as Hbl.
  rewrite unlock_out, !qset_out by done.
  rewrite mwrite_out; [apply (lock_out m (g_queue g) z); [lia|done|done]|].
  rewrite !Hf by done. rewrite (qwf_bs g m Hw), (slot_addr_slot g m Hw) by apply Hw.
  fold (qheader g m). lia.
Qed.

(** The front block of [contents] changes, the others do not. *)
Lemma contents_front g m m' b s :
  qwf g m -> contents g m = b :: s ->
  qheader g m' = qheader g m -> qtail g m' = qtail g m ->
  (forall i, 0 <= i < g_cap g -> i <> qtail g m -> ring_block g m' i = ring_block g m i) ->
  contents g m' = ring_block g m' (qtail g m) :: s /\ b = ring_block g m (qtail g m).
Proof.
  intros Hw Hc Hh Ht Hb. geo g Hw. pose proof (qlength_range g m Hw) as Hr.
  pose proof (qwf_tail g m Hw) as Htr. fold (qtail g m) in Htr.
  assert (ring_index g (qtail g m) 0 = qtail g m) as Hz.
  { rewrite ring_index_cases by lia. rewrite (proj2 (Z.ltb_lt _ _)) by lia. lia. }
  pose proof (contents_length g m) as Hl. rewrite Hc in Hl. cbn in Hl.
  revert Hc. unfold contents, qlength. rewrite Hh, Ht. fold (qlength g m).
  destruct (Z.to_nat (qlength g m)) as [|n] eqn:En; [lia|]. cbn [seq map].
  change (Z.of_nat 0) with 0. rewrite Hz. intros [= <- <-]. split; [|done]. f_equal.
  apply map_ext_in. intros k Hk%in_seq. apply Hb; [apply ring_index_range; lia|].
  rewrite ring_index_cases by lia. destruct (Z.ltb_spec (qtail g m + Z.of_nat k) (g_cap g)); lia.
Qed.

(** C38. Both rings of a channel store their blocks in the same data region:
    when the producer index of TX equals the consumer index of RX, sending a
    message on TX replaces the bytes of the oldest message still pending on
    RX, and the receiver is not told. *)
Theorem tx_enqueue_overwrites_rx base phys m z buf len b s :
  base_ok base ->
  let rg := rx_geometry base phys in let tg := tx_geometry base phys in
  qwf rg m -> qwf tg m -> contents rg m = b :: s ->
  qheader tg m = qtail rg m -> qlength tg m < g_cap tg - 1 ->
  0 < len <= g_bs tg -> len <= blen buf -> Forall is_byte buf ->
  exists m', hyperamp_queue_enqueue m (g_queue tg) z (Some buf) len (g_base tg)
             = Done (PROCESS_OK, m') /\
  contents rg m' = (take (Z.to_nat len) buf ++ drop (Z.to_nat len) b) :: s.
Proof.
  intros Hbase rg tg Hr Ht Hc Heq Hroom Hl Hlen Hbuf.
  destruct (enqueue_room_slot tg m z buf len) as (m' & He & Hw' & Hc' & Hst); try done.
  exists m'. split; [exact He|]. pose proof sizeof_queue as Hsz.
  pose proof (fun x => enqueue_footprint tg m z buf len m' x Ht Hl Hlen He) as Hfoot.
  destruct Hbase as [Hb1 _].
  assert (g_queue rg = base /\ g_queue tg = base + 4096 /\ g_base rg = base + 8192 /\
          g_base tg = base + 8192 /\ g_bs rg = 4096 /\ g_bs tg = 4096)
    as (Eq1 & Eq2 & Eb1 & Eb2 & Es1 & Es2) by done.
  assert (forall f, qget f m' (g_queue rg) = qget f m (g_queue rg)) as Hctl.
  { intros f. apply qget_ext. intros x Hx.
    destruct (slot_range tg (qheader tg m) (qwf_geo _ _ Ht) (qwf_header _ _ Ht)) as [Hs _].
    apply Hfoot; lia. }
  destruct (contents_front rg m m' b s) as [-> ->]; try done; try apply Hctl.
  - intros i Hi Hne. apply block_ext; [|lia]. intros x Hx.
    destruct (slots_apart tg i (qheader tg m) (qwf_geo _ _ Ht)) as [Ha|Ha]; [congruence|..];
      destruct (slot_range rg i (qwf_geo _ _ Hr) Hi) as [Hs _];
      change (slot tg i) with (slot rg i) in Ha; apply Hfoot; lia.
  - assert (forall m0 i, ring_block rg m0 i = ring_block tg m0 i) as Hsame.
    { intros. unfold ring_block, slot. by rewrite Eb1, Eb2, Es1, Es2. }
    rewrite !Hsame, <- Heq, Hst. reflexivity.
Qed.

(** A channel at 0x10000 with one (zero) block pending on RX. *)
Definition demo_channel : mem :=
  let c := set_queues (set_mapping g_ctx_initial 0x10000 SHM_CH1_TOTAL_SIZE SHM_CH1_PADDR) in
  let cap := safe_queue_capacity (channel_data_size SHM_CH1_PADDR) in
  let m := hyperamp_queue_init_creator (fun _ => 0) (tx_queue c) (tx_config c SHM_CH1_PADDR cap) in
  let m := hyperamp_queue_init_creator m (rx_queue c) (rx_config c SHM_CH1_PADDR cap) in
  qset F_header m (rx_queue c) 1.

Lemma demo_channel_bytes : mem_bytes demo_channel.
Proof.
  apply qset_bytes. rewrite !init_creator_fields by (vm_compute; discriminate).
  do 2 apply fold_qset_bytes. intros x. unfold is_byte. lia.
Qed.

Lemma demo_channel_qwf :
  qwf (rx_geometry 0x10000 SHM_CH1_PADDR) demo_channel /\
  qwf (tx_geometry 0x10000 SHM_CH1_PADDR) demo_channel.
Proof.
  split; (split; [| | | | | |apply demo_channel_bytes]; try (vm_compute; reflexivity));
    (split; [vm_compute; discriminate|vm_compute; reflexivity]).
Qed.

Lemma tx_enqueue_overwrites_rx_witness :
  exists m', hyperamp_queue_enqueue demo_channel 0x11000 0 (Some [1; 2; 3]) 3 0x12000
             = Done (PROCESS_OK, m') /\
  contents (rx_geometry 0x10000 SHM_CH1_PADDR) demo_channel = [replicate 4096 0] /\
  contents (rx_geometry 0x10000 SHM_CH1_PADDR) m' = [[1; 2; 3] ++ drop 3 (replicate 4096 0)].
Proof.
  destruct (tx_enqueue_overwrites_rx 0x10000 SHM_CH1_PADDR demo_channel 0 [1; 2; 3] 3
              (replicate 4096 0) []) as (m' & He & Hc).
  - split; reflexivity.
  - apply demo_channel_qwf.
  - apply demo_channel_qwf.
  - vm_compute. reflexivity.
  - vm_compute. reflexivity.
  - vm_compute. reflexivity.
  - split; [reflexivity|vm_compute; discriminate].
  - vm_compute. discriminate.
  - by apply bytesb_ok.
  - exists m'. split; [exact He|]. split; [vm_compute; reflexivity|]. exact Hc.
Defined.
