(* ===== verification/Spinlock.v ===== *)
(** * Spinlock: the lock of a shared queue under interleaving

    [hyperamp_spinlock_lock/trylock/unlock] of src/hyperamp_shm_queue.c, one
    step per memory access, for any number of zones.  On aarch64 the lock word
    is taken with LDAXR/STLXR: a load-exclusive arms the zone's exclusive
    monitor, every other zone's store to the word disarms it, and a
    store-exclusive succeeds only while it is armed (it may also fail
    spuriously).  The fallback of the other targets tests and sets the word
    with plain accesses.  Accesses are sequentially consistent. *)

From S2P Require Import Prelude Bytes Mem HyperampQueue HyperampQueueLemmas.
From stdpp Require Import base list numbers option functions.
From Stdlib Require Import ZArith Lia.
#[local] Open Scope Z_scope.

(** ** The lock word and its companions *)

Record HyperampSpinlock := {
  lock_value : Z; owner_zone_id : Z; lock_count : Z; contention_count : Z }.

Definition set_lock_value (l : HyperampSpinlock) v : HyperampSpinlock :=
  {| lock_value := v; owner_zone_id := owner_zone_id l; lock_count := lock_count l;
     contention_count := contention_count l |}.
Definition set_owner (l : HyperampSpinlock) v : HyperampSpinlock :=
  {| lock_value := lock_value l; owner_zone_id := v; lock_count := lock_count l;
     contention_count := contention_count l |}.
Definition set_count (l : HyperampSpinlock) v : HyperampSpinlock :=
  {| lock_value := lock_value l; owner_zone_id := owner_zone_id l; lock_count := v;
     contention_count := contention_count l |}.
Definition set_contention (l : HyperampSpinlock) v : HyperampSpinlock :=
  {| lock_value := lock_value l; owner_zone_id := owner_zone_id l; lock_count := lock_count l;
     contention_count := v |}.

Definition lock_initial : HyperampSpinlock :=
  {| lock_value := 0; owner_zone_id := 0; lock_count := 0; contention_count := 0 |}.

(** What a zone does next: enter a call, or run its current instruction;
    [fails] is the spurious outcome of a store-exclusive. *)
Inductive action := CallLock | CallTrylock | CallUnlock | Run (fails : bool).

(** ** aarch64 *)

Module arm.

(** Program points.  [try] distinguishes trylock from lock; [Test1 try v] has
    [tmp = v] after LDAXR, [Test2 try r] has [tmp = r] after STLXR. *)
Inductive pc :=
  | Idle | Ldaxr (try : bool) | Test1 (try : bool) (v : Z) | Stlxr (try : bool)
  | Test2 (try : bool) (r : Z) | SetOwner | LoadCount | StoreCount (v : Z)
  | Critical | ClearOwner | Stlr.

Record sys := { lk : HyperampSpinlock; mon : nat -> bool; at_pc : nat -> pc }.

Definition goto (s : sys) (z : nat) (p : pc) : sys :=
  {| lk := lk s; mon := mon s; at_pc := <[z := p]> (at_pc s) |}.
Definition with_lk (s : sys) (l : HyperampSpinlock) : sys :=
  {| lk := l; mon := mon s; at_pc := at_pc s |}.
Definition with_mon (s : sys) (f : nat -> bool) : sys :=
  {| lk := lk s; mon := f; at_pc := at_pc s |}.

(** A store to the lock word disarms every other monitor. *)
Definition store_word (s : sys) (v : Z) : sys :=
  with_mon (with_lk s (set_lock_value (lk s) v)) (fun _ => false).

Definition step (zone_id : nat -> Z) (z : nat) (a : action) (s : sys) : option sys :=
  match a, at_pc s z with
  | CallLock, Idle => Some (goto s z (Ldaxr false))
  | CallTrylock, Idle => Some (goto s z (Ldaxr true))
  | CallUnlock, Critical => Some (goto s z ClearOwner)
  | Run _, Ldaxr try =>
      Some (goto (with_mon s (<[z := true]> (mon s))) z (Test1 try (lock_value (lk s))))
  | Run _, Test1 try v =>
      if v =? 0 then Some (goto s z (Stlxr try))
      else Some (goto s z (if try then Idle else Ldaxr false))
  | Run fails, Stlxr try =>
      if mon s z && negb fails then Some (goto (store_word s 1) z (Test2 try 0))
      else Some (goto (with_mon s (<[z := false]> (mon s))) z (Test2 try 1))
  | Run _, Test2 try r =>
      if r =? 0 then Some (goto s z SetOwner)
      else Some (goto s z (if try then Idle else Ldaxr false))
  | Run _, SetOwner => Some (goto (with_lk s (set_owner (lk s) (zone_id z))) z LoadCount)
  | Run _, LoadCount => Some (goto s z (StoreCount (lock_count (lk s))))
  | Run _, StoreCount v => Some (goto (with_lk s (set_count (lk s) (u32 (v + 1)))) z Critical)
  | Run _, ClearOwner => Some (goto (with_lk s (set_owner (lk s) 0)) z Stlr)
  | Run _, Stlr => Some (goto (store_word s 0) z Idle)
  | _, _ => None
  end.

Fixpoint run (zone_id : nat -> Z) (sched : list (nat * action)) (s : sys) : option sys :=
  match sched with
  | [] => Some s
  | (z, a) :: sched' => s' ← step zone_id z a s; run zone_id sched' s'
  end.

Definition start (l : HyperampSpinlock) : sys :=
  {| lk := l; mon := fun _ => false; at_pc := fun _ => Idle |}.

Inductive reachable (zone_id : nat -> Z) (l : HyperampSpinlock) : sys -> Prop :=
  | reach_start : reachable zone_id l (start l)
  | reach_step s z a s' :
      reachable zone_id l s -> step zone_id z a s = Some s' -> reachable zone_id l s'.

(** The program points between a successful STLXR and the STLR. *)
Definition holds_lock (p : pc) : bool :=
  match p with
  | Test2 _ r => r =? 0
  | SetOwner | LoadCount | StoreCount _ | Critical | ClearOwner | Stlr => true
  | _ => false
  end.

Definition owner_set (p : pc) : bool :=
  match p with LoadCount | StoreCount _ | Critical | ClearOwner => true | _ => false end.

(** What an armed monitor guarantees about the value just loaded. *)
Definition armed_ok (s : sys) (z : nat) : Prop :=
  mon s z = true ->
  match at_pc s z with
  | Test1 _ v => lock_value (lk s) = v
  | Stlxr _ => lock_value (lk s) = 0
  | _ => True
  end.

Record inv (zone_id : nat -> Z) (s : sys) : Prop := {
  inv_word : lock_value (lk s) = 0 \/ lock_value (lk s) = 1;
  inv_free : lock_value (lk s) = 0 -> forall z, holds_lock (at_pc s z) = false;
  inv_held : lock_value (lk s) = 1 -> exists z, holds_lock (at_pc s z) = true;
  inv_excl : forall z z', holds_lock (at_pc s z) = true -> holds_lock (at_pc s z') = true -> z = z';
  inv_owner : forall z, owner_set (at_pc s z) = true -> owner_zone_id (lk s) = zone_id z;
  inv_count : forall z v, at_pc s z = StoreCount v -> lock_count (lk s) = v;
  inv_armed : forall z, armed_ok s z }.

Lemma owner_set_holds p : owner_set p = true -> holds_lock p = true.
Proof. by destruct p. Qed.

(** A step that keeps the lock word: only the mover's point, the companions
    (if the mover holds the lock) and monitors change. *)
Lemma inv_move zid s z p l f :
  inv zid s -> lock_value l = lock_value (lk s) -> holds_lock p = holds_lock (at_pc s z) ->
  owner_zone_id l = owner_zone_id (lk s) \/ holds_lock p = true ->
  (owner_set p = true -> owner_zone_id l = zid z) ->
  lock_count l = lock_count (lk s) \/ holds_lock p = true ->
  (forall v, p = StoreCount v -> lock_count l = v) ->
  (forall x, x <> z -> f x = true -> mon s x = true) ->
  armed_ok {| lk := l; mon := f; at_pc := <[z := p]> (at_pc s) |} z ->
  inv zid {| lk := l; mon := f; at_pc := <[z := p]> (at_pc s) |}.
Proof.
  intros [Hw Hfr Hh He Ho Hc Ha] Hl Hp Hown Hown' Hcnt Hcnt' Hf Hz.
  assert (forall x, holds_lock (<[z := p]> (at_pc s) x) = holds_lock (at_pc s x)) as Hsame.
  { intros x. destruct (decide (x = z)) as [->|Hne].
    - by rewrite fn_lookup_insert.
    - by rewrite fn_lookup_insert_ne. }
  split; cbn; rewrite ?Hl; try done.
  - intros H0 x. rewrite Hsame. auto.
  - intros H1. destruct (Hh H1) as [x Hx]. exists x. by rewrite Hsame.
  - intros x y. rewrite !Hsame. apply He.
  - intros x. destruct (decide (x = z)) as [->|Hne]; [by rewrite fn_lookup_insert|].
    rewrite fn_lookup_insert_ne by done. intros Hx. destruct Hown as [->|Hown]; [auto|].
    apply owner_set_holds in Hx. rewrite Hp in Hown. by destruct Hne; apply He.
  - intros x v. destruct (decide (x = z)) as [->|Hne]; [rewrite fn_lookup_insert; auto|].
    rewrite fn_lookup_insert_ne by done. intros Hx. destruct Hcnt as [->|Hcnt]; [eauto|].
    rewrite Hp in Hcnt. destruct Hne. apply He; [by rewrite Hx|done].
  - intros x. destruct (decide (x = z)) as [->|Hne]; [done|].
    intros Hm. specialize (Ha x (Hf x Hne Hm)). cbn. rewrite Hl.
    by rewrite fn_lookup_insert_ne.
Qed.

(** The two stores to the lock word. *)
Lemma inv_acquire zid s z try :
  inv zid s -> at_pc s z = Stlxr try -> mon s z = true ->
  inv zid (goto (store_word s 1) z (Test2 try 0)).
Proof.
  intros [Hw Hfr Hh He Ho Hc Ha] Hz Hm.
  assert (lock_value (lk s) = 0) as H0 by (specialize (Ha z Hm); by rewrite Hz in Ha).
  specialize (Hfr H0).
  assert (forall x, x <> z -> holds_lock (<[z := Test2 try 0]> (at_pc s) x) = false) as Hn.
  { intros x Hx. by rewrite fn_lookup_insert_ne. }
  split; cbn; auto; try (intros; lia).
  - intros _. exists z. by rewrite fn_lookup_insert.
  - intros x y Hx Hy. destruct (decide (x = z)) as [->|Hx']; [|by rewrite Hn in Hx].
    destruct (decide (y = z)) as [->|Hy']; [done|by rewrite Hn in Hy].
  - intros x Hx. destruct (decide (x = z)) as [->|Hx']; [by rewrite fn_lookup_insert in Hx|].
    apply owner_set_holds in Hx. by rewrite Hn in Hx.
  - intros x v Hx. destruct (decide (x = z)) as [->|Hx']; [by rewrite fn_lookup_insert in Hx|].
    specialize (Hn x Hx'). by rewrite Hx in Hn.
  - intros x. by unfold armed_ok.
Qed.

Lemma inv_release zid s z :
  inv zid s -> at_pc s z = Stlr -> inv zid (goto (store_word s 0) z Idle).
Proof.
  intros [Hw Hfr Hh He Ho Hc Ha] Hz.
  assert (forall x, holds_lock (<[z := Idle]> (at_pc s) x) = false) as Hn.
  { intros x. destruct (decide (x = z)) as [->|Hx]; [by rewrite fn_lookup_insert|].
    rewrite fn_lookup_insert_ne by done. destruct (holds_lock (at_pc s x)) eqn:E; [|done].
    destruct Hx. apply He; [done|by rewrite Hz]. }
  split; cbn; auto; try (intros; lia).
  - intros x y Hx. by rewrite Hn in Hx.
  - intros x Hx%owner_set_holds. by rewrite Hn in Hx.
  - intros x v Hx. specialize (Hn x). by rewrite Hx in Hn.
  - intros x. by unfold armed_ok.
Qed.

Lemma inv_step zid z a s s' : inv zid s -> step zid z a s = Some s' -> inv zid s'.
Proof.
  intros Hi. pose proof (inv_owner _ _ Hi z) as Ho. pose proof (inv_count _ _ Hi z) as Hc.
  pose proof (inv_armed _ _ Hi z) as Ha. unfold armed_ok in Ha. unfold step.
  destruct a, (at_pc s z) eqn:E; try discriminate; repeat case_match; try discriminate;
    intros [= <-]; try (by apply inv_release);
    try (apply inv_acquire; [done|done|by destruct (mon s z)]);
    apply (inv_move _ s); rewrite ?E; cbn; auto; try congruence.
  all: try (intros x Hx; rewrite fn_lookup_insert_ne by done; done).
  all: unfold armed_ok; cbn; rewrite ?fn_lookup_insert; try done.
  intros Hm. rewrite (Ha Hm). by apply Z.eqb_eq.
Qed.

Lemma inv_start zid l : lock_value l = 0 -> inv zid (start l).
Proof. intros H. split; cbn; auto; try done; try (intros; lia). Qed.

Lemma reachable_inv zid l s : lock_value l = 0 -> reachable zid l s -> inv zid s.
Proof. intros Hl. induction 1; eauto using inv_start, inv_step. Qed.

(** C16. Mutual exclusion of the aarch64 lock: in every state reachable from a
    free lock, by any interleaving of lock, trylock and unlock calls of any
    zones and with any spurious store-exclusive failures, at most one zone is
    between its successful store-exclusive and its release; inside the
    critical section the word is 1 and [owner_zone_id] names the holder; and a
    word that is not 0 has a holder. *)
Theorem lock_mutual_exclusion zid l s :
  lock_value l = 0 -> reachable zid l s ->
  (forall z z', holds_lock (at_pc s z) = true -> holds_lock (at_pc s z') = true -> z = z') /\
  (forall z, at_pc s z = Critical -> lock_value (lk s) = 1 /\ owner_zone_id (lk s) = zid z) /\
  (lock_value (lk s) <> 0 -> exists z, holds_lock (at_pc s z) = true).
Proof.
  intros Hl Hr. destruct (reachable_inv zid l s Hl Hr) as [Hw Hf Hh He Ho _ _].
  split; [exact He|]. split.
  - intros z Hz. split; [|apply Ho; by rewrite Hz].
    destruct Hw as [Hw|]; [|done]. specialize (Hf Hw z). by rewrite Hz in Hf.
  - intros Hn. apply Hh. by destruct Hw.
Qed.

Lemma run_reachable zid l sched s s' :
  reachable zid l s -> run zid sched s = Some s' -> reachable zid l s'.
Proof.
  revert s. induction sched as [|[z a] sched IH]; cbn; intros s Hr H; [by simplify_eq|].
  destruct (step zid z a s) as [s1|] eqn:E; [|discriminate]. cbn in H.
  eapply IH; [|exact H]. by eapply reach_step.
Qed.

(** Zone 1 loads the word, zone 2 takes the lock, zone 1's store-exclusive
    fails, and zone 2 enters the critical section. *)
Definition contended : list (nat * action) :=
  [(1%nat, CallLock); (2%nat, CallLock); (1%nat, Run false); (1%nat, Run false);
   (2%nat, Run false); (2%nat, Run false); (2%nat, Run false); (1%nat, Run false);
   (2%nat, Run false); (2%nat, Run false); (2%nat, Run false); (2%nat, Run false)].

Lemma lock_mutual_exclusion_witness :
  exists s, run Z.of_nat contended (start lock_initial) = Some s /\
  at_pc s 1%nat = Test2 false 1 /\ at_pc s 2%nat = Critical /\ owner_zone_id (lk s) = 2.
Proof.
  destruct (run Z.of_nat contended (start lock_initial)) as [s|] eqn:E;
    [|vm_compute in E; discriminate].
  destruct (lock_mutual_exclusion Z.of_nat lock_initial s eq_refl) as (_ & Ho & _).
  { eapply run_reachable; [apply reach_start|exact E]. }
  exists s. split; [done|].
  assert (at_pc s 1%nat = Test2 false 1 /\ at_pc s 2%nat = Critical) as [H1 H2].
  { vm_compute in E. injection E as <-. split; reflexivity. }
  split; [done|]. split; [done|]. exact (proj2 (Ho 2%nat H2)).
Defined.

(** ** The sequential model is the solo run *)

Definition lock_of (m : mem) (q : Z) : HyperampSpinlock :=
  {| lock_value := qget F_lock_value m q; owner_zone_id := qget F_owner_zone_id m q;
     lock_count := qget F_lock_count m q; contention_count := qget F_contention_count m q |}.

(** One call run without interruption and without spurious failures. *)
Definition solo (z : nat) (call : action) (n : nat) : list (nat * action) :=
  (z, call) :: replicate n (z, Run false).

Lemma run_step zid z a sched s s1 :
  step zid z a s = Some s1 -> run zid ((z, a) :: sched) s = run zid sched s1.
Proof. intros H. cbn [run]. by rewrite H. Qed.

(** Run the mover's current instruction. *)
Ltac solo_step :=
  erewrite run_step; [|unfold step; cbn; rewrite !fn_lookup_insert; cbn; reflexivity].

Definition acquired (l : HyperampSpinlock) (zone : Z) : HyperampSpinlock :=
  {| lock_value := 1; owner_zone_id := zone; lock_count := u32 (lock_count l + 1);
     contention_count := contention_count l |}.

Lemma solo_acquires zid z s call try :
  (call, try) = (CallLock, false) \/ (call, try) = (CallTrylock, true) ->
  at_pc s z = Idle -> lock_value (lk s) = 0 ->
  exists s', run zid (solo z call 7) s = Some s' /\ at_pc s' z = Critical /\
  lk s' = acquired (lk s) (zid z).
Proof.
  intros Hcall Hp Hv. unfold solo. cbn [replicate].
  rewrite (run_step _ _ _ _ _ (goto s z (Ldaxr try))).
  2:{ unfold step. rewrite Hp. by destruct Hcall as [[= -> ->]|[= -> ->]]. }
  solo_step. cbn [lk goto]. rewrite Hv. do 6 solo_step.
  eexists. split; [reflexivity|]. cbn. rewrite fn_lookup_insert. by split.
Qed.

Lemma solo_releases zid z s :
  at_pc s z = Critical ->
  exists s', run zid (solo z CallUnlock 2) s = Some s' /\ at_pc s' z = Idle /\
  lk s' = set_lock_value (set_owner (lk s) 0) 0.
Proof.
  intros Hp. unfold solo. cbn [replicate].
  rewrite (run_step _ _ _ _ _ (goto s z ClearOwner)) by (unfold step; by rewrite Hp).
  do 2 solo_step. eexists. split; [reflexivity|]. cbn. by rewrite fn_lookup_insert.
Qed.

Definition waiting (s : sys) (z : nat) : Prop :=
  at_pc s z = Ldaxr false \/ exists v, at_pc s z = Test1 false v /\ v <> 0.

Lemma waiting_run zid z n s :
  lock_value (lk s) <> 0 -> waiting s z ->
  exists s', run zid (replicate n (z, Run false)) s = Some s' /\ waiting s' z /\ lk s' = lk s.
Proof.
  revert s. induction n as [|n IH]; intros s Hv Hw; [by exists s|].
  cbn [replicate]. destruct Hw as [Hw|(v & Hw & Hne)].
  - erewrite run_step by (unfold step; rewrite Hw; reflexivity).
    apply (IH (goto (with_mon s (<[z := true]> (mon s))) z (Test1 false (lock_value (lk s))))); [done|].
    right. eexists. cbn. rewrite fn_lookup_insert. eauto.
  - erewrite run_step
      by (unfold step; rewrite Hw, (proj2 (Z.eqb_neq v 0) Hne); reflexivity).
    apply (IH (goto s z (Ldaxr false))); [done|]. left. cbn. by rewrite fn_lookup_insert.
Qed.

Lemma solo_waits zid z n s :
  at_pc s z = Idle -> lock_value (lk s) <> 0 ->
  exists s', run zid (solo z CallLock n) s = Some s' /\ waiting s' z /\ lk s' = lk s.
Proof.
  intros Hp Hv. unfold solo.
  rewrite (run_step _ _ _ _ _ (goto s z (Ldaxr false))) by (unfold step; by rewrite Hp).
  apply (waiting_run zid z n (goto s z (Ldaxr false))); [done|]. left. cbn. by rewrite fn_lookup_insert.
Qed.

Lemma lock_of_acquired m q z :
  mem_bytes m -> 0 <= z < 4294967296 ->
  lock_of (qset F_lock_count (qset F_owner_zone_id (qset F_lock_value m q 1) q z) q
             (u32 (qget F_lock_count m q + 1))) q = acquired (lock_of m q) z.
Proof.
  intros Hb Hz. unfold lock_of, acquired. cbn. f_equal; qfields; try done.
  rewrite qget_qset_eq; [done|]. apply u32_range.
Qed.

(** The sequential lock model used by the queue operations is the solo
    run of the instruction-level one.  With the word free, a lock call that
    runs uninterrupted reaches the critical section in 7 instructions and
    leaves exactly the lock fields of [hyperamp_spinlock_lock]; an unlock call
    leaves those of [hyperamp_spinlock_unlock]; with the word taken, the call
    is still in its wait loop after any number of instructions, which is the
    outcome [Spin]. *)
Theorem sequential_lock_is_solo_run m q zid z s :
  q <> 0 -> mem_bytes m -> 0 <= zid z < 4294967296 -> lk s = lock_of m q ->
  match hyperamp_spinlock_lock m q (zid z) with
  | Done m' =>
      at_pc s z = Idle ->
      exists s', run zid (solo z CallLock 7) s = Some s' /\ at_pc s' z = Critical /\
                 lk s' = lock_of m' q
  | Spin =>
      at_pc s z = Idle ->
      forall n, exists s', run zid (solo z CallLock n) s = Some s' /\ waiting s' z /\ lk s' = lk s
  | Fault _ => False
  end /\
  (at_pc s z = Critical ->
   exists s', run zid (solo z CallUnlock 2) s = Some s' /\ at_pc s' z = Idle /\
              lk s' = lock_of (hyperamp_spinlock_unlock m q) q).
Proof.
  intros Hq Hb Hz Hl. unfold hyperamp_spinlock_lock. rewrite (proj2 (Z.eqb_neq q 0) Hq). split.
  - destruct (Z.eqb_spec (qget F_lock_value m q) 0) as [Hv|Hv]; intros Hp.
    + destruct (solo_acquires zid z s CallLock false) as (s' & Hr & Hc & Hlk);
        [by left|done|by rewrite Hl|].
      exists s'. split; [done|]. split; [done|]. cbn zeta.
      rewrite Hlk, Hl, <- lock_of_acquired by done. by rewrite !qget_qset_ne by done.
    + intros n. apply solo_waits; [done|by rewrite Hl].
  - intros Hp. destruct (solo_releases zid z s Hp) as (s' & Hr & Hc & Hlk).
    exists s'. split; [done|]. split; [done|]. rewrite Hlk, Hl.
    unfold hyperamp_spinlock_unlock. rewrite (proj2 (Z.eqb_neq q 0) Hq).
    unfold lock_of, set_lock_value, set_owner. cbn. f_equal; by qfields.
Qed.

Lemma sequential_lock_is_solo_run_witness :
  exists m', hyperamp_spinlock_lock (fun _ => 0) 4096 1 = Done m' /\
  exists s', run Z.of_nat (solo 1 CallLock 7) (start (lock_of (fun _ => 0) 4096)) = Some s' /\
  at_pc s' 1%nat = Critical /\ lk s' = lock_of m' 4096.
Proof.
  destruct (sequential_lock_is_solo_run (fun _ => 0) 4096 Z.of_nat 1
              (start (lock_of (fun _ => 0) 4096))) as [H _].
  - discriminate.
  - intros x. unfold is_byte. lia.
  - lia.
  - reflexivity.
  - destruct (hyperamp_spinlock_lock (fun _ => 0) 4096 (Z.of_nat 1)) as [m'| |] eqn:E.
    + exists m'. split; [exact E|]. by apply H.
    + vm_compute in E. discriminate.
    + done.
Defined.

End arm.

(** ** The fallback of the other targets *)

Module soft.

Inductive pc :=
  | Idle | LoadWord (try : bool) | StoreWord (try : bool) | Reload (try : bool)
  | LoadContention | StoreContention (v : Z)
  | SetOwner | LoadCount | StoreCount (v : Z) | Critical | ClearOwner | StoreZero.

Record sys := { lk : HyperampSpinlock; at_pc : nat -> pc }.

Definition move (s : sys) (z : nat) (l : HyperampSpinlock) (p : pc) : sys :=
  {| lk := l; at_pc := <[z := p]> (at_pc s) |}.

(** Where a test that found the lock taken goes: trylock returns AGAIN, lock
    counts the contention and loops. *)
Definition taken (try : bool) : pc := if try then Idle else LoadContention.

Definition step (zone_id : nat -> Z) (z : nat) (a : action) (s : sys) : option sys :=
  match a, at_pc s z with
  | CallLock, Idle => Some (move s z (lk s) (LoadWord false))
  | CallTrylock, Idle => Some (move s z (lk s) (LoadWord true))
  | CallUnlock, Critical => Some (move s z (lk s) ClearOwner)
  | Run _, LoadWord try =>
      Some (move s z (lk s) (if lock_value (lk s) =? 0 then StoreWord try else taken try))
  | Run _, StoreWord try => Some (move s z (set_lock_value (lk s) 1) (Reload try))
  | Run _, Reload try =>
      Some (move s z (lk s) (if lock_value (lk s) =? 1 then SetOwner else taken try))
  | Run _, LoadContention => Some (move s z (lk s) (StoreContention (contention_count (lk s))))
  | Run _, StoreContention v => Some (move s z (set_contention (lk s) (u32 (v + 1))) (LoadWord false))
  | Run _, SetOwner => Some (move s z (set_owner (lk s) (zone_id z)) LoadCount)
  | Run _, LoadCount => Some (move s z (lk s) (StoreCount (lock_count (lk s))))
  | Run _, StoreCount v => Some (move s z (set_count (lk s) (u32 (v + 1))) Critical)
  | Run _, ClearOwner => Some (move s z (set_owner (lk s) 0) StoreZero)
  | Run _, StoreZero => Some (move s z (set_lock_value (lk s) 0) Idle)
  | _, _ => None
  end.

Fixpoint run (zone_id : nat -> Z) (sched : list (nat * action)) (s : sys) : option sys :=
  match sched with
  | [] => Some s
  | (z, a) :: sched' => s' ← step zone_id z a s; run zone_id sched' s'
  end.

Definition start (l : HyperampSpinlock) : sys := {| lk := l; at_pc := fun _ => Idle |}.

(** Both zones read the word before either writes it. *)
Definition race : list (nat * action) :=
  [(0%nat, CallLock); (1%nat, CallLock); (0%nat, Run false); (1%nat, Run false)]
  ++ replicate 5 (0%nat, Run false) ++ replicate 5 (1%nat, Run false).

(** The fallback lock does not exclude: there is an interleaving of two
    lock calls on a free lock after which both zones are in the critical
    section, the first one no longer recorded as owner; when the second then
    unlocks, the word is 0 while the first is still inside. *)
Theorem fallback_lock_admits_two :
  match run Z.of_nat race (start lock_initial) with
  | Some s =>
      at_pc s 0%nat = Critical /\ at_pc s 1%nat = Critical /\ owner_zone_id (lk s) = 1 /\
      match run Z.of_nat ((1%nat, CallUnlock) :: replicate 2 (1%nat, Run false)) s with
      | Some s' => at_pc s' 0%nat = Critical /\ lock_value (lk s') = 0
      | None => False
      end
  | None => False
  end.
Proof. vm_compute. auto. Qed.

End soft.
