(* ===== verification/SharedMemIO.v ===== *)
(** * SharedMemIO: the pool queue of src/shared_mem_io.c

    The control block is a malloc'd struct ([SharedMemoryPoolQueue]) private to
    the process; its blocks are in byte memory.  The pool, its lock and its
    allocator are the placeholders of the source.  Results of malloc are
    arguments. *)

From S2P Require Import Prelude Bytes Mem.
From stdpp Require Import base list numbers option.
From Stdlib Require Import ZArith Lia.
#[local] Open Scope Z_scope.

(** ** Data *)

Definition ERROR_SHARED_MEM_ADDR : Z := 2 ^ 64 - 1.
Definition MAX_MAP_TABLE_ENTRY_COUNT : Z := 256.
Definition SHARE_MEM_MAP_MODE_CONTIGUOUS_BOTH : Z := 0.
Definition SHARE_MEM_MAP_MODE_CONTIGUOUS_PHYS_DISCRETE_LOGICAL : Z := 1.

Record MapTableEntry := { te_virt_addr : Z; te_phy_addr : Z }.

Record SharedMemoryPoolQueue := {
  map_mode1 : Z; map_mode2 : Z;
  header : Z; tail : Z; capacity : Z; block_size : Z;
  phy_addr : Z; virt_addr1 : Z; virt_addr2 : Z;
  table1 : list MapTableEntry; table2 : list MapTableEntry;
  pool : Z }.

Record SharedMemoryPoolQueueConfig := {
  conf_pool : Z; conf_map_mode : Z; conf_phy_addr : Z; conf_virt_addr : Z;
  conf_capacity : Z; conf_block_size : Z }.

Definition set_header (q : SharedMemoryPoolQueue) (h : Z) : SharedMemoryPoolQueue :=
  {| map_mode1 := map_mode1 q; map_mode2 := map_mode2 q; header := h; tail := tail q;
     capacity := capacity q; block_size := block_size q; phy_addr := phy_addr q;
     virt_addr1 := virt_addr1 q; virt_addr2 := virt_addr2 q;
     table1 := table1 q; table2 := table2 q; pool := pool q |}.

Definition set_tail (q : SharedMemoryPoolQueue) (t : Z) : SharedMemoryPoolQueue :=
  {| map_mode1 := map_mode1 q; map_mode2 := map_mode2 q; header := header q; tail := t;
     capacity := capacity q; block_size := block_size q; phy_addr := phy_addr q;
     virt_addr1 := virt_addr1 q; virt_addr2 := virt_addr2 q;
     table1 := table1 q; table2 := table2 q; pool := pool q |}.

(** ** The pool's placeholder operations *)

Definition init_shared_mem_pool (mem_pool : Z) : status := PROCESS_OK.
Definition alloc_shared_mem (mem_pool : Z) : Z := if mem_pool =? 0 then ERROR_SHARED_MEM_ADDR else 0.
Definition fetch_shared_mem_pool_lock (lock : Z) : status := PROCESS_OK.
Definition release_shared_mem_pool_lock (lock : Z) : status := PROCESS_OK.

(** ** Header-file macros *)

Definition IS_VALID_SHM_CONF_MAP_MODE (conf : option SharedMemoryPoolQueueConfig) : bool :=
  match conf with
  | None => false
  | Some c => (conf_map_mode c =? SHARE_MEM_MAP_MODE_CONTIGUOUS_BOTH)
              || (conf_map_mode c =? SHARE_MEM_MAP_MODE_CONTIGUOUS_PHYS_DISCRETE_LOGICAL)
  end.

(** [i++; if (i >= capacity) i -= capacity;] on a uint16_t. *)
Definition bump (i cap : Z) : Z :=
  let i := u16 (i + 1) in if cap <=? i then u16 (i - cap) else i.

Definition SHMP_QUEUE_ENQUEUE (q : SharedMemoryPoolQueue) : status * SharedMemoryPoolQueue :=
  let original_header := header q in
  let q := set_header q (bump (header q) (capacity q)) in
  if (header q =? tail q) || (capacity q <=? header q)
  then (PROCESS_ERROR, set_header q original_header)
  else (PROCESS_OK, q).

Definition SHMP_QUEUE_DEQUEUE (q : SharedMemoryPoolQueue) : status * SharedMemoryPoolQueue :=
  if tail q =? header q then (PROCESS_ERROR, q)
  else (PROCESS_OK, set_tail q (bump (tail q) (capacity q))).

Definition SHMP_QUEUE_USED_MEMORY (q : SharedMemoryPoolQueue) : Z :=
  u64 ((if header q <=? tail q then tail q - header q
        else capacity q - header q + tail q) * block_size q).

Definition SHMP_QUEUE_SURPLUS_MEMORY (q : SharedMemoryPoolQueue) : Z :=
  u64 ((if header q <=? tail q then capacity q - (tail q - header q)
        else header q - tail q) * block_size q).

(** A product of two promoted uint16_t is a signed int. *)
Definition int_mul (a b : Z) : outcome Z :=
  _ ← require (a * b <? 2 ^ 31) IntOverflow; Done (a * b).

Definition SHM_POOL_QUEUE_HEAD_ALLOC (q : option SharedMemoryPoolQueue)
  : outcome (status * option Z * option SharedMemoryPoolQueue) :=
  match q with
  | None => Done (PROCESS_ERROR, None, None)
  | Some q =>
      _ ← require (negb (capacity q =? 0)) DivByZero;
      let next_header := u16 ((header q + 1) mod capacity q) in
      if next_header =? tail q then Done (PROCESS_ERROR, Some ERROR_SHARED_MEM_ADDR, Some q)
      else
        off ← int_mul (header q + 1) (block_size q);
        Done (PROCESS_OK, Some (u64 (virt_addr1 q + off)), Some (set_header q next_header))
  end.

Definition SHM_POOL_QUEUE_LOOKUP_VIRTADDR (q : SharedMemoryPoolQueue) (table_id idx : Z) : outcome Z :=
  if negb (table_id =? 1) && negb (table_id =? 2) then Done ERROR_SHARED_MEM_ADDR else
  if (capacity q <=? idx) || (idx <? 0) then Done ERROR_SHARED_MEM_ADDR else
  match (if table_id =? 1 then table1 q else table2 q) !! Z.to_nat idx with
  | Some e => Done (te_virt_addr e)
  | None => Fault OutOfBounds
  end.

(** The address is [None] when [*addr_ptr] is left alone. *)
Definition SHM_POOL_QUEUE_ALLOC_FROM_HEADER (q : option SharedMemoryPoolQueue)
  : outcome (option Z * option SharedMemoryPoolQueue) :=
  match q with
  | None => Done (None, None)
  | Some q =>
      _ ← require (negb (capacity q =? 0)) DivByZero;
      let next_header := u16 ((header q + 1) mod capacity q) in
      if next_header =? tail q then Done (Some ERROR_SHARED_MEM_ADDR, Some q)
      else if map_mode1 q =? SHARE_MEM_MAP_MODE_CONTIGUOUS_BOTH then
        off ← int_mul (header q + 1) (block_size q);
        Done (Some (u64 (virt_addr1 q + off)), Some (set_header q next_header))
      else if map_mode1 q =? SHARE_MEM_MAP_MODE_CONTIGUOUS_PHYS_DISCRETE_LOGICAL then
        a ← SHM_POOL_QUEUE_LOOKUP_VIRTADDR q 1 (header q);
        Done (Some a, Some (set_header q next_header))
      else Done (Some ERROR_SHARED_MEM_ADDR, Some q)
  end.

Definition SHM_POOL_QUEUE_HEAD_ROLLBACK (q : option SharedMemoryPoolQueue)
  : option SharedMemoryPoolQueue :=
  match q with
  | None => None
  | Some q =>
      if header q =? tail q then Some q
      else Some (set_header q (if header q =? 0 then u16 (capacity q - 1) else header q - 1))
  end.

(** ** Creation *)

(** [queue_alloc] is the fresh struct (with the bytes malloc left in it),
    [data_alloc] the address of the block area. *)
Definition shared_mem_pool_queue_create_backend (config : option SharedMemoryPoolQueueConfig)
    (queue_alloc : option SharedMemoryPoolQueue) (data_alloc : option Z)
  : option SharedMemoryPoolQueue :=
  match config with
  | None => None
  | Some c =>
      if negb (IS_VALID_SHM_CONF_MAP_MODE config) then None else
      match queue_alloc with
      | None => None
      | Some q =>
          let q :=
            {| map_mode1 := u8 (conf_map_mode c); map_mode2 := map_mode2 q; header := 0; tail := 0;
               capacity := u16 (conf_capacity c); block_size := u16 (conf_block_size c);
               phy_addr := conf_phy_addr c; virt_addr1 := conf_virt_addr c;
               virt_addr2 := virt_addr2 q; table1 := table1 q; table2 := table2 q;
               pool := conf_pool c |} in
          match data_alloc with
          | None => None
          | Some a =>
              Some {| map_mode1 := map_mode1 q; map_mode2 := map_mode2 q; header := header q;
                      tail := tail q; capacity := capacity q; block_size := block_size q;
                      phy_addr := phy_addr q; virt_addr1 := a; virt_addr2 := virt_addr2 q;
                      table1 := table1 q; table2 := table2 q; pool := pool q |}
          end
      end
  end.

Definition shared_mem_pool_queue_initialize (queue : option SharedMemoryPoolQueue)
    (config : option SharedMemoryPoolQueueConfig) : status * option SharedMemoryPoolQueue :=
  match queue, config with
  | Some q, Some c =>
      if conf_pool c =? 0 then (PROCESS_ERROR, queue) else
      if conf_block_size c =? 0 then (PROCESS_ERROR, queue) else
      (PROCESS_OK,
       Some {| map_mode1 := map_mode1 q; map_mode2 := map_mode2 q; header := 0; tail := 0;
               capacity := u16 (conf_block_size c); block_size := u16 (conf_block_size c);
               phy_addr := conf_phy_addr c; virt_addr1 := conf_virt_addr c;
               virt_addr2 := virt_addr2 q; table1 := table1 q; table2 := table2 q;
               pool := conf_pool c |})
  | _, _ => (PROCESS_ERROR, queue)
  end.

(** ** Transfer *)

Definition shared_mem_pool_queue_send_oc (m : mem) (queue : option SharedMemoryPoolQueue)
    (data : option (list Z)) (data_size : Z)
  : outcome (status * mem * option SharedMemoryPoolQueue) :=
  match queue, data with
  | Some q, Some buf =>
      if block_size q =? 0 then Done (PROCESS_ERROR, m, queue) else
      if (data_size =? 0) || (block_size q <? data_size) then Done (PROCESS_ERROR, m, queue) else
      _ ← require (negb (capacity q =? 0)) DivByZero;
      if (header q + 1) mod capacity q =? tail q then Done (PROCESS_AGAIN, m, queue) else
      off ← int_mul (header q) (block_size q);
      l ← bread buf 0 data_size;
      let m := mwrite m (virt_addr1 q + off) l in
      let '(ret, q) := SHMP_QUEUE_ENQUEUE q in
      Done (ret, m, Some q)
  | _, _ => Done (PROCESS_ERROR, m, queue)
  end.

(** [out_data_size] tells whether the size pointer is non-null; the buffer
    pointer is [None] when [*buffer] is not written. *)
Definition shared_mem_pool_queue_recv_zc (queue : option SharedMemoryPoolQueue)
    (buffer out_data_size : bool) : outcome (status * option Z * option SharedMemoryPoolQueue) :=
  match queue with
  | Some q =>
      if negb buffer || negb out_data_size then Done (PROCESS_ERROR, None, queue) else
      if block_size q =? 0 then Done (PROCESS_ERROR, None, queue) else
      if header q =? tail q then Done (PROCESS_AGAIN, None, queue) else
      off ← int_mul (tail q + 1) (block_size q);
      let '(ret, q') := SHMP_QUEUE_DEQUEUE q in
      Done (ret, Some (virt_addr1 q + off), Some q')
  | None => Done (PROCESS_ERROR, None, queue)
  end.

(** ** Invariant and abstraction *)

Record spq_wf (q : SharedMemoryPoolQueue) : Prop := {
  spq_mode : map_mode1 q = SHARE_MEM_MAP_MODE_CONTIGUOUS_BOTH;
  spq_cap : 0 < capacity q < 65536;
  spq_bs : 0 < block_size q < 65536;
  spq_header : 0 <= header q < capacity q;
  spq_tail : 0 <= tail q < capacity q;
  spq_int : capacity q * block_size q < 2 ^ 31;
  spq_addr : 0 <= virt_addr1 q /\ virt_addr1 q + (capacity q + 1) * block_size q < 2 ^ 64 }.

Definition ring_len (q : SharedMemoryPoolQueue) : Z :=
  if tail q <=? header q then header q - tail q else capacity q - tail q + header q.

Definition slot_address (q : SharedMemoryPoolQueue) (i : Z) : Z :=
  virt_addr1 q + (i + 1) * block_size q.

(** Addresses of the blocks handed out and not yet taken, oldest first. *)
Definition pending (q : SharedMemoryPoolQueue) : list Z :=
  map (fun k => slot_address q ((tail q + Z.of_nat k) mod capacity q))
      (seq 0 (Z.to_nat (ring_len q))).

Lemma pending_length q : length (pending q) = Z.to_nat (ring_len q).
Proof. unfold pending. by rewrite length_map, length_seq. Qed.

Lemma ring_len_range q : spq_wf q -> 0 <= ring_len q < capacity q.
Proof. intros []. unfold ring_len. case_match; lia. Qed.

Lemma wrap_cases i cap : 0 <= i < cap -> (i + 1) mod cap = if i + 1 =? cap then 0 else i + 1.
Proof.
  intros. destruct (Z.eqb_spec (i + 1) cap) as [->|]; [by apply Z.mod_same; lia|].
  apply Z.mod_small. lia.
Qed.

Lemma bump_mod i cap : 0 < cap < 65536 -> 0 <= i < cap -> bump i cap = (i + 1) mod cap.
Proof.
  intros Hc Hi. unfold bump. rewrite (u16_id (i + 1)), wrap_cases by lia.
  destruct (Z.leb_spec cap (i + 1)), (Z.eqb_spec (i + 1) cap); try lia.
  rewrite u16_id; lia.
Qed.

Lemma wrap_range i cap : 0 < cap -> 0 <= (i + 1) mod cap < cap.
Proof. intros. by apply Z.mod_pos_bound. Qed.

Lemma mod_wrap_once x cap : 0 < cap -> cap <= x < 2 * cap -> x mod cap = x - cap.
Proof.
  intros Hc Hx. replace x with (x - cap + 1 * cap) at 1 by lia.
  rewrite Z.mod_add by lia. apply Z.mod_small. lia.
Qed.

Lemma header_mod q :
  spq_wf q -> (tail q + ring_len q) mod capacity q = header q.
Proof.
  intros []. unfold ring_len. destruct (Z.leb_spec (tail q) (header q)).
  - replace (tail q + (header q - tail q)) with (header q) by lia. apply Z.mod_small. lia.
  - rewrite mod_wrap_once; lia.
Qed.

Lemma full_ring q :
  spq_wf q -> (header q + 1) mod capacity q = tail q <-> ring_len q = capacity q - 1.
Proof.
  intros []. rewrite wrap_cases by lia. unfold ring_len.
  destruct (Z.eqb_spec (header q + 1) (capacity q)), (Z.leb_spec (tail q) (header q)); lia.
Qed.

Lemma pending_push q :
  spq_wf q -> ring_len q < capacity q - 1 ->
  let q' := set_header q ((header q + 1) mod capacity q) in
  spq_wf q' /\ pending q' = pending q ++ [slot_address q (header q)].
Proof.
  intros Hw Hl q'. pose proof (ring_len_range q Hw) as Hr. pose proof (header_mod q Hw) as Hh.
  pose proof (full_ring q Hw) as Hf.
  assert (ring_len q' = ring_len q + 1) as Hlen.
  { destruct Hw. unfold q', ring_len in *. cbn [header tail capacity set_header].
    rewrite wrap_cases in * by lia.
    destruct (Z.eqb_spec (header q + 1) (capacity q)), (Z.leb_spec (tail q) (header q)), (Z.leb_spec (tail q) 0),
      (Z.leb_spec (tail q) (header q + 1)); lia. }
  split.
  - destruct Hw. split; try done. cbn. apply wrap_range. lia.
  - unfold pending. rewrite Hlen. replace (Z.to_nat (ring_len q + 1)) with (Z.to_nat (ring_len q) + 1)%nat by lia.
    rewrite seq_app, map_app. cbn [seq map]. f_equal. f_equal. cbn [tail capacity q' set_header].
    rewrite Nat.add_0_l, Z2Nat.id by lia. by rewrite Hh.
Qed.

Lemma pending_pop q :
  spq_wf q -> tail q <> header q ->
  let q' := set_tail q ((tail q + 1) mod capacity q) in
  spq_wf q' /\ pending q = slot_address q (tail q) :: pending q'.
Proof.
  intros Hw Hne q'. pose proof (ring_len_range q Hw) as Hr.
  assert (ring_len q' = ring_len q - 1 /\ 0 < ring_len q) as [Hlen Hpos].
  { destruct Hw. unfold q', ring_len in *. cbn [header tail capacity set_tail].
    rewrite wrap_cases in * by lia.
    destruct (Z.eqb_spec (tail q + 1) (capacity q)), (Z.leb_spec (tail q) (header q)), (Z.leb_spec 0 (header q)),
      (Z.leb_spec (tail q + 1) (header q)); lia. }
  split.
  - destruct Hw. split; try done. cbn. apply wrap_range. lia.
  - unfold pending. rewrite Hlen. replace (Z.to_nat (ring_len q)) with (S (Z.to_nat (ring_len q - 1))) by lia.
    cbn [seq map]. rewrite <- seq_shift, map_map. destruct Hw. f_equal.
    + rewrite Z.add_0_r, Z.mod_small by lia. done.
    + apply map_ext. intros k. unfold slot_address. cbn [tail capacity q' set_tail block_size virt_addr1].
      rewrite Zplus_mod_idemp_l. do 4 f_equal. lia.
Qed.

Lemma int_mul_ok q i : spq_wf q -> 0 <= i <= capacity q -> int_mul i (block_size q) = Done (i * block_size q).
Proof.
  intros [] Hi. unfold int_mul. rewrite require_true; [done|]. apply Z.ltb_lt. nia.
Qed.

Lemma slot_u64 q : spq_wf q -> u64 (virt_addr1 q + (header q + 1) * block_size q) = slot_address q (header q).
Proof.
  intros []. change (2 ^ 64) with 18446744073709551616 in *.
  assert (0 <= (header q + 1) * block_size q <= capacity q * block_size q) by nia.
  unfold slot_address. apply u64_id. lia.
Qed.

(** ** Properties *)

(** Handing out and taking blocks implements a bounded FIFO of block
    addresses: on a well-formed contiguous queue
    [SHM_POOL_QUEUE_ALLOC_FROM_HEADER] appends the address of the next block,
    or answers the error address and changes nothing exactly when
    [capacity - 1] blocks are pending; [shared_mem_pool_queue_recv_zc] returns
    the oldest pending address, or AGAIN when there is none. *)
Theorem pool_ring_is_fifo q :
  spq_wf q ->
  (exists a q', SHM_POOL_QUEUE_ALLOC_FROM_HEADER (Some q) = Done (Some a, Some q') /\
     if decide (length (pending q) < Z.to_nat (capacity q - 1))%nat
     then a = slot_address q (header q) /\ spq_wf q' /\ pending q' = pending q ++ [a]
     else a = ERROR_SHARED_MEM_ADDR /\ q' = q) /\
  (exists st b q', shared_mem_pool_queue_recv_zc (Some q) true true = Done (st, b, Some q') /\
     match pending q with
     | [] => st = PROCESS_AGAIN /\ b = None /\ q' = q
     | a :: s => st = PROCESS_OK /\ b = Some a /\ spq_wf q' /\ pending q' = s
     end).
Proof.
  intros Hw. pose proof (ring_len_range q Hw) as Hr. split.
  - unfold SHM_POOL_QUEUE_ALLOC_FROM_HEADER. pose proof (full_ring q Hw) as Hf.
    pose proof (pending_push q Hw) as Hp. pose proof (slot_u64 q Hw) as Hs.
    rewrite pending_length. destruct (spq_cap q Hw), (spq_header q Hw).
    pose proof (wrap_range (header q) (capacity q)).
    rewrite require_true by (apply negb_true_iff, Z.eqb_neq; lia). cbn. rewrite u16_id by lia.
    rewrite (spq_mode q Hw), int_mul_ok by (done || lia). cbn. rewrite Hs.
    destruct (Z.eqb_spec ((header q + 1) mod capacity q) (tail q)) as [E|E];
      do 2 eexists; (split; [done|]).
    + rewrite decide_False by (apply Hf in E; lia). done.
    + assert (ring_len q <> capacity q - 1) by (intros ?; by apply E, Hf).
      rewrite decide_True by lia. split; [done|]. apply Hp. lia.
  - unfold shared_mem_pool_queue_recv_zc, SHMP_QUEUE_DEQUEUE. cbn [negb orb].
    destruct (spq_cap q Hw), (spq_tail q Hw), (spq_bs q Hw).
    rewrite (proj2 (Z.eqb_neq (block_size q) 0)) by lia.
    destruct (Z.eqb_spec (header q) (tail q)) as [E|E].
    + do 3 eexists. split; [done|]. assert (pending q = []) as ->; [|done].
      apply nil_length_inv. rewrite pending_length. unfold ring_len.
      rewrite E, Z.leb_refl. replace (tail q - tail q) with 0 by lia. done.
    + rewrite int_mul_ok by (done || lia). cbn. rewrite (proj2 (Z.eqb_neq (tail q) (header q))) by done.
      destruct (pending_pop q Hw) as [Hw' ->]; [done|]. rewrite bump_mod by done.
      do 3 eexists. split; [done|]. done.
Qed.

(** Rolling back an allocation restores the queue: after
    [SHM_POOL_QUEUE_ALLOC_FROM_HEADER] handed out a block,
    [SHM_POOL_QUEUE_HEAD_ROLLBACK] gives back exactly the queue before it; the
    block is offered again by the next allocation. *)
Theorem alloc_rollback_roundtrip q a q' :
  spq_wf q -> SHM_POOL_QUEUE_ALLOC_FROM_HEADER (Some q) = Done (Some a, Some q') ->
  a <> ERROR_SHARED_MEM_ADDR ->
  q' <> q /\ SHM_POOL_QUEUE_HEAD_ROLLBACK (Some q') = Some q.
Proof.
  intros Hw. unfold SHM_POOL_QUEUE_ALLOC_FROM_HEADER. destruct (spq_cap q Hw), (spq_header q Hw).
  pose proof (wrap_range (header q) (capacity q)).
  rewrite require_true by (apply negb_true_iff, Z.eqb_neq; lia). cbn. rewrite u16_id by lia.
  rewrite (spq_mode q Hw), int_mul_ok by (done || lia). cbn.
  destruct (Z.eqb_spec ((header q + 1) mod capacity q) (tail q)) as [E|E]; intros [= <- <-] Ha; [done|].
  destruct (spq_tail q Hw).
  assert ((header q + 1) mod capacity q <> header q) as Hne.
  { rewrite wrap_cases by lia. case_match eqn:Ec; [|lia]. rewrite wrap_cases, Ec in E by lia. lia. }
  split.
  - intros Hq. apply Hne. by apply (f_equal header) in Hq.
  - unfold SHM_POOL_QUEUE_HEAD_ROLLBACK. cbn [header tail capacity set_header].
    rewrite (proj2 (Z.eqb_neq _ _)) by done. f_equal. rewrite wrap_cases by lia.
    destruct (Z.eqb_spec (header q + 1) (capacity q)) as [Ec|Ec].
    + rewrite Z.eqb_refl, u16_id by lia. replace (capacity q - 1) with (header q) by lia. by destruct q.
    + rewrite (proj2 (Z.eqb_neq (header q + 1) 0)) by lia.
      replace (header q + 1 - 1) with (header q) by lia. by destruct q.
Qed.

(** [shared_mem_pool_queue_send_oc] stores at [header * block_size] but
    [shared_mem_pool_queue_recv_zc] returns [(tail + 1) * block_size]: from an
    empty queue, after a successful send the received block is the one after
    the stored one, and not a byte of it has been written. *)
Theorem sent_block_is_not_received q m buf n :
  spq_wf q -> header q = tail q -> 1 < capacity q ->
  0 < n <= block_size q -> n <= blen buf ->
  exists m' q1 q2 a, shared_mem_pool_queue_send_oc m (Some q) (Some buf) n
                     = Done (PROCESS_OK, m', Some q1) /\
  shared_mem_pool_queue_recv_zc (Some q1) true true = Done (PROCESS_OK, Some a, Some q2) /\
  mread m' (a - block_size q) (Z.to_nat n) = take (Z.to_nat n) buf /\
  (forall x, a <= x < a + block_size q -> m' x = m x).
Proof.
  intros Hw Hht Hc Hn Hb. destruct (spq_cap q Hw), (spq_header q Hw), (spq_bs q Hw).
  assert ((header q + 1) mod capacity q <> tail q) as Hne.
  { rewrite wrap_cases by lia. case_match eqn:Ec; lia. }
  unfold shared_mem_pool_queue_send_oc.
  rewrite (proj2 (Z.eqb_neq (block_size q) 0)), (proj2 (Z.eqb_neq n 0)),
    (proj2 (Z.ltb_ge (block_size q) n)) by lia. cbn [orb].
  rewrite require_true by (apply negb_true_iff, Z.eqb_neq; lia). cbn [mbind outcome_bind].
  rewrite (proj2 (Z.eqb_neq _ _) Hne), int_mul_ok by (done || lia). cbn [mbind outcome_bind].
  rewrite bread_ok by lia. cbn [mbind outcome_bind]. change (drop (Z.to_nat 0) buf) with buf.
  unfold SHMP_QUEUE_ENQUEUE. cbn [header tail capacity set_header]. rewrite bump_mod by done.
  pose proof (wrap_range (header q) (capacity q)).
  rewrite (proj2 (Z.eqb_neq _ _) Hne), (proj2 (Z.leb_gt _ _)) by lia. cbn [orb].
  do 4 eexists. split; [reflexivity|]. unfold shared_mem_pool_queue_recv_zc.
  cbn [negb orb block_size set_header header tail virt_addr1].
  rewrite (proj2 (Z.eqb_neq (block_size q) 0)), (proj2 (Z.eqb_neq _ _) Hne) by lia.
  rewrite int_mul_ok by (done || lia). cbn [mbind outcome_bind].
  unfold SHMP_QUEUE_DEQUEUE. cbn [header tail set_header].
  rewrite (proj2 (Z.eqb_neq (tail q) _)) by done. split; [reflexivity|]. rewrite Hht.
  assert (blen (take (Z.to_nat n) buf) = n) as Hl by (unfold blen in *; rewrite length_take; lia).
  split.
  - replace (virt_addr1 q + (tail q + 1) * block_size q - block_size q)
      with (virt_addr1 q + tail q * block_size q) by lia.
    rewrite <- (mread_mwrite_eq m (virt_addr1 q + tail q * block_size q) (take (Z.to_nat n) buf)) at 2.
    f_equal. unfold blen in Hl. lia.
  - intros x Hx. apply mwrite_out. rewrite Hl. lia.
Qed.

(** ** A concrete queue *)

Definition demo_junk : SharedMemoryPoolQueue :=
  {| map_mode1 := 9; map_mode2 := 9; header := 9; tail := 9; capacity := 9; block_size := 9;
     phy_addr := 9; virt_addr1 := 9; virt_addr2 := 9; table1 := []; table2 := []; pool := 9 |}.

Definition demo_conf : SharedMemoryPoolQueueConfig :=
  {| conf_pool := 64; conf_map_mode := 0; conf_phy_addr := 0xA000; conf_virt_addr := 0xA000;
     conf_capacity := 4; conf_block_size := 8 |}.

Definition demo_queue : SharedMemoryPoolQueue :=
  default demo_junk (shared_mem_pool_queue_create_backend (Some demo_conf) (Some demo_junk) (Some 4096)).

Lemma demo_queue_wf : spq_wf demo_queue.
Proof.
  split; try (vm_compute; reflexivity);
    (split; [vm_compute; try discriminate; reflexivity|vm_compute; reflexivity]).
Qed.

Lemma pool_ring_is_fifo_witness :
  (exists q', SHM_POOL_QUEUE_ALLOC_FROM_HEADER (Some demo_queue) = Done (Some 4104, Some q') /\
              pending q' = [4104]) /\
  exists q', shared_mem_pool_queue_recv_zc (Some demo_queue) true true
             = Done (PROCESS_AGAIN, None, Some q').
Proof.
  destruct (pool_ring_is_fifo demo_queue demo_queue_wf) as [(a & q' & Ha & H) (st & b & q2 & Hr & H2)].
  assert (pending demo_queue = []) as Hp by (vm_compute; reflexivity).
  rewrite Hp in H, H2. rewrite decide_True in H by (vm_compute; lia).
  destruct H as (-> & _ & Hq). destruct H2 as (-> & -> & _). split; [|eauto].
  exists q'. split; [exact Ha|]. rewrite Hq. vm_compute. reflexivity.
Defined.

Lemma alloc_rollback_roundtrip_witness :
  exists q', SHM_POOL_QUEUE_ALLOC_FROM_HEADER (Some demo_queue) = Done (Some 4104, Some q') /\
  SHM_POOL_QUEUE_HEAD_ROLLBACK (Some q') = Some demo_queue.
Proof.
  eexists. split; [vm_compute; reflexivity|].
  apply (alloc_rollback_roundtrip demo_queue 4104); [exact demo_queue_wf|vm_compute; reflexivity|].
  vm_compute. discriminate.
Defined.

Lemma sent_block_is_not_received_witness :
  exists m' q1 q2, shared_mem_pool_queue_send_oc (fun _ => 0) (Some demo_queue) (Some [1; 2; 3]) 3
                   = Done (PROCESS_OK, m', Some q1) /\
  shared_mem_pool_queue_recv_zc (Some q1) true true = Done (PROCESS_OK, Some 4104, Some q2) /\
  mread m' 4096 3 = [1; 2; 3] /\ mread m' 4104 3 = [0; 0; 0].
Proof.
  destruct (sent_block_is_not_received demo_queue (fun _ => 0) [1; 2; 3] 3 demo_queue_wf)
    as (m' & q1 & q2 & a & Hs & Hr & Hw & Hx); [reflexivity|reflexivity|split; [reflexivity|vm_compute; discriminate]|vm_compute; discriminate|].
  assert (a = 4104) as ->.
  { vm_compute in Hs. injection Hs as _ <-. vm_compute in Hr. injection Hr as <- _. reflexivity. }
  exists m', q1, q2. split; [exact Hs|]. split; [exact Hr|]. split; [exact Hw|].
  cbn [mread]. rewrite !Hx by (change (block_size demo_queue) with 8; lia). reflexivity.
Defined.
