(* ===== verification/ByteStore.v ===== *)
(** * ByteStore: what the message builders and parsers ask of a buffer

    The code writes the same structures through pointers into a private array
    ([global_amp_tx_buf], a malloc'd block) and into a block of shared memory.
    [ByteStore] is the interface both offer, with the laws the clients rely
    on; private buffers ([list Z], bounds checked) and byte memory ([mem])
    implement it. *)

From S2P Require Import Prelude Bytes Mem.
From stdpp Require Import base list numbers option.
From Stdlib Require Import ZArith Lia.
#[local] Open Scope Z_scope.

Class ByteStore (B : Type) := {
  st_read : B -> Z -> Z -> outcome (list Z);
  st_write : B -> Z -> list Z -> outcome B;
  (** [st_room b off len]: the [len] bytes at [off] belong to the object. *)
  st_room : B -> Z -> Z -> Prop }.

Class ByteStoreLaws (B : Type) `{ByteStore B} := {
  st_write_ok : forall b off l, st_room b off (blen l) -> exists b', st_write b off l = Done b';
  st_read_write_eq : forall b off l b',
    st_write b off l = Done b' -> st_read b' off (blen l) = Done l;
  st_read_write_ne : forall b off l b' off' len',
    st_write b off l = Done b' -> off' + len' <= off \/ off + blen l <= off' ->
    st_read b' off' len' = st_read b off' len';
  st_room_write : forall b off l b' off' len',
    st_write b off l = Done b' -> st_room b' off' len' <-> st_room b off' len';
  st_room_sub : forall b off len off' len',
    st_room b off len -> off <= off' -> 0 <= len' -> off' + len' <= off + len ->
    st_room b off' len' }.

#[export] Instance buffer_store : ByteStore (list Z) := {|
  st_read := bread; st_write := bwrite;
  st_room b off len := 0 <= off /\ 0 <= len /\ off + len <= blen b |}.

#[export] Instance mem_store : ByteStore mem := {|
  st_read m off len := Done (mread m off (Z.to_nat len));
  st_write m off l := Done (mwrite m off l);
  st_room _ _ _ := True |}.

#[export] Instance buffer_store_laws : ByteStoreLaws (list Z).
Proof.
  split.
  - intros b off l (? & ? & ?). by apply bwrite_ok.
  - apply bread_bwrite_eq.
  - apply bread_bwrite_ne.
  - intros b off l b' off' len' Hw. cbn. by rewrite (bwrite_length _ _ _ _ Hw).
  - cbn. lia.
Qed.

#[export] Instance mem_store_laws : ByteStoreLaws mem.
Proof.
  split; cbn; try done.
  - eauto.
  - intros m off l m' [= <-]. f_equal. unfold blen. rewrite Nat2Z.id. apply mread_mwrite_eq.
  - intros m off l m' off' len' [= <-] Hd. f_equal. destruct (Z.le_gt_cases 0 len').
    + apply mread_mwrite_ne. lia.
    + by replace (Z.to_nat len') with 0%nat by lia.
Qed.

(** ** Fields *)

Section Fields.
Context {B : Type} `{ByteStoreLaws B}.

(** An [n]-byte little-endian field at [off]. *)
Definition st_get (n : nat) (b : B) (off : Z) : outcome Z :=
  l ← st_read b off (Z.of_nat n); Done (le_val l).
Definition st_put (n : nat) (b : B) (off v : Z) : outcome B :=
  st_write b off (le_bytes n v).

Lemma blen_le_bytes n v : blen (le_bytes n v) = Z.of_nat n.
Proof. unfold blen. by rewrite length_le_bytes. Qed.

Lemma st_put_ok n b off v :
  st_room b off (Z.of_nat n) -> exists b', st_put n b off v = Done b'.
Proof. intros. apply st_write_ok. by rewrite blen_le_bytes. Qed.

Lemma st_get_put_eq n b off v b' :
  st_put n b off v = Done b' -> st_get n b' off = Done (v mod 2 ^ (8 * Z.of_nat n)).
Proof.
  intros Hw. pose proof (st_read_write_eq _ _ _ _ Hw) as Hr. rewrite blen_le_bytes in Hr.
  unfold st_get. rewrite Hr. cbn. by rewrite le_val_bytes.
Qed.

Lemma st_get_write_ne n b off l off' b' :
  st_write b off l = Done b' -> off' + Z.of_nat n <= off \/ off + blen l <= off' ->
  st_get n b' off' = st_get n b off'.
Proof. intros Hw Hd. unfold st_get. by rewrite (st_read_write_ne _ _ _ _ _ _ Hw). Qed.

Lemma st_get_put_ne n k b off v off' b' :
  st_put n b off v = Done b' -> off' + Z.of_nat k <= off \/ off + Z.of_nat n <= off' ->
  st_get k b' off' = st_get k b off'.
Proof. intros Hw Hd. eapply st_get_write_ne; [exact Hw|]. by rewrite blen_le_bytes. Qed.

Lemma st_read_put_ne n b off v off' len' b' :
  st_put n b off v = Done b' -> off' + len' <= off \/ off + Z.of_nat n <= off' ->
  st_read b' off' len' = st_read b off' len'.
Proof. intros Hw Hd. eapply st_read_write_ne; [exact Hw|]. by rewrite blen_le_bytes. Qed.

Lemma st_room_put n b off v b' off' len' :
  st_put n b off v = Done b' -> st_room b' off' len' <-> st_room b off' len'.
Proof. apply st_room_write. Qed.

(** Consecutive fields of a packed structure: [ws] are the widths. *)
Fixpoint st_gets (ws : list nat) (b : B) (off : Z) : outcome (list Z) :=
  match ws with
  | [] => Done []
  | w :: ws' => v ← st_get w b off; vs ← st_gets ws' b (off + Z.of_nat w); Done (v :: vs)
  end.

Fixpoint st_puts (fs : list (nat * Z)) (b : B) (off : Z) : outcome B :=
  match fs with
  | [] => Done b
  | (w, v) :: fs' => b ← st_put w b off v; st_puts fs' b (off + Z.of_nat w)
  end.

Definition widths (fs : list (nat * Z)) : Z := fold_right (fun f n => Z.of_nat (fst f) + n) 0 fs.
Definition in_width (f : nat * Z) : Prop := 0 <= snd f < 2 ^ (8 * Z.of_nat (fst f)).

Lemma widths_nonneg fs : 0 <= widths fs.
Proof. unfold widths. induction fs as [|[w v] fs IH]; cbn; lia. Qed.

Lemma st_puts_ok fs b off :
  st_room b off (widths fs) -> exists b', st_puts fs b off = Done b'.
Proof.
  revert b off. induction fs as [|[w v] fs IH]; intros b off Hr; [by exists b|].
  pose proof (widths_nonneg fs). cbn [widths fold_right fst] in Hr. fold (widths fs) in Hr.
  cbn [st_puts]. destruct (st_put_ok w b off v) as [b1 Hb1].
  { eapply st_room_sub; [exact Hr|lia..]. }
  rewrite Hb1. cbn. apply IH. apply (st_room_put _ _ _ _ _ _ _ Hb1).
  eapply st_room_sub; [exact Hr|lia..].
Qed.

Lemma st_puts_room fs b off b' off' len' :
  st_puts fs b off = Done b' -> st_room b' off' len' <-> st_room b off' len'.
Proof.
  revert b off. induction fs as [|[w v] fs IH]; intros b off Hp; cbn in Hp; [by simplify_eq|].
  outcome_inv. rewrite (IH _ _ Hk). by eapply st_room_put.
Qed.

Lemma st_read_puts_ne fs b off b' off' len' :
  st_puts fs b off = Done b' -> off' + len' <= off \/ off + widths fs <= off' ->
  st_read b' off' len' = st_read b off' len'.
Proof.
  revert b off. induction fs as [|[w v] fs IH]; intros b off Hp Hd; cbn in Hp; [by simplify_eq|].
  pose proof (widths_nonneg fs). cbn [widths fold_right fst] in Hd. fold (widths fs) in Hd.
  outcome_inv. rewrite (IH _ _ Hk) by lia. by rewrite (st_read_put_ne _ _ _ _ _ _ _ Ho) by lia.
Qed.

Definition total_width (ws : list nat) : Z := fold_right (fun w n => Z.of_nat w + n) 0 ws.

(** Fields only depend on the bytes they occupy. *)
Lemma st_gets_ext ws b b' off :
  (forall o n, off <= o -> 0 <= n -> o + n <= off + total_width ws ->
     st_read b' o n = st_read b o n) ->
  st_gets ws b' off = st_gets ws b off.
Proof.
  revert off. induction ws as [|w ws IH]; intros off He; [done|]. cbn [st_gets].
  cbn [total_width fold_right] in He. fold (total_width ws) in He.
  assert (0 <= total_width ws) by (unfold total_width; clear; induction ws; cbn; lia).
  unfold st_get. rewrite He by lia. destruct (st_read b off (Z.of_nat w)); cbn; [|done..].
  rewrite IH; [done|]. intros. apply He; lia.
Qed.

Lemma st_gets_app ws1 ws2 b off :
  st_gets (ws1 ++ ws2) b off =
  (l1 ← st_gets ws1 b off; l2 ← st_gets ws2 b (off + total_width ws1); Done (l1 ++ l2)).
Proof.
  revert off. induction ws1 as [|w ws1 IH]; intros off; cbn [st_gets app total_width fold_right].
  - rewrite Z.add_0_r. cbn. by destruct (st_gets ws2 b off).
  - destruct (st_get w b off); cbn; [|done..]. rewrite IH. fold (total_width ws1).
    destruct (st_gets ws1 b _); cbn; [|done..]. rewrite Z.add_assoc.
    by destruct (st_gets ws2 b _).
Qed.

(** Writing a packed structure and reading it back. *)
Lemma st_gets_puts fs b off b' :
  st_puts fs b off = Done b' -> Forall in_width fs ->
  st_gets (map fst fs) b' off = Done (map snd fs).
Proof.
  revert b off. induction fs as [|[w v] fs IH]; intros b off Hp Hf; [done|].
  apply Forall_cons_1 in Hf as [Hv Hf]. cbn in Hp. outcome_inv. cbn [map st_gets fst snd].
  assert (st_get w b' off = st_get w r off) as ->.
  { unfold st_get. by rewrite (st_read_puts_ne _ _ _ _ _ _ Hk) by lia. }
  rewrite (st_get_put_eq _ _ _ _ _ Ho), Z.mod_small by apply Hv. cbn.
  by rewrite (IH _ _ Hk Hf).
Qed.
End Fields.
