(* ===== verification/Message.v ===== *)
(** * Message: the proxy wire format

    include/message.h and the macros of include/backend_proto.h: packed
    headers, message lengths, address sizes.  Headers are read and written
    through [ByteStore], at an offset of the object they lie in. *)

From S2P Require Import Prelude Bytes Mem ByteStore.
From stdpp Require Import base list numbers option.
From Stdlib Require Import ZArith Lia.
#[local] Open Scope Z_scope.

(** ** Enumerations and limits *)

Definition PROXY_MSG_TYPE_DEV : Z := 0.
Definition PROXY_MSG_TYPE_STRGY : Z := 1.
Definition PROXY_MSG_TYPE_SESS : Z := 2.
Definition PROXY_MSG_TYPE_DATA : Z := 3.
Definition PROXY_MSG_TYPE_IOT : Z := 4.

Definition PROXY_PROTO_VERSION_1 : Z := 1.
Definition PROXY_PROTO_DEV_VERSION_1 : Z := 1.
Definition PROXY_PROTO_STRGY_VERSION_1 : Z := 1.
Definition PROXY_PROTO_SESS_VERSION_1 : Z := 1.

Definition PROXY_MSG_HDR_SIZE : Z := 8.
Definition PROXY_MSG_MIN_SIZE : Z := 1.
Definition PROXY_MSG_MAX_SIZE : Z := 4088.
Definition PROXY_MSG_HDR_PLUS_MAX_SIZE : Z := PROXY_MSG_HDR_SIZE + PROXY_MSG_MAX_SIZE.
Definition PROXY_MSG_INVALID_LEN : Z := -1.

Definition ACTION_TYPE_COMMAND : Z := 0.
Definition ACTION_TYPE_RESPONSE : Z := 1.
Definition DEV_MSG_DISABLE : Z := 0.
Definition DEV_MSG_ENABLE : Z := 1.
Definition DEV_MSG_QUERY : Z := 2.
Definition STRGY_MSG_SET : Z := 0.
Definition STRGY_MSG_QUERY : Z := 1.
Definition SESS_MSG_CLOSE : Z := 0.
Definition SESS_MSG_CREATE : Z := 1.
Definition SESS_NON_IP_PROTO : Z := 0.
Definition SESS_IPV4_PROTO : Z := 4.
Definition SESS_IPV6_PROTO : Z := 6.
Definition SESS_UDP_PROTO : Z := 0.
Definition SESS_TCP_PROTO : Z := 1.
Definition SESS_FASTPATH_PROTO : Z := 2.
Definition SESS_OP_STATUS_SUCCESS : Z := 0.
Definition SESS_OP_STATUS_FAIL : Z := 1.
Definition SESS_OP_CODE_SUCCESS : Z := 0.
Definition SESS_OP_CODE_DEVICE_ERROR : Z := 2.
Definition SESS_OP_CODE_RESOURCE_INSUFFICIENT : Z := 3.
Definition SESS_OP_CODE_NETWORK_UNREACHABLE : Z := 4.

Definition IOT_PROTO_TYPE_BLUETOOTH : Z := 1.
Definition IOT_PROTO_TYPE_ZIGBEE : Z := 2.
Definition IOT_PROTO_TYPE_CAN : Z := 3.
Definition IOT_PROTO_TYPE_LORA : Z := 4.
Definition IOT_PROTO_TYPE_POWERLINK : Z := 5.
Definition IOT_PROTO_TYPE_MODBUSTCP : Z := 6.

Definition BACKEND_BLUETOOTH_MAX_PAYLOAD : Z := 244.
Definition BACKEND_CAN_MAX_PAYLOAD : Z := 64.
Definition BACKEND_MODBUS_TCP_MAX_PAYLOAD : Z := 253.

(** ** Session ids and validity macros *)

Definition PROXY_ADMIN_SESSION_ID : Z := 0.
Definition PROXY_HANDOVER_SESSION_ID : Z := 0xFFFF.
Definition FRONTEND_ADMIN_SESSION_ID : Z := PROXY_ADMIN_SESSION_ID.
Definition BACKEND_ADMIN_SESSION_ID : Z := PROXY_ADMIN_SESSION_ID.
Definition FRONTEND_HANDOVER_SESSION_ID : Z := PROXY_HANDOVER_SESSION_ID.
Definition BACKEND_HANDOVER_SESSION_ID : Z := PROXY_HANDOVER_SESSION_ID.

Definition PROXY_MSG_TYPE_VALID (x : Z) : bool :=
  (x =? PROXY_MSG_TYPE_DEV) || (x =? PROXY_MSG_TYPE_STRGY) || (x =? PROXY_MSG_TYPE_SESS)
  || (x =? PROXY_MSG_TYPE_DATA) || (x =? PROXY_MSG_TYPE_IOT).
Definition PROXY_MSG_LEN_VALID (x : Z) : bool :=
  (PROXY_MSG_MIN_SIZE <=? x) || (x <=? PROXY_MSG_MAX_SIZE).
Definition APP_SESSION_ID_VALID (x : Z) : bool :=
  negb (x =? PROXY_ADMIN_SESSION_ID) || negb (x =? PROXY_HANDOVER_SESSION_ID).
Definition IS_VALID_SESS_MSG_TYPE (t : Z) : bool := (t =? SESS_MSG_CREATE) || (t =? SESS_MSG_CLOSE).

(** ** Headers *)

Record ProxyMsgHeader := {
  pmh_version : Z; pmh_type : Z; pmh_frontend_sess_id : Z; pmh_backend_sess_id : Z;
  pmh_payload_len : Z }.

Record DevMsgHeader := {
  dmh_version : Z; dmh_msg_type : Z; dmh_msg_id : Z; dmh_action_type : Z; dmh_payload_len : Z }.

Record StrgyMsgHeader := {
  stmh_version : Z; stmh_msg_type : Z; stmh_msg_id : Z; stmh_action_type : Z; stmh_payload_len : Z }.

Record SessMsgHeader := {
  semh_version : Z; semh_msg_type : Z; semh_action_type : Z; semh_ip_version : Z;
  semh_payload_len : Z }.

Record IotMsgHeader := {
  imh_proto_ver : Z; imh_proto_type : Z; imh_opcode : Z; imh_dev_port_id : Z;
  imh_payload_len : Z; imh_reserve : Z }.

Definition sizeof_DevMsgHeader : Z := 10.
Definition sizeof_StrgyMsgHeader : Z := 10.
Definition sizeof_SessMsgHeader : Z := 10.
Definition sizeof_IotMsgHeader : Z := 12.
Definition sizeof_SessOpRespData : Z := 2.
Definition sizeof_IotBtAddr : Z := 20.
Definition sizeof_IotCanAddr : Z := 7.
Definition sizeof_IotZigbeeAddr : Z := 11.
Definition sizeof_IotLoraAddr : Z := 11.
Definition sizeof_IotPowerLinkAddr : Z := 10.
Definition sizeof_IotModbusTcpAddr : Z := 11.
(** The union [IotAddr.addr_info]. *)
Definition sizeof_addr_info : Z := 20.

(** The union [GeneralProxyMsgHeader.inner_header]: six 16-bit words, seen
    through one of its members. *)
Record InnerHeader := { iw0 : Z; iw1 : Z; iw2 : Z; iw3 : Z; iw4 : Z; iw5 : Z }.

Definition dev_hdr (i : InnerHeader) : DevMsgHeader :=
  {| dmh_version := iw0 i; dmh_msg_type := iw1 i; dmh_msg_id := iw2 i; dmh_action_type := iw3 i;
     dmh_payload_len := iw4 i |}.
Definition strgy_hdr (i : InnerHeader) : StrgyMsgHeader :=
  {| stmh_version := iw0 i; stmh_msg_type := iw1 i; stmh_msg_id := iw2 i; stmh_action_type := iw3 i;
     stmh_payload_len := iw4 i |}.
Definition sess_hdr (i : InnerHeader) : SessMsgHeader :=
  {| semh_version := iw0 i; semh_msg_type := iw1 i; semh_action_type := iw2 i;
     semh_ip_version := iw3 i; semh_payload_len := iw4 i |}.
Definition iot_hdr (i : InnerHeader) : IotMsgHeader :=
  {| imh_proto_ver := iw0 i; imh_proto_type := iw1 i; imh_opcode := iw2 i; imh_dev_port_id := iw3 i;
     imh_payload_len := iw4 i; imh_reserve := iw5 i |}.

Record IotAddr := { addr_type : Z; addr_info : list Z }.

Record GeneralProxyMsgHeader := {
  outer_header : ProxyMsgHeader;
  inner_header : InnerHeader;
  iot_addr : IotAddr;
  iot_addr_len : Z }.

Record SessOpRespData := { resp_status : Z; resp_code : Z }.
Definition SessOpRespData_bytes (r : SessOpRespData) : list Z := [u8 (resp_status r); u8 (resp_code r)].

(** ** Length tables *)

Definition PROXY_MSG_TOTAL_MEM_SIZE (data_size : Z) : Z :=
  (data_size + PROXY_MSG_MAX_SIZE - 1) / PROXY_MSG_MAX_SIZE * (PROXY_MSG_HDR_SIZE + PROXY_MSG_MAX_SIZE).

Definition DEV_MSG_PAYLOAD_LEN (dev_msg_type action_type : Z) : Z :=
  if dev_msg_type =? DEV_MSG_ENABLE then
    if action_type =? ACTION_TYPE_COMMAND then 2
    else if action_type =? ACTION_TYPE_RESPONSE then 2 else PROXY_MSG_INVALID_LEN
  else if dev_msg_type =? DEV_MSG_DISABLE then
    if action_type =? ACTION_TYPE_COMMAND then 2
    else if action_type =? ACTION_TYPE_RESPONSE then 2 else PROXY_MSG_INVALID_LEN
  else if dev_msg_type =? DEV_MSG_QUERY then
    if action_type =? ACTION_TYPE_COMMAND then 0
    else if action_type =? ACTION_TYPE_RESPONSE then 4 else PROXY_MSG_INVALID_LEN
  else PROXY_MSG_INVALID_LEN.

Definition DEV_MSG_HEADER_PAYLOAD_LEN (h : DevMsgHeader) : Z :=
  DEV_MSG_PAYLOAD_LEN (dmh_msg_type h) (dmh_action_type h).

Definition STRGY_MSG_PAYLOAD_LEN (strgy_msg_type action_type : Z) : Z :=
  if strgy_msg_type =? STRGY_MSG_SET then
    if action_type =? ACTION_TYPE_COMMAND then 2
    else if action_type =? ACTION_TYPE_RESPONSE then 2 else PROXY_MSG_INVALID_LEN
  else if strgy_msg_type =? STRGY_MSG_QUERY then
    if action_type =? ACTION_TYPE_COMMAND then 0
    else if action_type =? ACTION_TYPE_RESPONSE then 4 else PROXY_MSG_INVALID_LEN
  else PROXY_MSG_INVALID_LEN.

(** The macro uses the device table. *)
Definition STRGY_MSG_HEADER_PAYLOAD_LEN (h : StrgyMsgHeader) : Z :=
  DEV_MSG_PAYLOAD_LEN (stmh_msg_type h) (stmh_action_type h).

Definition SESS_MSG_PAYLOAD_LEN (sess_msg_type action_type ip_version : Z) : Z :=
  if sess_msg_type =? SESS_MSG_CLOSE then
    if action_type =? ACTION_TYPE_COMMAND then 0
    else if action_type =? ACTION_TYPE_RESPONSE then 2 else PROXY_MSG_INVALID_LEN
  else if sess_msg_type =? SESS_MSG_CREATE then
    if action_type =? ACTION_TYPE_RESPONSE then 2
    else if action_type =? ACTION_TYPE_COMMAND then
      if ip_version =? SESS_IPV4_PROTO then 10
      else if ip_version =? SESS_IPV6_PROTO then 22 else PROXY_MSG_INVALID_LEN
    else PROXY_MSG_INVALID_LEN
  else PROXY_MSG_INVALID_LEN.

Definition SESS_MSG_HEADER_PAYLOAD_LEN (h : SessMsgHeader) : Z :=
  SESS_MSG_PAYLOAD_LEN (semh_msg_type h) (semh_action_type h) (semh_ip_version h).

Definition get_iot_addr_length (addr_type : Z) : Z :=
  if addr_type =? IOT_PROTO_TYPE_BLUETOOTH then sizeof_IotBtAddr
  else if addr_type =? IOT_PROTO_TYPE_CAN then sizeof_IotCanAddr
  else if addr_type =? IOT_PROTO_TYPE_ZIGBEE then sizeof_IotZigbeeAddr
  else if addr_type =? IOT_PROTO_TYPE_LORA then sizeof_IotLoraAddr
  else if addr_type =? IOT_PROTO_TYPE_POWERLINK then sizeof_IotPowerLinkAddr
  else if addr_type =? IOT_PROTO_TYPE_MODBUSTCP then sizeof_IotModbusTcpAddr
  else 0.

(** ** Reading headers *)

Section Read.
Context {B : Type} `{ByteStore B}.

Definition get_ProxyMsgHeader (b : B) (off : Z) : outcome ProxyMsgHeader :=
  l ← st_gets [1; 1; 2; 2; 2]%nat b off;
  match l with
  | [v; t; f; k; n] =>
      Done {| pmh_version := v; pmh_type := t; pmh_frontend_sess_id := f;
              pmh_backend_sess_id := k; pmh_payload_len := n |}
  | _ => Fault OutOfBounds
  end.

(** The six words of an inner header; five of them for the 10-byte ones. *)
Definition get_words5 (b : B) (off : Z) : outcome InnerHeader :=
  l ← st_gets [2; 2; 2; 2; 2]%nat b off;
  match l with
  | [a; c; d; e; f] => Done {| iw0 := a; iw1 := c; iw2 := d; iw3 := e; iw4 := f; iw5 := 0 |}
  | _ => Fault OutOfBounds
  end.

Definition get_DevMsgHeader (b : B) (off : Z) : outcome DevMsgHeader :=
  w ← get_words5 b off; Done (dev_hdr w).
Definition get_StrgyMsgHeader (b : B) (off : Z) : outcome StrgyMsgHeader :=
  w ← get_words5 b off; Done (strgy_hdr w).
Definition get_SessMsgHeader (b : B) (off : Z) : outcome SessMsgHeader :=
  w ← get_words5 b off; Done (sess_hdr w).

Definition get_IotMsgHeader (b : B) (off : Z) : outcome IotMsgHeader :=
  l ← st_gets [2; 2; 2; 2; 2; 2]%nat b off;
  match l with
  | [a; c; d; e; f; g] =>
      Done (iot_hdr {| iw0 := a; iw1 := c; iw2 := d; iw3 := e; iw4 := f; iw5 := g |})
  | _ => Fault OutOfBounds
  end.
End Read.

(** ** Properties *)

Lemma macros_accept x : PROXY_MSG_LEN_VALID x = true /\ APP_SESSION_ID_VALID x = true.
Proof.
  unfold PROXY_MSG_LEN_VALID, APP_SESSION_ID_VALID, PROXY_MSG_MIN_SIZE, PROXY_MSG_MAX_SIZE,
    PROXY_ADMIN_SESSION_ID, PROXY_HANDOVER_SESSION_ID.
  rewrite !orb_true_iff, !negb_true_iff, !Z.leb_le, !Z.eqb_neq. lia.
Qed.
