(* ===== verification/PoolPort.v ===== *)
(** * PoolPort: the engine's queues over the shared memory pool

    The configurations of src/engine.c (21-28, 73-80), engine_init_shared_mem_queue
    and backend_engine_rx_queue_get.  They are an earlier port to the frontend;
    engine_init and the event loop use the HyperAMP channel. *)

From S2P Require Import Prelude Bytes Mem SharedMemIO ByteStore Message.
From stdpp Require Import base list numbers option.
From Stdlib Require Import ZArith Lia.
#[local] Open Scope Z_scope.

(** ** Model *)

Definition HSNET_RX_PHY_ADDR_BASE : Z := 0xA000.
Definition HSNET_MEM_BLOCK_SIZE : Z := 4096.
Definition HSNET_TX_PHY_ADDR_BASE : Z := HSNET_RX_PHY_ADDR_BASE + HSNET_MEM_BLOCK_SIZE * MAX_MAP_TABLE_ENTRY_COUNT.

Definition high_speed_net_rx_queue_config : SharedMemoryPoolQueueConfig :=
  {| conf_pool := 0; conf_map_mode := SHARE_MEM_MAP_MODE_CONTIGUOUS_BOTH; conf_phy_addr := HSNET_RX_PHY_ADDR_BASE;
     conf_virt_addr := 0; conf_capacity := MAX_MAP_TABLE_ENTRY_COUNT; conf_block_size := 4096 |}.
Definition high_speed_net_tx_queue_config : SharedMemoryPoolQueueConfig :=
  {| conf_pool := 0; conf_map_mode := SHARE_MEM_MAP_MODE_CONTIGUOUS_BOTH; conf_phy_addr := HSNET_TX_PHY_ADDR_BASE;
     conf_virt_addr := 0; conf_capacity := MAX_MAP_TABLE_ENTRY_COUNT; conf_block_size := 4096 |}.

Definition set_conf_pool (c : SharedMemoryPoolQueueConfig) (p : Z) : SharedMemoryPoolQueueConfig :=
  {| conf_pool := p; conf_map_mode := conf_map_mode c; conf_phy_addr := conf_phy_addr c;
     conf_virt_addr := conf_virt_addr c; conf_capacity := conf_capacity c; conf_block_size := conf_block_size c |}.

(** The fields of the engine and the two global configurations. *)
Record pool_ports := {
  pp_mem_pool : Z;
  pp_rx_queue : option SharedMemoryPoolQueue; pp_tx_queue : option SharedMemoryPoolQueue;
  pp_rx_conf : SharedMemoryPoolQueueConfig; pp_tx_conf : SharedMemoryPoolQueueConfig }.

(** What malloc answers for a queue: the struct, and the address of its blocks. *)
Record queue_alloc := { qa_queue : option SharedMemoryPoolQueue; qa_data : option Z }.

Definition create (c : SharedMemoryPoolQueueConfig) (a : queue_alloc) : option SharedMemoryPoolQueue :=
  shared_mem_pool_queue_create_backend (Some c) (qa_queue a) (qa_data a).

Definition engine_init_shared_mem_queue (eng : option pool_ports) (rx tx : queue_alloc) : status * option pool_ports :=
  match eng with
  | None => (PROCESS_ERROR, None)
  | Some e =>
      match create (pp_rx_conf e) rx with
      | None => (PROCESS_ERROR, eng)
      | Some rx_queue =>
          match create (pp_tx_conf e) tx with
          | None => (PROCESS_ERROR, eng)
          | Some tx_queue =>
              (PROCESS_OK,
               Some {| pp_mem_pool := pp_mem_pool e; pp_rx_queue := Some rx_queue; pp_tx_queue := Some tx_queue;
                       pp_rx_conf := set_conf_pool (pp_rx_conf e) (pp_mem_pool e);
                       pp_tx_conf := set_conf_pool (pp_tx_conf e) (pp_mem_pool e) |})
          end
      end
  end.

(** [buf_ptr], [out_len]: whether the pointers are not NULL.  The result holds
    what is written to [*buf_ptr] and [*out_len]. *)
Definition backend_engine_rx_queue_get (m : mem) (queue : option SharedMemoryPoolQueue) (buf_ptr : bool)
    (buf_max_len : Z) (out_len : bool) : outcome (status * option Z * option Z * option SharedMemoryPoolQueue) :=
  if bool_decide (queue = None) || negb buf_ptr || negb out_len then Done (PROCESS_ERROR, None, None, queue) else
  r ← shared_mem_pool_queue_recv_zc queue true true;
  let '(ret, buf, queue) := r in
  if status_code ret =? -1 then Done (PROCESS_ERROR, buf, None, queue) else
  if status_code ret =? 1 then Done (PROCESS_AGAIN, buf, None, queue) else
  h ← get_ProxyMsgHeader m (default 0 buf);
  if buf_max_len <? pmh_payload_len h + PROXY_MSG_HDR_SIZE then Done (PROCESS_ERROR, buf, None, queue)
  else Done (ret, buf, Some (pmh_payload_len h), queue).

(** Constant in this version. *)
Definition backend_engine_tx_queue_send : status := PROCESS_OK.

(** ** Properties *)

(** Reading a packed structure from memory always succeeds. *)
Lemma mem_header_total (m : mem) a : exists h, get_ProxyMsgHeader m a = Done h.
Proof. by eexists. Qed.

(** After a successful start both queues are well formed and empty, over the
    engine's blocks. *)
Lemma created_queue_wf c qa q :
  conf_map_mode c = SHARE_MEM_MAP_MODE_CONTIGUOUS_BOTH -> conf_capacity c = MAX_MAP_TABLE_ENTRY_COUNT -> conf_block_size c = 4096 ->
  (forall a, qa_data qa = Some a -> 0 <= a /\ a + 257 * 4096 < 2 ^ 64) -> create c qa = Some q ->
  spq_wf q /\ pending q = [] /\ capacity q = 256 /\ block_size q = 4096 /\ qa_data qa = Some (virt_addr1 q).
Proof.
  intros Hm Hc Hb Ha. unfold create, shared_mem_pool_queue_create_backend, IS_VALID_SHM_CONF_MAP_MODE. rewrite Hm. cbn [negb].
  destruct (qa_queue qa) as [q0|]; [|done]. destruct (qa_data qa) as [a|]; [|done]. intros [= <-].
  destruct (Ha a eq_refl). rewrite Hc, Hb. split; [|done]. by split; cbn.
Qed.

Lemma get_pending m q buf_max_len :
  spq_wf q ->
  match pending q with
  | [] => backend_engine_rx_queue_get m (Some q) true buf_max_len true = Done (PROCESS_AGAIN, None, None, Some q)
  | a :: s =>
      exists q' h, get_ProxyMsgHeader m a = Done h /\ spq_wf q' /\ pending q' = s /\
      backend_engine_rx_queue_get m (Some q) true buf_max_len true =
      Done (if buf_max_len <? pmh_payload_len h + PROXY_MSG_HDR_SIZE then (PROCESS_ERROR, Some a, None, Some q')
            else (PROCESS_OK, Some a, Some (pmh_payload_len h), Some q'))
  end.
Proof.
  intros Hw. destruct (pool_ring_is_fifo q Hw) as [_ (st & b & q' & E & Hr)].
  unfold backend_engine_rx_queue_get. rewrite bool_decide_false by done. cbn [orb negb]. rewrite E. cbn [mbind outcome_bind].
  destruct (pending q) as [|a s].
  - by destruct Hr as (-> & -> & ->).
  - destruct Hr as (-> & -> & Hw' & Hp). destruct (mem_header_total m a) as [h Hh]. exists q', h.
    split; [done|]. split; [done|]. split; [done|]. cbn [status_code Z.eqb Pos.eqb Z.opp default]. unfold id. rewrite Hh.
    cbn [mbind outcome_bind]. by case_match.
Qed.

(** The engine's receive port over the pool.  Starting it gives two
    well-formed empty queues of 256 slots of 4096 bytes.  On any well-formed
    queue backend_engine_rx_queue_get answers AGAIN when nothing is pending;
    otherwise it takes the oldest block and hands out its address and the
    payload length of its header, or, when header and payload exceed the
    caller's limit, answers ERROR, and the block is gone. *)
Theorem pool_port_receives e rx tx e' :
  pp_rx_conf e = high_speed_net_rx_queue_config -> pp_tx_conf e = high_speed_net_tx_queue_config ->
  (forall a, qa_data rx = Some a \/ qa_data tx = Some a -> 0 <= a /\ a + 257 * 4096 < 2 ^ 64) ->
  engine_init_shared_mem_queue (Some e) rx tx = (PROCESS_OK, Some e') ->
  (exists q1 q2, pp_rx_queue e' = Some q1 /\ pp_tx_queue e' = Some q2 /\ spq_wf q1 /\ spq_wf q2 /\ pending q1 = [] /\ pending q2 = []) /\
  forall m q buf_max_len, spq_wf q ->
  match pending q with
  | [] => backend_engine_rx_queue_get m (Some q) true buf_max_len true = Done (PROCESS_AGAIN, None, None, Some q)
  | a :: s =>
      exists q' h, get_ProxyMsgHeader m a = Done h /\ spq_wf q' /\ pending q' = s /\
      backend_engine_rx_queue_get m (Some q) true buf_max_len true =
      Done (if buf_max_len <? pmh_payload_len h + PROXY_MSG_HDR_SIZE then (PROCESS_ERROR, Some a, None, Some q')
            else (PROCESS_OK, Some a, Some (pmh_payload_len h), Some q'))
  end.
Proof.
  intros Hr Ht Ha. unfold engine_init_shared_mem_queue. destruct (create (pp_rx_conf e) rx) as [q1|] eqn:E1; [|done].
  destruct (create (pp_tx_conf e) tx) as [q2|] eqn:E2; [|done]. intros [= <-]. split; [|intros; by apply get_pending].
  rewrite Hr in E1. rewrite Ht in E2. apply created_queue_wf in E1; [|auto..]. apply created_queue_wf in E2; [|auto..].
  exists q1, q2. tauto.
Qed.

Definition demo_alloc (a : Z) : queue_alloc := {| qa_queue := Some demo_junk; qa_data := Some a |}.
Definition demo_ports : pool_ports :=
  {| pp_mem_pool := 1; pp_rx_queue := None; pp_tx_queue := None; pp_rx_conf := high_speed_net_rx_queue_config;
     pp_tx_conf := high_speed_net_tx_queue_config |}.

Lemma pool_port_receives_witness : exists e' q,
  engine_init_shared_mem_queue (Some demo_ports) (demo_alloc 0x100000) (demo_alloc 0x400000) = (PROCESS_OK, Some e') /\
  pp_rx_queue e' = Some q /\ pending q = [].
Proof.
  edestruct (pool_port_receives demo_ports (demo_alloc 0x100000) (demo_alloc 0x400000)) as [H _].
  - reflexivity.
  - reflexivity.
  - intros a [ [= <-]|[= <-] ]; by vm_compute.
  - reflexivity.
  - destruct H as (q1 & q2 & E1 & _ & _ & _ & Hp & _). eexists _, q1. split; [reflexivity|]. by split.
Defined.

(** An allocation failure leaves the engine as it was. *)
Lemma failed_queue_init e rx tx st e' :
  engine_init_shared_mem_queue (Some e) rx tx = (st, e') -> st <> PROCESS_OK -> e' = Some e.
Proof. unfold engine_init_shared_mem_queue. repeat case_match; intros [= <- <-] Hst; congruence. Qed.
