(* ===== verification/Build.v ===== *)
(** * Build: construction of proxy messages

    The [build_proxy_*_message] functions of src/backend_proto.c.  The inner
    builders write through any [ByteStore]; [build_proxy_general_message]
    selects the buffer (a block of the pool queue, a malloc'd block, or
    [global_amp_tx_buf]) and, in the last case, enqueues the result on the TX
    ring. *)

From S2P Require Import Prelude Bytes Mem HyperampQueue HyperampLinux SharedMemIO ByteStore Message.
From stdpp Require Import base list numbers option.
From Stdlib Require Import ZArith Lia.
#[local] Open Scope Z_scope.

(** ** Inner builders *)

(** The switch over [proto_type]; [None] for an unsupported protocol. *)
Definition iot_addr_info_len (proto_type : Z) : option Z :=
  if proto_type =? IOT_PROTO_TYPE_BLUETOOTH then Some sizeof_IotBtAddr
  else if proto_type =? IOT_PROTO_TYPE_CAN then Some sizeof_IotCanAddr
  else if proto_type =? IOT_PROTO_TYPE_ZIGBEE then Some sizeof_IotZigbeeAddr
  else if proto_type =? IOT_PROTO_TYPE_LORA then Some sizeof_IotLoraAddr
  else if proto_type =? IOT_PROTO_TYPE_POWERLINK then Some sizeof_IotPowerLinkAddr
  else if proto_type =? IOT_PROTO_TYPE_MODBUSTCP then Some sizeof_IotModbusTcpAddr
  else None.

Section Builders.
Context {B : Type} `{ByteStore B}.

(** [memcpy(dst + off, payload, n)]. *)
Definition copy_in (b : B) (off : Z) (payload : list Z) (n : Z) : outcome B :=
  l ← bread payload 0 n; st_write b off l.

(** [payload_len] is a size_t, and so is the table's answer. *)
Definition build_proxy_dev_message (h : DevMsgHeader) (payload : list Z) (payload_len : Z)
    (b : B) (off : Z) : outcome (status * B) :=
  if negb (payload_len =? u64 (DEV_MSG_HEADER_PAYLOAD_LEN h)) then Done (PROCESS_ERROR, b) else
  if negb (payload_len =? dmh_payload_len h) then Done (PROCESS_ERROR, b) else
  b ← st_puts [(2%nat, dmh_version h); (2%nat, dmh_msg_type h); (2%nat, dmh_msg_id h);
               (2%nat, dmh_action_type h); (2%nat, payload_len)] b off;
  b ← copy_in b (off + sizeof_DevMsgHeader) payload payload_len;
  Done (PROCESS_OK, b).

Definition build_proxy_strgy_message (h : StrgyMsgHeader) (payload : list Z) (payload_len : Z)
    (b : B) (off : Z) : outcome (status * B) :=
  if negb (payload_len =? u64 (STRGY_MSG_HEADER_PAYLOAD_LEN h)) then Done (PROCESS_ERROR, b) else
  if negb (payload_len =? stmh_payload_len h) then Done (PROCESS_ERROR, b) else
  b ← st_puts [(2%nat, stmh_version h); (2%nat, stmh_msg_type h); (2%nat, stmh_msg_id h);
               (2%nat, stmh_action_type h); (2%nat, payload_len)] b off;
  b ← copy_in b (off + sizeof_StrgyMsgHeader) payload payload_len;
  Done (PROCESS_OK, b).

Definition build_proxy_sess_message (h : SessMsgHeader) (payload : list Z) (payload_len : Z)
    (b : B) (off : Z) : outcome (status * B) :=
  if negb (payload_len =? u64 (SESS_MSG_HEADER_PAYLOAD_LEN h)) then Done (PROCESS_ERROR, b) else
  if negb (payload_len =? semh_payload_len h) then Done (PROCESS_ERROR, b) else
  b ← st_puts [(2%nat, semh_version h); (2%nat, semh_msg_type h); (2%nat, semh_action_type h);
               (2%nat, semh_ip_version h); (2%nat, semh_payload_len h)] b off;
  b ← copy_in b (off + sizeof_SessMsgHeader) payload payload_len;
  Done (PROCESS_OK, b).

Definition build_proxy_data_message (payload : list Z) (payload_len : Z) (b : B) (off : Z)
  : outcome (status * B) :=
  b ← copy_in b off payload payload_len; Done (PROCESS_OK, b).

(** The header fields are written in the order of the source: device port,
    opcode, protocol type, version, reserve; the length last. *)
Definition build_proxy_iot_message (h : GeneralProxyMsgHeader) (payload : list Z)
    (payload_len : Z) (b : B) (off : Z) : outcome (status * B) :=
  let proto_type := imh_proto_type (iot_hdr (inner_header h)) in
  b ← st_put 2 b (off + 6) 0;
  b ← st_put 2 b (off + 4) 0;
  b ← st_put 2 b (off + 2) proto_type;
  b ← st_put 2 b (off + 0) 0;
  b ← st_put 2 b (off + 10) 0;
  match iot_addr_info_len proto_type with
  | None => Done (PROCESS_ERROR, b)
  | Some addr_info_len =>
      if sizeof_addr_info <? addr_info_len then Done (PROCESS_ERROR, b) else
      let addr_info_len :=
        if (0 <? iot_addr_len h) && (iot_addr_len h <? addr_info_len)
        then iot_addr_len h else addr_info_len in
      let data := off + sizeof_IotMsgHeader in
      b ← copy_in b data (addr_info (iot_addr h)) addr_info_len;
      b ← (if 0 <? payload_len then copy_in b (data + addr_info_len) payload payload_len
           else Done b);
      b ← st_put 2 b (off + 8) (payload_len + addr_info_len);
      Done (PROCESS_OK, b)
  end.

(** The switch of [build_proxy_general_message] on the outer type: the inner
    header's size and the inner build at [off]; [None] for the early returns. *)
Definition build_inner (h : GeneralProxyMsgHeader) (payload : list Z) (payload_len : Z)
    (b : B) (off : Z) : outcome (option Z * status * B) :=
  let t := pmh_type (outer_header h) in
  if t =? PROXY_MSG_TYPE_DEV then
    r ← build_proxy_dev_message (dev_hdr (inner_header h)) payload payload_len b off;
    Done (Some sizeof_DevMsgHeader, fst r, snd r)
  else if t =? PROXY_MSG_TYPE_STRGY then
    r ← build_proxy_strgy_message (strgy_hdr (inner_header h)) payload payload_len b off;
    Done (Some sizeof_StrgyMsgHeader, fst r, snd r)
  else if t =? PROXY_MSG_TYPE_SESS then
    r ← build_proxy_sess_message (sess_hdr (inner_header h)) payload payload_len b off;
    Done (Some sizeof_SessMsgHeader, fst r, snd r)
  else if t =? PROXY_MSG_TYPE_DATA then
    r ← build_proxy_data_message payload payload_len b off;
    Done (Some 0, fst r, snd r)
  else if t =? PROXY_MSG_TYPE_IOT then
    match iot_addr_info_len (imh_proto_type (iot_hdr (inner_header h))) with
    | None => Done (None, PROCESS_ERROR, b)
    | Some sub_iot_hdr_len =>
        r ← build_proxy_iot_message h payload payload_len b off;
        Done (Some (sizeof_IotMsgHeader + sub_iot_hdr_len), fst r, snd r)
    end
  else Done (None, PROCESS_ERROR, b).

(** Lines common to the three allocation modes: the outer header at [off],
    the inner message after it, the outer length at the end.  The total
    size is returned on success. *)
Definition fill_message (h : GeneralProxyMsgHeader) (payload : list Z) (payload_len : Z)
    (b : B) (off : Z) : outcome (option Z * B) :=
  let o := outer_header h in
  b ← st_puts [(1%nat, pmh_version o); (1%nat, pmh_type o); (2%nat, pmh_frontend_sess_id o);
               (2%nat, pmh_backend_sess_id o)] b off;
  r ← build_inner h payload payload_len b (off + PROXY_MSG_HDR_SIZE);
  match r with
  | (Some inner_len, PROCESS_OK, b) =>
      let proxy_msg_payload_len := u16 inner_len in
      b ← st_put 2 b (off + 6) (payload_len + proxy_msg_payload_len);
      Done (Some (payload_len + proxy_msg_payload_len + PROXY_MSG_HDR_SIZE), b)
  | (_, _, b) => Done (None, b)
  end.
End Builders.

(** ** The general builder *)

Inductive MemoryAllocMode := MEMORY_ALLOC_SHARED | MEMORY_ALLOC_CALLER | MEMORY_ALLOC_AMPQUEUE.

(** What the builder needs of [BackendEngine]. *)
Record tx_engine := { eng_mem_pool : Z; eng_ports : hyper_ports }.

(** Shared memory, [global_amp_tx_buf], and the pool queue passed as [ring_buf]. *)
Record tx_state := { tx_mem : mem; tx_amp_buf : list Z; tx_ring : option SharedMemoryPoolQueue }.

(** What [*result_msg] points to after the call. *)
Inductive msg_ptr := InSharedBlock (addr : Z) | InAmpBuffer.

Definition HYPERAMP_MSG_HDR_PLUS_MAX_SIZE : Z := 8 + 4088.

Definition with_tx_mem (s : tx_state) (m : mem) : tx_state :=
  {| tx_mem := m; tx_amp_buf := tx_amp_buf s; tx_ring := tx_ring s |}.
Definition with_tx_buf (s : tx_state) (b : list Z) : tx_state :=
  {| tx_mem := tx_mem s; tx_amp_buf := b; tx_ring := tx_ring s |}.
Definition with_tx_ring (s : tx_state) (r : option SharedMemoryPoolQueue) : tx_state :=
  {| tx_mem := tx_mem s; tx_amp_buf := tx_amp_buf s; tx_ring := r |}.

(** An unknown message or IoT type returns at once; any other failure rolls the
    head of [ring_buf] back first. *)
Definition ring_after_failure (h : GeneralProxyMsgHeader) (ring : option SharedMemoryPoolQueue)
  : option SharedMemoryPoolQueue :=
  let t := pmh_type (outer_header h) in
  let known :=
    PROXY_MSG_TYPE_VALID t &&
    (negb (t =? PROXY_MSG_TYPE_IOT)
     || bool_decide (is_Some (iot_addr_info_len (imh_proto_type (iot_hdr (inner_header h)))))) in
  if known then SHM_POOL_QUEUE_HEAD_ROLLBACK ring else ring.

(** MEMORY_ALLOC_SHARED: build in the next block of [ring_buf]; roll the head
    back when an inner builder refuses. *)
Definition build_general_shared (h : GeneralProxyMsgHeader) (payload : list Z) (payload_len : Z)
    (s : tx_state) : outcome (status * option msg_ptr * tx_state) :=
  match tx_ring s with
  | None => Done (PROCESS_ERROR, None, s)
  | Some _ =>
      a ← SHM_POOL_QUEUE_ALLOC_FROM_HEADER (tx_ring s);
      let s := with_tx_ring s (snd a) in
      let mem_addr := default ERROR_SHARED_MEM_ADDR (fst a) in
      if mem_addr =? ERROR_SHARED_MEM_ADDR then Done (PROCESS_ERROR, None, s) else
      r ← fill_message h payload payload_len (tx_mem s) mem_addr;
      let s := with_tx_mem s (snd r) in
      match fst r with
      | Some _ => Done (PROCESS_OK, Some (InSharedBlock mem_addr), s)
      | None =>
          Done (PROCESS_ERROR, Some (InSharedBlock mem_addr),
                with_tx_ring s (ring_after_failure h (tx_ring s)))
      end
  end.

(** MEMORY_ALLOC_CALLER: build in a malloc'd block, whose address is dropped. *)
Definition build_general_caller (malloc : Z -> option (list Z)) (h : GeneralProxyMsgHeader)
    (payload : list Z) (payload_len : Z) (s : tx_state)
  : outcome (status * option msg_ptr * tx_state) :=
  match malloc (PROXY_MSG_HDR_SIZE + pmh_payload_len (outer_header h)) with
  | None => Done (PROCESS_ERROR, None, s)
  | Some blk =>
      r ← fill_message h payload payload_len blk 0;
      match fst r with
      | Some _ => Done (PROCESS_OK, None, s)
      | None => Done (PROCESS_ERROR, None, with_tx_ring s (ring_after_failure h (tx_ring s)))
      end
  end.

(** MEMORY_ALLOC_AMPQUEUE: build in the zeroed [global_amp_tx_buf] and enqueue
    header and payload on the TX ring. *)
Definition build_general_amp (e : tx_engine) (h : GeneralProxyMsgHeader) (payload : list Z)
    (payload_len : Z) (s : tx_state) : outcome (status * option msg_ptr * tx_state) :=
  let p := eng_ports e in
  if hyper_tx_queue p =? 0 then Done (PROCESS_ERROR, None, s) else
  let buf := replicate (Z.to_nat HYPERAMP_MSG_HDR_PLUS_MAX_SIZE) 0 in
  r ← fill_message h payload payload_len buf 0;
  let s := with_tx_buf s (snd r) in
  match fst r with
  | None =>
      Done (PROCESS_ERROR, Some InAmpBuffer,
            with_tx_ring s (ring_after_failure h (tx_ring s)))
  | Some total =>
      q ← hyperamp_queue_enqueue (tx_mem s) (hyper_tx_queue p) HYPERAMP_ZONE_ID_Linux
            (Some (tx_amp_buf s)) total (hyper_amp_data_region p);
      Done (fst q, Some InAmpBuffer, with_tx_mem s (snd q))
  end.

Definition build_proxy_general_message (malloc : Z -> option (list Z)) (engine : option tx_engine)
    (header : option GeneralProxyMsgHeader) (payload : option (list Z)) (payload_len : Z)
    (result_msg : bool) (alloc_mode : MemoryAllocMode) (s : tx_state)
  : outcome (status * option msg_ptr * tx_state) :=
  match header, payload, result_msg with
  | Some h, Some pl, true =>
      match engine with
      | None => Done (PROCESS_ERROR, None, s)
      | Some e =>
          if eng_mem_pool e =? 0 then Done (PROCESS_ERROR, None, s) else
          match alloc_mode with
          | MEMORY_ALLOC_SHARED => build_general_shared h pl payload_len s
          | MEMORY_ALLOC_CALLER => build_general_caller malloc h pl payload_len s
          | MEMORY_ALLOC_AMPQUEUE => build_general_amp e h pl payload_len s
          end
      end
  | _, _, _ => Done (PROCESS_ERROR, None, s)
  end.

(** The second copy of the function differs only in logging. *)
Definition build_proxy_general_message_tmp := build_proxy_general_message.
