(* ===== verification/BuildSpec.v ===== *)
(** * BuildSpec: built messages parse back, and reach the other zone

    Every inner builder writes exactly what the corresponding reader of
    [Message] reads; a message built for the AMP queue is the newest block of
    the TX ring. *)

From S2P Require Import Prelude Bytes Mem HyperampQueue HyperampQueueSpec HyperampLinux SharedMemIO ByteStore Message Build.
From stdpp Require Import base list numbers option.
From Stdlib Require Import ZArith Lia.
#[local] Open Scope Z_scope.

(** ** Well-formed headers: every field fits its width *)

Definition u8_ok (z : Z) : bool := (0 <=? z) && (z <? 256).
Definition u16_ok (z : Z) : bool := (0 <=? z) && (z <? 65536).

Definition header_ok (h : GeneralProxyMsgHeader) : bool :=
  let o := outer_header h in let i := inner_header h in
  u8_ok (pmh_version o) && u8_ok (pmh_type o) && u16_ok (pmh_frontend_sess_id o) &&
  u16_ok (pmh_backend_sess_id o) && u16_ok (iw0 i) && u16_ok (iw1 i) && u16_ok (iw2 i) &&
  u16_ok (iw3 i) && u16_ok (iw4 i) && u16_ok (iw5 i).

Lemma u8_ok_width z : u8_ok z = true -> in_width (1%nat, z).
Proof. unfold u8_ok, in_width. rewrite andb_true_iff, Z.leb_le, Z.ltb_lt. cbn. lia. Qed.

Lemma u16_ok_width z : u16_ok z = true -> in_width (2%nat, z).
Proof. unfold u16_ok, in_width. rewrite andb_true_iff, Z.leb_le, Z.ltb_lt. cbn. lia. Qed.

Lemma u16_ok_spec z : u16_ok z = true <-> 0 <= z < 65536.
Proof. unfold u16_ok. rewrite andb_true_iff, Z.leb_le, Z.ltb_lt. done. Qed.

Section Spec.
Context {B : Type} `{ByteStoreLaws B}.

Implicit Types (b : B).

Lemma copy_in_spec b off payload n b' :
  copy_in b off payload n = Done b' ->
  st_read b' off n = bread payload 0 n /\
  (forall o k, o + k <= off \/ off + n <= o -> st_read b' o k = st_read b o k) /\
  (forall o k, st_room b' o k <-> st_room b o k).
Proof.
  unfold copy_in. intros Hc. outcome_inv. pose proof (bread_length _ _ _ _ Ho) as Hl.
  split_and!.
  - rewrite Ho, <- Hl. by eapply st_read_write_eq.
  - intros o k Hd. eapply st_read_write_ne; [exact Hk|]. by rewrite Hl.
  - intros o k. by eapply st_room_write.
Qed.

Lemma copy_in_ok b off payload n :
  st_room b off n -> 0 <= n <= blen payload -> exists b', copy_in b off payload n = Done b'.
Proof.
  intros Hr Hn. unfold copy_in. rewrite bread_ok by lia. cbn. apply st_write_ok.
  unfold blen in *. rewrite length_take, length_drop.
  change (Z.to_nat 0) with 0%nat. replace (Z.of_nat _) with n by lia. done.
Qed.

(** The common shape of the three 10-byte headers. *)
Lemma five_words_spec a c d e f payload n b off b1 b2 :
  Forall (fun z => u16_ok z = true) [a; c; d; e; f] ->
  st_puts [(2%nat, a); (2%nat, c); (2%nat, d); (2%nat, e); (2%nat, f)] b off = Done b1 ->
  copy_in b1 (off + 10) payload n = Done b2 ->
  get_words5 b2 off = Done {| iw0 := a; iw1 := c; iw2 := d; iw3 := e; iw4 := f; iw5 := 0 |} /\
  st_read b2 (off + 10) n = bread payload 0 n /\
  (forall o k, o + k <= off -> st_read b2 o k = st_read b o k) /\
  (forall o k, st_room b2 o k <-> st_room b o k).
Proof.
  intros Hw Hp Hc. destruct (copy_in_spec _ _ _ _ _ Hc) as (Hr & Hf & Hroom). split_and!.
  - unfold get_words5. rewrite (st_gets_ext _ b1 b2).
    2:{ intros o k Ho Hk Hok. apply Hf. left. cbn in Hok. lia. }
    pose proof (st_gets_puts _ _ _ _ Hp) as Hg. cbn [map fst snd] in Hg.
    rewrite Hg; [done|]. do 5 (apply Forall_cons_1 in Hw as [? Hw]).
    repeat constructor; by apply u16_ok_width.
  - done.
  - intros o k Hok. rewrite Hf by lia.
    rewrite (st_read_puts_ne _ _ _ _ _ _ Hp) by (left; lia). done.
  - intros o k. rewrite Hroom. by eapply st_puts_room.
Qed.

Lemma five_words_ok a c d e f payload n b off :
  st_room b off (10 + n) -> 0 <= n <= blen payload ->
  exists b1 b2, st_puts [(2%nat, a); (2%nat, c); (2%nat, d); (2%nat, e); (2%nat, f)] b off = Done b1 /\
  copy_in b1 (off + 10) payload n = Done b2.
Proof.
  intros Hr Hn.
  destruct (st_puts_ok [(2%nat, a); (2%nat, c); (2%nat, d); (2%nat, e); (2%nat, f)] b off) as [b1 Hb1].
  { eapply st_room_sub; [exact Hr|cbn; lia..]. }
  exists b1. destruct (copy_in_ok b1 (off + 10) payload n) as [b2 Hb2]; [|done|eauto].
  apply (st_puts_room _ _ _ _ _ _ Hb1). eapply st_room_sub; [exact Hr|lia..].
Qed.

Definition words (i : InnerHeader) : InnerHeader :=
  {| iw0 := iw0 i; iw1 := iw1 i; iw2 := iw2 i; iw3 := iw3 i; iw4 := iw4 i; iw5 := 0 |}.

Lemma header_ok_words h :
  header_ok h = true ->
  Forall (fun z => u16_ok z = true)
    [iw0 (inner_header h); iw1 (inner_header h); iw2 (inner_header h); iw3 (inner_header h);
     iw4 (inner_header h)].
Proof.
  unfold header_ok. rewrite !andb_true_iff. intros Hk. repeat constructor; tauto.
Qed.

(** Device, strategy and session messages: header words and payload. *)
Lemma build_inner_words h payload n b off k st b' :
  header_ok h = true -> 0 <= pmh_type (outer_header h) <= PROXY_MSG_TYPE_SESS ->
  build_inner h payload n b off = Done (k, st, b') ->
  k = Some 10 /\
  (st = PROCESS_OK ->
   get_words5 b' off = Done (words (inner_header h)) /\
   st_read b' (off + 10) n = bread payload 0 n /\
   (forall o j, o + j <= off -> st_read b' o j = st_read b o j) /\
   (forall o j, st_room b' o j <-> st_room b o j)).
Proof.
  intros Hh Ht. apply header_ok_words in Hh. unfold PROXY_MSG_TYPE_SESS in Ht.
  assert (forall st b2 (c1 : bool) (v : Z),
    (if negb c1 then Done (PROCESS_ERROR, b) else
     if negb (n =? iw4 (inner_header h)) then Done (PROCESS_ERROR, b) else
     b ← st_puts [(2%nat, iw0 (inner_header h)); (2%nat, iw1 (inner_header h));
                  (2%nat, iw2 (inner_header h)); (2%nat, iw3 (inner_header h)); (2%nat, v)] b off;
     b ← copy_in b (off + 10) payload n; Done (PROCESS_OK, b)) = Done (st, b2) ->
    v = n \/ v = iw4 (inner_header h) -> st = PROCESS_OK ->
    get_words5 b2 off = Done (words (inner_header h)) /\
    st_read b2 (off + 10) n = bread payload 0 n /\
    (forall o j, o + j <= off -> st_read b2 o j = st_read b o j) /\
    (forall o j, st_room b2 o j <-> st_room b o j)) as Hcore.
  { intros st0 b2 c1 v Hb Hv ->. destruct c1; [|discriminate]. cbn [negb] in Hb.
    destruct (Z.eqb_spec n (iw4 (inner_header h))) as [En|]; [|discriminate]. cbn [negb] in Hb.
    assert (v = iw4 (inner_header h)) as -> by (destruct Hv; congruence).
    outcome_inv. clear En. subst. by eapply five_words_spec. }
  unfold build_inner. unfold PROXY_MSG_TYPE_DEV, PROXY_MSG_TYPE_STRGY, PROXY_MSG_TYPE_SESS.
  destruct (Z.eqb_spec (pmh_type (outer_header h)) 0);
    [|destruct (Z.eqb_spec (pmh_type (outer_header h)) 1);
      [|destruct (Z.eqb_spec (pmh_type (outer_header h)) 2); [|lia]]];
    intros Hb; outcome_inv; destruct r as [st0 b0]; cbn [fst snd] in *; simplify_eq; (split; [done|]).
  - eapply (Hcore _ _ _ n); [exact Ho|by left].
  - eapply (Hcore _ _ _ n); [exact Ho|by left].
  - eapply (Hcore _ _ _ (iw4 (inner_header h))); [exact Ho|by right].
Qed.

Lemma build_inner_data h payload n b off k st b' :
  pmh_type (outer_header h) = PROXY_MSG_TYPE_DATA ->
  build_inner h payload n b off = Done (k, st, b') ->
  k = Some 0 /\ st = PROCESS_OK /\ st_read b' off n = bread payload 0 n /\
  (forall o j, o + j <= off -> st_read b' o j = st_read b o j).
Proof.
  intros Ht. unfold build_inner. rewrite Ht. cbn [Z.eqb Pos.eqb PROXY_MSG_TYPE_DATA PROXY_MSG_TYPE_DEV
    PROXY_MSG_TYPE_STRGY PROXY_MSG_TYPE_SESS]. unfold build_proxy_data_message. intros Hb.
  outcome_inv. subst. cbn [fst snd] in *. simplify_eq.
  destruct (copy_in_spec _ _ _ _ _ Ho0) as (Hr & Hf & _).
  split_and!; try done. intros o j Hoj. apply Hf. by left.
Qed.

Definition outer_fields (o : ProxyMsgHeader) : list (nat * Z) :=
  [(1%nat, pmh_version o); (1%nat, pmh_type o); (2%nat, pmh_frontend_sess_id o);
   (2%nat, pmh_backend_sess_id o)].

(** The outer header is written around the inner build. *)
Lemma outer_header_spec h b off b1 b2 v b3 :
  header_ok h = true ->
  st_puts (outer_fields (outer_header h)) b off = Done b1 ->
  (forall o j, o + j <= off + 8 -> st_read b2 o j = st_read b1 o j) ->
  st_put 2 b2 (off + 6) v = Done b3 ->
  get_ProxyMsgHeader b3 off =
    Done {| pmh_version := pmh_version (outer_header h); pmh_type := pmh_type (outer_header h);
            pmh_frontend_sess_id := pmh_frontend_sess_id (outer_header h);
            pmh_backend_sess_id := pmh_backend_sess_id (outer_header h);
            pmh_payload_len := u16 v |}.
Proof.
  intros Hh Hp Hf Hv. unfold get_ProxyMsgHeader.
  change [1; 1; 2; 2; 2]%nat with ([1; 1; 2; 2] ++ [2])%nat. rewrite st_gets_app.
  rewrite (st_gets_ext [1; 1; 2; 2]%nat b1 b3).
  2:{ intros o j Ho Hj Hoj. cbn in Hoj. rewrite (st_read_put_ne _ _ _ _ _ _ _ Hv) by lia.
      apply Hf. lia. }
  pose proof (st_gets_puts _ _ _ _ Hp) as Hg. cbn [map fst snd outer_fields] in Hg.
  rewrite Hg.
  2:{ unfold header_ok in Hh. rewrite !andb_true_iff in Hh. destruct_and! Hh.
      repeat constructor; (by apply u8_ok_width) || by apply u16_ok_width. }
  cbn [mbind outcome_bind st_gets total_width fold_right].
  replace (off + _) with (off + 6) by lia. rewrite (st_get_put_eq _ _ _ _ _ Hv). done.
Qed.

(** Payload offset and length of the inner header, by message type. *)
Definition inner_size (h : GeneralProxyMsgHeader) : Z :=
  if pmh_type (outer_header h) =? PROXY_MSG_TYPE_DATA then 0 else 10.

Lemma fill_message_spec h payload n b off total b' :
  header_ok h = true -> 0 <= pmh_type (outer_header h) <= PROXY_MSG_TYPE_DATA ->
  fill_message h payload n b off = Done (Some total, b') ->
  let o := outer_header h in
  total = n + inner_size h + 8 /\
  get_ProxyMsgHeader b' off =
    Done {| pmh_version := pmh_version o; pmh_type := pmh_type o;
            pmh_frontend_sess_id := pmh_frontend_sess_id o;
            pmh_backend_sess_id := pmh_backend_sess_id o;
            pmh_payload_len := u16 (n + inner_size h) |} /\
  (pmh_type o <> PROXY_MSG_TYPE_DATA ->
   get_words5 b' (off + 8) = Done (words (inner_header h))) /\
  st_read b' (off + 8 + inner_size h) n = bread payload 0 n.
Proof.
  intros Hh Ht Hb o. unfold fill_message, PROXY_MSG_HDR_SIZE in Hb.
  fold (outer_fields (outer_header h)) in Hb. outcome_inv. destruct r0 as [[k st] b2]. unfold inner_size. fold o.
  destruct (Z.eqb_spec (pmh_type o) PROXY_MSG_TYPE_DATA) as [Ed|Ed].
  - destruct (build_inner_data _ _ _ _ _ _ _ _ Ed Ho0) as (-> & -> & Hr & Hf).
    outcome_inv. simplify_eq. change (u16 0) with 0 in *. split; [done|]. split.
    { by eapply outer_header_spec. }
    split; [done|]. rewrite (st_read_put_ne _ _ _ _ _ _ _ Ho1) by lia. by rewrite Z.add_0_r.
  - destruct (build_inner_words _ _ _ _ _ _ _ _ Hh ltac:(unfold PROXY_MSG_TYPE_DATA, PROXY_MSG_TYPE_SESS, o in *; lia) Ho0) as [-> Hi].
    destruct st; [|discriminate..]. destruct (Hi eq_refl) as (Hw & Hr & Hf & _).
    outcome_inv. simplify_eq. change (u16 10) with 10 in *. split; [done|]. split.
    { by eapply outer_header_spec. }
    split.
    + intros _. rewrite <- Hw. unfold get_words5. rewrite (st_gets_ext _ b2 b'); [done|].
      intros x j Hx Hj _. rewrite (st_read_put_ne _ _ _ _ _ _ _ Ho1) by lia. done.
    + rewrite (st_read_put_ne _ _ _ _ _ _ _ Ho1) by lia. done.
Qed.
End Spec.

(** ** Messages for the AMP queue *)

Lemma bwrite_bytes buf off l buf' :
  bwrite buf off l = Done buf' -> Forall is_byte buf -> Forall is_byte l -> Forall is_byte buf'.
Proof.
  unfold bwrite. case_match; [|done]. intros [= <-] Hb Hl.
  apply Forall_app. split; [by apply Forall_take|]. apply Forall_app. split; [done|by apply Forall_drop].
Qed.

(** A property of the buffer that writing bytes keeps. *)
Section Keep.
Context {B : Type} `{ByteStore B} (P : B -> Prop).
Hypothesis (HP : forall b off l b', P b -> Forall is_byte l -> st_write b off l = Done b' -> P b').

Lemma puts_keep fs b off b' : st_puts fs b off = Done b' -> P b -> P b'.
Proof.
  revert b off. induction fs as [|[w v] fs IH]; intros b off Hp Hb; cbn in Hp; [by simplify_eq|].
  outcome_inv. eapply IH; [exact Hk|]. eapply HP; [exact Hb|apply le_bytes_bytes|exact Ho].
Qed.

Lemma copy_in_keep b off payload n b' :
  copy_in b off payload n = Done b' -> P b -> Forall is_byte payload -> P b'.
Proof. unfold copy_in. intros Hc Hb Hp. outcome_inv. eapply HP; [exact Hb|by eapply bread_bytes|exact Hk]. Qed.

Lemma build_inner_keep h payload n b off k st b' :
  0 <= pmh_type (outer_header h) <= PROXY_MSG_TYPE_DATA ->
  build_inner h payload n b off = Done (k, st, b') -> P b -> Forall is_byte payload -> P b'.
Proof.
  intros Ht Hb Hbuf Hpl. unfold build_inner, build_proxy_dev_message, build_proxy_strgy_message,
    build_proxy_sess_message, build_proxy_data_message in Hb.
  unfold PROXY_MSG_TYPE_DATA in Ht.
  repeat (case_match; try discriminate); outcome_inv; subst; cbn [fst snd] in *; simplify_eq; try done;
    repeat match goal with E : (_ =? _) = true |- _ => apply Z.eqb_eq in E end;
    try (unfold PROXY_MSG_TYPE_IOT in *; lia);
    eauto using puts_keep, copy_in_keep.
Qed.

Lemma fill_message_keep h payload n b off total b' :
  0 <= pmh_type (outer_header h) <= PROXY_MSG_TYPE_DATA ->
  fill_message h payload n b off = Done (total, b') -> P b -> Forall is_byte payload -> P b'.
Proof.
  intros Ht Hb Hbuf Hpl. unfold fill_message in Hb. outcome_inv. destruct r0 as [[k st] b2].
  assert (P b2) as Hb2 by eauto using build_inner_keep, puts_keep.
  destruct k, st; outcome_inv; simplify_eq; try done.
  eapply HP; [exact Hb2|apply le_bytes_bytes|exact Ho1].
Qed.
End Keep.

Lemma fill_message_bytes h payload n (buf : list Z) off total buf' :
  0 <= pmh_type (outer_header h) <= PROXY_MSG_TYPE_DATA ->
  fill_message h payload n buf off = Done (total, buf') ->
  Forall is_byte buf -> Forall is_byte payload -> Forall is_byte buf'.
Proof. apply (fill_message_keep (Forall is_byte)). intros b o l b' Hb Hl Hw. by eapply bwrite_bytes. Qed.

Lemma puts_bytes fs buf off buf' :
  st_puts fs buf off = Done buf' -> Forall is_byte buf -> Forall is_byte buf'.
Proof. apply (puts_keep (Forall is_byte)). intros b o l b' Hb Hl Hw. by eapply bwrite_bytes. Qed.

Lemma fill_message_mem_bytes h payload n (m : mem) off total m' :
  0 <= pmh_type (outer_header h) <= PROXY_MSG_TYPE_DATA ->
  fill_message h payload n m off = Done (total, m') -> mem_bytes m -> Forall is_byte payload -> mem_bytes m'.
Proof. apply (fill_message_keep mem_bytes). intros b o l b' Hb Hl [= <-]. by apply mwrite_bytes. Qed.

(** The lengths the inner builders insist on. *)
Definition payload_fits (h : GeneralProxyMsgHeader) (n : Z) : bool :=
  let t := pmh_type (outer_header h) in let i := inner_header h in
  if t =? PROXY_MSG_TYPE_DEV then (n =? DEV_MSG_HEADER_PAYLOAD_LEN (dev_hdr i)) && (n =? iw4 i)
  else if t =? PROXY_MSG_TYPE_STRGY then (n =? STRGY_MSG_HEADER_PAYLOAD_LEN (strgy_hdr i)) && (n =? iw4 i)
  else if t =? PROXY_MSG_TYPE_SESS then (n =? SESS_MSG_HEADER_PAYLOAD_LEN (sess_hdr i)) && (n =? iw4 i)
  else t =? PROXY_MSG_TYPE_DATA.

Lemma words_build_ok {B} `{ByteStoreLaws B} a c d e f payload n (b : B) off :
  st_room b off (10 + n) -> 0 <= n <= blen payload ->
  exists b', (b1 ← st_puts [(2%nat, a); (2%nat, c); (2%nat, d); (2%nat, e); (2%nat, f)] b off;
              b2 ← copy_in b1 (off + 10) payload n; Done (PROCESS_OK, b2)) = Done (PROCESS_OK, b') /\
             (forall o j, st_room b' o j <-> st_room b o j).
Proof.
  intros Hroom Hn. destruct (five_words_ok a c d e f payload n b off) as (b1 & b2 & E1 & E2); try done.
  exists b2. rewrite E1. cbn [mbind outcome_bind]. rewrite E2. split; [done|].
  intros o j. rewrite (proj2 (proj2 (copy_in_spec _ _ _ _ _ E2))). by eapply st_puts_room.
Qed.

Lemma build_inner_ok {B} `{ByteStoreLaws B} h payload n (b : B) off :
  payload_fits h n = true -> 0 <= n < 65536 -> n <= blen payload ->
  st_room b off (inner_size h + n) ->
  exists k b', build_inner h payload n b off = Done (Some k, PROCESS_OK, b') /\
               (forall o j, st_room b' o j <-> st_room b o j).
Proof.
  intros Hf Hn Hl Hr. unfold build_inner, payload_fits, inner_size in *.
  destruct (Z.eqb_spec (pmh_type (outer_header h)) PROXY_MSG_TYPE_DEV) as [E|_].
  2: destruct (Z.eqb_spec (pmh_type (outer_header h)) PROXY_MSG_TYPE_STRGY) as [E|_].
  3: destruct (Z.eqb_spec (pmh_type (outer_header h)) PROXY_MSG_TYPE_SESS) as [E|_].
  4:{ rewrite Hf in *. destruct (copy_in_ok b off payload n) as [b' Hb']; [done|lia|].
      unfold build_proxy_data_message. rewrite Hb'. cbn [mbind outcome_bind fst snd].
      do 2 eexists. split; [done|]. apply (copy_in_spec _ _ _ _ _ Hb'). }
  all: apply andb_true_iff in Hf as [H1%Z.eqb_eq H2%Z.eqb_eq]; rewrite E in Hr; cbn in Hr.
  all: unfold build_proxy_dev_message, build_proxy_strgy_message, build_proxy_sess_message,
    sizeof_DevMsgHeader, sizeof_StrgyMsgHeader, sizeof_SessMsgHeader;
    rewrite <- H1, u64_id, Z.eqb_refl by lia; cbn [negb dmh_payload_len stmh_payload_len semh_payload_len dev_hdr strgy_hdr sess_hdr];
    rewrite (proj2 (Z.eqb_eq _ _) H2); cbn [negb].
  all: match goal with |- context [st_puts [(_, ?a); (_, ?c); (_, ?d); (_, ?e); (_, ?f)] _ _] =>
         destruct (words_build_ok a c d e f payload n b off Hr) as (b' & -> & Hroom) end;
    [lia|cbn [mbind outcome_bind fst snd]; eauto].
Qed.

Lemma fill_message_ok {B} `{ByteStoreLaws B} h payload n (b : B) off :
  payload_fits h n = true -> 0 <= n < 65536 -> n <= blen payload ->
  st_room b off (8 + inner_size h + n) ->
  exists total b', fill_message h payload n b off = Done (Some total, b') /\
                   (forall o j, st_room b' o j <-> st_room b o j).
Proof.
  intros Hf Hn Hl Hr. unfold fill_message, PROXY_MSG_HDR_SIZE. fold (outer_fields (outer_header h)).
  assert (0 <= inner_size h) by (unfold inner_size; case_match; lia).
  destruct (st_puts_ok (outer_fields (outer_header h)) b off) as [b1 Hb1].
  { eapply st_room_sub; [exact Hr|cbn; lia..]. }
  rewrite Hb1. cbn [mbind outcome_bind].
  destruct (build_inner_ok h payload n b1 (off + 8)) as (k & b2 & Hb2 & Hroom); try done.
  { apply (st_puts_room _ _ _ _ _ _ Hb1). eapply st_room_sub; [exact Hr|lia..]. }
  rewrite Hb2. cbn [mbind outcome_bind].
  destruct (st_put_ok 2 b2 (off + 6) (n + u16 k)) as [b3 Hb3].
  { apply Hroom, (st_puts_room _ _ _ _ _ _ Hb1). eapply st_room_sub; [exact Hr|lia..]. }
  rewrite Hb3. cbn [mbind outcome_bind]. do 2 eexists. split; [done|]. intros o j.
  rewrite (st_room_put _ _ _ _ _ _ _ Hb3), Hroom. by eapply st_puts_room.
Qed.

(** A build touches nothing outside the message. *)
Lemma build_inner_frame {B} `{ByteStoreLaws B} h payload n (b : B) off k st b' o j :
  0 <= pmh_type (outer_header h) <= PROXY_MSG_TYPE_DATA -> 0 <= n ->
  build_inner h payload n b off = Done (k, st, b') ->
  o + j <= off \/ off + inner_size h + n <= o -> st_read b' o j = st_read b o j.
Proof.
  intros Ht Hn Hb. unfold PROXY_MSG_TYPE_DATA in Ht.
  unfold build_inner, build_proxy_dev_message, build_proxy_strgy_message, build_proxy_sess_message,
    build_proxy_data_message, sizeof_DevMsgHeader, sizeof_StrgyMsgHeader, sizeof_SessMsgHeader, inner_size in *.
  destruct (Z.eqb_spec (pmh_type (outer_header h)) PROXY_MSG_TYPE_DATA) as [E|E];
    repeat (case_match; try discriminate); outcome_inv; subst; cbn [fst snd] in *; simplify_eq; try done;
    repeat match goal with E : (_ =? _) = true |- _ => apply Z.eqb_eq in E end;
    try (unfold PROXY_MSG_TYPE_IOT, PROXY_MSG_TYPE_DATA, PROXY_MSG_TYPE_DEV, PROXY_MSG_TYPE_STRGY, PROXY_MSG_TYPE_SESS in *; lia);
    intros Hd; try done;
    match goal with Hc : copy_in _ _ _ _ = Done _ |- _ => destruct (copy_in_spec _ _ _ _ _ Hc) as (_ & -> & _); [|lia] end;
    try done; match goal with Hp : st_puts _ _ _ = Done _ |- _ => apply (st_read_puts_ne _ _ _ _ _ _ Hp); cbn; lia end.
Qed.

Lemma fill_message_frame {B} `{ByteStoreLaws B} h payload n (b : B) off total b' o j :
  0 <= pmh_type (outer_header h) <= PROXY_MSG_TYPE_DATA -> 0 <= n ->
  fill_message h payload n b off = Done (total, b') ->
  o + j <= off \/ off + 8 + inner_size h + n <= o -> st_read b' o j = st_read b o j.
Proof.
  intros Ht Hn Hb Hd. unfold fill_message, PROXY_MSG_HDR_SIZE in Hb. outcome_inv. destruct r0 as [[k st] b2].
  assert (0 <= inner_size h) by (unfold inner_size; destruct (_ =? _); lia).
  assert (st_read b2 o j = st_read b o j) as H2.
  { rewrite (build_inner_frame _ _ _ _ _ _ _ _ o j Ht Hn Ho0) by lia. apply (st_read_puts_ne _ _ _ _ _ _ Ho). cbn. lia. }
  rewrite <- H2. destruct k, st; outcome_inv; simplify_eq; try done. apply (st_read_put_ne _ _ _ _ _ _ _ Ho1). lia.
Qed.

(** Reading inside the first [t] bytes of [take t buf ++ rest]. *)
Lemma bread_prefix buf rest t o k :
  0 <= t <= blen buf -> 0 <= o -> 0 <= k -> o + k <= t ->
  bread (take (Z.to_nat t) buf ++ rest) o k = bread buf o k.
Proof.
  intros Ht Ho Hk Hok. unfold blen in Ht. rewrite !bread_ok; unfold blen; try lia.
  2:{ rewrite length_app, length_take. lia. }
  f_equal. rewrite drop_app_le by (rewrite length_take; lia).
  rewrite take_app_le by (rewrite length_drop, length_take; lia).
  rewrite skipn_firstn_comm, take_take. f_equal. lia.
Qed.

Lemma payload_fits_type h n : payload_fits h n = true -> 0 <= pmh_type (outer_header h) <= PROXY_MSG_TYPE_DATA.
Proof.
  unfold payload_fits. repeat case_match; intros;
    repeat match goal with E : (_ =? _) = true |- _ => apply Z.eqb_eq in E; rewrite E end;
    done.
Qed.

(** What a parser finds in a block holding the message. *)
Definition holds_message (h : GeneralProxyMsgHeader) (payload : list Z) (n : Z) (blk : list Z) : Prop :=
  let o := outer_header h in
  get_ProxyMsgHeader blk 0 =
    Done {| pmh_version := pmh_version o; pmh_type := pmh_type o;
            pmh_frontend_sess_id := pmh_frontend_sess_id o;
            pmh_backend_sess_id := pmh_backend_sess_id o;
            pmh_payload_len := n + inner_size h |} /\
  (pmh_type o <> PROXY_MSG_TYPE_DATA -> get_words5 blk 8 = Done (words (inner_header h))) /\
  bread blk (8 + inner_size h) n = Done (take (Z.to_nat n) payload).

Lemma get_header_ext blk buf o :
  (forall x k, 0 <= k -> 0 <= x -> x + k <= o -> bread blk x k = bread buf x k) -> 8 <= o ->
  get_ProxyMsgHeader blk 0 = get_ProxyMsgHeader buf 0.
Proof.
  intros He Ho. unfold get_ProxyMsgHeader. rewrite (st_gets_ext _ buf blk); [done|].
  intros x k Hx Hk Hxk. cbn in Hxk. apply He; lia.
Qed.

Lemma get_words_ext blk buf o :
  (forall x k, 0 <= k -> 0 <= x -> x + k <= o -> bread blk x k = bread buf x k) -> 18 <= o ->
  get_words5 blk 8 = get_words5 buf 8.
Proof.
  intros He Ho. unfold get_words5. rewrite (st_gets_ext _ buf blk); [done|].
  intros x k Hx Hk Hxk. cbn in Hxk. apply He; lia.
Qed.

Lemma fill_message_block h payload n buf :
  header_ok h = true -> payload_fits h n = true -> 0 <= n -> n <= blen payload ->
  8 + inner_size h + n <= blen buf -> n + inner_size h < 65536 ->
  Forall is_byte buf -> Forall is_byte payload ->
  exists buf', fill_message h payload n buf 0 = Done (Some (8 + inner_size h + n), buf') /\
  Forall is_byte buf' /\ 8 + inner_size h + n <= blen buf' /\
  forall rest, holds_message h payload n (take (Z.to_nat (8 + inner_size h + n)) buf' ++ rest).
Proof.
  intros Hh Hf Hn Hl Hb Hn' Hbuf Hpl.
  assert (0 <= inner_size h) by (unfold inner_size; case_match; lia).
  destruct (fill_message_ok h payload n buf 0) as (total & buf' & Hfill & Hroom); try done; try lia.
  { cbn. lia. }
  pose proof (payload_fits_type _ _ Hf) as Ht.
  destruct (fill_message_spec _ _ _ _ _ _ _ Hh Ht Hfill) as (-> & Ho & Hw & Hp).
  rewrite u16_id in Ho by lia.
  assert (8 + inner_size h + n <= blen buf') as Hlen.
  { destruct (proj2 (Hroom 0 (8 + inner_size h + n))); cbn; lia. }
  exists buf'. replace (n + inner_size h + 8) with (8 + inner_size h + n) in Hfill by lia.
  split; [done|]. split; [by eapply fill_message_bytes|]. split; [done|]. intros rest.
  set (blk := take _ buf' ++ rest).
  assert (forall x k, 0 <= k -> 0 <= x -> x + k <= 8 + inner_size h + n ->
            bread blk x k = bread buf' x k) as He by (intros; apply bread_prefix; lia).
  split_and!.
  - rewrite (get_header_ext _ _ _ He) by lia. exact Ho.
  - intros Hd. rewrite (get_words_ext _ _ _ He); [by apply Hw|].
    unfold inner_size. rewrite (proj2 (Z.eqb_neq _ _) Hd). lia.
  - rewrite He by lia. change (0 + 8) with 8 in Hp. cbn [st_read buffer_store] in Hp. rewrite Hp. by rewrite bread_ok by lia.
Qed.

Lemma build_general_amp_spec e g s h payload n :
  qwf g (tx_mem s) -> g_queue g = hyper_tx_queue (eng_ports e) ->
  g_base g = hyper_amp_data_region (eng_ports e) ->
  header_ok h = true -> payload_fits h n = true -> 0 <= n -> n <= blen payload ->
  8 + inner_size h + n <= Z.min (g_bs g) HYPERAMP_MSG_HDR_PLUS_MAX_SIZE -> Forall is_byte payload ->
  exists blk s', holds_message h payload n blk /\
  let '(st, c) := fifo.push (Z.to_nat (g_cap g - 1)) blk (contents g (tx_mem s)) in
  build_general_amp e h payload n s = Done (st, Some InAmpBuffer, s') /\
  qwf g (tx_mem s') /\ contents g (tx_mem s') = c /\ tx_ring s' = tx_ring s.
Proof.
  intros Hw Hq Hd Hh Hf Hn Hl Hfit Hpl. unfold HYPERAMP_MSG_HDR_PLUS_MAX_SIZE in Hfit.
  assert (0 <= inner_size h) by (unfold inner_size; case_match; lia). geo g Hw.
  destruct (fill_message_block h payload n (replicate (Z.to_nat HYPERAMP_MSG_HDR_PLUS_MAX_SIZE) 0))
    as (buf' & Hfill & Hbytes & Hlen & Hholds); try done.
  { unfold blen. rewrite length_replicate. unfold HYPERAMP_MSG_HDR_PLUS_MAX_SIZE. lia. }
  { lia. }
  { apply Forall_replicate. unfold is_byte. lia. }
  exists (stored_block g (tx_mem s) buf' (8 + inner_size h + n)).
  unfold build_general_amp. rewrite <- Hq, (proj2 (Z.eqb_neq (g_queue g) 0)), Hfill by lia.
  cbn [mbind outcome_bind fst snd tx_mem with_tx_buf tx_amp_buf]. rewrite <- Hd.
  pose proof (qlength_range g (tx_mem s) Hw) as Hr.
  unfold fifo.push. rewrite contents_length. case_decide.
  - destruct (enqueue_room g (tx_mem s) HYPERAMP_ZONE_ID_Linux buf' (8 + inner_size h + n))
      as (m' & -> & Hw' & Hc'); [exact Hw|lia|exact Hlen|exact Hbytes|lia|].
    exists (with_tx_mem (with_tx_buf s buf') m'). split; [apply Hholds|].
    split; [reflexivity|]. split; [exact Hw'|]. split; [exact Hc'|reflexivity].
  - destruct (enqueue_full g (tx_mem s) HYPERAMP_ZONE_ID_Linux buf' (8 + inner_size h + n))
      as (m' & -> & Hw' & Hc'); [exact Hw|lia|lia|].
    exists (with_tx_mem (with_tx_buf s buf') m'). split; [apply Hholds|].
    split; [reflexivity|]. split; [exact Hw'|]. split; [exact Hc'|reflexivity].
Qed.

(** C15. A device, strategy, session or data message built for the AMP queue is
    delivered whole: for a well-formed TX ring, a header whose fields fit
    their widths and a payload of the length its inner type requires (for data:
    any length that fits the block), [build_proxy_general_message] always
    returns; it answers AGAIN and leaves the ring as it was exactly when the
    ring is full, and otherwise OK with one more block, in which the outer
    header, the inner header words and the payload read back as given and the
    outer length is that of inner header and payload. *)
Theorem amp_message_delivered malloc e g s h payload n :
  qwf g (tx_mem s) -> g_queue g = hyper_tx_queue (eng_ports e) ->
  g_base g = hyper_amp_data_region (eng_ports e) -> eng_mem_pool e <> 0 ->
  header_ok h = true -> payload_fits h n = true -> 0 <= n -> n <= blen payload ->
  8 + inner_size h + n <= Z.min (g_bs g) HYPERAMP_MSG_HDR_PLUS_MAX_SIZE -> Forall is_byte payload ->
  exists blk s', holds_message h payload n blk /\
  let '(st, c) := fifo.push (Z.to_nat (g_cap g - 1)) blk (contents g (tx_mem s)) in
  build_proxy_general_message malloc (Some e) (Some h) (Some payload) n true MEMORY_ALLOC_AMPQUEUE s
    = Done (st, Some InAmpBuffer, s') /\
  qwf g (tx_mem s') /\ contents g (tx_mem s') = c /\ tx_ring s' = tx_ring s.
Proof.
  intros Hw Hq Hd Hpool Hh Hf Hn Hl Hfit Hpl. unfold build_proxy_general_message.
  rewrite (proj2 (Z.eqb_neq _ _) Hpool). by apply build_general_amp_spec.
Qed.

(** ** IoT messages *)

(** The address bytes [build_proxy_iot_message] copies. *)
Definition iot_copied_len (h : GeneralProxyMsgHeader) (full : Z) : Z :=
  if (0 <? iot_addr_len h) && (iot_addr_len h <? full) then iot_addr_len h else full.

(** Resolve a field read against the sequence of field writes. *)
Ltac read_back Hg :=
  repeat match goal with
  | W : st_put _ _ _ _ = Done ?x |- context [st_get _ ?x _] =>
      first [rewrite (st_get_put_ne _ _ _ _ _ _ _ W) by lia
            |rewrite (st_get_put_eq _ _ _ _ _ W)]
  | |- context [st_get ?k ?x ?o] => progress rewrite (Hg o k) by lia
  end.

Section Iot.
Context {B : Type} `{ByteStoreLaws B}.
Implicit Types (b : B).

Lemma maybe_copy_spec b off payload n b' :
  (if 0 <? n then copy_in b off payload n else Done b) = Done b' -> 0 <= n ->
  (0 < n -> st_read b' off n = bread payload 0 n) /\
  (forall o k, o + k <= off -> st_read b' o k = st_read b o k).
Proof.
  destruct (Z.ltb_spec 0 n); intros Hc Hn.
  - destruct (copy_in_spec _ _ _ _ _ Hc) as (Hr & Hf & _). split; [done|]. intros o k Hk. apply Hf. by left.
  - injection Hc as <-. split; [lia|done].
Qed.

Lemma get_iot_words b off v0 v1 v2 v3 v4 v5 :
  st_get 2 b (off + 0) = Done v0 -> st_get 2 b (off + 2) = Done v1 -> st_get 2 b (off + 4) = Done v2 ->
  st_get 2 b (off + 6) = Done v3 -> st_get 2 b (off + 8) = Done v4 -> st_get 2 b (off + 10) = Done v5 ->
  get_IotMsgHeader b off =
    Done {| imh_proto_ver := v0; imh_proto_type := v1; imh_opcode := v2; imh_dev_port_id := v3;
            imh_payload_len := v4; imh_reserve := v5 |}.
Proof.
  intros E0 E1 E2 E3 E4 E5. unfold get_IotMsgHeader. cbn [st_gets]. change (Z.of_nat 2) with 2.
  rewrite Z.add_0_r in E0. replace (off + 2 + 2) with (off + 4) by lia.
  replace (off + 4 + 2) with (off + 6) by lia. replace (off + 6 + 2) with (off + 8) by lia.
  replace (off + 8 + 2) with (off + 10) by lia.
  rewrite E0, E1, E2, E3, E4, E5. reflexivity.
Qed.

Lemma build_iot_spec h payload n b off b' :
  header_ok h = true -> 0 <= n ->
  build_proxy_iot_message h payload n b off = Done (PROCESS_OK, b') ->
  exists full, iot_addr_info_len (imh_proto_type (iot_hdr (inner_header h))) = Some full /\
  let alen := iot_copied_len h full in
  get_IotMsgHeader b' off =
    Done {| imh_proto_ver := 0; imh_proto_type := imh_proto_type (iot_hdr (inner_header h));
            imh_opcode := 0; imh_dev_port_id := 0; imh_payload_len := u16 (n + alen);
            imh_reserve := 0 |} /\
  st_read b' (off + 12) alen = bread (addr_info (iot_addr h)) 0 alen /\
  (0 < n -> st_read b' (off + 12 + alen) n = bread payload 0 n) /\
  (forall o k, o + k <= off -> st_read b' o k = st_read b o k).
Proof.
  intros Hh Hn Hb. unfold build_proxy_iot_message, sizeof_IotMsgHeader in Hb.
  outcome_inv. rename r into b1, r0 into b2, r1 into b3, r2 into b4, r3 into b5.
  destruct (iot_addr_info_len _) as [full|] eqn:Ef; [|simplify_eq].
  destruct (sizeof_addr_info <? full); [simplify_eq|]. fold (iot_copied_len h full) in Hk.
  outcome_inv. simplify_eq. rename r into b6, r0 into b7. exists full. split; [done|]. cbn zeta.
  set (alen := iot_copied_len h full) in *.
  destruct (copy_in_spec _ _ _ _ _ Ho4) as (Ha & Hfa & _).
  assert (0 <= alen) as Halen.
  { unfold alen, iot_copied_len. destruct (Z.ltb_spec 0 (iot_addr_len h)), (Z.ltb_spec (iot_addr_len h) full);
      cbn [andb]; try lia; unfold iot_addr_info_len in Ef; repeat case_match; simplify_eq;
      unfold sizeof_IotBtAddr, sizeof_IotCanAddr, sizeof_IotZigbeeAddr, sizeof_IotLoraAddr,
        sizeof_IotPowerLinkAddr, sizeof_IotModbusTcpAddr; lia. }
  destruct (maybe_copy_spec _ _ _ _ _ Ho5 Hn) as (Hp & Hfp).
  assert (forall x k, x + Z.of_nat k <= off + 12 -> st_get k b7 x = st_get k b5 x) as Hg.
  { intros x k Hx. unfold st_get. rewrite Hfp, Hfa by lia. done. }
  assert (u16_ok (iw1 (inner_header h)) = true) as Hpt%u16_ok_spec.
  { unfold header_ok in Hh. rewrite !andb_true_iff in Hh. tauto. }
  split_and!.
  - apply get_iot_words; read_back Hg; try done.
    cbn. f_equal. apply Z.mod_small. exact Hpt.
  - rewrite (st_read_put_ne _ _ _ _ _ _ _ Ho6) by lia. rewrite Hfp by lia. done.
  - intros Hn'. rewrite (st_read_put_ne _ _ _ _ _ _ _ Ho6) by lia. rewrite <- Hp by done. f_equal; lia.
  - intros o k Hok. rewrite (st_read_put_ne _ _ _ _ _ _ _ Ho6) by lia. rewrite Hfp, Hfa by lia.
    rewrite (st_read_put_ne _ _ _ _ _ _ _ Ho3), (st_read_put_ne _ _ _ _ _ _ _ Ho2),
      (st_read_put_ne _ _ _ _ _ _ _ Ho1), (st_read_put_ne _ _ _ _ _ _ _ Ho0),
      (st_read_put_ne _ _ _ _ _ _ _ Ho) by lia. done.
Qed.
End Iot.

(** Layout of an IoT message: when [fill_message] succeeds, the IoT header,
    the address bytes and the payload follow each other at the offsets the
    receiver uses, and the inner length counts the address bytes actually
    copied; the outer length and the size enqueued count the full address
    structure of the protocol, so they exceed the bytes written by the
    difference when [iot_addr_len] shortens the address. *)
Theorem iot_message_layout {B} `{ByteStoreLaws B} h payload n (b : B) off total b' :
  header_ok h = true -> pmh_type (outer_header h) = PROXY_MSG_TYPE_IOT -> 0 <= n ->
  fill_message h payload n b off = Done (Some total, b') ->
  exists full, iot_addr_info_len (imh_proto_type (iot_hdr (inner_header h))) = Some full /\
  let o := outer_header h in let alen := iot_copied_len h full in
  get_ProxyMsgHeader b' off =
    Done {| pmh_version := pmh_version o; pmh_type := pmh_type o;
            pmh_frontend_sess_id := pmh_frontend_sess_id o;
            pmh_backend_sess_id := pmh_backend_sess_id o;
            pmh_payload_len := u16 (n + (12 + full)) |} /\
  get_IotMsgHeader b' (off + 8) =
    Done {| imh_proto_ver := 0; imh_proto_type := imh_proto_type (iot_hdr (inner_header h));
            imh_opcode := 0; imh_dev_port_id := 0; imh_payload_len := u16 (n + alen);
            imh_reserve := 0 |} /\
  st_read b' (off + 20) alen = bread (addr_info (iot_addr h)) 0 alen /\
  (0 < n -> st_read b' (off + 20 + alen) n = bread payload 0 n) /\
  total = (20 + alen + n) + (full - alen).
Proof.
  intros Hh Ht Hn Hb. unfold fill_message, PROXY_MSG_HDR_SIZE in Hb.
  fold (outer_fields (outer_header h)) in Hb. outcome_inv. destruct r0 as [[k st] b2].
  unfold build_inner in Ho0. rewrite Ht in Ho0. cbn [Z.eqb Pos.eqb PROXY_MSG_TYPE_DATA PROXY_MSG_TYPE_DEV
      PROXY_MSG_TYPE_STRGY PROXY_MSG_TYPE_SESS PROXY_MSG_TYPE_IOT] in Ho0.
  destruct (iot_addr_info_len _) as [full|] eqn:Ef; [|simplify_eq].
  outcome_inv. destruct r0 as [[] b2']; cbn [fst snd] in *; simplify_eq.
  destruct (build_iot_spec _ _ _ _ _ _ Hh Hn Ho1) as (full' & Ef' & Hw & Ha & Hp & Hf).
  assert (full' = full) as -> by congruence. outcome_inv. simplify_eq. exists full. split; [done|]. cbn zeta.
  assert (0 <= full < 100) as Hfull.
  { unfold iot_addr_info_len in Ef. repeat case_match; simplify_eq;
      unfold sizeof_IotBtAddr, sizeof_IotCanAddr, sizeof_IotZigbeeAddr, sizeof_IotLoraAddr,
        sizeof_IotPowerLinkAddr, sizeof_IotModbusTcpAddr; lia. }
  unfold sizeof_IotMsgHeader in *. rewrite (u16_id (12 + full)) in * by lia.
  assert (0 <= iot_copied_len h full) by (unfold iot_copied_len; case_match eqn:E; [|lia];
    apply andb_true_iff in E as [?%Z.ltb_lt _]; lia).
  split_and!.
  - by eapply outer_header_spec.
  - rewrite <- Hw. unfold get_IotMsgHeader. rewrite (st_gets_ext _ b2 b'); [done|].
    intros x j Hx Hj _. rewrite (st_read_put_ne _ _ _ _ _ _ _ Ho0) by lia. done.
  - rewrite (st_read_put_ne _ _ _ _ _ _ _ Ho0) by lia. rewrite <- Ha. f_equal; lia.
  - intros Hn'. rewrite (st_read_put_ne _ _ _ _ _ _ _ Ho0) by lia. rewrite <- Hp by done. f_equal; lia.
  - lia.
Qed.

(** ** Witnesses *)

Definition demo_sess_header : GeneralProxyMsgHeader :=
  {| outer_header := {| pmh_version := 1; pmh_type := PROXY_MSG_TYPE_SESS; pmh_frontend_sess_id := 7;
                        pmh_backend_sess_id := 1; pmh_payload_len := 12 |};
     inner_header := {| iw0 := 1; iw1 := SESS_MSG_CREATE; iw2 := ACTION_TYPE_RESPONSE;
                        iw3 := SESS_IPV4_PROTO; iw4 := 2; iw5 := 0 |};
     iot_addr := {| addr_type := 0; addr_info := replicate 20 0 |}; iot_addr_len := 0 |}.

Definition demo_engine : tx_engine :=
  {| eng_mem_pool := 64;
     eng_ports := {| hyper_rx_queue := 0x10000; hyper_tx_queue := 0x11000;
                     hyper_amp_data_region := 0x12000 |} |}.

Definition demo_tx : tx_state := {| tx_mem := demo_channel; tx_amp_buf := []; tx_ring := None |}.

Lemma amp_message_delivered_witness :
  exists blk s',
  build_proxy_general_message (fun _ => None) (Some demo_engine) (Some demo_sess_header)
    (Some [0; 0]) 2 true MEMORY_ALLOC_AMPQUEUE demo_tx = Done (PROCESS_OK, Some InAmpBuffer, s') /\
  contents (tx_geometry 0x10000 SHM_CH1_PADDR) (tx_mem s') = [blk] /\
  bread blk 18 2 = Done [0; 0].
Proof.
  destruct (amp_message_delivered (fun _ => None) demo_engine (tx_geometry 0x10000 SHM_CH1_PADDR)
              demo_tx demo_sess_header [0; 0] 2) as (blk & s' & Hm & H).
  - apply demo_channel_qwf.
  - reflexivity.
  - reflexivity.
  - discriminate.
  - reflexivity.
  - reflexivity.
  - lia.
  - vm_compute. discriminate.
  - vm_compute. discriminate.
  - by apply bytesb_ok.
  - assert (contents (tx_geometry 0x10000 SHM_CH1_PADDR) (tx_mem demo_tx) = []) as Hc
      by (vm_compute; reflexivity).
    rewrite Hc in H. cbn [fifo.push] in H. unfold fifo.push in H.
    rewrite decide_True in H by (vm_compute; lia).
    destruct H as (Hb & _ & Hcont & _). exists blk, s'. split; [exact Hb|].
    split; [exact Hcont|]. apply Hm.
Defined.

Definition demo_can_header : GeneralProxyMsgHeader :=
  {| outer_header := {| pmh_version := 1; pmh_type := PROXY_MSG_TYPE_IOT; pmh_frontend_sess_id := 0;
                        pmh_backend_sess_id := 0; pmh_payload_len := 0 |};
     inner_header := {| iw0 := 0; iw1 := IOT_PROTO_TYPE_CAN; iw2 := 0; iw3 := 0; iw4 := 0; iw5 := 0 |};
     iot_addr := {| addr_type := IOT_PROTO_TYPE_CAN; addr_info := map Z.of_nat (seq 1 20) |};
     iot_addr_len := 4 |}.

Lemma iot_message_layout_witness :
  exists b', fill_message demo_can_header [8; 9] 2 (replicate 64 0) 0 = Done (Some 29, b') /\
  bread b' 20 4 = Done [1; 2; 3; 4] /\ bread b' 24 2 = Done [8; 9] /\ 29 = (20 + 4 + 2) + (7 - 4).
Proof.
  destruct (fill_message demo_can_header [8; 9] 2 (replicate 64 0) 0) as [[total b']| |] eqn:E;
    [|vm_compute in E; discriminate..].
  assert (total = Some 29) as -> by (vm_compute in E; by injection E).
  destruct (iot_message_layout demo_can_header [8; 9] 2 (replicate 64 0) 0 29 b'
              eq_refl eq_refl ltac:(lia) E) as (full & Ef & Hrest).
  assert (full = 7) as -> by (vm_compute in Ef; by injection Ef).
  destruct Hrest as (_ & _ & Ha & Hp & Ht). exists b'. split; [done|].
  split; [exact Ha|]. split; [|lia]. apply Hp. lia.
Defined.
