(* ===== verification/Session.v ===== *)
(** * Session: sessions, message segments, and the state they live in

    include/session.h, include/dev.h, include/session_pool.h and the segment
    functions of src/session.c.  [world] is the state of the backend process
    that the session code touches: live session objects and session nodes by
    address, the device table, the pool, the transmit path, and the
    descriptors passed to close().  Dereferencing an address with no live
    object is the fault [UseAfterFree]; unlinking an element from a list it is
    not on is [BadUnlink]. *)

From S2P Require Import Prelude Bytes Mem Message Build.
From stdpp Require Import base list numbers option gmap.
From Stdlib Require Import ZArith Lia.
#[local] Open Scope Z_scope.

(** ** Constants *)

Definition BACKEND_SESS_LINKED_TO_QUEUE : Z := 1.
Definition BACKEND_SESS_LINKED_TO_DEV_NODE : Z := 1.
Definition SESS_ESTABLISH_PASSIVE : Z := 0.
Definition SESS_ESTABLISH_ACTIVE : Z := 1.
Definition EPOLL_REG_STATUS_UNREGISTERED : Z := 0.
Definition EPOLL_REG_STATUS_REGISTERED : Z := 1.
Definition EPOLLIN : Z := 1.
Definition MAX_HS_DEV_NUM : Z := 16.
Definition HS_NET_DEV_ACTIVE : Z := 1.
Definition ERROR_NAMESPACE_ID : Z := -1.
Definition ERROR_SOCKET_FD : Z := -1.
Definition DEV_ID_AUTO_HANDOVER : Z := 0xFF.

(** ** Message segments *)

Inductive SessMsgSegType := SESS_MSG_SEG_DYNAMIC_ALLOC | SESS_MSG_SEG_SHARED_MEM.

(** [seg_data] is [None] for a null pointer. *)
Record SessMsgSeg := { seg_len : Z; seg_type : SessMsgSegType; seg_data : option (list Z) }.

(** [alloc_seg]: malloc of the segment struct succeeded; [alloc_data]: the
    bytes malloc returned for the data, if any; [seg_len] is a uint16_t. *)
Definition sess_msg_seg_alloc (alloc_seg : bool) (alloc_data : option (list Z)) (len : Z)
    (type : SessMsgSegType) (shared_data : option (list Z)) (mem_pool : Z) : option SessMsgSeg :=
  if negb alloc_seg then None else
  match type with
  | SESS_MSG_SEG_DYNAMIC_ALLOC =>
      match alloc_data with
      | None => None
      | Some d => Some {| seg_len := u16 len; seg_type := type; seg_data := Some d |}
      end
  | SESS_MSG_SEG_SHARED_MEM =>
      if mem_pool =? 0 then None
      else Some {| seg_len := u16 len; seg_type := type; seg_data := shared_data |}
  end.

(** ** Sessions *)

Record NetChannel := { ch_sock_fd : Z; ch_events : Z; ch_status : Z; ch_sess : Z }.

Record BackendSession := {
  proto_type : Z;
  dev_id : Z;
  establish_mode : Z;
  sock_fd : Z;
  ip_version : Z;
  frontend_sess_id : Z;
  backend_sess_id : Z;
  state_f2b : Z;
  state_b2f : Z;
  sess_dev_link_state : Z;
  msg_f2b : list SessMsgSeg;
  msg_b2f : list SessMsgSeg;
  sess_eng : bool;              (** [eng] is not NULL *)
  sess_node : option Z;
  net_channel : NetChannel }.

(** ** Devices and the pool *)

(** [dev_address] is the union of 16 bytes; [ns_name] a pointer into the
    configuration table; the traffic counters are never written. *)
Record HighSpeedNetDevice := {
  hs_dev_id : Z;
  dev_type : Z;
  ns_name : option (list Z);
  ns_id : Z;
  dev_status : Z;
  dev_name : list Z;
  udp_node_queue : list Z;
  tcp_node_queue : list Z;
  free_node_queue : list Z;
  dev_address : list Z;
  tcp_listening_port : Z;
  tcp_listener : Z }.

Record BackendSessionPool := {
  sess_num : Z;
  pool_capacity : Z;
  queue_f2b : list Z;
  queue_b2f : list Z;
  id_queue : list Z;
  htable : gmap Z Z }.

Record BackendEngine := {
  eng_tx : tx_engine;
  dev_num : Z;
  active_mask : Z;
  selector_id : Z }.

Record world := {
  w_sess : gmap Z BackendSession;
  w_node : gmap Z (option Z);
  w_devs : list HighSpeedNetDevice;
  w_pool : BackendSessionPool;
  w_eng : BackendEngine;
  w_last_pos : Z;
  w_tx : tx_state;
  w_closed : list Z }.

Definition with_sess (w : world) (h : gmap Z BackendSession) : world :=
  {| w_sess := h; w_node := w_node w; w_devs := w_devs w; w_pool := w_pool w; w_eng := w_eng w;
     w_last_pos := w_last_pos w; w_tx := w_tx w; w_closed := w_closed w |}.
Definition with_node (w : world) (n : gmap Z (option Z)) : world :=
  {| w_sess := w_sess w; w_node := n; w_devs := w_devs w; w_pool := w_pool w; w_eng := w_eng w;
     w_last_pos := w_last_pos w; w_tx := w_tx w; w_closed := w_closed w |}.
Definition with_devs (w : world) (d : list HighSpeedNetDevice) : world :=
  {| w_sess := w_sess w; w_node := w_node w; w_devs := d; w_pool := w_pool w; w_eng := w_eng w;
     w_last_pos := w_last_pos w; w_tx := w_tx w; w_closed := w_closed w |}.
Definition with_pool (w : world) (p : BackendSessionPool) : world :=
  {| w_sess := w_sess w; w_node := w_node w; w_devs := w_devs w; w_pool := p; w_eng := w_eng w;
     w_last_pos := w_last_pos w; w_tx := w_tx w; w_closed := w_closed w |}.
Definition with_last_pos (w : world) (p : Z) : world :=
  {| w_sess := w_sess w; w_node := w_node w; w_devs := w_devs w; w_pool := w_pool w; w_eng := w_eng w;
     w_last_pos := p; w_tx := w_tx w; w_closed := w_closed w |}.
Definition with_tx (w : world) (t : tx_state) : world :=
  {| w_sess := w_sess w; w_node := w_node w; w_devs := w_devs w; w_pool := w_pool w; w_eng := w_eng w;
     w_last_pos := w_last_pos w; w_tx := t; w_closed := w_closed w |}.
Definition close_fd (w : world) (fd : Z) : world :=
  {| w_sess := w_sess w; w_node := w_node w; w_devs := w_devs w; w_pool := w_pool w; w_eng := w_eng w;
     w_last_pos := w_last_pos w; w_tx := w_tx w; w_closed := fd :: w_closed w |}.

(** Dereferencing a session, a node, a device. *)
Definition get_sess (w : world) (p : Z) : outcome BackendSession :=
  match w_sess w !! p with Some s => Done s | None => Fault UseAfterFree end.
Definition put_sess (w : world) (p : Z) (s : BackendSession) : world := with_sess w (<[p := s]> (w_sess w)).
Definition free_sess (w : world) (p : Z) : world := with_sess w (delete p (w_sess w)).
Definition get_node (w : world) (n : Z) : outcome (option Z) :=
  match w_node w !! n with Some s => Done s | None => Fault UseAfterFree end.
Definition get_dev (w : world) (i : Z) : outcome HighSpeedNetDevice :=
  match (if i <? 0 then None else w_devs w !! Z.to_nat i) with
  | Some d => Done d | None => Fault OutOfBounds end.
Definition put_dev (w : world) (i : Z) (d : HighSpeedNetDevice) : world :=
  with_devs w (<[Z.to_nat i := d]> (w_devs w)).

(** ** TAILQ *)

Fixpoint remove_first (x : Z) (l : list Z) : list Z :=
  match l with
  | [] => []
  | y :: l' => if y =? x then l' else y :: remove_first x l'
  end.

(** [TAILQ_REMOVE]: undefined when the element is not linked. *)
Definition tailq_remove (x : Z) (l : list Z) : outcome (list Z) :=
  if existsb (fun y => y =? x) l then Done (remove_first x l) else Fault BadUnlink.

(** [TAILQ_INSERT_TAIL]: inserting an element already linked corrupts the list. *)
Definition tailq_insert (x : Z) (l : list Z) : outcome (list Z) :=
  if existsb (fun y => y =? x) l then Fault BadUnlink else Done (l ++ [x]).

(** ** Linking a session to the pool's work queues *)

Inductive direction := F2B | B2F.
#[export] Instance direction_eq_dec : EqDecision direction.
Proof. solve_decision. Defined.

Definition sess_state (dir : direction) (s : BackendSession) : Z :=
  match dir with F2B => state_f2b s | B2F => state_b2f s end.

Definition set_state (dir : direction) (s : BackendSession) (v : Z) : BackendSession :=
  {| proto_type := proto_type s; dev_id := dev_id s; establish_mode := establish_mode s;
     sock_fd := sock_fd s; ip_version := ip_version s; frontend_sess_id := frontend_sess_id s;
     backend_sess_id := backend_sess_id s;
     state_f2b := match dir with F2B => v | B2F => state_f2b s end;
     state_b2f := match dir with F2B => state_b2f s | B2F => v end;
     sess_dev_link_state := sess_dev_link_state s; msg_f2b := msg_f2b s; msg_b2f := msg_b2f s;
     sess_eng := sess_eng s; sess_node := sess_node s; net_channel := net_channel s |}.

Definition pool_queue (dir : direction) (p : BackendSessionPool) : list Z :=
  match dir with F2B => queue_f2b p | B2F => queue_b2f p end.

Definition set_pool_queue (dir : direction) (p : BackendSessionPool) (q : list Z) : BackendSessionPool :=
  {| sess_num := sess_num p; pool_capacity := pool_capacity p;
     queue_f2b := match dir with F2B => q | B2F => queue_f2b p end;
     queue_b2f := match dir with F2B => queue_b2f p | B2F => q end;
     id_queue := id_queue p; htable := htable p |}.

Definition BACKEND_SESS_LINK_TO_QUEUE (w : world) (p : Z) (dir : direction) : outcome world :=
  s ← get_sess w p;
  if negb (sess_eng s) then Done w else
  if Z.land (sess_state dir s) BACKEND_SESS_LINKED_TO_QUEUE =? 0 then
    let s := set_state dir s (Z.lor (sess_state dir s) BACKEND_SESS_LINKED_TO_QUEUE) in
    q ← tailq_insert p (pool_queue dir (w_pool w));
    Done (with_pool (put_sess w p s) (set_pool_queue dir (w_pool w) q))
  else Done w.

Definition BACKEND_SESS_UNLINK_FROM_QUEUE (w : world) (p : Z) (dir : direction) : outcome world :=
  s ← get_sess w p;
  if negb (sess_eng s) then Done w else
  if Z.land (sess_state dir s) BACKEND_SESS_LINKED_TO_QUEUE =? 0 then Done w
  else
    q ← tailq_remove p (pool_queue dir (w_pool w));
    let s := set_state dir s (Z.land (sess_state dir s) (Z.lnot BACKEND_SESS_LINKED_TO_QUEUE)) in
    Done (with_pool (put_sess w p s) (set_pool_queue dir (w_pool w) q)).

(** ** Message queues of a session *)

Definition sess_msgs (dir : direction) (s : BackendSession) : list SessMsgSeg :=
  match dir with F2B => msg_f2b s | B2F => msg_b2f s end.

Definition set_msgs (dir : direction) (s : BackendSession) (q : list SessMsgSeg) : BackendSession :=
  {| proto_type := proto_type s; dev_id := dev_id s; establish_mode := establish_mode s;
     sock_fd := sock_fd s; ip_version := ip_version s; frontend_sess_id := frontend_sess_id s;
     backend_sess_id := backend_sess_id s; state_f2b := state_f2b s; state_b2f := state_b2f s;
     sess_dev_link_state := sess_dev_link_state s;
     msg_f2b := match dir with F2B => q | B2F => msg_f2b s end;
     msg_b2f := match dir with F2B => msg_b2f s | B2F => q end;
     sess_eng := sess_eng s; sess_node := sess_node s; net_channel := net_channel s |}.

Definition SESS_MSG_SEG_INSERT_QUEUE (s : BackendSession) (seg : SessMsgSeg) (dir : direction)
  : BackendSession := set_msgs dir s (sess_msgs dir s ++ [seg]).

Definition SESS_MSG_SEG_REMOVE_HEAD (s : BackendSession) (dir : direction)
  : option SessMsgSeg * BackendSession :=
  match sess_msgs dir s with
  | [] => (None, s)
  | seg :: q => (Some seg, set_msgs dir s q)
  end.

Definition sess_msg_queue_free_all (s : BackendSession) (dir : direction) : BackendSession :=
  set_msgs dir s [].

(** ** Epoll registration *)

Definition set_channel (s : BackendSession) (c : NetChannel) : BackendSession :=
  {| proto_type := proto_type s; dev_id := dev_id s; establish_mode := establish_mode s;
     sock_fd := sock_fd s; ip_version := ip_version s; frontend_sess_id := frontend_sess_id s;
     backend_sess_id := backend_sess_id s; state_f2b := state_f2b s; state_b2f := state_b2f s;
     sess_dev_link_state := sess_dev_link_state s; msg_f2b := msg_f2b s; msg_b2f := msg_b2f s;
     sess_eng := sess_eng s; sess_node := sess_node s; net_channel := c |}.

(** [epoll_ok]: epoll_ctl returned 0. *)
Definition BACKEND_SESS_REGISTER_EPOLL (epoll_ok : bool) (s : BackendSession) (reg_events : Z)
  : status * BackendSession :=
  let c := net_channel s in
  let c' st := {| ch_sock_fd := ch_sock_fd c; ch_events := reg_events; ch_status := st;
                  ch_sess := ch_sess c |} in
  if (ch_status c =? EPOLL_REG_STATUS_UNREGISTERED) || (ch_status c =? EPOLL_REG_STATUS_REGISTERED)
  then (if epoll_ok then PROCESS_OK else PROCESS_ERROR, set_channel s (c' EPOLL_REG_STATUS_REGISTERED))
  else (PROCESS_ERROR, set_channel s (c' (ch_status c))).

Definition BACKEND_SESS_UNREGISTER_EPOLL (epoll_ok : bool) (s : BackendSession)
  : status * BackendSession :=
  let c := net_channel s in
  (if epoll_ok then PROCESS_OK else PROCESS_ERROR,
   set_channel s {| ch_sock_fd := ch_sock_fd c; ch_events := ch_events c;
                    ch_status := EPOLL_REG_STATUS_UNREGISTERED; ch_sess := ch_sess c |}).
