(* ===== verification/Device.v ===== *)
(** * Device: session nodes of a network device, and device selection

    The node macros of include/dev.h and the selectors of src/engine.c
    (lines 96-359). *)

From S2P Require Import Prelude Bytes Message Build Session.
From stdpp Require Import base list numbers option gmap.
From Stdlib Require Import ZArith Lia.
#[local] Open Scope Z_scope.

(** ** Namespace of a device *)

Definition GET_NS_ID (w : world) (i : Z) : outcome Z :=
  _ ← require ((0 <=? i) && (i <? MAX_HS_DEV_NUM)) AssertFailed;
  d ← get_dev w i;
  _ ← require (dev_status d =? HS_NET_DEV_ACTIVE) AssertFailed;
  Done (ns_id d).

(** ** Session nodes *)

Definition set_free_nodes (d : HighSpeedNetDevice) (q : list Z) : HighSpeedNetDevice :=
  {| hs_dev_id := hs_dev_id d; dev_type := dev_type d; ns_name := ns_name d; ns_id := ns_id d;
     dev_status := dev_status d; dev_name := dev_name d;
     udp_node_queue := udp_node_queue d; tcp_node_queue := tcp_node_queue d; free_node_queue := q;
     dev_address := dev_address d; tcp_listening_port := tcp_listening_port d; tcp_listener := tcp_listener d |}.

Definition proto_queue (proto : Z) (d : HighSpeedNetDevice) : list Z :=
  if proto =? SESS_UDP_PROTO then udp_node_queue d else tcp_node_queue d.

Definition set_proto_queue (proto : Z) (d : HighSpeedNetDevice) (q : list Z) : HighSpeedNetDevice :=
  {| hs_dev_id := hs_dev_id d; dev_type := dev_type d; ns_name := ns_name d; ns_id := ns_id d;
     dev_status := dev_status d; dev_name := dev_name d;
     udp_node_queue := if proto =? SESS_UDP_PROTO then q else udp_node_queue d;
     tcp_node_queue := if proto =? SESS_UDP_PROTO then tcp_node_queue d else q;
     free_node_queue := free_node_queue d; dev_address := dev_address d;
     tcp_listening_port := tcp_listening_port d; tcp_listener := tcp_listener d |}.

Definition set_link_state (s : BackendSession) (v : Z) : BackendSession :=
  {| proto_type := proto_type s; dev_id := dev_id s; establish_mode := establish_mode s;
     sock_fd := sock_fd s; ip_version := ip_version s; frontend_sess_id := frontend_sess_id s;
     backend_sess_id := backend_sess_id s; state_f2b := state_f2b s; state_b2f := state_b2f s;
     sess_dev_link_state := v; msg_f2b := msg_f2b s; msg_b2f := msg_b2f s;
     sess_eng := sess_eng s; sess_node := sess_node s; net_channel := net_channel s |}.

Definition set_sess_node (s : BackendSession) (n : option Z) : BackendSession :=
  {| proto_type := proto_type s; dev_id := dev_id s; establish_mode := establish_mode s;
     sock_fd := sock_fd s; ip_version := ip_version s; frontend_sess_id := frontend_sess_id s;
     backend_sess_id := backend_sess_id s; state_f2b := state_f2b s; state_b2f := state_b2f s;
     sess_dev_link_state := sess_dev_link_state s; msg_f2b := msg_f2b s; msg_b2f := msg_b2f s;
     sess_eng := sess_eng s; sess_node := n; net_channel := net_channel s |}.

Definition set_node_sess (w : world) (n : Z) (p : option Z) : world := with_node w (<[n := p]> (w_node w)).

Definition HIGH_SPEED_NET_DEV_POP_FREE_SESSION_NODE (w : world) (i : Z) : outcome (option Z * world) :=
  d ← get_dev w i;
  match free_node_queue d with
  | [] => Done (None, w)
  | n :: q => Done (Some n, put_dev w i (set_free_nodes d q))
  end.

Definition HIGH_SPEED_NET_DEV_PUSH_FREE_SESSION_NODE (w : world) (i n : Z) : outcome world :=
  d ← get_dev w i;
  q ← tailq_insert n (free_node_queue d);
  Done (put_dev w i (set_free_nodes d q)).

Definition node_proto (proto : Z) : bool := (proto =? SESS_UDP_PROTO) || (proto =? SESS_TCP_PROTO).

Definition HIGH_SPEED_NET_DEV_INSERT_SESSION_NODE (w : world) (i n proto : Z) : outcome (status * world) :=
  np ← get_node w n;
  match np with
  | None => Done (PROCESS_ERROR, w)
  | Some p =>
      if node_proto proto then
        s ← get_sess w p;
        if Z.land (sess_dev_link_state s) BACKEND_SESS_LINKED_TO_DEV_NODE =? 0 then
          d ← get_dev w i;
          q ← tailq_insert n (proto_queue proto d);
          Done (PROCESS_OK,
                put_sess (put_dev w i (set_proto_queue proto d q)) p
                  (set_link_state s (Z.lor (sess_dev_link_state s) BACKEND_SESS_LINKED_TO_DEV_NODE)))
        else Done (PROCESS_OK, w)
      else Done (PROCESS_ERROR, w)
  end.

Definition HIGH_SPEED_NET_DEV_REMOVE_SESSION_NODE (w : world) (i n proto : Z) : outcome world :=
  np ← get_node w n;
  match np with
  | None => Done w
  | Some p =>
      if node_proto proto then
        s ← get_sess w p;
        if Z.land (sess_dev_link_state s) BACKEND_SESS_LINKED_TO_DEV_NODE =? 0 then Done w
        else
          d ← get_dev w i;
          q ← tailq_remove n (proto_queue proto d);
          Done (put_sess (put_dev w i (set_proto_queue proto d q)) p
                  (set_link_state s (Z.land (sess_dev_link_state s)
                                       (Z.lnot BACKEND_SESS_LINKED_TO_DEV_NODE))))
      else Done w
  end.

(** ** Selection *)

(** [while (cnt < dev_num) { if (active_mask &= 1u << cnt) break; cnt++; }]:
    [n] iterations are left. *)
Fixpoint probe_from_zero (n : nat) (cnt mask : Z) : option Z :=
  match n with
  | O => None
  | S n' =>
      let mask := Z.land mask (Z.shiftl 1 cnt) in
      if mask =? 0 then probe_from_zero n' (cnt + 1) mask else Some cnt
  end.

(** The loop that starts after the last selection; returns the final
    [last_pos] as well. *)
Fixpoint probe_next (n : nat) (dev_num last_pos mask : Z) : option Z * Z :=
  match n with
  | O => (None, last_pos)
  | S n' =>
      let last_pos := if dev_num =? last_pos + 1 then 0 else last_pos + 1 in
      let mask := Z.land mask (Z.shiftl 1 last_pos) in
      if mask =? 0 then probe_next n' dev_num last_pos mask else (Some last_pos, last_pos)
  end.

(** The device id is [None] when [*dev_id] is not written. *)
Definition choose_dev_round_robin (w : world) : outcome (status * option Z * world) :=
  let n := dev_num (w_eng w) in
  if n =? 0 then Done (PROCESS_ERROR, None, w) else
  let '(found, last_pos) :=
    if w_last_pos w =? -1 then
      match probe_from_zero (Z.to_nat n) 0 (active_mask (w_eng w)) with
      | Some c => (Some c, c)
      | None => (None, -1)
      end
    else probe_next (Z.to_nat n) n (w_last_pos w) (active_mask (w_eng w)) in
  let w := with_last_pos w last_pos in
  match found with
  | None => Done (PROCESS_ERROR, None, w)
  | Some pos => d ← get_dev w pos; Done (PROCESS_OK, Some (u16 (hs_dev_id d)), w)
  end.

Definition choose_dev_latency_first (w : world) : outcome (status * option Z * world) :=
  Done (PROCESS_OK, Some 0, w).
Definition choose_dev_throughput_first (w : world) : outcome (status * option Z * world) :=
  Done (PROCESS_OK, Some 0, w).

(** [hs_dev_sel] as [engine_init_selector] fills it. *)
Definition hs_dev_sel : list (world -> outcome (status * option Z * world)) :=
  [choose_dev_round_robin; choose_dev_latency_first; choose_dev_throughput_first].

(** [dev_in] is the caller's [*dev_id] before the call. *)
Definition choose_hs_net_dev (w : world) (dev_in : Z) : outcome (status * Z * world) :=
  match hs_dev_sel !! Z.to_nat (selector_id (w_eng w)) with
  | None => Fault OutOfBounds
  | Some choose_dev =>
      r ← choose_dev w;
      let '(ret, out, w) := r in
      let d := default dev_in out in
      match ret with
      | PROCESS_OK => if dev_num (w_eng w) <=? d then Done (PROCESS_ERROR, d, w) else Done (PROCESS_OK, d, w)
      | _ => Done (PROCESS_ERROR, d, w)
      end
  end.

(** [while (bit_pos < MAX_HS_DEV_NUM) { if (mask & (1u << bit_pos)) { } }]: one
    iteration; [None] when the loop is left. *)
Definition enable_loop_step (bit_pos : Z) : option Z :=
  if bit_pos <? MAX_HS_DEV_NUM then Some bit_pos else None.

(** Is the loop left within [fuel] iterations? *)
Fixpoint enable_loop (fuel : nat) (bit_pos : Z) : bool :=
  match fuel with
  | O => false
  | S n => match enable_loop_step bit_pos with None => true | Some b => enable_loop n b end
  end.

(** [Some st]: the call returns within [fuel] iterations. *)
Definition enable_hs_net_dev (fuel : nat) (eng : option BackendEngine) (mask : Z) : option status :=
  match eng with
  | None => Some PROCESS_ERROR
  | Some e =>
      if dev_num e =? 0 then Some PROCESS_ERROR
      else if enable_loop fuel 0 then Some PROCESS_OK else None
  end.

Definition disable_hs_net_dev (eng : option BackendEngine) (mask : Z) : status :=
  match eng with None => PROCESS_ERROR | Some _ => PROCESS_OK end.

Definition query_hs_net_dev (eng : option BackendEngine) (mask : bool) : status :=
  match eng with None => PROCESS_ERROR | Some _ => if mask then PROCESS_OK else PROCESS_ERROR end.

(** ** Selection: lemmas *)

Lemma mask_bit mask i : 0 <= i -> (Z.land mask (Z.shiftl 1 i) =? 0) = negb (Z.testbit mask i).
Proof.
  intros Hi. rewrite Z.shiftl_1_l. destruct (Z.testbit mask i) eqn:E; cbn.
  - apply Z.eqb_neq. intros H0. apply (f_equal (fun x => Z.testbit x i)) in H0.
    rewrite Z.land_spec, E, Z.pow2_bits_true, Z.testbit_0_l in H0 by lia. discriminate.
  - apply Z.eqb_eq. apply Z.bits_inj'. intros n Hn. rewrite Z.land_spec, Z.testbit_0_l.
    rewrite Z.pow2_bits_eqb by lia. destruct (Z.eqb_spec i n) as [->|]; [by rewrite E|apply andb_false_r].
Qed.

Definition next_pos (n p : Z) : Z := if n =? p + 1 then 0 else p + 1.

Lemma next_pos_mod n p : 0 <= p < n -> next_pos n p = (p + 1) mod n.
Proof.
  intros. unfold next_pos. destruct (Z.eqb_spec n (p + 1)) as [->|].
  - by rewrite Z.mod_same by lia.
  - rewrite Z.mod_small; lia.
Qed.

Lemma probe_zero_mask k n p :
  0 <= p < n -> probe_next k n p 0 = (None, (p + Z.of_nat k) mod n).
Proof.
  revert p. induction k as [|k IH]; intros p Hp; cbn [probe_next].
  - rewrite Z.add_0_r, Z.mod_small by lia. done.
  - fold (next_pos n p). rewrite Z.land_0_l. cbn [Z.eqb].
    rewrite IH by (rewrite next_pos_mod by lia; apply Z.mod_pos_bound; lia).
    rewrite next_pos_mod, Zplus_mod_idemp_l by lia. do 2 f_equal. lia.
Qed.

(** After the first probe the mask is a single bit or zero. *)
Lemma probe_next_spec n p mask :
  0 <= p < n ->
  probe_next (Z.to_nat n) n p mask =
  if Z.testbit mask (next_pos n p) then (Some (next_pos n p), next_pos n p) else (None, p).
Proof.
  intros Hp. destruct (Z.to_nat n) as [|k] eqn:Ek; [lia|]. cbn [probe_next]. fold (next_pos n p).
  assert (0 <= next_pos n p < n) as Hnp by (rewrite next_pos_mod by lia; apply Z.mod_pos_bound; lia).
  rewrite mask_bit by lia. destruct (Z.testbit mask (next_pos n p)) eqn:E; [done|].
  assert (Z.land mask (Z.shiftl 1 (next_pos n p)) = 0) as ->.
  { apply Z.eqb_eq. rewrite mask_bit by lia. by rewrite E. }
  rewrite probe_zero_mask by done. cbn. f_equal. rewrite next_pos_mod, Zplus_mod_idemp_l by lia.
  replace (p + 1 + Z.of_nat k) with (p + 1 * n) by lia. rewrite Z.mod_add by lia. apply Z.mod_small. lia.
Qed.

Lemma get_dev_last_pos w p i : get_dev (with_last_pos w p) i = get_dev w i.
Proof. done. Qed.

(** Round robin after a first selection probes one device: with the last
    position inside the table, the call selects the next position exactly when
    that device's bit is set in the active mask, and otherwise fails and
    leaves the last position where it was, however many other devices are
    active (the probe's "and" assignment clears the rest of the mask). *)
Theorem round_robin_probes_next w d :
  let n := dev_num (w_eng w) in let nxt := next_pos n (w_last_pos w) in
  0 <= w_last_pos w < n -> w_devs w !! Z.to_nat nxt = Some d ->
  choose_dev_round_robin w =
  if Z.testbit (active_mask (w_eng w)) nxt
  then Done (PROCESS_OK, Some (u16 (hs_dev_id d)), with_last_pos w nxt)
  else Done (PROCESS_ERROR, None, with_last_pos w (w_last_pos w)).
Proof.
  intros n nxt Hp Hd. unfold choose_dev_round_robin. fold n.
  rewrite (proj2 (Z.eqb_neq n 0)), (proj2 (Z.eqb_neq (w_last_pos w) (-1))) by lia.
  rewrite probe_next_spec by done. fold nxt. destruct (Z.testbit _ nxt); [|done].
  rewrite get_dev_last_pos. unfold get_dev.
  assert (0 <= nxt) by (unfold nxt, next_pos; case_match; lia).
  rewrite (proj2 (Z.ltb_ge nxt 0)) by lia. by rewrite Hd.
Qed.

(** [k] selections in a row. *)
Fixpoint choose_many (k : nat) (w : world) : outcome (list (status * option Z) * world) :=
  match k with
  | O => Done ([], w)
  | S k' =>
      r ← choose_dev_round_robin w;
      rs ← choose_many k' (snd r);
      Done (fst r :: fst rs, snd rs)
  end.

Definition all_active (w : world) : Prop :=
  forall i, 0 <= i < dev_num (w_eng w) ->
    Z.testbit (active_mask (w_eng w)) i = true /\
    exists d, w_devs w !! Z.to_nat i = Some d /\ u16 (hs_dev_id d) = i.

Lemma choose_all_active w :
  all_active w -> 0 <= w_last_pos w < dev_num (w_eng w) ->
  choose_dev_round_robin w =
  Done (PROCESS_OK, Some ((w_last_pos w + 1) mod dev_num (w_eng w)),
        with_last_pos w ((w_last_pos w + 1) mod dev_num (w_eng w))).
Proof.
  intros Ha Hp. pose proof (next_pos_mod _ _ Hp) as Hn.
  assert (0 <= next_pos (dev_num (w_eng w)) (w_last_pos w) < dev_num (w_eng w)) as Hr.
  { rewrite Hn. apply Z.mod_pos_bound. lia. }
  destruct (Ha _ Hr) as (Hb & d & Hd & Hid). unfold choose_dev_round_robin.
  rewrite (proj2 (Z.eqb_neq (dev_num _) 0)), (proj2 (Z.eqb_neq (w_last_pos w) (-1))) by lia.
  rewrite probe_next_spec, Hb by done. rewrite get_dev_last_pos. unfold get_dev.
  rewrite (proj2 (Z.ltb_ge _ 0)) by lia. rewrite Hd. cbn. by rewrite Hid, Hn.
Qed.

(** With every device active, round robin is a cycle: from last position
    [p], the [k] next selections succeed and return the devices
    [p+1, p+2, ..., p+k] modulo the number of devices. *)
Theorem round_robin_cycles w k :
  all_active w -> 0 <= w_last_pos w < dev_num (w_eng w) ->
  choose_many k w =
  Done (map (fun j => (PROCESS_OK, Some ((w_last_pos w + 1 + Z.of_nat j) mod dev_num (w_eng w)))) (seq 0 k),
        with_last_pos w ((w_last_pos w + Z.of_nat k) mod dev_num (w_eng w))).
Proof.
  revert w. induction k as [|k IH]; intros w Ha Hp; cbn [choose_many].
  - cbn. rewrite Z.add_0_r, Z.mod_small by lia. by destruct w.
  - rewrite choose_all_active by done. cbn [mbind outcome_bind fst snd].
    pose proof (Z.mod_pos_bound (w_last_pos w + 1) (dev_num (w_eng w))).
    rewrite IH by (done || (cbn; lia)). cbn [mbind outcome_bind fst snd w_last_pos with_last_pos w_eng].
    f_equal. f_equal.
    + cbn [seq map]. rewrite Z.add_0_r. f_equal. rewrite <- seq_shift, map_map. apply map_ext. intros j.
      do 2 f_equal. rewrite <- Z.add_assoc, Zplus_mod_idemp_l. f_equal. lia.
    + f_equal. rewrite Zplus_mod_idemp_l. f_equal. lia.
Qed.

(** [enable_hs_net_dev] does not return on an engine with devices: its
    loop never advances [bit_pos], so no number of iterations leaves it. *)
Theorem enable_never_returns fuel e mask :
  dev_num e <> 0 -> enable_hs_net_dev fuel (Some e) mask = None.
Proof.
  intros Hn. unfold enable_hs_net_dev. rewrite (proj2 (Z.eqb_neq _ _) Hn).
  assert (enable_loop fuel 0 = false) as ->; [|done]. by induction fuel.
Qed.

(** ** Witnesses *)

Definition demo_ports : tx_engine :=
  {| eng_mem_pool := 64;
     eng_ports := {| HyperampLinux.hyper_rx_queue := 0x10000; HyperampLinux.hyper_tx_queue := 0x11000;
                     HyperampLinux.hyper_amp_data_region := 0x12000 |} |}.

Definition demo_dev (i : Z) (free : list Z) : HighSpeedNetDevice :=
  {| hs_dev_id := i; dev_type := 0; ns_name := None; ns_id := 3 + i; dev_status := HS_NET_DEV_ACTIVE;
     dev_name := []; udp_node_queue := []; tcp_node_queue := []; free_node_queue := free;
     dev_address := replicate 16 0; tcp_listening_port := 0; tcp_listener := -1 |}.

Definition demo_world (mask last : Z) : world :=
  {| w_sess := ∅; w_node := ∅; w_devs := [demo_dev 0 []; demo_dev 1 []; demo_dev 2 []];
     w_pool := {| sess_num := 0; pool_capacity := 1024; queue_f2b := []; queue_b2f := [];
                  id_queue := []; htable := ∅ |};
     w_eng := {| eng_tx := demo_ports; dev_num := 3; active_mask := mask; selector_id := 0 |};
     w_last_pos := last;
     w_tx := {| tx_mem := fun _ => 0; tx_amp_buf := []; tx_ring := None |}; w_closed := [] |}.

(** Devices 0 and 2 are active; after selecting 0, device 2 is never found. *)
Lemma round_robin_probes_next_witness :
  choose_dev_round_robin (demo_world 5 0) = Done (PROCESS_ERROR, None, demo_world 5 0).
Proof.
  rewrite (round_robin_probes_next (demo_world 5 0) (demo_dev 1 [])); [reflexivity|cbn; lia|reflexivity].
Defined.

Lemma round_robin_cycles_witness :
  exists w', choose_many 4 (demo_world 7 0) =
  Done ([(PROCESS_OK, Some 1); (PROCESS_OK, Some 2); (PROCESS_OK, Some 0); (PROCESS_OK, Some 1)], w').
Proof.
  eexists. rewrite (round_robin_cycles (demo_world 7 0) 4); [vm_compute; reflexivity| |cbn; lia].
  intros i Hi. cbn in Hi. assert (i = 0 \/ i = 1 \/ i = 2) as [-> | [-> | ->]] by lia;
    (split; [reflexivity|eexists; split; reflexivity]).
Defined.

Lemma enable_never_returns_witness : enable_hs_net_dev 1000 (Some (w_eng (demo_world 7 0))) 1 = None.
Proof. apply enable_never_returns. discriminate. Defined.
