(* ===== verification/Responses.v ===== *)
(** * Responses: session responses to the frontend

    backend_proxy_generate_sess_msg_create_close_response(_standalone) and
    backend_proxy_send_sess_(standalone_)msg_to_frontend_via_shmem of
    src/backend_proto.c, lines 1903-2143. *)

From S2P Require Import Prelude Bytes Mem HyperampQueueSpec HyperampLinux Message Build BuildSpec Session.
From stdpp Require Import base list numbers option gmap.
From Stdlib Require Import ZArith Lia.
#[local] Open Scope Z_scope.

(** No caller of the AMP mode reaches malloc. *)
Definition no_malloc : Z -> option (list Z) := fun _ => None.

Definition response_header (fsid bsid ipv sess_msg_type : Z) : GeneralProxyMsgHeader :=
  {| outer_header := {| pmh_version := PROXY_PROTO_VERSION_1; pmh_type := PROXY_MSG_TYPE_SESS;
                        pmh_frontend_sess_id := fsid; pmh_backend_sess_id := bsid;
                        pmh_payload_len := sizeof_SessMsgHeader + sizeof_SessOpRespData |};
     inner_header := {| iw0 := PROXY_PROTO_SESS_VERSION_1;
                        iw1 := if sess_msg_type =? SESS_MSG_CREATE then SESS_MSG_CREATE else SESS_MSG_CLOSE;
                        iw2 := ACTION_TYPE_RESPONSE; iw3 := u16 ipv; iw4 := sizeof_SessOpRespData;
                        iw5 := 0 |};
     iot_addr := {| addr_type := 0; addr_info := [] |}; iot_addr_len := 0 |}.

(** [sess] is a live session; the engine is the world's. *)
Definition backend_proxy_generate_sess_msg_create_close_response (w : world) (s : BackendSession)
    (sess_msg_type : Z) (op_resp : option SessOpRespData) : outcome (status * world) :=
  match op_resp with
  | None => Done (PROCESS_ERROR, w)
  | Some r =>
      if negb (sess_eng s) then Done (PROCESS_ERROR, w) else
      if negb (IS_VALID_SESS_MSG_TYPE sess_msg_type) then Done (PROCESS_ERROR, w) else
      let h := response_header (frontend_sess_id s) (backend_sess_id s) (ip_version s) sess_msg_type in
      b ← build_proxy_general_message no_malloc (Some (eng_tx (w_eng w))) (Some h)
            (Some (SessOpRespData_bytes r)) sizeof_SessOpRespData true MEMORY_ALLOC_AMPQUEUE (w_tx w);
      let '(st, _, t) := b in Done (st, with_tx w t)
  end.

Definition backend_proxy_generate_sess_msg_create_close_response_standalone (w : world)
    (fsid bsid ipv sess_msg_type : Z) (op_resp : option SessOpRespData) : outcome (status * world) :=
  match op_resp with
  | None => Done (PROCESS_ERROR, w)
  | Some r =>
      if negb (IS_VALID_SESS_MSG_TYPE sess_msg_type) then Done (PROCESS_ERROR, w) else
      b ← build_proxy_general_message no_malloc (Some (eng_tx (w_eng w)))
            (Some (response_header fsid bsid ipv sess_msg_type))
            (Some (SessOpRespData_bytes r)) sizeof_SessOpRespData true MEMORY_ALLOC_AMPQUEUE (w_tx w);
      let '(st, _, t) := b in Done (st, with_tx w t)
  end.

(** The [backend_sess_id] argument is not used: the handover id is sent. *)
Definition backend_proxy_send_sess_standalone_msg_to_frontend_via_shmem (w : world)
    (fsid bsid ipv sess_msg_type : Z) (op_resp : option SessOpRespData) : outcome (status * world) :=
  match op_resp with
  | None => Done (PROCESS_ERROR, w)
  | Some _ =>
      if eng_mem_pool (eng_tx (w_eng w)) =? 0 then Done (PROCESS_ERROR, w) else
      r ← backend_proxy_generate_sess_msg_create_close_response_standalone w fsid
            BACKEND_HANDOVER_SESSION_ID ipv sess_msg_type op_resp;
      Done (if decide (fst r = PROCESS_OK) then PROCESS_OK else PROCESS_ERROR, snd r)
  end.

Definition backend_proxy_send_sess_msg_to_frontend_via_shmem (w : world) (s : BackendSession)
    (sess_msg_type : Z) (op_resp : option SessOpRespData) : outcome (status * world) :=
  match op_resp with
  | None => Done (PROCESS_ERROR, w)
  | Some _ =>
      if negb (sess_eng s) || (eng_mem_pool (eng_tx (w_eng w)) =? 0) then Done (PROCESS_ERROR, w) else
      r ← backend_proxy_generate_sess_msg_create_close_response w s sess_msg_type op_resp;
      Done (if decide (fst r = PROCESS_OK) then PROCESS_OK else PROCESS_ERROR, snd r)
  end.

(** ** The transmit path of a world *)

(** The TX ring [g] of [w] is well formed and large enough for a response. *)
Record tx_ok (g : geometry) (w : world) : Prop := {
  txo_wf : qwf g (tx_mem (w_tx w));
  txo_queue : g_queue g = hyper_tx_queue (eng_ports (eng_tx (w_eng w)));
  txo_base : g_base g = hyper_amp_data_region (eng_ports (eng_tx (w_eng w)));
  txo_pool : eng_mem_pool (eng_tx (w_eng w)) <> 0;
  txo_bs : 32 <= g_bs g }.

Definition sent_messages (g : geometry) (w : world) : list (list Z) := contents g (tx_mem (w_tx w)).

Lemma response_bytes_ok r : Forall is_byte (SessOpRespData_bytes r).
Proof.
  unfold SessOpRespData_bytes, is_byte.
  pose proof (u8_range (resp_status r)). pose proof (u8_range (resp_code r)).
  repeat constructor; lia.
Qed.

Lemma response_header_ok fsid bsid ipv t :
  0 <= fsid < 65536 -> 0 <= bsid < 65536 -> header_ok (response_header fsid bsid ipv t) = true.
Proof.
  intros Hf Hb. unfold header_ok, response_header. cbn.
  rewrite !andb_true_iff. pose proof (proj2 (u16_ok_spec fsid) Hf). pose proof (proj2 (u16_ok_spec bsid) Hb).
  pose proof (proj2 (u16_ok_spec (u16 ipv)) (u16_range ipv)).
  destruct (t =? SESS_MSG_CREATE); split_and!; done.
Qed.

(** The ring has room for one more message. *)
Definition tx_room (g : geometry) (w : world) : Prop :=
  (length (sent_messages g w) < Z.to_nat (g_cap g - 1))%nat.
#[export] Instance tx_room_dec g w : Decision (tx_room g w).
Proof. unfold tx_room. apply _. Defined.

(** What sending the response [r] does to a world: with room one block, holding
    the response, is added; without, nothing is sent; only the transmit state
    changes. *)
Definition responded (g : geometry) (w : world) (fsid bsid ipv t : Z) (r : SessOpRespData)
    (st : status) (w' : world) : Prop :=
  exists tx, w' = with_tx w tx /\ tx_ok g w' /\
  if decide (tx_room g w) then
    st = PROCESS_OK /\ exists blk, sent_messages g w' = sent_messages g w ++ [blk] /\
    holds_message (response_header fsid bsid ipv t) (SessOpRespData_bytes r) 2 blk
  else st = PROCESS_ERROR /\ sent_messages g w' = sent_messages g w.

Lemma response_built g w fsid bsid ipv t r :
  tx_ok g w -> 0 <= fsid < 65536 -> 0 <= bsid < 65536 ->
  exists p tx,
  build_proxy_general_message no_malloc (Some (eng_tx (w_eng w)))
    (Some (response_header fsid bsid ipv t)) (Some (SessOpRespData_bytes r)) sizeof_SessOpRespData true
    MEMORY_ALLOC_AMPQUEUE (w_tx w) = Done (if decide (tx_room g w) then PROCESS_OK else PROCESS_AGAIN, p, tx) /\
  responded g w fsid bsid ipv t r (if decide (tx_room g w) then PROCESS_OK else PROCESS_ERROR) (with_tx w tx).
Proof.
  intros [Hw Hq Hb Hp Hs] Hf Hbs.
  destruct (build_general_amp_spec (eng_tx (w_eng w)) g (w_tx w)
              (response_header fsid bsid ipv t) (SessOpRespData_bytes r) 2) as (blk & s' & Hh & Hpush).
  { exact Hw. } { exact Hq. } { exact Hb. } { by apply response_header_ok. }
  { unfold response_header. destruct (t =? SESS_MSG_CREATE); reflexivity. }
  { lia. } { done. } { cbn. unfold HYPERAMP_MSG_HDR_PLUS_MAX_SIZE. lia. } { apply response_bytes_ok. }
  unfold build_proxy_general_message. rewrite (proj2 (Z.eqb_neq _ _) Hp).
  change sizeof_SessOpRespData with 2. unfold fifo.push in Hpush. unfold responded.
  destruct (decide (tx_room g w)) as [Hr|Hr]; unfold tx_room, sent_messages in *.
  - rewrite decide_True in Hpush by done. destruct Hpush as (-> & Hw' & Hc & _). do 2 eexists.
    split; [reflexivity|]. eexists. split; [reflexivity|]. split; [by split|]. eauto.
  - rewrite decide_False in Hpush by done. destruct Hpush as (-> & Hw' & Hc & _). do 2 eexists.
    split; [reflexivity|]. eexists. split; [reflexivity|]. split; [by split|]. eauto.
Qed.

Lemma send_standalone_spec g w fsid bsid ipv t r :
  tx_ok g w -> 0 <= fsid < 65536 -> IS_VALID_SESS_MSG_TYPE t = true ->
  exists st w', backend_proxy_send_sess_standalone_msg_to_frontend_via_shmem w fsid bsid ipv t (Some r)
                = Done (st, w') /\ responded g w fsid BACKEND_HANDOVER_SESSION_ID ipv t r st w'.
Proof.
  intros Htx Hf Ht. unfold backend_proxy_send_sess_standalone_msg_to_frontend_via_shmem,
    backend_proxy_generate_sess_msg_create_close_response_standalone.
  rewrite (proj2 (Z.eqb_neq _ _) (txo_pool _ _ Htx)), Ht. cbn [negb].
  destruct (response_built g w fsid BACKEND_HANDOVER_SESSION_ID ipv t r Htx Hf) as (p & tx & -> & Hr);
    [unfold BACKEND_HANDOVER_SESSION_ID, PROXY_HANDOVER_SESSION_ID; lia|].
  cbn [mbind outcome_bind fst snd]. do 2 eexists. split; [reflexivity|]. by case_decide.
Qed.

Lemma send_response_spec g w s t r :
  tx_ok g w -> sess_eng s = true -> 0 <= frontend_sess_id s < 65536 -> 0 <= backend_sess_id s < 65536 ->
  IS_VALID_SESS_MSG_TYPE t = true ->
  exists st w', backend_proxy_send_sess_msg_to_frontend_via_shmem w s t (Some r) = Done (st, w') /\
  responded g w (frontend_sess_id s) (backend_sess_id s) (ip_version s) t r st w'.
Proof.
  intros Htx He Hf Hb Ht. unfold backend_proxy_send_sess_msg_to_frontend_via_shmem,
    backend_proxy_generate_sess_msg_create_close_response.
  rewrite (proj2 (Z.eqb_neq _ _) (txo_pool _ _ Htx)), Ht, He. cbn [negb orb].
  destruct (response_built g w (frontend_sess_id s) (backend_sess_id s) (ip_version s) t r Htx Hf Hb)
    as (p & tx & -> & Hr).
  cbn [mbind outcome_bind fst snd]. do 2 eexists. split; [reflexivity|]. by case_decide.
Qed.
