(* ===== verification/SessionPool.v ===== *)
(** * SessionPool: the high-speed session pool

    src/session_pool.c.  What the operating system and malloc answer is an
    argument of each operation ([create_env], [io_env], ...); an object fresh
    from malloc holds arbitrary bytes, given as a session record.  exit() on a
    failed malloc of a 16-byte id element is not modelled. *)

From S2P Require Import Prelude Bytes Mem HyperampQueue HyperampLinux ByteStore Message Build Session Device Responses.
From stdpp Require Import base list numbers option gmap.
From Stdlib Require Import ZArith Lia.
#[local] Open Scope Z_scope.

(** ** Session ids *)

Definition fill_id_queue (id_q : list Z) : list Z := id_q ++ map Z.of_nat (seq 1 1024).

Definition allocate_id (id_q : list Z) : Z * list Z :=
  match id_q with [] => (0, []) | id :: q => (id, q) end.

Definition release_id (id_q : list Z) (id : Z) : list Z := id_q ++ [id].

Definition release_id_queue (id_q : list Z) : list Z := [].

(** ** The pool *)

Definition set_id_queue (p : BackendSessionPool) (q : list Z) : BackendSessionPool :=
  {| sess_num := sess_num p; pool_capacity := pool_capacity p; queue_f2b := queue_f2b p;
     queue_b2f := queue_b2f p; id_queue := q; htable := htable p |}.

Definition set_htable (p : BackendSessionPool) (h : gmap Z Z) (n : Z) : BackendSessionPool :=
  {| sess_num := n; pool_capacity := pool_capacity p; queue_f2b := queue_f2b p;
     queue_b2f := queue_b2f p; id_queue := id_queue p; htable := h |}.

Definition high_speed_init_pool : BackendSessionPool :=
  {| sess_num := 0; pool_capacity := 1024; queue_f2b := []; queue_b2f := [];
     id_queue := fill_id_queue []; htable := ∅ |}.

Definition high_speed_deinit_pool (p : BackendSessionPool) : BackendSessionPool :=
  {| sess_num := sess_num p; pool_capacity := pool_capacity p; queue_f2b := []; queue_b2f := [];
     id_queue := release_id_queue (id_queue p); htable := htable p |}.

Definition inc_sess_num (p : BackendSessionPool) : BackendSessionPool := set_htable p (htable p) (sess_num p + 1).
Definition dec_sess_num (p : BackendSessionPool) : BackendSessionPool := set_htable p (htable p) (sess_num p - 1).

(** Unhash and free every session of the table. *)
Definition high_speed_delete_all_sess (w : world) : world :=
  let h := htable (w_pool w) in
  let w := with_pool w (set_htable (w_pool w) ∅ (sess_num (w_pool w))) in
  map_fold (fun _ p w => free_sess w p) w h.

Definition high_speed_destroy_pool (w : world) : world :=
  let p := w_pool w in
  high_speed_delete_all_sess
    (with_pool w {| sess_num := 0; pool_capacity := 0; queue_f2b := queue_f2b p; queue_b2f := queue_b2f p;
                    id_queue := id_queue p; htable := htable p |}).

Definition high_speed_insert_sess (w : world) (p : Z) : outcome (status * world) :=
  s ← get_sess w p;
  match htable (w_pool w) !! backend_sess_id s with
  | None =>
      let h := <[backend_sess_id s := p]> (htable (w_pool w)) in
      Done (PROCESS_OK, with_pool w (inc_sess_num (set_htable (w_pool w) h (sess_num (w_pool w)))))
  | Some _ => Done (PROCESS_ERROR, w)
  end.

Definition high_speed_search_sess (w : world) (id : Z) : option Z := htable (w_pool w) !! id.

(** HASH_DEL of an element that is not in the table is undefined. *)
Definition hash_del (w : world) (p : Z) (id : Z) : outcome world :=
  match htable (w_pool w) !! id with
  | Some q =>
      _ ← require (q =? p) BadUnlink;
      Done (with_pool w (set_htable (w_pool w) (delete id (htable (w_pool w))) (sess_num (w_pool w))))
  | None => Fault BadUnlink
  end.

(** ** Creation *)

Record SessMsgPara := {
  para_frontend_sess_id : Z; para_dev_id : Z; para_ip_version : Z; para_trans_proto : Z;
  para_ip_port : list Z }.

Record PassiveSessParaIP := {
  pp_fd : Z; pp_dev_id : Z; pp_trans_proto : Z; pp_ip_version : Z; pp_ipv4_port_tuple : list Z }.

(** [ce_junk_id], [ce_junk_code]: the uninitialised locals [new_sess_id] and
    [resp_dat.code]; [ce_socket], [ce_connect]: create_socket_netns and
    connect_socket_netns; [ce_epoll_add], [ce_epoll_del]: epoll_ctl. *)
Record create_env := {
  ce_malloc : option (Z * BackendSession);
  ce_junk_id : Z; ce_junk_code : Z;
  ce_socket : option Z; ce_connect : bool;
  ce_epoll_add : bool; ce_epoll_del : bool }.

Definition fail_resp (code : Z) : SessOpRespData :=
  {| resp_status := SESS_OP_STATUS_FAIL; resp_code := code |}.

(** Two assignments to [resp_dat.status]: the code lands in the status. *)
Definition fail_resp_status (status_value code : Z) : SessOpRespData :=
  {| resp_status := status_value; resp_code := code |}.

Definition success_resp : SessOpRespData :=
  {| resp_status := SESS_OP_STATUS_SUCCESS; resp_code := SESS_OP_CODE_SUCCESS |}.

(** Label [create_sess_error]: report, free the session, give the id back,
    close the socket. *)
Definition create_sess_error (w : world) (para : SessMsgPara) (new_sess : option Z)
    (new_sess_id fd : Z) (resp : SessOpRespData) : outcome (status * option Z * world) :=
  r ← backend_proxy_send_sess_standalone_msg_to_frontend_via_shmem w (para_frontend_sess_id para)
        BACKEND_HANDOVER_SESSION_ID (para_ip_version para) SESS_MSG_CREATE (Some resp);
  let w := snd r in
  let w := match new_sess with Some p => free_sess w p | None => w end in
  let w := if new_sess_id =? 0 then w
           else with_pool w (set_id_queue (w_pool w) (release_id (id_queue (w_pool w)) new_sess_id)) in
  let w := if fd =? ERROR_SOCKET_FD then w else close_fd w fd in
  Done (PROCESS_ERROR, None, w).

(** The device of a request: the one named, or the selector's choice. *)
Definition request_device (w : world) (dev : Z) : outcome (status * Z * world) :=
  if dev =? DEV_ID_AUTO_HANDOVER then choose_hs_net_dev w dev else Done (PROCESS_OK, dev, w).

(** [&= BACKEND_SESS_LINKED_TO_QUEUE] keeps the bit malloc left there. *)
Definition common_session (junk : BackendSession) (para : SessMsgPara) (id fd p status proto mode : Z)
  : BackendSession :=
  {| proto_type := proto; dev_id := dev_id junk; establish_mode := mode; sock_fd := fd;
     ip_version := para_ip_version para; frontend_sess_id := para_frontend_sess_id para;
     backend_sess_id := id;
     state_f2b := Z.land (state_f2b junk) BACKEND_SESS_LINKED_TO_QUEUE;
     state_b2f := Z.land (state_b2f junk) BACKEND_SESS_LINKED_TO_QUEUE;
     sess_dev_link_state := sess_dev_link_state junk; msg_f2b := []; msg_b2f := []; sess_eng := true;
     sess_node := sess_node junk;
     net_channel := {| ch_sock_fd := fd; ch_events := ch_events (net_channel junk); ch_status := status;
                       ch_sess := p |} |}.

(** The older entry point (no session node, response before insertion). *)
Definition create_sess_connected (w : world) (para : SessMsgPara) (env : create_env) (p id fd : Z)
    (junk : BackendSession) : outcome (status * option Z * world) :=
  let s := common_session junk para id fd p (ch_status (net_channel junk)) (proto_type junk)
             (establish_mode junk) in
  let w := put_sess w p s in
  r ← backend_proxy_send_sess_msg_to_frontend_via_shmem w s SESS_MSG_CREATE (Some success_resp);
  let w := snd r in
  if negb (bool_decide (fst r = PROCESS_OK)) then
    create_sess_error w para (Some p) id fd
      (fail_resp_status SESS_OP_CODE_RESOURCE_INSUFFICIENT SESS_OP_CODE_SUCCESS)
  else
    let '(ret, s) := BACKEND_SESS_REGISTER_EPOLL (ce_epoll_add env) s EPOLLIN in
    let w := put_sess w p s in
    if negb (bool_decide (ret = PROCESS_OK)) then
      create_sess_error w para (Some p) id fd
        (fail_resp_status SESS_OP_CODE_RESOURCE_INSUFFICIENT SESS_OP_CODE_SUCCESS)
    else
      r ← high_speed_insert_sess w p;
      if negb (bool_decide (fst r = PROCESS_OK)) then
        create_sess_error (snd r) para (Some p) id fd
          (fail_resp_status SESS_OP_CODE_RESOURCE_INSUFFICIENT SESS_OP_CODE_SUCCESS)
      else Done (PROCESS_OK, Some p, snd r).

(** Socket creation and connection, common to the entry points; [on_unreachable]
    is the response of a failed connect. *)
Definition create_sess_socket (w : world) (para : SessMsgPara) (env : create_env) (p id dev : Z)
    (on_unreachable : SessOpRespData)
    (connected : world -> Z -> outcome (status * option Z * world)) : outcome (status * option Z * world) :=
  ns ← GET_NS_ID w dev;
  if ns =? ERROR_NAMESPACE_ID then
    create_sess_error w para (Some p) id ERROR_SOCKET_FD (fail_resp SESS_OP_CODE_DEVICE_ERROR)
  else
    match ce_socket env with
    | None => create_sess_error w para (Some p) id ERROR_SOCKET_FD
                (fail_resp SESS_OP_CODE_RESOURCE_INSUFFICIENT)
    | Some fd =>
        if negb (ce_connect env) then create_sess_error w para (Some p) id fd on_unreachable
        else connected w fd
    end.

Definition high_speed_create_sess (w : world) (para : SessMsgPara) (env : create_env)
  : outcome (status * option Z * world) :=
  match ce_malloc env with
  | None => create_sess_error w para None (ce_junk_id env) ERROR_SOCKET_FD
              (fail_resp SESS_OP_CODE_RESOURCE_INSUFFICIENT)
  | Some (p, junk) =>
      let w := put_sess w p junk in
      let '(id, q) := allocate_id (id_queue (w_pool w)) in
      let w := with_pool w (set_id_queue (w_pool w) q) in
      if id =? 0 then create_sess_error w para (Some p) 0 ERROR_SOCKET_FD
                        (fail_resp SESS_OP_CODE_RESOURCE_INSUFFICIENT) else
      c ← request_device w (para_dev_id para);
      let '(st, dev, w) := c in
      if negb (bool_decide (st = PROCESS_OK)) then
        create_sess_error w para (Some p) id ERROR_SOCKET_FD (fail_resp SESS_OP_CODE_DEVICE_ERROR)
      else
        create_sess_socket w para env p id dev (fail_resp SESS_OP_CODE_NETWORK_UNREACHABLE)
          (fun w fd => create_sess_connected w para env p id fd junk)
  end.

(** ** Active creation *)

(** Label [recycle_sess_node]: take the node off the device's list and put it
    back on the free list. *)
Definition recycle_sess_node (w : world) (dev n p : Z) : outcome world :=
  s ← get_sess w p;
  w ← HIGH_SPEED_NET_DEV_REMOVE_SESSION_NODE w dev n (proto_type s);
  let w := set_node_sess w n None in
  s ← get_sess w p;
  let w := put_sess w p (set_sess_node s None) in
  HIGH_SPEED_NET_DEV_PUSH_FREE_SESSION_NODE w dev n.

(** Registration, insertion and the success response, with the node [n] linked. *)
Definition create_active_publish (w : world) (para : SessMsgPara) (env : create_env)
    (p id fd dev n : Z) : outcome (status * option Z * world) :=
  s ← get_sess w p;
  let '(ret, s) := BACKEND_SESS_REGISTER_EPOLL (ce_epoll_add env) s EPOLLIN in
  let w := put_sess w p s in
  if negb (bool_decide (ret = PROCESS_OK)) then
    w ← recycle_sess_node w dev n p;
    create_sess_error w para (Some p) id fd
      (fail_resp_status SESS_OP_CODE_RESOURCE_INSUFFICIENT (ce_junk_code env))
  else
    r ← high_speed_insert_sess w p;
    let w := snd r in
    if negb (bool_decide (fst r = PROCESS_OK)) then
      let w := put_sess w p (snd (BACKEND_SESS_UNREGISTER_EPOLL (ce_epoll_del env) s)) in
      w ← recycle_sess_node w dev n p;
      create_sess_error w para (Some p) id fd
        (fail_resp_status SESS_OP_CODE_RESOURCE_INSUFFICIENT (ce_junk_code env))
    else
      r ← backend_proxy_send_sess_msg_to_frontend_via_shmem w s SESS_MSG_CREATE (Some success_resp);
      let w := snd r in
      if negb (bool_decide (fst r = PROCESS_OK)) then
        w ← recycle_sess_node w dev n p;
        create_sess_error w para (Some p) id fd
          (fail_resp_status SESS_OP_CODE_RESOURCE_INSUFFICIENT SESS_OP_CODE_SUCCESS)
      else Done (PROCESS_OK, Some p, w).

(** Filling the session and linking it to a free node of the device. *)
Definition create_active_connected (w : world) (para : SessMsgPara) (env : create_env)
    (p id dev : Z) (junk : BackendSession) (fd : Z) : outcome (status * option Z * world) :=
  let s := common_session junk para id fd p EPOLL_REG_STATUS_UNREGISTERED (para_trans_proto para)
             SESS_ESTABLISH_ACTIVE in
  let w := put_sess w p s in
  r ← HIGH_SPEED_NET_DEV_POP_FREE_SESSION_NODE w dev;
  let '(node, w) := r in
  match node with
  | None => create_sess_error w para (Some p) id fd (fail_resp SESS_OP_CODE_RESOURCE_INSUFFICIENT)
  | Some n =>
      let s := set_link_state s (Z.land (sess_dev_link_state s) (Z.lnot BACKEND_SESS_LINKED_TO_DEV_NODE)) in
      let w := set_node_sess w n (Some p) in
      let s := set_sess_node s (Some n) in
      let w := put_sess w p s in
      r ← HIGH_SPEED_NET_DEV_INSERT_SESSION_NODE w dev n (proto_type s);
      let '(ret, w) := r in
      if negb (bool_decide (ret = PROCESS_OK)) then
        let w := set_node_sess w n None in
        let w := put_sess w p (set_sess_node s None) in
        w ← HIGH_SPEED_NET_DEV_PUSH_FREE_SESSION_NODE w dev n;
        create_sess_error w para (Some p) id fd (fail_resp SESS_OP_CODE_DEVICE_ERROR)
      else create_active_publish w para env p id fd dev n
  end.

Definition high_speed_create_sess_active (w : world) (para : SessMsgPara) (env : create_env)
  : outcome (status * option Z * world) :=
  match ce_malloc env with
  | None => create_sess_error w para None (ce_junk_id env) ERROR_SOCKET_FD
              (fail_resp SESS_OP_CODE_RESOURCE_INSUFFICIENT)
  | Some (p, junk) =>
      let w := put_sess w p junk in
      let '(id, q) := allocate_id (id_queue (w_pool w)) in
      let w := with_pool w (set_id_queue (w_pool w) q) in
      if id =? 0 then create_sess_error w para (Some p) 0 ERROR_SOCKET_FD
                        (fail_resp SESS_OP_CODE_RESOURCE_INSUFFICIENT) else
      if dev_num (w_eng w) =? 0 then
        create_sess_error w para (Some p) id ERROR_SOCKET_FD (fail_resp SESS_OP_CODE_DEVICE_ERROR) else
      c ← request_device w (para_dev_id para);
      let '(st, dev, w) := c in
      if negb (bool_decide (st = PROCESS_OK)) then
        create_sess_error w para (Some p) id ERROR_SOCKET_FD (fail_resp SESS_OP_CODE_DEVICE_ERROR)
      else
        create_sess_socket w para env p id dev
          (fail_resp_status SESS_OP_CODE_NETWORK_UNREACHABLE (ce_junk_code env))
          (fun w fd => create_active_connected w para env p id dev junk fd)
  end.

(** ** Passive creation *)

(** Label [create_sess_passive_error]. *)
Definition create_sess_passive_error (w : world) (dev new_sess_id : Z) (new_sess node : option Z)
  : outcome (status * world) :=
  let w := if new_sess_id =? 0 then w
           else with_pool w (set_id_queue (w_pool w) (release_id (id_queue (w_pool w)) new_sess_id)) in
  match new_sess with
  | None => Done (PROCESS_ERROR, w)
  | Some p =>
      w ← match node with
          | None => Done w
          | Some n =>
              s ← get_sess w p;
              w ← (if Z.land (sess_dev_link_state s) BACKEND_SESS_LINKED_TO_DEV_NODE =? 0 then Done w
                   else HIGH_SPEED_NET_DEV_REMOVE_SESSION_NODE w dev n (proto_type s));
              let w := set_node_sess w n None in
              s ← get_sess w p;
              let w := put_sess w p (set_sess_node s None) in
              HIGH_SPEED_NET_DEV_PUSH_FREE_SESSION_NODE w dev n
          end;
      Done (PROCESS_ERROR, free_sess w p)
  end.

(** [frontend_sess_id], the message queues and the channel keep malloc's bytes. *)
Definition passive_session (junk : BackendSession) (para : PassiveSessParaIP) (id n : Z) : BackendSession :=
  {| proto_type := pp_trans_proto para; dev_id := pp_dev_id para; establish_mode := SESS_ESTABLISH_PASSIVE;
     sock_fd := pp_fd para; ip_version := pp_ip_version para;
     frontend_sess_id := frontend_sess_id junk; backend_sess_id := id;
     state_f2b := Z.land (state_f2b junk) BACKEND_SESS_LINKED_TO_QUEUE;
     state_b2f := Z.land (state_b2f junk) BACKEND_SESS_LINKED_TO_QUEUE;
     sess_dev_link_state := Z.land (sess_dev_link_state junk) (Z.lnot BACKEND_SESS_LINKED_TO_DEV_NODE);
     msg_f2b := msg_f2b junk; msg_b2f := msg_b2f junk; sess_eng := true; sess_node := Some n;
     net_channel := net_channel junk |}.

Definition passive_header (para : PassiveSessParaIP) (id : Z) : GeneralProxyMsgHeader :=
  {| outer_header := {| pmh_version := PROXY_PROTO_VERSION_1; pmh_type := PROXY_MSG_TYPE_SESS;
                        pmh_frontend_sess_id := FRONTEND_HANDOVER_SESSION_ID; pmh_backend_sess_id := id;
                        pmh_payload_len := 0 |};
     inner_header := {| iw0 := PROXY_PROTO_SESS_VERSION_1; iw1 := SESS_MSG_CREATE;
                        iw2 := ACTION_TYPE_COMMAND; iw3 := pp_ip_version para; iw4 := 10; iw5 := 0 |};
     iot_addr := {| addr_type := 0; addr_info := [] |}; iot_addr_len := 0 |}.

(** [SessIPv4Params]: device, transport protocol, endpoint. *)
Definition passive_payload (para : PassiveSessParaIP) : list Z :=
  le_bytes 2 (pp_dev_id para) ++ le_bytes 2 (pp_trans_proto para) ++ pp_ipv4_port_tuple para.

Definition high_speed_create_sess_passive (w : world) (sess : bool) (para : option PassiveSessParaIP)
    (env : create_env) : outcome (status * world) :=
  match para with
  | None => Done (PROCESS_ERROR, w)
  | Some para =>
      if negb sess then Done (PROCESS_ERROR, w) else
      if negb (pp_ip_version para =? SESS_IPV4_PROTO) then Done (PROCESS_ERROR, w) else
      if MAX_HS_DEV_NUM <=? pp_dev_id para then Done (PROCESS_ERROR, w) else
      let dev := pp_dev_id para in
      match ce_malloc env with
      | None => create_sess_passive_error w dev (ce_junk_id env) None None
      | Some (p, junk) =>
          let w := put_sess w p junk in
          let '(id, q) := allocate_id (id_queue (w_pool w)) in
          let w := with_pool w (set_id_queue (w_pool w) q) in
          if id =? 0 then create_sess_passive_error w dev 0 (Some p) None else
          r ← HIGH_SPEED_NET_DEV_POP_FREE_SESSION_NODE w dev;
          let '(node, w) := r in
          match node with
          | None => create_sess_passive_error w dev id (Some p) None
          | Some n =>
              let s := passive_session junk para id n in
              let w := set_node_sess (put_sess w p s) n (Some p) in
              r ← HIGH_SPEED_NET_DEV_INSERT_SESSION_NODE w dev n (proto_type s);
              let '(ret, w) := r in
              if bool_decide (ret = PROCESS_ERROR) then create_sess_passive_error w dev id (Some p) (Some n)
              else
                b ← build_proxy_general_message no_malloc (Some (eng_tx (w_eng w)))
                      (Some (passive_header para id)) (Some (passive_payload para)) 10 true
                      MEMORY_ALLOC_AMPQUEUE (w_tx w);
                let '(st, _, t) := b in Done (st, with_tx w t)
          end
      end
  end.

(** ** Deletion *)

(** The device part of [high_speed_delete_sess]. *)
Definition delete_unlink_node (w : world) (p : Z) : outcome world :=
  s ← get_sess w p;
  if (dev_id s <? 0) || (MAX_HS_DEV_NUM <=? dev_id s) then Done w else
  if Z.land (sess_dev_link_state s) BACKEND_SESS_LINKED_TO_DEV_NODE =? 0 then Done w else
  match sess_node s with
  | None => Fault NullDeref
  | Some n =>
      np ← get_node w n;
      match np with
      | None => Fault NullDeref
      | Some q =>
          t ← get_sess w q;
          w ← HIGH_SPEED_NET_DEV_REMOVE_SESSION_NODE w (dev_id s) n (proto_type t);
          HIGH_SPEED_NET_DEV_PUSH_FREE_SESSION_NODE (set_node_sess w n None) (dev_id s) n
      end
  end.

(** From the epoll removal to the release of the id. *)
Definition delete_detach_sess (w : world) (p : Z) (s : BackendSession) (epoll_del : bool) : outcome world :=
  let w := put_sess w p (snd (BACKEND_SESS_UNREGISTER_EPOLL epoll_del s)) in
  let w := close_fd w (sock_fd s) in
  w ← hash_del w p (backend_sess_id s);
  let w := with_pool w (dec_sess_num (w_pool w)) in
  w ← BACKEND_SESS_UNLINK_FROM_QUEUE w p F2B;
  w ← BACKEND_SESS_UNLINK_FROM_QUEUE w p B2F;
  t ← get_sess w p;
  let w := put_sess w p (sess_msg_queue_free_all (sess_msg_queue_free_all t F2B) B2F) in
  Done (with_pool w (set_id_queue (w_pool w) (release_id (id_queue (w_pool w)) (backend_sess_id s)))).

Definition high_speed_delete_sess (w : world) (p : Z) (epoll_del : bool) : outcome (status * world) :=
  s ← get_sess w p;
  w ← delete_detach_sess w p s epoll_del;
  w ← delete_unlink_node w p;
  let w := free_sess w p in
  r ← backend_proxy_send_sess_standalone_msg_to_frontend_via_shmem w (frontend_sess_id s)
        (backend_sess_id s) (ip_version s) SESS_MSG_CLOSE (Some success_resp);
  Done (PROCESS_OK, snd r).
