(* ===== verification/SessionPoolSpec.v ===== *)
(** * SessionPoolSpec: the pool's invariant and what its operations do *)

From S2P Require Import Prelude Bytes Mem HyperampQueueSpec HyperampLinux Message Build BuildSpec Session Device Responses SessionPool.
From stdpp Require Import base list numbers option gmap.
From Stdlib Require Import ZArith Lia.
#[local] Open Scope Z_scope.

(** ** The invariant

    Ids on the free list are distinct, in 1..1024 and unused; every table
    entry points to a live session carrying that id; [sess_num] counts the
    table; and a session is on a work queue exactly when it is in the table and
    its flag for that direction is set. *)

Record pool_inv (w : world) : Prop := {
  pi_nodup : NoDup (id_queue (w_pool w));
  pi_range : forall id, id ∈ id_queue (w_pool w) -> 1 <= id <= 1024;
  pi_free : forall id, id ∈ id_queue (w_pool w) -> htable (w_pool w) !! id = None;
  pi_table : forall id p, htable (w_pool w) !! id = Some p ->
    1 <= id <= 1024 /\ exists s, w_sess w !! p = Some s /\ backend_sess_id s = id /\ sess_eng s = true;
  pi_num : sess_num (w_pool w) = Z.of_nat (size (htable (w_pool w)));
  pi_qnodup : forall dir, NoDup (pool_queue dir (w_pool w));
  pi_queue : forall dir p, p ∈ pool_queue dir (w_pool w) <->
    exists id s, htable (w_pool w) !! id = Some p /\ w_sess w !! p = Some s /\
                 bit0 (sess_state dir s) = true }.

(** No id is lost: every id of 1..1024 is free or in use. *)
Definition ids_accounted (w : world) : Prop :=
  (length (id_queue (w_pool w)) + size (htable (w_pool w)) = 1024)%nat.

(** ** Frame lemmas *)

Lemma pool_inv_ext w w' :
  w_pool w' = w_pool w ->
  (forall id p, htable (w_pool w) !! id = Some p -> w_sess w' !! p = w_sess w !! p) ->
  pool_inv w -> pool_inv w'.
Proof.
  intros Hp Hs [Hnd Hr Hf Ht Hn Hqn Hq]. split; rewrite ?Hp; try done.
  - intros id p Hid. rewrite (Hs id) by done. auto.
  - intros dir p. rewrite Hq. split; intros (id & s & Hid & Hsess & Hb); exists id, s;
      (split; [done|]); [rewrite (Hs id) by done|rewrite (Hs id) in Hsess by done]; done.
Qed.

Lemma pool_inv_frame w w' : w_pool w' = w_pool w -> w_sess w' = w_sess w -> pool_inv w -> pool_inv w'.
Proof. intros Hp Hs. apply pool_inv_ext; [done|]. intros. by rewrite Hs. Qed.

Definition unhashed (w : world) (p : Z) : Prop := forall id, htable (w_pool w) !! id <> Some p.

Lemma fresh_unhashed w p : pool_inv w -> w_sess w !! p = None -> unhashed w p.
Proof.
  intros Hi Hp id Hid. destruct (pi_table _ Hi _ _ Hid) as (_ & s & Hs & _). congruence.
Qed.

(** Objects outside the table may be created, written and freed. *)
Lemma pool_inv_put_unhashed w p s : pool_inv w -> unhashed w p -> pool_inv (put_sess w p s).
Proof.
  intros Hi Hu. apply (pool_inv_ext w); [done| |done]. intros id q Hq. cbn.
  apply lookup_insert_ne. intros ->. by apply (Hu id).
Qed.

Lemma pool_inv_free_unhashed w p : pool_inv w -> unhashed w p -> pool_inv (free_sess w p).
Proof.
  intros Hi Hu. apply (pool_inv_ext w); [done| |done]. intros id q Hq. cbn.
  apply lookup_delete_ne. intros ->. by apply (Hu id).
Qed.

(** Fields the pool does not look at may change. *)
Definition same_key (s s' : BackendSession) : Prop :=
  backend_sess_id s' = backend_sess_id s /\ sess_eng s' = sess_eng s /\
  state_f2b s' = state_f2b s /\ state_b2f s' = state_b2f s.

Lemma same_key_state s s' dir : same_key s s' -> sess_state dir s' = sess_state dir s.
Proof. intros (_ & _ & ? & ?). by destruct dir. Qed.

Lemma pool_inv_put_same w p s s' :
  w_sess w !! p = Some s -> same_key s s' -> pool_inv w -> pool_inv (put_sess w p s').
Proof.
  intros Hs Hk [Hnd Hr Hf Ht Hn Hqn Hq]. split; cbn; try done.
  - intros id q Hid. destruct (Ht _ _ Hid) as (Hrg & t & Ht1 & Ht2 & Ht3). split; [done|].
    destruct (decide (p = q)) as [<-|].
    + exists s'. rewrite lookup_insert_eq. assert (t = s) as -> by congruence.
      destruct Hk as (? & ? & _). split; [done|]. split; congruence.
    + exists t. by rewrite lookup_insert_ne.
  - intros dir q. rewrite Hq. split; intros (id & t & Hid & Ht1 & Hb); exists id.
    + destruct (decide (p = q)) as [<-|].
      * exists s'. rewrite lookup_insert_eq. assert (t = s) as -> by congruence.
        by rewrite (same_key_state _ _ _ Hk).
      * exists t. by rewrite lookup_insert_ne.
    + destruct (decide (p = q)) as [<-|].
      * rewrite lookup_insert_eq in Ht1. simplify_eq. exists s.
        by rewrite <- (same_key_state _ _ _ Hk).
      * rewrite lookup_insert_ne in Ht1 by done. by exists t.
Qed.

(** Id queue updates. *)
Lemma pool_inv_ids w q :
  pool_inv w -> NoDup q -> (forall id, id ∈ q -> 1 <= id <= 1024 /\ htable (w_pool w) !! id = None) ->
  pool_inv (with_pool w (set_id_queue (w_pool w) q)).
Proof.
  intros [Hnd Hr Hf Ht Hn Hqn Hq] Hq' Hok. split; cbn; try done.
  - intros id Hid. by apply Hok.
  - intros id Hid. by apply Hok.
Qed.

(** ** Insertion *)

Lemma insert_sess_inv w p s :
  pool_inv w -> w_sess w !! p = Some s -> unhashed w p -> sess_eng s = true ->
  1 <= backend_sess_id s <= 1024 -> htable (w_pool w) !! backend_sess_id s = None ->
  backend_sess_id s ∉ id_queue (w_pool w) ->
  bit0 (state_f2b s) = false -> bit0 (state_b2f s) = false ->
  let h := <[backend_sess_id s := p]> (htable (w_pool w)) in
  high_speed_insert_sess w p = Done (PROCESS_OK, with_pool w (set_htable (w_pool w) h (sess_num (w_pool w) + 1))) /\
  pool_inv (with_pool w (set_htable (w_pool w) h (sess_num (w_pool w) + 1))).
Proof.
  intros Hi Hs Hu He Hr Hn Hq Hb1 Hb2 h. split.
  - unfold high_speed_insert_sess, get_sess. rewrite Hs. cbn. by rewrite Hn.
  - destruct Hi as [Hnd Hrg Hf Ht Hnum Hqn Hqq]. split; cbn; try done.
    + intros id Hid. unfold h. rewrite lookup_insert_ne by (intros <-; done). auto.
    + intros id q. unfold h. destruct (decide (backend_sess_id s = id)) as [<-|Hne].
      * rewrite lookup_insert_eq. intros [= <-]. split; [done|]. by exists s.
      * rewrite lookup_insert_ne by done. apply Ht.
    + unfold h. rewrite map_size_insert_None by done. lia.
    + intros dir q. transitivity (q ∈ pool_queue dir (w_pool w)); [by destruct dir|]. rewrite Hqq.
      split; intros (id & t & Hid & Ht1 & Hbit); exists id, t.
      * split; [|done]. unfold h. rewrite lookup_insert_ne; [done|]. intros <-. congruence.
      * split; [|done]. unfold h in Hid. destruct (decide (backend_sess_id s = id)) as [<-|Hne].
        -- rewrite lookup_insert_eq in Hid. injection Hid as <-.
           assert (t = s) as -> by congruence. destruct dir; unfold sess_state in Hbit; congruence.
        -- by rewrite lookup_insert_ne in Hid.
Qed.

(** ** Creation *)

Lemma responded_frame g w fsid bsid ipv t r st w' :
  responded g w fsid bsid ipv t r st w' ->
  w_sess w' = w_sess w /\ w_node w' = w_node w /\ w_devs w' = w_devs w /\ w_pool w' = w_pool w /\
  w_eng w' = w_eng w /\ w_closed w' = w_closed w /\ tx_ok g w'.
Proof. intros (tx & -> & Htx & _). done. Qed.

Definition pool_with_released (p : BackendSessionPool) (id : Z) : BackendSessionPool :=
  if id =? 0 then p else set_id_queue p (release_id (id_queue p) id).

Lemma create_sess_error_spec g w para p id fd resp :
  tx_ok g w -> 0 <= para_frontend_sess_id para < 65536 ->
  exists w', create_sess_error w para (Some p) id fd resp = Done (PROCESS_ERROR, None, w') /\
  w_sess w' = delete p (w_sess w) /\ w_node w' = w_node w /\ w_devs w' = w_devs w /\
  w_pool w' = pool_with_released (w_pool w) id /\
  w_closed w' = (if fd =? ERROR_SOCKET_FD then w_closed w else fd :: w_closed w) /\ tx_ok g w' /\ w_eng w' = w_eng w.
Proof.
  intros Htx Hf. unfold create_sess_error.
  destruct (send_standalone_spec g w (para_frontend_sess_id para) BACKEND_HANDOVER_SESSION_ID
              (para_ip_version para) SESS_MSG_CREATE resp Htx Hf eq_refl) as (st & w1 & -> & Hr).
  apply responded_frame in Hr as (H1 & H2 & H3 & H4 & H5 & H6 & H7).
  cbn [mbind outcome_bind fst snd]. eexists. split; [reflexivity|].
  unfold pool_with_released. destruct (id =? 0), (fd =? ERROR_SOCKET_FD); cbn; rewrite ?H1, ?H4, ?H6;
    split_and!; try done; destruct H7; by split.
Qed.

(** The request names device [dev], which is active; malloc gives the fresh
    object [p]; [id] is the next free id. *)
Record create_ready (g : geometry) (w : world) (para : SessMsgPara) (env : create_env)
    (p : Z) (junk : BackendSession) (id : Z) (q : list Z) (d : HighSpeedNetDevice) : Prop := {
  cr_inv : pool_inv w;
  cr_tx : tx_ok g w;
  cr_fsid : 0 <= para_frontend_sess_id para < 65536;
  cr_malloc : ce_malloc env = Some (p, junk);
  cr_fresh : w_sess w !! p = None;
  cr_ids : id_queue (w_pool w) = id :: q;
  cr_dev : 0 <= para_dev_id para < MAX_HS_DEV_NUM;
  cr_hsdev : w_devs w !! Z.to_nat (para_dev_id para) = Some d;
  cr_active : dev_status d = HS_NET_DEV_ACTIVE;
  cr_ns : ns_id d <> ERROR_NAMESPACE_ID }.

Lemma create_ready_id g w para env p junk id q d :
  create_ready g w para env p junk id q d ->
  1 <= id <= 1024 /\ htable (w_pool w) !! id = None /\ (id ∉ q) /\ NoDup q.
Proof.
  intros []. pose proof (pi_nodup _ cr_inv0) as Hn. rewrite cr_ids0 in Hn.
  apply NoDup_cons in Hn as [Hq Hn]. split; [|split; [|done]].
  - apply (pi_range _ cr_inv0). rewrite cr_ids0. left.
  - apply (pi_free _ cr_inv0). rewrite cr_ids0. left.
Qed.

(** The world when the socket is created: object allocated, id taken. *)
Definition reserved (w : world) (p : Z) (junk : BackendSession) (q : list Z) : world :=
  with_pool (put_sess w p junk) (set_id_queue (w_pool w) q).

Lemma create_active_unfold g w para env p junk id q d :
  create_ready g w para env p junk id q d -> dev_num (w_eng w) <> 0 ->
  high_speed_create_sess_active w para env =
  create_sess_socket (reserved w p junk q) para env p id (para_dev_id para)
    (fail_resp_status SESS_OP_CODE_NETWORK_UNREACHABLE (ce_junk_code env))
    (fun w fd => create_active_connected w para env p id (para_dev_id para) junk fd).
Proof.
  intros Hc Hn. destruct (create_ready_id _ _ _ _ _ _ _ _ _ Hc) as (Hid & _). destruct Hc.
  unfold high_speed_create_sess_active. rewrite cr_malloc0. cbn [w_pool put_sess with_sess].
  rewrite cr_ids0. cbn [allocate_id]. rewrite (proj2 (Z.eqb_neq id 0)) by lia.
  cbn [w_eng with_pool put_sess with_sess]. rewrite (proj2 (Z.eqb_neq _ _) Hn).
  unfold request_device. rewrite (proj2 (Z.eqb_neq (para_dev_id para) DEV_ID_AUTO_HANDOVER)).
  2:{ unfold DEV_ID_AUTO_HANDOVER, MAX_HS_DEV_NUM in *. lia. }
  done.
Qed.

Lemma get_dev_lookup w i d : 0 <= i -> w_devs w !! Z.to_nat i = Some d -> get_dev w i = Done d.
Proof. intros Hi Hd. unfold get_dev. rewrite (proj2 (Z.ltb_ge i 0)) by lia. by rewrite Hd. Qed.

Lemma get_ns_ok w i d :
  0 <= i < MAX_HS_DEV_NUM -> w_devs w !! Z.to_nat i = Some d -> dev_status d = HS_NET_DEV_ACTIVE ->
  GET_NS_ID w i = Done (ns_id d).
Proof.
  intros Hi Hd Ha. unfold GET_NS_ID. rewrite require_true.
  2:{ apply andb_true_iff. rewrite Z.leb_le, Z.ltb_lt. lia. }
  cbn [mbind outcome_bind]. rewrite (get_dev_lookup _ _ _ (proj1 Hi) Hd). cbn [mbind outcome_bind].
  rewrite require_true; [done|]. by apply Z.eqb_eq.
Qed.

Lemma reserved_tx_ok g w p junk q : tx_ok g w -> tx_ok g (reserved w p junk q).
Proof. intros []. by split. Qed.

(** A failed attempt puts the id at the end of the free list. *)
Definition rolled_back (w : world) (id : Z) (q : list Z) (w' : world) : Prop :=
  w_sess w' = w_sess w /\ htable (w_pool w') = htable (w_pool w) /\
  sess_num (w_pool w') = sess_num (w_pool w) /\ id_queue (w_pool w') = q ++ [id] /\ pool_inv w'.

Lemma id_given_back w id q w' :
  pool_inv w -> id_queue (w_pool w) = id :: q ->
  w_sess w' = w_sess w -> w_pool w' = set_id_queue (w_pool w) (q ++ [id]) -> rolled_back w id q w'.
Proof.
  intros Hi Hq Hs Hp. unfold rolled_back. rewrite Hs, Hp. split_and!; try done.
  apply (pool_inv_frame (with_pool w (set_id_queue (w_pool w) (q ++ [id])))); [done|done|].
  assert (q ++ [id] ≡ₚ id_queue (w_pool w)) as E by (rewrite Hq; symmetry; apply Permutation_cons_append).
  apply pool_inv_ids; [done|rewrite E; apply Hi|]. intros x. rewrite E. intros Hx.
  split; [by apply (pi_range _ Hi)|by apply (pi_free _ Hi)].
Qed.

Lemma rolled_back_intro g w para env p junk id q d w' :
  create_ready g w para env p junk id q d ->
  w_sess w' = w_sess w -> w_pool w' = set_id_queue (w_pool w) (q ++ [id]) -> rolled_back w id q w'.
Proof. intros []. by apply id_given_back. Qed.

Lemma create_error_rolls_back g w para env p junk id q d w0 fd resp :
  create_ready g w para env p junk id q d ->
  tx_ok g w0 -> (exists s, w_sess w0 = <[p := s]> (w_sess w)) ->
  w_pool w0 = set_id_queue (w_pool w) q -> w_devs w0 = w_devs w -> w_node w0 = w_node w ->
  w_closed w0 = w_closed w -> w_eng w0 = w_eng w ->
  exists w', create_sess_error w0 para (Some p) id fd resp = Done (PROCESS_ERROR, None, w') /\
  rolled_back w id q w' /\ w_devs w' = w_devs w /\ w_node w' = w_node w /\ tx_ok g w' /\ w_eng w' = w_eng w /\
  w_closed w' = (if fd =? ERROR_SOCKET_FD then w_closed w else fd :: w_closed w).
Proof.
  intros Hc Htx0 [s Hs0] Hp0 Hd0 Hn0 Hcl0 He0.
  destruct (create_ready_id _ _ _ _ _ _ _ _ _ Hc) as (Hid & _).
  destruct (create_sess_error_spec g w0 para p id fd resp Htx0 (cr_fsid _ _ _ _ _ _ _ _ _ Hc))
    as (w' & -> & Hs & Hn' & Hd & Hp & Hcl & Htx' & He').
  exists w'. split; [done|]. rewrite Hd, Hn', Hcl, Hcl0, He'. split_and!; try done.
  eapply rolled_back_intro; [exact Hc| |].
  - rewrite Hs, Hs0, delete_insert_eq. by apply delete_id, (cr_fresh _ _ _ _ _ _ _ _ _ Hc).
  - rewrite Hp, Hp0. unfold pool_with_released. by rewrite (proj2 (Z.eqb_neq id 0)) by lia.
Qed.

(** Socket, connection or node missing: everything is undone. *)
Lemma create_active_undone g w para env p junk id q d :
  create_ready g w para env p junk id q d -> dev_num (w_eng w) <> 0 ->
  ce_socket env = None \/ ce_connect env = false \/ free_node_queue d = [] ->
  ce_socket env <> Some ERROR_SOCKET_FD ->
  exists w', high_speed_create_sess_active w para env = Done (PROCESS_ERROR, None, w') /\
  rolled_back w id q w' /\ w_devs w' = w_devs w /\ w_node w' = w_node w /\ tx_ok g w' /\ w_eng w' = w_eng w /\
  w_closed w' = match ce_socket env with Some fd => fd :: w_closed w | None => w_closed w end.
Proof.
  intros Hc Hn Hfail Hfd. rewrite (create_active_unfold _ _ _ _ _ _ _ _ _ Hc Hn).
  destruct (create_ready_id _ _ _ _ _ _ _ _ _ Hc) as (Hid & _).
  pose proof (reserved_tx_ok g w p junk q (cr_tx _ _ _ _ _ _ _ _ _ Hc)) as Htx.
  unfold create_sess_socket. pose proof Hc as Hc'. destruct Hc'.
  rewrite (get_ns_ok _ _ d) by done. cbn [mbind outcome_bind].
  rewrite (proj2 (Z.eqb_neq _ _) cr_ns0).
  pose proof (create_error_rolls_back g w para env p junk id q d) as Herr.
  destruct (ce_socket env) as [fd|] eqn:Es.
  2:{ apply (Herr (reserved w p junk q) ERROR_SOCKET_FD); try done. by exists junk. }
  assert (fd <> ERROR_SOCKET_FD) as Hfd' by congruence. apply Z.eqb_neq in Hfd'.
  destruct (ce_connect env) eqn:Ec; cbn [negb].
  2:{ destruct (Herr (reserved w p junk q) fd (fail_resp_status SESS_OP_CODE_NETWORK_UNREACHABLE (ce_junk_code env)))
        as (w' & ? & ? & ? & ? & ? & ? & Hcl); try done; [by exists junk|]. rewrite Hfd' in Hcl. eauto 12. }
  assert (free_node_queue d = []) as Hfree by (destruct Hfail as [|[|]]; done).
  unfold create_active_connected, HIGH_SPEED_NET_DEV_POP_FREE_SESSION_NODE.
  rewrite (get_dev_lookup _ _ d) by (done || lia). cbn [mbind outcome_bind]. rewrite Hfree.
  set (s0 := common_session _ _ _ _ _ _ _ _).
  destruct (Herr (put_sess (reserved w p junk q) p s0) fd (fail_resp SESS_OP_CODE_RESOURCE_INSUFFICIENT))
    as (w' & ? & ? & ? & ? & ? & ? & Hcl); try done; [destruct Htx; by split|exists s0; apply insert_insert_eq|].
  rewrite Hfd' in Hcl. eauto 12.
Qed.

(** C14. A failed active creation leaves no trace in the pool: when the socket
    cannot be created or connected, or the device has no free session node,
    [high_speed_create_sess_active] returns ERROR, frees the session object,
    closes the socket it opened, keeps table, counter and devices, gives the id
    back (at the end of the free list), and preserves the pool invariant. *)
Theorem create_active_failure_rolls_back g w para env p junk id q d :
  create_ready g w para env p junk id q d -> dev_num (w_eng w) <> 0 ->
  ce_socket env = None \/ ce_connect env = false \/ free_node_queue d = [] ->
  ce_socket env <> Some ERROR_SOCKET_FD ->
  exists w', high_speed_create_sess_active w para env = Done (PROCESS_ERROR, None, w') /\
  rolled_back w id q w' /\ w_devs w' = w_devs w /\ w_node w' = w_node w /\ tx_ok g w' /\
  w_closed w' = match ce_socket env with Some fd => fd :: w_closed w | None => w_closed w end.
Proof.
  intros Hc Hn Hfail Hfd. destruct (create_active_undone g w para env p junk id q d Hc Hn Hfail Hfd) as (w' & ? & ? & ? & ? & ? & _ & ?).
  by exists w'.
Qed.

(** ** Successful creation *)

Lemma tailq_insert_ok x l : x ∉ l -> tailq_insert x l = Done (l ++ [x]).
Proof.
  intros Hx. unfold tailq_insert. destruct (existsb _ l) eqn:E; [|done].
  apply existsb_exists in E as (y & Hy%list_elem_of_In & ->%Z.eqb_eq). done.
Qed.

Lemma land1_zero x : Z.land x 1 = 0 <-> bit0 x = false.
Proof. rewrite land1_bit0. destruct (bit0 x); cbn; split; done. Qed.

Lemma land_link_clear x : Z.land (Z.land x (Z.lnot BACKEND_SESS_LINKED_TO_DEV_NODE)) BACKEND_SESS_LINKED_TO_DEV_NODE = 0.
Proof. apply land1_zero, bit0_clear. Qed.

(** The device after handing out node [n] for protocol [proto]. *)
Definition device_linked (d : HighSpeedNetDevice) (proto n : Z) (fq : list Z) : HighSpeedNetDevice :=
  let d := set_free_nodes d fq in set_proto_queue proto d (proto_queue proto d ++ [n]).

(** The published session. *)
Definition active_session (junk : BackendSession) (para : SessMsgPara) (id fd p n : Z) : BackendSession :=
  let s := common_session junk para id fd p EPOLL_REG_STATUS_UNREGISTERED (para_trans_proto para)
             SESS_ESTABLISH_ACTIVE in
  let s := set_sess_node (set_link_state s (Z.land (sess_dev_link_state s) (Z.lnot BACKEND_SESS_LINKED_TO_DEV_NODE)))
             (Some n) in
  set_link_state s (Z.lor (sess_dev_link_state s) BACKEND_SESS_LINKED_TO_DEV_NODE).

Lemma put_dev_lookup w i d :
  0 <= i -> (Z.to_nat i < length (w_devs w))%nat -> get_dev (put_dev w i d) i = Done d.
Proof.
  intros Hi Hl. apply get_dev_lookup; [done|]. cbn. by apply list_lookup_insert_eq.
Qed.

(** Linking: from the reserved world to the one with the node in place. *)
Lemma create_active_connected_link g w para env p junk id q d fd n fq :
  create_ready g w para env p junk id q d ->
  free_node_queue d = n :: fq -> node_proto (para_trans_proto para) = true ->
  n ∉ proto_queue (para_trans_proto para) d ->
  exists w4, create_active_connected (reserved w p junk q) para env p id (para_dev_id para) junk fd =
             create_active_publish w4 para env p id fd (para_dev_id para) n /\
  w_sess w4 = <[p := active_session junk para id fd p n]> (w_sess w) /\
  w_node w4 = <[n := Some p]> (w_node w) /\
  w_devs w4 = <[Z.to_nat (para_dev_id para) := device_linked d (para_trans_proto para) n fq]> (w_devs w) /\
  w_pool w4 = set_id_queue (w_pool w) q /\ w_tx w4 = w_tx w /\ w_eng w4 = w_eng w /\ w_closed w4 = w_closed w.
Proof.
  intros Hc Hfree Hproto Hn. destruct Hc.
  assert (Z.to_nat (para_dev_id para) < length (w_devs w))%nat as Hlen
    by (by apply lookup_lt_Some in cr_hsdev0).
  unfold create_active_connected, HIGH_SPEED_NET_DEV_POP_FREE_SESSION_NODE.
  rewrite (get_dev_lookup _ _ d) by (done || lia). cbn [mbind outcome_bind]. rewrite Hfree.
  cbn [mbind outcome_bind]. unfold HIGH_SPEED_NET_DEV_INSERT_SESSION_NODE, get_node.
  cbn [w_node put_sess with_sess set_node_sess with_node]. rewrite lookup_insert_eq.
  cbn [mbind outcome_bind proto_type set_sess_node set_link_state common_session]. rewrite Hproto.
  unfold get_sess. cbn [w_sess put_sess with_sess]. rewrite lookup_insert_eq.
  cbn [mbind outcome_bind sess_dev_link_state set_sess_node set_link_state common_session].
  rewrite land_link_clear. cbn [Z.eqb].
  rewrite (get_dev_lookup _ _ (set_free_nodes d fq)).
  2: lia. 2:{ cbn. by apply list_lookup_insert_eq. }
  cbn [mbind outcome_bind]. rewrite tailq_insert_ok by done. cbn [mbind outcome_bind].
  rewrite bool_decide_true by done. cbn [negb]. eexists. split; [reflexivity|].
  cbn. rewrite !insert_insert_eq, list_insert_insert_eq. split_and!; done.
Qed.

(** Publishing: epoll, table, response. *)
(** Up to the publication of the session nothing fails. *)
Lemma create_active_links g w para env p junk id q d fd n fq :
  create_ready g w para env p junk id q d -> dev_num (w_eng w) <> 0 ->
  ce_socket env = Some fd -> ce_connect env = true ->
  free_node_queue d = n :: fq -> node_proto (para_trans_proto para) = true ->
  n ∉ proto_queue (para_trans_proto para) d ->
  exists w4, high_speed_create_sess_active w para env =
             create_active_publish w4 para env p id fd (para_dev_id para) n /\
  w_sess w4 = <[p := active_session junk para id fd p n]> (w_sess w) /\
  w_node w4 = <[n := Some p]> (w_node w) /\
  w_devs w4 = <[Z.to_nat (para_dev_id para) := device_linked d (para_trans_proto para) n fq]> (w_devs w) /\
  w_pool w4 = set_id_queue (w_pool w) q /\ w_tx w4 = w_tx w /\ w_eng w4 = w_eng w /\ tx_ok g w4.
Proof.
  intros Hc Hn Hs Hco Hfree Hproto Hnq.
  destruct (create_active_connected_link g w para env p junk id q d fd n fq Hc Hfree Hproto Hnq)
    as (w4 & Hw4 & E1 & E2 & E3 & E4 & E5 & E6 & _).
  exists w4. split; [|split_and!; try done; destruct Hc as [? [] ]; split; rewrite ?E5, ?E6; done].
  rewrite (create_active_unfold _ _ _ _ _ _ _ _ _ Hc Hn). unfold create_sess_socket.
  rewrite (get_ns_ok _ _ d) by (try apply Hc; exact (cr_hsdev _ _ _ _ _ _ _ _ _ Hc)).
  cbn [mbind outcome_bind]. rewrite (proj2 (Z.eqb_neq _ _) (cr_ns _ _ _ _ _ _ _ _ _ Hc)), Hs, Hco.
  done.
Qed.

Lemma create_active_publish_ok g w para env p s id fd dev n :
  pool_inv w -> tx_ok g w -> tx_room g w -> ce_epoll_add env = true ->
  w_sess w !! p = Some s -> unhashed w p -> sess_eng s = true -> backend_sess_id s = id ->
  ch_status (net_channel s) = EPOLL_REG_STATUS_UNREGISTERED ->
  0 <= frontend_sess_id s < 65536 -> 1 <= id <= 1024 -> htable (w_pool w) !! id = None ->
  id ∉ id_queue (w_pool w) -> bit0 (state_f2b s) = false -> bit0 (state_b2f s) = false ->
  exists w' s' blk, create_active_publish w para env p id fd dev n = Done (PROCESS_OK, Some p, w') /\
  pool_inv w' /\ w_sess w' = <[p := s']> (w_sess w) /\
  s' = snd (BACKEND_SESS_REGISTER_EPOLL true s EPOLLIN) /\
  w_pool w' = set_htable (w_pool w) (<[id := p]> (htable (w_pool w))) (sess_num (w_pool w) + 1) /\
  w_node w' = w_node w /\ w_devs w' = w_devs w /\ w_closed w' = w_closed w /\ w_eng w' = w_eng w /\ tx_ok g w' /\
  sent_messages g w' = sent_messages g w ++ [blk] /\
  holds_message (response_header (frontend_sess_id s) id (ip_version s) SESS_MSG_CREATE)
    (SessOpRespData_bytes success_resp) 2 blk.
Proof.
  intros Hi Htx Hroom Hep Hs Hu He Hid Hst Hf Hr Hn Hq Hb1 Hb2.
  unfold create_active_publish, get_sess. rewrite Hs. cbn [mbind outcome_bind].
  rewrite Hep. set (s' := snd (BACKEND_SESS_REGISTER_EPOLL true s EPOLLIN)).
  assert (BACKEND_SESS_REGISTER_EPOLL true s EPOLLIN = (PROCESS_OK, s')) as ->.
  { unfold s', BACKEND_SESS_REGISTER_EPOLL. by rewrite Hst. }
  assert (same_key s s' /\ frontend_sess_id s' = frontend_sess_id s /\ ip_version s' = ip_version s) as (Hk & Hf' & Hv').
  { unfold s', BACKEND_SESS_REGISTER_EPOLL. rewrite Hst. done. }
  destruct Hk as (Hk1 & Hk2 & Hk3 & Hk4).
  rewrite bool_decide_true by done. cbn [negb].
  destruct (insert_sess_inv (put_sess w p s') p s') as [-> Hi2].
  { by apply pool_inv_put_unhashed. } { cbn. by rewrite lookup_insert_eq. } { done. }
  { congruence. } { rewrite Hk1, Hid. done. } { rewrite Hk1, Hid. done. } { rewrite Hk1, Hid. done. }
  { congruence. } { congruence. }
  cbn [mbind outcome_bind fst snd]. rewrite bool_decide_true by done. cbn [negb].
  set (w2 := with_pool _ _) in *.
  destruct (send_response_spec g w2 s' SESS_MSG_CREATE success_resp) as (st & w' & -> & Hresp).
  { destruct Htx. by split. } { congruence. } { by rewrite Hf'. } { rewrite Hk1, Hid. lia. } { done. }
  pose proof (responded_frame _ _ _ _ _ _ _ _ _ Hresp) as (Hw1 & Hw2 & Hw3 & Hw4 & Hw5 & Hw6 & Hw7).
  destruct Hresp as (tx & Ew & _ & Hif). rewrite decide_True in Hif by exact Hroom.
  destruct Hif as (-> & blk & Hsent & Hblk). cbn [mbind outcome_bind fst snd].
  rewrite bool_decide_true by done. cbn [negb].
  exists w', s', blk. split; [done|]. split; [by apply (pool_inv_frame w2)|].
  rewrite Hw1, Hw4, Hw2, Hw3, Hw6. unfold w2. cbn. rewrite Hk1, Hid. split_and!; try done.
  by rewrite Hf', Hk1, Hid, Hv' in Hblk.
Qed.

(** What a successful active creation leaves. *)
Lemma create_active_ok g w para env p junk id q d fd n fq :
  create_ready g w para env p junk id q d -> dev_num (w_eng w) <> 0 ->
  ce_socket env = Some fd -> ce_connect env = true -> ce_epoll_add env = true ->
  free_node_queue d = n :: fq -> node_proto (para_trans_proto para) = true ->
  n ∉ proto_queue (para_trans_proto para) d -> tx_room g w ->
  bit0 (state_f2b junk) = false -> bit0 (state_b2f junk) = false ->
  exists w' s blk, high_speed_create_sess_active w para env = Done (PROCESS_OK, Some p, w') /\
  pool_inv w' /\ (ids_accounted w -> ids_accounted w') /\
  high_speed_search_sess w' id = Some p /\ id_queue (w_pool w') = q /\
  w_sess w' = <[p := s]> (w_sess w) /\
  backend_sess_id s = id /\ frontend_sess_id s = para_frontend_sess_id para /\ sock_fd s = fd /\
  sess_node s = Some n /\ bit0 (sess_dev_link_state s) = true /\
  w_node w' = <[n := Some p]> (w_node w) /\
  w_devs w' = <[Z.to_nat (para_dev_id para) := device_linked d (para_trans_proto para) n fq]> (w_devs w) /\
  htable (w_pool w') = <[id := p]> (htable (w_pool w)) /\ w_eng w' = w_eng w /\ tx_ok g w' /\
  dev_id s = dev_id junk /\ proto_type s = para_trans_proto para /\
  sent_messages g w' = sent_messages g w ++ [blk] /\
  holds_message (response_header (para_frontend_sess_id para) id (para_ip_version para) SESS_MSG_CREATE)
    (SessOpRespData_bytes success_resp) 2 blk /\
  msg_f2b s = [] /\ msg_b2f s = [] /\ establish_mode s = SESS_ESTABLISH_ACTIVE.
Proof.
  intros Hc Hn Hs Hco Hep Hfree Hproto Hnq Hroom Hb1 Hb2.
  destruct (create_ready_id _ _ _ _ _ _ _ _ _ Hc) as (Hid & Hnone & Hidq & Hnd).
  destruct (create_active_links g w para env p junk id q d fd n fq) as (w4 & -> & E1 & E2 & E3 & E4 & E5 & E6 & Htx4);
    try done. set (s4 := active_session junk para id fd p n) in *.
  assert (pool_inv w4) as Hi4.
  { apply (pool_inv_ext (with_pool w (set_id_queue (w_pool w) q))); [done| |].
    - intros x y Hxy. rewrite E1. cbn. apply lookup_insert_ne. intros <-.
      destruct Hc. by apply (fresh_unhashed w p cr_inv0 cr_fresh0 x).
    - destruct Hc. apply pool_inv_ids; [done|done|]. intros x Hx.
      assert (x ∈ id_queue (w_pool w)) as Hx' by (rewrite cr_ids0; by right).
      split; [by apply (pi_range _ cr_inv0)|by apply (pi_free _ cr_inv0)]. }
  destruct (create_active_publish_ok g w4 para env p s4 id fd (para_dev_id para) n)
    as (w' & s' & blk & -> & Hi' & F1 & F2 & F3 & F4 & F5 & F6 & Fe & F7 & F8 & F9); try done.
  { unfold tx_room, sent_messages in *. by rewrite E5. }
  { rewrite E1. apply lookup_insert_eq. }
  { intros x. rewrite E4. destruct Hc. by apply (fresh_unhashed w p). }
  { apply (cr_fsid _ _ _ _ _ _ _ _ _ Hc). } { by rewrite E4. } { by rewrite E4. }
  { unfold s4. cbn. by rewrite bit0_land1. } { unfold s4. cbn. by rewrite bit0_land1. }
  exists w', s', blk. split; [done|]. split; [done|].
  rewrite F4, F5, F8, F3, F1, Fe, E1, E2, E3, E4, E6. unfold ids_accounted, high_speed_search_sess, sent_messages.
  rewrite F3, E4, E5, (cr_ids _ _ _ _ _ _ _ _ _ Hc). cbn -[size].
  rewrite map_size_insert_None, lookup_insert_eq, insert_insert_eq, F2 by done.
  split_and!; try done; [cbn; lia|]. unfold s4, active_session. cbn. apply bit0_lor1.
Qed.

(** C10. A successful active creation: when the named device is active with a
    free node, socket, connection and epoll registration succeed, the TX ring
    has room and malloc's bytes leave both queue flags clear,
    [high_speed_create_sess_active] returns OK and the new session; the
    session is in the table under a fresh id of 1..1024, carries the request's
    ids and the socket, holds the device's first free node, which has moved to
    the device's list for the protocol; the pool invariant is preserved and no
    id is lost; and exactly one message, the success response naming both
    session ids, is sent. *)
Theorem create_active_success g w para env p junk id q d fd n fq :
  create_ready g w para env p junk id q d -> dev_num (w_eng w) <> 0 ->
  ce_socket env = Some fd -> ce_connect env = true -> ce_epoll_add env = true ->
  free_node_queue d = n :: fq -> node_proto (para_trans_proto para) = true ->
  n ∉ proto_queue (para_trans_proto para) d -> tx_room g w ->
  bit0 (state_f2b junk) = false -> bit0 (state_b2f junk) = false ->
  exists w' s blk, high_speed_create_sess_active w para env = Done (PROCESS_OK, Some p, w') /\
  pool_inv w' /\ (ids_accounted w -> ids_accounted w') /\
  high_speed_search_sess w' id = Some p /\ id_queue (w_pool w') = q /\
  w_sess w' = <[p := s]> (w_sess w) /\
  backend_sess_id s = id /\ frontend_sess_id s = para_frontend_sess_id para /\ sock_fd s = fd /\
  sess_node s = Some n /\ bit0 (sess_dev_link_state s) = true /\
  w_node w' = <[n := Some p]> (w_node w) /\
  w_devs w' = <[Z.to_nat (para_dev_id para) := device_linked d (para_trans_proto para) n fq]> (w_devs w) /\
  sent_messages g w' = sent_messages g w ++ [blk] /\
  holds_message (response_header (para_frontend_sess_id para) id (para_ip_version para) SESS_MSG_CREATE)
    (SessOpRespData_bytes success_resp) 2 blk.
Proof.
  intros Hc Hn Hs Hco Hep Hfree Hproto Hnq Hroom Hb1 Hb2.
  destruct (create_active_ok g w para env p junk id q d fd n fq)
    as (w' & s & blk & H1 & H2 & H3 & H4 & H5 & H6 & H7 & H8 & H9 & H10 & H11 & H12 & H13 & _ & _ & _ & _ & _ & H14 & H15 & _); try done.
  exists w', s, blk. by split_and!.
Qed.

(** ** Deletion *)

Lemma remove_first_elem x y l : NoDup l -> y ∈ remove_first x l <-> y ∈ l /\ y <> x.
Proof.
  induction l as [|a l IH]; cbn [remove_first]; intros Hn.
  - split; [by intros ?%not_elem_of_nil|by intros [?%not_elem_of_nil _]].
  - apply NoDup_cons in Hn as [Ha Hn]. destruct (Z.eqb_spec a x) as [->|Hax].
    + rewrite elem_of_cons. split; [intros Hy; split; [by right|by intros ->]|by intros [[->|?] ?]].
    + rewrite !elem_of_cons, IH by done. split; [intros [->|[? ?]]; auto|intros [[->|?] ?]; auto].
Qed.

Lemma remove_first_nodup x l : NoDup l -> NoDup (remove_first x l).
Proof.
  induction l as [|a l IH]; cbn [remove_first]; intros Hn; [done|].
  apply NoDup_cons in Hn as [Ha Hn]. case_match; [done|]. apply NoDup_cons. split; [|auto].
  rewrite remove_first_elem by done. tauto.
Qed.

Lemma tailq_remove_ok x l : x ∈ l -> tailq_remove x l = Done (remove_first x l).
Proof.
  intros Hx. unfold tailq_remove. destruct (existsb _ l) eqn:E; [done|].
  assert (existsb (fun y => y =? x) l = true) as E'; [|congruence].
  apply existsb_exists. exists x. split; [by apply list_elem_of_In|apply Z.eqb_refl].
Qed.

(** Unlinking from one work queue. *)
Lemma unlink_spec w p s dir :
  w_sess w !! p = Some s -> sess_eng s = true -> NoDup (pool_queue dir (w_pool w)) ->
  (p ∈ pool_queue dir (w_pool w) <-> bit0 (sess_state dir s) = true) ->
  exists q s', BACKEND_SESS_UNLINK_FROM_QUEUE w p dir =
    Done (with_pool (put_sess w p s') (set_pool_queue dir (w_pool w) q)) /\
  NoDup q /\ (forall x, x ∈ q <-> x ∈ pool_queue dir (w_pool w) /\ x <> p) /\
  (exists v, s' = set_state dir s v).
Proof.
  intros Hs He Hn Hb. unfold BACKEND_SESS_UNLINK_FROM_QUEUE, get_sess. rewrite Hs.
  cbn [mbind outcome_bind]. rewrite He. cbn [negb]. unfold BACKEND_SESS_LINKED_TO_QUEUE.
  rewrite land1_bit0. destruct (bit0 (sess_state dir s)) eqn:Eb; cbn [Z.b2z Z.eqb].
  - rewrite tailq_remove_ok by (by apply Hb). cbn [mbind outcome_bind].
    do 2 eexists. split; [reflexivity|]. split; [by apply remove_first_nodup|].
    split; [intros x; by apply remove_first_elem|eauto].
  - exists (pool_queue dir (w_pool w)), s. split.
    + f_equal. unfold put_sess. rewrite insert_id by done. destruct w as [? ? ? [] ? ? ? ?]. by destruct dir.
    + split; [done|]. split.
      * intros x. split; [|tauto]. intros Hx. split; [done|]. intros ->. by apply Hb in Hx.
      * exists (sess_state dir s). by destruct s, dir.
Qed.

(** The node [n] of the session is on the list of the device [d] its [dev_id]
    names. *)
Definition node_on_device (w : world) (p : Z) (s : BackendSession) (n : Z) (d : HighSpeedNetDevice) : Prop :=
  sess_node s = Some n /\ w_node w !! n = Some (Some p) /\ 0 <= dev_id s < MAX_HS_DEV_NUM /\
  w_devs w !! Z.to_nat (dev_id s) = Some d /\ node_proto (proto_type s) = true /\
  (n ∈ proto_queue (proto_type s) d) /\ (n ∉ free_node_queue d) /\ bit0 (sess_dev_link_state s) = true.

(** Deletion does not look for a node: not linked, or [dev_id] out of range. *)
Definition node_not_looked_for (s : BackendSession) : Prop :=
  dev_id s < 0 \/ MAX_HS_DEV_NUM <= dev_id s \/ bit0 (sess_dev_link_state s) = false.

Definition node_in_place (w : world) (p : Z) (s : BackendSession) : Prop :=
  node_not_looked_for s \/ exists n d, node_on_device w p s n d.

(** What becomes of the node: from its list to the end of the device's free
    list, holding no session; or nothing, and a linked node then still points
    at the session. *)
Definition node_after (w w' : world) (p : Z) (s : BackendSession) : Prop :=
  (forall n d, node_on_device w p s n d -> exists d', w_devs w' = <[Z.to_nat (dev_id s) := d']> (w_devs w) /\
     free_node_queue d' = free_node_queue d ++ [n] /\
     proto_queue (proto_type s) d' = remove_first n (proto_queue (proto_type s) d) /\
     w_node w' = <[n := None]> (w_node w)) /\
  (node_not_looked_for s -> w_devs w' = w_devs w /\ w_node w' = w_node w).

Lemma delete_unlink_node_spec w p s :
  w_sess w !! p = Some s -> node_in_place w p s ->
  exists w', delete_unlink_node w p = Done w' /\
  delete p (w_sess w') = delete p (w_sess w) /\ w_pool w' = w_pool w /\ w_tx w' = w_tx w /\
  w_eng w' = w_eng w /\ w_closed w' = w_closed w /\ node_after w w' p s.
Proof.
  intros Hs Hn. unfold delete_unlink_node, get_sess. rewrite Hs. cbn [mbind outcome_bind].
  destruct Hn as [Hn|(n & d & Hsn & Hnode & Hdev & Hd & Hpr & Hin & Hout & Hbit)].
  { exists w. split.
    - destruct (Z.ltb_spec (dev_id s) 0); [done|]. destruct (Z.leb_spec MAX_HS_DEV_NUM (dev_id s)); [done|].
      cbn [orb]. destruct Hn as [|[|Hb]]; [lia..|]. unfold BACKEND_SESS_LINKED_TO_DEV_NODE.
      rewrite land1_bit0, Hb. done.
    - do 5 (split; [done|]). split; [|done]. intros n d (_ & _ & Hr & _ & _ & _ & _ & Hb). destruct Hn as [|[|]]; [lia|lia|congruence]. }
  rewrite (proj2 (Z.ltb_ge _ _)), (proj2 (Z.leb_gt _ _)) by lia. cbn [orb].
  unfold BACKEND_SESS_LINKED_TO_DEV_NODE. rewrite land1_bit0, Hbit. cbn [Z.b2z Z.eqb]. rewrite Hsn.
  unfold get_node. rewrite Hnode. cbn [mbind outcome_bind]. rewrite Hs. cbn [mbind outcome_bind].
  unfold HIGH_SPEED_NET_DEV_REMOVE_SESSION_NODE, get_node, get_sess. rewrite Hnode. cbn [mbind outcome_bind].
  rewrite Hpr, Hs. cbn [mbind outcome_bind]. unfold BACKEND_SESS_LINKED_TO_DEV_NODE. rewrite land1_bit0, Hbit.
  cbn [Z.b2z Z.eqb]. rewrite (get_dev_lookup _ _ d) by (done || lia). cbn [mbind outcome_bind].
  rewrite tailq_remove_ok by done. cbn [mbind outcome_bind].
  unfold HIGH_SPEED_NET_DEV_PUSH_FREE_SESSION_NODE.
  set (d1 := set_proto_queue _ _ _).
  rewrite (get_dev_lookup _ _ d1); [|lia|cbn; apply list_lookup_insert_eq; by eapply lookup_lt_Some].
  cbn [mbind outcome_bind]. rewrite tailq_insert_ok by done. cbn [mbind outcome_bind].
  eexists. split; [reflexivity|]. unfold node_after. cbn. rewrite delete_insert_eq. do 5 (split; [done|]).
  split; [|intros [|[|]]; [lia|lia|congruence] ].
  intros n' d' (Hsn' & _ & _ & Hd' & _). assert (n' = n) as -> by congruence. assert (d' = d) as -> by congruence.
  eexists. split; [rewrite list_insert_insert_eq; reflexivity|]. split; [done|].
  split; [|done]. unfold d1, proto_queue, set_proto_queue. cbn. by case_match.
Qed.

(** The parts of a session that locate its node. *)
Definition same_place (s s' : BackendSession) : Prop :=
  dev_id s' = dev_id s /\ sess_dev_link_state s' = sess_dev_link_state s /\
  sess_node s' = sess_node s /\ proto_type s' = proto_type s.

Lemma node_in_place_ext w w' p s s' :
  w_node w' = w_node w -> w_devs w' = w_devs w -> same_place s s' ->
  node_in_place w p s -> node_in_place w' p s'.
Proof. unfold node_in_place, node_on_device, node_not_looked_for. intros Hn Hd (-> & -> & -> & ->). by rewrite Hn, Hd. Qed.

Lemma node_after_ext w1 w2 w w' p s1 s :
  w_node w1 = w_node w -> w_devs w1 = w_devs w -> w_node w2 = w_node w' -> w_devs w2 = w_devs w' -> same_place s s1 ->
  node_after w1 w2 p s1 -> node_after w w' p s.
Proof.
  unfold node_after, node_on_device, node_not_looked_for. intros Hn Hd Hn' Hd' (-> & -> & -> & ->). by rewrite Hn, Hd, Hn', Hd'.
Qed.

Lemma queue_bit w id p s dir :
  pool_inv w -> htable (w_pool w) !! id = Some p -> w_sess w !! p = Some s ->
  p ∈ pool_queue dir (w_pool w) <-> bit0 (sess_state dir s) = true.
Proof.
  intros Hi Hid Hs. rewrite (pi_queue _ Hi). split.
  - intros (? & t & _ & Ht & Hb). by assert (t = s) as -> by congruence.
  - eauto.
Qed.

(** The table part of a deletion: unhash, unlink from both queues, empty the
    message lists, release the id. *)
Lemma delete_detach w p s id ep :
  pool_inv w -> htable (w_pool w) !! id = Some p -> w_sess w !! p = Some s ->
  exists w4 s4 qf qb,
  delete_detach_sess w p s ep = Done w4 /\
  w_sess w4 = <[p := s4]> (w_sess w) /\ same_place s s4 /\
  w_node w4 = w_node w /\ w_devs w4 = w_devs w /\ w_tx w4 = w_tx w /\ w_eng w4 = w_eng w /\
  w_closed w4 = sock_fd s :: w_closed w /\
  w_pool w4 = {| sess_num := sess_num (w_pool w) - 1; pool_capacity := pool_capacity (w_pool w);
                 queue_f2b := qf; queue_b2f := qb; id_queue := id_queue (w_pool w) ++ [id];
                 htable := delete id (htable (w_pool w)) |} /\
  NoDup qf /\ NoDup qb /\
  (forall x, x ∈ qf <-> x ∈ queue_f2b (w_pool w) /\ x <> p) /\
  (forall x, x ∈ qb <-> x ∈ queue_b2f (w_pool w) /\ x <> p).
Proof.
  intros Hi Hid Hs. destruct (pi_table _ Hi _ _ Hid) as (_ & t & Ht & Hbid & He).
  assert (t = s) as -> by congruence.
  pose proof (queue_bit w id p s F2B Hi Hid Hs) as HbF. pose proof (queue_bit w id p s B2F Hi Hid Hs) as HbB.
  set (s1 := snd (BACKEND_SESS_UNREGISTER_EPOLL ep s)).
  set (w2 := with_pool (close_fd (put_sess w p s1) (sock_fd s))
               (set_htable (w_pool w) (delete id (htable (w_pool w))) (sess_num (w_pool w) - 1))).
  destruct (unlink_spec w2 p s1 F2B) as (qf & s2 & Eu1 & Hnf & Hqf & [v1 Hs2]).
  { cbn. by rewrite lookup_insert_eq. } { done. } { apply (pi_qnodup _ Hi F2B). } { exact HbF. }
  set (w3 := with_pool (put_sess w2 p s2) (set_pool_queue F2B (w_pool w2) qf)).
  destruct (unlink_spec w3 p s2 B2F) as (qb & s3 & Eu2 & Hnb & Hqb & [v2 Hs3]).
  { cbn. by rewrite lookup_insert_eq. } { by rewrite Hs2. } { apply (pi_qnodup _ Hi B2F). } { rewrite Hs2. exact HbB. }
  eexists _, _, qf, qb. split.
  { unfold delete_detach_sess, hash_del. cbn [w_pool close_fd put_sess with_sess]. rewrite Hbid, Hid, Z.eqb_refl.
    cbn [require mbind outcome_bind]. cbn zeta. fold s1.
    match goal with |- context [BACKEND_SESS_UNLINK_FROM_QUEUE ?x p F2B] =>
      change x with w2 end.
    rewrite Eu1. fold w3. cbn [mbind outcome_bind]. rewrite Eu2. cbn [mbind outcome_bind].
    unfold get_sess. cbn [w_sess with_pool put_sess with_sess]. rewrite lookup_insert_eq.
    cbn [mbind outcome_bind]. reflexivity. }
  cbn. rewrite !insert_insert_eq. split; [reflexivity|]. rewrite Hs3, Hs2. split_and!; try done.
Qed.

Lemma size_delete (m : gmap Z Z) i x : m !! i = Some x -> S (size (delete i m)) = size m.
Proof.
  intros Hm. rewrite <- (insert_delete_id m i x Hm) at 2.
  by rewrite map_size_insert_None by apply lookup_delete_eq.
Qed.

Lemma detached_inv w w' p id qf qb :
  pool_inv w -> htable (w_pool w) !! id = Some p -> w_sess w' = delete p (w_sess w) ->
  w_pool w' = {| sess_num := sess_num (w_pool w) - 1; pool_capacity := pool_capacity (w_pool w);
                 queue_f2b := qf; queue_b2f := qb; id_queue := id_queue (w_pool w) ++ [id];
                 htable := delete id (htable (w_pool w)) |} ->
  NoDup qf -> NoDup qb ->
  (forall x, x ∈ qf <-> x ∈ queue_f2b (w_pool w) /\ x <> p) ->
  (forall x, x ∈ qb <-> x ∈ queue_b2f (w_pool w) /\ x <> p) ->
  pool_inv w'.
Proof.
  intros Hi Hid Hs Hp Hnf Hnb Hqf Hqb. destruct (pi_table _ Hi _ _ Hid) as (Hrid & s & Hsp & Hbs & _).
  assert (forall x y, delete id (htable (w_pool w)) !! x = Some y ->
            htable (w_pool w) !! x = Some y /\ x <> id /\ y <> p) as Hdel.
  { intros x y Hx. destruct (decide (id = x)) as [<-|Hne]; [by rewrite lookup_delete_eq in Hx|].
    rewrite lookup_delete_ne in Hx by done. split; [done|]. split; [done|]. intros ->.
    destruct (pi_table _ Hi _ _ Hx) as (_ & t & Ht & Hbt & _). congruence. }
  split; rewrite ?Hp; cbn [id_queue htable sess_num].
  - apply NoDup_app. split; [apply Hi|]. split; [|apply NoDup_singleton].
    intros x Hx ->%list_elem_of_singleton. pose proof (pi_free _ Hi _ Hx). congruence.
  - intros x [Hx| ->%list_elem_of_singleton]%elem_of_app; [by apply (pi_range _ Hi)|done].
  - intros x [Hx| ->%list_elem_of_singleton]%elem_of_app; [|apply lookup_delete_eq].
    apply lookup_delete_None. right. by apply (pi_free _ Hi).
  - intros x y Hx. destruct (Hdel _ _ Hx) as (Hx' & _ & Hy).
    destruct (pi_table _ Hi _ _ Hx') as (Hr & t & Ht & Hbt). split; [done|]. exists t.
    split; [|done]. rewrite Hs. by rewrite lookup_delete_ne by congruence.
  - rewrite (pi_num _ Hi), <- (size_delete _ _ _ Hid). lia.
  - by intros [|].
  - intros dir x. assert (x ∈ pool_queue dir {| sess_num := sess_num (w_pool w) - 1;
        pool_capacity := pool_capacity (w_pool w); queue_f2b := qf; queue_b2f := qb;
        id_queue := id_queue (w_pool w) ++ [id]; htable := delete id (htable (w_pool w)) |}
      <-> x ∈ pool_queue dir (w_pool w) /\ x <> p) as -> by (destruct dir; [apply Hqf|apply Hqb]).
    rewrite (pi_queue _ Hi), Hs. split.
    + intros [(y & t & Hy & Ht & Hb) Hne]. exists y, t. rewrite (lookup_delete_ne _ p) by congruence. split_and!; try done.
      rewrite lookup_delete_ne; [done|]. intros <-. congruence.
    + intros (y & t & Hy & Ht & Hb). destruct (Hdel _ _ Hy) as (Hy' & _ & Hne). split; [|done].
      exists y, t. rewrite lookup_delete_ne in Ht by congruence. done.
Qed.

(** Deleting a session found in the table: OK, the session gone, its id free
    again, its socket closed, the invariant preserved, a close response if the
    TX ring has room, and its node as [node_after] says. *)
Definition deleted (g : geometry) (w : world) (p : Z) (s : BackendSession) (id : Z) (w' : world) : Prop :=
  pool_inv w' /\ (ids_accounted w -> ids_accounted w') /\
  high_speed_search_sess w' id = None /\ w_sess w' = delete p (w_sess w) /\
  id_queue (w_pool w') = id_queue (w_pool w) ++ [id] /\
  (forall dir, p ∉ pool_queue dir (w_pool w')) /\ w_closed w' = sock_fd s :: w_closed w /\
  node_after w w' p s /\
  (length (sent_messages g w') = length (sent_messages g w) + (if decide (tx_room g w) then 1 else 0))%nat.

Lemma delete_sess_spec g w p s id ep :
  pool_inv w -> tx_ok g w -> high_speed_search_sess w id = Some p -> w_sess w !! p = Some s ->
  node_in_place w p s -> 0 <= frontend_sess_id s < 65536 ->
  exists w', high_speed_delete_sess w p ep = Done (PROCESS_OK, w') /\ deleted g w p s id w'.
Proof.
  unfold deleted.
  intros Hi Htx Hid Hs Hnode Hf. unfold high_speed_search_sess in Hid.
  destruct (pi_table _ Hi _ _ Hid) as (Hr & t & Ht & Hbid & He). assert (t = s) as -> by congruence.
  destruct (delete_detach w p s id ep Hi Hid Hs)
    as (w4 & s4 & qf & qb & Hk & E1 & Hpl & E2 & E3 & E4 & E5 & E6 & E7 & Hnf & Hnb & Hqf & Hqb).
  unfold high_speed_delete_sess. assert (get_sess w p = Done s) as -> by (unfold get_sess; by rewrite Hs).
  cbn [mbind outcome_bind]. rewrite Hk. cbn [mbind outcome_bind].
  destruct (delete_unlink_node_spec w4 p s4) as (w5 & -> & D1 & D2 & D3 & D4 & D5 & D6).
  { rewrite E1. apply lookup_insert_eq. } { by eapply node_in_place_ext. }
  cbn [mbind outcome_bind].
  destruct (send_standalone_spec g (free_sess w5 p) (frontend_sess_id s) (backend_sess_id s) (ip_version s)
              SESS_MSG_CLOSE success_resp) as (st & w' & -> & Hresp); [|done|done|].
  { destruct Htx. split; cbn; rewrite ?D3, ?D4, ?E4, ?E5; done. }
  pose proof (responded_frame _ _ _ _ _ _ _ _ _ Hresp) as (W1 & W2 & W3 & W4 & W5 & W6 & W7).
  cbn [mbind outcome_bind fst snd]. exists w'. split; [done|].
  assert (w_sess w' = delete p (w_sess w)) as Hheap.
  { rewrite W1. cbn. rewrite D1, E1. apply delete_insert_eq. }
  assert (w_pool w' = w_pool w4) as Hpool by (rewrite W4; exact D2).
  split; [by eapply detached_inv; [exact Hi|exact Hid|exact Hheap|rewrite Hpool; exact E7|..]|].
  unfold ids_accounted, high_speed_search_sess. rewrite Hpool, E7. cbn [id_queue htable].
  split.
  { rewrite length_app, <- (size_delete _ _ _ Hid). cbn [length]. lia. }
  split; [apply lookup_delete_eq|]. split; [done|]. split; [done|]. split.
  { intros [|]; cbn [pool_queue queue_f2b queue_b2f]; rewrite ?Hqf, ?Hqb; tauto. }
  split; [rewrite W6; cbn; by rewrite D5|]. split.
  { by eapply (node_after_ext w4 w5). }
  assert (sent_messages g (free_sess w5 p) = sent_messages g w) as Hsm.
  { unfold sent_messages. cbn. by rewrite D3, E4. }
  assert (tx_room g (free_sess w5 p) <-> tx_room g w) as Hroom by (unfold tx_room; by rewrite Hsm).
  destruct Hresp as (tx & _ & _ & Hif). destruct (decide (tx_room g w)) as [Hr'|Hr'].
  - rewrite decide_True in Hif by tauto. destruct Hif as (_ & blk & -> & _). by rewrite Hsm, length_app.
  - rewrite decide_False in Hif by tauto. destruct Hif as (_ & ->). rewrite Hsm. lia.
Qed.

(** ** A response that cannot be sent *)

Lemma proto_queue_linked d proto n fq :
  proto_queue proto (device_linked d proto n fq) = proto_queue proto d ++ [n].
Proof. unfold device_linked, proto_queue, set_proto_queue. cbn. by case_match. Qed.

(** Recycling a linked node only touches the device, the node and the session
    object. *)
Lemma recycle_sess_node_ok w dev n p s d :
  w_sess w !! p = Some s -> w_node w !! n = Some (Some p) -> 0 <= dev ->
  w_devs w !! Z.to_nat dev = Some d -> node_proto (proto_type s) = true ->
  bit0 (sess_dev_link_state s) = true -> n ∈ proto_queue (proto_type s) d -> n ∉ free_node_queue d ->
  exists w' s', recycle_sess_node w dev n p = Done w' /\ w_sess w' = <[p := s']> (w_sess w) /\
  w_pool w' = w_pool w /\ w_tx w' = w_tx w /\ w_eng w' = w_eng w /\ w_node w' = <[n := None]> (w_node w) /\
  w_devs w' = <[Z.to_nat dev := set_free_nodes (set_proto_queue (proto_type s) d (remove_first n (proto_queue (proto_type s) d)))
    (free_node_queue d ++ [n])]> (w_devs w).
Proof.
  intros Hs Hnode Hdev Hd Hpr Hbit Hin Hout. unfold recycle_sess_node, get_sess. rewrite Hs.
  cbn [mbind outcome_bind]. unfold HIGH_SPEED_NET_DEV_REMOVE_SESSION_NODE, get_node, get_sess.
  rewrite Hnode. cbn [mbind outcome_bind]. rewrite Hpr, Hs. cbn [mbind outcome_bind].
  unfold BACKEND_SESS_LINKED_TO_DEV_NODE. rewrite land1_bit0, Hbit. cbn [Z.b2z Z.eqb].
  rewrite (get_dev_lookup _ _ d) by done. cbn [mbind outcome_bind].
  rewrite tailq_remove_ok by done. cbn [mbind outcome_bind w_sess set_node_sess with_node put_sess with_sess].
  rewrite lookup_insert_eq. cbn [mbind outcome_bind].
  unfold HIGH_SPEED_NET_DEV_PUSH_FREE_SESSION_NODE. set (d1 := set_proto_queue _ _ _).
  rewrite (get_dev_lookup _ _ d1); [|done|cbn; apply list_lookup_insert_eq; by eapply lookup_lt_Some].
  cbn [mbind outcome_bind]. rewrite tailq_insert_ok by done. cbn [mbind outcome_bind].
  do 2 eexists. split; [reflexivity|]. cbn. by rewrite insert_insert_eq, list_insert_insert_eq.
Qed.

(** Publication when the response cannot be sent: the node is recycled, the
    session freed, the id released; the table keeps the entry. *)
Lemma create_active_publish_refused g w para env p s id fd dev n d :
  tx_ok g w -> ~ tx_room g w -> ce_epoll_add env = true -> w_sess w !! p = Some s ->
  sess_eng s = true -> backend_sess_id s = id -> ch_status (net_channel s) = EPOLL_REG_STATUS_UNREGISTERED ->
  0 <= frontend_sess_id s < 65536 -> 0 <= para_frontend_sess_id para < 65536 -> 1 <= id <= 1024 ->
  htable (w_pool w) !! id = None -> w_node w !! n = Some (Some p) -> 0 <= dev ->
  w_devs w !! Z.to_nat dev = Some d -> node_proto (proto_type s) = true -> bit0 (sess_dev_link_state s) = true ->
  n ∈ proto_queue (proto_type s) d -> n ∉ free_node_queue d ->
  exists w', create_active_publish w para env p id fd dev n = Done (PROCESS_ERROR, None, w') /\
  w_sess w' !! p = None /\
  w_pool w' = pool_with_released (set_htable (w_pool w) (<[id := p]> (htable (w_pool w))) (sess_num (w_pool w) + 1)) id.
Proof.
  intros Htx Hroom Hep Hs He Hid Hst Hf Hpf Hr Hn Hnode Hdev Hd Hpr Hbit Hin Hout.
  unfold create_active_publish, get_sess. rewrite Hs. cbn [mbind outcome_bind].
  rewrite Hep. set (s' := snd (BACKEND_SESS_REGISTER_EPOLL true s EPOLLIN)).
  assert (BACKEND_SESS_REGISTER_EPOLL true s EPOLLIN = (PROCESS_OK, s')) as ->
    by (unfold s', BACKEND_SESS_REGISTER_EPOLL; by rewrite Hst).
  assert (s' = set_channel s (net_channel s')) as Es'
    by (unfold s', BACKEND_SESS_REGISTER_EPOLL; by rewrite Hst).
  clearbody s'. set (c := net_channel s') in Es'. clearbody c. subst s'. set (s' := set_channel s c).
  rewrite bool_decide_true by done. cbn [negb]. unfold high_speed_insert_sess, get_sess.
  cbn [negb w_sess put_sess with_sess w_pool]. rewrite lookup_insert_eq. cbn [mbind outcome_bind].
  change (backend_sess_id s') with (backend_sess_id s). rewrite Hid, Hn.
  cbn [mbind outcome_bind fst snd negb]. set (w2 := with_pool _ _). rewrite bool_decide_true by done. cbn [negb].
  destruct (send_response_spec g w2 s' SESS_MSG_CREATE success_resp) as (st & w3 & -> & Hresp).
  { destruct Htx. by split. } { done. } { done. } { change (backend_sess_id s') with (backend_sess_id s). lia. } { done. }
  pose proof (responded_frame _ _ _ _ _ _ _ _ _ Hresp) as (F1 & F2 & F3 & F4 & F5 & F6 & F7).
  destruct Hresp as (tx & _ & _ & Hif). rewrite decide_False in Hif by exact Hroom.
  destruct Hif as (-> & _). cbn [mbind outcome_bind fst snd]. rewrite bool_decide_false by done. cbn [negb].
  destruct (recycle_sess_node_ok w3 dev n p s' d) as (w5 & s5 & -> & G1 & G2 & G3 & G4 & _);
    rewrite ?F1, ?F2, ?F3; try done.
  { cbn. by rewrite lookup_insert_eq. }
  cbn [mbind outcome_bind].
  destruct (create_sess_error_spec g w5 para p id fd
              (fail_resp_status SESS_OP_CODE_RESOURCE_INSUFFICIENT SESS_OP_CODE_SUCCESS))
    as (w' & -> & H1 & H2 & H3 & H4 & _); [destruct F7; split; rewrite ?G3, ?G4; done|done|].
  exists w'. rewrite H1, H4, G2, F4. split_and!; [done|apply lookup_delete_eq|]. unfold w2. done.
Qed.

(** C19. When the TX ring is full, an active creation that has reached the
    response step returns ERROR and frees the session, but leaves it in the
    table: the id finds the freed object, the id is also back on the free
    list, and the pool invariant no longer holds. *)
Theorem create_active_response_failure_dangles g w para env p junk id q d fd n fq :
  create_ready g w para env p junk id q d -> dev_num (w_eng w) <> 0 ->
  ce_socket env = Some fd -> ce_connect env = true -> ce_epoll_add env = true ->
  free_node_queue d = n :: fq -> n ∉ fq -> node_proto (para_trans_proto para) = true ->
  n ∉ proto_queue (para_trans_proto para) d -> ~ tx_room g w ->
  exists w', high_speed_create_sess_active w para env = Done (PROCESS_ERROR, None, w') /\
  high_speed_search_sess w' id = Some p /\ w_sess w' !! p = None /\
  id ∈ id_queue (w_pool w') /\ ~ pool_inv w'.
Proof.
  intros Hc Hn Hs Hco Hep Hfree Hfq Hproto Hnq Hroom.
  destruct (create_ready_id _ _ _ _ _ _ _ _ _ Hc) as (Hid & Hnone & _).
  destruct (create_active_links g w para env p junk id q d fd n fq) as (w4 & -> & E1 & E2 & E3 & E4 & E5 & E6 & Htx4);
    try done.
  destruct (create_active_publish_refused g w4 para env p (active_session junk para id fd p n) id fd
              (para_dev_id para) n (device_linked d (para_trans_proto para) n fq)) as (w' & -> & Hgone & Hpool);
    try done; try apply (cr_fsid _ _ _ _ _ _ _ _ _ Hc).
  { unfold tx_room, sent_messages in *. by rewrite E5. } { rewrite E1. apply lookup_insert_eq. }
  { by rewrite E4. } { rewrite E2. apply lookup_insert_eq. } { apply (cr_dev _ _ _ _ _ _ _ _ _ Hc). }
  { rewrite E3. apply list_lookup_insert_eq. eapply lookup_lt_Some, Hc. } { apply bit0_lor1. }
  { change (proto_type (active_session junk para id fd p n)) with (para_trans_proto para).
    rewrite proto_queue_linked, elem_of_app. right. by apply list_elem_of_singleton. }
  unfold pool_with_released in Hpool. rewrite (proj2 (Z.eqb_neq id 0)) in Hpool by lia.
  assert (htable (w_pool w') !! id = Some p) as Hfound by (rewrite Hpool; cbn; by rewrite lookup_insert_eq).
  exists w'. split_and!; try done.
  - rewrite Hpool. cbn. apply elem_of_app. right. by apply list_elem_of_singleton.
  - intros Hi. by apply (fresh_unhashed w' p Hi Hgone id).
Qed.
