(* ===== verification/SessionPoolRun.v ===== *)
(** * SessionPoolRun: the initial pool, and the session theorems at work

    The pool [high_speed_init_pool] builds satisfies the invariant; concrete
    worlds on which the theorems of SessionPoolSpec are instantiated. *)

From S2P Require Import Prelude Bytes Mem HyperampQueue HyperampQueueSpec HyperampLinux Message Build BuildSpec Session Device Responses SessionPool SessionPoolSpec.
From stdpp Require Import base list numbers option gmap.
From Stdlib Require Import ZArith Lia.
#[local] Open Scope Z_scope.

Lemma initial_ids_elem id : id ∈ map Z.of_nat (seq 1 1024) <-> 1 <= id <= 1024.
Proof.
  rewrite list_elem_of_fmap. split.
  - intros (k & -> & Hk%elem_of_seq). lia.
  - intros H. exists (Z.to_nat id). rewrite elem_of_seq. lia.
Qed.

Lemma init_pool_inv w : w_pool w = high_speed_init_pool -> pool_inv w.
Proof.
  intros H. split; rewrite ?H; cbn [high_speed_init_pool id_queue htable sess_num]; unfold fill_id_queue; cbn [app].
  - apply (NoDup_fmap_2 Z.of_nat), NoDup_seq.
  - intros id. apply (initial_ids_elem id).
  - intros id _. apply lookup_empty.
  - intros id p Hid. by rewrite lookup_empty in Hid.
  - by rewrite map_size_empty.
  - intros []; constructor.
  - intros dir p. split; [by destruct dir; intros ?%elem_of_nil|].
    intros (id & s & Hid & _). by rewrite lookup_empty in Hid.
Qed.

(** A world whose pool is fresh from [high_speed_init_pool] satisfies the
    pool invariant, with all of 1..1024 free and nothing to be found. *)
Theorem init_pool_establishes_inv w :
  w_pool w = high_speed_init_pool ->
  pool_inv w /\ ids_accounted w /\ (forall id, high_speed_search_sess w id = None) /\
  (forall id, id ∈ id_queue (w_pool w) <-> 1 <= id <= 1024).
Proof.
  intros H. split; [by apply init_pool_inv|]. unfold ids_accounted, high_speed_search_sess. rewrite H. cbn [high_speed_init_pool id_queue htable].
  split; [done|]. split; [intros id; apply lookup_empty|]. apply initial_ids_elem.
Qed.

(** ** Concrete worlds *)

(** What malloc returns: arbitrary bytes, here with the queue flags clear and
    a device id of 0. *)
Definition demo_junk : BackendSession :=
  {| proto_type := 77; dev_id := 0; establish_mode := 77; sock_fd := 77; ip_version := 77;
     frontend_sess_id := 77; backend_sess_id := 77; state_f2b := 76; state_b2f := 76;
     sess_dev_link_state := 77; msg_f2b := []; msg_b2f := []; sess_eng := false; sess_node := None;
     net_channel := {| ch_sock_fd := 77; ch_events := 77; ch_status := 77; ch_sess := 77 |} |}.

Definition demo_para : SessMsgPara :=
  {| para_frontend_sess_id := 9; para_dev_id := 0; para_ip_version := SESS_IPV4_PROTO;
     para_trans_proto := SESS_TCP_PROTO; para_ip_port := replicate 12 0 |}.

Definition demo_create_env (connect : bool) : create_env :=
  {| ce_malloc := Some (500, demo_junk); ce_junk_id := 77; ce_junk_code := 77;
     ce_socket := Some 5; ce_connect := connect; ce_epoll_add := true; ce_epoll_del := true |}.

Definition demo_engine_state : BackendEngine :=
  {| eng_tx := demo_engine; dev_num := 1; active_mask := 1; selector_id := 0 |}.

Definition demo_start (tx : tx_state) : world :=
  {| w_sess := ∅; w_node := {[ 10 := None; 11 := None ]}; w_devs := [demo_dev 0 [10; 11]];
     w_pool := high_speed_init_pool; w_eng := demo_engine_state; w_last_pos := 0;
     w_tx := tx; w_closed := [] |}.

Definition demo_tx_geo : geometry := tx_geometry 0x10000 SHM_CH1_PADDR.

Lemma demo_tx_ok w : w_tx w = demo_tx -> w_eng w = demo_engine_state -> tx_ok demo_tx_geo w.
Proof.
  intros E1 E2. split; rewrite ?E1, ?E2; [apply demo_channel_qwf|done|done|done|by vm_compute].
Qed.

Lemma demo_tx_empty w : w_tx w = demo_tx -> sent_messages demo_tx_geo w = [].
Proof. intros E. unfold sent_messages. rewrite E. vm_compute. done. Qed.

Lemma demo_tx_room w : w_tx w = demo_tx -> tx_room demo_tx_geo w.
Proof. intros E. unfold tx_room. rewrite (demo_tx_empty _ E). vm_compute. lia. Qed.

(** A TX ring of one slot, which can never hold a message. *)
Definition full_config : HyperampQueueConfig :=
  {| cfg_map_mode := 0; cfg_capacity := 1; cfg_block_size := 64;
     cfg_phy_addr := 0x11000; cfg_virt_addr := 0x11000 |}.
Definition full_tx : tx_state :=
  {| tx_mem := hyperamp_queue_init_creator (fun _ => 0) 0x11000 full_config; tx_amp_buf := []; tx_ring := None |}.
Definition full_geo : geometry := config_geometry 0x11000 0x12000 full_config.

Lemma full_tx_ok : tx_ok full_geo (demo_start full_tx) /\ ~ tx_room full_geo (demo_start full_tx).
Proof.
  destruct (init_creator_qwf (fun _ => 0) 0x11000 0x12000 full_config) as [Hq Hc];
    [intros a; unfold is_byte; lia|reflexivity..|].
  split; [split; [exact Hq|done|done|done|by vm_compute]|].
  unfold tx_room, sent_messages. cbn [w_tx demo_start full_tx tx_mem]. vm_compute. lia.
Qed.

Lemma demo_create_ready g tx b :
  tx_ok g (demo_start tx) ->
  create_ready g (demo_start tx) demo_para (demo_create_env b) 500 demo_junk 1
    (map Z.of_nat (seq 2 1023)) (demo_dev 0 [10; 11]).
Proof.
  intros Htx. split; try done; cbn; try lia.
  by apply init_pool_inv.
Qed.

Lemma create_active_success_witness :
  exists w' s, high_speed_create_sess_active (demo_start demo_tx) demo_para (demo_create_env true)
    = Done (PROCESS_OK, Some 500, w') /\
  high_speed_search_sess w' 1 = Some 500 /\ w_sess w' = {[ 500 := s ]} /\ frontend_sess_id s = 9 /\
  length (sent_messages demo_tx_geo w') = 1%nat.
Proof.
  destruct (create_active_success demo_tx_geo (demo_start demo_tx) demo_para (demo_create_env true)
              500 demo_junk 1 (map Z.of_nat (seq 2 1023)) (demo_dev 0 [10; 11]) 5 10 [11])
    as (w' & s & blk & -> & _ & _ & Hf & _ & Hs & _ & Hid & _ & _ & _ & _ & _ & Hm & _).
  - by apply demo_create_ready, demo_tx_ok.
  - discriminate.
  - done.
  - done.
  - done.
  - done.
  - done.
  - apply not_elem_of_nil.
  - by apply demo_tx_room.
  - by vm_compute.
  - by vm_compute.
  - exists w', s. split; [done|]. split; [done|]. split; [done|]. split; [done|].
    rewrite Hm, (demo_tx_empty (demo_start demo_tx) eq_refl). done.
Defined.

Lemma create_active_failure_rolls_back_witness :
  exists w', high_speed_create_sess_active (demo_start demo_tx) demo_para (demo_create_env false)
    = Done (PROCESS_ERROR, None, w') /\
  rolled_back (demo_start demo_tx) 1 (map Z.of_nat (seq 2 1023)) w' /\ w_closed w' = [5].
Proof.
  destruct (create_active_failure_rolls_back demo_tx_geo (demo_start demo_tx) demo_para
              (demo_create_env false) 500 demo_junk 1 (map Z.of_nat (seq 2 1023)) (demo_dev 0 [10; 11]))
    as (w' & -> & Hr & _ & _ & _ & Hc).
  - by apply demo_create_ready, demo_tx_ok.
  - discriminate.
  - right. by left.
  - discriminate.
  - eauto.
Defined.

Lemma create_active_response_failure_dangles_witness :
  exists w', high_speed_create_sess_active (demo_start full_tx) demo_para (demo_create_env true)
    = Done (PROCESS_ERROR, None, w') /\
  high_speed_search_sess w' 1 = Some 500 /\ w_sess w' !! 500 = None.
Proof.
  destruct (create_active_response_failure_dangles full_geo (demo_start full_tx) demo_para
              (demo_create_env true) 500 demo_junk 1 (map Z.of_nat (seq 2 1023)) (demo_dev 0 [10; 11]) 5 10 [11])
    as (w' & -> & Hf & Hs & _).
  - apply demo_create_ready, full_tx_ok.
  - discriminate.
  - done.
  - done.
  - done.
  - done.
  - by intros ?%list_elem_of_singleton.
  - done.
  - apply not_elem_of_nil.
  - apply full_tx_ok.
  - eauto.
Defined.

Lemma init_pool_establishes_inv_witness : ids_accounted (demo_start demo_tx).
Proof. exact (proj1 (proj2 (init_pool_establishes_inv (demo_start demo_tx) eq_refl))). Defined.

(** ** A world with one live session *)

Definition demo_session : BackendSession :=
  set_state F2B (set_state B2F
    (active_session demo_junk demo_para 1 5 500 10) 1) 0.

Definition demo_live : world :=
  {| w_sess := {[ 500 := demo_session ]}; w_node := {[ 10 := Some 500; 11 := None ]};
     w_devs := [device_linked (demo_dev 0 [10; 11]) (para_trans_proto demo_para) 10 [11]];
     w_pool := {| sess_num := 1; pool_capacity := 1024; queue_f2b := []; queue_b2f := [500];
                  id_queue := map Z.of_nat (seq 2 1023); htable := {[ 1 := 500 ]} |};
     w_eng := demo_engine_state; w_last_pos := 0; w_tx := demo_tx; w_closed := [] |}.

(** A pool with one session, under id 1, queued as its flags say. *)
Definition single_pool (p : Z) (s : BackendSession) : BackendSessionPool :=
  {| sess_num := 1; pool_capacity := 1024;
     queue_f2b := if bit0 (state_f2b s) then [p] else []; queue_b2f := if bit0 (state_b2f s) then [p] else [];
     id_queue := map Z.of_nat (seq 2 1023); htable := {[ 1 := p ]} |}.

Lemma single_pool_inv w p s :
  w_pool w = single_pool p s -> w_sess w = {[ p := s ]} -> backend_sess_id s = 1 -> sess_eng s = true -> pool_inv w.
Proof.
  intros Hp Hw Hb He. assert (forall id, id ∈ map Z.of_nat (seq 2 1023) -> 2 <= id <= 1024) as Hid.
  { intros id (k & -> & Hk%elem_of_seq)%list_elem_of_fmap. lia. }
  assert (forall dir, pool_queue dir (single_pool p s) = if bit0 (sess_state dir s) then [p] else []) as Hq
    by (by intros []).
  split; rewrite ?Hp, ?Hw; cbn [single_pool id_queue htable sess_num].
  - apply (NoDup_fmap_2 Z.of_nat), NoDup_seq.
  - intros id H%Hid. lia.
  - intros id H%Hid. apply lookup_singleton_ne. lia.
  - intros id q [<- <-]%lookup_singleton_Some. split; [lia|]. exists s. by rewrite lookup_singleton_eq.
  - by rewrite map_size_singleton.
  - intros dir. rewrite Hq. case_match; [apply NoDup_singleton|constructor].
  - intros dir q. rewrite Hq. split.
    + destruct (bit0 _) eqn:E; [|by intros ?%elem_of_nil]. intros ->%list_elem_of_singleton.
      exists 1, s. by rewrite !lookup_singleton_eq.
    + intros (id & t & [<- <-]%lookup_singleton_Some & [_ <-]%lookup_singleton_Some & ->).
      by apply list_elem_of_singleton.
Qed.

Lemma demo_live_inv : pool_inv demo_live.
Proof. by apply (single_pool_inv _ 500 demo_session). Qed.

Lemma demo_live_node : node_in_place demo_live 500 demo_session.
Proof.
  right. exists 10, (device_linked (demo_dev 0 [10; 11]) (para_trans_proto demo_para) 10 [11]).
  split_and!; try done; cbn; try lia.
  - by apply list_elem_of_singleton.
  - by intros ?%list_elem_of_singleton.
Qed.
