(* ===== verification/UtHash.v ===== *)
(** * UtHash: the hash table of the session pool

    The macros of src/include/uthash.h that src/session_pool.c uses, with the
    options it is built with (Jenkins' hash, no Bloom filter, no debugging
    checks, a failed allocation is fatal): HASH_FIND, HASH_ADD, HASH_DELETE and
    the bucket expansion they may start, and the HASH_ITER loop that empties a
    table.  Every element carries two doubly linked lists, kept here as the C
    code keeps them, link by link: the order of insertion ([App]) and the chain
    of its bucket ([Chain]).

    An element and its handle are named by one address: ELMT_FROM_HH and
    HH_FROM_ELMT only add and subtract the constant [hho].  The key is a field
    of the element, read where the code reads it: [key p] are its bytes. *)

From S2P Require Import Prelude Bytes.
From stdpp Require Import base list numbers option gmap.
From Stdlib Require Import ZArith Lia.
#[local] Open Scope Z_scope.

(** ** Jenkins' hash function *)

Definition sub32 (a b : Z) : Z := u32 (a - b).
Definition add32 (a b : Z) : Z := u32 (a + b).

(** HASH_JEN_MIX on (a, b, c). *)
Definition HASH_JEN_MIX (x : Z * Z * Z) : Z * Z * Z :=
  let '(a, b, c) := x in
  let a := Z.lxor (sub32 (sub32 a b) c) (Z.shiftr c 13) in
  let b := Z.lxor (sub32 (sub32 b c) a) (u32 (Z.shiftl a 8)) in
  let c := Z.lxor (sub32 (sub32 c a) b) (Z.shiftr b 13) in
  let a := Z.lxor (sub32 (sub32 a b) c) (Z.shiftr c 12) in
  let b := Z.lxor (sub32 (sub32 b c) a) (u32 (Z.shiftl a 16)) in
  let c := Z.lxor (sub32 (sub32 c a) b) (Z.shiftr b 5) in
  let a := Z.lxor (sub32 (sub32 a b) c) (Z.shiftr c 3) in
  let b := Z.lxor (sub32 (sub32 b c) a) (u32 (Z.shiftl a 10)) in
  let c := Z.lxor (sub32 (sub32 c a) b) (Z.shiftr b 15) in
  (a, b, c).

Definition key_byte (k : list Z) (i : nat) : Z := nth i k 0.

(** Four bytes of the key, the last one in the top byte. *)
Definition key_word (k : list Z) (i : nat) : Z :=
  u32 (key_byte k i + Z.shiftl (key_byte k (i + 1)) 8 + Z.shiftl (key_byte k (i + 2)) 16 + Z.shiftl (key_byte k (i + 3)) 24).

(** The while loop over twelve bytes at a time; [fuel] bounds its turns. *)
Fixpoint jen_blocks (fuel : nat) (k : list Z) (x : Z * Z * Z) : list Z * (Z * Z * Z) :=
  match fuel with
  | O => (k, x)
  | S fuel =>
      if 12 <=? blen k then
        let '(i, j, h) := x in
        jen_blocks fuel (drop 12 k) (HASH_JEN_MIX (add32 i (key_word k 0), add32 j (key_word k 4), add32 h (key_word k 8)))
      else (k, x)
  end.

(** The switch over the remaining bytes: every case falls through, so byte [n]
    is added when more than [n] remain; the low byte of [hashv] is left to the
    length. *)
Definition jen_tail (k : list Z) (x : Z * Z * Z) : Z * Z * Z :=
  let '(i, j, h) := x in
  let at_ n sh v := if Z.of_nat n <? blen k then add32 v (u32 (Z.shiftl (key_byte k n) sh)) else v in
  let h := at_ 10%nat 24 h in let h := at_ 9%nat 16 h in let h := at_ 8%nat 8 h in
  let j := at_ 7%nat 24 j in let j := at_ 6%nat 16 j in let j := at_ 5%nat 8 j in let j := at_ 4%nat 0 j in
  let i := at_ 3%nat 24 i in let i := at_ 2%nat 16 i in let i := at_ 1%nat 8 i in let i := at_ 0%nat 0 i in
  (i, j, h).

Definition HASH_JEN (k : list Z) : Z :=
  let '(rest, (i, j, h)) := jen_blocks (length k) k (0x9e3779b9, 0x9e3779b9, 0xfeedbeef) in
  snd (HASH_JEN_MIX (jen_tail rest (i, j, add32 h (blen k)))).

(** ** Handles, buckets, table *)

Record links := { l_prev : option Z; l_next : option Z }.

(** [hh_app] are [prev] and [next], [hh_chain] are [hh_prev] and [hh_next];
    [tbl] is the one table of the hash; [key] points into the element. *)
Record UT_hash_handle := { hh_app : links; hh_chain : links; hh_keylen : Z; hh_hashv : Z }.

Record UT_hash_bucket := { hh_head : option Z; bk_count : Z; expand_mult : Z }.

(** [signature], the Bloom fields and [hho] are left out: nothing reads them. *)
Record UT_hash_table := {
  buckets : list UT_hash_bucket;
  num_buckets : Z;
  log2_num_buckets : Z;
  num_items : Z;
  ut_tail : Z;
  ideal_chain_maxlen : Z;
  nonideal_items : Z;
  ineff_expands : Z;
  noexpand : bool }.

(** The handles in memory, and the head pointer with its table. *)
Abbreviation handles := (gmap Z UT_hash_handle).
Record uthash := { ut_hh : handles; ut_head : option (Z * UT_hash_table) }.

Definition HASH_INITIAL_NUM_BUCKETS : Z := 32.
Definition HASH_INITIAL_NUM_BUCKETS_LOG2 : Z := 5.
Definition HASH_BKT_CAPACITY_THRESH : Z := 10.

Definition HASH_TO_BKT (hashv num_bkts : Z) : Z := Z.land hashv (u32 (num_bkts - 1)).

Definition zero_bucket : UT_hash_bucket := {| hh_head := None; bk_count := 0; expand_mult := 0 |}.

(** ** Links *)

Inductive list_kind := App | Chain.

Definition get_links (k : list_kind) (h : UT_hash_handle) : links := match k with App => hh_app h | Chain => hh_chain h end.

Definition set_links (k : list_kind) (h : UT_hash_handle) (l : links) : UT_hash_handle :=
  match k with
  | App => {| hh_app := l; hh_chain := hh_chain h; hh_keylen := hh_keylen h; hh_hashv := hh_hashv h |}
  | Chain => {| hh_app := hh_app h; hh_chain := l; hh_keylen := hh_keylen h; hh_hashv := hh_hashv h |}
  end.

(** Dereferencing a handle. *)
Definition get_hh (hs : handles) (p : Z) : outcome UT_hash_handle :=
  match hs !! p with Some h => Done h | None => Fault UseAfterFree end.

Definition set_next (k : list_kind) (hs : handles) (p : Z) (v : option Z) : outcome handles :=
  h ← get_hh hs p; Done (<[p := set_links k h {| l_prev := l_prev (get_links k h); l_next := v |}]> hs).

Definition set_prev (k : list_kind) (hs : handles) (p : Z) (v : option Z) : outcome handles :=
  h ← get_hh hs p; Done (<[p := set_links k h {| l_prev := v; l_next := l_next (get_links k h) |}]> hs).

(** [if (p) p->next = v]. *)
Definition set_next_opt (k : list_kind) (hs : handles) (p : option Z) (v : option Z) : outcome handles :=
  match p with Some p => set_next k hs p v | None => Done hs end.
Definition set_prev_opt (k : list_kind) (hs : handles) (p : option Z) (v : option Z) : outcome handles :=
  match p with Some p => set_prev k hs p v | None => Done hs end.

(** ** HASH_FIND *)

(** The walk along a chain; the handles in memory bound its length. *)
Fixpoint find_in_chain (fuel : nat) (key : Z -> option (list Z)) (hs : handles) (k : list Z) (hashv : Z) (out : option Z)
  : outcome (option Z) :=
  match out with
  | None => Done None
  | Some p =>
      match fuel with
      | O => Spin
      | S fuel =>
          h ← get_hh hs p;
          same ← (if (hh_hashv h =? hashv) && (hh_keylen h =? blen k)
                  then match key p with Some k' => Done (bool_decide (k' = k)) | None => Fault UseAfterFree end
                  else Done false);
          if (same : bool) then Done (Some p) else find_in_chain fuel key hs k hashv (l_next (hh_chain h))
      end
  end.

Definition HASH_FIND_IN_BKT (key : Z -> option (list Z)) (hs : handles) (b : UT_hash_bucket) (k : list Z) (hashv : Z) : outcome (option Z) :=
  find_in_chain (S (size hs)) key hs k hashv (hh_head b).

Definition get_bucket (bs : list UT_hash_bucket) (i : Z) : outcome UT_hash_bucket :=
  match bs !! Z.to_nat i with Some b => Done b | None => Fault OutOfBounds end.

Definition HASH_FIND (key : Z -> option (list Z)) (u : uthash) (k : list Z) : outcome (option Z) :=
  match ut_head u with
  | None => Done None
  | Some (_, t) =>
      let hashv := HASH_JEN k in
      b ← get_bucket (buckets t) (HASH_TO_BKT hashv (num_buckets t));
      HASH_FIND_IN_BKT key (ut_hh u) b k hashv
  end.

(** ** HASH_EXPAND_BUCKETS *)

(** One element moves to the front of its new bucket. *)
Definition move_element (nb ideal : Z) (p : Z) (x : handles * list UT_hash_bucket * Z)
  : outcome (option Z * (handles * list UT_hash_bucket * Z)) :=
  let '(hs, bs, nonideal) := x in
  h ← get_hh hs p;
  let nxt := l_next (hh_chain h) in
  let i := HASH_TO_BKT (hh_hashv h) nb in
  b ← get_bucket bs i;
  let count := u32 (bk_count b + 1) in
  let over := ideal <? count in
  let nonideal := if over then u32 (nonideal + 1) else nonideal in
  let mult := if over && (u32 (expand_mult b * ideal) <? count) then u32 (expand_mult b + 1) else expand_mult b in
  hs ← set_prev Chain hs p None;
  hs ← set_next Chain hs p (hh_head b);
  hs ← set_prev_opt Chain hs (hh_head b) (Some p);
  Done (nxt, (hs, <[Z.to_nat i := {| hh_head := Some p; bk_count := count; expand_mult := mult |}]> bs, nonideal)).

Fixpoint move_chain (fuel : nat) (nb ideal : Z) (p : option Z) (x : handles * list UT_hash_bucket * Z)
  : outcome (handles * list UT_hash_bucket * Z) :=
  match p with
  | None => Done x
  | Some p =>
      match fuel with
      | O => Spin
      | S fuel => r ← move_element nb ideal p x; move_chain fuel nb ideal (fst r) (snd r)
      end
  end.

Fixpoint move_buckets (fuel : nat) (nb ideal : Z) (old : list UT_hash_bucket) (x : handles * list UT_hash_bucket * Z)
  : outcome (handles * list UT_hash_bucket * Z) :=
  match old with
  | [] => Done x
  | b :: old => x ← move_chain fuel nb ideal (hh_head b) x; move_buckets fuel nb ideal old x
  end.

(** [mem]: the new buckets are allocated; otherwise the process exits, which is
    a call that does not come back. *)
Definition HASH_EXPAND_BUCKETS (mem : bool) (hs : handles) (t : UT_hash_table) : outcome (handles * UT_hash_table) :=
  if negb mem then Spin else
  let nb := u32 (num_buckets t * 2) in
  let ideal := u32 (Z.shiftr (num_items t) (log2_num_buckets t + 1) + (if Z.land (num_items t) (u32 (nb - 1)) =? 0 then 0 else 1)) in
  x ← move_buckets (S (size hs)) nb ideal (buckets t) (hs, replicate (Z.to_nat nb) zero_bucket, 0);
  let '(hs, bs, nonideal) := x in
  let ineff := if Z.shiftr (num_items t) 1 <? nonideal then u32 (ineff_expands t + 1) else 0 in
  Done (hs, {| buckets := bs; num_buckets := nb; log2_num_buckets := u32 (log2_num_buckets t + 1); num_items := num_items t;
               ut_tail := ut_tail t; ideal_chain_maxlen := ideal; nonideal_items := nonideal; ineff_expands := ineff;
               noexpand := (1 <? ineff) || noexpand t |}).

(** ** HASH_ADD *)

Definition set_bucket (t : UT_hash_table) (i : Z) (b : UT_hash_bucket) : UT_hash_table :=
  {| buckets := <[Z.to_nat i := b]> (buckets t); num_buckets := num_buckets t; log2_num_buckets := log2_num_buckets t;
     num_items := num_items t; ut_tail := ut_tail t; ideal_chain_maxlen := ideal_chain_maxlen t;
     nonideal_items := nonideal_items t; ineff_expands := ineff_expands t; noexpand := noexpand t |}.

Definition set_items (t : UT_hash_table) (n tl : Z) : UT_hash_table :=
  {| buckets := buckets t; num_buckets := num_buckets t; log2_num_buckets := log2_num_buckets t;
     num_items := n; ut_tail := tl; ideal_chain_maxlen := ideal_chain_maxlen t;
     nonideal_items := nonideal_items t; ineff_expands := ineff_expands t; noexpand := noexpand t |}.

Definition HASH_MAKE_TABLE (p : Z) : UT_hash_table :=
  {| buckets := replicate (Z.to_nat HASH_INITIAL_NUM_BUCKETS) zero_bucket; num_buckets := HASH_INITIAL_NUM_BUCKETS;
     log2_num_buckets := HASH_INITIAL_NUM_BUCKETS_LOG2; num_items := 0; ut_tail := p; ideal_chain_maxlen := 0;
     nonideal_items := 0; ineff_expands := 0; noexpand := false |}.

Definition HASH_ADD_TO_BKT (mem : bool) (hs : handles) (t : UT_hash_table) (i p : Z) : outcome (handles * UT_hash_table) :=
  b ← get_bucket (buckets t) i;
  let b' := {| hh_head := Some p; bk_count := u32 (bk_count b + 1); expand_mult := expand_mult b |} in
  hs ← set_next Chain hs p (hh_head b);
  hs ← set_prev Chain hs p None;
  hs ← set_prev_opt Chain hs (hh_head b) (Some p);
  let t := set_bucket t i b' in
  if (u32 (u32 (expand_mult b + 1) * HASH_BKT_CAPACITY_THRESH) <=? bk_count b') && negb (noexpand t)
  then HASH_EXPAND_BUCKETS mem hs t else Done (hs, t).

Definition HASH_APPEND_LIST (hs : handles) (t : UT_hash_table) (p : Z) : outcome (handles * UT_hash_table) :=
  hs ← set_next App hs p None;
  hs ← set_prev App hs p (Some (ut_tail t));
  hs ← set_next App hs (ut_tail t) (Some p);
  Done (hs, set_items t (num_items t) p).

Definition HASH_ADD_TO_TABLE (mem : bool) (hs : handles) (head : Z) (t : UT_hash_table) (hashv p : Z) : outcome uthash :=
  let t := set_items t (u32 (num_items t + 1)) (ut_tail t) in
  r ← HASH_ADD_TO_BKT mem hs t (HASH_TO_BKT hashv (num_buckets t)) p;
  Done {| ut_hh := fst r; ut_head := Some (head, snd r) |}.

(** What memory the calls of an addition get: the table, its buckets, the
    buckets of an expansion. *)
Record hash_mem := { hm_table : bool; hm_buckets : bool; hm_expand : bool }.

(** The element's handle holds whatever was there; it must be allocated. *)
Definition HASH_ADD (key : Z -> option (list Z)) (m : hash_mem) (u : uthash) (p : Z) : outcome uthash :=
  match key p with
  | None => Fault UseAfterFree
  | Some k =>
      let hashv := HASH_JEN k in
      h ← get_hh (ut_hh u) p;
      let h := {| hh_app := hh_app h; hh_chain := hh_chain h; hh_keylen := blen k; hh_hashv := hashv |} in
      match ut_head u with
      | None =>
          let hs := <[p := set_links App h {| l_prev := None; l_next := None |}]> (ut_hh u) in
          if negb (hm_table m && hm_buckets m) then Spin else
          HASH_ADD_TO_TABLE (hm_expand m) hs p (HASH_MAKE_TABLE p) hashv p
      | Some (head, t) =>
          r ← HASH_APPEND_LIST (<[p := h]> (ut_hh u)) t p;
          HASH_ADD_TO_TABLE (hm_expand m) (fst r) head (snd r) hashv p
      end
  end.

(** ** HASH_DELETE *)

Definition HASH_DEL_IN_BKT (hs : handles) (b : UT_hash_bucket) (p : Z) : outcome (handles * UT_hash_bucket) :=
  h ← get_hh hs p;
  let next := l_next (hh_chain h) in
  let prev := l_prev (hh_chain h) in
  let b := {| hh_head := if bool_decide (hh_head b = Some p) then next else hh_head b;
              bk_count := u32 (bk_count b - 1); expand_mult := expand_mult b |} in
  hs ← set_next_opt Chain hs prev next;
  hs ← set_prev_opt Chain hs next prev;
  Done (hs, b).

(** The last element takes the table with it.  An element that is not in a
    table at all finds none to patch. *)
Definition HASH_DELETE (u : uthash) (p : Z) : outcome uthash :=
  match ut_head u with
  | None => Fault NullDeref
  | Some (head, t) =>
      h ← get_hh (ut_hh u) p;
      match l_prev (hh_app h), l_next (hh_app h) with
      | None, None => Done {| ut_hh := ut_hh u; ut_head := None |}
      | prev, next =>
          tl ← (if p =? ut_tail t then match prev with Some q => Done q | None => Fault NullDeref end else Done (ut_tail t));
          hs ← set_next_opt App (ut_hh u) prev next;
          head ← match prev with
                 | Some _ => Done head
                 | None => match next with Some n => Done n | None => Fault NullDeref end
                 end;
          hs ← set_prev_opt App hs next prev;
          let i := HASH_TO_BKT (hh_hashv h) (num_buckets t) in
          b ← get_bucket (buckets t) i;
          r ← HASH_DEL_IN_BKT hs b p;
          Done {| ut_hh := fst r; ut_head := Some (head, set_items (set_bucket t i (snd r)) (u32 (num_items t - 1)) tl) |}
      end
  end.

(** ** HASH_ITER with HASH_DEL and free *)

(** free: the element and its handle are gone. *)
Definition free_handle (u : uthash) (p : Z) : uthash := {| ut_hh := delete p (ut_hh u); ut_head := ut_head u |}.

(** [tmp ? tmp->hh.next : NULL]. *)
Definition iter_next (hs : handles) (p : option Z) : outcome (option Z) :=
  match p with None => Done None | Some p => h ← get_hh hs p; Done (l_next (hh_app h)) end.

(** Result: the elements freed, in order. *)
Fixpoint delete_all_loop (fuel : nat) (el tmp : option Z) (u : uthash) : outcome (list Z * uthash) :=
  match el with
  | None => Done ([], u)
  | Some p =>
      match fuel with
      | O => Spin
      | S fuel =>
          u ← HASH_DELETE u p;
          let u := free_handle u p in
          nxt ← iter_next (ut_hh u) tmp;
          r ← delete_all_loop fuel tmp nxt u;
          Done (p :: fst r, snd r)
      end
  end.

Definition hash_delete_all (u : uthash) : outcome (list Z * uthash) :=
  let el := fst <$> ut_head u in
  tmp ← iter_next (ut_hh u) el;
  delete_all_loop (S (size (ut_hh u))) el tmp u.
