(* ===== verification/UtHashLinks.v ===== *)
(** * UtHashLinks: the doubly linked lists of the hash table

    [seg k hs prev l next]: in the handles [hs] the elements [l] are linked in
    this order by the links of kind [k], between [prev] and [next].  What the
    patches of the macros make of a list: a new first element, a new last one,
    an element taken out. *)

From S2P Require Import Prelude Bytes UtHash.
From stdpp Require Import base list numbers option gmap.
From Stdlib Require Import ZArith Lia.
#[local] Open Scope Z_scope.

Definition first_of (l : list Z) (next : option Z) : option Z := match l with [] => next | p :: _ => Some p end.
Definition last_of (l : list Z) (prev : option Z) : option Z := match last l with Some p => Some p | None => prev end.

Lemma last_of_cons p l prev : last_of (p :: l) prev = last_of l (Some p).
Proof. unfold last_of. destruct l as [|q l]; [done|]. rewrite last_cons_cons. by destruct (last (q :: l)) eqn:E; [|apply last_None in E]. Qed.

Lemma first_of_head l : first_of l None = head l.
Proof. by destruct l. Qed.

Fixpoint seg (k : list_kind) (hs : handles) (prev : option Z) (l : list Z) (next : option Z) : Prop :=
  match l with
  | [] => True
  | p :: l => (exists h, hs !! p = Some h /\ get_links k h = {| l_prev := prev; l_next := first_of l next |}) /\ seg k hs (Some p) l next
  end.

Lemma seg_app k hs l1 l2 : forall prev next,
  seg k hs prev (l1 ++ l2) next <-> seg k hs prev l1 (first_of l2 next) /\ seg k hs (last_of l1 prev) l2 next.
Proof.
  induction l1 as [|p l1 IH]; intros prev next; cbn [app seg]; [tauto|]. rewrite IH, last_of_cons.
  assert (first_of (l1 ++ l2) next = first_of l1 (first_of l2 next)) as -> by (by destruct l1). tauto.
Qed.

Lemma seg_ext k hs hs' l : forall prev next,
  (forall p, p ∈ l -> get_links k <$> hs' !! p = get_links k <$> hs !! p) -> seg k hs prev l next -> seg k hs' prev l next.
Proof.
  induction l as [|p l IH]; intros prev next H; [done|]. intros [(h & Hp & Hl) Hs]. split.
  - specialize (H p ltac:(left)). rewrite Hp in H. destruct (hs' !! p) as [h'|]; [|done]. injection H as H. exists h'. split; [done|congruence].
  - apply IH; [|done]. intros q Hq. apply H. by right.
Qed.

Lemma seg_lookup k hs p l : forall prev next, seg k hs prev l next -> p ∈ l -> is_Some (hs !! p).
Proof.
  induction l as [|q l IH]; intros prev next; [by intros _ ?%not_elem_of_nil|]. intros [(h & Hh & _) H] [->|Hp]%elem_of_cons; [by exists h|by eapply IH].
Qed.

(** ** What an update of one kind of link leaves alone *)

Definition other (k : list_kind) : list_kind := match k with App => Chain | Chain => App end.

Definition rest_of (k : list_kind) (h : UT_hash_handle) : links * Z * Z := (get_links (other k) h, hh_keylen h, hh_hashv h).

(** Only links of kind [k] differ, and only at the elements [l]. *)
Record relinked (k : list_kind) (l : list Z) (hs hs' : handles) : Prop := {
  rl_rest : forall p, rest_of k <$> hs' !! p = rest_of k <$> hs !! p;
  rl_out : forall p, p ∉ l -> hs' !! p = hs !! p }.

Lemma relinked_refl k l hs : relinked k l hs hs.
Proof. by split. Qed.

Lemma relinked_trans k l hs hs1 hs2 : relinked k l hs hs1 -> relinked k l hs1 hs2 -> relinked k l hs hs2.
Proof. intros [A1 A2] [B1 B2]. split; intros p; [by rewrite B1|]. intros Hp. by rewrite B2, A2. Qed.

Lemma relinked_mono k l l' hs hs' : relinked k l hs hs' -> l ⊆ l' -> relinked k l' hs hs'.
Proof. intros [A1 A2] Hl. split; [done|]. intros p Hp. apply A2. intros Hin. by apply Hp, Hl. Qed.

Lemma relinked_dom k l hs hs' p : relinked k l hs hs' -> is_Some (hs' !! p) <-> is_Some (hs !! p).
Proof. intros [H _]. specialize (H p). destruct (hs !! p), (hs' !! p); try done; split; try done; by eexists. Qed.

Lemma relinked_seg_other k k' l hs hs' prev l' next : relinked k l hs hs' -> other k = k' -> seg k' hs prev l' next -> seg k' hs' prev l' next.
Proof.
  intros [H _] <-. apply seg_ext. intros p _. specialize (H p). destruct (hs !! p), (hs' !! p); try done. cbn in *. by injection H as ->.
Qed.

Lemma relinked_seg k l hs hs' prev l' next : relinked k l hs hs' -> (forall p, p ∈ l' -> p ∉ l) -> seg k hs prev l' next -> seg k hs' prev l' next.
Proof. intros [_ H] Hd. apply seg_ext. intros p Hp. by rewrite H by auto. Qed.

Lemma relinked_handle k l hs hs' p h : relinked k l hs hs' -> hs !! p = Some h -> exists h', hs' !! p = Some h' /\ rest_of k h' = rest_of k h.
Proof. intros [H _] Hp. specialize (H p). rewrite Hp in H. destruct (hs' !! p) as [h'|]; [|done]. injection H as H1 H2 H3. exists h'. split; [done|]. unfold rest_of. congruence. Qed.

Lemma get_set_links k h l : get_links k (set_links k h l) = l.
Proof. by destruct k. Qed.

Lemma rest_set_links k h l : rest_of k (set_links k h l) = rest_of k h.
Proof. by destruct k. Qed.

Lemma relinked_insert k hs p h l : hs !! p = Some h -> relinked k [p] hs (<[p := set_links k h l]> hs).
Proof.
  intros Hp. split; intros q.
  - destruct (decide (q = p)) as [->|Hn]; [|by rewrite lookup_insert_ne]. rewrite lookup_insert_eq, Hp. cbn. by rewrite rest_set_links.
  - intros Hq. apply lookup_insert_ne. intros ->. by apply Hq; left.
Qed.

(** ** One assignment *)

Lemma set_next_spec k hs p h v : hs !! p = Some h ->
  exists hs', set_next k hs p v = Done hs' /\ relinked k [p] hs hs' /\
  exists h', hs' !! p = Some h' /\ get_links k h' = {| l_prev := l_prev (get_links k h); l_next := v |}.
Proof.
  intros Hp. unfold set_next, get_hh. rewrite Hp. cbn [mbind outcome_bind]. eexists. split; [done|]. split; [by apply relinked_insert|].
  rewrite lookup_insert_eq. eexists. split; [done|]. apply get_set_links.
Qed.

Lemma set_prev_spec k hs p h v : hs !! p = Some h ->
  exists hs', set_prev k hs p v = Done hs' /\ relinked k [p] hs hs' /\
  exists h', hs' !! p = Some h' /\ get_links k h' = {| l_prev := v; l_next := l_next (get_links k h) |}.
Proof.
  intros Hp. unfold set_prev, get_hh. rewrite Hp. cbn [mbind outcome_bind]. eexists. split; [done|]. split; [by apply relinked_insert|].
  rewrite lookup_insert_eq. eexists. split; [done|]. apply get_set_links.
Qed.

(** The last element of a list gets another successor. *)
Lemma seg_set_next k hs prev l next v : seg k hs prev l next -> NoDup l ->
  exists hs', set_next_opt k hs (last l) v = Done hs' /\ relinked k l hs hs' /\ seg k hs' prev l v.
Proof.
  intros Hs Hn. destruct (last l) as [p|] eqn:El.
  2:{ apply last_None in El as ->. exists hs. split; [done|]. split; [apply relinked_refl|done]. }
  apply last_Some in El as [l0 ->]. apply seg_app in Hs as [H0 [(h & Hp & Hl) _] ]. apply NoDup_app in Hn as (_ & Hd & _).
  destruct (set_next_spec k hs p h v Hp) as (hs' & E & Hr & h' & Hp' & Hl'). exists hs'. split; [exact E|].
  split; [eapply relinked_mono; [exact Hr|]; intros q ->%list_elem_of_singleton; apply elem_of_app; right; by left|].
  apply seg_app. split; [apply (relinked_seg _ _ _ _ _ _ _ Hr); [|done]; intros q Hq ->%list_elem_of_singleton; apply (Hd p Hq); by left|].
  cbn. split; [|done]. exists h'. split; [done|]. by rewrite Hl', Hl.
Qed.

(** The first element of a list gets another predecessor. *)
Lemma seg_set_prev k hs prev l next v : seg k hs prev l next -> NoDup l ->
  exists hs', set_prev_opt k hs (head l) v = Done hs' /\ relinked k l hs hs' /\ seg k hs' v l next.
Proof.
  intros Hs Hn. destruct l as [|p l]; [exists hs; split; [done|]; split; [apply relinked_refl|done]|].
  destruct Hs as [(h & Hp & Hl) Hs]. apply NoDup_cons in Hn as [Hd _].
  destruct (set_prev_spec k hs p h v Hp) as (hs' & E & Hr & h' & Hp' & Hl'). exists hs'. split; [exact E|].
  split; [eapply relinked_mono; [exact Hr|]; intros q ->%list_elem_of_singleton; by left|].
  split; [exists h'; split; [done|]; by rewrite Hl', Hl|].
  apply (relinked_seg _ _ _ _ _ _ _ Hr); [|done]. intros q Hq ->%list_elem_of_singleton. done.
Qed.

(** ** The patches of the macros *)

(** [p] becomes the first element of [l]. *)
Lemma seg_push k hs l p : seg k hs None l None -> NoDup l -> p ∉ l -> is_Some (hs !! p) ->
  exists hs1 hs2 hs', set_next k hs p (head l) = Done hs1 /\ set_prev k hs1 p None = Done hs2 /\ set_prev_opt k hs2 (head l) (Some p) = Done hs' /\
  relinked k (p :: l) hs hs' /\ seg k hs' None (p :: l) None.
Proof.
  intros Hs Hn Hp [h Hh]. destruct (set_next_spec k hs p h (head l) Hh) as (hs1 & E1 & R1 & h1 & Hh1 & L1).
  destruct (set_prev_spec k hs1 p h1 None Hh1) as (hs2 & E2 & R2 & h2 & Hh2 & L2).
  pose proof (relinked_trans _ _ _ _ _ R1 R2) as R12. assert (forall q, q ∈ l -> q ∉ [p]) as Hd by (intros q Hq ->%list_elem_of_singleton; done).
  destruct (seg_set_prev k hs2 None l None (Some p)) as (hs' & E' & R' & S'); [by apply (relinked_seg _ _ _ _ _ _ _ R12)|done|].
  exists hs1, hs2, hs'. split; [exact E1|]. split; [exact E2|]. split; [exact E'|]. split.
  { eapply relinked_trans; eapply relinked_mono; [exact R12| |exact R'|]; [intros q ->%list_elem_of_singleton; by left|intros q Hq; by right]. }
  cbn. split; [|exact S']. exists h2. rewrite (rl_out _ _ _ _ R') by done. split; [done|]. rewrite L2, L1. by rewrite first_of_head.
Qed.

(** The same with the predecessor written first. *)
Lemma seg_push' k hs l p : seg k hs None l None -> NoDup l -> p ∉ l -> is_Some (hs !! p) ->
  exists hs1 hs2 hs', set_prev k hs p None = Done hs1 /\ set_next k hs1 p (head l) = Done hs2 /\ set_prev_opt k hs2 (head l) (Some p) = Done hs' /\
  relinked k (p :: l) hs hs' /\ seg k hs' None (p :: l) None.
Proof.
  intros Hs Hn Hp [h Hh]. destruct (set_prev_spec k hs p h None Hh) as (hs1 & E1 & R1 & h1 & Hh1 & L1).
  destruct (set_next_spec k hs1 p h1 (head l) Hh1) as (hs2 & E2 & R2 & h2 & Hh2 & L2).
  pose proof (relinked_trans _ _ _ _ _ R1 R2) as R12. assert (forall q, q ∈ l -> q ∉ [p]) as Hd by (intros q Hq ->%list_elem_of_singleton; done).
  destruct (seg_set_prev k hs2 None l None (Some p)) as (hs' & E' & R' & S'); [by apply (relinked_seg _ _ _ _ _ _ _ R12)|done|].
  exists hs1, hs2, hs'. split; [exact E1|]. split; [exact E2|]. split; [exact E'|]. split.
  { eapply relinked_trans; eapply relinked_mono; [exact R12| |exact R'|]; [intros q ->%list_elem_of_singleton; by left|intros q Hq; by right]. }
  cbn. split; [|exact S']. exists h2. rewrite (rl_out _ _ _ _ R') by done. split; [done|]. rewrite L2, L1. by rewrite first_of_head.
Qed.

(** [p] becomes the last element of [l], which ends in [q]. *)
Lemma seg_append k hs l p q : seg k hs None l None -> NoDup l -> p ∉ l -> is_Some (hs !! p) -> last l = Some q ->
  exists hs1 hs2 hs', set_next k hs p None = Done hs1 /\ set_prev k hs1 p (Some q) = Done hs2 /\ set_next k hs2 q (Some p) = Done hs' /\
  relinked k (p :: l) hs hs' /\ seg k hs' None (l ++ [p]) None.
Proof.
  intros Hs Hn Hp [h Hh] Hq. destruct (set_next_spec k hs p h None Hh) as (hs1 & E1 & R1 & h1 & Hh1 & L1).
  destruct (set_prev_spec k hs1 p h1 (Some q) Hh1) as (hs2 & E2 & R2 & h2 & Hh2 & L2).
  pose proof (relinked_trans _ _ _ _ _ R1 R2) as R12. assert (forall r, r ∈ l -> r ∉ [p]) as Hd by (intros r Hr ->%list_elem_of_singleton; done).
  destruct (seg_set_next k hs2 None l None (Some p)) as (hs' & E' & R' & S'); [by apply (relinked_seg _ _ _ _ _ _ _ R12)|done|].
  rewrite Hq in E'. exists hs1, hs2, hs'. split; [exact E1|]. split; [exact E2|]. split; [exact E'|]. split.
  { eapply relinked_trans; eapply relinked_mono; [exact R12| |exact R'|]; [intros r ->%list_elem_of_singleton; by left|intros r Hr; by right]. }
  apply seg_app. split; [exact S'|]. unfold last_of. rewrite Hq. cbn. split; [|done].
  exists h2. rewrite (rl_out _ _ _ _ R') by done. split; [done|]. by rewrite L2, L1.
Qed.

(** [p] is taken out. *)
Lemma seg_unlink k hs l1 p l2 : seg k hs None (l1 ++ p :: l2) None -> NoDup (l1 ++ p :: l2) ->
  (exists h, hs !! p = Some h /\ get_links k h = {| l_prev := last l1; l_next := head l2 |}) /\
  exists hs1 hs', set_next_opt k hs (last l1) (head l2) = Done hs1 /\ set_prev_opt k hs1 (head l2) (last l1) = Done hs' /\
  relinked k (l1 ++ l2) hs hs' /\ seg k hs' None (l1 ++ l2) None.
Proof.
  intros Hs Hn. apply seg_app in Hs as [S1 [(h & Hp & Hl) S2] ]. apply NoDup_app in Hn as (N1 & Hd & [Hp2 N2]%NoDup_cons).
  rewrite first_of_head in Hl. assert (last_of l1 None = last l1) as Hlast by (unfold last_of; by destruct (last l1)). rewrite Hlast in Hl.
  split; [by exists h|]. destruct (seg_set_next k hs None l1 _ (head l2) S1 N1) as (hs1 & E1 & R1 & S1').
  assert (seg k hs1 (Some p) l2 None) as S2' by (apply (relinked_seg _ _ _ _ _ _ _ R1); [|done]; intros q Hq Hq'; apply (Hd q Hq'); by right).
  destruct (seg_set_prev k hs1 _ l2 None (last l1) S2' N2) as (hs' & E' & R' & S2'').
  exists hs1, hs'. split; [exact E1|]. split; [exact E'|]. split.
  { eapply relinked_trans; eapply relinked_mono; [exact R1| |exact R'|]; intros q Hq; apply elem_of_app; auto. }
  apply seg_app. rewrite first_of_head, Hlast. split; [|exact S2''].
  apply (relinked_seg _ _ _ _ _ _ _ R'); [|done]. intros q Hq Hq'. apply (Hd q Hq). by right.
Qed.
