(* ===== verification/UtHashSpec.v ===== *)
(** * UtHashSpec: the hash table keeps a set of elements with distinct keys

    [ut_rep u L]: the table [u] holds exactly the elements [L], in order of
    insertion.  HASH_FIND answers the element with the key, HASH_ADD appends an
    element, HASH_DELETE removes one, and the iteration that empties the table
    visits [L] in order; all return. *)

From S2P Require Import Prelude Bytes UtHash UtHashLinks.
From stdpp Require Import base list numbers option gmap.
From Stdlib Require Import ZArith Lia.
#[local] Open Scope Z_scope.

(** ** Bucket numbers *)

Lemma to_bkt_mod h n : 0 <= n <= 31 -> HASH_TO_BKT h (2 ^ n) = h mod 2 ^ n.
Proof.
  intros Hn. unfold HASH_TO_BKT. rewrite u32_id.
  - replace (2 ^ n - 1) with (Z.ones n) by (rewrite Z.ones_equiv; lia). apply Z.land_ones. lia.
  - pose proof (Z.pow_le_mono_r 2 n 31). pose proof (Z.pow_pos_nonneg 2 n). lia.
Qed.

Definition bkt_index (h n : Z) : nat := Z.to_nat (HASH_TO_BKT h (2 ^ n)).

Lemma bkt_index_lt h n : 0 <= n <= 31 -> (bkt_index h n < Z.to_nat (2 ^ n))%nat.
Proof.
  intros Hn. unfold bkt_index. rewrite to_bkt_mod by done. pose proof (Z.pow_pos_nonneg 2 n ltac:(lia) ltac:(lia)).
  pose proof (Z.mod_pos_bound h (2 ^ n)). lia.
Qed.

Lemma pow_log n : 0 <= n <= 30 -> 1 <= 2 ^ n /\ 2 ^ n * 2 = 2 ^ (n + 1) /\ 2 ^ (n + 1) < 4294967296.
Proof.
  intros Hn. rewrite Z.pow_add_r by lia. pose proof (Z.pow_le_mono_r 2 n 30). pose proof (Z.pow_pos_nonneg 2 n). lia.
Qed.

(** ** A list without one element *)

Lemma head_without (c1 c2 : list Z) p : NoDup (c1 ++ p :: c2) ->
  (if bool_decide (head (c1 ++ p :: c2) = Some p) then head c2 else head (c1 ++ p :: c2)) = head (c1 ++ c2).
Proof.
  intros Hn. destruct c1 as [|q c1]; cbn [app head]; [by rewrite bool_decide_eq_true_2|].
  rewrite bool_decide_eq_false_2; [done|]. intros [= ->]. cbn in Hn. apply NoDup_cons in Hn as [Hq _]. apply Hq, elem_of_app. right. by left.
Qed.

Lemma filter_absent (l : list Z) p : p ∉ l -> filter (fun q => q <> p) l = l.
Proof.
  induction l as [|q l IH]; [done|]. intros [Hq Hl]%not_elem_of_cons. by rewrite filter_cons_True, IH by congruence.
Qed.

Lemma filter_ne (l1 l2 : list Z) p : NoDup (l1 ++ p :: l2) -> filter (fun q => q <> p) (l1 ++ p :: l2) = l1 ++ l2.
Proof.
  intros (_ & Hd & [Hp _]%NoDup_cons)%NoDup_app. rewrite filter_app, filter_cons_False by tauto. rewrite !filter_absent; [done|done|].
  intros Hq. apply (Hd p Hq). by left.
Qed.

Section Table.
(** The keys in use: at most [N] of them, and with [2 ^ top] buckets no bucket
    is full. *)
Context (key : Z -> option (list Z)) (adm : list Z -> Prop) (N : nat) (top : Z).
Context (Htop : 5 <= top <= 30) (HN : Z.of_nat N < 2 ^ 24).
Context (Hcount : forall ks, NoDup ks -> Forall adm ks -> (length ks <= N)%nat).
Context (Hload : forall ks i, NoDup ks -> Forall adm ks -> (forall k, k ∈ ks -> bkt_index (HASH_JEN k) top = i) -> (length ks < 10)%nat).

(** ** Representation *)

(** An element with its key and hash value in place. *)
Definition keyed (hs : handles) (p : Z) : Prop :=
  exists h k, hs !! p = Some h /\ key p = Some k /\ adm k /\ hh_hashv h = HASH_JEN k /\ hh_keylen h = blen k.

(** [p] belongs into bucket [i] of [2 ^ n]. *)
Definition in_bucket (hs : handles) (n : Z) (i : nat) (p : Z) : Prop := exists h, hs !! p = Some h /\ bkt_index (hh_hashv h) n = i.

Record bucket_rep (hs : handles) (b : UT_hash_bucket) (l : list Z) : Prop := {
  br_head : hh_head b = head l;
  br_count : bk_count b = Z.of_nat (length l);
  br_mult : 0 <= expand_mult b <= Z.of_nat N;
  br_seg : seg Chain hs None l None;
  br_nodup : NoDup l }.

(** The buckets [bs] hold the elements [D], in the chains [C]. *)
Record chains_rep (hs : handles) (n : Z) (bs : list UT_hash_bucket) (D : list Z) (C : nat -> list Z) : Prop := {
  cr_len : length bs = Z.to_nat (2 ^ n);
  cr_bkt : forall i b, bs !! i = Some b -> bucket_rep hs b (C i);
  cr_mem : forall i p, (i < length bs)%nat -> p ∈ C i <-> p ∈ D /\ in_bucket hs n i p }.

Record elements (hs : handles) (L : list Z) : Prop := {
  el_nodup : NoDup L;
  el_keyed : forall p, p ∈ L -> keyed hs p;
  el_keys : forall p q, p ∈ L -> q ∈ L -> key p = key q -> p = q }.

Record table_rep (hs : handles) (first : Z) (t : UT_hash_table) (L : list Z) : Prop := {
  tr_log : 5 <= log2_num_buckets t <= top;
  tr_num : num_buckets t = 2 ^ log2_num_buckets t;
  tr_items : num_items t = Z.of_nat (length L);
  tr_app : seg App hs None L None;
  tr_head : head L = Some first;
  tr_tail : last L = Some (ut_tail t);
  tr_el : elements hs L;
  tr_chains : exists C, chains_rep hs (log2_num_buckets t) (buckets t) L C }.

Definition ut_rep (u : uthash) (L : list Z) : Prop :=
  match ut_head u with None => L = [] | Some (first, t) => table_rep (ut_hh u) first t L end.

(** ** Sets of elements *)

Definition the_key (p : Z) : list Z := default [] (key p).

Lemma the_keys hs L : elements hs L -> NoDup (map the_key L) /\ Forall adm (map the_key L).
Proof using Type.
  intros [Hn Hk Hinj]. split.
  - apply NoDup_fmap_2_strong; [|done]. intros p q Hp Hq E. apply Hinj; [done..|].
    destruct (Hk p Hp) as (? & ? & _ & Kp & _), (Hk q Hq) as (? & ? & _ & Kq & _). unfold the_key in E. rewrite Kp, Kq in *. cbn in E. congruence.
  - apply Forall_forall. intros k (p & -> & Hp)%list_elem_of_fmap. destruct (Hk p Hp) as (h & k & _ & Kp & Ha & _). unfold the_key. by rewrite Kp.
Qed.

Lemma elements_sub hs L l : elements hs L -> NoDup l -> l ⊆ L -> elements hs l.
Proof using Type. intros [Hn Hk Hinj] Hl Hs. split; [done| |]; [intros p Hp; apply Hk; by apply Hs|intros p q Hp Hq; apply Hinj; by apply Hs]. Qed.

Lemma elements_few hs L : elements hs L -> (length L <= N)%nat.
Proof using Hcount. intros H. destruct (the_keys hs L H) as [H1 H2]. rewrite <- (length_map the_key). by apply Hcount. Qed.

Lemma elements_load hs L l i : elements hs L -> NoDup l -> l ⊆ L -> (forall p, p ∈ l -> in_bucket hs top i p) -> (length l < 10)%nat.
Proof using Hload.
  intros H Hl Hs Hb. pose proof (elements_sub hs L l H Hl Hs) as H'. destruct (the_keys hs l H') as [H1 H2]. rewrite <- (length_map the_key).
  apply (Hload _ i H1 H2). intros k (p & -> & Hp)%list_elem_of_fmap. destruct (Hb p Hp) as (h & Hh & Hi).
  destruct (el_keyed _ _ H' p Hp) as (h' & k & Hh' & Hk & _ & Hj & _). unfold the_key. rewrite Hk. cbn. assert (h' = h) as -> by congruence. by rewrite <- Hj.
Qed.

Lemma keyed_ext hs hs' p : (forall k, rest_of k <$> hs' !! p = rest_of k <$> hs !! p) -> keyed hs p -> keyed hs' p.
Proof using Type.
  intros H (h & k & Hh & Hk). specialize (H App). rewrite Hh in H. destruct (hs' !! p) as [h'|] eqn:E; [|done]. injection H as H1 H2 H3.
  exists h', k. by rewrite H2, H3.
Qed.

(** What the bucket and key depend on is not a link. *)
Lemma relinked_keyed k l hs hs' p : relinked k l hs hs' -> keyed hs p -> keyed hs' p.
Proof using Type.
  intros Hr (h & ky & Hh & Hk & Ha & H1 & H2). destruct (relinked_handle _ _ _ _ _ _ Hr Hh) as (h' & Hh' & E). injection E as E1 E2 E3.
  exists h', ky. by rewrite E2, E3.
Qed.

Lemma relinked_bucket k l hs hs' n i p : relinked k l hs hs' -> in_bucket hs' n i p <-> in_bucket hs n i p.
Proof using Type.
  intros [H _]. specialize (H p). unfold in_bucket. destruct (hs !! p) as [h|], (hs' !! p) as [h'|]; try done.
  injection H as H1 H2 H3. split; intros (x & [= <-] & Hx); eexists; (split; [done|]); congruence.
Qed.

Lemma relinked_elements k l hs hs' L : relinked k l hs hs' -> elements hs L -> elements hs' L.
Proof using Type. intros Hr [Hn Hk Hi]. split; [done| |done]. intros p Hp. by eapply relinked_keyed; [exact Hr|apply Hk]. Qed.

(** Chains survive changes of the other links. *)
Lemma relinked_chains l hs hs' n bs D C : relinked App l hs hs' -> chains_rep hs n bs D C -> chains_rep hs' n bs D C.
Proof using Type.
  intros Hr [Hl Hb Hm]. split; [done| |].
  - intros i b Hi. destruct (Hb i b Hi). split; try done. by eapply relinked_seg_other.
  - intros i p Hi. rewrite Hm by done. by rewrite (relinked_bucket _ _ _ _ _ _ _ Hr).
Qed.

Lemma in_bucket_fun hs n i j p : in_bucket hs n i p -> in_bucket hs n j p -> i = j.
Proof using Type. intros (h & Hh & <-) (h' & Hh' & <-). congruence. Qed.

Lemma chains_bucket hs n bs D C h p : chains_rep hs n bs D C -> 0 <= n <= 31 -> hs !! p = Some h ->
  exists b, get_bucket bs (HASH_TO_BKT (hh_hashv h) (2 ^ n)) = Done b /\ bs !! bkt_index (hh_hashv h) n = Some b /\ bucket_rep hs b (C (bkt_index (hh_hashv h) n)).
Proof using Type.
  intros [Hl Hb Hm] Hn Hh. destruct (lookup_lt_is_Some_2 bs (bkt_index (hh_hashv h) n)) as [b E]; [rewrite Hl; by apply bkt_index_lt|].
  exists b. unfold get_bucket. fold (bkt_index (hh_hashv h) n). rewrite E. split; [done|]. split; [done|by apply Hb].
Qed.

(** Every chain is a part of the elements. *)
Lemma chain_sub hs n bs D C i : chains_rep hs n bs D C -> (i < length bs)%nat -> C i ⊆ D.
Proof using Type. intros [_ _ Hm] Hi p Hp. by apply Hm in Hp as [Hp _]. Qed.

Lemma nodup_size hs (l : list Z) : NoDup l -> (forall p, p ∈ l -> is_Some ((hs : handles) !! p)) -> (length l <= size hs)%nat.
Proof using Type.
  intros Hn Hd. rewrite <- (size_list_to_set (C := gset Z) l) by done. rewrite <- size_dom. apply subseteq_size.
  intros p Hp%elem_of_list_to_set. by apply elem_of_dom, Hd.
Qed.
(** ** HASH_FIND *)

Lemma find_in_chain_spec hs k l : forall fuel prev, (length l < fuel)%nat -> seg Chain hs prev l None -> (forall p, p ∈ l -> keyed hs p) ->
  exists r, find_in_chain fuel key hs k (HASH_JEN k) (head l) = Done r /\
  match r with Some p => p ∈ l /\ key p = Some k | None => forall p, p ∈ l -> key p <> Some k end.
Proof using N.
  induction l as [|p l IH]; intros fuel prev Hf Hs Hk.
  { exists None. split; [by destruct fuel|]. intros p ?%not_elem_of_nil. done. }
  destruct fuel as [|fuel]; [cbn in Hf; lia|]. destruct Hs as [(h & Hh & Hl) Hs]. destruct (Hk p ltac:(left)) as (h' & kp & Hh' & Kp & _ & Hj & Hn).
  assert (h' = h) as -> by congruence. cbn [find_in_chain head]. unfold get_hh. rewrite Hh. cbn [mbind outcome_bind]. rewrite Kp, Hj, Hn.
  destruct (decide (kp = k)) as [->|Hne].
  { rewrite !Z.eqb_refl, bool_decide_eq_true_2 by done. cbn. exists (Some p). split; [done|]. split; [by left|done]. }
  assert ((if (HASH_JEN kp =? HASH_JEN k) && (blen kp =? blen k) then Done (bool_decide (kp = k)) else Done false) = Done false) as ->
    by (rewrite bool_decide_eq_false_2 by done; by destruct (_ && _)).
  cbn [mbind outcome_bind]. cbn [get_links] in Hl. rewrite Hl. cbn [l_next]. rewrite first_of_head.
  destruct (IH fuel (Some p)) as (r & -> & Hr); [cbn in Hf; lia|done|intros q Hq; apply Hk; by right|]. exists r. split; [done|].
  destruct r as [q|]; [destruct Hr; split; [by right|done] |]. intros q [->|Hq]%elem_of_cons; [congruence|by apply Hr].
Qed.

Lemma hash_find_spec u L k : ut_rep u L ->
  exists r, HASH_FIND key u k = Done r /\ match r with Some p => p ∈ L /\ key p = Some k | None => forall p, p ∈ L -> key p <> Some k end.
Proof using Htop N.
  unfold ut_rep, HASH_FIND. destruct (ut_head u) as [ [first t]|]; [|intros ->; exists None; split; [done|]; by intros p ?%not_elem_of_nil].
  intros [T1 T2 T3 T4 T5 T6 T7 (C & Hc)]. rewrite T2. set (i := bkt_index (HASH_JEN k) (log2_num_buckets t)).
  assert (i < length (buckets t))%nat as Hi by (rewrite (cr_len _ _ _ _ _ Hc); apply bkt_index_lt; lia).
  destruct (lookup_lt_is_Some_2 _ _ Hi) as [b Hb]. unfold get_bucket. fold (bkt_index (HASH_JEN k) (log2_num_buckets t)) i. rewrite Hb. cbn [mbind outcome_bind].
  destruct (cr_bkt _ _ _ _ _ Hc i b Hb) as [B1 B2 B3 B4 B5]. unfold HASH_FIND_IN_BKT. rewrite B1.
  assert (forall p, p ∈ C i -> p ∈ L) as Hsub by (intros p Hp; by eapply chain_sub).
  destruct (find_in_chain_spec (ut_hh u) k (C i) (S (size (ut_hh u))) None) as (r & -> & Hr); [|done|intros p Hp; apply T7; by apply Hsub|].
  { apply (Nat.lt_succ_r (length (C i))). apply nodup_size; [done|]. intros p Hp. by eapply seg_lookup. }
  exists r. split; [done|]. destruct r as [p|]; [destruct Hr; split; [by apply Hsub|done] |]. intros p Hp Hk. apply (Hr p); [|done].
  apply (cr_mem _ _ _ _ _ Hc i p Hi). split; [done|]. destruct (el_keyed _ _ T7 p Hp) as (h & k' & Hh & Hk' & _ & Hj & _).
  exists h. split; [done|]. rewrite Hj. assert (k' = k) as -> by congruence. done.
Qed.

(** ** One element into a bucket *)

(** A bucket with a new first element. *)
Definition pushed (b : UT_hash_bucket) (p m : Z) : UT_hash_bucket := {| hh_head := Some p; bk_count := u32 (bk_count b + 1); expand_mult := m |}.

Definition push_chain (C : nat -> list Z) (i : nat) (p : Z) : nat -> list Z := fun j => if decide (j = i) then p :: C i else C j.

Lemma chains_push hs hs' n bs D C p i b m :
  chains_rep hs n bs D C -> bs !! i = Some b -> in_bucket hs n i p -> p ∉ D -> (S (length (C i)) <= N)%nat -> 0 <= m <= Z.of_nat N ->
  relinked Chain (p :: C i) hs hs' -> seg Chain hs' None (p :: C i) None ->
  chains_rep hs' n (<[i := pushed b p m]> bs) (p :: D) (push_chain C i p).
Proof using HN.
  intros Hc Hb Hp Hd Hl Hm Hr Hs. pose proof (lookup_lt_Some _ _ _ Hb) as Hi. pose proof Hc as [C1 C2 C3]. split.
  - by rewrite length_insert.
  - intros j b'. unfold push_chain. destruct (decide (j = i)) as [->|Hj].
    + rewrite list_lookup_insert_eq by done. intros [= <-]. destruct (C2 i b Hb) as [B1 B2 B3 B4 B5]. split; try done.
      * cbn. rewrite B2, u32_id by lia. cbn [length]. lia.
      * apply NoDup_cons. split; [|done]. intros Hin. apply Hd. by apply (C3 i p Hi).
    + rewrite list_lookup_insert_ne by done. intros Hj'. destruct (C2 j b' Hj') as [B1 B2 B3 B4 B5]. split; try done.
      pose proof (lookup_lt_Some _ _ _ Hj') as Hlt. apply (relinked_seg _ _ _ _ _ _ _ Hr); [|done].
      intros q Hq [->|Hq']%elem_of_cons; [apply Hd; by apply (C3 j p Hlt)|]. apply Hj.
      apply (C3 j q Hlt) in Hq as [_ Hq]. apply (C3 i q Hi) in Hq' as [_ Hq']. by eapply in_bucket_fun.
  - intros j q. rewrite length_insert. intros Hj. rewrite elem_of_cons, (relinked_bucket _ _ _ _ _ _ _ Hr). unfold push_chain. destruct (decide (j = i)) as [->|Hne].
    + rewrite elem_of_cons, (C3 i q Hi). split; [intros [->|[? ?] ]; auto|]. intros [ [->|?] ?]; auto.
    + rewrite (C3 j q Hj). split; [intros [? ?]; auto|]. intros [ [->|?] Hq]; [|done]. destruct Hne. by eapply in_bucket_fun.
Qed.

(** ** HASH_EXPAND_BUCKETS *)

(** The new buckets while elements move: the multiplier of a bucket is at most
    its count. *)
Definition moved (hs : handles) (n : Z) (bs : list UT_hash_bucket) (D : list Z) : Prop :=
  exists C, chains_rep hs n bs D C /\ forall i b, bs !! i = Some b -> expand_mult b <= bk_count b.

Lemma move_element_spec hs n bs ni ideal D L p h :
  moved hs n bs D -> 0 <= n <= 31 -> elements hs L -> NoDup (p :: D) -> p :: D ⊆ L -> hs !! p = Some h ->
  exists hs' bs' ni', move_element (2 ^ n) ideal p (hs, bs, ni) = Done (l_next (hh_chain h), (hs', bs', ni')) /\
  relinked Chain (p :: D) hs hs' /\ moved hs' n bs' (p :: D).
Proof using HN Hcount.
  intros (C & Hc & Hmu) Hn He [Hpd Hd]%NoDup_cons Hsub Hh. unfold move_element, get_hh. rewrite Hh. cbn [mbind outcome_bind].
  destruct (chains_bucket hs n bs D C h p Hc Hn Hh) as (b & -> & Hb & Hbr). cbn [mbind outcome_bind].
  fold (bkt_index (hh_hashv h) n). set (i := bkt_index (hh_hashv h) n) in *. pose proof (lookup_lt_Some _ _ _ Hb) as Hi. destruct Hbr as [B1 B2 B3 B4 B5].
  assert (C i ⊆ D) as HCD by (by eapply chain_sub). assert (p ∉ C i) as Hpc by (intros Hin; by apply Hpd, HCD).
  destruct (seg_push' Chain hs (C i) p B4 B5 Hpc ltac:(by exists h)) as (hs1 & hs2 & hs' & E1 & E2 & E3 & Hr & Hs).
  rewrite B1, E1. cbn [mbind outcome_bind]. rewrite E2. cbn [mbind outcome_bind]. rewrite E3. cbn [mbind outcome_bind]. fold (bkt_index (hh_hashv h) n). fold i.
  assert (S (length (C i)) <= N)%nat as Hfew.
  { apply (elements_few hs (p :: C i)). eapply elements_sub; [exact He|by apply NoDup_cons|]. intros q [->|Hq]%elem_of_cons; apply Hsub; [by left|right; by apply HCD]. }
  set (m := if _ && _ then _ else _). assert (0 <= m <= u32 (bk_count b + 1)) as Hm.
  { specialize (Hmu i b Hb). rewrite B2 in *. rewrite (u32_id (Z.of_nat (length (C i)) + 1)) by lia. subst m. case_match; [rewrite u32_id by lia|]; lia. }
  eexists hs', _, _. split; [reflexivity|]. split.
  { eapply relinked_mono; [exact Hr|]. intros q [->|Hq]%elem_of_cons; [by left|right; by apply HCD]. }
  exists (push_chain C i p). rewrite B2, u32_id in Hm by lia. split.
  - apply (chains_push hs hs' n bs D C p i b m); try done; [by exists h|]. lia.
  - intros j b'. destruct (decide (j = i)) as [->|Hj]; [rewrite list_lookup_insert_eq by done|rewrite list_lookup_insert_ne by done; apply Hmu].
    intros [= <-]. cbn. rewrite B2, u32_id by lia. lia.
Qed.

Lemma move_chain_spec n ideal L l : forall fuel hs bs ni D prev,
  moved hs n bs D -> 0 <= n <= 31 -> elements hs L -> NoDup (l ++ D) -> l ++ D ⊆ L -> seg Chain hs prev l None -> (length l < fuel)%nat ->
  exists hs' bs' ni', move_chain fuel (2 ^ n) ideal (head l) (hs, bs, ni) = Done (hs', bs', ni') /\
  relinked Chain (l ++ D) hs hs' /\ moved hs' n bs' (reverse l ++ D).
Proof using HN Hcount.
  induction l as [|p l IH]; intros fuel hs bs ni D prev Hm Hn He Hd Hsub Hs Hf.
  { exists hs, bs, ni. split; [by destruct fuel|]. split; [apply relinked_refl|done]. }
  destruct fuel as [|fuel]; [cbn in Hf; lia|]. destruct Hs as [(h & Hh & Hl) Hs]. cbn [app] in Hd, Hsub. apply NoDup_cons in Hd as [Hp Hd].
  assert (NoDup (p :: D)) as Hpd by (apply NoDup_cons; split; [intros Hin; apply Hp, elem_of_app; by right|by apply NoDup_app in Hd as (_ & _ & ?)]).
  destruct (move_element_spec hs n bs ni ideal D L p h Hm Hn He Hpd) as (hs1 & bs1 & ni1 & E1 & R1 & M1); [|done|].
  { intros q [->|Hq]%elem_of_cons; apply Hsub; [by left|right; apply elem_of_app; by right]. }
  cbn [move_chain head]. rewrite E1. cbn [mbind outcome_bind fst snd get_links] in *. rewrite Hl. cbn [l_next]. rewrite first_of_head.
  destruct (IH fuel hs1 bs1 ni1 (p :: D) (Some p)) as (hs' & bs' & ni' & E' & R' & M'); try done.
  - by eapply relinked_elements.
  - rewrite <- Permutation_middle. by apply NoDup_cons.
  - intros q Hq. apply Hsub. rewrite <- Permutation_middle in Hq. exact Hq.
  - apply (relinked_seg _ _ _ _ _ _ _ R1); [|done]. intros q Hq [->|Hq']%elem_of_cons; [apply Hp, elem_of_app; by left|].
    apply NoDup_app in Hd as (_ & Hd & _). by apply (Hd q).
  - cbn in Hf. lia.
  - exists hs', bs', ni'. split; [exact E'|]. split; [|rewrite reverse_cons, <- app_assoc; exact M'].
    eapply relinked_trans; eapply relinked_mono; [exact R1| |exact R'|]; intros q Hq; cbn [app].
    + apply elem_of_cons in Hq as [->|Hq]; [by left|right; apply elem_of_app; by right].
    + rewrite <- Permutation_middle in Hq. exact Hq.
Qed.

(** The old buckets from number [j] on are still to be moved. *)
Definition old_chains (hs : handles) (old : list UT_hash_bucket) (C : nat -> list Z) (j : nat) (D : list Z) : Prop :=
  (forall i b, old !! i = Some b -> bucket_rep hs b (C (j + i)%nat)) /\
  (forall i p, (i < length old)%nat -> p ∈ C (j + i)%nat -> p ∉ D) /\
  forall i i' p, (i < length old)%nat -> (i' < length old)%nat -> p ∈ C (j + i)%nat -> p ∈ C (j + i')%nat -> i = i'.

Lemma old_chains_step hs hs' b old C j D :
  old_chains hs (b :: old) C j D -> relinked Chain (C j ++ D) hs hs' -> old_chains hs' old C (S j) (reverse (C j) ++ D).
Proof using Type.
  intros (H1 & H2 & H3) Hr. assert (forall i p, (i < length old)%nat -> p ∈ C (S j + i)%nat -> p ∉ C j ++ D) as Hout.
  { intros i p Hi Hp [Hq|Hq]%elem_of_app.
    - assert (S i = 0%nat) as Hbad; [|lia]. apply (H3 (S i) 0%nat p); cbn; [lia|lia| |by rewrite Nat.add_0_r]. by rewrite Nat.add_succ_r.
    - apply (H2 (S i) p); [cbn; lia| |done]. by rewrite Nat.add_succ_r. }
  split; [|split].
  - intros i b' Hi. specialize (H1 (S i) b' Hi). rewrite Nat.add_succ_r in H1. destruct H1 as [B1 B2 B3 B4 B5]. split; try done.
    apply (relinked_seg _ _ _ _ _ _ _ Hr); [|done]. intros p Hp. apply (Hout i p); [by eapply lookup_lt_Some|done].
  - intros i p Hi Hp. specialize (Hout i p Hi Hp). rewrite elem_of_app, elem_of_reverse. by rewrite elem_of_app in Hout.
  - intros i i' p Hi Hi' Hp Hp'. assert (S i = S i') as [=]; [|done]. apply (H3 (S i) (S i') p); cbn; try lia; by rewrite Nat.add_succ_r.
Qed.

Lemma move_buckets_spec n ideal L fuel old : forall hs bs ni D C j,
  moved hs n bs D -> 0 <= n <= 31 -> elements hs L -> NoDup D -> D ⊆ L -> old_chains hs old C j D ->
  (forall i, (i < length old)%nat -> C (j + i)%nat ⊆ L) -> (length L < fuel)%nat ->
  exists hs' bs' ni' D', move_buckets fuel (2 ^ n) ideal old (hs, bs, ni) = Done (hs', bs', ni') /\ relinked Chain L hs hs' /\
  moved hs' n bs' D' /\ NoDup D' /\ D' ⊆ L /\ forall p, p ∈ D' <-> p ∈ D \/ exists i, (i < length old)%nat /\ p ∈ C (j + i)%nat.
Proof using HN Hcount.
  induction old as [|b old IH]; intros hs bs ni D C j Hm Hn He Hd Hsub Ho HC Hf.
  { exists hs, bs, ni, D. split; [done|]. split; [apply relinked_refl|]. split; [done|]. split; [done|]. split; [done|].
    intros p. split; [by left|]. intros [?|(i & Hi & _)]; [done|cbn in Hi; lia]. }
  pose proof Ho as (H1 & H2 & H3). pose proof (H1 0%nat b eq_refl) as [B1 B2 B3 B4 B5]. rewrite Nat.add_0_r in *.
  pose proof (HC 0%nat ltac:(cbn; lia)) as HCj. rewrite Nat.add_0_r in HCj.
  assert (NoDup (C j ++ D)) as Hnd by (apply NoDup_app; split; [done|]; split; [intros p Hp; apply (H2 0%nat); [cbn; lia|by rewrite Nat.add_0_r]|done]).
  assert (C j ++ D ⊆ L) as HsubL by (intros p [Hp|Hp]%elem_of_app; [by apply HCj|by apply Hsub]).
  destruct (move_chain_spec n ideal L (C j) fuel hs bs ni D None) as (hs1 & bs1 & ni1 & E1 & R1 & M1); try done.
  { apply (Nat.le_lt_trans _ (length L)); [|done]. by apply NoDup_submseteq, submseteq_length in HCj. }
  cbn [move_buckets]. rewrite B1, E1. cbn [mbind outcome_bind].
  destruct (IH hs1 bs1 ni1 (reverse (C j) ++ D) C (S j)) as (hs' & bs' & ni' & D' & E' & R' & M' & N' & S' & I'); try done.
  - by eapply relinked_elements.
  - by rewrite reverse_Permutation.
  - intros p Hp. apply HsubL. by rewrite reverse_Permutation in Hp.
  - by eapply old_chains_step.
  - intros i Hi. replace (S j + i)%nat with (j + S i)%nat by lia. apply HC. cbn. lia.
  - exists hs', bs', ni', D'. split; [exact E'|]. split; [eapply relinked_trans; [by eapply relinked_mono|done]|].
    split; [done|]. split; [done|]. split; [done|]. intros p. rewrite I', elem_of_app, elem_of_reverse. split.
    + intros [ [Hp|Hp]|(i & Hi & Hp)]; [right; exists 0%nat; split; [cbn; lia|by rewrite Nat.add_0_r]|by left|].
      right. exists (S i). split; [cbn; lia|by rewrite Nat.add_succ_r].
    + intros [Hp|([|i] & Hi & Hp)]; [by left; right|left; left; by rewrite Nat.add_0_r in Hp|].
      right. exists i. split; [cbn in Hi; lia|by rewrite Nat.add_succ_r in Hp].
Qed.

Lemma expand_spec hs t L C :
  chains_rep hs (log2_num_buckets t) (buckets t) L C -> elements hs L -> num_buckets t = 2 ^ log2_num_buckets t -> 5 <= log2_num_buckets t <= 29 ->
  exists hs' t' C', HASH_EXPAND_BUCKETS true hs t = Done (hs', t') /\ relinked Chain L hs hs' /\
  log2_num_buckets t' = log2_num_buckets t + 1 /\ num_buckets t' = 2 ^ (log2_num_buckets t + 1) /\ num_items t' = num_items t /\ ut_tail t' = ut_tail t /\
  chains_rep hs' (log2_num_buckets t + 1) (buckets t') L C'.
Proof using HN Hcount.
  intros Hc He Hnb Hl. set (n := log2_num_buckets t) in *. destruct (pow_log n ltac:(lia)) as (P1 & P2 & P3).
  unfold HASH_EXPAND_BUCKETS. cbn [negb]. assert (u32 (num_buckets t * 2) = 2 ^ (n + 1)) as -> by (rewrite Hnb, P2, u32_id; lia).
  fold n. rewrite (u32_id (n + 1)) by lia. set (ideal := u32 _). pose proof Hc as [C1 C2 C3].
  assert (moved hs (n + 1) (replicate (Z.to_nat (2 ^ (n + 1))) zero_bucket) []) as Hm0.
  { exists (fun _ => []). split; [|intros i b [-> _]%lookup_replicate; cbn; lia]. split; [by rewrite length_replicate| |].
    - intros i b [-> _]%lookup_replicate. split; try done; [cbn; lia|by apply NoDup_nil].
    - intros i p _. split; [by intros ?%not_elem_of_nil|by intros [?%not_elem_of_nil _] ]. }
  assert (forall i p, (i < length (buckets t))%nat -> p ∈ C i -> in_bucket hs n i p) as Hin by (intros i p Hi Hp; by apply (C3 i p Hi)).
  destruct (move_buckets_spec (n + 1) ideal L (S (size hs)) (buckets t) hs _ 0 [] C 0%nat Hm0) as (hs' & bs' & ni' & D' & E & R & (C' & M' & _) & N' & S' & I'); try done.
  - lia.
  - by apply NoDup_nil.
  - intros p ?%not_elem_of_nil. done.
  - split; [exact C2|]. split; [by intros i p _ _ ?%not_elem_of_nil|]. intros i i' p Hi Hi' Hp Hp'. eapply in_bucket_fun; by apply Hin.
  - intros i Hi. by eapply chain_sub.
  - apply Nat.lt_succ_r. apply nodup_size; [apply He|]. intros p Hp. destruct (el_keyed _ _ He p Hp) as (h & k & Hh & _). by exists h.
  - rewrite E. cbn [mbind outcome_bind]. eexists hs', _, C'. split; [reflexivity|]. split; [done|]. cbn. split; [done|]. split; [done|]. split; [done|]. split; [done|].
    destruct M' as [M1 M2 M3]. split; [done|done|]. intros i p Hi. rewrite (M3 i p Hi), I'. split.
    + intros [ [?%not_elem_of_nil|(j & Hj & Hp)] Hb]; [done|]. split; [by eapply chain_sub|done].
    + intros [Hp Hb]. split; [|done]. right. destruct (el_keyed _ _ He p Hp) as (h & k & Hh & _). exists (bkt_index (hh_hashv h) n).
      assert (bkt_index (hh_hashv h) n < length (buckets t))%nat as Hlt by (rewrite C1; apply bkt_index_lt; lia). split; [done|].
      cbn [Nat.add]. apply (C3 _ p Hlt). split; [done|]. by exists h.
Qed.

(** ** HASH_ADD *)

(** Into a table whose list already has the new element at its end. *)
Lemma add_to_bkt_spec hs t L C p i h :
  chains_rep hs (log2_num_buckets t) (buckets t) L C -> elements hs (p :: L) -> num_buckets t = 2 ^ log2_num_buckets t ->
  5 <= log2_num_buckets t <= top -> hs !! p = Some h -> i = HASH_TO_BKT (hh_hashv h) (num_buckets t) ->
  exists hs' t' C', HASH_ADD_TO_BKT true hs t i p = Done (hs', t') /\ relinked Chain (p :: L) hs hs' /\
  5 <= log2_num_buckets t' <= top /\ num_buckets t' = 2 ^ log2_num_buckets t' /\ num_items t' = num_items t /\ ut_tail t' = ut_tail t /\
  chains_rep hs' (log2_num_buckets t') (buckets t') (p :: L) C'.
Proof using HN Hcount Hload Htop.
  intros Hc He Hnb Hlog Hh ->. unfold HASH_ADD_TO_BKT. rewrite Hnb.
  destruct (chains_bucket hs _ _ _ _ h p Hc ltac:(lia) Hh) as (b & -> & Hb & [B1 B2 B3 B4 B5]). cbn [mbind outcome_bind].
  fold (bkt_index (hh_hashv h) (log2_num_buckets t)). set (j := bkt_index _ _) in *. pose proof (lookup_lt_Some _ _ _ Hb) as Hj.
  assert (C j ⊆ L) as HCL by (by eapply chain_sub). pose proof (el_nodup _ _ He) as [HpL HnL]%NoDup_cons.
  assert (p ∉ C j) as Hpc by (intros Hin; by apply HpL, HCL).
  destruct (seg_push Chain hs (C j) p B4 B5 Hpc ltac:(by exists h)) as (hs1 & hs2 & hs' & E1 & E2 & E3 & Hr & Hs).
  rewrite B1, E1. cbn [mbind outcome_bind]. rewrite E2. cbn [mbind outcome_bind]. rewrite E3. cbn [mbind outcome_bind].
  assert (p :: C j ⊆ p :: L) as Hsub by (intros q [->|Hq]%elem_of_cons; [by left|right; by apply HCL]).
  assert (S (length (C j)) <= N)%nat as Hfew by (apply (elements_few hs (p :: C j)); eapply elements_sub; [exact He|by apply NoDup_cons|done]).
  assert (in_bucket hs (log2_num_buckets t) j p) as Hib by (by exists h).
  pose proof (chains_push hs hs' _ _ L C p j b (expand_mult b) Hc Hb Hib HpL Hfew B3 Hr Hs) as Hc'.
  pose proof (relinked_mono _ _ _ _ _ Hr Hsub) as Hr'. pose proof (relinked_elements _ _ _ _ _ Hr' He) as He'.
  set (t1 := set_bucket t _ _). change (chains_rep hs' (log2_num_buckets t) (buckets t1) (p :: L) (push_chain C j p)) in Hc'.
  cbn [bk_count]. destruct (_ && _) eqn:Etrig; [|exists hs', t1, (push_chain C j p); done].
  apply andb_true_iff in Etrig as [Etrig%Z.leb_le _]. unfold HASH_BKT_CAPACITY_THRESH in Etrig.
  rewrite B2, (u32_id (expand_mult b + 1)), (u32_id ((expand_mult b + 1) * 10)), u32_id in Etrig by lia.
  assert (log2_num_buckets t < top) as Hlt.
  { destruct (Z.lt_ge_cases (log2_num_buckets t) top) as [|Hge]; [done|exfalso]. assert (log2_num_buckets t = top) as Ht by lia.
    assert (length (p :: C j) < 10)%nat as Hshort; [|cbn in Hshort; lia]. apply (elements_load hs (p :: L) (p :: C j) j He); [by apply NoDup_cons|done|].
    intros q [->|Hq]%elem_of_cons; [by rewrite <- Ht|]. rewrite <- Ht. by apply (cr_mem _ _ _ _ _ Hc j q Hj). }
  destruct (expand_spec hs' t1 (p :: L) (push_chain C j p) Hc' He' Hnb) as (hs3 & t' & C' & E & R & T1 & T2 & T3 & T4 & T5); [cbn; lia|].
  exists hs3, t', C'. split; [exact E|]. cbn [log2_num_buckets t1 set_bucket] in *. rewrite T1. split; [by eapply relinked_trans|].
  split; [lia|]. split; [done|]. split; [done|]. split; [done|exact T5].
Qed.

Lemma chains_ext hs hs' n bs D C : (forall p, p ∈ D -> hs' !! p = hs !! p) -> chains_rep hs n bs D C -> chains_rep hs' n bs D C.
Proof using Type.
  intros H Hc. pose proof Hc as [C1 C2 C3]. split; [done| |].
  - intros i b Hi. destruct (C2 i b Hi) as [B1 B2 B3 B4 B5]. split; try done. eapply seg_ext; [|exact B4].
    intros p Hp. rewrite H; [done|]. apply (chain_sub _ _ _ _ _ _ Hc (lookup_lt_Some _ _ _ Hi) p Hp).
  - intros i p Hi. rewrite (C3 i p Hi). unfold in_bucket. split; intros [Hp Hb]; (split; [done|]); by rewrite H in * by done.
Qed.

Lemma chains_perm hs n bs D D' C : (forall p, p ∈ D' <-> p ∈ D) -> chains_rep hs n bs D C -> chains_rep hs n bs D' C.
Proof using Type. intros H [C1 C2 C3]. split; [done..|]. intros i p Hi. by rewrite H, C3. Qed.

Lemma elements_ext hs hs' L : (forall p, p ∈ L -> hs' !! p = hs !! p) -> elements hs L -> elements hs' L.
Proof using Type. intros H [Hn Hk Hi]. split; [done| |done]. intros p Hp. destruct (Hk p Hp) as (h & k & Hh & ?). exists h, k. by rewrite H. Qed.

Lemma elements_snoc hs L p : elements hs L -> keyed hs p -> (forall q, q ∈ L -> key q <> key p) -> elements hs (p :: L).
Proof using Type.
  intros [Hn Hk Hi] Hp Hne. split.
  - apply NoDup_cons. split; [|done]. intros Hin. by apply (Hne p).
  - intros q [->|Hq]%elem_of_cons; auto.
  - intros q r [->|Hq]%elem_of_cons [->|Hr]%elem_of_cons E; auto; [by destruct (Hne r)|by destruct (Hne q)].
Qed.

(** The addition once the list is in place. *)
Lemma add_to_table_spec hs first t L C p h :
  chains_rep hs (log2_num_buckets t) (buckets t) L C -> elements hs (p :: L) -> num_buckets t = 2 ^ log2_num_buckets t -> 5 <= log2_num_buckets t <= top ->
  hs !! p = Some h -> num_items t = Z.of_nat (length L) -> seg App hs None (L ++ [p]) None -> head (L ++ [p]) = Some first -> ut_tail t = p ->
  exists u', HASH_ADD_TO_TABLE true hs first t (hh_hashv h) p = Done u' /\ ut_rep u' (L ++ [p]) /\ forall q, is_Some (ut_hh u' !! q) <-> is_Some (hs !! q).
Proof using HN Hcount Hload Htop.
  intros Hc He Hnb Hlog Hh Hit Hs Hhd Htl. unfold HASH_ADD_TO_TABLE. set (t1 := set_items _ _ _).
  destruct (add_to_bkt_spec hs t1 L C p (HASH_TO_BKT (hh_hashv h) (num_buckets t1)) h) as (hs' & t' & C' & E & R & T1 & T2 & T3 & T4 & T5); try done.
  rewrite E. cbn [mbind outcome_bind fst snd]. eexists. split; [reflexivity|]. split.
  - unfold ut_rep; cbn [ut_head ut_hh]. assert (forall q, q ∈ L ++ [p] <-> q ∈ p :: L) as Hmem by (intros q; rewrite elem_of_app, list_elem_of_singleton, elem_of_cons; tauto).
    split; try done.
    + rewrite T3. cbn. pose proof (elements_few _ _ He) as Hfew. cbn in Hfew. rewrite Hit, u32_id, length_app by lia. cbn. lia.
    + by eapply relinked_seg_other.
    + rewrite T4. rewrite last_snoc. by rewrite <- Htl.
    + pose proof (relinked_elements _ _ _ _ _ R He) as He'. eapply elements_sub; [exact He'| |intros q Hq; by apply Hmem].
      rewrite Permutation_app_comm. apply He'.
    + exists C'. by eapply chains_perm.
  - intros q. cbn. by eapply relinked_dom.
Qed.

Definition mem_ok (m : hash_mem) : Prop := hm_table m = true /\ hm_buckets m = true /\ hm_expand m = true.

Lemma add_spec m u L p k : mem_ok m -> ut_rep u L -> key p = Some k -> adm k -> (forall q, q ∈ L -> key q <> Some k) -> is_Some (ut_hh u !! p) ->
  exists u', HASH_ADD key m u p = Done u' /\ ut_rep u' (L ++ [p]) /\ forall q, is_Some (ut_hh u' !! q) <-> is_Some (ut_hh u !! q).
Proof using HN Hcount Hload Htop.
  intros (M1 & M2 & M3) Hu Hk Ha Hne [h0 Hh0]. unfold HASH_ADD. rewrite Hk, M1, M2, M3. unfold get_hh. rewrite Hh0. cbn [mbind outcome_bind].
  set (h := {| hh_app := hh_app h0; hh_chain := hh_chain h0; hh_keylen := blen k; hh_hashv := HASH_JEN k |}).
  assert (p ∉ L) as HpL by (intros Hin; by apply (Hne p)). assert (forall q (hs : handles) h', q <> p -> <[p := h']> hs !! q = hs !! q) as Hins by (intros; by apply lookup_insert_ne).
  unfold ut_rep in Hu. destruct (ut_head u) as [ [first t]|].
  - destruct Hu as [T1 T2 T3 T4 T5 T6 T7 (C & Hc)]. set (hs0 := <[p := h]> (ut_hh u)).
    assert (forall q, q ∈ L -> hs0 !! q = ut_hh u !! q) as Hsame by (intros q Hq; apply Hins; by intros ->).
    assert (hs0 !! p = Some h) as Hhp by apply lookup_insert_eq.
    destruct (seg_append App hs0 L p (ut_tail t)) as (hs1 & hs2 & hs3 & E1 & E2 & E3 & R & S); [|apply T7|done|by exists h|done|].
    { eapply seg_ext; [|exact T4]. intros q Hq. by rewrite Hsame. }
    unfold HASH_APPEND_LIST. rewrite E1. cbn [mbind outcome_bind]. rewrite E2. cbn [mbind outcome_bind]. rewrite E3. cbn [mbind outcome_bind fst snd].
    destruct (relinked_handle _ _ _ _ _ _ R Hhp) as (h3 & Hh3 & Eh). injection Eh as Eh1 Eh2 Eh3.
    assert (keyed hs3 p) as Hkp by (exists h3, k; by rewrite Eh2, Eh3).
    destruct (add_to_table_spec hs3 first (set_items t (num_items t) p) L C p h3) as (u' & E & Hu' & Hd); try done.
    + eapply relinked_chains; [exact R|]. by eapply chains_ext.
    + apply elements_snoc; [|done|intros q Hq; rewrite Hk; by apply Hne]. eapply relinked_elements; [exact R|]. by eapply elements_ext.
    + rewrite head_app. by rewrite T5.
    + rewrite Eh3 in E. exists u'. split; [exact E|]. split; [done|]. intros q. rewrite Hd, (relinked_dom _ _ _ _ _ R). unfold hs0.
      destruct (decide (q = p)) as [->|Hq]; [|by rewrite Hins]. rewrite lookup_insert_eq, Hh0. split; intros _; by eexists.
  - subst L. cbn [negb andb]. set (h1 := set_links App h _). set (hs1 := <[p := h1]> (ut_hh u)). assert (hs1 !! p = Some h1) as Hhp by apply lookup_insert_eq.
    destruct (add_to_table_spec hs1 p (HASH_MAKE_TABLE p) [] (fun _ => []) p h1) as (u' & E & Hu' & Hd); try done.
    + cbn. split; [done| |].
      * intros i b [-> _]%lookup_replicate. split; try done; [cbn; lia|by apply NoDup_nil].
      * intros i q _. split; [by intros ?%not_elem_of_nil|by intros [?%not_elem_of_nil _] ].
    + apply elements_snoc; [split; [by apply NoDup_nil|by intros q ?%not_elem_of_nil|by intros q r ?%not_elem_of_nil]| |by intros q ?%not_elem_of_nil].
      exists h1, k. done.
    + unfold HASH_MAKE_TABLE, HASH_INITIAL_NUM_BUCKETS_LOG2. cbn. lia.
    + cbn. split; [|done]. exists h1. done.
    + exists u'. split; [exact E|]. split; [done|]. intros q. rewrite Hd. unfold hs1.
      destruct (decide (q = p)) as [->|Hq]; [|by rewrite Hins]. rewrite lookup_insert_eq, Hh0. split; intros _; by eexists.
Qed.

(** ** HASH_DELETE *)


Lemma del_in_bkt_spec hs n bs D C p h : chains_rep hs n bs D C -> 0 <= n <= 31 -> elements hs D -> p ∈ D -> hs !! p = Some h ->
  exists b hs' b', get_bucket bs (HASH_TO_BKT (hh_hashv h) (2 ^ n)) = Done b /\ HASH_DEL_IN_BKT hs b p = Done (hs', b') /\
  relinked Chain D hs hs' /\ exists C', chains_rep hs' n (<[bkt_index (hh_hashv h) n := b']> bs) (filter (fun q => q <> p) D) C'.
Proof using HN Hcount Htop.
  intros Hc Hn He HpD Hh. destruct (chains_bucket hs n bs D C h p Hc Hn Hh) as (b & Eb & Hb & [B1 B2 B3 B4 B5]).
  set (i := bkt_index (hh_hashv h) n) in *. pose proof (lookup_lt_Some _ _ _ Hb) as Hi. pose proof Hc as [C1 C2 C3].
  assert (p ∈ C i) as (c1 & c2 & Ec)%list_elem_of_split by (apply (C3 i p Hi); split; [done|]; by exists h).
  rewrite Ec in *. destruct (seg_unlink Chain hs c1 p c2 B4 B5) as ((h' & Hh' & Hl) & hs1 & hs' & E1 & E2 & R & S).
  assert (h' = h) as -> by congruence. cbn [get_links] in Hl.
  exists b, hs', {| hh_head := head (c1 ++ c2); bk_count := u32 (bk_count b - 1); expand_mult := expand_mult b |}. split; [exact Eb|]. split.
  { unfold HASH_DEL_IN_BKT, get_hh. rewrite Hh. cbn [mbind outcome_bind]. rewrite Hl. cbn [l_next l_prev]. rewrite E1. cbn [mbind outcome_bind].
    rewrite E2. cbn [mbind outcome_bind]. by rewrite B1, head_without. }
  assert (c1 ++ c2 ⊆ D) as Hsub.
  { intros q Hq. apply (chain_sub _ _ _ _ _ i Hc Hi). rewrite Ec. rewrite elem_of_app in *. destruct Hq; [by left|right; by right]. }
  assert (c1 ++ p :: c2 ≡ₚ p :: (c1 ++ c2)) as Hperm by (by rewrite Permutation_middle).
  pose proof B5 as B5'. rewrite Hperm in B5'. apply NoDup_cons in B5' as [Hpc Hnc].
  split; [by eapply relinked_mono|]. exists (fun j => if decide (j = i) then c1 ++ c2 else C j). split.
  - by rewrite length_insert.
  - intros j b'. destruct (decide (j = i)) as [->|Hj].
    + rewrite list_lookup_insert_eq by done. intros [= <-]. split; try done. cbn. rewrite B2, Hperm. cbn [length].
      rewrite u32_id; [lia|]. pose proof (elements_few _ _ (elements_sub _ _ _ He Hnc Hsub)). lia.
    + rewrite list_lookup_insert_ne by done. intros Hj'. destruct (C2 j b' Hj') as [D1 D2 D3 D4 D5]. split; try done.
      apply (relinked_seg _ _ _ _ _ _ _ R); [|done]. intros q Hq Hq'. apply Hj.
      apply (C3 j q (lookup_lt_Some _ _ _ Hj')) in Hq as [_ Hq]. assert (q ∈ C i) as Hqi by (rewrite Ec, Hperm; by right).
      apply (C3 i q Hi) in Hqi as [_ Hqi]. by eapply in_bucket_fun.
  - intros j q. rewrite length_insert. intros Hj. rewrite list_elem_of_filter, (relinked_bucket _ _ _ _ _ _ _ R). destruct (decide (j = i)) as [->|Hne].
    + pose proof (C3 i q Hi) as Hq3. rewrite Ec, Hperm, elem_of_cons in Hq3. split.
      * intros Hq. destruct (proj1 Hq3 (or_intror Hq)). split; [|done]. split; [|done]. by intros ->.
      * intros [ [Hqp HqD] Hqb]. by destruct (proj2 Hq3 (conj HqD Hqb)).
    + rewrite (C3 j q Hj). split; [|tauto]. intros [Hq Hb']. split; [|done]. split; [|done]. intros ->.
      assert (in_bucket hs n i p) as Hpi by (by exists h). apply Hne. by eapply in_bucket_fun.
Qed.


Lemma delete_spec u l1 p l2 : ut_rep u (l1 ++ p :: l2) ->
  exists u', HASH_DELETE u p = Done u' /\ ut_rep u' (l1 ++ l2) /\ forall q, is_Some (ut_hh u' !! q) <-> is_Some (ut_hh u !! q).
Proof using HN Hcount Htop.
  unfold ut_rep at 1, HASH_DELETE. destruct (ut_head u) as [ [first t]|]; [|intros E; symmetry in E; by apply app_cons_not_nil in E].
  intros [T1 T2 T3 T4 T5 T6 T7 (C & Hc)]. pose proof (el_nodup _ _ T7) as Hn. pose proof (filter_ne l1 l2 p Hn) as Hfil.
  destruct (seg_unlink App _ _ _ _ T4 Hn) as ((h & Hh & Hl) & hs1 & hs2 & E1 & E2 & R & S). cbn [get_links] in Hl.
  assert (l1 ++ l2 ⊆ l1 ++ p :: l2) as Hsub by (intros q; rewrite !elem_of_app; intros [?|?]; [by left|right; by right]).
  unfold get_hh. rewrite Hh. cbn [mbind outcome_bind]. rewrite Hl. cbn [l_prev l_next].
  destruct (decide (l1 ++ l2 = [])) as [ [-> ->]%app_nil|Hne]; [eexists; split; [reflexivity|done]|].
  set (tl := last (l1 ++ l2)). assert (is_Some tl) as [tv Etl] by (subst tl; destruct (last (l1 ++ l2)) eqn:El; [by eexists|by apply last_None in El]).
  assert ((if p =? ut_tail t then match last l1 with Some q => Done q | None => Fault NullDeref end else Done (ut_tail t)) = Done tv) as Htl.
  { subst tl. rewrite last_app in T6. destruct l2 as [|r l2].
    - cbn in T6. injection T6 as <-. rewrite Z.eqb_refl. rewrite app_nil_r in Etl. by rewrite Etl.
    - rewrite last_cons_cons in T6. rewrite last_app in Etl. destruct (last (r :: l2)) as [x|] eqn:El; [|by apply last_None in El].
      injection T6 as T6. injection Etl as <-. rewrite (proj2 (Z.eqb_neq p (ut_tail t))); [by rewrite T6|]. intros ->.
      apply last_Some_elem_of in El. apply NoDup_app in Hn as (_ & _ & [Hpl _]%NoDup_cons). apply Hpl. by rewrite <- T6. }
  assert (exists nh, match last l1 with Some _ => Done first | None => match head l2 with Some n => Done n | None => Fault NullDeref end end = Done nh /\ head (l1 ++ l2) = Some nh) as (nh & Hnh & Hhead).
  { destruct (last l1) as [q|] eqn:El.
    - exists first. split; [done|]. destruct l1 as [|a l1]; [done|exact T5].
    - apply last_None in El as ->. destruct l2 as [|r l2]; [done|]. by exists r. }
  destruct (relinked_handle _ _ _ _ _ _ R Hh) as (h2 & Hh2 & Eh). injection Eh as Eh1 Eh2 Eh3.
  pose proof (relinked_chains _ _ _ _ _ _ _ R Hc) as Hc2. pose proof (relinked_elements _ _ _ _ _ R T7) as He2.
  destruct (del_in_bkt_spec hs2 _ _ _ _ p h2 Hc2 ltac:(lia) He2 ltac:(apply elem_of_app; right; by left) Hh2) as (b & hs3 & b' & Eb & Ed & R3 & C' & Hc3).
  assert (exists u', (tl ← Done tv; hs ← set_next_opt App (ut_hh u) (last l1) (head l2);
      nh' ← match last l1 with Some _ => Done first | None => match head l2 with Some n => Done n | None => Fault NullDeref end end;
      hs ← set_prev_opt App hs (head l2) (last l1);
      b ← get_bucket (buckets t) (HASH_TO_BKT (hh_hashv h) (num_buckets t)); r ← HASH_DEL_IN_BKT hs b p;
      Done {| ut_hh := fst r; ut_head := Some (nh', set_items (set_bucket t (HASH_TO_BKT (hh_hashv h) (num_buckets t)) (snd r)) (u32 (num_items t - 1)) tl) |}) = Done u' /\
      ut_rep u' (l1 ++ l2) /\ forall q, is_Some (ut_hh u' !! q) <-> is_Some (ut_hh u !! q)) as (u' & E & Hu').
  { cbn [mbind outcome_bind]. rewrite E1. cbn [mbind outcome_bind]. rewrite Hnh. cbn [mbind outcome_bind]. rewrite E2. cbn [mbind outcome_bind].
    rewrite T2, <- Eh3, Eb. cbn [mbind outcome_bind]. rewrite Ed. cbn [mbind outcome_bind fst snd]. eexists. split; [reflexivity|]. split.
    - unfold ut_rep; cbn [ut_head ut_hh]. split; try done.
      + cbn. pose proof (elements_few _ _ T7) as Hfew. rewrite T3. rewrite !length_app in *. cbn [length] in *. rewrite u32_id; lia.
      + eapply relinked_seg_other; [exact R3|done|exact S].
      + eapply relinked_elements; [exact R3|]. eapply elements_sub; [exact He2| |done]. rewrite <- Hfil. by apply NoDup_filter.
      + exists C'. rewrite Hfil in Hc3. exact Hc3.
    - intros q. cbn. rewrite (relinked_dom _ _ _ _ _ R3). apply (relinked_dom _ _ _ _ _ R). }
  exists u'. rewrite <- Htl in E. split; [|done]. destruct (last l1) as [a|] eqn:El1, (head l2) as [c|] eqn:El2; try exact E.
  apply last_None in El1 as ->. by apply head_None in El2 as ->.
Qed.

(** ** HASH_ITER with HASH_DEL and free *)

Lemma free_rep u L p : ut_rep u L -> p ∉ L -> ut_rep (free_handle u p) L.
Proof using Type.
  unfold ut_rep, free_handle. cbn [ut_head ut_hh]. destruct (ut_head u) as [ [first t]|]; [|done]. intros [T1 T2 T3 T4 T5 T6 T7 (C & Hc)] Hp.
  assert (forall q, q ∈ L -> delete p (ut_hh u) !! q = ut_hh u !! q) as Hsame by (intros q Hq; apply lookup_delete_ne; by intros ->).
  split; try done; [|by eapply elements_ext|exists C; by eapply chains_ext].
  eapply seg_ext; [|exact T4]. intros q Hq. by rewrite Hsame.
Qed.

Lemma rep_next u p L : ut_rep u (p :: L) -> iter_next (ut_hh u) (Some p) = Done (head L).
Proof using Type.
  unfold ut_rep. destruct (ut_head u) as [ [first t]|]; [|done]. intros [_ _ _ [(h & Hh & Hl) _] _ _ _ _]. unfold iter_next, get_hh. rewrite Hh.
  cbn [mbind outcome_bind get_links] in *. rewrite Hl. cbn. by rewrite first_of_head.
Qed.

Lemma delete_all_loop_spec L : forall fuel u, (length L < fuel)%nat -> ut_rep u L ->
  exists u' tmp, iter_next (ut_hh u) (head L) = Done tmp /\ delete_all_loop fuel (head L) tmp u = Done (L, u') /\ ut_head u' = None /\
  forall q, is_Some (ut_hh u' !! q) <-> is_Some (ut_hh u !! q) /\ q ∉ L.
Proof using HN Hcount Htop.
  induction L as [|p L IH]; intros fuel u Hf Hu.
  { exists u, None. split; [done|]. split; [by destruct fuel|]. unfold ut_rep in Hu. split.
    - destruct (ut_head u) as [ [first t]|]; [|done]. by destruct Hu.
    - intros q. split; [intros ?; split; [done|by intros ?%not_elem_of_nil]|by intros [? _] ]. }
  destruct fuel as [|fuel]; [cbn in Hf; lia|]. cbn [head].
  destruct (delete_spec u [] p L Hu) as (u1 & E1 & Hu1 & D1). cbn [app] in Hu1.
  assert (p ∉ L) as HpL by (unfold ut_rep in Hu; destruct (ut_head u) as [ [first t]|]; [|done]; destruct Hu as [_ _ _ _ _ _ [Hn _ _] _]; by apply NoDup_cons in Hn as [? _]).
  destruct (IH fuel (free_handle u1 p)) as (u' & tmp & E2 & E3 & Hh & D2); [cbn in Hf; lia|by apply free_rep|].
  exists u', (head L). split; [by apply rep_next|]. split.
  { cbn [delete_all_loop]. rewrite E1. cbn [mbind outcome_bind]. rewrite E2. cbn [mbind outcome_bind]. by rewrite E3. }
  split; [done|]. intros q. rewrite D2. unfold free_handle; cbn [ut_hh]. rewrite lookup_delete_is_Some, D1, not_elem_of_cons.
  split; [intros [ [? ?] ?]; split; [done|]; split; [congruence|done]|intros (? & ? & ?); split; [|done]; split; [congruence|done] ].
Qed.

Lemma delete_all_spec u L : ut_rep u L ->
  exists u', hash_delete_all u = Done (L, u') /\ ut_head u' = None /\ forall q, is_Some (ut_hh u' !! q) <-> is_Some (ut_hh u !! q) /\ q ∉ L.
Proof using HN Hcount Htop.
  intros Hu. assert (fst <$> ut_head u = head L) as Hh.
  { unfold ut_rep in Hu. destruct (ut_head u) as [ [first t]|]; [|by subst L]. cbn. symmetry. apply Hu. }
  destruct (delete_all_loop_spec L (S (size (ut_hh u))) u) as (u' & tmp & E1 & E2 & E3); [|done|].
  { apply Nat.lt_succ_r. unfold ut_rep in Hu. destruct (ut_head u) as [ [first t]|]; [|subst L; cbn; lia]. destruct Hu as [_ _ _ H4 _ _ H7 _].
    apply nodup_size; [apply H7|]. intros p Hp. by eapply seg_lookup. }
  exists u'. unfold hash_delete_all. rewrite Hh, E1. cbn [mbind outcome_bind]. by rewrite E2.
Qed.

End Table.
