(* ===== verification/UtHashPool.v ===== *)
(** * UtHashPool: the session table is a finite map

    The session pool keeps its sessions in a uthash table keyed by the 16-bit
    [backend_sess_id]; SessionPool models that table as the finite map
    [htable].  Here the pool's four uses of the table are run on the table of
    UtHash as well, and every run answers the same: the finite map is what the
    hash table implements. *)

From S2P Require Import Prelude Bytes UtHash UtHashLinks UtHashSpec Mem HyperampQueue HyperampLinux Message Build BuildSpec Session Device Responses SessionPool SessionPoolSpec SessionPoolRun.
From stdpp Require Import base list numbers option gmap.
From Stdlib Require Import ZArith Lia.
#[local] Open Scope Z_scope.

(** ** The keys of the pool

    Session ids are 1..1024 (high_speed_init_pool).  With 1024 buckets no
    bucket has ten of them, so a table of sessions never outgrows 1024
    buckets. *)

Definition id_key (k : list Z) : Prop := exists id, 1 <= id <= 1024 /\ k = le_bytes 2 id.

Definition MAX_LOG2 : Z := 10.

Definition all_ids : list Z := map Z.of_nat (seq 1 1024).

Definition id_bucket (id : Z) : Z := HASH_TO_BKT (HASH_JEN (le_bytes 2 id)) (2 ^ MAX_LOG2).

(** How many of the ids fall into each bucket. *)
Definition count_in (m : gmap Z nat) (i : Z) : nat := default 0%nat (m !! i).
Definition bucket_loads (ids : list Z) : gmap Z nat := foldr (fun id m => <[id_bucket id := S (count_in m (id_bucket id))]> m) ∅ ids.

Lemma bucket_loads_spec ids i : count_in (bucket_loads ids) i = length (filter (fun id => id_bucket id = i) ids).
Proof.
  induction ids as [|id ids IH]; [done|]. cbn [bucket_loads foldr]. fold (bucket_loads ids). rewrite filter_cons. unfold count_in at 1.
  destruct (decide (id_bucket id = i)) as [->|Hne]; [by rewrite lookup_insert_eq, IH|]. rewrite lookup_insert_ne by done. exact IH.
Qed.

Lemma bucket_loads_small : forallb (fun p => (snd p <? 10)%nat) (map_to_list (bucket_loads all_ids)) = true.
Proof. vm_compute. reflexivity. Qed.

Lemma load_small i : (length (filter (fun id => id_bucket id = i) all_ids) < 10)%nat.
Proof.
  rewrite <- bucket_loads_spec. unfold count_in. destruct (bucket_loads all_ids !! i) as [n|] eqn:E; [|cbn; lia]. cbn.
  pose proof bucket_loads_small as H. rewrite forallb_forall in H. apply elem_of_map_to_list in E. apply list_elem_of_In in E.
  specialize (H _ E). by apply Nat.ltb_lt in H.
Qed.

Lemma id_keys_ids ks : NoDup ks -> Forall id_key ks -> exists ids, ks = map (le_bytes 2) ids /\ NoDup ids /\ ids ⊆ all_ids.
Proof.
  induction 1 as [|k ks Hk Hn IH]; [intros _; exists []; split; [done|]; split; [by apply NoDup_nil|by intros ? ?%not_elem_of_nil]|].
  intros [(id & Hid & ->) Hf]%Forall_cons. destruct (IH Hf) as (ids & -> & Hnd & Hs). exists (id :: ids). split; [done|]. split.
  - apply NoDup_cons. split; [|done]. intros Hin. apply Hk. apply list_elem_of_In, in_map, list_elem_of_In, Hin.
  - intros x [->|Hx]%elem_of_cons; [|by apply Hs]. apply list_elem_of_In, in_map_iff. exists (Z.to_nat id). split; [lia|]. apply in_seq. lia.
Qed.

Lemma id_keys_few ks : NoDup ks -> Forall id_key ks -> (length ks <= 1024)%nat.
Proof.
  intros Hn Hf. destruct (id_keys_ids ks Hn Hf) as (ids & -> & Hnd & Hs). rewrite length_map.
  apply NoDup_submseteq in Hs; [|done]. apply submseteq_length in Hs. unfold all_ids in Hs. by rewrite length_map, length_seq in Hs.
Qed.

Lemma id_keys_load ks i : NoDup ks -> Forall id_key ks -> (forall k, k ∈ ks -> bkt_index (HASH_JEN k) MAX_LOG2 = i) -> (length ks < 10)%nat.
Proof.
  intros Hn Hf Hb. destruct (id_keys_ids ks Hn Hf) as (ids & -> & Hnd & Hs). rewrite length_map.
  assert (ids ⊆ filter (fun id => id_bucket id = Z.of_nat i) all_ids) as Hs'.
  { intros id Hid. apply list_elem_of_filter. split; [|by apply Hs]. rewrite <- (Hb (le_bytes 2 id)); [|by apply list_elem_of_In, in_map, list_elem_of_In].
    unfold bkt_index, id_bucket. rewrite Z2Nat.id; [done|]. rewrite to_bkt_mod by (unfold MAX_LOG2; lia). apply Z.mod_pos_bound. reflexivity. }
  apply NoDup_submseteq in Hs'; [|done]. apply submseteq_length in Hs'. pose proof (load_small (Z.of_nat i)). lia.
Qed.

Lemma max_log_ok : 5 <= MAX_LOG2 <= 30.
Proof. unfold MAX_LOG2. lia. Qed.

Lemma max_ids_ok : Z.of_nat 1024 < 2 ^ 24.
Proof. reflexivity. Qed.

Lemma key_inj id id' : 0 <= id < 65536 -> 0 <= id' < 65536 -> le_bytes 2 id = le_bytes 2 id' -> id = id'.
Proof. intros H H' E. by rewrite <- (le_val16 id), E, le_val16. Qed.

(** ** The pool's uses of the table *)

(** The session objects and the table over them. *)
Record hashed_pool := { hp_sess : gmap Z BackendSession; hp_hash : uthash }.

Definition sess_key (ss : gmap Z BackendSession) (p : Z) : option (list Z) := (fun s => le_bytes 2 (backend_sess_id s)) <$> ss !! p.

(** high_speed_insert_sess. *)
Definition hashed_insert (m : hash_mem) (x : hashed_pool) (p : Z) : outcome (status * hashed_pool) :=
  match hp_sess x !! p with
  | None => Fault UseAfterFree
  | Some s =>
      r ← HASH_FIND (sess_key (hp_sess x)) (hp_hash x) (le_bytes 2 (backend_sess_id s));
      match r with
      | None => u ← HASH_ADD (sess_key (hp_sess x)) m (hp_hash x) p; Done (PROCESS_OK, {| hp_sess := hp_sess x; hp_hash := u |})
      | Some _ => Done (PROCESS_ERROR, x)
      end
  end.

(** high_speed_search_sess. *)
Definition hashed_search (x : hashed_pool) (id : Z) : outcome (option Z) := HASH_FIND (sess_key (hp_sess x)) (hp_hash x) (le_bytes 2 id).

(** HASH_DEL in high_speed_delete_sess. *)
Definition hashed_delete (x : hashed_pool) (p : Z) : outcome hashed_pool :=
  u ← HASH_DELETE (hp_hash x) p; Done {| hp_sess := hp_sess x; hp_hash := u |}.

(** high_speed_delete_all_sess. *)
Definition hashed_delete_all (x : hashed_pool) : outcome hashed_pool :=
  r ← hash_delete_all (hp_hash x);
  Done {| hp_sess := foldl (fun ss p => delete p ss) (hp_sess x) (fst r); hp_hash := snd r |}.

(** A session object is written: a new one comes with a handle of arbitrary
    content. *)
Definition hashed_store (junk : UT_hash_handle) (x : hashed_pool) (p : Z) (s : BackendSession) : hashed_pool :=
  {| hp_sess := <[p := s]> (hp_sess x);
     hp_hash := match hp_sess x !! p with
                | Some _ => hp_hash x
                | None => {| ut_hh := <[p := junk]> (ut_hh (hp_hash x)); ut_head := ut_head (hp_hash x) |}
                end |}.

Definition hashed_free (x : hashed_pool) (p : Z) : hashed_pool :=
  {| hp_sess := delete p (hp_sess x); hp_hash := free_handle (hp_hash x) p |}.

(** ** Runs *)

Inductive pool_op :=
  | PInsert (p : Z)
  | PSearch (id : Z)
  | PDelete (p : Z)
  | PDeleteAll
  | PStore (p : Z) (s : BackendSession)
  | PFree (p : Z).

Inductive pool_answer := AStatus (st : status) | AFound (p : option Z) | ANone.

Definition map_step (w : world) (op : pool_op) : outcome (pool_answer * world) :=
  match op with
  | PInsert p => r ← high_speed_insert_sess w p; Done (AStatus (fst r), snd r)
  | PSearch id => Done (AFound (high_speed_search_sess w id), w)
  | PDelete p => s ← get_sess w p; w ← hash_del w p (backend_sess_id s); Done (ANone, w)
  | PDeleteAll => Done (ANone, high_speed_delete_all_sess w)
  | PStore p s => Done (ANone, put_sess w p s)
  | PFree p => Done (ANone, free_sess w p)
  end.

(** [env]: the memory of an addition, and what a new handle holds. *)
Definition hash_step (env : hash_mem * UT_hash_handle) (x : hashed_pool) (op : pool_op) : outcome (pool_answer * hashed_pool) :=
  match op with
  | PInsert p => r ← hashed_insert (fst env) x p; Done (AStatus (fst r), snd r)
  | PSearch id => r ← hashed_search x id; Done (AFound r, x)
  | PDelete p => x ← hashed_delete x p; Done (ANone, x)
  | PDeleteAll => x ← hashed_delete_all x; Done (ANone, x)
  | PStore p s => Done (ANone, hashed_store (snd env) x p s)
  | PFree p => Done (ANone, hashed_free x p)
  end.

Fixpoint map_run (w : world) (ops : list pool_op) : outcome (list pool_answer * world) :=
  match ops with
  | [] => Done ([], w)
  | op :: ops => r ← map_step w op; rs ← map_run (snd r) ops; Done (fst r :: fst rs, snd rs)
  end.

Fixpoint hash_run (x : hashed_pool) (ops : list (pool_op * (hash_mem * UT_hash_handle))) : outcome (list pool_answer * hashed_pool) :=
  match ops with
  | [] => Done ([], x)
  | (op, env) :: ops => r ← hash_step env x op; rs ← hash_run (snd r) ops; Done (fst r :: fst rs, snd rs)
  end.

(** What the pool keeps to: ids are session ids, an object in the table keeps
    its id and is not freed. *)
Definition op_ok (w : world) (op : pool_op) : Prop :=
  match op with
  | PInsert p => forall s, w_sess w !! p = Some s -> 1 <= backend_sess_id s <= 1024
  | PSearch id => 0 <= id < 65536
  | PStore p s => forall id, htable (w_pool w) !! id = Some p -> id = backend_sess_id s
  | PFree p => forall id, htable (w_pool w) !! id <> Some p
  | PDelete _ | PDeleteAll => True
  end.

Fixpoint ops_ok (w : world) (ops : list (pool_op * (hash_mem * UT_hash_handle))) : Prop :=
  match ops with
  | [] => True
  | (op, env) :: ops => op_ok w op /\ mem_ok (fst env) /\ forall r, map_step w op = Done r -> ops_ok (snd r) ops
  end.

(** ** The simulation *)

Lemma rep_ext key key' adm N top u u' L :
  ut_head u' = ut_head u -> (forall p, p ∈ L -> key' p = key p /\ ut_hh u' !! p = ut_hh u !! p) -> ut_rep key adm N top u L -> ut_rep key' adm N top u' L.
Proof.
  unfold ut_rep. intros ->. destruct (ut_head u) as [ [first t]|]; [|done]. intros H [T1 T2 T3 T4 T5 T6 [E1 E2 E3] (C & Hc)].
  assert (forall p, p ∈ L -> ut_hh u' !! p = ut_hh u !! p) as Hh by (intros p Hp; by apply H).
  split; try done; [|split; [done| |]|exists C; by eapply chains_ext].
  - eapply seg_ext; [|exact T4]. intros p Hp. by rewrite Hh.
  - intros p Hp. destruct (E2 p Hp) as (h & k & A1 & A2 & A3). exists h, k. destruct (H p Hp) as [-> ->]. done.
  - intros p q Hp Hq. destruct (H p Hp) as [-> _], (H q Hq) as [-> _]. by apply E3.
Qed.

Abbreviation table_holds x L := (ut_rep (sess_key (hp_sess x)) id_key 1024 MAX_LOG2 (hp_hash x) L).

Record pool_table (w : world) (x : hashed_pool) (L : list Z) : Prop := {
  pt_sess : hp_sess x = w_sess w;
  pt_dom : forall p, is_Some (ut_hh (hp_hash x) !! p) <-> is_Some (w_sess w !! p);
  pt_rep : table_holds x L;
  pt_table : forall id p, htable (w_pool w) !! id = Some p <-> p ∈ L /\ exists s, w_sess w !! p = Some s /\ backend_sess_id s = id;
  pt_ids : forall id p, htable (w_pool w) !! id = Some p -> 1 <= id <= 1024 }.

Lemma member_keyed key adm N top u L p : ut_rep key adm N top u L -> p ∈ L -> keyed key adm (ut_hh u) p.
Proof.
  unfold ut_rep. destruct (ut_head u) as [ [first t]|]; [|by intros -> ?%not_elem_of_nil]. intros [_ _ _ _ _ _ T7 _]. apply T7.
Qed.

Lemma rep_nodup key adm N top u L : ut_rep key adm N top u L -> NoDup L.
Proof. unfold ut_rep. destruct (ut_head u) as [ [first t]|]; [|intros ->; by apply NoDup_nil]. intros H. apply H. Qed.

Lemma member_sess w x L p : pool_table w x L -> p ∈ L -> exists s, w_sess w !! p = Some s /\ htable (w_pool w) !! backend_sess_id s = Some p.
Proof.
  intros [Hs _ Hr Ht _] Hp. destruct (member_keyed _ _ _ _ _ _ _ Hr Hp) as (h & k & _ & Hk & _). unfold sess_key in Hk. rewrite Hs in Hk.
  destruct (w_sess w !! p) as [s|] eqn:E; [|done]. exists s. split; [done|]. apply Ht. split; [done|]. by exists s.
Qed.

(** Searching. *)
Lemma search_agrees w x L id : pool_table w x L -> 0 <= id < 65536 -> hashed_search x id = Done (htable (w_pool w) !! id).
Proof.
  intros H Hid. pose proof H as [Hs _ Hr Ht Hi]. unfold hashed_search.
  destruct (hash_find_spec _ _ _ _ max_log_ok _ _ (le_bytes 2 id) Hr) as (r & -> & Hres). f_equal. destruct r as [p|].
  - destruct Hres as [Hp Hk]. destruct (member_sess _ _ _ _ H Hp) as (s & Es & Eh). unfold sess_key in Hk. rewrite Hs, Es in Hk. injection Hk as Hk.
    pose proof (Hi _ _ Eh) as Hrange.
    assert (backend_sess_id s = id) as <-; [|by symmetry]. apply key_inj; [lia|done|]. cbn. congruence.
  - destruct (htable (w_pool w) !! id) as [p|] eqn:E; [|done]. exfalso. apply Ht in E as (Hp & s & Es & <-). apply (Hres p Hp). unfold sess_key. by rewrite Hs, Es.
Qed.

Lemma search_member w x L s p : pool_table w x L -> w_sess w !! p = Some s -> 1 <= backend_sess_id s <= 1024 ->
  htable (w_pool w) !! backend_sess_id s = None -> forall q, q ∈ L -> sess_key (hp_sess x) q <> Some (le_bytes 2 (backend_sess_id s)).
Proof.
  intros H Hs Hid Hn q Hq E. destruct (member_sess _ _ _ _ H Hq) as (t & Et & Eh). unfold sess_key in E. rewrite (pt_sess _ _ _ H), Et in E.
  injection E as E. pose proof (pt_ids _ _ _ H _ _ Eh). assert (backend_sess_id t = backend_sess_id s) as Eq by (apply key_inj; [lia|lia|cbn; congruence]). congruence.
Qed.

Lemma insert_agrees w x L p m r : pool_table w x L -> op_ok w (PInsert p) -> mem_ok m -> high_speed_insert_sess w p = Done r ->
  exists x' L', hashed_insert m x p = Done (fst r, x') /\ pool_table (snd r) x' L'.
Proof.
  intros H Hok Hm E. unfold high_speed_insert_sess, get_sess in E. unfold hashed_insert. rewrite (pt_sess _ _ _ H).
  destruct (w_sess w !! p) as [s|] eqn:Es; [|discriminate E]. cbn [mbind outcome_bind] in E. specialize (Hok s Es).
  pose proof (search_agrees w x L (backend_sess_id s) H ltac:(lia)) as Hf. unfold hashed_search in Hf. rewrite (pt_sess _ _ _ H) in Hf. rewrite Hf. cbn [mbind outcome_bind].
  destruct (htable (w_pool w) !! backend_sess_id s) as [q|] eqn:Eh; injection E as <-; [by exists x, L|].
  pose proof (search_member _ _ _ _ _ H Es Hok Eh) as Hfresh. pose proof (pt_sess _ _ _ H) as Hss.
  assert (sess_key (hp_sess x) p = Some (le_bytes 2 (backend_sess_id s))) as Hk by (unfold sess_key; by rewrite Hss, Es).
  destruct (add_spec _ _ _ _ max_log_ok max_ids_ok id_keys_few id_keys_load m _ L p _ Hm (pt_rep _ _ _ H) Hk) as (u' & Eu & Hu & Hd); [by exists (backend_sess_id s)|exact Hfresh|apply (pt_dom _ _ _ H); by eexists|].
  rewrite Hss in Eu. rewrite Eu. cbn [mbind outcome_bind fst snd]. eexists _, (L ++ [p]). split; [reflexivity|].
  assert (p ∉ L) as HpL by (intros Hin; by apply (Hfresh p Hin)).
  split; cbn; try done; [by intros q; rewrite Hd; apply H|by rewrite <- Hss| |].
  - intros id q. rewrite elem_of_app, list_elem_of_singleton. split.
    + intros [ [<- <-]|[Hne Hq] ]%lookup_insert_Some; [split; [by right|by exists s]|]. apply (pt_table _ _ _ H) in Hq as [Hq Hs']. split; [by left|done].
    + intros [ [Hq| ->] (t & Ht & <-)].
      * assert (htable (w_pool w) !! backend_sess_id t = Some q) as Hq' by (apply (pt_table _ _ _ H); split; [done|by exists t]).
        rewrite lookup_insert_ne; [done|]. intros E. congruence.
      * assert (t = s) as -> by congruence. apply lookup_insert_eq.
  - intros id q [ [<- <-]|[_ Hq] ]%lookup_insert_Some; [done|]. by eapply (pt_ids _ _ _ H).
Qed.

Lemma delete_agrees w x L p s w' : pool_table w x L -> w_sess w !! p = Some s -> hash_del w p (backend_sess_id s) = Done w' ->
  exists x' L', hashed_delete x p = Done x' /\ pool_table w' x' L'.
Proof.
  intros H Hs E. unfold hash_del in E. destruct (htable (w_pool w) !! backend_sess_id s) as [q|] eqn:Eh; [|discriminate E].
  destruct (Z.eqb_spec q p) as [->|]; [|discriminate E]. injection E as <-.
  pose proof Eh as ((l1 & l2 & ->)%list_elem_of_split & _)%(pt_table _ _ _ H).
  destruct (delete_spec _ _ _ _ max_log_ok max_ids_ok id_keys_few _ _ _ _ (pt_rep _ _ _ H)) as (u' & Eu & Hu & Hd).
  unfold hashed_delete. rewrite Eu. cbn [mbind outcome_bind]. eexists _, (l1 ++ l2). split; [reflexivity|].
  pose proof (rep_nodup _ _ _ _ _ _ (pt_rep _ _ _ H)) as Hn. assert (p ∉ l1 ++ l2) as Hp by (rewrite <- Permutation_middle in Hn; by apply NoDup_cons in Hn as [? _]).
  assert (forall q, q ∈ l1 ++ p :: l2 <-> q = p \/ q ∈ l1 ++ l2) as Hin by (intros q; rewrite !elem_of_app, elem_of_cons; tauto).
  split; cbn; [apply H|by intros q; rewrite Hd; apply H|exact Hu| |].
  - intros id q. rewrite lookup_delete_Some, (pt_table _ _ _ H), Hin. split.
    + intros [Hne [ [->|Hq] Ht] ]; [|done]. destruct Ht as (t & Ht & <-). destruct Hne. congruence.
    + intros [Hq (t & Ht & <-)]. split; [|split; [by right|by exists t] ]. intros Heq.
      assert (htable (w_pool w) !! backend_sess_id t = Some q) as E by (apply (pt_table _ _ _ H); split; [apply Hin; by right|by exists t]).
      rewrite <- Heq in E. assert (q = p) as -> by congruence. done.
  - intros id q [_ Hq]%lookup_delete_Some. by eapply (pt_ids _ _ _ H).
Qed.

(** Emptying the pool. *)
Lemma delete_all_sess_world w q :
  w_pool (high_speed_delete_all_sess w) = set_htable (w_pool w) ∅ (sess_num (w_pool w)) /\
  ((exists id, htable (w_pool w) !! id = Some q) -> w_sess (high_speed_delete_all_sess w) !! q = None) /\
  ((forall id, htable (w_pool w) !! id <> Some q) -> w_sess (high_speed_delete_all_sess w) !! q = w_sess w !! q).
Proof.
  unfold high_speed_delete_all_sess. set (w0 := with_pool w _). change (w_sess w) with (w_sess w0).
  change (set_htable (w_pool w) ∅ (sess_num (w_pool w))) with (w_pool w0). generalize (htable (w_pool w)). intros h.
  apply (map_fold_weak_ind (fun r m => w_pool r = w_pool w0 /\ ((exists id, m !! id = Some q) -> w_sess r !! q = None) /\
    ((forall id, m !! id <> Some q) -> w_sess r !! q = w_sess w0 !! q))).
  - split; [done|]. split; [intros [id Hid]; by rewrite lookup_empty in Hid|done].
  - intros i p m r Hi (H1 & H2 & H3). split; [done|]. unfold free_sess, with_sess; cbn. destruct (decide (p = q)) as [->|Hne].
    + split; [intros _; apply lookup_delete_eq|]. intros Hn. destruct (Hn i). apply lookup_insert_eq.
    + rewrite lookup_delete_ne by done. split.
      * intros [id [ [_ Hp]|[_ Hid] ]%lookup_insert_Some]; [done|]. apply H2. by exists id.
      * intros Hn. apply H3. intros id Hid. apply (Hn id). rewrite lookup_insert_ne; [done|]. intros ->. congruence.
Qed.

Lemma foldl_delete (l : list Z) : forall (ss : gmap Z BackendSession) q,
  foldl (fun ss p => delete p ss) ss l !! q = if decide (q ∈ l) then None else ss !! q.
Proof.
  induction l as [|p l IH]; intros ss q; cbn [foldl]; [by rewrite decide_False by apply not_elem_of_nil|]. rewrite IH.
  destruct (decide (q ∈ l)) as [Hq|Hq]; [by rewrite decide_True by by right|]. destruct (decide (q = p)) as [->|Hne].
  - rewrite decide_True by by left. apply lookup_delete_eq.
  - rewrite decide_False by (intros [?|?]%elem_of_cons; done). by apply lookup_delete_ne.
Qed.

Lemma delete_all_agrees w x L : pool_table w x L ->
  exists x', hashed_delete_all x = Done x' /\ pool_table (high_speed_delete_all_sess w) x' [].
Proof.
  intros H. destruct (delete_all_spec _ _ _ _ max_log_ok max_ids_ok id_keys_few _ _ (pt_rep _ _ _ H)) as (u' & Eu & Hh & Hd).
  unfold hashed_delete_all. rewrite Eu. cbn [mbind outcome_bind fst snd]. eexists. split; [reflexivity|].
  assert (forall q, w_sess (high_speed_delete_all_sess w) !! q = if decide (q ∈ L) then None else w_sess w !! q) as Hw.
  { intros q. destruct (delete_all_sess_world w q) as (_ & H1 & H2). case_decide as Hq.
    - apply H1. destruct (member_sess _ _ _ _ H Hq) as (s & _ & Hs). by eexists.
    - apply H2. intros id Hid. apply (pt_table _ _ _ H) in Hid as [Hid _]. done. }
  split; cbn.
  - apply map_eq. intros q. by rewrite foldl_delete, Hw, (pt_sess _ _ _ H).
  - intros q. rewrite Hd, Hw, (pt_dom _ _ _ H). case_decide; [|tauto]. split; [tauto|intros [? ?]; done].
  - unfold ut_rep. by rewrite Hh.
  - intros id p. rewrite (proj1 (delete_all_sess_world w p)). cbn. rewrite lookup_empty. split; [done|by intros [?%not_elem_of_nil _] ].
  - intros id p. rewrite (proj1 (delete_all_sess_world w p)). cbn. by rewrite lookup_empty.
Qed.

(** Writing and freeing session objects. *)
Lemma store_agrees w x L p s junk : pool_table w x L -> op_ok w (PStore p s) -> pool_table (put_sess w p s) (hashed_store junk x p s) L.
Proof.
  intros H Hok. cbn in Hok. pose proof H as [Hs Hd Hr Ht Hi].
  assert (p ∈ L -> exists t, w_sess w !! p = Some t /\ backend_sess_id t = backend_sess_id s) as Hmem.
  { intros Hp. destruct (member_sess _ _ _ _ H Hp) as (t & Et & Eh). exists t. split; [done|by apply Hok]. }
  split; cbn.
  - by rewrite Hs.
  - intros q. rewrite Hs. destruct (w_sess w !! p) as [t|] eqn:Ep; cbn [ut_hh]; rewrite ?lookup_insert_is_Some, ?Hd.
    + split; [intros Hq; destruct (decide (p = q)); [by left|by right]|]. intros [ <-|[_ ?] ]; [by eexists|done].
    + tauto.
  - eapply rep_ext; [..|exact Hr].
    + by destruct (hp_sess x !! p).
    + intros q Hq. unfold sess_key. cbn. split.
      * destruct (decide (q = p)) as [->|Hne]; [|by rewrite lookup_insert_ne]. rewrite lookup_insert_eq, Hs. destruct (Hmem Hq) as (t & -> & E). cbn. by rewrite E.
      * rewrite Hs. destruct (w_sess w !! p) as [t|] eqn:Ep; [done|]. cbn. apply lookup_insert_ne. intros ->. by destruct (Hmem Hq) as (t & Et & _); rewrite Et in Ep.
  - intros id q. rewrite Ht. split; intros [Hq (t & Et & <-)]; (split; [done|]).
    + destruct (decide (q = p)) as [->|Hne]; [|exists t; by rewrite lookup_insert_ne]. exists s. rewrite lookup_insert_eq. split; [done|].
      destruct (Hmem Hq) as (t' & Et' & E). congruence.
    + apply lookup_insert_Some in Et as [ [<- <-]|[_ Et] ]; [|by exists t]. destruct (Hmem Hq) as (t' & Et' & E). by exists t'.
  - exact Hi.
Qed.

Lemma free_agrees w x L p : pool_table w x L -> op_ok w (PFree p) -> pool_table (free_sess w p) (hashed_free x p) L.
Proof.
  intros H Hok. cbn in Hok. pose proof H as [Hs Hd Hr Ht Hi].
  assert (p ∉ L) as Hp by (intros Hp; destruct (member_sess _ _ _ _ H Hp) as (s & _ & E); by apply (Hok _ E)).
  assert (forall q, q ∈ L -> p <> q) as Hne by (by intros q Hq ->).
  split; cbn.
  - by rewrite Hs.
  - intros q. by rewrite !lookup_delete_is_Some, Hd.
  - eapply rep_ext; [..|exact Hr]; [done|]. intros q Hq. unfold sess_key. cbn. rewrite !lookup_delete_ne by auto. done.
  - intros id q. rewrite Ht. split; intros [Hq (t & Et & <-)]; (split; [done|]); exists t; [by rewrite lookup_delete_ne by auto|].
    apply lookup_delete_Some in Et as [_ Et]. done.
  - exact Hi.
Qed.

Lemma step_agrees w x L op env r : pool_table w x L -> op_ok w op -> mem_ok (fst env) -> map_step w op = Done r ->
  exists x' L', hash_step env x op = Done (fst r, x') /\ pool_table (snd r) x' L'.
Proof.
  intros H Hok Hm E. destruct op as [p|id|p| |p s|p]; cbn [map_step hash_step] in *.
  - apply bind_Done in E as (a & Ea & [= <-]). destruct (insert_agrees _ _ _ _ _ _ H Hok Hm Ea) as (x' & L' & -> & Hx'). cbn. by exists x', L'.
  - injection E as <-. exists x, L. rewrite (search_agrees _ _ _ id H Hok). done.
  - apply bind_Done in E as (s & Es & E). apply bind_Done in E as (w' & Ew & [= <-]). unfold get_sess in Es.
    destruct (w_sess w !! p) as [t|] eqn:Et; [|discriminate Es]. injection Es as ->.
    destruct (delete_agrees _ _ _ _ _ _ H Et Ew) as (x' & L' & -> & Hx'). cbn. by exists x', L'.
  - injection E as <-. destruct (delete_all_agrees _ _ _ H) as (x' & -> & Hx'). cbn. by exists x', [].
  - injection E as <-. exists (hashed_store (snd env) x p s), L. split; [done|]. by apply store_agrees.
  - injection E as <-. exists (hashed_free x p), L. split; [done|]. by apply free_agrees.
Qed.

(** The table of a pool before its first session. *)
Definition empty_hashed (w : world) (hs : gmap Z UT_hash_handle) : hashed_pool := {| hp_sess := w_sess w; hp_hash := {| ut_hh := hs; ut_head := None |} |}.

Lemma empty_agrees w hs : htable (w_pool w) = ∅ -> (forall p, is_Some (hs !! p) <-> is_Some (w_sess w !! p)) -> pool_table w (empty_hashed w hs) [].
Proof.
  intros Hh Hd. split; try done; intros id p; rewrite Hh, lookup_empty; [|done]. split; [done|by intros [?%not_elem_of_nil _] ].
Qed.

Lemma runs_agree ops : forall w x L r, pool_table w x L -> ops_ok w ops -> map_run w (map fst ops) = Done r ->
  exists x' L', hash_run x ops = Done (fst r, x') /\ pool_table (snd r) x' L'.
Proof.
  induction ops as [|[op env] ops IH]; intros w x L r H Hok E; cbn [map fst map_run hash_run] in *; [injection E as <-; by exists x, L|].
  destruct Hok as (Hop & Hm & Hnext). apply bind_Done in E as (a & Ea & E). apply bind_Done in E as (b & Eb & [= <-]).
  destruct (step_agrees _ _ _ _ env _ H Hop Hm Ea) as (x1 & L1 & -> & H1). cbn [mbind outcome_bind fst snd].
  destruct (IH _ _ _ _ H1 (Hnext _ Ea) Eb) as (x' & L' & -> & H'). cbn [mbind outcome_bind fst snd]. by exists x', L'.
Qed.

(** The number of items and of buckets. *)
Lemma table_size w x L : pool_table w x L ->
  match ut_head (hp_hash x) with
  | None => htable (w_pool w) = ∅
  | Some (_, t) => num_items t = Z.of_nat (size (htable (w_pool w))) /\ 32 <= num_buckets t <= 1024
  end.
Proof.
  intros H. pose proof H as [Hs Hd Hr Ht Hi]. pose proof (rep_nodup _ _ _ _ _ _ Hr) as Hn.
  assert (length L = size (htable (w_pool w))) as Hsize.
  { set (img := map snd (map_to_list (htable (w_pool w)))). assert (length img = size (htable (w_pool w))) as <- by (unfold img; by rewrite length_map, length_map_to_list).
    apply Permutation_length, NoDup_Permutation; [done| |].
    - apply NoDup_fmap_2_strong; [|apply NoDup_map_to_list]. intros [i p] [j q] Hip%elem_of_map_to_list Hjq%elem_of_map_to_list; cbn. intros <-.
      apply Ht in Hip as (_ & s & Es & <-), Hjq as (_ & t & Et & <-). congruence.
    - intros p. unfold img. rewrite list_elem_of_fmap. split.
      + intros Hp. destruct (member_sess _ _ _ _ H Hp) as (s & _ & E). exists (backend_sess_id s, p). split; [done|]. by apply elem_of_map_to_list.
      + intros ([i q] & -> & Hq%elem_of_map_to_list). by apply Ht in Hq as [Hq _]. }
  unfold ut_rep in Hr. destruct (ut_head (hp_hash x)) as [ [first t]|].
  - destruct Hr as [T1 T2 T3 _ _ _ _ _]. rewrite T3, Hsize. split; [done|]. rewrite T2. unfold MAX_LOG2 in T1.
    split; [change 32 with (2 ^ 5)|change 1024 with (2 ^ 10)]; apply Z.pow_le_mono_r; lia.
  - subst L. symmetry in Hsize. by apply map_size_empty_iff in Hsize.
Qed.

(** C21. The session table is what the code implements with uthash.  Start
    from an empty table and run any sequence of insertions, searches,
    deletions, writes and frees of session objects and emptyings of the pool,
    as the pool performs them: every operation on the hash table (Jenkins'
    hash of the 16-bit id, bucket chains and insertion order as doubly linked
    lists, buckets doubled and their elements redistributed when a chain grows)
    returns, answers what the finite map of the model answers, and leaves
    exactly the sessions of the map in the table; and the table never has more
    than 1024 buckets, none with ten sessions at that size. *)
Theorem session_table_is_finite_map w hs ops r :
  htable (w_pool w) = ∅ -> (forall p, is_Some (hs !! p) <-> is_Some (w_sess w !! p)) -> ops_ok w ops -> map_run w (map fst ops) = Done r ->
  exists x', hash_run (empty_hashed w hs) ops = Done (fst r, x') /\ hp_sess x' = w_sess (snd r) /\
  (forall id, 0 <= id < 65536 -> hashed_search x' id = Done (htable (w_pool (snd r)) !! id)) /\
  match ut_head (hp_hash x') with
  | None => htable (w_pool (snd r)) = ∅
  | Some (_, t) => num_items t = Z.of_nat (size (htable (w_pool (snd r)))) /\ 32 <= num_buckets t <= 1024
  end.
Proof.
  intros Hh Hd Hok E. destruct (runs_agree ops w _ _ _ (empty_agrees w hs Hh Hd) Hok E) as (x' & L & Ex & H). exists x'. split; [exact Ex|].
  split; [apply H|]. split; [intros id; by eapply search_agrees|]. by apply (table_size _ _ L).
Qed.

(** ** Witness *)

Definition demo_sess (id : Z) : BackendSession := active_session demo_junk demo_para id 5 500 10.

Definition demo_handle : UT_hash_handle :=
  {| hh_app := {| l_prev := Some 3; l_next := None |}; hh_chain := {| l_prev := None; l_next := Some 4 |}; hh_keylen := 9; hh_hashv := 9 |}.

Definition demo_hash_env : hash_mem * UT_hash_handle := ({| hm_table := true; hm_buckets := true; hm_expand := true |}, demo_handle).

(** Two sessions come; a third with the id of the first is refused; one goes. *)
Definition demo_ops : list (pool_op * (hash_mem * UT_hash_handle)) :=
  map (fun op => (op, demo_hash_env))
    [PStore 500 (demo_sess 1); PInsert 500; PStore 600 (demo_sess 2); PInsert 600; PStore 700 (demo_sess 1); PInsert 700; PSearch 1;
     PDelete 500; PFree 500; PSearch 1; PSearch 2].

Definition demo_answers : list pool_answer :=
  [ANone; AStatus PROCESS_OK; ANone; AStatus PROCESS_OK; ANone; AStatus PROCESS_ERROR; AFound (Some 500); ANone; ANone; AFound None; AFound (Some 600)].

Lemma demo_map_run : exists w', map_run (demo_start demo_tx) (map fst demo_ops) = Done (demo_answers, w').
Proof. eexists. vm_compute. reflexivity. Qed.

(** The side conditions, decided. *)
Definition op_checked (w : world) (op : pool_op) : bool :=
  match op with
  | PInsert p => match w_sess w !! p with Some s => (1 <=? backend_sess_id s) && (backend_sess_id s <=? 1024) | None => true end
  | PSearch id => (0 <=? id) && (id <? 65536)
  | PStore p s => forallb (fun e => negb (snd e =? p) || (fst e =? backend_sess_id s)) (map_to_list (htable (w_pool w)))
  | PFree p => forallb (fun e => negb (snd e =? p)) (map_to_list (htable (w_pool w)))
  | PDelete _ | PDeleteAll => true
  end.

Lemma op_checked_ok w op : op_checked w op = true -> op_ok w op.
Proof.
  destruct op as [p|id|p| |p s|p]; cbn; try done.
  - intros H s Hs. rewrite Hs in H. lia.
  - lia.
  - rewrite forallb_forall. intros H id Hid%elem_of_map_to_list%list_elem_of_In. specialize (H _ Hid). cbn in H. rewrite Z.eqb_refl in H. cbn in H. lia.
  - rewrite forallb_forall. intros H id Hid%elem_of_map_to_list%list_elem_of_In. specialize (H _ Hid). cbn in H. by rewrite Z.eqb_refl in H.
Qed.

Definition mem_checked (m : hash_mem) : bool := hm_table m && hm_buckets m && hm_expand m.

Fixpoint ops_checked (w : world) (ops : list (pool_op * (hash_mem * UT_hash_handle))) : bool :=
  match ops with
  | [] => true
  | (op, env) :: ops => op_checked w op && mem_checked (fst env) && match map_step w op with Done r => ops_checked (snd r) ops | _ => true end
  end.

Lemma ops_checked_ok ops : forall w, ops_checked w ops = true -> ops_ok w ops.
Proof.
  induction ops as [|[op env] ops IH]; intros w; cbn [ops_checked ops_ok]; [done|]. rewrite !andb_true_iff. intros [ [H1 H2] H3].
  split; [by apply op_checked_ok|]. split; [unfold mem_checked in H2; rewrite !andb_true_iff in H2; unfold mem_ok; tauto|].
  intros r E. rewrite E in H3. by apply IH.
Qed.

Lemma session_table_is_finite_map_witness :
  exists x', hash_run (empty_hashed (demo_start demo_tx) ∅) demo_ops = Done (demo_answers, x') /\ hashed_search x' 2 = Done (Some 600).
Proof.
  destruct demo_map_run as [w' E].
  destruct (session_table_is_finite_map (demo_start demo_tx) ∅ demo_ops (demo_answers, w')) as (x' & Ex & _ & Hf & _).
  - reflexivity.
  - intros p. cbn. rewrite !lookup_empty. split; intros [? Hp]; discriminate Hp.
  - apply ops_checked_ok. vm_compute. reflexivity.
  - exact E.
  - exists x'. split; [exact Ex|]. rewrite (Hf 2) by lia. f_equal.
    assert (match map_run (demo_start demo_tx) (map fst demo_ops) with Done r => htable (w_pool (snd r)) !! 2 | _ => None end = Some 600) as H by (vm_compute; reflexivity).
    rewrite E in H. exact H.
Defined.
