(* ===== verification/SessionData.v ===== *)
(** * SessionData: moving data through a session

    high_speed_data_process_f2b/b2f/nns of src/session_pool.c (lines
    1046-1285): socket writes of the frontend's segments, transfer of received
    segments to the TX ring, and reading the socket into new segments.  The
    results of getsockopt, send, ioctl, malloc and read are arguments. *)

From S2P Require Import Prelude Bytes Mem HyperampQueue HyperampQueueSpec HyperampLinux ByteStore Message Build BuildSpec Session Responses SessionPool.
From stdpp Require Import base list numbers option gmap.
From Stdlib Require Import ZArith Lia.
#[local] Open Scope Z_scope.

(** ** Frontend to network *)

(** The walk over [msg_f2b].  [send k] is what the [k]-th send returns (-1 on
    error).  Result: status, the segments still queued, the buffers handed to
    send with the byte count each returned. *)
Fixpoint f2b_loop (send : nat -> Z) (k : nat) (buf_size : Z) (segs : list SessMsgSeg)
  : outcome (status * list SessMsgSeg * list (list Z * Z)) :=
  match segs with
  | [] => Done (PROCESS_OK, [], [])
  | seg :: rest =>
      match seg_data seg with
      | Some d =>
          if 0 <? seg_len seg then
            if seg_len seg <? buf_size then
              bytes ← bread d 0 (seg_len seg);
              let ret := send k in
              if ret =? -1 then Done (PROCESS_ERROR, segs, [])
              else
                r ← f2b_loop send (S k) (buf_size - ret) rest;
                let '(st, q, sent) := r in
                Done (st, q, (bytes, ret) :: sent)
            else Done (PROCESS_AGAIN, segs, [])
          else f2b_loop send k buf_size rest
      | None => f2b_loop send k buf_size rest
      end
  end.

(** [sndbuf] is [None] when getsockopt fails. *)
Definition high_speed_data_process_f2b (w : world) (p : Z) (sndbuf : option Z) (send : nat -> Z)
  : outcome (status * list (list Z * Z) * world) :=
  s ← get_sess w p;
  match sndbuf with
  | None => Done (PROCESS_ERROR, [], w)
  | Some buf_size =>
      r ← f2b_loop send 0 buf_size (msg_f2b s);
      let '(st, q, sent) := r in
      Done (st, sent, put_sess w p (set_msgs F2B s q))
  end.

(** ** Network to frontend *)

(** The walk over [msg_b2f]: a segment leaves the queue unless the TX ring is
    full; one the ring refuses outright is dropped. *)
Fixpoint b2f_loop (ports : hyper_ports) (m : mem) (segs : list SessMsgSeg)
  : outcome (status * list SessMsgSeg * mem) :=
  match segs with
  | [] => Done (PROCESS_OK, [], m)
  | seg :: rest =>
      r ← backend_engine_hyperamp_tx_queue_put (Some ports) m (seg_data seg) (seg_len seg);
      match fst r with
      | PROCESS_AGAIN => Done (PROCESS_AGAIN, segs, snd r)
      | _ => b2f_loop ports (snd r) rest
      end
  end.

Definition high_speed_data_process_b2f (w : world) (p : Z) : outcome (status * world) :=
  s ← get_sess w p;
  r ← b2f_loop (eng_ports (eng_tx (w_eng w))) (tx_mem (w_tx w)) (msg_b2f s);
  let '(st, q, m) := r in
  Done (st, with_tx (put_sess w p (set_msgs B2F s q)) (with_tx_mem (w_tx w) m)).

(** ** Socket to segments *)

(** One turn of the loop: malloc of the segment, malloc of its data, and the
    bytes read returns ([None] for -1). *)
Record read_env := { re_seg : bool; re_data : option (list Z); re_read : option (list Z) }.

(** The segment a successful read fills: the data after an 8-byte header. *)
Definition nns_segment (s : BackendSession) (d data : list Z) : outcome SessMsgSeg :=
  d ← bwrite d PROXY_MSG_HDR_SIZE data;
  let len := u16 (blen data) in
  d ← st_puts [(1%nat, PROXY_PROTO_VERSION_1); (1%nat, PROXY_MSG_TYPE_DATA);
               (2%nat, frontend_sess_id s); (2%nat, backend_sess_id s); (2%nat, len)] d 0;
  Done {| seg_len := u16 (len + PROXY_MSG_HDR_SIZE); seg_type := SESS_MSG_SEG_DYNAMIC_ALLOC;
          seg_data := Some d |}.

(** [reads] are the turns' environments; running out of them is a read that
    blocks.  Result: the status and the session; [None] when the loop was left
    without reaching its end. *)
Fixpoint nns_loop (reads : list read_env) (bytes_available : Z) (s : BackendSession)
  : outcome (option status * BackendSession) :=
  if bytes_available <=? 0 then Done (None, s) else
  match reads with
  | [] => Spin
  | e :: reads' =>
      match sess_msg_seg_alloc (re_seg e) (re_data e) PROXY_MSG_HDR_PLUS_MAX_SIZE
              SESS_MSG_SEG_DYNAMIC_ALLOC None 0 with
      | None => Done (Some PROCESS_AGAIN, s)
      | Some seg =>
          match re_read e with
          | None => Done (Some PROCESS_ERROR, s)
          | Some data =>
              seg ← nns_segment s (default [] (seg_data seg)) data;
              nns_loop reads' (bytes_available - blen data) (SESS_MSG_SEG_INSERT_QUEUE s seg B2F)
          end
      end
  end.

Definition high_speed_data_process_nns (w : world) (p : Z) (ioctl : option Z) (reads : list read_env)
  : outcome (status * world) :=
  s ← get_sess w p;
  match ioctl with
  | None => Done (PROCESS_ERROR, w)
  | Some bytes_available =>
      r ← nns_loop reads bytes_available s;
      let '(early, s) := r in
      let w := put_sess w p s in
      match early with
      | Some st => Done (st, w)
      | None => w ← BACKEND_SESS_LINK_TO_QUEUE w p B2F; Done (PROCESS_OK, w)
      end
  end.
