(* ===== verification/SessionDataSpec.v ===== *)
(** * SessionDataSpec: what moving data through a session does

    The socket's byte stream is cut into DATA messages ([nns]), these go to the
    TX ring in order until it is full ([b2f]); the frontend's segments go to
    the socket in order ([f2b]). *)

From S2P Require Import Prelude Bytes Mem HyperampQueue HyperampQueueSpec HyperampLinux ByteStore Message Build BuildSpec Session Responses SessionPool SessionPoolSpec SessionPoolRun SessionData.
From stdpp Require Import base list numbers option gmap.
From Stdlib Require Import ZArith Lia.
#[local] Open Scope Z_scope.

(** ** Segments to the TX ring *)

(** A segment the ring accepts. *)
Definition seg_ready (g : geometry) (seg : SessMsgSeg) : Prop :=
  exists d, seg_data seg = Some d /\ 0 < seg_len seg <= g_bs g /\ seg_len seg <= blen d /\ Forall is_byte d.

(** Block [blk] starts with the segment's bytes. *)
Definition carries (seg : SessMsgSeg) (blk : list Z) : Prop :=
  exists d, seg_data seg = Some d /\ seg_len seg <= blen d /\
            take (Z.to_nat (seg_len seg)) blk = take (Z.to_nat (seg_len seg)) d.

Lemma carries_stored g m seg d :
  seg_data seg = Some d -> seg_len seg <= blen d -> carries seg (stored_block g m d (seg_len seg)).
Proof.
  intros Hd Hl. exists d. split; [done|]. split; [done|]. unfold stored_block. rewrite take_app_le.
  - rewrite take_take. f_equal. lia.
  - rewrite length_take. unfold blen in Hl. lia.
Qed.

Section TxPut.
Context (g : geometry) (ports : hyper_ports).
Hypothesis (Hq : g_queue g = hyper_tx_queue ports) (Hb : g_base g = hyper_amp_data_region ports).
Hypothesis (Hbase : hyper_amp_data_region ports <> 0).

Lemma tx_put_enqueue m d len :
  qwf g m -> len <= g_bs g ->
  backend_engine_hyperamp_tx_queue_put (Some ports) m (Some d) len =
  hyperamp_queue_enqueue m (g_queue g) HYPERAMP_ZONE_ID_Linux (Some d) len (g_base g).
Proof using Hq Hb Hbase.
  intros Hw Hl. unfold backend_engine_hyperamp_tx_queue_put.
  pose proof (geometry_ok_spec g (qwf_geo g m Hw)) as Hgeo.
  rewrite <- Hq, <- Hb in *. rewrite (qwf_bs g m Hw).
  rewrite (proj2 (Z.eqb_neq (g_queue g) 0)) by lia.
  rewrite (proj2 (Z.ltb_ge (g_bs g) len)) by lia.
  by rewrite (proj2 (Z.eqb_neq (g_base g) 0)) by lia.
Qed.

Definition tx_space (m : mem) : nat := (Z.to_nat (g_cap g - 1) - length (contents g m))%nat.

Lemma b2f_loop_spec segs m :
  qwf g m -> Forall (seg_ready g) segs ->
  exists m' blks, b2f_loop ports m segs =
    Done (if decide (length segs <= tx_space m)%nat then PROCESS_OK else PROCESS_AGAIN,
          drop (tx_space m) segs, m') /\
  qwf g m' /\ contents g m' = contents g m ++ blks /\ Forall2 carries (take (tx_space m) segs) blks.
Proof using Hq Hb Hbase.
  revert m. induction segs as [|seg segs IH]; intros m Hw Hs.
  { exists m, []. rewrite decide_True, drop_nil, take_nil, app_nil_r by (cbn; lia). done. }
  apply Forall_cons_1 in Hs as [(d & Hd & Hl & Hlen & Hby) Hs].
  cbn [b2f_loop]. rewrite Hd, tx_put_enqueue by (done || lia).
  pose proof (qlength_range g m Hw) as Hr. pose proof (contents_length g m) as Hc.
  destruct (decide (qlength g m = g_cap g - 1)) as [Hfull|Hroom].
  - destruct (enqueue_full g m HYPERAMP_ZONE_ID_Linux d (seg_len seg) Hw Hl Hfull) as (m' & -> & Hw' & Hc').
    assert (tx_space m = 0%nat) as -> by (unfold tx_space; lia).
    cbn. exists m', []. rewrite app_nil_r. done.
  - destruct (enqueue_room g m HYPERAMP_ZONE_ID_Linux d (seg_len seg) Hw Hl Hlen Hby) as (m1 & -> & Hw1 & Hc1);
      [lia|].
    destruct (IH m1 Hw1 Hs) as (m' & blks & E & Hw' & Hc' & Hf).
    assert (tx_space m = S (tx_space m1)) as -> by (unfold tx_space; rewrite Hc1, length_app; cbn; lia).
    cbn [mbind outcome_bind fst snd]. rewrite E. cbn [drop take length].
    exists m', (stored_block g m d (seg_len seg) :: blks). split.
    { repeat case_decide; done || lia. }
    split; [done|]. split; [by rewrite Hc', Hc1, <- app_assoc|].
    constructor; [by apply carries_stored|done].
Qed.
End TxPut.

(** [high_speed_data_process_b2f] moves the session's received segments to
    the TX ring in order, as many as the ring has room for: those leave the
    session's queue and are the newest blocks of the ring, the others stay
    queued; it answers OK when all were moved and AGAIN otherwise. *)
Theorem b2f_delivers_prefix g w p s :
  tx_ok g w -> hyper_amp_data_region (eng_ports (eng_tx (w_eng w))) <> 0 ->
  w_sess w !! p = Some s -> Forall (seg_ready g) (msg_b2f s) ->
  let k := tx_space g (tx_mem (w_tx w)) in
  exists w' blks,
  high_speed_data_process_b2f w p =
    Done (if decide (length (msg_b2f s) <= k)%nat then PROCESS_OK else PROCESS_AGAIN, w') /\
  tx_ok g w' /\ w_pool w' = w_pool w /\
  w_sess w' = <[p := set_msgs B2F s (drop k (msg_b2f s))]> (w_sess w) /\
  sent_messages g w' = sent_messages g w ++ blks /\ Forall2 carries (take k (msg_b2f s)) blks.
Proof.
  intros [Hw Hq Hb Hp Hbs] Hbase Hs Hsegs k. unfold high_speed_data_process_b2f, get_sess. rewrite Hs.
  cbn [mbind outcome_bind].
  destruct (b2f_loop_spec g _ Hq Hb Hbase (msg_b2f s) (tx_mem (w_tx w)) Hw Hsegs)
    as (m' & blks & -> & Hw' & Hc & Hf).
  cbn [mbind outcome_bind]. do 2 eexists. split; [reflexivity|]. split; [by split|]. by split_and!.
Qed.

(** ** The socket's bytes to segments *)

Definition data_header (s : BackendSession) (data : list Z) : ProxyMsgHeader :=
  {| pmh_version := PROXY_PROTO_VERSION_1; pmh_type := PROXY_MSG_TYPE_DATA;
     pmh_frontend_sess_id := frontend_sess_id s; pmh_backend_sess_id := backend_sess_id s;
     pmh_payload_len := blen data |}.

(** [buf] starts with the DATA message of session [s] carrying [data]. *)
Definition data_message (s : BackendSession) (data : list Z) (buf : list Z) : Prop :=
  get_ProxyMsgHeader buf 0 = Done (data_header s data) /\
  bread buf PROXY_MSG_HDR_SIZE (blen data) = Done data.

Definition data_segment (s : BackendSession) (data : list Z) (seg : SessMsgSeg) : Prop :=
  exists d, seg_data seg = Some d /\ seg_len seg = blen data + PROXY_MSG_HDR_SIZE /\
            blen d = PROXY_MSG_HDR_PLUS_MAX_SIZE /\ Forall is_byte d /\ data_message s data d.

Definition sess_ids_ok (s : BackendSession) : Prop :=
  0 <= frontend_sess_id s < 65536 /\ 0 <= backend_sess_id s < 65536.

(** What one read delivers: at most a full message; at least 1 byte unless the
    peer has closed. *)
Definition chunk_fits (data : list Z) : Prop := blen data <= PROXY_MSG_MAX_SIZE /\ Forall is_byte data.
Definition chunk_ok (data : list Z) : Prop := 1 <= blen data <= PROXY_MSG_MAX_SIZE /\ Forall is_byte data.

Lemma chunk_ok_fits data : chunk_ok data -> chunk_fits data.
Proof. by intros [ [_ ?] ?]. Qed.

Lemma nns_segment_spec s d data :
  sess_ids_ok s -> blen d = PROXY_MSG_HDR_PLUS_MAX_SIZE -> Forall is_byte d -> chunk_fits data ->
  exists seg, nns_segment s d data = Done seg /\ data_segment s data seg.
Proof.
  intros [Hf Hb] Hd Hdb [Hl Hdata]. pose proof (blen_nonneg data). unfold PROXY_MSG_HDR_PLUS_MAX_SIZE, PROXY_MSG_MAX_SIZE, PROXY_MSG_HDR_SIZE in *.
  unfold nns_segment. destruct (bwrite_ok d PROXY_MSG_HDR_SIZE data) as [d1 Hd1];
    [unfold PROXY_MSG_HDR_SIZE; lia..|]. rewrite Hd1. cbn [mbind outcome_bind].
  rewrite (u16_id (blen data)) by lia. set (fs := [_; _; _; _; _]).
  assert (blen d1 = blen d) as Hlen1 by (by eapply bwrite_length).
  destruct (st_puts_ok fs d1 0) as [d2 Hd2]; [cbn; lia|]. rewrite Hd2. cbn [mbind outcome_bind].
  assert (blen d2 = blen d) as Hlen2.
  { pose proof (proj2 (st_puts_room _ _ _ _ 0 (blen d) Hd2)) as Hr. pose proof (proj1 (st_puts_room _ _ _ _ 0 (blen d2) Hd2)) as Hr'. cbn in Hr, Hr'. lia. }
  eexists. split; [reflexivity|]. exists d2. unfold PROXY_MSG_HDR_SIZE. cbn [seg_data seg_len].
  rewrite u16_id by lia. split_and!; [done|done|by rewrite Hlen2, Hd| |split].
  - eapply puts_bytes; [exact Hd2|]. eapply bwrite_bytes; [exact Hd1|..]; done.
  - pose proof (st_gets_puts _ _ _ _ Hd2) as Hg. unfold get_ProxyMsgHeader.
    cbn [map fst snd fs] in Hg. rewrite Hg; [done|].
    repeat constructor; unfold in_width; cbn; unfold PROXY_PROTO_VERSION_1, PROXY_MSG_TYPE_DATA; lia.
  - assert (bread d2 8 (blen data) = bread d1 8 (blen data)) as Hr
      by (apply (st_read_puts_ne _ _ _ _ _ _ Hd2); right; cbn; lia).
    change PROXY_MSG_HDR_SIZE with 8. rewrite Hr. by eapply bread_bwrite_eq.
Qed.

(** The reads of a call: [chunks] are what they return, [bufs] what malloc
    returned for each segment. *)
Definition successful_read (buf data : list Z) : read_env :=
  {| re_seg := true; re_data := Some buf; re_read := Some data |}.

Definition fresh_buffer (buf : list Z) : Prop := blen buf = PROXY_MSG_HDR_PLUS_MAX_SIZE /\ Forall is_byte buf.

(** The chunks cover [avail] bytes, and each was read while bytes were left. *)
Fixpoint covers (avail : Z) (chunks : list (list Z)) : bool :=
  match chunks with
  | [] => avail <=? 0
  | c :: chunks' => (0 <? avail) && covers (avail - blen c) chunks'
  end.

Lemma data_segment_ext s s' data seg :
  frontend_sess_id s' = frontend_sess_id s -> backend_sess_id s' = backend_sess_id s ->
  data_segment s data seg -> data_segment s' data seg.
Proof. unfold data_segment, data_message, data_header. intros -> ->. done. Qed.

Lemma set_msgs_msgs s dir q q' : set_msgs dir (set_msgs dir s q) q' = set_msgs dir s q'.
Proof. by destruct dir. Qed.

Lemma nns_loop_spec bufs chunks avail s :
  sess_ids_ok s -> Forall fresh_buffer bufs -> Forall chunk_ok chunks -> length bufs = length chunks ->
  covers avail chunks = true ->
  exists segs, nns_loop (zip_with successful_read bufs chunks) avail s =
    Done (None, set_msgs B2F s (msg_b2f s ++ segs)) /\ Forall2 (data_segment s) chunks segs.
Proof.
  revert bufs avail s. induction chunks as [|c chunks IH]; intros bufs avail s Hids Hbufs Hc Hlen Hcov.
  { exists []. cbn in Hcov. destruct bufs; [|done]. cbn [zip_with nns_loop]. rewrite Hcov, app_nil_r.
    split; [by destruct s|constructor]. }
  destruct bufs as [|b bufs]; [done|]. apply Forall_cons_1 in Hbufs as [[Hb Hbb] Hbufs].
  apply Forall_cons_1 in Hc as [Hc1 Hc]. cbn [covers] in Hcov. apply andb_true_iff in Hcov as [Hav Hcov].
  apply Z.ltb_lt in Hav. cbn [zip_with nns_loop]. rewrite (proj2 (Z.leb_gt avail 0)) by lia.
  cbn [successful_read re_seg re_data re_read sess_msg_seg_alloc negb seg_data default].
  unfold id.   destruct (nns_segment_spec s b c Hids Hb Hbb (chunk_ok_fits c Hc1)) as (seg & -> & Hseg). cbn [mbind outcome_bind].
  destruct (IH bufs (avail - blen c) (SESS_MSG_SEG_INSERT_QUEUE s seg B2F)) as (segs & -> & Hf);
    try done; [by injection Hlen|].
  exists (seg :: segs). unfold SESS_MSG_SEG_INSERT_QUEUE. rewrite set_msgs_msgs.
  cbn [sess_msgs msg_b2f set_msgs]. rewrite <- app_assoc. split; [done|].
  constructor; [done|]. eapply Forall2_impl; [exact Hf|]. intros ? ?. by apply data_segment_ext.
Qed.

(** ** Linking a session to a work queue *)

Lemma sess_state_set dir dir' s v :
  sess_state dir' (set_state dir s v) = if decide (dir = dir') then v else sess_state dir' s.
Proof. by destruct dir, dir'. Qed.

Lemma pool_queue_set dir dir' pl q :
  pool_queue dir' (set_pool_queue dir pl q) = if decide (dir = dir') then q else pool_queue dir' pl.
Proof. by destruct dir, dir'. Qed.

Lemma link_inv w p s id dir :
  pool_inv w -> htable (w_pool w) !! id = Some p -> w_sess w !! p = Some s ->
  p ∉ pool_queue dir (w_pool w) ->
  pool_inv (with_pool (put_sess w p (set_state dir s (Z.lor (sess_state dir s) 1)))
              (set_pool_queue dir (w_pool w) (pool_queue dir (w_pool w) ++ [p]))).
Proof.
  intros Hi Hid Hs Hnq. pose proof Hi as [Hnd Hr Hf Ht Hn Hqn Hq].
  set (s' := set_state dir s _). assert (forall q, <[p := s']> (w_sess w) !! q =
    if decide (q = p) then Some s' else w_sess w !! q) as Hlook.
  { intros q. case_decide as E; [subst; apply lookup_insert_eq|by apply lookup_insert_ne]. }
  split; cbn [w_pool w_sess with_pool put_sess with_sess set_pool_queue id_queue htable sess_num]; try done.
  - intros id' q Hid'. destruct (Ht _ _ Hid') as (Hrg & t & Ht1 & Ht2 & Ht3). split; [done|].
    rewrite Hlook. case_decide as E; [|eauto]. subst q. exists s'. assert (t = s) as -> by congruence. done.
  - intros dir'. rewrite pool_queue_set. case_decide; [|done]. apply NoDup_app. split; [apply Hqn|].
    split; [|apply NoDup_singleton]. intros x Hx ->%list_elem_of_singleton. done.
  - intros dir' q. rewrite pool_queue_set. setoid_rewrite Hlook.
    assert (q ∈ (if decide (dir = dir') then pool_queue dir (w_pool w) ++ [p] else pool_queue dir' (w_pool w))
            <-> (q ∈ pool_queue dir' (w_pool w)) \/ (dir = dir' /\ q = p)) as ->.
    { case_decide as E; [subst dir'; rewrite elem_of_app, list_elem_of_singleton|]; tauto. }
    rewrite Hq. split.
    + intros [(id' & t & Hid' & Ht' & Hb)|[<- ->]].
      * exists id'. case_decide as E; [subst q|eauto]. exists s'. split; [done|]. split; [done|].
        assert (t = s) as -> by congruence. unfold s'. rewrite sess_state_set.
        case_decide as E; [subst dir'; apply bit0_lor1|done].
      * exists id, s'. rewrite decide_True by done. split; [done|]. split; [done|].
        unfold s'. rewrite sess_state_set, decide_True by done. apply bit0_lor1.
    + intros (id' & t & Hid' & Ht' & Hb). case_decide as E; [|left; eauto]. subst q. injection Ht' as <-.
      unfold s' in Hb. rewrite sess_state_set in Hb. case_decide as E; [by right|]. left. eauto.
Qed.

Lemma link_spec w p s id dir :
  pool_inv w -> htable (w_pool w) !! id = Some p -> w_sess w !! p = Some s ->
  exists w', BACKEND_SESS_LINK_TO_QUEUE w p dir = Done w' /\ pool_inv w' /\
  (p ∈ pool_queue dir (w_pool w')) /\ htable (w_pool w') = htable (w_pool w) /\
  (exists v, w_sess w' = <[p := set_state dir s v]> (w_sess w)) /\
  w_tx w' = w_tx w /\ w_eng w' = w_eng w.
Proof.
  intros Hi Hid Hs. unfold BACKEND_SESS_LINK_TO_QUEUE, get_sess. rewrite Hs. cbn [mbind outcome_bind].
  destruct (pi_table _ Hi _ _ Hid) as (_ & t & Ht & Hbid & He). assert (t = s) as -> by congruence.
  rewrite He. cbn [negb]. unfold BACKEND_SESS_LINKED_TO_QUEUE. rewrite land1_bit0.
  destruct (bit0 (sess_state dir s)) eqn:Eb; cbn [Z.b2z Z.eqb].
  { exists w. split; [done|]. split; [done|]. split; [apply (pi_queue _ Hi); eauto|]. split; [done|].
    split; [|done]. exists (sess_state dir s). rewrite insert_id; [done|]. rewrite Hs. by destruct s, dir. }
  assert (p ∉ pool_queue dir (w_pool w)) as Hnq.
  { rewrite (pi_queue _ Hi). intros (id' & s' & _ & Hs' & Hb'). congruence. }
  rewrite tailq_insert_ok by done. cbn [mbind outcome_bind]. eexists. split; [reflexivity|].
  split_and!; [by eapply link_inv| |done|by eexists|done|done].
  destruct dir; cbn; apply elem_of_app; right; by apply list_elem_of_singleton.
Qed.

Lemma nns_pooled w p s id bufs chunks avail :
  pool_inv w -> htable (w_pool w) !! id = Some p -> w_sess w !! p = Some s -> sess_ids_ok s ->
  Forall fresh_buffer bufs -> Forall chunk_ok chunks -> length bufs = length chunks ->
  covers avail chunks = true ->
  exists w' s' segs,
  high_speed_data_process_nns w p (Some avail) (zip_with successful_read bufs chunks) = Done (PROCESS_OK, w') /\
  pool_inv w' /\ (p ∈ pool_queue B2F (w_pool w')) /\ w_sess w' !! p = Some s' /\
  msg_b2f s' = msg_b2f s ++ segs /\ Forall2 (data_segment s) chunks segs /\
  w_tx w' = w_tx w /\ w_eng w' = w_eng w.
Proof.
  intros Hi Hid Hs Hids Hb Hc Hl Hcov. unfold high_speed_data_process_nns, get_sess. rewrite Hs.
  cbn [mbind outcome_bind]. destruct (nns_loop_spec bufs chunks avail s) as (segs & -> & Hf); try done.
  cbn [mbind outcome_bind]. set (s1 := set_msgs B2F s _).
  destruct (link_spec (put_sess w p s1) p s1 id B2F) as (w' & -> & Hi' & Hq & _ & [v Hs'] & Ht & He).
  { apply (pool_inv_put_same w p s); done. } { done. } { apply lookup_insert_eq. }
  cbn [mbind outcome_bind]. exists w', (set_state B2F s1 v), segs. split; [done|]. split; [done|].
  split; [done|]. split; [rewrite Hs'; apply lookup_insert_eq|]. done.
Qed.

(** [high_speed_data_process_nns] on a session of the pool: when SIOCINQ
    reports [avail] bytes and the reads return [chunks] covering them, the
    session's queue grows by exactly one segment per chunk, each a DATA message
    with the session's two ids, the chunk's length and its bytes, in order; the
    session is on the b2f work queue afterwards and the pool invariant holds. *)
Theorem nns_queues_socket_data w p s id bufs chunks avail :
  pool_inv w -> high_speed_search_sess w id = Some p -> w_sess w !! p = Some s -> sess_ids_ok s ->
  Forall fresh_buffer bufs -> Forall chunk_ok chunks -> length bufs = length chunks ->
  covers avail chunks = true ->
  exists w' s' segs,
  high_speed_data_process_nns w p (Some avail) (zip_with successful_read bufs chunks) = Done (PROCESS_OK, w') /\
  pool_inv w' /\ (p ∈ queue_b2f (w_pool w')) /\ w_sess w' !! p = Some s' /\
  msg_b2f s' = msg_b2f s ++ segs /\ Forall2 (data_segment s) chunks segs.
Proof.
  intros Hi Hid Hs Hids Hb Hc Hl Hcov.
  destruct (nns_pooled w p s id bufs chunks avail) as (w' & s' & segs & ? & ? & ? & ? & ? & ? & _); eauto 10.
Qed.

(** ** From the socket to the ring *)

Lemma bread_prefix_ext a b k x n :
  take k a = take k b -> (k <= length b)%nat -> 0 <= x -> 0 <= n -> x + n <= Z.of_nat k ->
  bread a x n = bread b x n.
Proof.
  intros He Hk Hx Hn Hxn. assert (k <= length a)%nat as Hka.
  { apply (f_equal length) in He. rewrite !length_take in He. lia. }
  rewrite !bread_ok by (unfold blen; lia). f_equal.
  rewrite !take_drop_commute. f_equal.
  assert (forall l : list Z, take (Z.to_nat x + Z.to_nat n) l = take (Z.to_nat x + Z.to_nat n) (take k l)) as Ht.
  { intros l. rewrite take_take. f_equal. lia. }
  rewrite (Ht a), (Ht b). by rewrite He.
Qed.

Lemma carried_message s data seg blk : data_segment s data seg -> carries seg blk -> data_message s data blk.
Proof.
  intros (d & Hd & Hlen & Hbl & _ & Hh & Hp) (d' & Hd' & Hl & He). rewrite Hd in Hd'. injection Hd' as <-.
  assert (0 <= blen data) by (unfold blen; lia). unfold PROXY_MSG_HDR_SIZE in *.
  assert (forall x n, 0 <= x -> 0 <= n -> x + n <= seg_len seg -> bread blk x n = bread d x n) as Hext.
  { intros x n Hx Hn Hxn. apply (bread_prefix_ext _ _ _ _ _ He); unfold blen in *; lia. }
  split.
  - rewrite (get_header_ext blk d 8); [done| |lia]. intros x k Hk Hx Hxk. apply Hext; lia.
  - change PROXY_MSG_HDR_SIZE with 8. rewrite Hext by lia. done.
Qed.

Lemma data_segment_ready g s data seg :
  PROXY_MSG_HDR_PLUS_MAX_SIZE <= g_bs g -> chunk_fits data -> data_segment s data seg -> seg_ready g seg.
Proof.
  intros Hg [Hl _] (d & Hd & Hlen & Hbl & Hby & _). exists d. pose proof (blen_nonneg data).
  unfold PROXY_MSG_HDR_PLUS_MAX_SIZE, PROXY_MSG_MAX_SIZE, PROXY_MSG_HDR_SIZE in *. split_and!; try done; lia.
Qed.

(** C11. The socket's bytes reach the frontend: for a session of the pool with
    nothing queued, [high_speed_data_process_nns] followed by
    [high_speed_data_process_b2f], with ring blocks of a full message and room
    for the chunks, both answer OK, and the ring gains exactly one block per
    chunk, in order: the DATA message of the session with the chunk's bytes.
    The session's queue is empty again. *)
Theorem socket_data_reaches_frontend g w p s id bufs chunks avail :
  pool_inv w -> tx_ok g w -> hyper_amp_data_region (eng_ports (eng_tx (w_eng w))) <> 0 ->
  high_speed_search_sess w id = Some p -> w_sess w !! p = Some s -> sess_ids_ok s -> msg_b2f s = [] ->
  Forall fresh_buffer bufs -> Forall chunk_ok chunks -> length bufs = length chunks ->
  covers avail chunks = true -> PROXY_MSG_HDR_PLUS_MAX_SIZE <= g_bs g ->
  (length chunks <= tx_space g (tx_mem (w_tx w)))%nat ->
  exists w1 w2 s2 blks,
  high_speed_data_process_nns w p (Some avail) (zip_with successful_read bufs chunks) = Done (PROCESS_OK, w1) /\
  high_speed_data_process_b2f w1 p = Done (PROCESS_OK, w2) /\
  w_sess w2 !! p = Some s2 /\ msg_b2f s2 = [] /\
  sent_messages g w2 = sent_messages g w ++ blks /\ Forall2 (data_message s) chunks blks.
Proof.
  intros Hi [Hw Hq Hb Hp Hbs] Hbase Hid Hs Hids Hempty Hbufs Hc Hl Hcov Hg Hspace.
  destruct (nns_pooled w p s id bufs chunks avail) as (w1 & s1 & segs & E1 & _ & _ & Hs1 & Hm & Hf & Ht & He);
    try done.
  rewrite Hempty in Hm. cbn [app] in Hm. pose proof (Forall2_length _ _ _ Hf) as Hsl.
  assert (Forall (seg_ready g) (msg_b2f s1)) as Hready.
  { rewrite Hm. eapply Forall2_Forall_r; [exact Hf|]. eapply Forall_impl; [exact Hc|].
    intros c Hck%chunk_ok_fits seg Hseg. by eapply data_segment_ready. }
  destruct (b2f_loop_spec g _ Hq Hb Hbase (msg_b2f s1) (tx_mem (w_tx w)) Hw Hready) as (m' & blks & E2 & Hw' & Hc' & Hf').
  rewrite Hm in E2, Hf'. rewrite decide_True in E2 by lia. rewrite drop_ge in E2 by lia.
  rewrite take_ge in Hf' by lia.
  exists w1, (with_tx (put_sess w1 p (set_msgs B2F s1 [])) (with_tx_mem (w_tx w) m')), (set_msgs B2F s1 []), blks.
  split; [done|]. split.
  { unfold high_speed_data_process_b2f, get_sess. rewrite Hs1. cbn [mbind outcome_bind].
    rewrite Ht, He, Hm, E2. done. }
  split; [apply lookup_insert_eq|]. split; [done|]. split; [exact Hc'|].
  clear -Hf Hf'. revert blks Hf'. induction Hf; intros blks Hf'; inversion Hf'; subst; constructor; eauto using carried_message.
Qed.

(** ** The frontend's segments to the socket *)

(** What a segment asks the socket to send. *)
Definition seg_bytes (seg : SessMsgSeg) : list Z :=
  match seg_data seg with
  | Some d => if 0 <? seg_len seg then take (Z.to_nat (seg_len seg)) d else []
  | None => []
  end.
Definition seg_sound (seg : SessMsgSeg) : Prop := forall d, seg_data seg = Some d -> seg_len seg <= blen d.

Lemma f2b_loop_spec send segs k buf_size :
  Forall seg_sound segs ->
  exists st q sent done_, f2b_loop send k buf_size segs = Done (st, q, sent) /\
  segs = done_ ++ q /\ concat (map fst sent) = concat (map seg_bytes done_) /\ (st = PROCESS_OK <-> q = []).
Proof.
  revert k buf_size. induction segs as [|seg segs IH]; intros k buf_size Hs.
  { exists PROCESS_OK, [], [], []. done. }
  apply Forall_cons_1 in Hs as [H1 Hs]. cbn [f2b_loop].
  assert (forall b, seg_bytes seg = [] -> exists st q sent done_, f2b_loop send k b segs = Done (st, q, sent) /\
    seg :: segs = done_ ++ q /\ concat (map fst sent) = concat (map seg_bytes done_) /\ (st = PROCESS_OK <-> q = [])) as Hskip.
  { intros b Hnil. destruct (IH k b Hs) as (st & q & sent & dn & -> & -> & Hj & Hst).
    exists st, q, sent, (seg :: dn). split_and!; try done. cbn. by rewrite Hnil. }
  unfold seg_bytes in Hskip. destruct (seg_data seg) as [d|] eqn:Ed; [|by apply Hskip].
  destruct (0 <? seg_len seg) eqn:El; [|by apply Hskip]. apply Z.ltb_lt in El.
  destruct (seg_len seg <? buf_size); [|by exists PROCESS_AGAIN, (seg :: segs), [], []].
  specialize (H1 _ Ed). rewrite bread_ok by lia. cbn [mbind outcome_bind].
  destruct (send k =? -1); [by exists PROCESS_ERROR, (seg :: segs), [], []|].
  destruct (IH (S k) (buf_size - send k) Hs) as (st & q & sent & dn & -> & -> & Hj & Hst).
  cbn [mbind outcome_bind]. do 4 eexists. split; [reflexivity|]. split; [by rewrite app_comm_cons|].
  split; [|done]. cbn [map fst concat]. rewrite Hj. unfold seg_bytes at 2. rewrite Ed, (proj2 (Z.ltb_lt _ _) El). done.
Qed.

(** C34. [high_speed_data_process_f2b] always returns, whatever the socket
    answers; it hands the queued segments' bytes to send in order and without
    gaps for exactly the segments that leave the queue, keeps the others, and
    answers OK exactly when the queue is empty. *)
Theorem f2b_sends_in_order w p s buf_size send :
  w_sess w !! p = Some s -> Forall seg_sound (msg_f2b s) ->
  exists st sent w' done_ rest,
  high_speed_data_process_f2b w p (Some buf_size) send = Done (st, sent, w') /\
  msg_f2b s = done_ ++ rest /\ w' = put_sess w p (set_msgs F2B s rest) /\
  concat (map fst sent) = concat (map seg_bytes done_) /\ (st = PROCESS_OK <-> rest = []).
Proof.
  intros Hs Hok. unfold high_speed_data_process_f2b, get_sess. rewrite Hs. cbn [mbind outcome_bind].
  destruct (f2b_loop_spec send (msg_f2b s) 0 buf_size Hok) as (st & q & sent & dn & -> & E & Hj & Hst).
  cbn [mbind outcome_bind]. exists st, sent. do 3 eexists. split; [reflexivity|]. split; [exact E|].
  split; [reflexivity|]. split; done.
Qed.

(** ** Witnesses *)

Definition demo_chunks : list (list Z) := [[1; 2; 3]; [4; 5]].
Definition demo_bufs : list (list Z) := [replicate 4096 0; replicate 4096 7].

Lemma fresh_replicate x : is_byte x -> fresh_buffer (replicate 4096 x).
Proof.
  intros Hx. split; [unfold blen; by rewrite length_replicate|by apply Forall_replicate].
Qed.
Lemma demo_bufs_fresh : Forall fresh_buffer demo_bufs.
Proof.
  apply Forall_cons; split; [apply fresh_replicate; unfold is_byte; lia|].
  apply Forall_cons; split; [apply fresh_replicate; unfold is_byte; lia|done].
Qed.
Lemma demo_chunks_ok : Forall chunk_ok demo_chunks.
Proof. repeat constructor; try (by vm_compute); apply bytesb_ok; by vm_compute. Qed.

Lemma nns_queues_socket_data_witness :
  exists w' s' segs, high_speed_data_process_nns demo_live 500 (Some 4) (zip_with successful_read demo_bufs demo_chunks)
    = Done (PROCESS_OK, w') /\ w_sess w' !! 500 = Some s' /\ msg_b2f s' = segs /\
  Forall2 (data_segment demo_session) demo_chunks segs.
Proof.
  destruct (nns_queues_socket_data demo_live 500 demo_session 1 demo_bufs demo_chunks 4)
    as (w' & s' & segs & -> & _ & _ & Hs & Hm & Hf).
  - apply demo_live_inv.
  - done.
  - done.
  - split; cbn; lia.
  - apply demo_bufs_fresh.
  - apply demo_chunks_ok.
  - done.
  - done.
  - exists w', s', segs. split; [done|]. split; [done|]. split; [exact Hm|done].
Defined.

Lemma socket_data_reaches_frontend_witness :
  exists w1 w2 blks,
  high_speed_data_process_nns demo_live 500 (Some 4) (zip_with successful_read demo_bufs demo_chunks)
    = Done (PROCESS_OK, w1) /\ high_speed_data_process_b2f w1 500 = Done (PROCESS_OK, w2) /\
  sent_messages demo_tx_geo w2 = blks /\ Forall2 (data_message demo_session) demo_chunks blks.
Proof.
  destruct (socket_data_reaches_frontend demo_tx_geo demo_live 500 demo_session 1 demo_bufs demo_chunks 4)
    as (w1 & w2 & s2 & blks & -> & E2 & _ & _ & Hm & Hf).
  - apply demo_live_inv.
  - by apply demo_tx_ok.
  - discriminate.
  - done.
  - done.
  - split; cbn; lia.
  - done.
  - apply demo_bufs_fresh.
  - apply demo_chunks_ok.
  - done.
  - done.
  - by vm_compute.
  - unfold tx_space. change (contents demo_tx_geo (tx_mem (w_tx demo_live))) with (sent_messages demo_tx_geo demo_live).
    rewrite (demo_tx_empty demo_live eq_refl). vm_compute. lia.
  - rewrite (demo_tx_empty demo_live eq_refl) in Hm. exists w1, w2, blks. done.
Defined.

Definition demo_seg (d : list Z) : SessMsgSeg :=
  {| seg_len := blen d; seg_type := SESS_MSG_SEG_DYNAMIC_ALLOC; seg_data := Some d |}.

(** [demo_live] with segments queued in one direction. *)
Definition demo_queued (dir : direction) : world :=
  put_sess demo_live 500 (set_msgs dir demo_session [demo_seg [1; 2; 3]; demo_seg [4; 5]]).

Lemma b2f_delivers_prefix_witness :
  exists w' blks, high_speed_data_process_b2f (demo_queued B2F) 500 = Done (PROCESS_OK, w') /\
  sent_messages demo_tx_geo w' = blks /\ Forall2 carries [demo_seg [1; 2; 3]; demo_seg [4; 5]] blks.
Proof.
  destruct (b2f_delivers_prefix demo_tx_geo (demo_queued B2F) 500
              (set_msgs B2F demo_session [demo_seg [1; 2; 3]; demo_seg [4; 5]])) as (w' & blks & E & _ & _ & _ & Hm & Hf).
  - by apply demo_tx_ok.
  - discriminate.
  - apply lookup_insert_eq.
  - repeat constructor; eexists; (split; [reflexivity|]); split_and!; try (by vm_compute); apply bytesb_ok; by vm_compute.
  - assert (2 <= tx_space demo_tx_geo (tx_mem (w_tx (demo_queued B2F))))%nat as Hsp.
    { unfold tx_space. change (contents demo_tx_geo (tx_mem (w_tx (demo_queued B2F))))
        with (sent_messages demo_tx_geo (demo_queued B2F)).
      rewrite (demo_tx_empty (demo_queued B2F) eq_refl). vm_compute. lia. }
    rewrite decide_True in E by exact Hsp. rewrite take_ge in Hf by exact Hsp.
    rewrite (demo_tx_empty (demo_queued B2F) eq_refl) in Hm. exists w', blks. split; [exact E|]. split; [exact Hm|exact Hf].
Defined.

Lemma f2b_sends_in_order_witness :
  exists st sent w' done_ rest,
  high_speed_data_process_f2b (demo_queued F2B) 500 (Some 5) (fun _ => 3) = Done (st, sent, w') /\
  [demo_seg [1; 2; 3]; demo_seg [4; 5]] = done_ ++ rest /\
  concat (map fst sent) = concat (map seg_bytes done_).
Proof.
  destruct (f2b_sends_in_order (demo_queued F2B) 500
              (set_msgs F2B demo_session [demo_seg [1; 2; 3]; demo_seg [4; 5]]) 5 (fun _ => 3))
    as (st & sent & w' & dn & rest & E & Hd & _ & Hj & _).
  - apply lookup_insert_eq.
  - repeat constructor; intros d [= <-]; by vm_compute.
  - exists st, sent, w', dn, rest. done.
Defined.

(** The second segment does not fit the send buffer and stays queued. *)
Example f2b_stops_at_full_buffer :
  f2b_loop (fun _ => 3) 0 5 [demo_seg [1; 2; 3]; demo_seg [4; 5]] =
  Done (PROCESS_AGAIN, [demo_seg [4; 5]], [([1; 2; 3], 3)]).
Proof. reflexivity. Qed.
