(* ===== verification/Iot.v ===== *)
(** * Iot: sessions of the IoT devices

    The IoT half of src/session.c: initialisation of the six kinds of session,
    the send and receive handlers installed in them, clean-up, and the Modbus
    frame helpers.  What the kernel and libmodbus answer is an argument of each
    operation; bytes written to a file descriptor are part of the result. *)

From S2P Require Import Prelude Bytes ByteStore Message.
From stdpp Require Import base list numbers option.
From Stdlib Require Import ZArith Lia.
#[local] Open Scope Z_scope.

(** ** Data *)

Definition IOT_WORK_MODE_CLIENT : Z := 0.
Definition IOT_WORK_MODE_SERVER : Z := 1.
Definition IOT_SESS_STATE_IDLE : Z := 0.
Definition IOT_SESS_STATE_PENDING : Z := 1.
Definition IOT_MODBUS_CMD_READ_REQ : Z := 2.
Definition CAN_MAX_DLEN : Z := 8.
Definition sizeof_can_frame : Z := 16.

(** The function pointers [send_to_remote] and [recv_from_remote]. *)
Inductive iot_driver := BluetoothDriver | CanDriver | ZigbeeDriver | LoraDriver | PowerLinkDriver | ModbusTcpDriver.

Record IoTBackendSession := {
  iot_sess_type : Z;
  iot_sess_state : Z;
  iot_working_mode : Z;
  iot_bound_dev : bool;          (** [bound_dev] is not NULL *)
  iot_dev_fd : Z;
  iot_listen_fd : Z;
  iot_sock_list : list Z;
  iot_pri_data : bool;           (** [pri_data], the libmodbus context, is not NULL *)
  send_to_remote : option iot_driver;
  recv_from_remote : option iot_driver }.

Record IotMsgBuffer := { imb_data : list Z; imb_len : Z; imb_addr : IotAddr }.

Definition zero_addr : IotAddr := {| addr_type := 0; addr_info := replicate 20 0 |}.

(** ** Initialisation *)

(** The common first assignments. *)
Definition iot_bind (s : IoTBackendSession) (drv : iot_driver) (type : Z) : IoTBackendSession :=
  {| iot_sess_type := type; iot_sess_state := iot_sess_state s; iot_working_mode := iot_working_mode s;
     iot_bound_dev := true; iot_dev_fd := iot_dev_fd s; iot_listen_fd := iot_listen_fd s;
     iot_sock_list := iot_sock_list s; iot_pri_data := iot_pri_data s;
     send_to_remote := Some drv; recv_from_remote := Some drv |}.

Definition iot_opened (s : IoTBackendSession) (mode dev_fd listen_fd : Z) (socks : list Z) : IoTBackendSession :=
  {| iot_sess_type := iot_sess_type s; iot_sess_state := iot_sess_state s; iot_working_mode := mode;
     iot_bound_dev := iot_bound_dev s; iot_dev_fd := dev_fd; iot_listen_fd := listen_fd;
     iot_sock_list := socks; iot_pri_data := iot_pri_data s;
     send_to_remote := send_to_remote s; recv_from_remote := recv_from_remote s |}.

(** Results of the system calls of an initialisation: the socket, then whether
    each later call succeeds. *)
Record bt_env := {
  be_socket : Z; be_bind : bool; be_listen : bool; be_connect : bool; be_getfl : bool; be_setfl : bool }.

Definition iot_init_result : Type := status * IoTBackendSession * list Z.

(** [dev] is [dev->config.working_mode].  The last component of the result:
    the descriptors closed.  [None]: a NULL argument, answered with ERROR. *)
Definition engine_init_bluetooth_session (dev : option Z) (sess : option IoTBackendSession) (e : bt_env)
  : option iot_init_result :=
  match dev, sess with
  | Some mode, Some s =>
      let s := iot_bind s BluetoothDriver IOT_PROTO_TYPE_BLUETOOTH in
      let sk := be_socket e in
      if sk <? 0 then Some (PROCESS_ERROR, s, []) else
      let fail s := Some (PROCESS_ERROR, s, [sk]) in
      if negb (be_bind e) then fail s else
      let finish s :=
        if negb (be_getfl e) then fail s else
        if negb (be_setfl e) then fail s else
        Some (PROCESS_OK,
              if mode =? IOT_WORK_MODE_CLIENT then iot_opened s mode sk (-1) (iot_sock_list s)
              else iot_opened s mode (-1) sk (iot_sock_list s), []) in
      if mode =? IOT_WORK_MODE_SERVER then
        if negb (be_listen e) then fail s else
        finish (iot_opened s (iot_working_mode s) (iot_dev_fd s) (iot_listen_fd s) [])
      else if mode =? IOT_WORK_MODE_CLIENT then
        if negb (be_connect e) then fail s else finish s
      else fail s
  | _, _ => None
  end.

Record can_env := {
  cae_socket : Z; cae_getflags : option bool (** whether the interface is up *); cae_getindex : bool;
  cae_bind : bool; cae_getfl : bool; cae_setfl : bool }.

Definition engine_init_can_session (dev : option Z) (sess : option IoTBackendSession) (e : can_env)
  : option iot_init_result :=
  match dev, sess with
  | Some mode, Some s =>
      let s := iot_bind s CanDriver IOT_PROTO_TYPE_CAN in
      let sk := cae_socket e in
      if sk <? 0 then Some (PROCESS_ERROR, s, []) else
      let fail := Some (PROCESS_ERROR, s, [sk]) in
      match cae_getflags e with
      | None => fail
      | Some up =>
          if negb up then fail else
          if negb (cae_getindex e) then fail else
          let ok := Some (PROCESS_OK, iot_opened s mode sk (iot_listen_fd s) (iot_sock_list s), []) in
          if mode =? IOT_WORK_MODE_SERVER then if negb (cae_bind e) then fail else ok
          else if mode =? IOT_WORK_MODE_CLIENT then
            if negb (cae_bind e) then fail else
            if negb (cae_getfl e) then fail else
            if negb (cae_setfl e) then fail else ok
          else fail
      end
  | _, _ => None
  end.

Definition engine_init_zigbee_session (dev : option Z) (sess : option IoTBackendSession) : option iot_init_result :=
  match dev, sess with
  | Some _, Some s => Some (PROCESS_OK, iot_bind s ZigbeeDriver IOT_PROTO_TYPE_ZIGBEE, [])
  | _, _ => None
  end.

Definition engine_init_lora_session (dev : option Z) (sess : option IoTBackendSession) : option iot_init_result :=
  match dev, sess with
  | Some _, Some s => Some (PROCESS_OK, iot_bind s LoraDriver IOT_PROTO_TYPE_LORA, [])
  | _, _ => None
  end.

Definition engine_init_powerlink_session (dev : option Z) (sess : option IoTBackendSession) : option iot_init_result :=
  match dev, sess with
  | Some _, Some s => Some (PROCESS_OK, iot_bind s PowerLinkDriver IOT_PROTO_TYPE_POWERLINK, [])
  | _, _ => None
  end.

Definition iot_modbus_state (s : IoTBackendSession) (st mode : Z) (ctx : bool) : IoTBackendSession :=
  {| iot_sess_type := iot_sess_type s; iot_sess_state := st; iot_working_mode := mode;
     iot_bound_dev := iot_bound_dev s; iot_dev_fd := iot_dev_fd s; iot_listen_fd := iot_listen_fd s;
     iot_sock_list := iot_sock_list s; iot_pri_data := ctx;
     send_to_remote := send_to_remote s; recv_from_remote := recv_from_remote s |}.

(** [new_tcp], [connect]: modbus_new_tcp and modbus_connect succeed. *)
Definition engine_init_modbustcp_session (dev : option Z) (sess : option IoTBackendSession)
    (new_tcp connect : bool) : option iot_init_result :=
  match dev, sess with
  | Some mode, Some s =>
      let s := iot_bind s ModbusTcpDriver IOT_PROTO_TYPE_MODBUSTCP in
      let s := iot_modbus_state s IOT_SESS_STATE_IDLE (iot_working_mode s) false in
      if mode =? IOT_WORK_MODE_CLIENT then
        if negb new_tcp then Some (PROCESS_ERROR, s, []) else
        if negb connect then Some (PROCESS_ERROR, s, []) else
        Some (PROCESS_OK, iot_modbus_state s IOT_SESS_STATE_IDLE mode true, [])
      else Some (PROCESS_ERROR, s, [])
  | _, _ => None
  end.

(** ** Clean-up *)

(** The per-protocol functions do nothing and return OK; Modbus has no case. *)
Definition backend_cleanup_iot_session (sess : option IoTBackendSession) : status :=
  match sess with
  | None => PROCESS_ERROR
  | Some s =>
      if negb (iot_bound_dev s) then PROCESS_ERROR else
      if (iot_sess_type s =? IOT_PROTO_TYPE_BLUETOOTH) || (iot_sess_type s =? IOT_PROTO_TYPE_CAN)
         || (iot_sess_type s =? IOT_PROTO_TYPE_ZIGBEE) || (iot_sess_type s =? IOT_PROTO_TYPE_LORA)
         || (iot_sess_type s =? IOT_PROTO_TYPE_POWERLINK)
      then PROCESS_OK else PROCESS_ERROR
  end.

(** ** Sending *)

(** What a handler wrote, and where. *)
Definition iot_write : Type := option (Z * list Z).

(** [wr]: write returned a non-negative count. *)
Definition bluetooth_send_to_remote (s : IoTBackendSession) (b : IotMsgBuffer) (wr : bool)
  : outcome (status * iot_write * IoTBackendSession) :=
  if iot_working_mode s =? IOT_WORK_MODE_CLIENT then
    l ← bread (imb_data b) 0 (imb_len b);
    Done (if wr then PROCESS_OK else PROCESS_ERROR, Some (iot_dev_fd s, l), s)
  else Done (PROCESS_OK, None, s).

(** [struct can_frame]: can_id, can_dlc, three reserved bytes, data[8]. *)
Definition can_frame (can_id can_dlc : Z) (data : list Z) : outcome (list Z) :=
  f ← bput 4 (replicate 16 0) 0 can_id;
  f ← bput 1 f 4 can_dlc;
  bwrite f 8 data.

Definition can_send_to_remote (s : IoTBackendSession) (b : IotMsgBuffer) (wr : bool)
  : outcome (status * iot_write * IoTBackendSession) :=
  let can_dlc := u8 (imb_len b) in
  if CAN_MAX_DLEN <? can_dlc then Done (PROCESS_ERROR, None, s) else
  l ← bread (imb_data b) 0 can_dlc;
  f ← can_frame 0x123 can_dlc l;
  Done (if wr then PROCESS_OK else PROCESS_ERROR, Some (iot_dev_fd s, f), s).

(** A read request only marks the session; nothing is written. *)
Definition modbustcp_send_to_remote (s : IoTBackendSession) (b : IotMsgBuffer)
  : outcome (status * iot_write * IoTBackendSession) :=
  if iot_working_mode s =? IOT_WORK_MODE_CLIENT then
    cmd ← bget 1 (imb_data b) 0;
    Done (PROCESS_OK, None,
          if cmd =? IOT_MODBUS_CMD_READ_REQ
          then iot_modbus_state s IOT_SESS_STATE_PENDING (iot_working_mode s) (iot_pri_data s) else s)
  else Done (PROCESS_ERROR, None, s).

(** The call through the pointer [sess->send_to_remote]. *)
Definition iot_send (s : IoTBackendSession) (b : IotMsgBuffer) (wr : bool)
  : outcome (status * iot_write * IoTBackendSession) :=
  match send_to_remote s with
  | None => Fault NullDeref
  | Some BluetoothDriver => bluetooth_send_to_remote s b wr
  | Some CanDriver => can_send_to_remote s b wr
  | Some ModbusTcpDriver => modbustcp_send_to_remote s b
  | Some (ZigbeeDriver | LoraDriver | PowerLinkDriver) => Done (PROCESS_OK, None, s)
  end.

(** ** Receiving *)

(** read(2): the bytes, or -1 with errno EAGAIN/EWOULDBLOCK/EINTR or another. *)
Inductive read_result := ReadBytes (l : list Z) | ReadAgain | ReadFailed.

(** Answers of a receive: the read; getpeername, giving whether the family is
    AF_BLUETOOTH, the PSM and the 18 characters ba2str writes; the registers
    modbus_read_registers stores ([None]: it returned 0 or less). *)
Record recv_env := {
  rv_read : read_result;
  rv_peer : option (bool * Z * list Z);
  rv_regs : option (list Z) }.

Definition set_addr (b : IotMsgBuffer) (a : IotAddr) : IotMsgBuffer :=
  {| imb_data := imb_data b; imb_len := imb_len b; imb_addr := a |}.

Definition bluetooth_recv_from_remote (s : IoTBackendSession) (b : IotMsgBuffer) (e : recv_env)
  : outcome (status * IotMsgBuffer * IoTBackendSession) :=
  if iot_working_mode s =? IOT_WORK_MODE_CLIENT then
    match rv_read e with
    | ReadBytes [] => Done (PROCESS_ERROR, b, s)
    | ReadBytes l =>
        d ← bwrite (imb_data b) 0 l;
        let b := {| imb_data := d; imb_len := blen l; imb_addr := imb_addr b |} in
        match rv_peer e with
        | None => Done (PROCESS_ERROR, b, s)
        | Some (is_bt, psm, mac) =>
            if negb is_bt then Done (PROCESS_ERROR, b, s) else
            i ← bput 2 (addr_info (imb_addr b)) 18 psm;
            i ← bwrite i 0 mac;
            Done (PROCESS_OK, set_addr b {| addr_type := IOT_PROTO_TYPE_BLUETOOTH; addr_info := i |}, s)
        end
    | ReadAgain => Done (PROCESS_AGAIN, b, s)
    | ReadFailed => Done (PROCESS_ERROR, b, s)
    end
  else Done (PROCESS_OK, b, s).

(** The frame is read into 16 zeroed bytes; [rcv_size] bytes are then copied
    from its data field at offset 8. *)
Definition can_recv_from_remote (s : IoTBackendSession) (b : IotMsgBuffer) (e : recv_env)
  : outcome (status * IotMsgBuffer * IoTBackendSession) :=
  if iot_working_mode s =? IOT_WORK_MODE_CLIENT then
    match rv_read e with
    | ReadBytes [] => Done (PROCESS_ERROR, b, s)
    | ReadBytes l =>
        frame ← bwrite (replicate 16 0) 0 l;
        can_id ← bget 4 frame 0;
        i ← bput 4 (addr_info (imb_addr b)) 2 can_id;
        data ← bread frame 8 (blen l);
        d ← bwrite (imb_data b) 0 data;
        Done (PROCESS_OK,
              {| imb_data := d; imb_len := blen l;
                 imb_addr := {| addr_type := IOT_PROTO_TYPE_CAN; addr_info := i |} |}, s)
    | ReadAgain => Done (PROCESS_AGAIN, b, s)
    | ReadFailed => Done (PROCESS_ERROR, b, s)
    end
  else Done (PROCESS_ERROR, b, s).

(** The fixed peer "192.168.137.2:502", unit 0, one register at 0. *)
Definition modbus_peer_info : list Z := [192; 168; 137; 2] ++ le_bytes 2 502 ++ [0] ++ le_bytes 2 0 ++ le_bytes 2 1.

(** [regs] is a local array of ten registers. *)
Definition modbustcp_recv_from_remote (s : IoTBackendSession) (b : IotMsgBuffer) (e : recv_env)
  : outcome (status * IotMsgBuffer * IoTBackendSession) :=
  if iot_working_mode s =? IOT_WORK_MODE_CLIENT then
    if iot_sess_state s =? IOT_SESS_STATE_PENDING then
      if negb (iot_pri_data s) then Done (PROCESS_ERROR, b, s) else
      match rv_regs e with
      | None | Some [] => Done (PROCESS_ERROR, b, s)
      | Some regs =>
          _ ← require (length regs <=? 10)%nat OutOfBounds;
          i ← bwrite (addr_info (imb_addr b)) 0 modbus_peer_info;
          d ← bwrite (imb_data b) 0 (concat (map (le_bytes 2) regs));
          Done (PROCESS_OK,
                {| imb_data := d; imb_len := 2 * Z.of_nat (length regs);
                   imb_addr := {| addr_type := IOT_PROTO_TYPE_MODBUSTCP; addr_info := i |} |},
                iot_modbus_state s IOT_SESS_STATE_IDLE (iot_working_mode s) (iot_pri_data s))
      end
    else Done (PROCESS_ERROR, b, s)
  else Done (PROCESS_ERROR, b, s).

Definition iot_recv (s : IoTBackendSession) (b : IotMsgBuffer) (e : recv_env)
  : outcome (status * IotMsgBuffer * IoTBackendSession) :=
  match recv_from_remote s with
  | None => Fault NullDeref
  | Some BluetoothDriver => bluetooth_recv_from_remote s b e
  | Some CanDriver => can_recv_from_remote s b e
  | Some ModbusTcpDriver => modbustcp_recv_from_remote s b e
  | Some (ZigbeeDriver | LoraDriver | PowerLinkDriver) => Done (PROCESS_OK, b, s)
  end.

(** ** Modbus frames *)

Definition modbus_tcp_build_read_holding_registers_msg (raw_msg : list Z) (start_addr reg_num : Z)
  : outcome (Z * list Z) :=
  m ← bwrite raw_msg 0
        [0x00; 0x01; 0x00; 0x00; 0x00; 0x06; 0x01; 0x03;
         Z.land (Z.shiftr start_addr 8) 0xFF; Z.land start_addr 0xFF;
         Z.land (Z.shiftr reg_num 8) 0xFF; Z.land reg_num 0xFF];
  Done (12, m).

Fixpoint parse_registers_loop (n : nat) (i : Z) (rsp out_regs : list Z) : outcome (list Z) :=
  match n with
  | O => Done out_regs
  | S n =>
      hi ← bget 1 rsp (9 + i * 2);
      lo ← bget 1 rsp (10 + i * 2);
      _ ← require (i <? Z.of_nat (length out_regs)) OutOfBounds;
      parse_registers_loop n (i + 1) rsp (<[Z.to_nat i := Z.lor (Z.shiftl hi 8) lo]> out_regs)
  end.

(** [rsp] is the buffer, of which [rsp_len] bytes were received. *)
Definition modbus_tcp_parse_registers_from_response (rsp : list Z) (rsp_len : Z) (out_regs : list Z)
  : outcome (Z * list Z) :=
  if rsp_len <? 9 then Done (-1, out_regs) else
  fc ← bget 1 rsp 7;
  if negb (fc =? 0x03) then Done (-1, out_regs) else
  data_bytes ← bget 1 rsp 8;
  let reg_count := data_bytes / 2 in
  r ← parse_registers_loop (Z.to_nat reg_count) 0 rsp out_regs;
  Done (reg_count, r).
