(* ===== verification/IotSpec.v ===== *)
(** * IotSpec: what the IoT handlers do

    CAN frames, the Modbus request/response state machine, and the Modbus
    register parser. *)

From S2P Require Import Prelude Bytes ByteStore Message Iot.
From stdpp Require Import base list numbers option.
From Stdlib Require Import ZArith Lia.
#[local] Open Scope Z_scope.

(** ** CAN *)

(** The wire image of a CAN frame. *)
Definition can_image (data : list Z) : list Z :=
  le_bytes 4 0x123 ++ [blen data; 0; 0; 0] ++ data ++ replicate (8 - length data) 0.

Lemma can_frame_image data :
  blen data <= CAN_MAX_DLEN -> can_frame 0x123 (blen data) data = Done (can_image data).
Proof.
  intros Hl. unfold CAN_MAX_DLEN, blen in *.
  destruct data as [|a [|b [|c [|d [|e [|f [|g [|h [|i l]]]]]]]]]; try reflexivity. cbn in Hl. lia.
Qed.

(** Sending at most eight bytes writes exactly the frame. *)
Lemma can_send_ok s b wr data :
  bread (imb_data b) 0 (imb_len b) = Done data -> imb_len b <= CAN_MAX_DLEN ->
  can_send_to_remote s b wr =
  Done (if wr then PROCESS_OK else PROCESS_ERROR, Some (iot_dev_fd s, can_image data), s).
Proof.
  intros Hr Hl. pose proof (bread_length _ _ _ _ Hr) as Hlen. unfold CAN_MAX_DLEN in *.
  assert (0 <= imb_len b) by (unfold blen in Hlen; lia).
  unfold can_send_to_remote, CAN_MAX_DLEN. rewrite u8_id by lia.
  rewrite (proj2 (Z.ltb_ge 8 (imb_len b))) by lia. rewrite Hr. cbn [mbind outcome_bind].
  rewrite <- Hlen. rewrite can_frame_image by (unfold CAN_MAX_DLEN; lia). done.
Qed.

(** Receiving a CAN frame in client mode is always undefined: the kernel
    returns the 16 bytes of the frame, and copying that many bytes out of its
    8-byte data field reads past the end of the structure. *)
Theorem can_recv_reads_past_frame s b peer regs frame :
  iot_working_mode s = IOT_WORK_MODE_CLIENT -> blen frame = sizeof_can_frame ->
  6 <= blen (addr_info (imb_addr b)) ->
  can_recv_from_remote s b {| rv_read := ReadBytes frame; rv_peer := peer; rv_regs := regs |} = Fault OutOfBounds.
Proof.
  intros Hm Hl Ha. unfold can_recv_from_remote, sizeof_can_frame in *. rewrite Hm.
  cbn [Z.eqb IOT_WORK_MODE_CLIENT rv_read]. destruct frame as [|x l]; [done|]. set (frame := x :: l) in *.
  destruct (bwrite_ok (replicate 16 0) 0 frame) as [f Hf]; [lia|unfold blen in *; rewrite length_replicate; lia|].
  pose proof (bwrite_length _ _ _ _ Hf) as Hfl. rewrite Hf. cbn [mbind outcome_bind].
  assert (blen f = 16) as Hf16 by (rewrite Hfl; reflexivity).
  destruct (bget_ok 4 f 0) as [v Hv]; [lia|cbn; lia|]. rewrite Hv. cbn [mbind outcome_bind].
  destruct (bput_ok 4 (addr_info (imb_addr b)) 2 v) as [i Hi]; [lia|cbn; lia|]. rewrite Hi. cbn [mbind outcome_bind].
  rewrite bread_fault by lia. done.
Qed.

(** ** Modbus requests and responses *)

(** What happens to a Modbus session: a message from the frontend, or a poll by
    the engine. *)
Inductive modbus_event := EvSend (b : IotMsgBuffer) | EvRecv (b : IotMsgBuffer) (e : recv_env).

(** A message has a command byte; a poll offers room for ten registers. *)
Definition modbus_event_ok (ev : modbus_event) : Prop :=
  match ev with
  | EvSend b => 1 <= blen (imb_data b)
  | EvRecv b e => 20 <= blen (imb_data b) /\ blen modbus_peer_info <= blen (addr_info (imb_addr b)) /\
                  forall regs, rv_regs e = Some regs -> (length regs <= 10)%nat
  end.

(** Run the events, counting read requests and delivered responses. *)
Fixpoint modbus_run (evs : list modbus_event) (s : IoTBackendSession) (reqs resps : Z)
  : outcome (Z * Z * IoTBackendSession) :=
  match evs with
  | [] => Done (reqs, resps, s)
  | EvSend b :: evs =>
      cmd ← bget 1 (imb_data b) 0;
      r ← modbustcp_send_to_remote s b;
      modbus_run evs (snd r) (if cmd =? IOT_MODBUS_CMD_READ_REQ then reqs + 1 else reqs) resps
  | EvRecv b e :: evs =>
      r ← modbustcp_recv_from_remote s b e;
      let '(st, _, s) := r in
      modbus_run evs s reqs (if decide (st = PROCESS_OK) then resps + 1 else resps)
  end.

Definition modbus_pending (s : IoTBackendSession) : Z :=
  if iot_sess_state s =? IOT_SESS_STATE_PENDING then 1 else 0.

Lemma modbus_send_step s b :
  iot_working_mode s = IOT_WORK_MODE_CLIENT -> 1 <= blen (imb_data b) ->
  exists cmd s', bget 1 (imb_data b) 0 = Done cmd /\ modbustcp_send_to_remote s b = Done (PROCESS_OK, None, s') /\
  iot_working_mode s' = IOT_WORK_MODE_CLIENT /\
  modbus_pending s' <= modbus_pending s + (if cmd =? IOT_MODBUS_CMD_READ_REQ then 1 else 0) /\
  (cmd = IOT_MODBUS_CMD_READ_REQ -> modbus_pending s' = 1).
Proof.
  intros Hm Hb. destruct (bget_ok 1 (imb_data b) 0) as [cmd Hc]; [lia|cbn; lia|].
  unfold modbustcp_send_to_remote. rewrite Hm, Hc. cbn. exists cmd. eexists. split; [done|]. split; [done|].
  unfold modbus_pending. destruct (cmd =? IOT_MODBUS_CMD_READ_REQ) eqn:E; cbn.
  - split; [done|]. split; [|done]. case_match; lia.
  - split; [done|]. split; [lia|]. intros ->. done.
Qed.

Lemma modbus_recv_step s b e :
  iot_working_mode s = IOT_WORK_MODE_CLIENT -> modbus_event_ok (EvRecv b e) ->
  exists st b' s', modbustcp_recv_from_remote s b e = Done (st, b', s') /\
  iot_working_mode s' = IOT_WORK_MODE_CLIENT /\
  (if decide (st = PROCESS_OK) then modbus_pending s = 1 /\ modbus_pending s' = 0 else s' = s).
Proof.
  intros Hm (Hd & Ha & Hr). unfold modbustcp_recv_from_remote. rewrite Hm. cbn [Z.eqb IOT_WORK_MODE_CLIENT].
  unfold modbus_pending at 1. destruct (iot_sess_state s =? IOT_SESS_STATE_PENDING) eqn:Est; cbn [negb].
  2:{ do 3 eexists. split; [reflexivity|]. by rewrite decide_False. }
  destruct (iot_pri_data s) eqn:Ep; cbn [negb]; [|do 3 eexists; split; [reflexivity|]; by rewrite decide_False].
  destruct (rv_regs e) as [[|r regs]|] eqn:Er;
    [do 3 eexists; split; [reflexivity|]; by rewrite decide_False| |do 3 eexists; split; [reflexivity|]; by rewrite decide_False].
  specialize (Hr _ eq_refl). rewrite require_true by (by apply Nat.leb_le). cbn [mbind outcome_bind].
  destruct (bwrite_ok (addr_info (imb_addr b)) 0 modbus_peer_info) as [i ->]; [lia|lia|]. cbn [mbind outcome_bind].
  destruct (bwrite_ok (imb_data b) 0 (concat (map (le_bytes 2) (r :: regs)))) as [d ->]; [lia| |].
  { assert (forall l, blen (concat (map (le_bytes 2) l)) = 2 * Z.of_nat (length l)) as ->; [|cbn [length] in *; lia].
    clear. induction l as [|x l IH]; [done|]. cbn [map concat]. unfold blen in *. rewrite length_app, length_le_bytes. cbn [length]. lia. }
  cbn [mbind outcome_bind]. do 3 eexists. split; [reflexivity|]. split; [done|]. rewrite decide_True by done.
  done.
Qed.

Lemma modbus_run_bound evs s reqs resps :
  iot_working_mode s = IOT_WORK_MODE_CLIENT -> Forall modbus_event_ok evs ->
  resps + modbus_pending s <= reqs ->
  exists reqs' resps' s', modbus_run evs s reqs resps = Done (reqs', resps', s') /\
  resps' + modbus_pending s' <= reqs' /\ reqs <= reqs' /\ resps <= resps'.
Proof.
  revert s reqs resps. induction evs as [|[b|b e] evs IH]; intros s reqs resps Hm Hev Hb.
  - do 3 eexists. split; [reflexivity|]. lia.
  - apply Forall_cons_1 in Hev as [Hok Hev].
    destruct (modbus_send_step s b Hm Hok) as (cmd & s1 & Hc & Hs & Hm1 & Hp & _).
    cbn [modbus_run]. rewrite Hc, Hs. cbn [mbind outcome_bind snd].
    destruct (IH s1 (if cmd =? IOT_MODBUS_CMD_READ_REQ then reqs + 1 else reqs) resps Hm1 Hev)
      as (q & r & s' & -> & ? & ? & ?); [case_match; lia|].
    do 3 eexists. split; [reflexivity|]. case_match; lia.
  - apply Forall_cons_1 in Hev as [Hok Hev].
    destruct (modbus_recv_step s b e Hm Hok) as (st & b' & s1 & Hs & Hm1 & Hp).
    cbn [modbus_run]. rewrite Hs. cbn [mbind outcome_bind].
    destruct (IH s1 reqs (if decide (st = PROCESS_OK) then resps + 1 else resps) Hm1 Hev)
      as (q & r & s' & -> & ? & ? & ?); [case_decide; [lia|subst s1; lia]|].
    do 3 eexists. split; [reflexivity|]. case_decide; lia.
Qed.

(** C37. A Modbus client session never answers unasked: from an idle session,
    whatever messages arrive and however often the engine polls, the run is
    defined and the responses delivered never outnumber the read requests
    received. *)
Theorem modbus_responses_match_requests evs s :
  iot_working_mode s = IOT_WORK_MODE_CLIENT -> iot_sess_state s = IOT_SESS_STATE_IDLE ->
  Forall modbus_event_ok evs ->
  exists reqs resps s', modbus_run evs s 0 0 = Done (reqs, resps, s') /\ 0 <= resps <= reqs.
Proof.
  intros Hm Hi Hev. destruct (modbus_run_bound evs s 0 0 Hm Hev) as (q & r & s' & -> & ? & ? & ?).
  { unfold modbus_pending. by rewrite Hi. }
  do 3 eexists. split; [reflexivity|]. assert (0 <= modbus_pending s') by (unfold modbus_pending; case_match; lia). lia.
Qed.

(** ** Parsing registers *)

Definition be16 (v : Z) : list Z := [v / 256; v mod 256].

(** A "read holding registers" response: a 7-byte MBAP header, function code 3,
    the byte count and the registers, big-endian. *)
Definition modbus_response (mbap : list Z) (regs : list Z) : list Z :=
  mbap ++ [0x03; 2 * Z.of_nat (length regs)] ++ concat (map be16 regs).

Lemma bget1_app pre x rest o : o = blen pre -> 0 <= x -> bget 1 (pre ++ x :: rest) o = Done x.
Proof.
  intros -> Hx. unfold bget. rewrite bread_ok by (unfold blen; rewrite ?length_app; cbn [length]; lia).
  unfold blen. rewrite (Nat2Z.id (length pre)), drop_app_length. change (Z.to_nat (Z.of_nat 1)) with 1%nat. cbn [take mbind outcome_bind le_val fold_right]. rewrite take_0. cbn [le_val]. f_equal. lia.
Qed.

Lemma be16_join v : 0 <= v < 65536 -> Z.lor (Z.shiftl (v / 256) 8) (v mod 256) = v.
Proof.
  intros Hv. rewrite Z.shiftl_mul_pow2 by lia. rewrite <- Z.add_nocarry_lor.
  - rewrite (Z.div_mod v 256) at 3 by lia. change (2 ^ 8) with 256. lia.
  - apply Z.bits_inj'. intros n Hn. rewrite Z.land_spec, Z.bits_0.
    change 256 with (2 ^ 8) at 2. destruct (Z.lt_ge_cases n 8).
    + rewrite Z.mul_pow2_bits_low by lia. done.
    + rewrite (Z.mod_pow2_bits_high v 8 n) by lia. apply andb_false_r.
Qed.

Lemma parse_loop_spec regs i pre rest out :
  Forall (fun v => 0 <= v < 65536) regs -> blen pre = 9 + i * 2 -> 0 <= i ->
  (Z.to_nat i + length regs <= length out)%nat ->
  parse_registers_loop (length regs) i (pre ++ concat (map be16 regs) ++ rest) out =
  Done (take (Z.to_nat i) out ++ regs ++ drop (Z.to_nat i + length regs) out).
Proof.
  revert i pre out. induction regs as [|v regs IH]; intros i pre out Hr Hp Hi Hl.
  { cbn. f_equal. rewrite Nat.add_0_r. by rewrite take_drop. }
  apply Forall_cons_1 in Hr as [Hv Hr]. cbn [length parse_registers_loop map concat be16 app].
  assert (0 <= v / 256) by (apply Z.div_pos; lia). pose proof (Z.mod_pos_bound v 256).
  rewrite (bget1_app pre _ _ (9 + i * 2)) by (assumption || (rewrite Hp; lia)). cbn [mbind outcome_bind].
  rewrite (app_assoc pre [v / 256] (v mod 256 :: _) : pre ++ v / 256 :: v mod 256 :: _ = _).
  rewrite bget1_app by (unfold blen in *; rewrite ?length_app; cbn [length]; lia). cbn [mbind outcome_bind].
  cbn [length] in Hl. rewrite require_true by (apply Z.ltb_lt; lia). cbn [mbind outcome_bind].
  rewrite be16_join by done.
  assert ((pre ++ [v / 256]) ++ v mod 256 :: concat (map be16 regs) ++ rest =
          (pre ++ be16 v) ++ concat (map be16 regs) ++ rest) as ->.
  { unfold be16. rewrite <- !app_assoc. done. }
  rewrite IH; [|done|unfold blen in *; rewrite length_app; cbn [length be16]; lia|lia|rewrite length_insert; lia].
  f_equal. replace (Z.to_nat (i + 1)) with (S (Z.to_nat i)) by lia.
  rewrite (take_S_r _ _ v) by (apply list_lookup_insert_eq; lia).
  rewrite take_insert_ge by lia. rewrite drop_insert_lt by lia. rewrite <- app_assoc.
  cbn [app]. do 3 f_equal. f_equal. lia.
Qed.

(** Parsing a Modbus response recovers its registers: for a response with
    up to 127 registers that fit the output array,
    [modbus_tcp_parse_registers_from_response] returns their number and stores
    exactly them, leaving the rest of the array alone. *)
Theorem modbus_parse_roundtrip mbap regs out :
  length mbap = 7%nat -> (length regs <= 127)%nat -> Forall (fun v => 0 <= v < 65536) regs ->
  (length regs <= length out)%nat ->
  let rsp := modbus_response mbap regs in
  modbus_tcp_parse_registers_from_response rsp (blen rsp) out =
  Done (Z.of_nat (length regs), regs ++ drop (length regs) out).
Proof.
  intros Hm Hn Hr Ho rsp. unfold modbus_tcp_parse_registers_from_response, rsp, modbus_response.
  rewrite (proj2 (Z.ltb_ge _ 9)) by (unfold blen; rewrite !length_app, Hm; cbn [length]; lia).
  cbn [app]. rewrite (bget1_app mbap _ _ 7) by (unfold blen; lia). cbn [mbind outcome_bind negb Z.eqb Pos.eqb].
  rewrite (app_assoc mbap [3] (_ :: _) : mbap ++ 3 :: _ :: _ = _).
  rewrite (bget1_app (mbap ++ [3]) _ _ 8) by (unfold blen; rewrite ?length_app, ?Hm; cbn [length]; lia). cbn [mbind outcome_bind].
  rewrite (Z.mul_comm 2), Z.div_mul by lia. rewrite Nat2Z.id.
  assert ((mbap ++ [3]) ++ Z.of_nat (length regs) * 2 :: concat (map be16 regs) =
          (mbap ++ [3; Z.of_nat (length regs) * 2]) ++ concat (map be16 regs) ++ []) as ->.
  { rewrite app_nil_r, <- !app_assoc. done. }
  rewrite parse_loop_spec; [|done|unfold blen; rewrite length_app, Hm; done|lia|cbn; lia]. done.
Qed.

(** ** Witnesses *)

Definition demo_iot (drv : iot_driver) (type : Z) : IoTBackendSession :=
  {| iot_sess_type := type; iot_sess_state := IOT_SESS_STATE_IDLE; iot_working_mode := IOT_WORK_MODE_CLIENT;
     iot_bound_dev := true; iot_dev_fd := 9; iot_listen_fd := -1; iot_sock_list := []; iot_pri_data := true;
     send_to_remote := Some drv; recv_from_remote := Some drv |}.

Definition demo_msg (data : list Z) : IotMsgBuffer :=
  {| imb_data := data; imb_len := blen data; imb_addr := zero_addr |}.

Definition demo_recv (regs : option (list Z)) : recv_env :=
  {| rv_read := ReadBytes (replicate 16 1); rv_peer := None; rv_regs := regs |}.

Lemma can_recv_reads_past_frame_witness :
  can_recv_from_remote (demo_iot CanDriver IOT_PROTO_TYPE_CAN) (demo_msg (replicate 1024 0)) (demo_recv None)
  = Fault OutOfBounds.
Proof. apply can_recv_reads_past_frame; [reflexivity|reflexivity|by vm_compute]. Defined.

(** Two polls per request: the second finds the session idle. *)
Definition demo_modbus_events : list modbus_event :=
  let poll := EvRecv (demo_msg (replicate 1024 0)) (demo_recv (Some [42])) in
  [poll; EvSend (demo_msg [IOT_MODBUS_CMD_READ_REQ; 0; 0]); poll; poll; EvSend (demo_msg [0; 0; 0]); poll].

Lemma modbus_responses_match_requests_witness :
  exists s', modbus_run demo_modbus_events (demo_iot ModbusTcpDriver IOT_PROTO_TYPE_MODBUSTCP) 0 0
             = Done (1, 1, s').
Proof.
  destruct (modbus_responses_match_requests demo_modbus_events (demo_iot ModbusTcpDriver IOT_PROTO_TYPE_MODBUSTCP)
              eq_refl eq_refl) as (q & r & s' & E & _).
  - assert (modbus_event_ok (EvRecv (demo_msg (replicate 1024 0)) (demo_recv (Some [42])))) as Hp.
    { cbn [modbus_event_ok demo_msg imb_data imb_addr]. split; [unfold blen; rewrite length_replicate; lia|].
      split; [by vm_compute|]. intros ? [= <-]. cbn. lia. }
    unfold demo_modbus_events. repeat (apply Forall_cons_2; [first [exact Hp | by vm_compute]|]). apply Forall_nil_2.
  - exists s'. rewrite E. cbv in E. by injection E as <- <- <-.
Defined.

Lemma modbus_parse_roundtrip_witness :
  modbus_tcp_parse_registers_from_response (modbus_response [0; 1; 0; 0; 0; 7; 1] [300; 7]) 13 [0; 0; 0]
  = Done (2, [300; 7; 0]).
Proof.
  apply (modbus_parse_roundtrip [0; 1; 0; 0; 0; 7; 1] [300; 7] [0; 0; 0]); [done|cbn; lia| |cbn; lia].
  repeat constructor; lia.
Defined.
