(* ===== verification/Proto.v ===== *)
(** * Proto: dispatch of the frontend's messages

    [backend_proxy_msg_process] of src/backend_proto.c and the handlers it
    calls (lines 7-848 and 2175-2621).  A message is a byte buffer; every field
    is read from it with bounds checks.  [proxy] is the whole backend: the
    session world and the six global IoT sessions. *)

From S2P Require Import Prelude Bytes Mem HyperampLinux ByteStore Message Build Session Device Responses SessionPool Iot.
From stdpp Require Import base list numbers option gmap.
From Stdlib Require Import ZArith Lia.
#[local] Open Scope Z_scope.

Record iot_sessions := {
  backend_bluetooth_sess : option IoTBackendSession;
  backend_can_sess : option IoTBackendSession;
  backend_zigbee_sess : option IoTBackendSession;
  backend_lora_sess : option IoTBackendSession;
  backend_powerlink_sess : option IoTBackendSession;
  backend_modbustcp_sess : option IoTBackendSession }.

(** [px_out]: what the IoT handlers wrote, oldest first. *)
Record proxy := { px_world : world; px_iot : iot_sessions; px_out : list (Z * list Z) }.

Definition with_world (x : proxy) (w : world) : proxy :=
  {| px_world := w; px_iot := px_iot x; px_out := px_out x |}.

(** What the environment answers while one message is processed: [me_create]
    for a session creation, [me_seg] and [me_data] for the mallocs of a
    segment, [me_epoll] for epoll_ctl, [me_write] for an IoT write. *)
Record msg_env := {
  me_create : create_env; me_seg : bool; me_data : option (list Z); me_epoll : bool; me_write : bool }.

(** ** Device and strategy messages *)

Definition backend_proxy_dev_msg_process_ver1 (msg_type action_type payload_len : Z) : status :=
  let corr_len := DEV_MSG_PAYLOAD_LEN msg_type action_type in
  if (corr_len =? PROXY_MSG_INVALID_LEN) || negb (corr_len =? payload_len) then PROCESS_ERROR else
  if (msg_type =? DEV_MSG_DISABLE) || (msg_type =? DEV_MSG_ENABLE) || (msg_type =? DEV_MSG_QUERY)
  then PROCESS_OK else PROCESS_ERROR.

Definition backend_proxy_dev_msg_process (msg : list Z) (off : Z) : outcome status :=
  h ← get_DevMsgHeader msg off;
  if negb (dmh_action_type h =? ACTION_TYPE_COMMAND) then Done PROCESS_ERROR else
  if dmh_version h =? PROXY_PROTO_DEV_VERSION_1
  then Done (backend_proxy_dev_msg_process_ver1 (dmh_msg_type h) (dmh_action_type h) (dmh_payload_len h))
  else Done PROCESS_ERROR.

Definition backend_proxy_strgy_msg_process_ver1 (msg_type action_type payload_len : Z) : status :=
  let corr_len := STRGY_MSG_PAYLOAD_LEN msg_type action_type in
  if (corr_len =? PROXY_MSG_INVALID_LEN) || negb (corr_len =? payload_len) then PROCESS_ERROR else
  if (msg_type =? STRGY_MSG_SET) || (msg_type =? STRGY_MSG_QUERY) then PROCESS_OK else PROCESS_ERROR.

Definition backend_proxy_strgy_msg_process (msg : list Z) (off : Z) : outcome status :=
  h ← get_StrgyMsgHeader msg off;
  if negb (stmh_action_type h =? ACTION_TYPE_COMMAND) then Done PROCESS_ERROR else
  if stmh_version h =? PROXY_PROTO_STRGY_VERSION_1
  then Done (backend_proxy_strgy_msg_process_ver1 (stmh_msg_type h) (stmh_action_type h) (stmh_payload_len h))
  else Done PROCESS_ERROR.

(** ** Session messages *)

Definition sizeof_SessParaIPv4 : Z := 10.
Definition sizeof_SessParaIPv6 : Z := 22.

(** [n] address bytes between [dev_id], [trans_proto] and [port]. *)
Definition get_sess_para (msg : list Z) (off n fsid ipv : Z) : outcome SessMsgPara :=
  dev ← bget 2 msg off;
  tp ← bget 2 msg (off + 2);
  addr ← bread msg (off + 4) n;
  port ← bget 2 msg (off + 4 + n);
  Done {| para_frontend_sess_id := fsid; para_dev_id := dev; para_ip_version := ipv;
          para_trans_proto := tp; para_ip_port := addr ++ le_bytes 2 port |}.

Definition backend_proxy_sess_msg_process_active_create_ver1 (w : world) (fsid ipv payload_len : Z)
    (msg : list Z) (off : Z) (env : create_env) : outcome (status * world) :=
  if ipv =? SESS_IPV4_PROTO then
    if negb (payload_len =? sizeof_SessParaIPv4) then Done (PROCESS_ERROR, w) else
    para ← get_sess_para msg off 4 fsid SESS_IPV4_PROTO;
    r ← high_speed_create_sess_active w para env; Done (fst (fst r), snd r)
  else if ipv =? SESS_IPV6_PROTO then
    if negb (payload_len =? sizeof_SessParaIPv6) then Done (PROCESS_ERROR, w) else
    para ← get_sess_para msg off 16 fsid SESS_IPV6_PROTO;
    r ← high_speed_create_sess_active w para env; Done (fst (fst r), snd r)
  else Done (PROCESS_ERROR, w).

Definition backend_proxy_sess_msg_process_passive_create_ver1 (w : world) (bsid : Z) (epoll_ok : bool)
  : outcome (status * world) :=
  if eng_mem_pool (eng_tx (w_eng w)) =? 0 then Done (PROCESS_ERROR, w) else
  match high_speed_search_sess w bsid with
  | None => Done (PROCESS_ERROR, w)
  | Some p =>
      s ← get_sess w p;
      if negb (establish_mode s =? SESS_ESTABLISH_PASSIVE) then Done (PROCESS_ERROR, w) else
      let '(ret, s) := BACKEND_SESS_REGISTER_EPOLL epoll_ok s EPOLLIN in
      Done (ret, put_sess w p s)
  end.

Definition backend_proxy_sess_msg_process_close_ver1 (w : world) (bsid : Z) (epoll_ok : bool)
  : outcome (status * world) :=
  match high_speed_search_sess w bsid with
  | None => Done (PROCESS_ERROR, w)
  | Some p =>
      r ← high_speed_delete_sess w p epoll_ok;
      Done (match fst r with PROCESS_OK => PROCESS_OK | _ => PROCESS_ERROR end, snd r)
  end.

Definition backend_proxy_sess_msg_process_ver1 (w : world) (fsid bsid msg_type action_type ipv payload_len : Z)
    (msg : list Z) (off : Z) (env : msg_env) : outcome (status * world) :=
  let corr_len := SESS_MSG_PAYLOAD_LEN msg_type action_type ipv in
  if (corr_len =? PROXY_MSG_INVALID_LEN) || negb (corr_len =? payload_len) then Done (PROCESS_ERROR, w) else
  if msg_type =? SESS_MSG_CREATE then
    if negb (bsid =? BACKEND_HANDOVER_SESSION_ID) then
      if negb (action_type =? ACTION_TYPE_RESPONSE) then Done (PROCESS_ERROR, w)
      else backend_proxy_sess_msg_process_passive_create_ver1 w bsid (me_epoll env)
    else backend_proxy_sess_msg_process_active_create_ver1 w fsid ipv payload_len msg off (me_create env)
  else if msg_type =? SESS_MSG_CLOSE then
    backend_proxy_sess_msg_process_close_ver1 w bsid (me_epoll env)
  else Done (PROCESS_ERROR, w).

Definition backend_proxy_sess_msg_process (w : world) (fsid bsid : Z) (msg : list Z) (off : Z) (env : msg_env)
  : outcome (status * world) :=
  h ← get_SessMsgHeader msg off;
  if negb (semh_action_type h =? ACTION_TYPE_COMMAND) && negb (semh_action_type h =? ACTION_TYPE_RESPONSE)
  then Done (PROCESS_ERROR, w) else
  if semh_version h =? PROXY_PROTO_SESS_VERSION_1 then
    backend_proxy_sess_msg_process_ver1 w fsid bsid (semh_msg_type h) (semh_action_type h)
      (semh_ip_version h) (semh_payload_len h) msg (off + sizeof_SessMsgHeader) env
  else Done (PROCESS_ERROR, w).

(** ** Data messages *)

Definition backend_proxy_data_msg_process (w : world) (bsid data_len : Z) (msg : list Z) (off : Z) (env : msg_env)
  : outcome (status * world) :=
  let mem_pool := eng_mem_pool (eng_tx (w_eng w)) in
  if mem_pool =? 0 then Done (PROCESS_ERROR, w) else
  match high_speed_search_sess w bsid with
  | None => Done (PROCESS_ERROR, w)
  | Some p =>
      match sess_msg_seg_alloc (me_seg env) (me_data env) data_len SESS_MSG_SEG_DYNAMIC_ALLOC None mem_pool with
      | None => Done (PROCESS_ERROR, w)
      | Some seg =>
          bytes ← bread msg off data_len;
          d ← bwrite (default [] (seg_data seg)) 0 bytes;
          let seg := {| seg_len := seg_len seg; seg_type := seg_type seg; seg_data := Some d |} in
          s ← get_sess w p;
          w ← BACKEND_SESS_LINK_TO_QUEUE (put_sess w p (SESS_MSG_SEG_INSERT_QUEUE s seg F2B)) p F2B;
          Done (PROCESS_OK, w)
      end
  end.

(** ** IoT messages *)

Definition set_iot (x : proxy) (proto : Z) (s : IoTBackendSession) (out : iot_write) : proxy :=
  let i := px_iot x in
  {| px_world := px_world x;
     px_iot :=
       {| backend_bluetooth_sess := if proto =? IOT_PROTO_TYPE_BLUETOOTH then Some s else backend_bluetooth_sess i;
          backend_can_sess := if proto =? IOT_PROTO_TYPE_CAN then Some s else backend_can_sess i;
          backend_zigbee_sess := backend_zigbee_sess i; backend_lora_sess := backend_lora_sess i;
          backend_powerlink_sess := backend_powerlink_sess i;
          backend_modbustcp_sess := if proto =? IOT_PROTO_TYPE_MODBUSTCP then Some s else backend_modbustcp_sess i |};
     px_out := px_out x ++ match out with Some o => [o] | None => [] end |}.

(** Label of the common tail: the call through [send_to_remote]. *)
Definition iot_dispatch (x : proxy) (proto : Z) (s : IoTBackendSession) (b : IotMsgBuffer) (env : msg_env)
  : outcome (status * proxy) :=
  r ← iot_send s b (me_write env);
  let '(st, out, s) := r in Done (st, set_iot x proto s out).

Definition payload_at (msg : list Z) (off : Z) : list Z := drop (Z.to_nat off) msg.

(** [off]: where [iot_data] points; [plen]: [iot_header->payload_len]. *)
Definition backend_proxy_bluetooth_msg_process (x : proxy) (plen : Z) (msg : list Z) (off : Z) (env : msg_env)
  : outcome (status * proxy) :=
  match backend_bluetooth_sess (px_iot x) with
  | None => Done (PROCESS_ERROR, x)
  | Some s =>
      if BACKEND_BLUETOOTH_MAX_PAYLOAD <? plen then Done (PROCESS_ERROR, x) else
      if plen <? sizeof_IotBtAddr then Done (PROCESS_ERROR, x) else
      mac ← bread msg off 18;
      port ← bget 2 msg (off + 18);
      i ← bwrite (replicate 20 0) 0 mac;
      i ← bput 2 i 18 port;
      iot_dispatch x IOT_PROTO_TYPE_BLUETOOTH s
        {| imb_data := payload_at msg (off + sizeof_IotBtAddr); imb_len := plen - sizeof_IotBtAddr;
           imb_addr := {| addr_type := 0; addr_info := i |} |} env
  end.

Definition backend_proxy_can_msg_process (x : proxy) (plen : Z) (msg : list Z) (off : Z) (env : msg_env)
  : outcome (status * proxy) :=
  match backend_can_sess (px_iot x) with
  | None => Done (PROCESS_ERROR, x)
  | Some s =>
      if BACKEND_CAN_MAX_PAYLOAD <? plen then Done (PROCESS_ERROR, x) else
      if plen <? sizeof_IotCanAddr then Done (PROCESS_ERROR, x) else
      bus_id ← bget 1 msg (off + 6);
      can_id ← bget 4 msg (off + 2);
      port ← bget 2 msg off;
      i ← bput 1 (replicate 20 0) 6 bus_id;
      i ← bput 4 i 2 can_id;
      i ← bput 2 i 0 port;
      iot_dispatch x IOT_PROTO_TYPE_CAN s
        {| imb_data := payload_at msg (off + sizeof_IotCanAddr); imb_len := plen - sizeof_IotCanAddr;
           imb_addr := {| addr_type := 0; addr_info := i |} |} env
  end.

(** Zigbee, LoRa and POWERLINK messages are accepted and dropped. *)
Definition iot_accept (s : option IoTBackendSession) : status :=
  match s with None => PROCESS_ERROR | Some _ => PROCESS_OK end.

(** [len] is the header's [payload_len], the address included. *)
Definition backend_proxy_modbustcp_msg_process (x : proxy) (plen : Z) (msg : list Z) (off : Z) (env : msg_env)
  : outcome (status * proxy) :=
  match backend_modbustcp_sess (px_iot x) with
  | None => Done (PROCESS_ERROR, x)
  | Some s =>
      if BACKEND_MODBUS_TCP_MAX_PAYLOAD <? plen then Done (PROCESS_ERROR, x) else
      if plen <? sizeof_IotModbusTcpAddr then Done (PROCESS_ERROR, x) else
      ip ← bread msg off 4;
      port ← bget 2 msg (off + 4);
      unit_id ← bget 1 msg (off + 6);
      reg_addr ← bget 2 msg (off + 7);
      reg_num ← bget 2 msg (off + 9);
      i ← bwrite (replicate 20 0) 0 ip;
      i ← st_puts [(2%nat, port); (1%nat, unit_id); (2%nat, reg_addr); (2%nat, reg_num)] i 4;
      iot_dispatch x IOT_PROTO_TYPE_MODBUSTCP s
        {| imb_data := payload_at msg (off + sizeof_IotModbusTcpAddr); imb_len := plen;
           imb_addr := {| addr_type := 0; addr_info := i |} |} env
  end.

Definition backend_proxy_iot_msg_process (x : proxy) (msg_len : Z) (msg : list Z) (off : Z) (env : msg_env)
  : outcome (status * proxy) :=
  h ← get_IotMsgHeader msg off;
  let data := off + sizeof_IotMsgHeader in
  let i := px_iot x in
  let too_short n := msg_len <? sizeof_IotMsgHeader + n in
  if imh_proto_type h =? IOT_PROTO_TYPE_BLUETOOTH then
    if too_short sizeof_IotBtAddr then Done (PROCESS_ERROR, x)
    else backend_proxy_bluetooth_msg_process x (imh_payload_len h) msg data env
  else if imh_proto_type h =? IOT_PROTO_TYPE_CAN then
    if too_short sizeof_IotCanAddr then Done (PROCESS_ERROR, x)
    else backend_proxy_can_msg_process x (imh_payload_len h) msg data env
  else if imh_proto_type h =? IOT_PROTO_TYPE_ZIGBEE then
    if too_short sizeof_IotZigbeeAddr then Done (PROCESS_ERROR, x) else Done (iot_accept (backend_zigbee_sess i), x)
  else if imh_proto_type h =? IOT_PROTO_TYPE_LORA then
    if too_short sizeof_IotLoraAddr then Done (PROCESS_ERROR, x) else Done (iot_accept (backend_lora_sess i), x)
  else if imh_proto_type h =? IOT_PROTO_TYPE_POWERLINK then
    if too_short sizeof_IotPowerLinkAddr then Done (PROCESS_ERROR, x)
    else Done (iot_accept (backend_powerlink_sess i), x)
  else if imh_proto_type h =? IOT_PROTO_TYPE_MODBUSTCP then
    if too_short sizeof_IotModbusTcpAddr then Done (PROCESS_ERROR, x)
    else backend_proxy_modbustcp_msg_process x (imh_payload_len h) msg data env
  else Done (PROCESS_ERROR, x).

(** ** The dispatcher *)

Definition on_world (x : proxy) (r : outcome (status * world)) : outcome (status * proxy) :=
  r ← r; Done (fst r, with_world x (snd r)).

Definition backend_proxy_msg_process (x : proxy) (msg : list Z) (env : msg_env) : outcome (status * proxy) :=
  h ← get_ProxyMsgHeader msg 0;
  let t := pmh_type h in
  let fsid := pmh_frontend_sess_id h in
  let bsid := pmh_backend_sess_id h in
  let admin := (fsid =? FRONTEND_ADMIN_SESSION_ID) && (bsid =? BACKEND_ADMIN_SESSION_ID) in
  if negb (PROXY_MSG_TYPE_VALID t) then Done (PROCESS_ERROR, x) else
  if negb (PROXY_MSG_LEN_VALID (pmh_payload_len h)) then Done (PROCESS_ERROR, x) else
  if t =? PROXY_MSG_TYPE_DEV then
    if negb admin then Done (PROCESS_ERROR, x) else
    st ← backend_proxy_dev_msg_process msg PROXY_MSG_HDR_SIZE; Done (st, x)
  else if t =? PROXY_MSG_TYPE_STRGY then
    if negb admin then Done (PROCESS_ERROR, x) else
    st ← backend_proxy_strgy_msg_process msg PROXY_MSG_HDR_SIZE; Done (st, x)
  else if t =? PROXY_MSG_TYPE_SESS then
    on_world x (backend_proxy_sess_msg_process (px_world x) fsid bsid msg PROXY_MSG_HDR_SIZE env)
  else if t =? PROXY_MSG_TYPE_DATA then
    if negb (APP_SESSION_ID_VALID fsid) || negb (APP_SESSION_ID_VALID bsid) then Done (PROCESS_ERROR, x) else
    on_world x (backend_proxy_data_msg_process (px_world x) bsid (pmh_payload_len h) msg PROXY_MSG_HDR_SIZE env)
  else if t =? PROXY_MSG_TYPE_IOT then
    backend_proxy_iot_msg_process x (pmh_payload_len h) msg PROXY_MSG_HDR_SIZE env
  else Done (PROCESS_ERROR, x).
