(* ===== verification/ProtoSpec.v ===== *)
(** * ProtoSpec: what the dispatcher does with a message

    Theorems about [backend_proxy_msg_process] on whole message buffers. *)

From S2P Require Import Prelude Bytes Mem HyperampQueueSpec HyperampLinux ByteStore Message Build BuildSpec Session Device Responses SessionPool SessionPoolSpec SessionPoolRun SessionData SessionDataSpec Iot IotSpec Proto.
From stdpp Require Import base list numbers option gmap.
From Stdlib Require Import ZArith Lia.
#[local] Open Scope Z_scope.

(** ** Reading headers of a received buffer *)

Lemma st_gets_range ws (msg : list Z) off l :
  Forall is_byte msg -> st_gets ws msg off = Done l ->
  Forall2 (fun w v => 0 <= v < 2 ^ (8 * Z.of_nat w)) ws l.
Proof.
  intros Hb. revert off l. induction ws as [|w ws IH]; intros off l Hl; cbn [st_gets] in Hl.
  { injection Hl as <-. constructor. }
  outcome_inv. subst l. constructor; [|by eapply IH]. apply (bget_range w msg off); [done|exact Ho].
Qed.

Lemma header_len_range msg h :
  Forall is_byte msg -> get_ProxyMsgHeader msg 0 = Done h -> 0 <= pmh_payload_len h < 65536.
Proof.
  intros Hb Hh. unfold get_ProxyMsgHeader in Hh. outcome_inv. apply st_gets_range in Ho; [|done].
  repeat (apply Forall2_cons_inv_l in Ho as (? & ? & ? & Ho & ->)). apply Forall2_nil_inv_l in Ho as ->.
  cbn in Hk. injection Hk as <-. done.
Qed.

(** ** Data messages *)

(** The buffer of the engine's receive loop, filled from a ring block. *)
Definition received (msg : list Z) : Prop :=
  blen msg = HYPERAMP_MSG_HDR_PLUS_MAX_SIZE /\ Forall is_byte msg.

Definition data_seg (bytes : list Z) : SessMsgSeg :=
  {| seg_len := blen bytes; seg_type := SESS_MSG_SEG_DYNAMIC_ALLOC; seg_data := Some bytes |}.

(** The dispatcher reaches the data handler. *)
Lemma dispatch_data x msg env h :
  get_ProxyMsgHeader msg 0 = Done h -> pmh_type h = PROXY_MSG_TYPE_DATA ->
  backend_proxy_msg_process x msg env =
  on_world x (backend_proxy_data_msg_process (px_world x) (pmh_backend_sess_id h) (pmh_payload_len h) msg
                PROXY_MSG_HDR_SIZE env).
Proof.
  intros Hh Ht. unfold backend_proxy_msg_process. rewrite Hh. cbn [mbind outcome_bind]. rewrite Ht.
  rewrite (proj1 (macros_accept (pmh_payload_len h))), (proj2 (macros_accept (pmh_frontend_sess_id h))),
    (proj2 (macros_accept (pmh_backend_sess_id h))). done.
Qed.

(** A DATA message for a session of the pool, with at most 4088 bytes of
    payload: OK, one more segment on the session, the session on the f2b work
    queue, nothing else changed. *)
Lemma data_message_spec x msg env h p s d :
  received msg -> get_ProxyMsgHeader msg 0 = Done h -> pmh_type h = PROXY_MSG_TYPE_DATA ->
  pmh_payload_len h <= PROXY_MSG_MAX_SIZE -> eng_mem_pool (eng_tx (w_eng (px_world x))) <> 0 ->
  pool_inv (px_world x) -> high_speed_search_sess (px_world x) (pmh_backend_sess_id h) = Some p ->
  w_sess (px_world x) !! p = Some s ->
  me_seg env = true -> me_data env = Some d -> blen d = pmh_payload_len h ->
  exists w' s' bytes,
  backend_proxy_msg_process x msg env = Done (PROCESS_OK, with_world x w') /\
  bread msg PROXY_MSG_HDR_SIZE (pmh_payload_len h) = Done bytes /\
  w_sess w' = <[p := s']> (w_sess (px_world x)) /\ msg_f2b s' = msg_f2b s ++ [data_seg bytes] /\
  (p ∈ queue_f2b (w_pool w')) /\ pool_inv w' /\
  htable (w_pool w') = htable (w_pool (px_world x)) /\ w_tx w' = w_tx (px_world x) /\ w_eng w' = w_eng (px_world x) /\
  msg_b2f s' = msg_b2f s /\ establish_mode s' = establish_mode s /\
  exists v, s' = set_state F2B (SESS_MSG_SEG_INSERT_QUEUE s (data_seg bytes) F2B) v.
Proof.
  intros [Hl Hb] Hh Ht Hlen Hpool Hi Hid Hs Hseg Hd Hdl. pose proof (header_len_range _ _ Hb Hh) as Hr.
  rewrite (dispatch_data _ _ _ h Hh Ht). unfold backend_proxy_data_msg_process.
  rewrite (proj2 (Z.eqb_neq _ _) Hpool), Hid, Hseg, Hd. cbn [sess_msg_seg_alloc negb].
  unfold HYPERAMP_MSG_HDR_PLUS_MAX_SIZE, PROXY_MSG_MAX_SIZE, PROXY_MSG_HDR_SIZE in *.
  rewrite bread_ok by lia. set (bytes := take _ _). cbn [mbind outcome_bind seg_data default]. unfold id.
  assert (blen bytes = pmh_payload_len h) as Hbl.
  { unfold bytes, blen in *. rewrite length_take, length_drop. lia. }
  rewrite bwrite_whole by lia. cbn [mbind outcome_bind seg_len seg_type]. unfold get_sess. rewrite Hs. cbn [mbind outcome_bind].
  rewrite u16_id by lia. rewrite <- Hbl. fold (data_seg bytes). set (s1 := SESS_MSG_SEG_INSERT_QUEUE s _ F2B).
  destruct (link_spec (put_sess (px_world x) p s1) p s1 (pmh_backend_sess_id h) F2B)
    as (w' & -> & Hi' & Hq & Hht & [v Hs'] & Htx' & Heng').
  { by apply (pool_inv_put_same _ p s). } { done. } { apply lookup_insert_eq. }
  cbn [mbind outcome_bind on_world fst snd]. do 3 eexists. split; [reflexivity|]. split; [reflexivity|].
  split; [rewrite Hs'; apply insert_insert_eq|]. split; [done|]. split_and!; try done. by exists v.
Qed.

(** C40. A DATA message whose header claims more payload than the receive
    buffer holds passes every check of the dispatcher, and copying it reads
    past the end of the buffer. *)
Theorem oversized_data_reads_past_buffer x msg env h p d :
  received msg -> get_ProxyMsgHeader msg 0 = Done h -> pmh_type h = PROXY_MSG_TYPE_DATA ->
  PROXY_MSG_MAX_SIZE < pmh_payload_len h -> eng_mem_pool (eng_tx (w_eng (px_world x))) <> 0 ->
  high_speed_search_sess (px_world x) (pmh_backend_sess_id h) = Some p ->
  me_seg env = true -> me_data env = Some d ->
  backend_proxy_msg_process x msg env = Fault OutOfBounds.
Proof.
  intros [Hl Hb] Hh Ht Hlen Hpool Hid Hseg Hd. rewrite (dispatch_data _ _ _ h Hh Ht).
  unfold backend_proxy_data_msg_process. rewrite (proj2 (Z.eqb_neq _ _) Hpool), Hid, Hseg, Hd.
  cbn [sess_msg_seg_alloc negb]. unfold HYPERAMP_MSG_HDR_PLUS_MAX_SIZE, PROXY_MSG_MAX_SIZE, PROXY_MSG_HDR_SIZE in *.
  by rewrite bread_fault by lia.
Qed.

(** ** Session messages *)

Lemma dispatch_sess x msg env h sh :
  get_ProxyMsgHeader msg 0 = Done h -> pmh_type h = PROXY_MSG_TYPE_SESS ->
  get_SessMsgHeader msg PROXY_MSG_HDR_SIZE = Done sh -> semh_version sh = PROXY_PROTO_SESS_VERSION_1 ->
  semh_action_type sh = ACTION_TYPE_COMMAND ->
  backend_proxy_msg_process x msg env =
  on_world x (backend_proxy_sess_msg_process_ver1 (px_world x) (pmh_frontend_sess_id h) (pmh_backend_sess_id h)
                (semh_msg_type sh) ACTION_TYPE_COMMAND (semh_ip_version sh) (semh_payload_len sh) msg 18 env).
Proof.
  intros Hh Ht Hsh Hv Ha. unfold backend_proxy_msg_process. rewrite Hh. cbn [mbind outcome_bind]. rewrite Ht.
  rewrite (proj1 (macros_accept (pmh_payload_len h))). cbn [negb PROXY_MSG_TYPE_VALID].
  unfold backend_proxy_sess_msg_process. rewrite Hsh. cbn [mbind outcome_bind]. rewrite Hv, Ha. done.
Qed.

(** C13. A close command from the frontend, for a session found in the pool:
    the dispatcher answers OK; the session is no longer found, freed and on no
    work queue; its id is free again and no id is lost; its socket is closed;
    the pool invariant is preserved; and a close response goes out if the TX
    ring has room.  When the session's [dev_id] names the device that has its
    node, the node is taken off the protocol list, put at the end of the
    device's free list and holds no session any more.  When [dev_id] is out of
    range (session creation never sets it) or the session is not linked, no
    device and no node changes: a linked node then stays on its list and
    points at the freed session.  A [dev_id] in range that names another device
    is excluded ([node_in_place]): TAILQ_REMOVE would edit the wrong list. *)
Theorem close_message_deletes g x msg env h sh p s :
  get_ProxyMsgHeader msg 0 = Done h -> pmh_type h = PROXY_MSG_TYPE_SESS ->
  get_SessMsgHeader msg PROXY_MSG_HDR_SIZE = Done sh -> semh_version sh = PROXY_PROTO_SESS_VERSION_1 ->
  semh_action_type sh = ACTION_TYPE_COMMAND -> semh_msg_type sh = SESS_MSG_CLOSE -> semh_payload_len sh = 0 ->
  pool_inv (px_world x) -> tx_ok g (px_world x) ->
  high_speed_search_sess (px_world x) (pmh_backend_sess_id h) = Some p -> w_sess (px_world x) !! p = Some s ->
  node_in_place (px_world x) p s -> 0 <= frontend_sess_id s < 65536 ->
  exists w', backend_proxy_msg_process x msg env = Done (PROCESS_OK, with_world x w') /\
  deleted g (px_world x) p s (pmh_backend_sess_id h) w' /\
  (forall n d, node_on_device (px_world x) p s n d -> exists d',
     w_devs w' = <[Z.to_nat (dev_id s) := d']> (w_devs (px_world x)) /\ free_node_queue d' = free_node_queue d ++ [n] /\
     proto_queue (proto_type s) d' = remove_first n (proto_queue (proto_type s) d) /\ w_node w' !! n = Some None) /\
  (forall n, sess_node s = Some n -> bit0 (sess_dev_link_state s) = true -> w_node (px_world x) !! n = Some (Some p) ->
     dev_id s < 0 \/ MAX_HS_DEV_NUM <= dev_id s ->
     w_devs w' = w_devs (px_world x) /\ w_node w' !! n = Some (Some p) /\ w_sess w' !! p = None).
Proof.
  intros Hh Ht Hsh Hv Ha Hm Hl Hi Htx Hid Hs Hn Hf. rewrite (dispatch_sess x msg env h sh) by done.
  rewrite Hm, Hl. unfold backend_proxy_sess_msg_process_ver1. cbn [SESS_MSG_PAYLOAD_LEN].
  unfold backend_proxy_sess_msg_process_close_ver1. rewrite Hid.
  destruct (delete_sess_spec g (px_world x) p s (pmh_backend_sess_id h) (me_epoll env)) as (w' & -> & Hdel); try done.
  exists w'. split; [done|]. split; [exact Hdel|]. destruct Hdel as (_ & _ & _ & Hw & _ & _ & _ & [H1 H2] & _). split.
  - intros n d Hnd. destruct (H1 n d Hnd) as (d' & -> & Hfq & Hpq & ->). exists d'. by rewrite lookup_insert_eq.
  - intros n _ _ Hnp Hr. destruct H2 as [-> ->]; [unfold node_not_looked_for; tauto|]. by rewrite Hw, lookup_delete_eq.
Qed.

(** The request a create command carries after its two headers. *)
Definition request_bytes (dev tp : Z) (addr : list Z) (port : Z) : list Z :=
  le_bytes 2 dev ++ le_bytes 2 tp ++ addr ++ le_bytes 2 port.

Lemma bread_inside msg o l a b c :
  bread msg o l = Done (a ++ b ++ c) -> bread msg (o + blen a) (blen b) = Done b.
Proof.
  intros H. pose proof (bread_length _ _ _ _ H) as Hl. unfold bread in *.
  destruct (in_range msg o l) eqn:E; [|done]. apply in_range_true in E as (E1 & E2 & E3). injection H as H.
  unfold blen in *. rewrite !length_app in Hl.
  rewrite (proj2 (in_range_true _ _ _)) by (unfold blen in *; lia). f_equal.
  assert (take (length b) (drop (length a) (take (Z.to_nat l) (drop (Z.to_nat o) msg))) = b) as Hb.
  { rewrite H, drop_app_length, take_app_length. done. }
  rewrite skipn_firstn_comm, take_take, drop_drop in Hb. rewrite <- Hb at 2. f_equal; [lia|f_equal; lia].
Qed.

Lemma bget_inside n msg o l a v c :
  bread msg o l = Done (a ++ le_bytes n v ++ c) -> 0 <= v < 2 ^ (8 * Z.of_nat n) ->
  bget n msg (o + blen a) = Done v.
Proof.
  intros H Hv. apply bread_inside in H. unfold bget. unfold blen in H at 2. rewrite length_le_bytes in H. rewrite H. cbn. by rewrite le_val_small.
Qed.

(** A create command from the frontend is decoded exactly: with IPv4 (10 bytes of
    payload) or IPv6 (22 bytes), device id, protocol, address and port as sent
    reach [high_speed_create_sess_active], whose answer and world are the
    dispatcher's. *)
Lemma create_decoded x msg env h sh dev tp addr port n :
  get_ProxyMsgHeader msg 0 = Done h -> pmh_type h = PROXY_MSG_TYPE_SESS ->
  pmh_backend_sess_id h = BACKEND_HANDOVER_SESSION_ID ->
  get_SessMsgHeader msg PROXY_MSG_HDR_SIZE = Done sh -> semh_version sh = PROXY_PROTO_SESS_VERSION_1 ->
  semh_action_type sh = ACTION_TYPE_COMMAND -> semh_msg_type sh = SESS_MSG_CREATE ->
  (semh_ip_version sh = SESS_IPV4_PROTO /\ n = 4) \/ (semh_ip_version sh = SESS_IPV6_PROTO /\ n = 16) ->
  semh_payload_len sh = n + 6 -> blen addr = n ->
  0 <= dev < 65536 -> 0 <= tp < 65536 -> 0 <= port < 65536 ->
  bread msg 18 (n + 6) = Done (request_bytes dev tp addr port) ->
  backend_proxy_msg_process x msg env =
  on_world x (r ← high_speed_create_sess_active (px_world x)
                    {| para_frontend_sess_id := pmh_frontend_sess_id h; para_dev_id := dev;
                       para_ip_version := semh_ip_version sh; para_trans_proto := tp;
                       para_ip_port := addr ++ le_bytes 2 port |} (me_create env);
              Done (fst (fst r), snd r)).
Proof.
  intros Hh Ht Hb Hsh Hv Ha Hm Hip Hl Hal Hd Htp Hp Hr. rewrite (dispatch_sess x msg env h sh) by done.
  rewrite Hm, Hl, Hb. unfold request_bytes in Hr.
  assert (forall fsid ipv, get_sess_para msg 18 n fsid ipv =
    Done {| para_frontend_sess_id := fsid; para_dev_id := dev; para_ip_version := ipv; para_trans_proto := tp;
            para_ip_port := addr ++ le_bytes 2 port |}) as Hpara.
  { intros fsid ipv. unfold get_sess_para.
    pose proof (bget_inside 2 msg 18 (n + 6) [] dev _ Hr Hd) as E1. change (18 + blen []) with 18 in E1. rewrite E1. cbn [mbind outcome_bind].
    pose proof (bget_inside 2 msg 18 (n + 6) (le_bytes 2 dev) tp _ Hr Htp) as E2. rewrite blen_le_bytes in E2.
    change (18 + Z.of_nat 2) with (18 + 2) in E2. rewrite E2. cbn [mbind outcome_bind].
    rewrite app_assoc in Hr. pose proof (bread_inside msg 18 (n + 6) _ addr _ Hr) as E3.
    assert (blen (le_bytes 2 dev ++ le_bytes 2 tp) = 4) as E4 by (unfold blen; by rewrite length_app, !length_le_bytes).
    rewrite E4, Hal in E3. rewrite E3. cbn [mbind outcome_bind]. rewrite app_assoc in Hr.
    rewrite <- (app_nil_r (le_bytes 2 port)) in Hr. pose proof (bget_inside 2 msg 18 (n + 6) _ port [] Hr Hp) as E5.
    assert (blen ((le_bytes 2 dev ++ le_bytes 2 tp) ++ addr) = 4 + n) as E6.
    { unfold blen in *. rewrite length_app. lia. }
    rewrite E6 in E5. replace (18 + 4 + n) with (18 + (4 + n)) by lia. by rewrite E5. }
  unfold backend_proxy_sess_msg_process_ver1, backend_proxy_sess_msg_process_active_create_ver1.
  destruct Hip as [[-> ->]|[-> ->]]; cbn [SESS_MSG_PAYLOAD_LEN]; rewrite Hpara; done.
Qed.

(** ** Device and strategy messages *)

(** When an administrative message is accepted: both ids are 0, version 1, a
    command, and the length its type has. *)
Definition admin_accepted (h : ProxyMsgHeader) (version action corr_len len : Z) : bool :=
  (pmh_frontend_sess_id h =? FRONTEND_ADMIN_SESSION_ID) && (pmh_backend_sess_id h =? BACKEND_ADMIN_SESSION_ID) &&
  (action =? ACTION_TYPE_COMMAND) && (version =? 1) &&
  negb (corr_len =? PROXY_MSG_INVALID_LEN) && (corr_len =? len).

Lemma dev_len_valid t a : DEV_MSG_PAYLOAD_LEN t a <> PROXY_MSG_INVALID_LEN ->
  (t =? DEV_MSG_DISABLE) || (t =? DEV_MSG_ENABLE) || (t =? DEV_MSG_QUERY) = true.
Proof.
  unfold DEV_MSG_PAYLOAD_LEN. destruct (t =? DEV_MSG_ENABLE), (t =? DEV_MSG_DISABLE), (t =? DEV_MSG_QUERY); done.
Qed.

Lemma strgy_len_valid t a : STRGY_MSG_PAYLOAD_LEN t a <> PROXY_MSG_INVALID_LEN ->
  (t =? STRGY_MSG_SET) || (t =? STRGY_MSG_QUERY) = true.
Proof. unfold STRGY_MSG_PAYLOAD_LEN. destruct (t =? STRGY_MSG_SET), (t =? STRGY_MSG_QUERY); done. Qed.

(** C36. Device and strategy messages never change the backend's state,
    whatever they contain; one is answered OK exactly when it is addressed to
    the admin ids, is a version-1 command, and has the length its type
    prescribes. *)
Theorem admin_messages_checked x msg env h :
  get_ProxyMsgHeader msg 0 = Done h ->
  (pmh_type h = PROXY_MSG_TYPE_DEV -> forall d, get_DevMsgHeader msg PROXY_MSG_HDR_SIZE = Done d ->
     backend_proxy_msg_process x msg env =
     Done (if admin_accepted h (dmh_version d) (dmh_action_type d)
                (DEV_MSG_PAYLOAD_LEN (dmh_msg_type d) (dmh_action_type d)) (dmh_payload_len d)
           then PROCESS_OK else PROCESS_ERROR, x)) /\
  (pmh_type h = PROXY_MSG_TYPE_STRGY -> forall d, get_StrgyMsgHeader msg PROXY_MSG_HDR_SIZE = Done d ->
     backend_proxy_msg_process x msg env =
     Done (if admin_accepted h (stmh_version d) (stmh_action_type d)
                (STRGY_MSG_PAYLOAD_LEN (stmh_msg_type d) (stmh_action_type d)) (stmh_payload_len d)
           then PROCESS_OK else PROCESS_ERROR, x)).
Proof.
  intros Hh. unfold backend_proxy_msg_process. rewrite Hh. cbn [mbind outcome_bind].
  rewrite (proj1 (macros_accept (pmh_payload_len h))). unfold admin_accepted.
  split; intros -> d Hd; cbn [negb PROXY_MSG_TYPE_VALID PROXY_MSG_TYPE_DEV PROXY_MSG_TYPE_STRGY Z.eqb orb];
    (destruct (pmh_frontend_sess_id h =? _), (pmh_backend_sess_id h =? _); try done); cbn [andb negb].
  - unfold backend_proxy_dev_msg_process. rewrite Hd. cbn [mbind outcome_bind].
    destruct (dmh_action_type d =? _); [|done]. cbn [negb andb]. unfold PROXY_PROTO_DEV_VERSION_1.
    destruct (dmh_version d =? 1); [|done]. unfold backend_proxy_dev_msg_process_ver1.
    destruct (_ =? PROXY_MSG_INVALID_LEN) eqn:E; [done|]. apply Z.eqb_neq in E. rewrite (dev_len_valid _ _ E).
    by destruct (_ =? dmh_payload_len d).
  - unfold backend_proxy_strgy_msg_process. rewrite Hd. cbn [mbind outcome_bind].
    destruct (stmh_action_type d =? _); [|done]. cbn [negb andb]. unfold PROXY_PROTO_STRGY_VERSION_1.
    destruct (stmh_version d =? 1); [|done]. unfold backend_proxy_strgy_msg_process_ver1.
    destruct (_ =? PROXY_MSG_INVALID_LEN) eqn:E; [done|]. apply Z.eqb_neq in E. rewrite (strgy_len_valid _ _ E).
    by destruct (_ =? stmh_payload_len d).
Qed.

(** ** IoT messages *)

Lemma bread_payload_at msg o n : 0 <= o -> 0 <= n -> o + n <= blen msg -> bread (payload_at msg o) 0 n = bread msg o n.
Proof.
  intros Ho Hn Hl. unfold payload_at. rewrite !bread_ok by (unfold blen in *; rewrite ?length_drop; lia).
  f_equal.
Qed.

(** A CAN message from the frontend: when its payload after the 7-byte
    address is at most eight bytes, exactly one CAN frame holding it is written
    to the CAN socket and the answer is OK if the write succeeded; with more
    (up to the 64 bytes the handler admits) the answer is ERROR and nothing is
    written.  The rest of the backend is untouched either way. *)
Theorem can_message_sent x msg env h ih s :
  received msg -> get_ProxyMsgHeader msg 0 = Done h -> pmh_type h = PROXY_MSG_TYPE_IOT ->
  sizeof_IotMsgHeader + sizeof_IotCanAddr <= pmh_payload_len h ->
  get_IotMsgHeader msg PROXY_MSG_HDR_SIZE = Done ih -> imh_proto_type ih = IOT_PROTO_TYPE_CAN ->
  backend_can_sess (px_iot x) = Some s -> send_to_remote s = Some CanDriver ->
  sizeof_IotCanAddr <= imh_payload_len ih <= BACKEND_CAN_MAX_PAYLOAD ->
  let n := imh_payload_len ih - sizeof_IotCanAddr in
  exists x', backend_proxy_msg_process x msg env =
    Done (if (n <=? CAN_MAX_DLEN) && me_write env then PROCESS_OK else PROCESS_ERROR, x') /\
  px_world x' = px_world x /\ backend_can_sess (px_iot x') = Some s /\
  exists data, bread msg 27 n = Done data /\
  px_out x' = px_out x ++ (if n <=? CAN_MAX_DLEN then [(iot_dev_fd s, can_image data)] else []).
Proof.
  intros [Hl Hb] Hh Ht Hml Hih Hip Hs Hdrv Hn n. unfold backend_proxy_msg_process. rewrite Hh.
  cbn [mbind outcome_bind]. rewrite (proj1 (macros_accept (pmh_payload_len h))), Ht.
  cbn [negb PROXY_MSG_TYPE_VALID PROXY_MSG_TYPE_DEV PROXY_MSG_TYPE_STRGY PROXY_MSG_TYPE_SESS PROXY_MSG_TYPE_DATA
       PROXY_MSG_TYPE_IOT Z.eqb Pos.eqb orb].
  unfold backend_proxy_iot_msg_process. rewrite Hih. cbn [mbind outcome_bind]. rewrite Hip.
  cbn [IOT_PROTO_TYPE_CAN IOT_PROTO_TYPE_BLUETOOTH Z.eqb Pos.eqb].
  rewrite (proj2 (Z.ltb_ge _ _) Hml). unfold backend_proxy_can_msg_process. rewrite Hs.
  rewrite (proj2 (Z.ltb_ge _ _) (proj2 Hn)), (proj2 (Z.ltb_ge _ _) (proj1 Hn)).
  unfold BACKEND_CAN_MAX_PAYLOAD, PROXY_MSG_HDR_SIZE, sizeof_IotMsgHeader, sizeof_IotCanAddr,
    HYPERAMP_MSG_HDR_PLUS_MAX_SIZE in *.
  destruct (bget_ok 1 msg (8 + 12 + 6)) as [bus ->]; [lia|cbn; lia|]. cbn [mbind outcome_bind].
  destruct (bget_ok 4 msg (8 + 12 + 2)) as [cid ->]; [lia|cbn; lia|]. cbn [mbind outcome_bind].
  destruct (bget_ok 2 msg (8 + 12)) as [port ->]; [lia|cbn; lia|]. cbn [mbind outcome_bind].
  destruct (bput_ok 1 (replicate 20 0) 6 bus) as [i1 H1]; [lia|by vm_compute|]. pose proof (bput_length _ _ _ _ _ H1) as L1.
  change (blen (replicate 20 0)) with 20 in L1. rewrite H1. cbn [mbind outcome_bind].
  destruct (bput_ok 4 i1 2 cid) as [i2 H2]; [lia|cbn; lia|]. pose proof (bput_length _ _ _ _ _ H2) as L2.
  rewrite H2. cbn [mbind outcome_bind].
  destruct (bput_ok 2 i2 0 port) as [i3 ->]; [lia|cbn; lia|]. cbn [mbind outcome_bind].
  unfold iot_dispatch, iot_send. rewrite Hdrv. change (8 + 12 + 7) with 27.
  assert (bread msg 27 n = Done (take (Z.to_nat n) (drop 27 msg))) as Hdata by (apply bread_ok; unfold n; lia).
  destruct (n <=? CAN_MAX_DLEN) eqn:E.
  - apply Z.leb_le in E. rewrite (can_send_ok s _ _ (take (Z.to_nat n) (drop 27 msg))); cbn [imb_data imb_len]; [|by rewrite bread_payload_at by (unfold n; lia)|done].
    cbn [mbind outcome_bind andb]. eexists. split; [reflexivity|]. split; [done|]. split; [done|]. by eexists.
  - apply Z.leb_gt in E. unfold can_send_to_remote. cbn [imb_len].
    rewrite u8_id by (unfold n in *; unfold CAN_MAX_DLEN in *; lia). fold n. rewrite (proj2 (Z.ltb_lt _ _) E).
    cbn [mbind outcome_bind andb]. eexists. split; [reflexivity|]. split; [done|]. split; [done|]. by eexists.
Qed.

(** ** Witnesses *)

Definition demo_iots : iot_sessions :=
  {| backend_bluetooth_sess := None; backend_can_sess := Some (demo_iot CanDriver IOT_PROTO_TYPE_CAN);
     backend_zigbee_sess := None; backend_lora_sess := None; backend_powerlink_sess := None;
     backend_modbustcp_sess := None |}.
Definition demo_proxy : proxy := {| px_world := demo_live; px_iot := demo_iots; px_out := [] |}.
Definition demo_env_msg (data : list Z) : msg_env :=
  {| me_create := demo_create_env true; me_seg := true; me_data := Some data; me_epoll := true; me_write := true |}.

(** A received buffer: header, content, and what was in the ring block. *)
Definition demo_received (t fsid bsid len : Z) (content : list Z) : list Z :=
  [1; t] ++ le_bytes 2 fsid ++ le_bytes 2 bsid ++ le_bytes 2 len ++ content
  ++ replicate (4088 - length content) 0.

Lemma demo_received_ok t fsid bsid len content :
  bytesb (t :: content) = true -> (length content <= 4088)%nat -> received (demo_received t fsid bsid len content).
Proof.
  intros [Ht Hc]%bytesb_ok%Forall_cons_1 Hl. split.
  - unfold blen, demo_received. rewrite !length_app, !length_le_bytes, length_replicate. cbn [length].
    unfold HYPERAMP_MSG_HDR_PLUS_MAX_SIZE. lia.
  - unfold demo_received. rewrite !Forall_app. split_and!; try apply le_bytes_bytes; [|done|].
    + repeat constructor; unfold is_byte in *; lia.
    + apply Forall_replicate. unfold is_byte. lia.
Qed.

Lemma oversized_data_reads_past_buffer_witness :
  backend_proxy_msg_process demo_proxy (demo_received PROXY_MSG_TYPE_DATA 9 1 4089 [7; 8; 9])
    (demo_env_msg (replicate 4089 0)) = Fault OutOfBounds.
Proof.
  apply (oversized_data_reads_past_buffer demo_proxy _ _
              {| pmh_version := 1; pmh_type := 3; pmh_frontend_sess_id := 9; pmh_backend_sess_id := 1;
                 pmh_payload_len := 4089 |} 500 (replicate 4089 0)).
  - apply demo_received_ok; [done|cbn; lia].
  - by vm_compute.
  - done.
  - by vm_compute.
  - discriminate.
  - done.
  - done.
  - done.
Defined.

Definition demo_close : list Z :=
  concat (map (le_bytes 2) [1; SESS_MSG_CLOSE; ACTION_TYPE_COMMAND; SESS_IPV4_PROTO; 0]).

Lemma close_message_deletes_witness :
  exists w', backend_proxy_msg_process demo_proxy (demo_received PROXY_MSG_TYPE_SESS 9 1 10 demo_close)
    (demo_env_msg []) = Done (PROCESS_OK, with_world demo_proxy w') /\
  high_speed_search_sess w' 1 = None /\ w_closed w' = [5] /\ w_node w' !! 10 = Some None.
Proof.
  destruct (close_message_deletes demo_tx_geo demo_proxy (demo_received PROXY_MSG_TYPE_SESS 9 1 10 demo_close)
              (demo_env_msg [])
              {| pmh_version := 1; pmh_type := 2; pmh_frontend_sess_id := 9; pmh_backend_sess_id := 1;
                 pmh_payload_len := 10 |}
              {| semh_version := 1; semh_msg_type := SESS_MSG_CLOSE; semh_action_type := ACTION_TYPE_COMMAND;
                 semh_ip_version := SESS_IPV4_PROTO; semh_payload_len := 0 |} 500 demo_session)
    as (w' & E & Hd & Hnode & _).
  - by vm_compute.
  - done.
  - by vm_compute.
  - done.
  - done.
  - done.
  - done.
  - apply demo_live_inv.
  - by apply demo_tx_ok.
  - done.
  - done.
  - apply demo_live_node.
  - cbn; lia.
  - exists w'. split; [exact E|]. destruct Hd as (_ & _ & Hf & _ & _ & _ & Hc & _). split; [exact Hf|]. split; [exact Hc|].
    destruct demo_live_node as [Hout|(n & d & Hn)]; [exfalso; destruct Hout as [H|[H|H] ]; vm_compute in H; (discriminate H || by destruct H)|].
    destruct (Hnode n d Hn) as (_ & _ & _ & _ & Hf'). destruct Hn as (Hn & _). injection Hn as <-. exact Hf'.
Defined.

Definition demo_create : list Z :=
  concat (map (le_bytes 2) [1; SESS_MSG_CREATE; ACTION_TYPE_COMMAND; SESS_IPV4_PROTO; 10])
  ++ request_bytes 0 SESS_TCP_PROTO [10; 0; 0; 1] 80.

Lemma create_decoded_example :
  backend_proxy_msg_process demo_proxy (demo_received PROXY_MSG_TYPE_SESS 9 0xFFFF 20 demo_create) (demo_env_msg [])
  = on_world demo_proxy (r ← high_speed_create_sess_active demo_live
      {| para_frontend_sess_id := 9; para_dev_id := 0; para_ip_version := SESS_IPV4_PROTO;
         para_trans_proto := SESS_TCP_PROTO; para_ip_port := [10; 0; 0; 1; 80; 0] |} (demo_create_env true);
      Done (fst (fst r), snd r)).
Proof.
  apply (create_decoded demo_proxy _ (demo_env_msg [])
           {| pmh_version := 1; pmh_type := 2; pmh_frontend_sess_id := 9; pmh_backend_sess_id := 0xFFFF;
              pmh_payload_len := 20 |}
           {| semh_version := 1; semh_msg_type := SESS_MSG_CREATE; semh_action_type := ACTION_TYPE_COMMAND;
              semh_ip_version := SESS_IPV4_PROTO; semh_payload_len := 10 |} 0 SESS_TCP_PROTO [10; 0; 0; 1] 80 4);
    try done; try (by vm_compute).
  by left.
Qed.

Lemma admin_messages_checked_witness :
  backend_proxy_msg_process demo_proxy
    (demo_received PROXY_MSG_TYPE_DEV 0 0 12 (concat (map (le_bytes 2) [1; DEV_MSG_ENABLE; 5; ACTION_TYPE_COMMAND; 2; 0])))
    (demo_env_msg []) = Done (PROCESS_OK, demo_proxy).
Proof.
  refine (proj1 (admin_messages_checked demo_proxy _ _
    {| pmh_version := 1; pmh_type := PROXY_MSG_TYPE_DEV; pmh_frontend_sess_id := 0; pmh_backend_sess_id := 0;
       pmh_payload_len := 12 |} _) eq_refl
    {| dmh_version := 1; dmh_msg_type := DEV_MSG_ENABLE; dmh_msg_id := 5; dmh_action_type := ACTION_TYPE_COMMAND;
       dmh_payload_len := 2 |} _); by vm_compute.
Defined.

Definition demo_can : list Z :=
  concat (map (le_bytes 2) [1; IOT_PROTO_TYPE_CAN; 0; 0; 10; 0]) ++ replicate 7 0 ++ [1; 2; 3].

Lemma can_message_sent_witness :
  exists x', backend_proxy_msg_process demo_proxy (demo_received PROXY_MSG_TYPE_IOT 0 0 22 demo_can) (demo_env_msg [])
    = Done (PROCESS_OK, x') /\ px_out x' = [(9, can_image [1; 2; 3])].
Proof.
  destruct (can_message_sent demo_proxy (demo_received PROXY_MSG_TYPE_IOT 0 0 22 demo_can) (demo_env_msg [])
              {| pmh_version := 1; pmh_type := PROXY_MSG_TYPE_IOT; pmh_frontend_sess_id := 0;
                 pmh_backend_sess_id := 0; pmh_payload_len := 22 |}
              {| imh_proto_ver := 1; imh_proto_type := IOT_PROTO_TYPE_CAN; imh_opcode := 0; imh_dev_port_id := 0;
                 imh_payload_len := 10; imh_reserve := 0 |} (demo_iot CanDriver IOT_PROTO_TYPE_CAN))
    as (x' & E & _ & _ & data & Hd & Ho).
  - apply demo_received_ok; [done|by vm_compute; lia].
  - by vm_compute.
  - done.
  - by vm_compute.
  - by vm_compute.
  - done.
  - done.
  - done.
  - by vm_compute.
  - exists x'. split; [exact E|]. assert (data = [1; 2; 3]) as -> by (vm_compute in Hd; by injection Hd). exact Ho.
Defined.
