(* ===== verification/IotMessages.v ===== *)
(** * IotMessages: the handlers of the IoT messages always return

    The sessions of the IoT devices, when present, hold the handlers of their
    own protocol ([iot_ready]); then every IoT message is handled, whatever it
    contains, and touches only the IoT sessions. *)

From S2P Require Import Prelude Bytes HyperampLinux ByteStore Message Build Session Iot Proto ProtoSpec.
From stdpp Require Import base list numbers option gmap.
From Stdlib Require Import ZArith Lia.
#[local] Open Scope Z_scope.

Definition driven (d : iot_driver) (s : IoTBackendSession) : Prop :=
  send_to_remote s = Some d /\ recv_from_remote s = Some d.

Record iot_ready (i : iot_sessions) : Prop := {
  ir_bluetooth : forall s, backend_bluetooth_sess i = Some s -> driven BluetoothDriver s;
  ir_can : forall s, backend_can_sess i = Some s -> driven CanDriver s;
  ir_modbus : forall s, backend_modbustcp_sess i = Some s -> driven ModbusTcpDriver s }.

(** The handler returns, and nothing but the IoT sessions changes. *)
Definition iot_handled (x : proxy) (o : outcome (status * proxy)) : Prop :=
  exists st x', o = Done (st, x') /\ px_world x' = px_world x /\ iot_ready (px_iot x').

Lemma iot_handled_same x st : iot_ready (px_iot x) -> iot_handled x (Done (st, x)).
Proof. intros H. by exists st, x. Qed.

(** The driver of a protocol. *)
Definition driver_of (proto : Z) (d : iot_driver) : Prop :=
  (proto = IOT_PROTO_TYPE_BLUETOOTH /\ d = BluetoothDriver) \/ (proto = IOT_PROTO_TYPE_CAN /\ d = CanDriver) \/
  (proto = IOT_PROTO_TYPE_MODBUSTCP /\ d = ModbusTcpDriver).

Lemma set_iot_ready x proto d s out : iot_ready (px_iot x) -> driver_of proto d -> driven d s -> iot_ready (px_iot (set_iot x proto s out)).
Proof.
  intros [H1 H2 H3] Hd Hs. destruct Hd as [ [-> ->]|[ [-> ->]|[-> ->] ] ]; split; cbn; try done; by intros ? [= <-].
Qed.

Lemma dispatch_handled x proto d s b env :
  iot_ready (px_iot x) -> driver_of proto d -> driven d s ->
  (exists st out s', iot_send s b (me_write env) = Done (st, out, s') /\ driven d s') -> iot_handled x (iot_dispatch x proto s b env).
Proof.
  intros Hr Hd Hs (st & out & s' & E & Hs'). unfold iot_dispatch. rewrite E. cbn [mbind outcome_bind].
  eexists _, _. split; [reflexivity|]. split; [done|]. by eapply set_iot_ready.
Qed.

Lemma bluetooth_sends s b wr : driven BluetoothDriver s -> 0 <= imb_len b <= blen (imb_data b) ->
  exists st out s', iot_send s b wr = Done (st, out, s') /\ driven BluetoothDriver s'.
Proof.
  intros Hs Hl. unfold iot_send. rewrite (proj1 Hs). unfold bluetooth_send_to_remote. case_match; [|by eexists _, _, _].
  rewrite bread_ok by lia. by eexists _, _, _.
Qed.

Lemma can_sends s b wr : driven CanDriver s -> 8 <= blen (imb_data b) ->
  exists st out s', iot_send s b wr = Done (st, out, s') /\ driven CanDriver s'.
Proof.
  intros Hs Hl. unfold iot_send. rewrite (proj1 Hs). unfold can_send_to_remote. pose proof (u8_range (imb_len b)).
  destruct (Z.ltb_spec CAN_MAX_DLEN (u8 (imb_len b))) as [|Hd]; [by eexists _, _, _|]. unfold CAN_MAX_DLEN in Hd.
  rewrite bread_ok by lia. cbn [mbind outcome_bind]. unfold can_frame.
  set (l := take _ _). assert (blen l <= 8) as Hbl by (unfold l, blen; rewrite length_take; lia). pose proof (blen_nonneg l).
  destruct (bput_ok 4 (replicate 16 0) 0 0x123) as [f1 H1]; [lia|by vm_compute|]. pose proof (bput_length _ _ _ _ _ H1) as L1.
  change (blen (replicate 16 0)) with 16 in L1. rewrite H1. cbn [mbind outcome_bind].
  destruct (bput_ok 1 f1 4 (u8 (imb_len b))) as [f2 H2]; [lia|cbn; lia|]. pose proof (bput_length _ _ _ _ _ H2) as L2. rewrite H2. cbn [mbind outcome_bind].
  destruct (bwrite_ok f2 8 l) as [f3 ->]; [lia|lia|]. by eexists _, _, _.
Qed.

Lemma modbus_sends s b wr : driven ModbusTcpDriver s -> 1 <= blen (imb_data b) ->
  exists st out s', iot_send s b wr = Done (st, out, s') /\ driven ModbusTcpDriver s'.
Proof.
  intros Hs Hl. unfold iot_send. rewrite (proj1 Hs). unfold modbustcp_send_to_remote. case_match; [|by eexists _, _, _].
  destruct (bget_ok 1 (imb_data b) 0) as [c ->]; [lia|cbn; lia|]. cbn [mbind outcome_bind]. eexists _, _, _. split; [reflexivity|]. by case_match.
Qed.

Lemma payload_at_length msg o : 0 <= o <= blen msg -> blen (payload_at msg o) = blen msg - o.
Proof. intros H. unfold payload_at, blen in *. rewrite length_drop. lia. Qed.

Ltac iot_sizes := unfold PROXY_MSG_HDR_SIZE, sizeof_IotMsgHeader, sizeof_IotBtAddr, sizeof_IotCanAddr, sizeof_IotModbusTcpAddr,
  BACKEND_BLUETOOTH_MAX_PAYLOAD, BACKEND_CAN_MAX_PAYLOAD, BACKEND_MODBUS_TCP_MAX_PAYLOAD, HYPERAMP_MSG_HDR_PLUS_MAX_SIZE in *.

(** A read or a write inside its buffer. *)
Ltac iot_step :=
  match goal with
  | |- context [bget ?n ?m ?o] => destruct (bget_ok n m o) as [? ->]; [cbn; lia|cbn; lia|]
  | |- context [bread ?m ?o ?n] => rewrite (bread_ok m o n) by lia
  | |- context [bput ?n ?i ?o ?v] => let i' := fresh "i" in let E := fresh "E" in
      destruct (bput_ok n i o v) as [i' E]; [cbn; lia|cbn; lia|];
      pose proof (bput_length _ _ _ _ _ E); rewrite E; clear E
  end; cbn [mbind outcome_bind].

Lemma bluetooth_message x plen msg env : received msg -> iot_ready (px_iot x) ->
  iot_handled x (backend_proxy_bluetooth_msg_process x plen msg 20 env).
Proof.
  intros [Hl _] Hr. unfold backend_proxy_bluetooth_msg_process. destruct (backend_bluetooth_sess _) as [s|] eqn:Es; [|by apply iot_handled_same].
  destruct (Z.ltb_spec BACKEND_BLUETOOTH_MAX_PAYLOAD plen); [by apply iot_handled_same|].
  destruct (Z.ltb_spec plen sizeof_IotBtAddr); [by apply iot_handled_same|]. iot_sizes. do 2 iot_step.
  set (mac := take _ _). assert (blen mac = 18) as Hm by (unfold mac, blen in *; rewrite length_take, length_drop; lia).
  destruct (bwrite_ok (replicate 20 0) 0 mac) as [i Hi]; [lia|change (blen (replicate 20 0)) with 20; lia|].
  pose proof (bwrite_length _ _ _ _ Hi) as Hil. change (blen (replicate 20 0)) with 20 in Hil. rewrite Hi. cbn [mbind outcome_bind]. iot_step.
  eapply dispatch_handled; [done|by left|by apply (ir_bluetooth _ Hr)|]. apply bluetooth_sends; [by apply (ir_bluetooth _ Hr)|].
  cbn [imb_len imb_data]. rewrite payload_at_length; lia.
Qed.

Lemma can_message x plen msg env : received msg -> iot_ready (px_iot x) ->
  iot_handled x (backend_proxy_can_msg_process x plen msg 20 env).
Proof.
  intros [Hl _] Hr. unfold backend_proxy_can_msg_process. destruct (backend_can_sess _) as [s|] eqn:Es; [|by apply iot_handled_same].
  destruct (Z.ltb_spec BACKEND_CAN_MAX_PAYLOAD plen); [by apply iot_handled_same|].
  destruct (Z.ltb_spec plen sizeof_IotCanAddr); [by apply iot_handled_same|]. iot_sizes. do 3 iot_step.
  assert (blen (replicate 20 0) = 20) as Hz by done. revert Hz. generalize (replicate 20 0). intros z Hz. do 3 iot_step.
  eapply dispatch_handled; [done|right; by left|by apply (ir_can _ Hr)|]. apply can_sends; [by apply (ir_can _ Hr)|].
  cbn [imb_data]. rewrite payload_at_length; lia.
Qed.

Lemma modbus_message x plen msg env : received msg -> iot_ready (px_iot x) ->
  iot_handled x (backend_proxy_modbustcp_msg_process x plen msg 20 env).
Proof.
  intros [Hl _] Hr. unfold backend_proxy_modbustcp_msg_process. destruct (backend_modbustcp_sess _) as [s|] eqn:Es; [|by apply iot_handled_same].
  destruct (Z.ltb_spec BACKEND_MODBUS_TCP_MAX_PAYLOAD plen); [by apply iot_handled_same|].
  destruct (Z.ltb_spec plen sizeof_IotModbusTcpAddr); [by apply iot_handled_same|]. iot_sizes. do 5 iot_step.
  set (ip := take _ _). assert (blen ip = 4) as Hm by (unfold ip, blen in *; rewrite length_take, length_drop; lia).
  destruct (bwrite_ok (replicate 20 0) 0 ip) as [i Hi]; [lia|change (blen (replicate 20 0)) with 20; lia|].
  pose proof (bwrite_length _ _ _ _ Hi) as Hil. change (blen (replicate 20 0)) with 20 in Hil. rewrite Hi. cbn [mbind outcome_bind].
  match goal with |- context [st_puts ?fs i 4] => destruct (st_puts_ok fs i 4) as [j ->]; [cbn; lia|] end. cbn [mbind outcome_bind].
  eapply dispatch_handled; [done|right; by right|by apply (ir_modbus _ Hr)|]. apply modbus_sends; [by apply (ir_modbus _ Hr)|].
  cbn [imb_data]. rewrite payload_at_length; lia.
Qed.

Lemma gets_total ws (msg : list Z) off : 0 <= off -> off + widths (map (fun w => (w, 0)) ws) <= blen msg ->
  exists l, st_gets ws msg off = Done l /\ length l = length ws.
Proof.
  revert off. induction ws as [|w ws IH]; intros off Ho Hl; cbn [st_gets]; [by exists []|].
  change (off + (Z.of_nat w + widths (map (fun w => (w, 0)) ws)) <= blen msg) in Hl.
  pose proof (widths_nonneg (map (fun w => (w, 0)) ws)) as Hw. destruct (bget_ok w msg off) as [v Hv]; [lia|lia|].
  change (st_get w msg off) with (bget w msg off). rewrite Hv. cbn [mbind outcome_bind]. destruct (IH (off + Z.of_nat w)) as (l & -> & El); [lia|lia|].
  exists (v :: l). cbn. by rewrite El.
Qed.

Lemma words_total msg off : received msg -> 0 <= off <= 1000 -> exists w, get_words5 msg off = Done w.
Proof.
  intros [Hl _] Ho. unfold get_words5. destruct (gets_total [2; 2; 2; 2; 2]%nat msg off) as (l & -> & El); [lia|rewrite Hl; cbn; unfold HYPERAMP_MSG_HDR_PLUS_MAX_SIZE; lia|].
  do 6 (destruct l as [|? l]; try discriminate El). by eexists.
Qed.

Lemma header_total msg : received msg -> exists h, get_ProxyMsgHeader msg 0 = Done h.
Proof.
  intros [Hl _]. unfold get_ProxyMsgHeader. destruct (gets_total [1; 1; 2; 2; 2]%nat msg 0) as (l & -> & El); [lia|rewrite Hl; cbn; unfold HYPERAMP_MSG_HDR_PLUS_MAX_SIZE; lia|].
  do 6 (destruct l as [|? l]; try discriminate El). by eexists.
Qed.

Lemma iot_header_total msg : received msg -> exists h, get_IotMsgHeader msg PROXY_MSG_HDR_SIZE = Done h.
Proof.
  intros [Hl _]. unfold get_IotMsgHeader. destruct (gets_total [2; 2; 2; 2; 2; 2]%nat msg PROXY_MSG_HDR_SIZE) as (l & -> & El);
    [by vm_compute|rewrite Hl; cbn; unfold HYPERAMP_MSG_HDR_PLUS_MAX_SIZE, PROXY_MSG_HDR_SIZE; lia|].
  do 7 (destruct l as [|? l]; try discriminate El). by eexists.
Qed.

(** Every IoT message is handled. *)
Lemma iot_message_total x n msg env : received msg -> iot_ready (px_iot x) ->
  iot_handled x (backend_proxy_iot_msg_process x n msg PROXY_MSG_HDR_SIZE env).
Proof.
  intros Hm Hr. unfold backend_proxy_iot_msg_process. destruct (iot_header_total msg Hm) as [h ->]. cbn [mbind outcome_bind].
  change (PROXY_MSG_HDR_SIZE + sizeof_IotMsgHeader) with 20.
  repeat (case_match; [case_match; [by apply iot_handled_same|]; first [by apply bluetooth_message|by apply can_message|by apply modbus_message|by apply iot_handled_same] |]).
  by apply iot_handled_same.
Qed.
