(* ===== verification/Engine.v ===== *)
(** * Engine: the event loop

    One turn of [engine_run_hyperamp] (src/engine.c 3242-3488): the RX loop, the
    two walks over the pool's work queues, [poller_run] (src/poller.c), and the
    IoT polls; also [engine_listener_run].  What the environment answers during
    a turn is an argument.  A receive that the environment list does not cover
    is a poll that does not come back ([Spin]). *)

From S2P Require Import Prelude Bytes Mem HyperampQueue HyperampLinux ByteStore Message Build Session Device Responses SessionPool SessionData Iot Proto.
From stdpp Require Import base list numbers option gmap.
From Stdlib Require Import ZArith Lia.
#[local] Open Scope Z_scope.

(** ** Step 1: messages of the frontend *)

(** [env k] answers for the [k]-th message.  [None]: the receive failed and the
    engine returns.  [fuel] bounds the number of receives. *)
Fixpoint engine_rx_loop (fuel : nat) (env : nat -> msg_env) (k : nat) (msg_buf : list Z) (x : proxy)
  : outcome (option proxy * list Z) :=
  match fuel with
  | O => Spin
  | S fuel =>
      let w := px_world x in
      r ← backend_engine_hyperamp_rx_queue_get (Some (eng_ports (eng_tx (w_eng w)))) (tx_mem (w_tx w))
            HYPERAMP_MSG_HDR_PLUS_MAX_SIZE (Some msg_buf) true;
      let x := with_world x (with_tx w (with_tx_mem (w_tx w) (dq_mem r))) in
      match dq_status r with
      | PROCESS_ERROR => Done (None, dq_data r)
      | PROCESS_AGAIN => Done (Some x, dq_data r)
      | PROCESS_OK =>
          p ← backend_proxy_msg_process x (dq_data r) (env k);
          engine_rx_loop fuel env (S k) (dq_data r) (snd p)
      end
  end.

(** ** Steps 2 and 4: the work queues *)

(** TAILQ_REMOVE from a work queue. *)
Definition dequeue_sess (w : world) (p : Z) (dir : direction) : outcome world :=
  q ← tailq_remove p (pool_queue dir (w_pool w));
  Done (with_pool w (set_pool_queue dir (w_pool w) q)).

(** The session is done: off the queue, flag cleared. *)
Definition retire_sess (w : world) (p : Z) (dir : direction) : outcome world :=
  w ← dequeue_sess w p dir;
  s ← get_sess w p;
  Done (put_sess w p (set_state dir s (Z.land (sess_state dir s) (Z.lnot BACKEND_SESS_LINKED_TO_QUEUE)))).

(** The session failed: off the queue, then deleted. *)
Definition drop_sess (w : world) (p : Z) (dir : direction) (epoll_ok : bool) : outcome world :=
  w ← dequeue_sess w p dir;
  r ← high_speed_delete_sess w p epoll_ok;
  Done (snd r).

(** What send and epoll answer for a session. *)
Record f2b_env := { fe_sndbuf : option Z; fe_send : nat -> Z; fe_epoll : bool }.

(** TAILQ_FOREACH_SAFE over the sessions that were on the queue. *)
Fixpoint engine_f2b_walk (env : Z -> f2b_env) (todo : list Z) (w : world) : outcome world :=
  match todo with
  | [] => Done w
  | p :: todo =>
      r ← high_speed_data_process_f2b w p (fe_sndbuf (env p)) (fe_send (env p));
      let '(ret, _, w) := r in
      match ret with
      | PROCESS_OK => w ← retire_sess w p F2B; engine_f2b_walk env todo w
      | PROCESS_ERROR => w ← drop_sess w p F2B (fe_epoll (env p)); engine_f2b_walk env todo w
      | PROCESS_AGAIN => engine_f2b_walk env todo w
      end
  end.

Fixpoint engine_b2f_walk (epoll_ok : Z -> bool) (todo : list Z) (w : world) : outcome world :=
  match todo with
  | [] => Done w
  | p :: todo =>
      r ← high_speed_data_process_b2f w p;
      let '(ret, w) := r in
      match ret with
      | PROCESS_OK => w ← retire_sess w p B2F; engine_b2f_walk epoll_ok todo w
      | PROCESS_ERROR => w ← drop_sess w p B2F (epoll_ok p); engine_b2f_walk epoll_ok todo w
      | PROCESS_AGAIN => Done w
      end
  end.

(** ** Step 3: the network *)

Definition EPOLLERR : Z := 8.
Definition EPOLLHUP : Z := 16.

(** A ready event: the session of its channel, the flags, and what ioctl and
    read answer. *)
Record poll_event := { pe_sess : Z; pe_flags : Z; pe_ioctl : option Z; pe_reads : list read_env }.

Definition has_flag (flags f : Z) : bool := negb (Z.land flags f =? 0).

Fixpoint poller_events (events : list poll_event) (w : world) : outcome world :=
  match events with
  | [] => Done w
  | e :: events =>
      if has_flag (pe_flags e) EPOLLERR || has_flag (pe_flags e) EPOLLHUP then poller_events events w else
      s ← get_sess w (pe_sess e);
      if has_flag (pe_flags e) EPOLLIN && has_flag (ch_events (net_channel s)) EPOLLIN then
        r ← high_speed_data_process_nns w (pe_sess e) (pe_ioctl e) (pe_reads e);
        poller_events events (snd r)
      else poller_events events w
  end.

(** [None]: epoll_wait failed. *)
Definition poller_run (ready : option (list poll_event)) (w : world) : outcome world :=
  match ready with None => Done w | Some events => poller_events events w end.

(** ** Step 5: the IoT devices *)

Definition iot_report_header (proto : Z) (len : Z) (info : list Z) : GeneralProxyMsgHeader :=
  {| outer_header := {| pmh_version := 0; pmh_type := PROXY_MSG_TYPE_IOT; pmh_frontend_sess_id := 0;
                        pmh_backend_sess_id := 0; pmh_payload_len := 0 |};
     inner_header := {| iw0 := 1; iw1 := proto; iw2 := 0; iw3 := 0;
                        iw4 := u16 (len + get_iot_addr_length proto); iw5 := 0 |};
     iot_addr := {| addr_type := proto; addr_info := info |};
     iot_addr_len := get_iot_addr_length proto |}.

(** The address fields copied from the received buffer. *)
Definition iot_report_info (proto : Z) (info : list Z) : list Z :=
  if proto =? IOT_PROTO_TYPE_CAN then take 6 info ++ [0] ++ replicate 13 0
  else take (Z.to_nat (get_iot_addr_length proto)) info ++ replicate (20 - Z.to_nat (get_iot_addr_length proto)) 0.

Definition fresh_recv_buffer : IotMsgBuffer :=
  {| imb_data := replicate 1024 0; imb_len := 1024; imb_addr := zero_addr |}.

(** The three run loops differ in the protocol; the result of building the
    report is ignored. *)
Fixpoint engine_iot_run (proto : Z) (envs : list recv_env) (s : IoTBackendSession) (e : tx_engine) (tx : tx_state)
  : outcome (IoTBackendSession * tx_state) :=
  match envs with
  | [] => Spin
  | env :: envs =>
      r ← iot_recv s fresh_recv_buffer env;
      let '(ret, b, s) := r in
      match ret with
      | PROCESS_OK =>
          let h := iot_report_header proto (imb_len b) (iot_report_info proto (addr_info (imb_addr b))) in
          m ← build_proxy_general_message no_malloc (Some e) (Some h) (Some (imb_data b)) (imb_len b) true
                MEMORY_ALLOC_AMPQUEUE tx;
          engine_iot_run proto envs s e (snd m)
      | _ => Done (s, tx)
      end
  end.

Definition engine_iot_bluetooth_run := engine_iot_run IOT_PROTO_TYPE_BLUETOOTH.
Definition engine_iot_can_run := engine_iot_run IOT_PROTO_TYPE_CAN.
Definition engine_iot_modbustcp_run := engine_iot_run IOT_PROTO_TYPE_MODBUSTCP.

Record iot_env := { ie_bluetooth : list recv_env; ie_can : list recv_env; ie_modbus : list recv_env }.

(** Run one protocol if its session exists. *)
Definition iot_poll (proto : Z) (envs : list recv_env) (sess : option IoTBackendSession) (x : proxy) : outcome proxy :=
  match sess with
  | None => Done x
  | Some s =>
      r ← engine_iot_run proto envs s (eng_tx (w_eng (px_world x))) (w_tx (px_world x));
      Done (with_world (set_iot x proto (fst r) None) (with_tx (px_world x) (snd r)))
  end.

Definition engine_iot_dev_run (env : iot_env) (x : proxy) : outcome proxy :=
  x ← iot_poll IOT_PROTO_TYPE_BLUETOOTH (ie_bluetooth env) (backend_bluetooth_sess (px_iot x)) x;
  x ← iot_poll IOT_PROTO_TYPE_CAN (ie_can env) (backend_can_sess (px_iot x)) x;
  iot_poll IOT_PROTO_TYPE_MODBUSTCP (ie_modbus env) (backend_modbustcp_sess (px_iot x)) x.

(** ** A turn of the loop *)

Record turn_env := {
  te_msgs : nat -> msg_env; te_f2b : Z -> f2b_env; te_poll : option (list poll_event);
  te_b2f : Z -> bool; te_iot : iot_env }.

(** One iteration of the do-while(1) of [engine_run_hyperamp] (lines
    3305-3487); the guards in front of the loop are [engine_run_ready] in
    EngineInit.  [None]: the engine returned.  The queues are walked as they are
    when the step begins. *)
Definition engine_turn (rx_fuel : nat) (env : turn_env) (msg_buf : list Z) (x : proxy)
  : outcome (option proxy * list Z) :=
  r ← engine_rx_loop rx_fuel (te_msgs env) 0 msg_buf x;
  match fst r with
  | None => Done r
  | Some x =>
      w ← engine_f2b_walk (te_f2b env) (queue_f2b (w_pool (px_world x))) (px_world x);
      w ← poller_run (te_poll env) w;
      w ← engine_b2f_walk (te_b2f env) (queue_b2f (w_pool w)) w;
      x ← engine_iot_dev_run (te_iot env) (with_world x w);
      Done (Some x, snd r)
  end.

(** ** Turn after turn *)

(** Between two turns the frontend rewrites the shared memory. *)
Record turn_step := { ts_mem : mem; ts_env : turn_env }.

Definition frontend_acts (x : proxy) (m : mem) : proxy :=
  with_world x (with_tx (px_world x) (with_tx_mem (w_tx (px_world x)) m)).

(** The loop for as many iterations as there are steps; [None]: it returned. *)
Fixpoint run_turns (fuel : nat) (steps : list turn_step) (buf : list Z) (x : proxy) : outcome (option proxy * list Z) :=
  match steps with
  | [] => Done (Some x, buf)
  | s :: steps =>
      r ← engine_turn fuel (ts_env s) buf (frontend_acts x (ts_mem s));
      match fst r with None => Done r | Some x => run_turns fuel steps (snd r) x end
  end.

(** ** Accepting connections *)

Inductive accept_result := Accepted (fd : Z) (addr : list Z) | AcceptAgain | AcceptFailed.

(** One accept per listening device; [None]: exit(EXIT_FAILURE).  [env i] holds
    accept's answer for device [i] and what a passive creation meets. *)
Fixpoint listener_loop (env : nat -> accept_result * create_env) (i n : nat) (w : world) : outcome (option world) :=
  match n with
  | O => Done (Some w)
  | S n =>
      d ← get_dev w (Z.of_nat i);
      if tcp_listener d =? -1 then listener_loop env (S i) n w else
      match fst (env i) with
      | AcceptFailed => Done None
      | AcceptAgain => listener_loop env (S i) n w
      | Accepted fd addr =>
          r ← high_speed_create_sess_passive w true
                (Some {| pp_fd := fd; pp_dev_id := u16 (hs_dev_id d); pp_trans_proto := SESS_TCP_PROTO;
                         pp_ip_version := SESS_IPV4_PROTO; pp_ipv4_port_tuple := addr |}) (snd (env i));
          let w := if decide (fst r = PROCESS_OK) then snd r else close_fd (snd r) fd in
          listener_loop env (S i) n w
      end
  end.

Definition engine_listener_run (env : nat -> accept_result * create_env) (w : world) : outcome (option world) :=
  if dev_num (w_eng w) =? 0 then Done (Some w) else
  listener_loop env 0 (Z.to_nat (dev_num (w_eng w))) w.
