(* ===== verification/EngineSpec.v ===== *)
(** * EngineSpec: the event loop at work

    The RX loop delivers every pending data message; the walks over the work
    queues keep the pool's invariant; two runs that go wrong. *)

From S2P Require Import Prelude Bytes Mem HyperampQueue HyperampQueueSpec HyperampLinux ByteStore Message Build BuildSpec Session Device Responses SessionPool SessionPoolSpec SessionPoolRun SessionData SessionDataSpec Iot IotSpec Proto ProtoSpec Engine.
From stdpp Require Import base list numbers option gmap.
From Stdlib Require Import ZArith Lia.
#[local] Open Scope Z_scope.

(** ** Step 1 *)

Lemma contents_block g m b : qwf g m -> b ∈ contents g m -> blen b = g_bs g /\ Forall is_byte b.
Proof.
  intros Hw Hb. unfold contents in Hb. apply list_elem_of_fmap in Hb as (k & -> & _). unfold ring_block, blen.
  rewrite mread_length. pose proof (geometry_ok_spec g (qwf_geo _ _ Hw)) as Hgeo. split; [lia|]. apply mread_bytes, Hw.
Qed.

(** Block [blk] is a DATA message with payload [bytes] for session [p]; malloc
    serves its copy. *)
Definition data_for (table : gmap Z Z) (env : msg_env) (blk : list Z) (p : Z) (bytes : list Z) : Prop :=
  exists h d, get_ProxyMsgHeader blk 0 = Done h /\ pmh_type h = PROXY_MSG_TYPE_DATA /\
  pmh_payload_len h <= PROXY_MSG_MAX_SIZE /\ table !! pmh_backend_sess_id h = Some p /\
  bread blk PROXY_MSG_HDR_SIZE (pmh_payload_len h) = Done bytes /\
  me_seg env = true /\ me_data env = Some d /\ blen d = pmh_payload_len h.

Fixpoint data_run (table : gmap Z Z) (env : nat -> msg_env) (k : nat) (blks : list (list Z))
    (dest : list (Z * list Z)) : Prop :=
  match blks, dest with
  | [], [] => True
  | b :: blks, (p, bytes) :: dest => data_for table (env k) b p bytes /\ data_run table env (S k) blks dest
  | _, _ => False
  end.

(** The payloads addressed to [p], in order. *)
Definition payloads_for (p : Z) (dest : list (Z * list Z)) : list (list Z) :=
  map snd (filter (fun d => fst d = p) dest).

(** A step of the loop on a world whose RX ring is [g]. *)
Record rx_ok (g : geometry) (w : world) : Prop := {
  rxo_wf : qwf g (tx_mem (w_tx w));
  rxo_queue : g_queue g = hyper_rx_queue (eng_ports (eng_tx (w_eng w)));
  rxo_base : g_base g = hyper_amp_data_region (eng_ports (eng_tx (w_eng w)));
  rxo_region : g_base g <> 0;
  rxo_pool : eng_mem_pool (eng_tx (w_eng w)) <> 0;
  rxo_bs : g_bs g = HYPERAMP_MSG_HDR_PLUS_MAX_SIZE }.

Definition rx_world (w : world) (m : mem) : world := with_tx w (with_tx_mem (w_tx w) m).

Lemma rx_get g w buf :
  rx_ok g w -> blen buf = HYPERAMP_MSG_HDR_PLUS_MAX_SIZE ->
  exists d, backend_engine_hyperamp_rx_queue_get (Some (eng_ports (eng_tx (w_eng w)))) (tx_mem (w_tx w))
              HYPERAMP_MSG_HDR_PLUS_MAX_SIZE (Some buf) true = Done d /\
  rx_ok g (rx_world w (dq_mem d)) /\
  match contents g (tx_mem (w_tx w)) with
  | [] => dq_status d = PROCESS_AGAIN /\ contents g (dq_mem d) = [] /\ dq_data d = buf
  | b :: s => dq_status d = PROCESS_OK /\ contents g (dq_mem d) = s /\ dq_data d = b /\ received b
  end.
Proof.
  intros [Hw Hq Hb Hr Hp Hbs] Hbuf. unfold backend_engine_hyperamp_rx_queue_get.
  pose proof (geometry_ok_spec g (qwf_geo _ _ Hw)) as Hgeo. rewrite <- Hq, <- Hb.
  rewrite (proj2 (Z.eqb_neq (g_queue g) 0)) by lia. rewrite (proj2 (Z.eqb_neq (g_base g) 0)) by done. cbn [negb].
  destruct (contents g (tx_mem (w_tx w))) as [|b s] eqn:Ec.
  - destruct (dequeue_empty g (tx_mem (w_tx w)) HYPERAMP_ZONE_ID_Linux buf HYPERAMP_MSG_HDR_PLUS_MAX_SIZE Hw)
      as (d & -> & Hw' & Hc & Hst & Hdat & _); [by vm_compute|done|].
    exists d. split; [done|]. split; [by split|]. done.
  - assert (read_length HYPERAMP_MSG_HDR_PLUS_MAX_SIZE (g_bs g) = HYPERAMP_MSG_HDR_PLUS_MAX_SIZE) as Hrl.
    { unfold read_length. rewrite Hbs, Z.ltb_irrefl. done. }
    destruct (dequeue_nonempty g (tx_mem (w_tx w)) HYPERAMP_ZONE_ID_Linux buf HYPERAMP_MSG_HDR_PLUS_MAX_SIZE b s Hw)
      as (d & -> & Hw' & Hc & Hst & Hd & _); [by vm_compute|rewrite Hrl; lia|done|].
    destruct (contents_block g (tx_mem (w_tx w)) b Hw) as [Hbl Hby]; [rewrite Ec; left|].
    exists d. split; [done|]. split; [by split|]. split; [done|]. split; [done|].
    split; [|split; [congruence|done]]. rewrite Hrl in Hd. rewrite Hd.
    unfold blen in *. rewrite take_ge by lia. rewrite drop_ge by lia. apply app_nil_r.
Qed.

Lemma payloads_for_cons p q bytes dest :
  payloads_for p ((q, bytes) :: dest) = (if decide (q = p) then [bytes] else []) ++ payloads_for p dest.
Proof. unfold payloads_for. rewrite filter_cons. cbn [fst]. by case_decide. Qed.

(** What the loop leaves behind. *)
Definition rx_delivered (g : geometry) (w : world) (dest : list (Z * list Z)) (w' : world) : Prop :=
  pool_inv w' /\ contents g (tx_mem (w_tx w')) = [] /\ htable (w_pool w') = htable (w_pool w) /\
  forall p s, w_sess w !! p = Some s -> exists s', w_sess w' !! p = Some s' /\
    msg_f2b s' = msg_f2b s ++ map data_seg (payloads_for p dest).

Lemma rx_loop_delivers g env blks dest : forall k fuel buf x,
  rx_ok g (px_world x) -> pool_inv (px_world x) -> blen buf = HYPERAMP_MSG_HDR_PLUS_MAX_SIZE ->
  contents g (tx_mem (w_tx (px_world x))) = blks -> data_run (htable (w_pool (px_world x))) env k blks dest ->
  (length blks < fuel)%nat ->
  exists x' buf', engine_rx_loop fuel env k buf x = Done (Some x', buf') /\
  rx_delivered g (px_world x) dest (px_world x').
Proof.
  revert dest. induction blks as [|b blks IH]; intros dest k fuel buf x Hrx Hi Hbuf Hc Hrun Hf;
    (destruct fuel as [|fuel]; [cbn in Hf; lia|]); cbn [engine_rx_loop];
    destruct (rx_get g (px_world x) buf Hrx Hbuf) as (d & -> & Hrx' & Hcase); rewrite Hc in Hcase;
    cbn [mbind outcome_bind].
  - destruct Hcase as (-> & Hc' & _). destruct dest; [|done]. do 2 eexists. split; [reflexivity|].
    split; [by apply (pool_inv_frame (px_world x))|]. split; [done|]. split; [done|].
    intros p s Hs. exists s. by rewrite app_nil_r.
  - destruct Hcase as (-> & Hc' & -> & Hrec). destruct dest as [|[p bytes] dest]; [done|].
    destruct Hrun as [(h & dd & Hh & Ht & Hl & Hid & Hby & Hseg & Hdat & Hdl) Hrun].
    set (x1 := with_world x (with_tx (px_world x) (with_tx_mem (w_tx (px_world x)) (dq_mem d)))).
    assert (pool_inv (px_world x1)) as Hi1 by (by apply (pool_inv_frame (px_world x))).
    destruct (pi_table _ Hi _ _ Hid) as (_ & s & Hs & _).
    destruct (data_message_spec x1 b (env k) h p s dd) as (w2 & s2 & bs2 & E & Hb2 & Hs2 & Hm2 & _ & Hi2 & Ht2 & Htx2 & He2 & _);
      try done; [apply (rxo_pool _ _ Hrx)|].
    assert (bs2 = bytes) as -> by congruence. fold x1. rewrite E. cbn [mbind outcome_bind snd].
    destruct (IH dest (S k) fuel b (with_world x1 w2)) as (x' & buf' & -> & Hi' & Hc'' & Hht & Hdel).
    { destruct Hrx' as [R1 R2 R3 R4 R5 R6]. split; cbn [px_world with_world]; rewrite ?Htx2, ?He2; done. }
    { done. } { apply Hrec. } { cbn [px_world with_world]. rewrite Htx2. exact Hc'. }
    { cbn [px_world with_world]. rewrite Ht2. exact Hrun. } { cbn in Hf. lia. }
    do 2 eexists. split; [reflexivity|]. split; [done|]. split; [done|]. split; [rewrite Hht; exact Ht2|].
    intros q t Hq. rewrite payloads_for_cons. cbn [px_world with_world] in Hdel. rewrite Hs2 in Hdel.
    case_decide as Epq.
    + subst q. assert (t = s) as -> by congruence. destruct (Hdel p s2) as (s' & ? & Hm'); [apply lookup_insert_eq|].
      exists s'. split; [done|]. rewrite Hm', Hm2, <- app_assoc. done.
    + destruct (Hdel q t) as (s' & ? & Hm'); [by rewrite lookup_insert_ne|]. by exists s'.
Qed.

(** C8. The receive loop delivers every pending data message: when the RX ring
    holds DATA messages for sessions of the pool (each at most 4088 bytes), the
    loop ends after them with the ring empty; every session's
    frontend-to-network queue has grown by exactly the payloads addressed to
    it, in ring order; and the pool invariant holds. *)
Theorem rx_loop_delivers_all g env dest fuel buf x :
  rx_ok g (px_world x) -> pool_inv (px_world x) -> blen buf = HYPERAMP_MSG_HDR_PLUS_MAX_SIZE ->
  data_run (htable (w_pool (px_world x))) env 0 (contents g (tx_mem (w_tx (px_world x)))) dest ->
  (length (contents g (tx_mem (w_tx (px_world x)))) < fuel)%nat ->
  exists x' buf', engine_rx_loop fuel env 0 buf x = Done (Some x', buf') /\
  rx_delivered g (px_world x) dest (px_world x').
Proof. intros. by eapply rx_loop_delivers. Qed.

(** ** Steps 2 and 4 *)

(** Taking a session off a queue and clearing its flag keeps the invariant. *)
Lemma retire_inv w p s dir v :
  pool_inv w -> w_sess w !! p = Some s -> bit0 v = false ->
  pool_inv (put_sess (with_pool w (set_pool_queue dir (w_pool w) (remove_first p (pool_queue dir (w_pool w))))) p
              (set_state dir s v)).
Proof.
  intros Hi Hs Hv. pose proof Hi as [Hnd Hr Hf Ht Hn Hqn Hq].
  set (s' := set_state dir s _). assert (forall q, <[p := s']> (w_sess w) !! q =
    if decide (q = p) then Some s' else w_sess w !! q) as Hlook.
  { intros q. case_decide as E; [subst; apply lookup_insert_eq|by apply lookup_insert_ne]. }
  split; cbn [w_pool w_sess with_pool put_sess with_sess set_pool_queue id_queue htable sess_num]; try done.
  - intros id q Hid. destruct (Ht _ _ Hid) as (Hrg & t & Ht1 & Ht2 & Ht3). split; [done|].
    rewrite Hlook. case_decide as E; [|eauto]. subst q. exists s'. assert (t = s) as -> by congruence. done.
  - intros dir'. rewrite pool_queue_set. case_decide; [by apply remove_first_nodup|done].
  - intros dir' q. rewrite pool_queue_set. setoid_rewrite Hlook.
    assert (q ∈ (if decide (dir = dir') then remove_first p (pool_queue dir (w_pool w)) else pool_queue dir' (w_pool w))
            <-> (q ∈ pool_queue dir' (w_pool w)) /\ (dir = dir' -> q <> p)) as ->.
    { case_decide as E; [subst dir'; rewrite remove_first_elem by done|]; tauto. }
    rewrite Hq. split.
    + intros [(id & t & Hid & Ht' & Hb) Hne]. exists id. case_decide as E; [|eauto]. subst q.
      assert (t = s) as -> by congruence. exists s'. split; [done|]. split; [done|].
      unfold s'. rewrite sess_state_set. case_decide as E; [|done]. by destruct (Hne E).
    + intros (id & t & Hid & Ht' & Hb). case_decide as E; [|split; [eauto|done]]. subst q. injection Ht' as <-.
      unfold s' in Hb. rewrite sess_state_set in Hb. case_decide as E; [congruence|].
      split; [eauto|done].
Qed.

Lemma retire_spec w p s dir :
  pool_inv w -> w_sess w !! p = Some s -> p ∈ pool_queue dir (w_pool w) ->
  exists w' v, retire_sess w p dir = Done w' /\ pool_inv w' /\ w_sess w' = <[p := set_state dir s v]> (w_sess w) /\
  (forall q, q ∈ pool_queue dir (w_pool w') <-> q ∈ pool_queue dir (w_pool w) /\ q <> p) /\
  w_tx w' = w_tx w /\ w_eng w' = w_eng w.
Proof.
  intros Hi Hs Hp. unfold retire_sess, dequeue_sess. rewrite tailq_remove_ok by done. cbn [mbind outcome_bind].
  unfold get_sess. cbn [w_sess with_pool]. rewrite Hs. cbn [mbind outcome_bind].
  do 2 eexists. split; [reflexivity|]. split; [apply retire_inv; [done|done|apply bit0_clear]|].
  split; [reflexivity|]. split; [|done]. intros q. cbn [w_pool put_sess with_sess with_pool].
  rewrite pool_queue_set, decide_True by done. apply remove_first_elem, Hi.
Qed.

(** What [high_speed_data_process_f2b] answers for these segments. *)
Definition f2b_status (e : f2b_env) (segs : list SessMsgSeg) : status :=
  match fe_sndbuf e with
  | None => PROCESS_ERROR
  | Some b => match f2b_loop (fe_send e) 0 b segs with Done (st, _, _) => st | _ => PROCESS_ERROR end
  end.

Definition f2b_no_error (env : Z -> f2b_env) (w : world) (p : Z) : Prop :=
  exists s, w_sess w !! p = Some s /\ Forall seg_sound (msg_f2b s) /\ f2b_status (env p) (msg_f2b s) <> PROCESS_ERROR.

Lemma f2b_process_spec w p s e :
  w_sess w !! p = Some s -> Forall seg_sound (msg_f2b s) -> f2b_status e (msg_f2b s) <> PROCESS_ERROR ->
  exists sent q, high_speed_data_process_f2b w p (fe_sndbuf e) (fe_send e) =
    Done (f2b_status e (msg_f2b s), sent, put_sess w p (set_msgs F2B s q)) /\
  (f2b_status e (msg_f2b s) = PROCESS_OK <-> q = []).
Proof.
  intros Hs Hok Hne. unfold high_speed_data_process_f2b, get_sess. rewrite Hs. cbn [mbind outcome_bind].
  unfold f2b_status in *. destruct (fe_sndbuf e) as [b|]; [|done].
  destruct (f2b_loop_spec (fe_send e) (msg_f2b s) 0 b Hok) as (st & q & sent & dn & -> & _ & _ & Hst).
  cbn [mbind outcome_bind]. do 2 eexists. split; [reflexivity|done].
Qed.

(** The effect of walking over [todo]: other sessions are untouched; a session
    walked over stays queued exactly when its send buffer was full, and is
    drained otherwise. *)
Definition f2b_walked (env : Z -> f2b_env) (w : world) (todo : list Z) (w' : world) : Prop :=
  pool_inv w' /\
  (forall q, q ∉ todo -> w_sess w' !! q = w_sess w !! q /\ (q ∈ queue_f2b (w_pool w') <-> q ∈ queue_f2b (w_pool w))) /\
  (forall q s, q ∈ todo -> w_sess w !! q = Some s -> exists s', w_sess w' !! q = Some s' /\
     (q ∈ queue_f2b (w_pool w') <-> f2b_status (env q) (msg_f2b s) = PROCESS_AGAIN) /\
     (msg_f2b s' = [] <-> q ∉ queue_f2b (w_pool w'))).

(** One session of the walk. *)
Record f2b_stepped (env : Z -> f2b_env) (w : world) (p : Z) (s : BackendSession) (w2 : world) : Prop := {
  fs_inv : pool_inv w2;
  fs_sess : forall r, r <> p -> w_sess w2 !! r = w_sess w !! r;
  fs_queue : forall r, r <> p -> (r ∈ queue_f2b (w_pool w2) <-> r ∈ queue_f2b (w_pool w));
  fs_done : exists s2, w_sess w2 !! p = Some s2 /\
              (msg_f2b s2 = [] <-> f2b_status (env p) (msg_f2b s) = PROCESS_OK);
  fs_again : p ∈ queue_f2b (w_pool w2) <-> f2b_status (env p) (msg_f2b s) = PROCESS_AGAIN }.

Lemma f2b_step env w p s todo :
  pool_inv w -> w_sess w !! p = Some s -> p ∈ queue_f2b (w_pool w) -> Forall seg_sound (msg_f2b s) ->
  f2b_status (env p) (msg_f2b s) <> PROCESS_ERROR ->
  exists w2, engine_f2b_walk env (p :: todo) w = engine_f2b_walk env todo w2 /\ f2b_stepped env w p s w2.
Proof.
  intros Hi Hs Hpq Hok Hne. destruct (f2b_process_spec w p s (env p) Hs Hok Hne) as (sent & q & Ef & Hq).
  cbn [engine_f2b_walk]. rewrite Ef. cbn [mbind outcome_bind]. set (s1 := set_msgs F2B s q). set (w1 := put_sess w p s1).
  assert (pool_inv w1) as Hi1 by (by apply (pool_inv_put_same w p s)).
  assert (w_sess w1 !! p = Some s1) as Hs1 by apply lookup_insert_eq.
  destruct (f2b_status (env p) (msg_f2b s)) eqn:Est; [|done|].
  - destruct (retire_spec w1 p s1 F2B Hi1 Hs1 Hpq) as (w2 & v & -> & Hi2 & Hs2 & Hq2 & _).
    cbn [pool_queue] in Hq2. exists w2. split; [done|]. split; rewrite ?Est; [done| | | |].
    + intros r Hr. rewrite Hs2, lookup_insert_ne by done. by apply lookup_insert_ne.
    + intros r Hr. rewrite Hq2. tauto.
    + exists (set_state F2B s1 v). split; [rewrite Hs2; apply lookup_insert_eq|]. by rewrite Hq.
    + rewrite Hq2. split; [tauto|done].
  - exists w1. split; [done|]. split; rewrite ?Est; [done| |done| |done].
    + intros r Hr. by apply lookup_insert_ne.
    + exists s1. split; [done|]. by rewrite Hq.
Qed.

Lemma f2b_walked_cons env w p s todo w2 w' :
  p ∉ todo -> w_sess w !! p = Some s -> f2b_status (env p) (msg_f2b s) <> PROCESS_ERROR ->
  f2b_stepped env w p s w2 -> f2b_walked env w2 todo w' -> f2b_walked env w (p :: todo) w'.
Proof.
  intros Hp Hs Hne [Hi2 Hsame Hqsame (s2 & Hs2 & Hm2) Hpq2] (Hi' & Hout & Hin). split; [done|]. split.
  - intros r [Hrp Hr]%not_elem_of_cons. destruct (Hout r Hr) as [-> Hrq].
    rewrite Hrq. split; [by apply Hsame|by apply Hqsame].
  - intros r t Hr Ht. apply elem_of_cons in Hr as [->|Hr].
    + assert (t = s) as -> by congruence. destruct (Hout p Hp) as [E1 E2]. exists s2. rewrite E1. split; [done|].
      rewrite E2. split; [done|]. rewrite Hm2, Hpq2. destruct (f2b_status _ _); done.
    + assert (r <> p) by (intros ->; done). apply Hin; [done|]. by rewrite Hsame.
Qed.

Lemma f2b_walk_spec env todo : forall w,
  pool_inv w -> NoDup todo -> (forall p, p ∈ todo -> (p ∈ queue_f2b (w_pool w)) /\ f2b_no_error env w p) ->
  exists w', engine_f2b_walk env todo w = Done w' /\ f2b_walked env w todo w'.
Proof.
  induction todo as [|p todo IH]; intros w Hi Hnd Hall.
  { exists w. split; [done|]. split; [done|]. split; [done|]. intros q s Hq. by apply elem_of_nil in Hq. }
  apply NoDup_cons in Hnd as [Hp Hnd]. destruct (Hall p ltac:(left)) as (Hpq & s & Hs & Hok & Hne).
  destruct (f2b_step env w p s todo Hi Hs Hpq Hok Hne) as (w2 & -> & Hst).
  destruct (IH w2 (fs_inv _ _ _ _ _ Hst) Hnd) as (w' & -> & Hw').
  { intros r Hr. assert (r <> p) by (intros ->; done). destruct (Hall r ltac:(by right)) as [Hrq (t & Ht & Htok)].
    split; [by apply (fs_queue _ _ _ _ _ Hst)|]. exists t. by rewrite (fs_sess _ _ _ _ _ Hst). }
  exists w'. split; [done|]. by eapply f2b_walked_cons.
Qed.

(** Unlinking a session that is flagged but not on the queue. *)
Lemma unlink_unqueued_faults w p s dir :
  w_sess w !! p = Some s -> sess_eng s = true -> bit0 (sess_state dir s) = true ->
  p ∉ pool_queue dir (w_pool w) -> BACKEND_SESS_UNLINK_FROM_QUEUE w p dir = Fault BadUnlink.
Proof.
  intros Hs He Hbit Hp. unfold BACKEND_SESS_UNLINK_FROM_QUEUE, get_sess. rewrite Hs. cbn [mbind outcome_bind].
  rewrite He. cbn [negb]. unfold BACKEND_SESS_LINKED_TO_QUEUE. rewrite land1_bit0, Hbit. cbn [Z.b2z Z.eqb].
  unfold tailq_remove. destruct (existsb _ _) eqn:E; [|done].
  apply existsb_exists in E as (y & Hy%list_elem_of_In & ->%Z.eqb_eq). done.
Qed.

Lemma detach_unqueued_faults w p s id ep :
  htable (w_pool w) !! id = Some p -> backend_sess_id s = id -> sess_eng s = true ->
  bit0 (state_f2b s) = true -> p ∉ queue_f2b (w_pool w) ->
  delete_detach_sess w p s ep = Fault BadUnlink.
Proof.
  intros Hid Hb He Hbit Hp. unfold delete_detach_sess, hash_del. cbn [w_pool close_fd put_sess with_sess].
  rewrite Hb, Hid, Z.eqb_refl. cbn [require mbind outcome_bind].
  rewrite (unlink_unqueued_faults _ p (snd (BACKEND_SESS_UNREGISTER_EPOLL ep s)) F2B); try done.
  apply lookup_insert_eq.
Qed.

(** C20. Step 2 of the event loop, when no session reports an error: the walk
    over the f2b work queue returns and keeps the pool invariant; the sessions
    left on the queue are exactly those whose send buffer was full, and exactly
    they still have segments queued; sessions that were not on the queue are
    untouched. *)
Theorem f2b_walk_drains env w :
  pool_inv w -> (forall p, p ∈ queue_f2b (w_pool w) -> f2b_no_error env w p) ->
  exists w', engine_f2b_walk env (queue_f2b (w_pool w)) w = Done w' /\ pool_inv w' /\
  (forall q, q ∉ queue_f2b (w_pool w) -> w_sess w' !! q = w_sess w !! q /\ q ∉ queue_f2b (w_pool w')) /\
  (forall q s, q ∈ queue_f2b (w_pool w) -> w_sess w !! q = Some s -> exists s', w_sess w' !! q = Some s' /\
     (q ∈ queue_f2b (w_pool w') <-> f2b_status (env q) (msg_f2b s) = PROCESS_AGAIN) /\
     (msg_f2b s' = [] <-> q ∉ queue_f2b (w_pool w'))).
Proof.
  intros Hi Hall. destruct (f2b_walk_spec env (queue_f2b (w_pool w)) w Hi (pi_qnodup _ Hi F2B)) as (w' & E & Hi' & Hout & Hin).
  { intros p Hp. split; [done|by apply Hall]. }
  exists w'. split; [done|]. split; [done|]. split; [|done].
  intros q Hq. destruct (Hout q Hq) as [E1 E2]. by rewrite E2.
Qed.

(** A send error ends the engine in undefined behaviour: step 2 takes the
    failing session off the work queue by hand and then deletes it, and the
    deletion, seeing the queue flag still set, unlinks it a second time. *)
Theorem f2b_error_unlinks_twice env todo w p s id :
  pool_inv w -> high_speed_search_sess w id = Some p -> w_sess w !! p = Some s ->
  p ∈ queue_f2b (w_pool w) -> fe_sndbuf (env p) = None ->
  engine_f2b_walk env (p :: todo) w = Fault BadUnlink.
Proof.
  intros Hi Hid Hs Hp He. cbn [engine_f2b_walk]. unfold high_speed_data_process_f2b, get_sess at 1.
  rewrite Hs, He. cbn [mbind outcome_bind]. unfold drop_sess, dequeue_sess. cbn [pool_queue].
  rewrite tailq_remove_ok by done. cbn [mbind outcome_bind].
  unfold high_speed_delete_sess, get_sess at 1. cbn [w_sess with_pool]. rewrite Hs. cbn [mbind outcome_bind].
  rewrite (detach_unqueued_faults _ p s id); try done.
  - by destruct (pi_table _ Hi _ _ Hid) as (_ & t & Ht & Hb & _); assert (t = s) as -> by congruence.
  - by destruct (pi_table _ Hi _ _ Hid) as (_ & t & Ht & _ & Hb); assert (t = s) as -> by congruence.
  - apply (queue_bit w id p s F2B Hi Hid Hs), Hp.
  - cbn. rewrite remove_first_elem by apply (pi_qnodup _ Hi F2B). tauto.
Qed.

(** ** Step 5 *)

(** Polling a Bluetooth session in server mode never ends: its receive
    handler reports OK without reading anything, and the run loop goes on while
    it does, whatever the environment answers. *)
Theorem bluetooth_server_poll_never_returns envs s e tx r :
  iot_working_mode s = IOT_WORK_MODE_SERVER -> recv_from_remote s = Some BluetoothDriver ->
  ~ engine_iot_bluetooth_run envs s e tx = Done r.
Proof.
  unfold engine_iot_bluetooth_run. intros Hm Hd. revert tx. induction envs as [|env envs IH]; intros tx E; [done|].
  cbn [engine_iot_run] in E. unfold iot_recv in E. rewrite Hd in E.
  assert (bluetooth_recv_from_remote s fresh_recv_buffer env = Done (PROCESS_OK, fresh_recv_buffer, s)) as Hr.
  { unfold bluetooth_recv_from_remote. by rewrite Hm. }
  rewrite Hr in E. cbn [mbind outcome_bind] in E. apply bind_Done in E as (m & _ & E). by apply IH in E.
Qed.

(** ** Witnesses *)

Lemma bluetooth_server_poll_never_returns_witness :
  ~ exists r, engine_iot_bluetooth_run (replicate 50 (demo_recv None))
    (iot_opened (demo_iot BluetoothDriver IOT_PROTO_TYPE_BLUETOOTH) IOT_WORK_MODE_SERVER (-1) 9 [])
    demo_engine demo_tx = Done r.
Proof. intros [r E]. revert E. apply bluetooth_server_poll_never_returns; reflexivity. Defined.

(** A session with two segments queued towards the network. *)
Definition demo_sending : BackendSession :=
  set_msgs F2B (set_state F2B (set_state B2F (active_session demo_junk demo_para 1 5 500 10) 0) 1)
    [demo_seg [1; 2; 3]; demo_seg [4; 5]].

Definition demo_busy : world :=
  {| w_sess := {[ 500 := demo_sending ]}; w_node := {[ 10 := Some 500; 11 := None ]};
     w_devs := [device_linked (demo_dev 0 [10; 11]) (para_trans_proto demo_para) 10 [11]];
     w_pool := {| sess_num := 1; pool_capacity := 1024; queue_f2b := [500]; queue_b2f := [];
                  id_queue := map Z.of_nat (seq 2 1023); htable := {[ 1 := 500 ]} |};
     w_eng := demo_engine_state; w_last_pos := 0; w_tx := demo_tx; w_closed := [] |}.

Lemma demo_busy_inv : pool_inv demo_busy.
Proof. by apply (single_pool_inv _ 500 demo_sending). Qed.

(** The second segment does not fit the send buffer. *)
Definition demo_send_env (sndbuf : option Z) (_ : Z) : f2b_env :=
  {| fe_sndbuf := sndbuf; fe_send := fun _ => 3; fe_epoll := true |}.

Lemma f2b_walk_drains_witness :
  exists w' s', engine_f2b_walk (demo_send_env (Some 5)) [500] demo_busy = Done w' /\ w_sess w' !! 500 = Some s' /\
  (500 ∈ queue_f2b (w_pool w')) /\ msg_f2b s' <> [].
Proof.
  destruct (f2b_walk_drains (demo_send_env (Some 5)) demo_busy demo_busy_inv) as (w' & E & _ & _ & Hin).
  - intros p ->%list_elem_of_singleton. exists demo_sending. split; [done|]. split; [|discriminate].
    repeat constructor; intros d [= <-]; by vm_compute.
  - destruct (Hin 500 demo_sending) as (s' & Hs & Hq & Hm); [by apply list_elem_of_singleton|done|].
    exists w', s'. split; [exact E|]. split; [exact Hs|].
    assert (500 ∈ queue_f2b (w_pool w')) as Hin' by (by apply Hq). split; [exact Hin'|]. rewrite Hm. tauto.
Defined.

Lemma f2b_error_unlinks_twice_witness :
  engine_f2b_walk (demo_send_env None) [500] demo_busy = Fault BadUnlink.
Proof.
  apply (f2b_error_unlinks_twice (demo_send_env None) [] demo_busy 500 demo_sending 1);
    [apply demo_busy_inv|done|done|by apply list_elem_of_singleton|done].
Defined.

(** The channel of [demo_channel] with a DATA message for session 1 in the
    pending RX block. *)
Definition demo_rx_geo : geometry := rx_geometry 0x10000 SHM_CH1_PADDR.
Definition demo_rx_mem : mem := mwrite demo_channel 0x13000 [1; 3; 9; 0; 1; 0; 2; 0; 7; 8].
Definition demo_rx_tx : tx_state := {| tx_mem := demo_rx_mem; tx_amp_buf := []; tx_ring := None |}.
Definition demo_rx_proxy : proxy := with_world demo_proxy (with_tx demo_live demo_rx_tx).

Lemma demo_rx_ok : rx_ok demo_rx_geo (px_world demo_rx_proxy).
Proof.
  split; try done; try (by vm_compute).
  split; [| | | | | |apply mwrite_bytes; [apply demo_channel_bytes|by apply bytesb_ok]]; try (vm_compute; reflexivity);
    (split; [vm_compute; discriminate|vm_compute; reflexivity]).
Qed.

Lemma rx_loop_delivers_all_witness :
  exists x' buf' s', engine_rx_loop 5 (fun _ => demo_env_msg [0; 0]) 0 (replicate 4096 0) demo_rx_proxy
    = Done (Some x', buf') /\ w_sess (px_world x') !! 500 = Some s' /\ msg_f2b s' = [data_seg [7; 8]].
Proof.
  assert (contents demo_rx_geo (tx_mem (w_tx (px_world demo_rx_proxy))) =
          [[1; 3; 9; 0; 1; 0; 2; 0; 7; 8] ++ replicate 4086 0]) as Hc by (vm_compute; reflexivity).
  destruct (rx_loop_delivers_all demo_rx_geo (fun _ => demo_env_msg [0; 0]) [(500, [7; 8])] 5 (replicate 4096 0)
              demo_rx_proxy) as (x' & buf' & E & _ & _ & _ & Hdel).
  - apply demo_rx_ok.
  - apply (pool_inv_frame demo_live); [done|done|apply demo_live_inv].
  - unfold blen. by rewrite length_replicate.
  - rewrite Hc. split; [|done]. eexists _, [0; 0]. split; [vm_compute; reflexivity|].
    split_and!; try done; by vm_compute.
  - rewrite Hc. cbn. lia.
  - destruct (Hdel 500 demo_session eq_refl) as (s' & Hs & Hm). exists x', buf', s'.
    split; [exact E|]. split; [exact Hs|exact Hm].
Defined.
