(* ===== verification/Channel.v ===== *)
(** * Channel: where the backend writes shared memory

    Whatever the frontend sends and whatever the environment answers, the
    backend writes only inside the channel: the control blocks of its two rings
    and their common blocks.  The invariant [confined] says so relative to the
    memory [m0] of some earlier moment, and every operation keeps it. *)

From S2P Require Import Prelude Bytes Mem HyperampQueue HyperampQueueLemmas HyperampQueueSpec HyperampLinux ByteStore Message Build Session Device Responses SessionPool SessionPoolRun SessionData Iot Proto ProtoSpec Engine EngineSpec.
From stdpp Require Import base list numbers option gmap.
From Stdlib Require Import ZArith Lia.
#[local] Open Scope Z_scope.

(** ** One ring *)

(** [qwf] without the condition on the bytes of the whole memory. *)
Record ring_ok (g : geometry) (m : mem) : Prop := {
  ro_geo : geometry_ok g = true;
  ro_cap : qget F_capacity m (g_queue g) = g_cap g;
  ro_bs : qget F_block_size m (g_queue g) = g_bs g;
  ro_header : 0 <= qget F_header m (g_queue g) < g_cap g;
  ro_tail : 0 <= qget F_tail m (g_queue g) < g_cap g;
  ro_lock : qget F_lock_value m (g_queue g) = 0 }.

Lemma qwf_ring g m : qwf g m <-> ring_ok g m /\ mem_bytes m.
Proof. split; [intros []; by split|intros [ [] ?]; by split]. Qed.

Definition in_control (g : geometry) (x : Z) : Prop := g_queue g <= x < g_queue g + sizeof_HyperampShmQueue.
Definition in_blocks (g : geometry) (x : Z) : Prop := g_base g + g_bs g <= x < g_base g + (g_cap g + 1) * g_bs g.

(** The memory agrees with [m] outside the ring. *)
Definition ring_written (g : geometry) (m m' : mem) : Prop :=
  ring_ok g m' /\ forall x, ~ in_control g x -> ~ in_blocks g x -> m' x = m x.

Lemma ring_frame g m m' : ring_ok g m -> (forall x, in_control g x -> m' x = m x) -> ring_ok g m'.
Proof. intros [] Hx. split; try done; by rewrite (qget_ext _ m' m). Qed.

Lemma unlock_ring g m :
  geometry_ok g = true -> qget F_capacity m (g_queue g) = g_cap g -> qget F_block_size m (g_queue g) = g_bs g ->
  0 <= qget F_header m (g_queue g) < g_cap g -> 0 <= qget F_tail m (g_queue g) < g_cap g ->
  ring_ok g (hyperamp_spinlock_unlock m (g_queue g)).
Proof.
  intros Hg Hc Hs Hh Ht. pose proof (geometry_ok_spec g Hg) as (? & _).
  split; rewrite ?unlock_frame by done; try done. apply unlock_value. lia.
Qed.

Lemma enqueue_written g m z data len :
  ring_ok g m -> ensures (hyperamp_queue_enqueue m (g_queue g) z data len (g_base g)) (fun r => ring_written g m (snd r)).
Proof.
  intros H r Hr. pose proof (geometry_ok_spec g (ro_geo g m H)) as (? & ? & ? & ? & ? & ?). unfold hyperamp_queue_enqueue in Hr.
  destruct data as [buf|]; [|by outcome_inv; subst]. destruct (_ || _); [by outcome_inv; subst|].
  destruct (Z.ltb_spec (qget F_block_size m (g_queue g)) len) as [|Hl]; [by outcome_inv; subst|]. rewrite (ro_bs g m H) in Hl.
  apply bind_Done in Hr as (m1 & Hlk & Hr). pose proof (fun f => lock_frame m (g_queue g) z m1 f ltac:(lia) Hlk) as Hf.
  pose proof (fun x => lock_out m (g_queue g) z m1 x ltac:(lia) Hlk) as Ho. assert (0 <= next_index (qget F_header m (g_queue g)) (g_cap g) < g_cap g) as Hn by (apply next_index_range; [lia|apply H]).
  rewrite !Hf in Hr by done. rewrite (ro_cap g m H), (ro_bs g m H) in Hr. destruct (_ =? _) in Hr.
  { outcome_inv; subst. cbn. split; [destruct H; by apply unlock_ring; rewrite ?Hf|]. intros x Hx _. rewrite unlock_out; [apply Ho|]; unfold in_control in Hx; lia. }
  apply bind_Done in Hr as (m2 & Hc & Hr). unfold hyperamp_safe_memcpy_in in Hc. outcome_inv; subst. cbn [snd].
  pose proof (bread_length _ _ _ _ Ho0) as Hbl. set (h := qget F_header m (g_queue g)) in *.
  pose proof (slot_range g h (ro_geo g m H) (ro_header g m H)) as Hsl. assert (slot_addr (g_base g) (g_bs g) h = slot g h) as -> by (apply slot_addr_id; unfold slot in Hsl; nia).
  pose proof (slot_outside_control g h (ro_geo g m H) (ro_header g m H)) as Hso.
  split.
  - destruct H. apply unlock_ring; qfields; rewrite ?qget_qset_eq by (unfold field_max; cbn; lia); rewrite ?qget_mwrite by lia; rewrite ?Hf by done; done.
  - intros x Hx Hb. unfold in_control, in_blocks in *. rewrite unlock_out, !qset_out by lia. rewrite mwrite_out by lia. apply Ho. lia.
Qed.

Lemma dequeue_written g m z data max_len :
  ring_ok g m -> ensures (hyperamp_queue_dequeue m (g_queue g) z data max_len (g_base g)) (fun d => ring_written g m (dq_mem d)).
Proof.
  intros H r Hr. pose proof (geometry_ok_spec g (ro_geo g m H)) as (? & ? & ? & ? & ? & ?). unfold hyperamp_queue_dequeue in Hr.
  destruct data as [buf|]; [|by outcome_inv; subst]. destruct (_ || _); [by outcome_inv; subst|].
  apply bind_Done in Hr as (m1 & Hlk & Hr). pose proof (fun f => lock_frame m (g_queue g) z m1 f ltac:(lia) Hlk) as Hf.
  pose proof (fun x => lock_out m (g_queue g) z m1 x ltac:(lia) Hlk) as Ho. assert (0 <= next_index (qget F_tail m (g_queue g)) (g_cap g) < g_cap g) as Hn by (apply next_index_range; [lia|apply H]).
  rewrite !Hf in Hr by done. rewrite (ro_cap g m H), (ro_bs g m H) in Hr. destruct (_ =? _) in Hr.
  { outcome_inv; subst. cbn. split; [destruct H; by apply unlock_ring; rewrite ?Hf|]. intros x Hx _. rewrite unlock_out; [apply Ho|]; unfold in_control in Hx; lia. }
  outcome_inv; subst. cbn [dq_mem]. split.
  - destruct H. apply unlock_ring; qfields; rewrite ?qget_qset_eq by (unfold field_max; cbn; lia); rewrite ?Hf by done; done.
  - intros x Hx _. unfold in_control in *. rewrite unlock_out, !qset_out by lia. apply Ho. lia.
Qed.

Lemma ring_written_refl g m : ring_ok g m -> ring_written g m m.
Proof. by split. Qed.

Lemma ring_written_trans g m m1 m2 : ring_written g m m1 -> ring_written g m1 m2 -> ring_written g m m2.
Proof. intros [_ H1] [H2 H3]. split; [done|]. intros x Hc Hb. by rewrite H3, H1. Qed.

(** ** Everything but the receive loop writes the TX ring only *)

Section Confined.
Context (gt : geometry) (e : tx_engine) (m0 : mem).
Hypothesis (Hq : g_queue gt = hyper_tx_queue (eng_ports e)) (Hb : g_base gt = hyper_amp_data_region (eng_ports e)).

(** Since the memory was [m0], only the ring [gt] of the engine [e] was
    written. *)
Definition confined (w : world) : Prop := eng_tx (w_eng w) = e /\ ring_written gt m0 (tx_mem (w_tx w)).

Lemma confined_frame w w' : w_tx w' = w_tx w -> w_eng w' = w_eng w -> confined w -> confined w'.
Proof using Type. unfold confined. intros -> ->. done. Qed.

Lemma enqueue_confined m data len z :
  ring_written gt m0 m ->
  ensures (hyperamp_queue_enqueue m (hyper_tx_queue (eng_ports e)) z data len (hyper_amp_data_region (eng_ports e)))
    (fun r => ring_written gt m0 (snd r)).
Proof using Hq Hb.
  rewrite <- Hq, <- Hb. intros H. eapply ensures_weaken; [apply enqueue_written, H|]. intros r. by apply ring_written_trans.
Qed.

Lemma put_confined m data len :
  ring_written gt m0 m ->
  ensures (backend_engine_hyperamp_tx_queue_put (Some (eng_ports e)) m data len) (fun r => ring_written gt m0 (snd r)).
Proof using Hq Hb.
  intros H. unfold backend_engine_hyperamp_tx_queue_put. repeat case_match; try by apply ensures_ret. by apply enqueue_confined.
Qed.

Lemma build_confined h pl n res s :
  ring_written gt m0 (tx_mem s) ->
  ensures (build_proxy_general_message no_malloc (Some e) h pl n res MEMORY_ALLOC_AMPQUEUE s)
    (fun r => ring_written gt m0 (tx_mem (snd r))).
Proof using Hq Hb.
  intros H. unfold build_proxy_general_message, build_general_amp. repeat case_match; try by apply ensures_ret.
  eapply ensures_bind; [apply ensures_true|]. intros r _. case_match; [|by apply ensures_ret].
  eapply ensures_bind; [by apply enqueue_confined|]. intros q Hw. by apply ensures_ret.
Qed.

(** ** The session code *)

(** A call's result holds a confined world. *)
Definition kept {A} (r : A * world) : Prop := confined (snd r).

(** A leaf: the transmit state and the engine are those of a confined world of
    the context. *)
Ltac framed := match goal with H : confined ?w |- confined ?w' => apply (confined_frame w w'); [reflexivity|reflexivity|exact H] end.

(** Walk over the code: known calls by the database, reads of the heap ignored,
    every branch taken. *)
Ltac keeps :=
  repeat first
    [ progress cbn beta iota zeta delta [fst snd] in *
    | match goal with
      | H : kept _ |- _ => red in H
      | |- kept _ => red
      | |- ensures (Done _) _ => apply ensures_ret
      | |- ensures (Fault _) _ => by intros ? ?
      | |- ensures Spin _ => by intros ? ?
      | |- ensures (_ ≫= _) _ => eapply ensures_bind; [solve [eauto with confined]|intros ? ?]
      | |- ensures (_ ≫= _) _ => eapply ensures_bind; [apply ensures_true|intros ? _]
      | |- ensures _ _ => solve [eauto with confined]
      | |- context [let '(_, _) := ?x in _] => destruct x eqn:?; subst
      | |- context [match ?x with _ => _ end] => destruct x eqn:?; subst
      | |- confined _ => framed
      end ].

Create HintDb confined.
#[local] Hint Extern 1 (confined _) => framed : confined.

Lemma build_world_confined w h pl n res : confined w ->
  ensures (build_proxy_general_message no_malloc (Some (eng_tx (w_eng w))) h pl n res MEMORY_ALLOC_AMPQUEUE (w_tx w))
    (fun r => confined (with_tx w (snd r))).
Proof using Hq Hb. intros [He Hm]. rewrite He. eapply ensures_weaken; [by apply build_confined|]. intros r Hr. by split. Qed.
#[local] Hint Resolve build_world_confined : confined.

Lemma response_confined w s t r : confined w -> ensures (backend_proxy_generate_sess_msg_create_close_response w s t r) kept.
Proof using Hq Hb. intros H. unfold backend_proxy_generate_sess_msg_create_close_response. keeps. Qed.

Lemma response_standalone_confined w a b c d r :
  confined w -> ensures (backend_proxy_generate_sess_msg_create_close_response_standalone w a b c d r) kept.
Proof using Hq Hb. intros H. unfold backend_proxy_generate_sess_msg_create_close_response_standalone. keeps. Qed.
#[local] Hint Resolve response_confined response_standalone_confined : confined.

Lemma send_standalone_confined w a b c d r :
  confined w -> ensures (backend_proxy_send_sess_standalone_msg_to_frontend_via_shmem w a b c d r) kept.
Proof using Hq Hb. intros H. unfold backend_proxy_send_sess_standalone_msg_to_frontend_via_shmem. keeps. Qed.

Lemma send_confined w s t r : confined w -> ensures (backend_proxy_send_sess_msg_to_frontend_via_shmem w s t r) kept.
Proof using Hq Hb. intros H. unfold backend_proxy_send_sess_msg_to_frontend_via_shmem. keeps. Qed.
#[local] Hint Resolve send_standalone_confined send_confined : confined.

Lemma create_error_confined w para s id fd r : confined w -> ensures (create_sess_error w para s id fd r) kept.
Proof using Hq Hb.
  intros H. unfold create_sess_error. keeps.
Qed.
#[local] Hint Resolve create_error_confined : confined.

Lemma push_node_confined w i n : confined w -> ensures (HIGH_SPEED_NET_DEV_PUSH_FREE_SESSION_NODE w i n) confined.
Proof using Type. intros H. unfold HIGH_SPEED_NET_DEV_PUSH_FREE_SESSION_NODE. keeps. Qed.

Lemma pop_node_confined w i : confined w -> ensures (HIGH_SPEED_NET_DEV_POP_FREE_SESSION_NODE w i) kept.
Proof using Type. intros H. unfold HIGH_SPEED_NET_DEV_POP_FREE_SESSION_NODE. keeps. Qed.

Lemma insert_node_confined w i n proto : confined w -> ensures (HIGH_SPEED_NET_DEV_INSERT_SESSION_NODE w i n proto) kept.
Proof using Type. intros H. unfold HIGH_SPEED_NET_DEV_INSERT_SESSION_NODE. keeps. Qed.

Lemma remove_node_confined w i n proto : confined w -> ensures (HIGH_SPEED_NET_DEV_REMOVE_SESSION_NODE w i n proto) confined.
Proof using Type. intros H. unfold HIGH_SPEED_NET_DEV_REMOVE_SESSION_NODE. keeps. Qed.
#[local] Hint Resolve push_node_confined pop_node_confined insert_node_confined remove_node_confined : confined.

Lemma insert_sess_confined w p : confined w -> ensures (high_speed_insert_sess w p) kept.
Proof using Type. intros H. unfold high_speed_insert_sess. keeps. Qed.

Lemma hash_del_confined w p id : confined w -> ensures (hash_del w p id) confined.
Proof using Type. intros H. unfold hash_del. keeps. Qed.

Lemma link_confined w p dir : confined w -> ensures (BACKEND_SESS_LINK_TO_QUEUE w p dir) confined.
Proof using Type. intros H. unfold BACKEND_SESS_LINK_TO_QUEUE. keeps. Qed.

Lemma unlink_confined w p dir : confined w -> ensures (BACKEND_SESS_UNLINK_FROM_QUEUE w p dir) confined.
Proof using Type. intros H. unfold BACKEND_SESS_UNLINK_FROM_QUEUE. keeps. Qed.

Lemma choose_confined w dev : confined w -> ensures (choose_hs_net_dev w dev) kept.
Proof using Type.
  intros H. unfold choose_hs_net_dev. destruct (hs_dev_sel !! _) as [f|] eqn:E; [|keeps].
  assert (ensures (f w) kept) as Hf; [|eapply ensures_bind; [exact Hf|intros; keeps] ].
  destruct (Z.to_nat _) as [|[|[|n] ] ]; injection E as <- || discriminate E; [unfold choose_dev_round_robin; keeps|by apply ensures_ret..].
Qed.

Lemma request_confined w dev : confined w -> ensures (request_device w dev) kept.
Proof using Type. intros H. unfold request_device. case_match; [by apply choose_confined|by apply ensures_ret]. Qed.
#[local] Hint Resolve insert_sess_confined hash_del_confined link_confined unlink_confined request_confined : confined.

(** ** Creating and deleting sessions *)

Lemma recycle_confined w dev n p : confined w -> ensures (recycle_sess_node w dev n p) confined.
Proof using Type. intros H. unfold recycle_sess_node. keeps. Qed.
#[local] Hint Resolve recycle_confined : confined.

Lemma publish_confined w para env p id fd dev n : confined w -> ensures (create_active_publish w para env p id fd dev n) kept.
Proof using Hq Hb. intros H. unfold create_active_publish. keeps. Qed.
#[local] Hint Resolve publish_confined : confined.

Lemma connected_confined w para env p id dev junk fd : confined w -> ensures (create_active_connected w para env p id dev junk fd) kept.
Proof using Hq Hb. intros H. unfold create_active_connected. keeps. Qed.
#[local] Hint Resolve connected_confined : confined.

Lemma create_confined w para env : confined w -> ensures (high_speed_create_sess_active w para env) kept.
Proof using Hq Hb. intros H. unfold high_speed_create_sess_active, create_sess_socket. keeps. Qed.

Lemma detach_confined w p s ep : confined w -> ensures (delete_detach_sess w p s ep) confined.
Proof using Type. intros H. unfold delete_detach_sess. keeps. Qed.

Lemma unlink_node_confined w p : confined w -> ensures (delete_unlink_node w p) confined.
Proof using Type. intros H. unfold delete_unlink_node. keeps. Qed.
#[local] Hint Resolve create_confined detach_confined unlink_node_confined : confined.

Lemma delete_confined w p ep : confined w -> ensures (high_speed_delete_sess w p ep) kept.
Proof using Hq Hb. intros H. unfold high_speed_delete_sess. keeps. Qed.
#[local] Hint Resolve delete_confined : confined.

(** ** Messages *)

(** A message's result holds a confined backend. *)
Definition kept_px {A} (r : A * proxy) : Prop := confined (px_world (snd r)).

Lemma on_world_confined {x r} : ensures r kept -> ensures (on_world x r) kept_px.
Proof using Type. intros H. unfold on_world. eapply ensures_bind; [exact H|]. intros a Ha. by apply ensures_ret. Qed.

Lemma sess_message_confined w fsid bsid msg off env : confined w -> ensures (backend_proxy_sess_msg_process w fsid bsid msg off env) kept.
Proof using Hq Hb.
  intros H. unfold backend_proxy_sess_msg_process, backend_proxy_sess_msg_process_ver1, backend_proxy_sess_msg_process_passive_create_ver1,
    backend_proxy_sess_msg_process_active_create_ver1, backend_proxy_sess_msg_process_close_ver1. keeps.
Qed.

Lemma data_message_confined w bsid n msg off env : confined w -> ensures (backend_proxy_data_msg_process w bsid n msg off env) kept.
Proof using Type. intros H. unfold backend_proxy_data_msg_process. keeps. Qed.

(** IoT messages do not touch the world. *)
Lemma dispatch_iot_confined x proto s b env : confined (px_world x) -> ensures (iot_dispatch x proto s b env) kept_px.
Proof using Type.
  intros H. unfold iot_dispatch. eapply ensures_bind; [apply ensures_true|]. intros [ [st out] t] _. by apply ensures_ret.
Qed.
#[local] Hint Resolve dispatch_iot_confined : confined.

Lemma iot_message_confined x n msg off env : confined (px_world x) -> ensures (backend_proxy_iot_msg_process x n msg off env) kept_px.
Proof using Type.
  intros H. unfold backend_proxy_iot_msg_process, backend_proxy_bluetooth_msg_process, backend_proxy_can_msg_process,
    backend_proxy_modbustcp_msg_process. keeps; exact H.
Qed.

Lemma message_confined x msg env : confined (px_world x) -> ensures (backend_proxy_msg_process x msg env) kept_px.
Proof using Hq Hb.
  intros H. unfold backend_proxy_msg_process. eapply ensures_bind; [apply ensures_true|]. intros h _. cbn zeta.
  repeat (case_match; [by repeat first [apply ensures_ret | eapply ensures_bind; [apply ensures_true|intros ? _] | case_match] |]).
  case_match; [by apply on_world_confined, sess_message_confined|]. case_match; [case_match; [by apply ensures_ret|]; by apply on_world_confined, data_message_confined|].
  case_match; [by apply iot_message_confined|by apply ensures_ret].
Qed.

(** ** A turn of the engine *)

Lemma f2b_confined w p sndbuf send : confined w -> ensures (high_speed_data_process_f2b w p sndbuf send) kept.
Proof using Type. intros H. unfold high_speed_data_process_f2b. keeps. Qed.

Lemma b2f_loop_confined segs m : ring_written gt m0 m ->
  ensures (b2f_loop (eng_ports e) m segs) (fun r => ring_written gt m0 (snd r)).
Proof using Hq Hb.
  revert m. induction segs as [|seg segs IH]; intros m H; cbn [b2f_loop]; [by apply ensures_ret|].
  eapply ensures_bind; [by apply put_confined|]. intros r Hr. case_match; [by apply IH|by apply IH|by apply ensures_ret].
Qed.

Lemma b2f_confined w p : confined w -> ensures (high_speed_data_process_b2f w p) kept.
Proof using Hq Hb.
  intros H. unfold high_speed_data_process_b2f. eapply ensures_bind; [apply ensures_true|]. intros s _.
  destruct H as [E H]. rewrite E. eapply ensures_bind; [by apply b2f_loop_confined|]. intros [ [st q] m] Hm. by apply ensures_ret.
Qed.

Lemma nns_confined w p i reads : confined w -> ensures (high_speed_data_process_nns w p i reads) kept.
Proof using Type. intros H. unfold high_speed_data_process_nns. keeps. Qed.

Lemma dequeue_confined w p dir : confined w -> ensures (dequeue_sess w p dir) confined.
Proof using Type. intros H. unfold dequeue_sess. keeps. Qed.
#[local] Hint Resolve dequeue_confined : confined.

Lemma retire_confined w p dir : confined w -> ensures (retire_sess w p dir) confined.
Proof using Type. intros H. unfold retire_sess. keeps. Qed.

Lemma drop_confined w p dir ep : confined w -> ensures (drop_sess w p dir ep) confined.
Proof using Hq Hb. intros H. unfold drop_sess. keeps. Qed.
#[local] Hint Resolve f2b_confined b2f_confined nns_confined retire_confined drop_confined : confined.

Lemma f2b_walk_confined env todo w : confined w -> ensures (engine_f2b_walk env todo w) confined.
Proof using Hq Hb. revert w. induction todo as [|p todo IH]; intros w H; cbn [engine_f2b_walk]; keeps. Qed.

Lemma b2f_walk_confined ep todo w : confined w -> ensures (engine_b2f_walk ep todo w) confined.
Proof using Hq Hb. revert w. induction todo as [|p todo IH]; intros w H; cbn [engine_b2f_walk]; keeps. Qed.

Lemma poller_confined ready w : confined w -> ensures (poller_run ready w) confined.
Proof using Hq Hb.
  unfold poller_run. destruct ready as [events|]; [|intros; by apply ensures_ret].
  revert w. induction events as [|ev events IH]; intros w H; cbn [poller_events]; keeps.
Qed.

Lemma iot_run_confined proto envs s tx : ring_written gt m0 (tx_mem tx) ->
  ensures (engine_iot_run proto envs s e tx) (fun r => ring_written gt m0 (tx_mem (snd r))).
Proof using Hq Hb.
  revert s tx. induction envs as [|env envs IH]; intros s tx H; cbn [engine_iot_run]; [by intros ? ?|].
  eapply ensures_bind; [apply ensures_true|]. intros [ [ret b] t] _. case_match; [|by apply ensures_ret..].
  eapply ensures_bind; [by apply build_confined|]. intros m Hm. by apply IH.
Qed.

Lemma iot_poll_confined proto envs s x : confined (px_world x) -> ensures (iot_poll proto envs s x) (fun x => confined (px_world x)).
Proof using Hq Hb.
  intros H. unfold iot_poll. destruct s; [|by apply ensures_ret]. destruct H as [E H]. rewrite E. eapply ensures_bind; [by apply iot_run_confined|].
  intros r Hr. by apply ensures_ret.
Qed.

Lemma iot_dev_confined env x : confined (px_world x) -> ensures (engine_iot_dev_run env x) (fun x => confined (px_world x)).
Proof using Hq Hb.
  intros H. unfold engine_iot_dev_run. eapply ensures_bind; [by apply iot_poll_confined|]. intros x1 H1.
  eapply ensures_bind; [by apply iot_poll_confined|]. intros x2 H2. by apply iot_poll_confined.
Qed.

(** What follows the receive loop in a turn. *)
Definition turn_rest (env : turn_env) (x : proxy) : outcome proxy :=
  w ← engine_f2b_walk (te_f2b env) (queue_f2b (w_pool (px_world x))) (px_world x);
  w ← poller_run (te_poll env) w;
  w ← engine_b2f_walk (te_b2f env) (queue_b2f (w_pool w)) w;
  engine_iot_dev_run (te_iot env) (with_world x w).

Lemma rest_confined env x : confined (px_world x) -> ensures (turn_rest env x) (fun x => confined (px_world x)).
Proof using Hq Hb.
  intros H. unfold turn_rest. eapply ensures_bind; [by apply f2b_walk_confined|]. intros w1 H1.
  eapply ensures_bind; [by apply poller_confined|]. intros w2 H2. eapply ensures_bind; [by apply b2f_walk_confined|]. intros w3 H3.
  by apply iot_dev_confined.
Qed.

(** ** Accepting connections *)

Lemma passive_error_confined w dev id p n : confined w -> ensures (create_sess_passive_error w dev id p n) kept.
Proof using Type.
  intros H. unfold create_sess_passive_error.
  assert (confined (if id =? 0 then w else with_pool w (set_id_queue (w_pool w) (release_id (id_queue (w_pool w)) id)))) as H' by keeps.
  revert H'. generalize (if id =? 0 then w else with_pool w (set_id_queue (w_pool w) (release_id (id_queue (w_pool w)) id))). clear w H. intros w H.
  destruct p as [p|]; [|keeps]. apply (ensures_bind _ _ confined); [|intros; keeps]. destruct n as [n|]; [|keeps].
  eapply ensures_bind; [apply ensures_true|]. intros s _. apply (ensures_bind _ _ confined); [keeps|]. intros w1 H1. keeps.
Qed.
#[local] Hint Resolve passive_error_confined : confined.

Lemma passive_confined w b para env : confined w -> ensures (high_speed_create_sess_passive w b para env) kept.
Proof using Hq Hb.
  intros H. unfold high_speed_create_sess_passive. keeps.
Qed.
#[local] Hint Resolve passive_confined : confined.

Lemma listener_confined env i n w : confined w ->
  ensures (listener_loop env i n w) (fun r => forall w', r = Some w' -> confined w').
Proof using Hq Hb.
  revert i w. induction n as [|n IH]; intros i w H; cbn [listener_loop]; keeps; try (intros w' E; injection E as <-; exact H); by intros w' E.
Qed.

End Confined.

(** ** The two rings of a channel *)

(** They share their blocks and have control blocks of their own. *)
Record twin_rings (gt gr : geometry) : Prop := {
  tr_base : g_base gr = g_base gt;
  tr_cap : g_cap gr = g_cap gt;
  tr_bs : g_bs gr = g_bs gt;
  tr_apart : g_queue gt + sizeof_HyperampShmQueue <= g_queue gr \/ g_queue gr + sizeof_HyperampShmQueue <= g_queue gt }.

Lemma channel_twins base phys : twin_rings (tx_geometry base phys) (rx_geometry base phys).
Proof.
  split; try done. right. unfold rx_geometry, tx_geometry, channel_geometry; cbn [g_queue].
  rewrite sizeof_queue. unfold SHM_QUEUE_SIZE. lia.
Qed.

Definition in_channel (gt gr : geometry) (x : Z) : Prop := in_control gt x \/ in_control gr x \/ in_blocks gt x.

(** The engine's ports are the rings [gt] and [gr]. *)
Record ports_are (gt gr : geometry) (e : tx_engine) : Prop := {
  pa_tx : g_queue gt = hyper_tx_queue (eng_ports e);
  pa_rx : g_queue gr = hyper_rx_queue (eng_ports e);
  pa_base : g_base gt = hyper_amp_data_region (eng_ports e) }.

Section Twins.
Context (gt gr : geometry) (Htwin : twin_rings gt gr).

Record channel_written (m m' : mem) : Prop := {
  cw_tx : ring_ok gt m';
  cw_rx : ring_ok gr m';
  cw_out : forall x, ~ in_channel gt gr x -> m' x = m x }.

Lemma channel_written_trans m m1 m2 : channel_written m m1 -> channel_written m1 m2 -> channel_written m m2.
Proof using Type. intros [_ _ H1] [H2 H3 H4]. split; [done|done|]. intros x Hx. by rewrite H4, H1. Qed.

Lemma twin_blocks x : in_blocks gr x <-> in_blocks gt x.
Proof using Htwin. unfold in_blocks. destruct Htwin. rewrite tr_base0, tr_cap0, tr_bs0. done. Qed.

(** What the sender writes is outside the control block of RX. *)
Lemma tx_written_control m m' x : ring_ok gr m -> ring_written gt m m' -> in_control gr x -> m' x = m x.
Proof using Htwin.
  intros Hr [Hw Hx] Hc. apply Hx.
  - destruct Htwin. unfold in_control in *. lia.
  - rewrite <- twin_blocks. pose proof (geometry_ok_spec gr (ro_geo _ _ Hr)). unfold in_control, in_blocks in *. lia.
Qed.

Lemma tx_written m m' : ring_ok gr m -> ring_written gt m m' -> channel_written m m'.
Proof using Htwin.
  intros Hr H. split; [apply H|apply (ring_frame gr m); [done|]; intros x; by apply tx_written_control|].
  intros x Hn. apply H; intros Hc; apply Hn; unfold in_channel; tauto.
Qed.

Lemma rx_written m m' : ring_ok gt m -> ring_written gr m m' -> channel_written m m'.
Proof using Htwin.
  intros Ht [Hw Hx]. split; [|done|].
  - apply (ring_frame gt m); [done|]. intros x Hc. apply Hx.
    + destruct Htwin. unfold in_control in *. lia.
    + rewrite twin_blocks. pose proof (geometry_ok_spec gt (ro_geo _ _ Ht)). unfold in_control, in_blocks in *. lia.
  - intros x Hn. apply Hx; rewrite ?twin_blocks; intros Hc; apply Hn; unfold in_channel; tauto.
Qed.

Lemma get_written e m n data out :
  ports_are gt gr e -> ring_ok gt m -> ring_ok gr m ->
  ensures (backend_engine_hyperamp_rx_queue_get (Some (eng_ports e)) m n data out) (fun d => channel_written m (dq_mem d)).
Proof using Htwin.
  intros [Ht Hr Hb] H1 H2. unfold backend_engine_hyperamp_rx_queue_get. repeat case_match; try by apply ensures_ret.
  rewrite <- Hr, <- Hb, <- (tr_base _ _ Htwin). eapply ensures_weaken; [by apply dequeue_written|]. intros d. by apply rx_written.
Qed.

(** ** A turn of the engine *)

(** The ports are kept and only the channel is written. *)
Definition within (x x' : proxy) : Prop :=
  eng_tx (w_eng (px_world x')) = eng_tx (w_eng (px_world x)) /\
  channel_written (tx_mem (w_tx (px_world x))) (tx_mem (w_tx (px_world x'))).

Definition within_opt {A} (x : proxy) (r : option proxy * A) : Prop := forall x', fst r = Some x' -> within x x'.

(** The state a computation starts from. *)
Definition on_channel (x : proxy) : Prop :=
  ports_are gt gr (eng_tx (w_eng (px_world x))) /\ ring_ok gt (tx_mem (w_tx (px_world x))) /\ ring_ok gr (tx_mem (w_tx (px_world x))).

Lemma within_on x x' : on_channel x -> within x x' -> on_channel x'.
Proof using Type. intros (Hp & _) (E & H). unfold on_channel. rewrite E. split; [done|]. split; apply H. Qed.

Lemma within_trans x x1 x2 : within x x1 -> within x1 x2 -> within x x2.
Proof using Type. intros [E1 H1] [E2 H2]. split; [congruence|by eapply channel_written_trans]. Qed.

Lemma confined_within x x' :
  ring_ok gr (tx_mem (w_tx (px_world x))) -> confined gt (eng_tx (w_eng (px_world x))) (tx_mem (w_tx (px_world x))) (px_world x') -> within x x'.
Proof using Htwin. intros Hr [E H]. split; [done|]. by apply tx_written. Qed.

Lemma on_confined x : on_channel x -> confined gt (eng_tx (w_eng (px_world x))) (tx_mem (w_tx (px_world x))) (px_world x).
Proof using Type. intros (_ & Ht & _). split; [done|by apply ring_written_refl]. Qed.

Lemma message_within x msg env : on_channel x -> ensures (backend_proxy_msg_process x msg env) (fun r => within x (snd r)).
Proof using Htwin.
  intros H. eapply ensures_weaken; [apply message_confined; [apply H|apply H|by apply on_confined]|].
  intros r. apply confined_within, H.
Qed.

Lemma rest_within env x : on_channel x -> ensures (turn_rest env x) (within x).
Proof using Htwin.
  intros H. eapply ensures_weaken; [apply rest_confined; [apply H|apply H|by apply on_confined]|].
  intros r. apply confined_within, H.
Qed.

Lemma rx_loop_within fuel env k buf x : on_channel x -> ensures (engine_rx_loop fuel env k buf x) (within_opt x).
Proof using Htwin.
  revert k buf x. induction fuel as [|fuel IH]; intros k buf x H; cbn [engine_rx_loop]; [by intros ? ?|].
  eapply ensures_bind; [by apply get_written; apply H|]. intros d Hd. cbn beta in Hd. cbn zeta.
  set (x1 := with_world x _). assert (within x x1) as H1 by by split. pose proof (within_on _ _ H H1) as Ho.
  case_match.
  - eapply ensures_bind; [by apply message_within|]. intros p Hp. cbn beta in Hp.
    eapply ensures_weaken; [apply IH; by eapply within_on|]. intros r Hr y Hy. eapply within_trans; [exact H1|]. eapply within_trans; [exact Hp|by apply Hr].
  - apply ensures_ret. by intros y.
  - apply ensures_ret. by intros y [= <-].
Qed.

Lemma turn_unfold fuel env buf x :
  engine_turn fuel env buf x =
  (r ← engine_rx_loop fuel (te_msgs env) 0 buf x;
   match fst r with None => Done r | Some x => y ← turn_rest env x; Done (Some y, snd r) end).
Proof using Type.
  unfold engine_turn, turn_rest. destruct (engine_rx_loop _ _ _ _ _) as [ [ [y|] b]| |]; try done. cbn [mbind outcome_bind fst snd].
  destruct (engine_f2b_walk _ _ _) as [w1| |]; try done. cbn [mbind outcome_bind]. destruct (poller_run _ _) as [w2| |]; try done.
  cbn [mbind outcome_bind]. destruct (engine_b2f_walk _ _ _) as [w3| |]; done.
Qed.

Lemma turn_within fuel env buf x : on_channel x -> ensures (engine_turn fuel env buf x) (within_opt x).
Proof using Htwin.
  intros H. rewrite turn_unfold. eapply ensures_bind; [by apply rx_loop_within|]. intros [ [y|] b] Hy; cbn [fst snd]; [|by apply ensures_ret].
  specialize (Hy y eq_refl). eapply ensures_bind; [apply rest_within; by eapply within_on|]. intros z Hz. apply ensures_ret.
  intros ? [= <-]. by eapply within_trans.
Qed.
End Twins.

(** C7. The proxy writes shared memory only inside its channel.  Whatever the
    two rings hold (any message, well formed or not), whatever the sessions,
    their sockets and the IoT devices answer: a turn of the event loop that
    returns leaves every byte outside the two control blocks and the common
    blocks as it was, keeps the engine's ports, and leaves both rings well
    formed and unlocked (indices in range, capacity and block size kept). *)
Theorem turn_stays_in_channel gt gr fuel env buf x x' buf' :
  twin_rings gt gr -> ports_are gt gr (eng_tx (w_eng (px_world x))) ->
  ring_ok gt (tx_mem (w_tx (px_world x))) -> ring_ok gr (tx_mem (w_tx (px_world x))) ->
  engine_turn fuel env buf x = Done (Some x', buf') ->
  ring_ok gt (tx_mem (w_tx (px_world x'))) /\ ring_ok gr (tx_mem (w_tx (px_world x'))) /\
  ports_are gt gr (eng_tx (w_eng (px_world x'))) /\
  forall a, ~ in_channel gt gr a -> tx_mem (w_tx (px_world x')) a = tx_mem (w_tx (px_world x)) a.
Proof.
  intros Htw Hp Ht Hr E.
  pose proof (turn_within gt gr Htw fuel env buf x (conj Hp (conj Ht Hr)) _ E x' eq_refl) as [Hp' [H1 H2 H3] ]. by rewrite Hp'.
Qed.

(** ** Witness *)

(** A turn that takes a DATA message off the RX ring of [demo_rx_proxy]. *)
Definition demo_turn : turn_env :=
  {| te_msgs := fun _ => demo_env_msg [0; 0]; te_f2b := demo_send_env (Some 100); te_poll := Some []; te_b2f := fun _ => true;
     te_iot := {| ie_bluetooth := []; ie_can := [{| rv_read := ReadAgain; rv_peer := None; rv_regs := None |}]; ie_modbus := [] |} |}.

Lemma demo_turn_returns : exists x' buf', engine_turn 5 demo_turn (replicate 4096 0) demo_rx_proxy = Done (Some x', buf').
Proof.
  assert (match engine_turn 5 demo_turn (replicate 4096 0) demo_rx_proxy with Done (Some _, _) => true | _ => false end = true) as H
    by (vm_compute; reflexivity).
  destruct (engine_turn _ _ _ _) as [ [ [x'|] b]| |]; [by exists x', b|discriminate H..].
Qed.

Lemma turn_stays_in_channel_witness :
  exists x' buf', engine_turn 5 demo_turn (replicate 4096 0) demo_rx_proxy = Done (Some x', buf') /\
  ring_ok (tx_geometry 0x10000 SHM_CH1_PADDR) (tx_mem (w_tx (px_world x'))) /\
  forall a, a < 0x10000 -> tx_mem (w_tx (px_world x')) a = tx_mem (w_tx (px_world demo_rx_proxy)) a.
Proof.
  destruct demo_turn_returns as (x' & buf' & E). exists x', buf'. split; [exact E|].
  destruct (turn_stays_in_channel (tx_geometry 0x10000 SHM_CH1_PADDR) demo_rx_geo 5 demo_turn (replicate 4096 0) demo_rx_proxy x' buf')
    as (H1 & _ & _ & H4).
  - apply channel_twins.
  - split; reflexivity.
  - apply (ring_frame _ demo_channel); [apply qwf_ring, demo_channel_qwf|]. intros x Hx. apply mwrite_out. left. unfold in_control in Hx. rewrite sizeof_queue in Hx. change (g_queue (tx_geometry 65536 SHM_CH1_PADDR)) with 69632 in Hx. lia.
  - apply qwf_ring, demo_rx_ok.
  - exact E.
  - split; [exact H1|]. intros a Ha. apply H4. intros [ [Hc _]|[ [Hc _]|[Hc _] ] ].
    + change (69632 <= a) in Hc. lia.
    + change (65536 <= a) in Hc. lia.
    + change (77824 <= a) in Hc. lia.
Defined.
