(* ===== verification/IotPolls.v ===== *)
(** * IotPolls: a poll of the IoT devices returns

    The three run loops of step 5: when every read fits its buffer and the
    device runs out of input, the loop ends, and every report is built inside
    the transmit buffer and offered to the TX ring. *)

From S2P Require Import Prelude Bytes Mem HyperampQueue HyperampQueueSpec HyperampLinux ByteStore Message Build BuildSpec Session Responses Iot Proto ProtoSpec IotMessages Engine.
From stdpp Require Import base list numbers option gmap.
From Stdlib Require Import ZArith Lia.
#[local] Open Scope Z_scope.

(** ** Receiving *)

(** A report fits the transmit buffer. *)
Record report_ok (b : IotMsgBuffer) : Prop := {
  rp_len : 0 <= imb_len b <= 1024 /\ imb_len b <= blen (imb_data b);
  rp_data : Forall is_byte (imb_data b);
  rp_info : blen (addr_info (imb_addr b)) = 20;
  rp_bytes : Forall is_byte (addr_info (imb_addr b)) }.

(** What the device may answer: a Bluetooth read of at most the buffer, an
    18-character peer address, a CAN frame read of at most eight bytes (the
    code copies that many from offset 8), ten registers. *)
Definition recv_fits (d : iot_driver) (e : recv_env) : Prop :=
  match d with
  | BluetoothDriver => (forall l, rv_read e = ReadBytes l -> blen l <= 1024 /\ Forall is_byte l) /\
      (forall bt psm mac, rv_peer e = Some (bt, psm, mac) -> blen mac = 18 /\ Forall is_byte mac)
  | CanDriver => forall l, rv_read e = ReadBytes l -> blen l <= 8 /\ Forall is_byte l
  | ModbusTcpDriver => forall regs, rv_regs e = Some regs -> (length regs <= 10)%nat
  | _ => True
  end.

(** The received buffers are as large as the loops allocate them, bytes. *)
Definition bytes_of (n : Z) (b : list Z) : Prop := blen b = n /\ Forall is_byte b.

Lemma bytes_write n b off l : bytes_of n b -> 0 <= off -> off + blen l <= n -> Forall is_byte l ->
  exists b', bwrite b off l = Done b' /\ bytes_of n b'.
Proof.
  intros [Hl Hb] Ho Hn Hlb. destruct (bwrite_ok b off l) as [b' E]; [lia|lia|]. exists b'. split; [done|].
  split; [by rewrite (bwrite_length _ _ _ _ E)|by eapply bwrite_bytes].
Qed.

Lemma bytes_put n b k off v : bytes_of n b -> 0 <= off -> off + Z.of_nat k <= n -> exists b', bput k b off v = Done b' /\ bytes_of n b'.
Proof. intros H Ho Hk. apply bytes_write; try done; [by rewrite blen_le_bytes|apply le_bytes_bytes]. Qed.

Lemma bytes_zeros n : bytes_of (Z.of_nat n) (replicate n 0).
Proof. split; [unfold blen; by rewrite length_replicate|apply Forall_replicate; unfold is_byte; lia]. Qed.

(** A step on a buffer of known size. *)
Ltac buf_step :=
  match goal with
  | H : bytes_of ?n ?b |- context [bput ?k ?b ?o ?v] =>
      let b' := fresh "b" in let E := fresh "E" in destruct (bytes_put n b k o v H) as (b' & E & ?); [lia|lia|rewrite E; clear E]
  | H : bytes_of ?n ?b |- context [bwrite ?b ?o ?l] =>
      let b' := fresh "b" in let E := fresh "E" in destruct (bytes_write n b o l H) as (b' & E & ?); [lia|cbn; lia|done|rewrite E; clear E]
  end; cbn [mbind outcome_bind].

(** The receive handler returns; a report it makes fits. *)
Definition received_ok (d : iot_driver) (o : outcome (status * IotMsgBuffer * IoTBackendSession)) : Prop :=
  exists ret b s', o = Done (ret, b, s') /\ driven d s' /\ (ret = PROCESS_OK -> report_ok b).

Lemma fresh_report : report_ok fresh_recv_buffer.
Proof.
  destruct (bytes_zeros 1024) as [H1 H2], (bytes_zeros 20) as [H3 H4]. split; [|done|done|done].
  change (imb_data fresh_recv_buffer) with (replicate 1024 0). rewrite H1. cbn [imb_len fresh_recv_buffer]. lia.
Qed.

Lemma report_intro d n t i : bytes_of 1024 d -> 0 <= n <= 1024 -> bytes_of 20 i ->
  report_ok {| imb_data := d; imb_len := n; imb_addr := {| addr_type := t; addr_info := i |} |}.
Proof. intros [H1 H2] Hn [H3 H4]. split; cbn [imb_data imb_len imb_addr addr_info]; [rewrite H1; lia|done|done|done]. Qed.

Lemma refused_receive d ret b s : driven d s -> ret <> PROCESS_OK -> received_ok d (Done (ret, b, s)).
Proof. intros. by exists ret, b, s. Qed.

Lemma bluetooth_receives s e : driven BluetoothDriver s -> recv_fits BluetoothDriver e -> received_ok BluetoothDriver (iot_recv s fresh_recv_buffer e).
Proof.
  intros Hs [Hr Hp]. unfold iot_recv. rewrite (proj2 Hs). unfold bluetooth_recv_from_remote. case_match.
  2:{ exists PROCESS_OK, fresh_recv_buffer, s. split; [done|]. split; [done|]. intros _. apply fresh_report. }
  destruct (rv_read e) as [l| |] eqn:El; [|by apply refused_receive..]. destruct (Hr l eq_refl) as [Hl Hb].
  destruct l as [|x l]; [by apply refused_receive|]. pose proof (blen_nonneg (x :: l)). pose proof (bytes_zeros 1024) as Z1. pose proof (bytes_zeros 20) as Z2.
  unfold fresh_recv_buffer, zero_addr; cbn [imb_data imb_addr addr_info]. change (Z.of_nat 1024) with 1024 in Z1. change (Z.of_nat 20) with 20 in Z2.
  revert Z1 Z2. generalize (replicate 1024 0), (replicate 20 0). intros b1 b2 Z1 Z2.
  destruct (bytes_write 1024 b1 0 (x :: l) Z1) as (d & -> & Hd); [lia|lia|done|]. cbn [mbind outcome_bind imb_addr addr_info].
  destruct (rv_peer e) as [ [ [bt psm] mac]|]; [|by apply refused_receive]. destruct (Hp bt psm mac eq_refl) as [Hm Hmb].
  destruct (negb bt); [by apply refused_receive|]. destruct (bytes_put 20 b2 2 18 psm Z2) as (i & -> & Hi); [lia|lia|]. cbn [mbind outcome_bind].
  destruct (bytes_write 20 i 0 mac Hi) as (j & -> & Hj); [lia|lia|done|]. cbn [mbind outcome_bind].
  eexists PROCESS_OK, _, s. split; [reflexivity|]. split; [done|]. intros _. by apply report_intro.
Qed.

Lemma can_receives s e : driven CanDriver s -> recv_fits CanDriver e -> received_ok CanDriver (iot_recv s fresh_recv_buffer e).
Proof.
  intros Hs Hr. unfold iot_recv. rewrite (proj2 Hs). unfold can_recv_from_remote. case_match; [|by apply refused_receive].
  destruct (rv_read e) as [l| |] eqn:El; [|by apply refused_receive..]. destruct (Hr l El) as [Hl Hb].
  destruct l as [|x l]; [by apply refused_receive|]. set (m := x :: l) in *. pose proof (blen_nonneg m).
  pose proof (bytes_zeros 1024) as Z1. pose proof (bytes_zeros 20) as Z2. pose proof (bytes_zeros 16) as Z3.
  unfold fresh_recv_buffer, zero_addr; cbn [imb_data imb_addr addr_info].
  change (Z.of_nat 1024) with 1024 in Z1. change (Z.of_nat 20) with 20 in Z2. change (Z.of_nat 16) with 16 in Z3.
  revert Z1 Z2 Z3. generalize (replicate 1024 0), (replicate 20 0), (replicate 16 0). intros b1 b2 b3 Z1 Z2 Z3.
  destruct (bytes_write 16 b3 0 m Z3) as (f & -> & Hf); [lia|lia|done|]. cbn [mbind outcome_bind].
  destruct (bget_ok 4 f 0) as [cid ->]; [lia|rewrite (proj1 Hf); cbn; lia|]. cbn [mbind outcome_bind].
  destruct (bytes_put 20 b2 4 2 cid Z2) as (i & -> & Hi); [lia|lia|]. cbn [mbind outcome_bind].
  rewrite bread_ok by (rewrite ?(proj1 Hf); lia). cbn [mbind outcome_bind]. set (data := take _ _).
  assert (blen data <= 8) as Hdl by (unfold data, blen in *; rewrite length_take; lia).
  destruct (bytes_write 1024 b1 0 data Z1) as (d & -> & Hd); [lia|lia|by apply Forall_take, Forall_drop, Hf|]. cbn [mbind outcome_bind].
  eexists PROCESS_OK, _, s. split; [reflexivity|]. split; [done|]. intros _. apply report_intro; [done|lia|done].
Qed.

Lemma concat_words regs : blen (concat (map (le_bytes 2) regs)) = 2 * Z.of_nat (length regs) /\ Forall is_byte (concat (map (le_bytes 2) regs)).
Proof.
  induction regs as [|r regs [IH1 IH2] ]; [done|]. cbn [map concat length]. unfold blen in *. rewrite length_app, length_le_bytes. split; [lia|].
  apply Forall_app. split; [apply le_bytes_bytes|done].
Qed.

Lemma modbus_receives s e : driven ModbusTcpDriver s -> recv_fits ModbusTcpDriver e -> received_ok ModbusTcpDriver (iot_recv s fresh_recv_buffer e).
Proof.
  intros Hs Hr. unfold iot_recv. rewrite (proj2 Hs). unfold modbustcp_recv_from_remote. case_match; [|by apply refused_receive].
  case_match; [|by apply refused_receive]. case_match; [by apply refused_receive|]. destruct (rv_regs e) as [regs|] eqn:Er; [|by apply refused_receive].
  pose proof (Hr regs Er) as Hl. destruct regs as [|r regs]; [by apply refused_receive|]. set (m := r :: regs) in *.
  rewrite require_true by (by apply Nat.leb_le). cbn [mbind outcome_bind]. destruct (concat_words m) as [Hcl Hcb].
  pose proof (bytes_zeros 1024) as Z1. pose proof (bytes_zeros 20) as Z2.
  unfold fresh_recv_buffer, zero_addr; cbn [imb_data imb_addr addr_info]. change (Z.of_nat 1024) with 1024 in Z1. change (Z.of_nat 20) with 20 in Z2.
  revert Z1 Z2. generalize (replicate 1024 0), (replicate 20 0). intros b1 b2 Z1 Z2.
  destruct (bytes_write 20 b2 0 modbus_peer_info Z2) as (i & -> & Hi); [lia|by vm_compute|by apply bytesb_ok; vm_compute|]. cbn [mbind outcome_bind].
  destruct (bytes_write 1024 b1 0 (concat (map (le_bytes 2) m)) Z1) as (d & -> & Hd); [lia|lia|done|]. cbn [mbind outcome_bind].
  eexists PROCESS_OK, _, _. split; [reflexivity|]. split; [exact Hs|]. intros _. apply report_intro; [done|lia|done].
Qed.

Lemma iot_receives proto d s e : driver_of proto d -> driven d s -> recv_fits d e -> received_ok d (iot_recv s fresh_recv_buffer e).
Proof. intros [ [_ ->]|[ [_ ->]|[_ ->] ] ]; [apply bluetooth_receives|apply can_receives|apply modbus_receives]. Qed.

(** ** Reporting *)

Lemma puts_of n fs : forall b off, bytes_of n b -> 0 <= off -> off + widths fs <= n -> exists b', st_puts fs b off = Done b' /\ bytes_of n b'.
Proof.
  induction fs as [|[w v] fs IH]; intros b off Hb Ho Hn; [by exists b|]. change (off + (Z.of_nat w + widths fs) <= n) in Hn.
  pose proof (widths_nonneg fs). cbn [st_puts]. destruct (bytes_put n b w off v Hb) as (b1 & E & H1); [lia|lia|].
  change (st_put w b off v) with (bput w b off v). rewrite E. cbn [mbind outcome_bind]. apply IH; [done|lia|lia].
Qed.

Lemma put_of n k b off v : bytes_of n b -> 0 <= off -> off + Z.of_nat k <= n -> exists b', st_put k b off v = Done b' /\ bytes_of n b'.
Proof. apply bytes_put. Qed.

Lemma copy_of n b off p k : bytes_of n b -> 0 <= off -> 0 <= k <= blen p -> off + k <= n -> Forall is_byte p ->
  exists b', copy_in b off p k = Done b' /\ bytes_of n b'.
Proof.
  intros Hb Ho Hk Hn Hp. unfold copy_in. rewrite bread_ok by lia. cbn [mbind outcome_bind]. apply (bytes_write n); try done.
  - unfold blen in *. rewrite length_take, length_drop. lia.
  - by apply Forall_take, Forall_drop.
Qed.

Lemma report_info_bytes proto info : bytes_of 20 info -> 0 <= get_iot_addr_length proto <= 20 -> bytes_of 20 (iot_report_info proto info).
Proof.
  intros [Hl Hb] Ha. unfold iot_report_info, blen in *. assert (forall n, Forall is_byte (replicate n 0)) as Hz by (intros; apply Forall_replicate; unfold is_byte; lia).
  case_match; split.
  - unfold blen. rewrite !length_app, length_take. cbn [length replicate]. lia.
  - repeat (apply Forall_app; split); [by apply Forall_take|by apply (Hz 1%nat)|apply Hz].
  - unfold blen. rewrite length_app, length_take, length_replicate. lia.
  - apply Forall_app. split; [by apply Forall_take|apply Hz].
Qed.

Lemma known_proto proto d : driver_of proto d ->
  iot_addr_info_len proto = Some (get_iot_addr_length proto) /\ 0 < get_iot_addr_length proto <= 20.
Proof. intros [ [-> _]|[ [-> _]|[-> _] ] ]; split; try done; by vm_compute. Qed.

(** The report of [b] is built. *)
Lemma report_filled proto d b buf : driver_of proto d -> report_ok b -> bytes_of 4096 buf ->
  let h := iot_report_header proto (imb_len b) (iot_report_info proto (addr_info (imb_addr b))) in
  exists buf', fill_message h (imb_data b) (imb_len b) buf 0 = Done (Some (imb_len b + get_iot_addr_length proto + 20), buf') /\ bytes_of 4096 buf'.
Proof.
  intros Hd [ [Hn1 Hn2] Hb Hi1 Hi2] Hbuf h. destruct (known_proto proto d Hd) as [Hk Ha].
  destruct (report_info_bytes proto (addr_info (imb_addr b))) as [Hr1 Hr2]; [by split|lia|].
  unfold fill_message. destruct (puts_of 4096 [(1%nat, pmh_version (outer_header h)); (1%nat, pmh_type (outer_header h)); (2%nat, pmh_frontend_sess_id (outer_header h));
    (2%nat, pmh_backend_sess_id (outer_header h))] buf 0 Hbuf) as (b1 & -> & H1); [lia|by vm_compute|]. cbn [mbind outcome_bind].
  unfold build_inner. change (pmh_type (outer_header h)) with PROXY_MSG_TYPE_IOT. cbn [PROXY_MSG_TYPE_IOT PROXY_MSG_TYPE_DEV PROXY_MSG_TYPE_STRGY PROXY_MSG_TYPE_SESS PROXY_MSG_TYPE_DATA Z.eqb Pos.eqb].
  change (imh_proto_type (iot_hdr (inner_header h))) with proto. rewrite Hk. unfold build_proxy_iot_message.
  change (imh_proto_type (iot_hdr (inner_header h))) with proto. unfold PROXY_MSG_HDR_SIZE. change (0 + 8) with 8.
  destruct (put_of 4096 2 b1 (8 + 6) 0 H1) as (b2 & -> & H2); [lia|lia|]. cbn [mbind outcome_bind].
  destruct (put_of 4096 2 b2 (8 + 4) 0 H2) as (b3 & -> & H3); [lia|lia|]. cbn [mbind outcome_bind].
  destruct (put_of 4096 2 b3 (8 + 2) proto H3) as (b4 & -> & H4); [lia|lia|]. cbn [mbind outcome_bind].
  destruct (put_of 4096 2 b4 (8 + 0) 0 H4) as (b5 & -> & H5); [lia|lia|]. cbn [mbind outcome_bind].
  destruct (put_of 4096 2 b5 (8 + 10) 0 H5) as (b6 & -> & H6); [lia|lia|]. cbn [mbind outcome_bind]. rewrite Hk.
  rewrite (proj2 (Z.ltb_ge _ _)) by (unfold sizeof_addr_info; lia). change (iot_addr_len h) with (get_iot_addr_length proto). rewrite Z.ltb_irrefl, andb_false_r.
  change (addr_info (iot_addr h)) with (iot_report_info proto (addr_info (imb_addr b))). unfold sizeof_IotMsgHeader.
  destruct (copy_of 4096 b6 (8 + 12) (iot_report_info proto (addr_info (imb_addr b))) (get_iot_addr_length proto) H6) as (b7 & -> & H7); [lia|lia|lia|done|]. cbn [mbind outcome_bind].
  assert (exists b8, (if 0 <? imb_len b then copy_in b7 (8 + 12 + get_iot_addr_length proto) (imb_data b) (imb_len b) else Done b7) = Done b8 /\ bytes_of 4096 b8) as (b8 & -> & H8).
  { destruct (0 <? imb_len b); [|by exists b7]. apply copy_of; try done; lia. }
  cbn [mbind outcome_bind]. destruct (put_of 4096 2 b8 (8 + 8) (imb_len b + get_iot_addr_length proto) H8) as (b9 & -> & H9); [lia|lia|]. cbn [mbind outcome_bind fst snd].
  rewrite (u16_id (12 + _)) by lia. destruct (put_of 4096 2 b9 (0 + 6) (imb_len b + (12 + get_iot_addr_length proto)) H9) as (b10 & -> & H10); [lia|lia|]. cbn [mbind outcome_bind].
  exists b10. split; [|done]. do 3 f_equal. lia.
Qed.

Lemma enqueue_total g m z buf len : qwf g m -> 0 < len <= g_bs g -> len <= blen buf -> Forall is_byte buf ->
  exists st m', hyperamp_queue_enqueue m (g_queue g) z (Some buf) len (g_base g) = Done (st, m') /\ qwf g m'.
Proof.
  intros Hw Hl Hlen Hb. pose proof (qlength_range g m Hw). destruct (decide (qlength g m = g_cap g - 1)) as [E|E].
  - destruct (enqueue_full g m z buf len) as (m' & -> & Hw' & _); try done. by exists PROCESS_AGAIN, m'.
  - destruct (enqueue_room g m z buf len) as (m' & -> & Hw' & _); try done; [lia|]. by exists PROCESS_OK, m'.
Qed.

Section Run.
Context (g : geometry) (e : tx_engine).
Hypothesis (Hq : g_queue g = hyper_tx_queue (eng_ports e)) (Hb : g_base g = hyper_amp_data_region (eng_ports e)) (Hp : eng_mem_pool e <> 0)
  (Hbs : g_bs g = HYPERAMP_MSG_HDR_PLUS_MAX_SIZE).

Lemma report_sent proto d b s : driver_of proto d -> report_ok b -> qwf g (tx_mem s) ->
  exists st p s', build_proxy_general_message no_malloc (Some e)
    (Some (iot_report_header proto (imb_len b) (iot_report_info proto (addr_info (imb_addr b))))) (Some (imb_data b)) (imb_len b) true MEMORY_ALLOC_AMPQUEUE s
    = Done (st, p, s') /\ qwf g (tx_mem s').
Proof using Hq Hb Hp Hbs.
  intros Hd Hr Hw. pose proof (geometry_ok_spec g (qwf_geo _ _ Hw)) as Hgeo. unfold build_proxy_general_message. rewrite (proj2 (Z.eqb_neq _ _) Hp).
  unfold build_general_amp. rewrite <- Hq, <- Hb. rewrite (proj2 (Z.eqb_neq (g_queue g) 0)) by lia.
  destruct (report_filled proto d b (replicate 4096 0) Hd Hr (bytes_zeros 4096)) as (buf & E & Hbuf).
  change (replicate (Z.to_nat HYPERAMP_MSG_HDR_PLUS_MAX_SIZE) 0) with (replicate 4096 0). rewrite E. cbn [mbind outcome_bind fst snd with_tx_buf tx_amp_buf tx_mem].
  destruct (known_proto proto d Hd) as [_ Ha]. destruct Hr as [ [Hn1 Hn2] _ _ _]. unfold HYPERAMP_MSG_HDR_PLUS_MAX_SIZE in Hbs.
  destruct (enqueue_total g (tx_mem s) HYPERAMP_ZONE_ID_Linux buf (imb_len b + get_iot_addr_length proto + 20) Hw) as (st & m' & -> & Hw'); [lia|rewrite (proj1 Hbuf); lia|apply Hbuf|].
  cbn [mbind outcome_bind fst snd]. eexists _, _, _. split; [reflexivity|done].
Qed.

(** ** The run loops *)

(** What a device answers until its loop ends. *)
Fixpoint polls_end (d : iot_driver) (envs : list recv_env) (s : IoTBackendSession) : Prop :=
  match envs with
  | [] => False
  | env :: envs => recv_fits d env /\ forall b s', iot_recv s fresh_recv_buffer env = Done (PROCESS_OK, b, s') -> polls_end d envs s'
  end.

Lemma iot_run_ends proto d envs : driver_of proto d -> forall s tx, driven d s -> polls_end d envs s -> qwf g (tx_mem tx) ->
  exists s' tx', engine_iot_run proto envs s e tx = Done (s', tx') /\ driven d s' /\ qwf g (tx_mem tx').
Proof using Hq Hb Hp Hbs.
  intros Hd. induction envs as [|env envs IH]; intros s tx Hs He Hw; [destruct He|]. destruct He as [Hf He]. cbn [engine_iot_run].
  destruct (iot_receives proto d s env Hd Hs Hf) as (ret & b & s1 & E & Hs1 & Hr). rewrite E. cbn [mbind outcome_bind].
  destruct ret; [|by exists s1, tx..]. destruct (report_sent proto d b tx Hd (Hr eq_refl) Hw) as (st & p & tx1 & -> & Hw1). cbn [mbind outcome_bind snd].
  apply IH; [done|by eapply He|done].
Qed.
End Run.
