(* ===== verification/DevConfig.v ===== *)
(** * DevConfig: the table of network devices read from hs_net_dev.ini

    src/engine.c 362-472 and 774-1008 ([open_named_netns],
    [create_hs_net_dev_tcp_listener], [engine_init_hs_net_dev]) with the address
    macros of include/message.h and include/engine.h.  [inet_pton] for IPv4 is
    that of the C library; for IPv6 it is an argument, as are the answers of
    open, malloc and the socket calls. *)

From S2P Require Import Prelude Bytes Message Session Device CString Dictionary IniParser.
From stdpp Require Import base list numbers option gmap strings.
From Stdlib Require Import ZArith Lia.
#[local] Open Scope Z_scope.

Definition MAX_DEV_NAME : nat := 32.
Definition MAX_DEVICE_PROPERTY_NAME_LENGTH : nat := 8.
Definition MAX_SESS_NODE_NUM : nat := 10.
Definition MAX_TCP_PENDING_CONN : Z := 10.

Definition TRADITIONAL_ETHERNET : Z := 0.
Definition TSN : Z := 1.
Definition WIFI : Z := 2.
Definition LTE_MODULE : Z := 3.
Definition NR_MODULE : Z := 4.
Definition HS_NET_DEV_INACTIVE : Z := 0.

Definition IS_VALID_HS_NET_DEV_TYPE (t : Z) : bool :=
  (t =? TRADITIONAL_ETHERNET) || (t =? TSN) || (t =? WIFI) || (t =? LTE_MODULE) || (t =? NR_MODULE).
Definition IS_VALID_HS_NET_DEV_STATUS (s : Z) : bool := (s =? HS_NET_DEV_INACTIVE) || (s =? HS_NET_DEV_ACTIVE).

(** ** Addresses *)

(** inet_pton(AF_INET, ...): four decimal octets without leading zeros.  [tmp]
    holds the octets before the current one, last first. *)
Fixpoint pton4_loop (s : cstring) (tmp : list Z) (cur octets : Z) (saw_digit : bool) : option (list Z) :=
  match s with
  | [] => if octets <? 4 then None else Some (rev (cur :: tmp))
  | ch :: s =>
      if (48 <=? ch) && (ch <=? 57) then
        let new := cur * 10 + (ch - 48) in
        if saw_digit && (cur =? 0) then None else
        if 255 <? new then None else
        if saw_digit then pton4_loop s tmp new octets true else
        if 4 <? octets + 1 then None else pton4_loop s tmp new (octets + 1) true
      else if (ch =? 46) && saw_digit then
        if octets =? 4 then None else pton4_loop s (cur :: tmp) 0 octets false
      else None
  end.

(** The four bytes in network order, the order in which they lie in [s_addr]. *)
Definition inet_pton4 (s : cstring) : option (list Z) := pton4_loop s [] 0 0 false.

(** On a little-endian machine. *)
Definition ntohl (x : Z) : Z := le_val (rev (le_bytes 4 x)).
Definition htonl (x : Z) : Z := ntohl x.
Definition htons (x : Z) : Z := le_val (rev (le_bytes 2 x)).

Definition COPY_IN_TO_IPV4 (s_addr : Z) : list Z :=
  let addr := ntohl s_addr in
  [Z.land (Z.shiftr addr 24) 0xFF; Z.land (Z.shiftr addr 16) 0xFF; Z.land (Z.shiftr addr 8) 0xFF; Z.land addr 0xFF].

Definition COPY_IPV4_TO_IN (d0 d1 d2 d3 : Z) : Z :=
  htonl (Z.lor (Z.lor (Z.lor (u32 (Z.shiftl d0 24)) (Z.shiftl d1 16)) (Z.shiftl d2 8)) d3).

(** What the kernel and the C library answer. *)
Record hs_env := {
  he_set : bool;                         (** malloc of the device set *)
  he_file : option (list Z);             (** the bytes of hs_net_dev.ini *)
  he_new : new_env;
  he_lines : nat -> line_env;
  he_pton6 : cstring -> option (list Z);
  he_open : cstring -> Z;
  he_node : nat -> nat -> option Z }.    (** malloc of node [j] of device [i] *)

Definition DEV_IP_TYPE (pton6 : cstring -> option (list Z)) (ip_str : cstring) : Z :=
  match inet_pton4 ip_str with
  | Some _ => SESS_IPV4_PROTO
  | None => match pton6 ip_str with Some _ => SESS_IPV6_PROTO | None => SESS_NON_IP_PROTO end
  end.

(** The union after the copy; the bytes beyond an IPv4 address stay. *)
Definition dev_ip_address (pton6 : cstring -> option (list Z)) (ip : cstring) (old : list Z) : option (list Z) :=
  let ip_type := DEV_IP_TYPE pton6 ip in
  if ip_type =? SESS_NON_IP_PROTO then None
  else if ip_type =? SESS_IPV4_PROTO then
    match inet_pton4 ip with
    | None => None
    | Some b => Some (COPY_IN_TO_IPV4 (le_val b) ++ drop 4 old)
    end
  else pton6 ip.

Definition open_named_netns (open : cstring -> Z) (name : cstring) : Z :=
  let ns_id := open (snprintf 256 (lit "/var/run/netns/" ++ name)) in
  if ns_id <? 0 then -1 else ns_id.

(** ** The TCP listener of a device *)

Record listener_env := { ln_socket : Z; ln_bind : bool; ln_listen : bool }.

(** The result: the status, the device, the port and address given to bind,
    and the descriptors closed. *)
Definition create_hs_net_dev_tcp_listener (env : listener_env) (eng : bool) (hs_dev : option HighSpeedNetDevice) (ip_version : Z)
  : outcome (status * option HighSpeedNetDevice * option (Z * Z) * list Z) :=
  match hs_dev with
  | None => Done (PROCESS_ERROR, None, None, [])
  | Some d =>
      let set port fd :=
        {| hs_dev_id := hs_dev_id d; dev_type := dev_type d; ns_name := ns_name d; ns_id := ns_id d;
           dev_status := dev_status d; dev_name := dev_name d; udp_node_queue := udp_node_queue d;
           tcp_node_queue := tcp_node_queue d; free_node_queue := free_node_queue d;
           dev_address := dev_address d; tcp_listening_port := port; tcp_listener := fd |} in
      let port := tcp_listening_port d in
      if negb eng then Done (PROCESS_ERROR, Some d, None, []) else
      if port <=? 0 then Done (PROCESS_ERROR, Some (set (-1) (tcp_listener d)), None, []) else
      if negb (ip_version =? SESS_IPV4_PROTO) then Done (PROCESS_ERROR, Some d, None, []) else
      match dev_address d with
      | d0 :: d1 :: d2 :: d3 :: _ =>
          let fd := ln_socket env in
          if fd =? -1 then Done (PROCESS_ERROR, Some d, None, []) else
          let bound := Some (htons port, COPY_IPV4_TO_IN d0 d1 d2 d3) in
          if negb (ln_bind env) then Done (PROCESS_ERROR, Some d, bound, [fd]) else
          if negb (ln_listen env) then Done (PROCESS_ERROR, Some d, bound, [fd]) else
          Done (PROCESS_OK, Some (set port fd), bound, [])
      | _ => Fault OutOfBounds
      end
  end.

(** ** The device table *)

(** A device after [memset(set, 0, ...)]. *)
Definition zero_dev : HighSpeedNetDevice :=
  {| hs_dev_id := 0; dev_type := 0; ns_name := None; ns_id := 0; dev_status := 0; dev_name := [];
     udp_node_queue := []; tcp_node_queue := []; free_node_queue := []; dev_address := replicate 16 0;
     tcp_listening_port := 0; tcp_listener := 0 |}.

(** [dev_pro_item] has [MAX_DEV_NAME + MAX_DEVICE_PROPERTY_NAME_LENGTH] bytes. *)
Definition dev_pro_item (name property : cstring) : cstring :=
  snprintf (MAX_DEV_NAME + MAX_DEVICE_PROPERTY_NAME_LENGTH) (name ++ property).

Definition set_active_mask (w : world) (m : Z) : world :=
  {| w_sess := w_sess w; w_node := w_node w; w_devs := w_devs w; w_pool := w_pool w;
     w_eng := {| eng_tx := eng_tx (w_eng w); dev_num := dev_num (w_eng w); active_mask := m;
                 selector_id := selector_id (w_eng w) |};
     w_last_pos := w_last_pos w; w_tx := w_tx w; w_closed := w_closed w |}.

Definition set_dev_set (w : world) (devs : list HighSpeedNetDevice) (n : Z) : world :=
  {| w_sess := w_sess w; w_node := w_node w; w_devs := devs; w_pool := w_pool w;
     w_eng := {| eng_tx := eng_tx (w_eng w); dev_num := n; active_mask := active_mask (w_eng w);
                 selector_id := selector_id (w_eng w) |};
     w_last_pos := w_last_pos w; w_tx := w_tx w; w_closed := w_closed w |}.

Definition free_nodes (w : world) (q : list Z) : world :=
  with_node w (fold_left (fun m n => delete n m) q (w_node w)).

(** The node loop: [fuel] nodes are still to be made, [j] are in the queue.
    [None]: malloc failed and the nodes of the queue are freed. *)
Fixpoint make_nodes (malloc : nat -> option Z) (fuel j : nat) (w : world) (q : list Z)
  : outcome (option (list Z) * world) :=
  match fuel with
  | O => Done (Some q, w)
  | S fuel =>
      match malloc j with
      | None => Done (None, free_nodes w q)
      | Some n =>
          q ← tailq_insert n q;
          make_nodes malloc fuel (S j) (set_node_sess w n None) q
      end
  end.

(** One device from its namespace on (lines 917-970); [None] is [goto hs_net_error]. *)
Definition init_hs_dev_ns (env : hs_env) (ini : dictionary) (cnt : nat) (dev_name address : cstring)
    (dev_id dev_type dev_status : Z) (w : world) : outcome (option HighSpeedNetDevice * world) :=
  ns_name ← iniparser_getstring (Some ini) (dev_pro_item dev_name (lit ":ns_name")) None;
  match ns_name with
  | None => Done (None, w)
  | Some ns =>
      let ns_id := open_named_netns (he_open env) ns in
      if ns_id =? ERROR_NAMESPACE_ID then Done (None, w) else
      tcp_port ← iniparser_getint (Some ini) (dev_pro_item dev_name (lit ":tcp_listening_port")) (-1);
      r ← make_nodes (he_node env cnt) MAX_SESS_NODE_NUM 0 w [];
      Done (option_map (fun q =>
        {| hs_dev_id := dev_id; dev_type := dev_type; ns_name := Some ns; ns_id := ns_id; dev_status := dev_status;
           dev_name := snprintf MAX_DEV_NAME dev_name; udp_node_queue := []; tcp_node_queue := [];
           free_node_queue := q; dev_address := address;
           tcp_listening_port := if 0 <? tcp_port then tcp_port else 0; tcp_listener := -1 |}) (fst r), snd r)
  end.

(** Its numbers (lines 880-914). *)
Definition init_hs_dev_ids (env : hs_env) (ini : dictionary) (cnt : nat) (dev_name address : cstring) (w : world)
  : outcome (option HighSpeedNetDevice * world) :=
  dev_id ← iniparser_getint (Some ini) (dev_pro_item dev_name (lit ":dev_id")) (-1);
  if dev_id =? -1 then Done (None, w) else
  dev_type ← iniparser_getint (Some ini) (dev_pro_item dev_name (lit ":dev_type")) (-1);
  if negb (IS_VALID_HS_NET_DEV_TYPE dev_type) then Done (None, w) else
  dev_status ← iniparser_getint (Some ini) (dev_pro_item dev_name (lit ":dev_status")) (-1);
  if negb (IS_VALID_HS_NET_DEV_STATUS dev_status) then Done (None, w) else
  let w := if dev_status =? HS_NET_DEV_ACTIVE
           then set_active_mask w (u16 (Z.lor (active_mask (w_eng w)) (Z.shiftl 1 (Z.of_nat cnt)))) else w in
  init_hs_dev_ns env ini cnt dev_name address dev_id dev_type dev_status w.

Definition init_hs_dev (env : hs_env) (ini : dictionary) (cnt : nat) (dev_name : cstring) (w : world)
  : outcome (option HighSpeedNetDevice * world) :=
  if (MAX_DEV_NAME <? length dev_name)%nat then Done (None, w) else
  ip_addr ← iniparser_getstring (Some ini) (dev_pro_item dev_name (lit ":ip_addr")) None;
  match ip_addr ≫= fun ip => dev_ip_address (he_pton6 env) ip (dev_address zero_dev) with
  | None => Done (None, w)
  | Some address => init_hs_dev_ids env ini cnt dev_name address w
  end.

(** Label [hs_net_error]: the nodes of the devices before [cnt] are freed. *)
Definition hs_net_error (w : world) (set : list HighSpeedNetDevice) (cnt : nat) : world :=
  fold_left (fun w d => free_nodes w (free_node_queue d)) (take cnt set) w.

Fixpoint init_hs_loop (env : hs_env) (ini : dictionary) (fuel cnt : nat) (set : list HighSpeedNetDevice) (w : world)
  : outcome (status * world) :=
  match fuel with
  | O => Done (PROCESS_OK, set_dev_set w set (Z.of_nat cnt))
  | S fuel =>
      dev_name ← iniparser_getsecname (Some ini) (Z.of_nat cnt);
      match dev_name with
      | None => init_hs_loop env ini fuel (S cnt) set w
      | Some dev_name =>
          r ← init_hs_dev env ini cnt dev_name w;
          match fst r with
          | None => Done (PROCESS_ERROR, hs_net_error (snd r) set cnt)
          | Some d => init_hs_loop env ini fuel (S cnt) (<[cnt := d]> set) (snd r)
          end
      end
  end.

Definition engine_init_hs_net_dev (env : hs_env) (w : world) : outcome (status * world) :=
  if negb (he_set env) then Done (PROCESS_ERROR, w) else
  let set := replicate (Z.to_nat MAX_HS_DEV_NUM) zero_dev in
  ini ← iniparser_load (he_new env) (he_lines env) (he_file env);
  match ini with
  | None => Done (PROCESS_OK, set_dev_set w set 0)
  | Some ini =>
      dev_num ← iniparser_getnsec (Some ini);
      if dev_num =? 0 then Done (PROCESS_ERROR, w) else
      if MAX_HS_DEV_NUM <? dev_num then Done (PROCESS_ERROR, w) else
      init_hs_loop env ini (Z.to_nat dev_num) 0 set (set_active_mask w 0)
  end.
