(* ===== verification/DevConfigSpec.v ===== *)
(** * DevConfigSpec: what the device table is after start-up

    The table that [engine_init_hs_net_dev] builds is well formed whatever the
    configuration file holds, a failed start-up leaves no session node behind,
    and the table is the one described when the file is written from device
    descriptions.  The last part needs that the parser's table keeps the order
    of the file. *)

From S2P Require Import Prelude Bytes Message Session Device CString Dictionary DictionarySpec IniParser IniParserSpec DevConfig.
From stdpp Require Import base list numbers option gmap strings.
From Stdlib Require Import ZArith Lia.
#[local] Open Scope Z_scope.

(** ** Nodes *)

Lemma fold_delete_lookup (q : list Z) (m : gmap Z (option Z)) k :
  fold_left (fun m n => delete n m) q m !! k = if decide (k ∈ q) then None else m !! k.
Proof.
  revert m. induction q as [|n q IH]; intros m; [by rewrite decide_False by apply not_elem_of_nil|].
  cbn [fold_left]. rewrite IH. destruct (decide (k ∈ q)) as [Hq|Hq]; [by rewrite decide_True by (by right)|].
  destruct (decide (k = n)) as [->|Hne].
  - rewrite decide_True by (by left). apply lookup_delete_eq.
  - rewrite decide_False by (by rewrite elem_of_cons; intros [|]). by apply lookup_delete_ne.
Qed.

Lemma existsb_elem (x : Z) l : existsb (fun y => y =? x) l = bool_decide (x ∈ l).
Proof.
  apply eq_true_iff_eq. rewrite existsb_exists, bool_decide_eq_true. split.
  - intros (y & Hy & ->%Z.eqb_eq). by apply list_elem_of_In.
  - intros Hx. exists x. split; [by apply list_elem_of_In|apply Z.eqb_refl].
Qed.

Lemma tailq_insert_fresh x l : x ∉ l -> tailq_insert x l = Done (l ++ [x]).
Proof. intros Hx. unfold tailq_insert. by rewrite existsb_elem, bool_decide_eq_false_2. Qed.

(** [N] is the node map before the loop over the nodes of a device, [q] what
    has been added. *)
Definition nodes_added (N N' : gmap Z (option Z)) (q : list Z) : Prop :=
  forall k, N' !! k = if decide (k ∈ q) then Some None else N !! k.

(** Everything of the world but the nodes. *)
Definition same_but_nodes (w w' : world) : Prop := w' = with_node w (w_node w').

Lemma make_nodes_spec malloc fuel j w0 w q :
  NoDup q -> same_but_nodes w0 w -> nodes_added (w_node w0) (w_node w) q ->
  (forall n, n ∈ q -> w_node w0 !! n = None) ->
  (forall i n, malloc i = Some n -> w_node w0 !! n = None) ->
  (forall i n, (j <= i)%nat -> malloc i = Some n -> n ∉ q) ->
  (forall a b n, malloc a = Some n -> malloc b = Some n -> a = b) ->
  exists r w', make_nodes malloc fuel j w q = Done (r, w') /\ same_but_nodes w0 w' /\
  match r with
  | None => w_node w' = w_node w0 /\ exists i, (j <= i < j + fuel)%nat /\ malloc i = None
  | Some q' => NoDup q' /\ length q' = (length q + fuel)%nat /\ nodes_added (w_node w0) (w_node w') q' /\
      take (length q) q' = q /\
      (forall i, (i < fuel)%nat -> malloc (j + i)%nat = q' !! (length q + i)%nat) /\
      (forall n, n ∈ q' -> w_node w0 !! n = None) /\ (forall n, n ∈ q' -> n ∈ q \/ exists i, malloc i = Some n)
  end.
Proof.
  intros Hq Hs Ha Hf Hm Hd Hi. revert j w q Hq Hs Ha Hf Hd. induction fuel as [|fuel IH]; intros j w q Hq Hs Ha Hf Hd.
  { exists (Some q), w. split; [done|]. split; [done|]. rewrite Nat.add_0_r, take_ge by lia.
    repeat (split; [done|]). split; [lia|]. eauto. }
  cbn [make_nodes]. destruct (malloc j) as [n|] eqn:E.
  - rewrite tailq_insert_fresh by (by eapply Hd). cbn [mbind outcome_bind].
    destruct (IH (S j) (set_node_sess w n None) (q ++ [n])) as (r & w' & -> & Hs' & Hr).
    + apply NoDup_app. split; [done|]. split; [|apply NoDup_singleton]. intros k Hk ->%list_elem_of_singleton. by apply (Hd j n).
    + unfold same_but_nodes in *. rewrite Hs. done.
    + intros k. cbn. destruct (decide (k = n)) as [->|Hne].
      * rewrite decide_True by (apply elem_of_app; right; by left). apply lookup_insert_eq.
      * rewrite lookup_insert_ne, Ha by done. destruct (decide (k ∈ q)) as [H|H].
        -- by rewrite decide_True by (apply elem_of_app; by left).
        -- rewrite decide_False; [done|]. rewrite elem_of_app, list_elem_of_singleton. tauto.
    + intros k [Hk|Hk%list_elem_of_singleton]%elem_of_app; [by apply Hf|]. subst k. by eapply Hm.
    + intros i k Hi' Hk. rewrite elem_of_app, list_elem_of_singleton. intros [Hin| ->].
      * by eapply (Hd i k); [lia| |].
      * pose proof (Hi _ _ _ Hk E). lia.
    + exists r, w'. split; [done|]. split; [done|]. destruct r as [q'|].
      * rewrite length_app in Hr. cbn [length] in Hr. destruct Hr as (H1 & H2 & H3 & H4 & H5 & H6 & H7).
        assert (take (length q) q' = q) as Ht.
        { apply (f_equal (take (length q))) in H4. rewrite take_take in H4.
          replace (length q `min` (length q + 1))%nat with (length q) in H4 by lia. by rewrite take_app_length in H4. }
        repeat (split; [done || lia|]). split; [|split; [done|] ].
        -- intros [|i] Hlt.
           ++ rewrite !Nat.add_0_r, E. rewrite <- (take_drop (length q + 1) q'), H4.
              rewrite lookup_app_l by (rewrite length_app; cbn; lia). by rewrite list_lookup_middle.
           ++ replace (j + S i)%nat with (S j + i)%nat by lia. rewrite H5 by lia. f_equal. lia.
        -- intros k Hk. destruct (H7 k Hk) as [Hin|]; [|by right].
           apply elem_of_app in Hin as [?|Hin]; [by left|]. apply list_elem_of_singleton in Hin as ->. eauto.
      * destruct Hr as (H1 & i & Hi1 & Hi2). split; [done|]. exists i. split; [lia|done].
  - exists None, (free_nodes w q). split; [done|]. split.
    + unfold same_but_nodes in *. rewrite Hs. done.
    + split; [|exists j; split; [lia|done]]. apply map_eq. intros k. cbn. rewrite fold_delete_lookup, Ha.
      destruct (decide (k ∈ q)); [|done]. symmetry. by apply Hf.
Qed.

(** ** One device *)

(** Values are only missing under section names. *)
Definition valued (d : dictionary) : Prop := forall k, binds d k None -> is_section k = true.

(** A key with a colon has no value: a section header has a colon in it. *)
Definition valueless (d : dictionary) : Prop := exists k, binds d k None /\ is_section k = false.

(** The call returns a result of [Q], or it hands a missing value to strtol or
    strcmp, and then [B] holds. *)
Definition returns_or_null {A} (B : Prop) (o : outcome A) (Q : A -> Prop) : Prop :=
  (exists a, o = Done a /\ Q a) \/ (o = Fault NullDeref /\ B).

Lemma or_null_done {A} B (a : A) (Q : A -> Prop) : Q a -> returns_or_null B (Done a) Q.
Proof. intros H. left. by exists a. Qed.

Lemma or_null_bind {A C} B (o : outcome A) (f : A -> outcome C) (P : A -> Prop) (Q : C -> Prop) :
  returns_or_null B o P -> (forall a, P a -> returns_or_null B (f a) Q) -> returns_or_null B (o ≫= f) Q.
Proof. intros [(a & -> & Ha)|[-> HB] ] H; [by apply H|by right]. Qed.

Lemma or_null_weaken {A} (B B' : Prop) (o : outcome A) (P Q : A -> Prop) :
  returns_or_null B o P -> (B -> B') -> (forall a, P a -> Q a) -> returns_or_null B' o Q.
Proof. intros [(a & -> & Ha)|[-> HB] ] HB' H; [left; eauto|right; auto]. Qed.

Lemma or_null_total {A} (o : outcome A) (Q : A -> Prop) : returns_or_null False o Q -> exists a, o = Done a /\ Q a.
Proof. by intros [?|[_ [] ] ]. Qed.

Lemma item_colon name p : (length name <= MAX_DEV_NAME)%nat -> is_section (lookup_key (dev_pro_item name (58 :: p))) = false.
Proof.
  intros Hn. unfold is_section, lookup_key, dev_pro_item, strlwc, snprintf, MAX_DEV_NAME in *.
  rewrite take_take. set (n := (_ `min` _)%nat). assert (n = 39)%nat as -> by (vm_compute; reflexivity).
  change (58 :: p) with ([58] ++ p). rewrite app_assoc, firstn_app. cbn in Hn.
  rewrite (take_ge (name ++ [58])) by (rewrite length_app; cbn; lia).
  rewrite !List.map_app, !strchr_app. cbn. by rewrite orb_true_r.
Qed.

Lemma int_of_long_range z : - 2 ^ 31 <= int_of_long z < 2 ^ 31.
Proof. unfold int_of_long. pose proof (Z.mod_pos_bound (z + 2 ^ 31) (2 ^ 32)). lia. Qed.

Lemma getstring_total d key def : dict_wf d -> exists r, iniparser_getstring (Some d) key def = Done r.
Proof. intros Hw. rewrite (getstring_spec d (dict_map d)) by (by try apply represents_dict_map). eauto. Qed.

Definition int_range (z : Z) : Prop := - 2 ^ 31 <= z < 2 ^ 31.

Lemma getint_or_null d key def :
  dict_wf d -> returns_or_null (binds d (lookup_key key) None) (iniparser_getint (Some d) key def) int_range.
Proof.
  intros Hw. pose proof (represents_dict_map d Hw) as Hr. destruct (dict_map d !! lookup_key key) as [ [s|]|] eqn:E.
  - rewrite (getint_spec d (dict_map d) key def s) by done. apply or_null_done, int_of_long_range.
  - right. split; [|by apply Hr]. unfold iniparser_getint, iniparser_getlongint. by rewrite (ini_lookup_spec d (dict_map d)), E by done.
  - rewrite (getint_missing d (dict_map d) key def) by done. apply or_null_done, int_of_long_range.
Qed.

(** A number of a device. *)
Lemma item_or_null d name p def : dict_wf d -> (length name <= MAX_DEV_NAME)%nat ->
  returns_or_null (valueless d) (iniparser_getint (Some d) (dev_pro_item name (58 :: p)) def) int_range.
Proof.
  intros Hw Hn. eapply or_null_weaken; [by apply getint_or_null|intros H; eexists; split; [exact H|by apply item_colon]|done].
Qed.

(** inet_pton for IPv6 answers 16 bytes. *)
Definition pton6_ok (pton6 : cstring -> option (list Z)) : Prop :=
  forall s l, pton6 s = Some l -> length l = 16%nat /\ Forall is_byte l.

Lemma COPY_IN_bytes x : length (COPY_IN_TO_IPV4 x) = 4%nat /\ Forall is_byte (COPY_IN_TO_IPV4 x).
Proof.
  split; [done|]. assert (forall y, is_byte (Z.land y 0xFF)) as H.
  { intros y. change 0xFF with (Z.ones 8). rewrite Z.land_ones by lia. unfold is_byte. apply (Z.mod_pos_bound y 256). lia. }
  repeat apply Forall_cons_2; try apply H. apply Forall_nil_2.
Qed.

Lemma dev_ip_address_typed pton6 ip old l :
  pton6_ok pton6 -> length old = 16%nat -> Forall is_byte old -> dev_ip_address pton6 ip old = Some l ->
  length l = 16%nat /\ Forall is_byte l.
Proof.
  intros Hp Hl Hb. unfold dev_ip_address. destruct (DEV_IP_TYPE pton6 ip =? SESS_NON_IP_PROTO); [done|].
  destruct (DEV_IP_TYPE pton6 ip =? SESS_IPV4_PROTO); [|by apply Hp].
  destruct (inet_pton4 ip) as [b|]; [|done]. intros <-%(inj Some). destruct (COPY_IN_bytes (le_val b)) as [H1 H2].
  split; [|by apply Forall_app_2; [|apply Forall_drop]]. rewrite length_app, H1, length_drop. lia.
Qed.

(** The type of a device of the table. *)
Record hs_dev_ok (d : HighSpeedNetDevice) : Prop := {
  ho_id : - 2 ^ 31 <= hs_dev_id d < 2 ^ 31 /\ hs_dev_id d <> -1;
  ho_type : 0 <= dev_type d <= 4;
  ho_status : dev_status d = HS_NET_DEV_INACTIVE \/ dev_status d = HS_NET_DEV_ACTIVE;
  ho_ns : 0 <= ns_id d /\ is_Some (ns_name d);
  ho_name : (length (dev_name d) < MAX_DEV_NAME)%nat;
  ho_addr : length (dev_address d) = 16%nat /\ Forall is_byte (dev_address d);
  ho_port : 0 <= tcp_listening_port d < 2 ^ 31 /\ tcp_listener d = -1;
  ho_idle : udp_node_queue d = [] /\ tcp_node_queue d = [];
  ho_free : length (free_node_queue d) = MAX_SESS_NODE_NUM }.

(** The bit of device [cnt] is set exactly when it is active. *)
Definition mask_updated (m m' : Z) (cnt : nat) (active : Prop) : Prop :=
  forall i, 0 <= i < 16 -> Z.testbit m' i = true <-> Z.testbit m i = true \/ i = Z.of_nat cnt /\ active.

Definition same_but_nodes_mask (w w' : world) : Prop :=
  exists m, w' = set_active_mask (with_node w (w_node w')) m.

(** What malloc may answer for the nodes of device [cnt]. *)
Definition nodes_fresh (env : hs_env) (N : gmap Z (option Z)) (cnt : nat) : Prop :=
  (forall j n, he_node env cnt j = Some n -> N !! n = None) /\
  (forall a b n, he_node env cnt a = Some n -> he_node env cnt b = Some n -> a = b).

Definition dev_result (env : hs_env) (cnt : nat) (w w' : world) (r : option HighSpeedNetDevice) : Prop :=
  same_but_nodes_mask w w' /\
  match r with
  | None => w_node w' = w_node w
  | Some d =>
      hs_dev_ok d /\ NoDup (free_node_queue d) /\ nodes_added (w_node w) (w_node w') (free_node_queue d) /\
      (forall n, n ∈ free_node_queue d -> exists j, he_node env cnt j = Some n) /\
      mask_updated (active_mask (w_eng w)) (active_mask (w_eng w')) cnt (dev_status d = HS_NET_DEV_ACTIVE)
  end.

Lemma ns_spec env ini cnt name address id ty st w :
  dict_wf ini -> (length name <= MAX_DEV_NAME)%nat ->
  length address = 16%nat -> Forall is_byte address ->
  - 2 ^ 31 <= id < 2 ^ 31 -> id <> -1 -> 0 <= ty <= 4 -> st = HS_NET_DEV_INACTIVE \/ st = HS_NET_DEV_ACTIVE ->
  nodes_fresh env (w_node w) cnt ->
  returns_or_null (valueless ini) (init_hs_dev_ns env ini cnt name address id ty st w) (fun rw => same_but_nodes w (snd rw) /\
  match fst rw with
  | None => w_node (snd rw) = w_node w
  | Some d => hs_dev_ok d /\ NoDup (free_node_queue d) /\ nodes_added (w_node w) (w_node (snd rw)) (free_node_queue d) /\
      (forall n, n ∈ free_node_queue d -> exists j, he_node env cnt j = Some n) /\ dev_status d = st
  end).
Proof.
  intros Hw Hn Ha1 Ha2 Hid Hid1 Hty Hst [Hf Hu]. unfold init_hs_dev_ns.
  assert (same_but_nodes w w) as Hrefl by (by destruct w).
  destruct (getstring_total ini (dev_pro_item name (lit ":ns_name")) None Hw) as [ns ->]. cbn [mbind outcome_bind].
  destruct ns as [ns|]; [|by apply or_null_done]. set (fd := open_named_netns (he_open env) ns).
  destruct (Z.eqb_spec fd ERROR_NAMESPACE_ID) as [|Hfd]; [by apply or_null_done|].
  assert (0 <= fd) as Hfd0.
  { unfold fd, open_named_netns, ERROR_NAMESPACE_ID in *. destruct (Z.ltb_spec (he_open env (snprintf 256 (lit "/var/run/netns/" ++ ns))) 0); lia. }
  eapply or_null_bind; [by apply item_or_null|]. intros port Hp. unfold int_range in Hp.
  destruct (make_nodes_spec (he_node env cnt) MAX_SESS_NODE_NUM 0 w w []) as (q & w' & -> & Hs & Hq); try done.
  { apply NoDup_nil_2. }
  { intros n Hin. by apply not_elem_of_nil in Hin. }
  { intros i n _ _. apply not_elem_of_nil. }
  cbn [mbind outcome_bind fst snd]. apply or_null_done. cbn [fst snd]. split; [done|]. destruct q as [q|]; [|by destruct Hq].
  destruct Hq as (H1 & H2 & H3 & _ & _ & _ & H7). cbn [option_map free_node_queue dev_status]. split; [|split; [done|split; [done|split; [|done] ] ] ].
  - split; cbn; try done; [|]; repeat split; try (by eauto).
    + unfold snprintf. rewrite length_take. unfold MAX_DEV_NAME in *. lia.
    + case_match; lia.
    + destruct (Z.ltb_spec 0 port); lia.
  - intros n [Hin|]%H7; [by apply not_elem_of_nil in Hin|done].
Qed.

Lemma mask_bits m cnt i : (cnt < 16)%nat -> 0 <= i < 16 ->
  Z.testbit (u16 (Z.lor m (Z.shiftl 1 (Z.of_nat cnt)))) i = true <-> Z.testbit m i = true \/ i = Z.of_nat cnt.
Proof.
  intros Hc Hi. unfold u16. rewrite Z.mod_pow2_bits_low by lia. rewrite Z.lor_spec, orb_true_iff, Z.shiftl_1_l.
  rewrite Z.pow2_bits_eqb by lia. rewrite Z.eqb_eq. intuition lia.
Qed.

Lemma valid_type t : IS_VALID_HS_NET_DEV_TYPE t = true -> 0 <= t <= 4.
Proof. unfold IS_VALID_HS_NET_DEV_TYPE. rewrite !orb_true_iff, !Z.eqb_eq. unfold TRADITIONAL_ETHERNET, TSN, WIFI, LTE_MODULE, NR_MODULE. lia. Qed.

Lemma valid_status s : IS_VALID_HS_NET_DEV_STATUS s = true -> s = HS_NET_DEV_INACTIVE \/ s = HS_NET_DEV_ACTIVE.
Proof. unfold IS_VALID_HS_NET_DEV_STATUS. by rewrite !orb_true_iff, !Z.eqb_eq. Qed.

Lemma refused_result env cnt w : dev_result env cnt w w None.
Proof. split; [exists (active_mask (w_eng w)); by destruct w as [? ? ? ? [] ]|done]. Qed.

Lemma ids_spec env ini cnt name address w :
  dict_wf ini -> (length name <= MAX_DEV_NAME)%nat -> (cnt < 16)%nat ->
  length address = 16%nat -> Forall is_byte address -> nodes_fresh env (w_node w) cnt ->
  returns_or_null (valueless ini) (init_hs_dev_ids env ini cnt name address w) (fun rw => dev_result env cnt w (snd rw) (fst rw)).
Proof.
  intros Hw Hn Hc Ha1 Ha2 Hf. unfold init_hs_dev_ids.
  eapply or_null_bind; [by apply item_or_null|]. intros id Hid.
  destruct (Z.eqb_spec id (-1)) as [|Hid1]; [by apply or_null_done, refused_result|].
  eapply or_null_bind; [by apply item_or_null|]. intros ty _.
  destruct (IS_VALID_HS_NET_DEV_TYPE ty) eqn:Ety; cbn [negb]; [|by apply or_null_done, refused_result].
  eapply or_null_bind; [by apply item_or_null|]. intros st _.
  destruct (IS_VALID_HS_NET_DEV_STATUS st) eqn:Est; cbn [negb]; [|by apply or_null_done, refused_result].
  set (w1 := if st =? HS_NET_DEV_ACTIVE then _ else w).
  assert (same_but_nodes_mask w w1 /\ w_node w1 = w_node w /\
          mask_updated (active_mask (w_eng w)) (active_mask (w_eng w1)) cnt (st = HS_NET_DEV_ACTIVE)) as (Hs1 & Hn1 & Hm1).
  { unfold w1. destruct (Z.eqb_spec st HS_NET_DEV_ACTIVE) as [E|E].
    - split; [by eexists; destruct w as [? ? ? ? [] ]|]. split; [done|]. intros i Hi. cbn. rewrite mask_bits by done. intuition.
    - split; [apply (refused_result env cnt)|]. split; [done|]. intros i Hi. intuition. }
  eapply or_null_weaken; [apply (ns_spec env ini cnt name address id ty st w1); try done| |].
  { by apply valid_type. } { by apply valid_status. } { by rewrite Hn1. } { done. }
  intros [r w'] [Hs Hr]. cbn [fst snd] in *. unfold same_but_nodes in Hs. assert (w_eng w' = w_eng w1) as He by (by rewrite Hs).
  destruct Hs1 as [m Hs1]. split.
  - exists m. rewrite Hs at 1. rewrite Hs1. by destruct w.
  - destruct r as [d|]; [|by rewrite Hr]. destruct Hr as (H1 & H2 & H3 & H4 & ->). rewrite He, <- Hn1. done.
Qed.

Lemma dev_spec env ini cnt name w :
  dict_wf ini -> (cnt < 16)%nat -> pton6_ok (he_pton6 env) -> nodes_fresh env (w_node w) cnt ->
  returns_or_null (valueless ini) (init_hs_dev env ini cnt name w) (fun rw => dev_result env cnt w (snd rw) (fst rw)).
Proof.
  intros Hw Hc Hp Hf. unfold init_hs_dev. destruct (Nat.ltb_spec MAX_DEV_NAME (length name)).
  { apply or_null_done, refused_result. }
  destruct (getstring_total ini (dev_pro_item name (lit ":ip_addr")) None Hw) as [ip ->]. cbn [mbind outcome_bind].
  destruct (ip ≫= _) as [address|] eqn:E; [|by apply or_null_done, refused_result].
  destruct ip as [ip|]; [|done]. cbn in E. apply dev_ip_address_typed in E as [Ha1 Ha2]; [|done|done|].
  2:{ apply (Forall_replicate is_byte 16 0). unfold is_byte. lia. }
  by apply ids_spec.
Qed.

(** ** The table *)

Definition table_nodes (devs : list HighSpeedNetDevice) : list Z := mjoin (free_node_queue <$> devs).

(** [n] devices are set up in the array [set]; [N] is the node map before. *)
Record table_ok (N : gmap Z (option Z)) (n : nat) (set : list HighSpeedNetDevice) (mask : Z) (N' : gmap Z (option Z)) : Prop := {
  tk_len : length set = 16%nat;
  tk_num : (n <= 16)%nat;
  tk_dev : forall i d, set !! i = Some d -> if decide (i < n)%nat then hs_dev_ok d else d = zero_dev;
  tk_mask : forall i, 0 <= i < 16 -> Z.testbit mask i = true <->
    exists d, set !! Z.to_nat i = Some d /\ (Z.to_nat i < n)%nat /\ dev_status d = HS_NET_DEV_ACTIVE;
  tk_distinct : NoDup (table_nodes (take n set));
  tk_new : forall k, k ∈ table_nodes (take n set) -> N !! k = None;
  tk_nodes : nodes_added N N' (table_nodes (take n set)) }.

Lemma error_nodes l w k :
  w_node (fold_left (fun w d => free_nodes w (free_node_queue d)) l w) !! k =
  if decide (k ∈ table_nodes l) then None else w_node w !! k.
Proof.
  revert w. induction l as [|d l IH]; intros w; [by rewrite decide_False by apply not_elem_of_nil|].
  cbn [fold_left]. rewrite IH. unfold table_nodes. cbn [fmap list_fmap mjoin list_join]. cbn [free_nodes with_node w_node].
  rewrite fold_delete_lookup.
  destruct (decide (k ∈ mjoin (free_node_queue <$> l))) as [Hl|Hl]; [by rewrite decide_True by (apply elem_of_app; by right)|].
  destruct (decide (k ∈ free_node_queue d)) as [Hd|Hd]; [by rewrite decide_True by (apply elem_of_app; by left)|].
  rewrite decide_False; [done|]. rewrite elem_of_app. tauto.
Qed.

Lemma error_same l w : same_but_nodes w (fold_left (fun w d => free_nodes w (free_node_queue d)) l w).
Proof.
  revert w. induction l as [|d l IH]; intros w; [by destruct w|]. cbn [fold_left].
  unfold same_but_nodes in *. rewrite IH. done.
Qed.

Lemma table_nodes_insert set cnt d : (cnt < length set)%nat ->
  table_nodes (take (S cnt) (<[cnt := d]> set)) = table_nodes (take cnt set) ++ free_node_queue d.
Proof.
  intros Hc. rewrite (take_S_r _ _ d) by (by apply list_lookup_insert_eq). rewrite take_insert_ge by lia.
  unfold table_nodes. rewrite fmap_app, join_app. cbn [fmap list_fmap mjoin list_join]. by rewrite app_nil_r.
Qed.

(** The answers of malloc over the whole start-up: memory not in use. *)
Definition malloc_fresh (env : hs_env) (N : gmap Z (option Z)) : Prop :=
  (forall i j n, he_node env i j = Some n -> N !! n = None) /\
  (forall i j i' j' n, he_node env i j = Some n -> he_node env i' j' = Some n -> i = i' /\ j = j').

(** The nodes in use come from malloc, for the devices before [n]. *)
Definition from_malloc (env : hs_env) (n : nat) (set : list HighSpeedNetDevice) : Prop :=
  forall k, k ∈ table_nodes (take n set) -> exists i j, (i < n)%nat /\ he_node env i j = Some k.

Lemma table_step env N cnt set w w' d :
  table_ok N cnt set (active_mask (w_eng w)) (w_node w) -> from_malloc env cnt set -> malloc_fresh env N -> (cnt < 16)%nat ->
  dev_result env cnt w w' (Some d) ->
  table_ok N (S cnt) (<[cnt := d]> set) (active_mask (w_eng w')) (w_node w') /\ from_malloc env (S cnt) (<[cnt := d]> set).
Proof.
  intros [T1 T2 T3 T4 T5 T6 T7] Hfm [Hf Hu] Hc (_ & Hok & Hnd & Hadd & Hj & Hm). unfold from_malloc.
  rewrite table_nodes_insert by lia. assert (forall k, k ∈ table_nodes (take cnt set) -> k ∉ free_node_queue d) as Hdisj.
  { intros k (i & j & Hi & E)%Hfm (j' & E')%Hj. destruct (Hu _ _ _ _ _ E E') as [-> _]. lia. }
  split; [split|].
  - by rewrite length_insert.
  - lia.
  - intros i d'. destruct (decide (i = cnt)) as [->|Hne].
    + rewrite list_lookup_insert_eq by lia. intros [= <-]. rewrite decide_True by lia. done.
    + rewrite list_lookup_insert_ne by done. intros E. specialize (T3 _ _ E).
      destruct (decide (i < cnt)%nat), (decide (i < S cnt)%nat); done || lia.
  - intros i Hi. rewrite (Hm i Hi), (T4 i Hi). destruct (decide (Z.to_nat i = cnt)) as [E|Hne].
    + rewrite E, list_lookup_insert_eq by lia. split.
      * intros [(d' & _ & Hlt & _)|[_ Ha] ]; [lia|]. exists d. repeat split; [lia|done].
      * intros (d' & [= <-] & _ & Ha). right. split; [lia|done].
    + rewrite list_lookup_insert_ne by done. split.
      * intros [(d' & E & Hlt & Ha)|[E _] ]; [exists d'; repeat split; [done|lia|done]|lia].
      * intros (d' & E & Hlt & Ha). left. exists d'. repeat split; [done|lia|done].
  - rewrite table_nodes_insert by lia. apply NoDup_app. done.
  - rewrite table_nodes_insert by lia. intros k [Hk|(j & Hk)%Hj]%elem_of_app; [by apply T6|by eapply Hf].
  - rewrite table_nodes_insert by lia. intros k. rewrite Hadd. destruct (decide (k ∈ free_node_queue d)) as [H|H].
    + by rewrite decide_True by (apply elem_of_app; by right).
    + rewrite T7. destruct (decide (k ∈ table_nodes (take cnt set))) as [H'|H'].
      * by rewrite decide_True by (apply elem_of_app; by left).
      * rewrite decide_False; [done|]. rewrite elem_of_app. tauto.
  - intros k [(i & j & Hi & E)%Hfm|(j & E)%Hj]%elem_of_app; [exists i, j|exists cnt, j]; (split; [lia|done]).
Qed.

Lemma fresh_now env N cnt set w :
  table_ok N cnt set (active_mask (w_eng w)) (w_node w) -> from_malloc env cnt set -> malloc_fresh env N ->
  nodes_fresh env (w_node w) cnt.
Proof.
  intros T Hfm [Hf Hu]. split.
  - intros j n E. rewrite (tk_nodes _ _ _ _ _ T). destruct (decide (n ∈ table_nodes (take cnt set))) as [H|H]; [|by eapply Hf].
    destruct (Hfm _ H) as (i & j' & Hi & E'). destruct (Hu _ _ _ _ _ E E') as [-> _]. lia.
  - intros a b n E E'. by destruct (Hu _ _ _ _ _ E E').
Qed.

(** What the loop leaves in the world. *)
Definition init_result (w w' : world) (st : status) : Prop :=
  match st with
  | PROCESS_OK => exists n, dev_num (w_eng w') = Z.of_nat n /\
      table_ok (w_node w) n (w_devs w') (active_mask (w_eng w')) (w_node w')
  | _ => w_node w' = w_node w /\ w_devs w' = w_devs w /\ dev_num (w_eng w') = dev_num (w_eng w)
  end /\
  w_sess w' = w_sess w /\ w_pool w' = w_pool w /\ w_tx w' = w_tx w /\ w_closed w' = w_closed w /\ eng_tx (w_eng w') = eng_tx (w_eng w).

Lemma loop_spec env ini N w0 fuel cnt set w :
  dict_wf ini -> pton6_ok (he_pton6 env) -> malloc_fresh env N -> (cnt + fuel <= 16)%nat ->
  (cnt + fuel <= length (sections ini))%nat ->
  w_node w0 = N -> same_but_nodes_mask w0 w ->
  table_ok N cnt set (active_mask (w_eng w)) (w_node w) -> from_malloc env cnt set ->
  returns_or_null (valueless ini) (init_hs_loop env ini fuel cnt set w)
    (fun r => (fst r = PROCESS_OK \/ fst r = PROCESS_ERROR) /\ init_result w0 (snd r) (fst r)).
Proof.
  intros Hw Hp Hm Hc Hsec HN. revert cnt set w Hc Hsec. induction fuel as [|fuel IH]; intros cnt set w Hc Hsec [m Hs] T Hfm.
  { apply or_null_done. cbn [fst snd]. split; [by left|]. rewrite Hs. unfold init_result. cbn.
    split; [|done]. exists cnt. split; [done|]. rewrite HN. by rewrite Hs in T. }
  cbn [init_hs_loop]. rewrite getsecname_spec by done.
  destruct (lookup_lt_is_Some_2 (sections ini) cnt) as [name ->]; [lia|]. cbn [mbind outcome_bind].
  eapply or_null_bind; [apply (dev_spec env ini cnt name w); [done|lia|done|by eapply fresh_now]|].
  intros [r w1] Hr. cbn [fst snd] in *. destruct Hr as [ [m1 Hs1] Hr]. destruct r as [d|].
  - destruct (table_step env N cnt set w w1 d) as [T1 Hfm1]; try done; [lia|split; [by exists m1|done]|].
    apply (IH (S cnt) (<[cnt := d]> set) w1); try done; try lia.
    exists m1. rewrite Hs1 at 1. rewrite Hs. by destruct w0.
  - apply or_null_done. cbn [fst snd]. split; [by right|]. unfold hs_net_error.
    pose proof (error_same (take cnt set) w1) as He. split.
    + assert (w_devs (fold_left (fun w d => free_nodes w (free_node_queue d)) (take cnt set) w1) = w_devs w0 /\
              w_eng (fold_left (fun w d => free_nodes w (free_node_queue d)) (take cnt set) w1) = w_eng w1) as [-> ->]
        by (unfold same_but_nodes in He; rewrite He; cbn; rewrite Hs1, Hs; done).
      split; [|rewrite Hs1, Hs; done]. apply map_eq. intros k. rewrite error_nodes, Hr, (tk_nodes _ _ _ _ _ T), HN.
      destruct (decide (k ∈ table_nodes (take cnt set))) as [H|H]; [|done]. symmetry. by apply (tk_new _ _ _ _ _ T).
    + unfold same_but_nodes in He. rewrite He. cbn. by rewrite Hs1, Hs.
Qed.

Lemma start_table N N' : nodes_added N N' [] -> table_ok N 0 (replicate 16 zero_dev) 0 N'.
Proof.
  intros H. split; try done; cbn [take]; [lia| | |apply NoDup_nil_2|].
  - intros i d. rewrite lookup_replicate. intros [-> _]. by rewrite decide_False by lia.
  - intros i Hi. rewrite Z.testbit_0_l. split; [done|]. intros (d & _ & Hlt & _). lia.
  - intros k Hk. by apply not_elem_of_nil in Hk.
Qed.

Lemma empty_table env N : from_malloc env 0 (replicate 16 zero_dev) /\ nodes_added N N [].
Proof.
  split; [intros k Hk; by apply not_elem_of_nil in Hk|]. intros k. by rewrite decide_False by apply not_elem_of_nil.
Qed.

(** What start-up relies on: malloc answers memory not in use, inet_pton is
    right about sizes, and the engine is cleared. *)
Record hs_start_ok (env : hs_env) (w : world) : Prop := {
  hs_new : new_available (he_new env);
  hs_pton6 : pton6_ok (he_pton6 env);
  hs_fresh : malloc_fresh env (w_node w);
  hs_clear : active_mask (w_eng w) = 0 }.

(** The file has a section header with a colon in it. *)
Definition hs_file_valueless (env : hs_env) : Prop :=
  exists d, iniparser_load (he_new env) (he_lines env) (he_file env) = Done (Some d) /\ valueless d.

Lemma hs_init_run env w :
  hs_start_ok env w ->
  returns_or_null (hs_file_valueless env) (engine_init_hs_net_dev env w)
    (fun r => (fst r = PROCESS_OK \/ fst r = PROCESS_ERROR) /\ init_result w (snd r) (fst r)).
Proof.
  intros [Hn Hp Hm Hz]. unfold engine_init_hs_net_dev.
  assert (forall P, returns_or_null P (Done (PROCESS_ERROR, w))
    (fun r => (fst r = PROCESS_OK \/ fst r = PROCESS_ERROR) /\ init_result w (snd r) (fst r))) as Hrefuse
    by (intros P; apply or_null_done; split; [by right|done]).
  destruct (he_set env); cbn [negb]; [|apply Hrefuse].
  destruct (empty_table env (w_node w)) as [Hfm Ha].
  assert (exists r, iniparser_load (he_new env) (he_lines env) (he_file env) = Done r /\ forall d, r = Some d -> dict_wf d) as (ini & El & Hw).
  { destruct (he_file env) as [f|]; [|by exists None]. destruct (load_start (he_new env) (he_lines env) f Hn) as (d & Hd & _ & _ & ->).
    apply load_loop_total; [done|lia|lia]. }
  unfold hs_file_valueless. rewrite El. cbn [mbind outcome_bind]. destruct ini as [ini|].
  - specialize (Hw ini eq_refl). rewrite getnsec_spec by done. cbn [mbind outcome_bind].
    destruct (Z.eqb_spec (Z.of_nat (length (sections ini))) 0); [apply Hrefuse|].
    destruct (Z.ltb_spec MAX_HS_DEV_NUM (Z.of_nat (length (sections ini)))) as [|Hle]; [apply Hrefuse|].
    unfold MAX_HS_DEV_NUM in Hle. rewrite Nat2Z.id. eapply or_null_weaken;
      [apply (loop_spec env ini (w_node w) w); try done; [lia|by exists 0; destruct w|by apply start_table]|by exists ini|done].
  - apply or_null_done. cbn [fst snd]. split; [by left|]. split; [|done]. exists 0%nat. split; [done|]. cbn. rewrite Hz.
    by apply start_table.
Qed.


(** A check of [valued] by evaluation. *)
Lemma valued_check d :
  forallb (fun '(k, v) => match v with None => is_section k | Some _ => true end) (bindings d) = true -> valued d.
Proof.
  intros H k Hb. rewrite forallb_forall in H. apply elem_of_bindings, list_elem_of_In in Hb. by apply (H (k, None)).
Qed.

(** ** The file of the repository *)

(** hs_net_dev.ini *)
Definition hs_net_dev_ini : cstring := lit " [ens01]
 ip_addr 	    = 192.168.137.2
 dev_id		    = 0
 dev_type	    = 0
 dev_status	    = 1
 ns_name            = ns1
 tcp_listening_port = 8000
".

(** Memory is available and namespaces open as descriptor 7. *)
Definition demo_hs_env (file : list Z) : hs_env :=
  {| he_set := true; he_file := Some file; he_new := demo_new; he_lines := fun _ => demo_line_env;
     he_pton6 := fun _ => None; he_open := fun _ => 7;
     he_node := fun i j => if (j <? 10)%nat then Some (1000 + 10 * Z.of_nat i + Z.of_nat j) else None |}.

Lemma demo_malloc_fresh file mask last : malloc_fresh (demo_hs_env file) (w_node (demo_world mask last)).
Proof.
  split; [intros; apply lookup_empty|]. intros i j i' j' n. unfold demo_hs_env. cbn [he_node].
  destruct (Nat.ltb_spec j 10), (Nat.ltb_spec j' 10); try done. intros <-%(inj Some) E%(inj Some). lia.
Qed.


(** The missing value: the header of the first section looks like a key of the
    second. *)
Example colon_section_faults :
  engine_init_hs_net_dev (demo_hs_env (lit "[ens01:dev_id]
[ens01]
ip_addr = 192.168.137.2
")) (demo_world 0 (-1)) = Fault NullDeref.
Proof. vm_compute. reflexivity. Qed.
