(* ===== verification/DevConfigFile.v ===== *)
(** * DevConfigFile: the device table is the one the file describes

    A description of devices is written as a configuration file; start-up on
    that file builds the described table, in the order of the file.  Also the
    address macros: text, [struct in_addr] and [struct IPv4Address]. *)

From S2P Require Import Prelude Bytes HyperampQueueLemmas Message Session Device CString Dictionary DictionarySpec IniParser IniParserSpec DevConfig DevConfigSpec.
From stdpp Require Import base list numbers option gmap strings.
From Stdlib Require Import ZArith Lia.
#[local] Open Scope Z_scope.

(** ** Decimal text *)

Fixpoint dec_loop (fuel : nat) (n : Z) (acc : cstring) : cstring :=
  match fuel with
  | O => acc
  | S fuel => let acc := 48 + n mod 10 :: acc in if n <? 10 then acc else dec_loop fuel (n / 10) acc
  end.
Definition dec (n : Z) : cstring := dec_loop 19 n [].

Lemma hex_digit_dec d : 0 <= d < 10 -> hex_digit (48 + d) = Some d.
Proof. intros. unfold hex_digit. rewrite (proj2 (Z.leb_le 48 _)), (proj2 (Z.leb_le _ 57)) by lia. cbn [andb]. f_equal. lia. Qed.

Lemma digits_dec fuel n acc :
  0 <= n < 10 ^ Z.of_nat fuel -> exists k, 0 <= k /\
  forall a, digits_val 10 a (dec_loop fuel n acc) = digits_val 10 (a * 10 ^ k + n) acc.
Proof.
  revert n acc. induction fuel as [|fuel IH]; intros n acc Hn; cbn [dec_loop].
  - exists 0. split; [lia|]. intros a. f_equal. cbn in Hn. lia.
  - pose proof (Z.mod_pos_bound n 10). pose proof (Z.div_mod n 10). rewrite Nat2Z.inj_succ, Z.pow_succ_r in Hn by lia.
    assert (forall a l, digits_val 10 a (48 + n mod 10 :: l) = digits_val 10 (a * 10 + n mod 10) l) as Hstep.
    { intros a l. cbn [digits_val]. rewrite hex_digit_dec by lia. by rewrite (proj2 (Z.ltb_lt (n mod 10) 10)) by lia. }
    destruct (Z.ltb_spec n 10).
    + exists 1. split; [lia|]. intros a. rewrite Hstep. f_equal. rewrite Z.mod_small; lia.
    + destruct (IH (n / 10) (48 + n mod 10 :: acc)) as (k & Hk & E); [split; [apply Z.div_pos; lia|apply Z.div_lt_upper_bound; lia]|].
      exists (k + 1). split; [lia|]. intros a. rewrite E, Hstep. f_equal. rewrite Z.pow_add_r by lia. lia.
Qed.

Definition digit (c : Z) : bool := (48 <=? c) && (c <=? 57).

Lemma dec_digits fuel n acc : forallb digit acc = true -> forallb digit (dec_loop fuel n acc) = true.
Proof.
  revert n acc. induction fuel as [|fuel IH]; intros n acc Ha; [done|]. cbn [dec_loop]. pose proof (Z.mod_pos_bound n 10).
  assert (forallb digit (48 + n mod 10 :: acc) = true) as H1 by (cbn [forallb]; rewrite Ha; unfold digit; lia).
  destruct (n <? 10); [done|by apply IH].
Qed.

(** The first digit of a positive number is not zero. *)
Lemma dec_head fuel n acc : 0 < n < 10 ^ Z.of_nat fuel -> exists c l, dec_loop fuel n acc = c :: l /\ 49 <= c <= 57.
Proof.
  revert n acc. induction fuel as [|fuel IH]; intros n acc Hn; [cbn in Hn; lia|]. cbn [dec_loop].
  rewrite Nat2Z.inj_succ, Z.pow_succ_r in Hn by lia. destruct (Z.ltb_spec n 10).
  - exists (48 + n mod 10), acc. split; [done|]. rewrite Z.mod_small; lia.
  - apply IH. split; [apply Z.div_str_pos; lia|apply Z.div_lt_upper_bound; lia].
Qed.

Lemma strtol0_dec n : 0 <= n <= LONG_MAX -> n < 10 ^ 19 -> strtol0 (dec n) = n.
Proof.
  intros Hn Hf. destruct (Z.eq_dec n 0) as [->|Hne]; [done|]. unfold dec.
  destruct (dec_head 19 n [] ltac:(change (Z.of_nat 19) with 19; lia)) as (c & l & E & Hc).
  destruct (digits_dec 19 n []) as (k & _ & Hd); [change (Z.of_nat 19) with 19; lia|].
  specialize (Hd 0). rewrite Z.mul_0_l, Z.add_0_l in Hd. rewrite E in *. unfold strtol0. cbn [drop_while].
  assert (isspace c = false) as -> by (unfold isspace; lia).
  rewrite (proj2 (Z.eqb_neq c 45)), (proj2 (Z.eqb_neq c 43)) by lia. unfold magnitude.
  rewrite (proj2 (Z.eqb_neq c 48)), Hd by lia. cbn [digits_val]. lia.
Qed.

Lemma int_of_long_id z : - 2 ^ 31 <= z < 2 ^ 31 -> int_of_long z = z.
Proof. intros. unfold int_of_long. rewrite Z.mod_small; lia. Qed.

(** ** Addresses *)

Definition ipv4_text (a b c d : Z) : cstring := dec a ++ [46] ++ dec b ++ [46] ++ dec c ++ [46] ++ dec d.

(** One octet of the text. *)
Lemma pton4_octet o rest tmp k :
  0 <= o < 256 -> 0 <= k < 4 -> stops digit rest = true ->
  pton4_loop (dec o ++ rest) tmp 0 k false = pton4_loop rest tmp o (k + 1) true.
Proof.
  intros Ho Hk Hr. assert (forall m tmp cur, 0 <= m < 10 -> 0 <= cur -> cur * 10 + m < 256 -> cur <> 0 -> forall r,
    pton4_loop (48 + m :: r) tmp cur (k + 1) true = pton4_loop r tmp (cur * 10 + m) (k + 1) true) as Hnext.
  { intros m t cur Hm Hc Hlt Hne r. cbn [pton4_loop]. rewrite (proj2 (Z.leb_le 48 _)), (proj2 (Z.leb_le _ 57)) by lia.
    cbn [andb]. rewrite (proj2 (Z.eqb_neq cur 0)), (proj2 (Z.ltb_ge 255 _)) by lia. f_equal. lia. }
  assert (forall m r, 0 <= m < 10 -> pton4_loop (48 + m :: r) tmp 0 k false = pton4_loop r tmp m (k + 1) true) as Hfirst.
  { intros m r Hm. cbn [pton4_loop]. rewrite (proj2 (Z.leb_le 48 _)), (proj2 (Z.leb_le _ 57)) by lia.
    cbn [andb]. rewrite (proj2 (Z.ltb_ge 255 _)), (proj2 (Z.ltb_ge 4 _)) by lia. f_equal. lia. }
  pose proof (Z.mod_pos_bound o 10). pose proof (Z.div_mod o 10). pose proof (Z.mod_pos_bound (o / 10) 10).
  pose proof (Z.div_mod (o / 10) 10). pose proof (Z.div_pos o 10). pose proof (Z.div_pos (o / 10) 10).
  unfold dec. cbn [dec_loop]. destruct (Z.ltb_spec o 10).
  { cbn [app]. rewrite Hfirst by lia. f_equal. rewrite Z.mod_small; lia. }
  destruct (Z.ltb_spec (o / 10) 10).
  { cbn [app]. rewrite Hfirst, Hnext by lia. f_equal. lia. }
  rewrite (proj2 (Z.ltb_lt (o / 10 / 10) 10)) by lia. cbn [app].
  assert (o / 10 / 10 < 10) by lia. rewrite (Z.mod_small (o / 10 / 10)) by lia.
  rewrite Hfirst, !Hnext by lia. f_equal. lia.
Qed.

Lemma pton4_dot r tmp cur k : k <> 4 -> pton4_loop ([46] ++ r) tmp cur k true = pton4_loop r (cur :: tmp) 0 k false.
Proof. intros Hk. cbn. by rewrite (proj2 (Z.eqb_neq k 4)). Qed.

Lemma pton4_text a b c d : is_byte a -> is_byte b -> is_byte c -> is_byte d -> inet_pton4 (ipv4_text a b c d) = Some [a; b; c; d].
Proof.
  unfold is_byte. intros Ha Hb Hc Hd. unfold inet_pton4, ipv4_text.
  do 3 (rewrite pton4_octet, pton4_dot by (done || lia)). rewrite <- (app_nil_r (dec d)), pton4_octet by (done || lia). done.
Qed.

(** The conversions to and from [struct in_addr]. *)
Lemma ntohl_bytes a b c d : is_byte a -> is_byte b -> is_byte c -> is_byte d ->
  ntohl (le_val [a; b; c; d]) = ((a * 256 + b) * 256 + c) * 256 + d.
Proof.
  intros Ha Hb Hc Hd. unfold ntohl. pose proof (le_bytes_val [a; b; c; d]) as E. cbn [length] in E.
  rewrite E by (by repeat apply Forall_cons_2; try apply Forall_nil_2). cbn [rev app le_val]. lia.
Qed.

Lemma COPY_IN_bytes_of a b c d : is_byte a -> is_byte b -> is_byte c -> is_byte d ->
  COPY_IN_TO_IPV4 (le_val [a; b; c; d]) = [a; b; c; d].
Proof.
  intros Ha Hb Hc Hd. unfold COPY_IN_TO_IPV4. rewrite ntohl_bytes by done. unfold is_byte in *.
  change 0xFF with (Z.ones 8). rewrite !Z.shiftr_div_pow2, !Z.land_ones by lia.
  change (2 ^ 24) with 16777216. change (2 ^ 16) with 65536. change (2 ^ 8) with 256.
  repeat f_equal; Z.to_euclidean_division_equations; lia.
Qed.

Lemma COPY_IPV4_to_in a b c d : is_byte a -> is_byte b -> is_byte c -> is_byte d ->
  COPY_IPV4_TO_IN a b c d = le_val [a; b; c; d].
Proof.
  intros Ha Hb Hc Hd. unfold COPY_IPV4_TO_IN, htonl.
  assert (u32 (Z.shiftl a 24) = Z.shiftl a 24) as ->.
  { unfold is_byte in *. apply u32_id. rewrite Z.shiftl_mul_pow2 by lia. lia. }
  assert (Z.lor (Z.lor (Z.lor (Z.shiftl a 24) (Z.shiftl b 16)) (Z.shiftl c 8)) d = ((a * 256 + b) * 256 + c) * 256 + d) as ->.
  { rewrite (Z.lor_comm _ d), (Z.lor_comm _ (Z.shiftl c 8)), (Z.lor_comm (Z.shiftl a 24)), !Z.lor_assoc. unfold is_byte in *.
    change 8 with (1 * 8) at 1. rewrite (lor_shift_add d c 1) by lia.
    change 16 with (2 * 8). rewrite (lor_shift_add _ b 2) by lia. change 24 with (3 * 8). rewrite (lor_shift_add _ a 3) by lia. lia. }
  unfold ntohl. replace (((a * 256 + b) * 256 + c) * 256 + d) with (le_val [d; c; b; a]) by (cbn [le_val]; lia).
  pose proof (le_bytes_val [d; c; b; a]) as E. cbn [length] in E.
  by rewrite E by (by repeat apply Forall_cons_2; try apply Forall_nil_2).
Qed.

(** An IPv4 address survives the journey from the configuration file to
    bind: the text of an address is read to its four bytes in the device's
    union, and the listener is bound to exactly those bytes in network order,
    on the device's port in network order. *)
Theorem ipv4_text_to_bind pton6 a b c d fd port :
  is_byte a -> is_byte b -> is_byte c -> is_byte d -> fd <> -1 -> 0 < port ->
  exists addr, dev_ip_address pton6 (ipv4_text a b c d) (replicate 16 0) = Some addr /\ take 4 addr = [a; b; c; d] /\
  forall dev, dev_address dev = addr -> tcp_listening_port dev = port ->
  exists dev', create_hs_net_dev_tcp_listener {| ln_socket := fd; ln_bind := true; ln_listen := true |} true (Some dev) SESS_IPV4_PROTO =
    Done (PROCESS_OK, Some dev', Some (htons port, le_val [a; b; c; d]), []) /\ tcp_listener dev' = fd.
Proof.
  intros Ha Hb Hc Hd Hf Hp. eexists. split.
  { unfold dev_ip_address, DEV_IP_TYPE. rewrite pton4_text by done. rewrite COPY_IN_bytes_of by done. reflexivity. }
  split; [done|]. intros dev E1 E2. unfold create_hs_net_dev_tcp_listener. rewrite E1, E2.
  rewrite (proj2 (Z.leb_gt port 0)) by lia. change (SESS_IPV4_PROTO =? SESS_IPV4_PROTO) with true.
  cbn [negb ln_socket ln_bind ln_listen app].
  rewrite (proj2 (Z.eqb_neq fd (-1))), COPY_IPV4_to_in by done. eexists. split; reflexivity.
Qed.

(** ** Descriptions of devices, and the file they are written to *)

Record dev_conf := {
  dc_name : cstring; dc_ip : Z * Z * Z * Z; dc_id : Z; dc_type : Z; dc_status : Z; dc_ns : cstring; dc_port : Z }.

Definition dc_ip_text (c : dev_conf) : cstring := let '(p, q, r, s) := dc_ip c in ipv4_text p q r s.
Definition dc_ip_bytes (c : dev_conf) : list Z := let '(p, q, r, s) := dc_ip c in [p; q; r; s].

Definition conf_values (c : dev_conf) : list (cstring * cstring) :=
  [(lit "ip_addr", dc_ip_text c); (lit "dev_id", dec (dc_id c)); (lit "dev_type", dec (dc_type c));
   (lit "dev_status", dec (dc_status c)); (lit "ns_name", dc_ns c); (lit "tcp_listening_port", dec (dc_port c))].

Definition value_line (k v : cstring) : ini_line := IValue [] k [32] [32] v [] [].
Definition conf_lines (c : dev_conf) : list ini_line :=
  ISection [] (dc_name c) [] :: List.map (fun '(k, v) => value_line k v) (conf_values c) ++ [IBlank []].
Definition conf_file (cs : list dev_conf) : list Z := print_ini (mjoin (conf_lines <$> cs)).

(** A name of at most 20 characters: with 21 the key of the port does not fit
    the 40 bytes of [dev_pro_item]. *)
Record conf_ok (c : dev_conf) : Prop := {
  co_name : line_ok (ISection [] (dc_name c) []) = true;
  co_colon : is_section (dc_name c) = true;
  co_len : (length (dc_name c) <= 20)%nat;
  co_ip : Forall is_byte (dc_ip_bytes c);
  co_id : 0 <= dc_id c < 2 ^ 31;
  co_type : 0 <= dc_type c <= 4;
  co_status : dc_status c = HS_NET_DEV_INACTIVE \/ dc_status c = HS_NET_DEV_ACTIVE;
  co_ns : line_ok (value_line (lit "ns_name") (dc_ns c)) = true;
  co_port : 0 <= dc_port c < 2 ^ 31 }.

(** ** The lines are well formed *)

Definition numeric (v : cstring) : bool := forallb (fun c => (46 <=? c) && (c <=? 57)) v.

Lemma numeric_no v c : numeric v = true -> (46 <=? c) && (c <=? 57) = false -> strchr v c = false.
Proof.
  intros Hv Hc. apply not_true_iff_false. intros (x & Hx & ->%Z.eqb_eq)%existsb_exists.
  unfold numeric in Hv. rewrite forallb_forall in Hv. specialize (Hv c Hx). congruence.
Qed.

Lemma numeric_stops v : numeric v = true -> stops isspace v = true.
Proof. destruct v as [|c v]; [done|]. unfold numeric. cbn. intros [H _]%andb_true_iff. unfold isspace. lia. Qed.

Lemma numeric_last x v : v <> [] -> numeric v = true -> last (strip_end (x ++ v)) = last v /\ default 0 (last v) <> 92.
Proof.
  intros Hne Hv. assert (numeric (rev v) = true) as Hr by (unfold numeric; by rewrite forallb_rev).
  rewrite <- (app_nil_r (x ++ v)), strip_end_blanks; [|rewrite rev_app_distr|done].
  - rewrite !last_rev_head, rev_app_distr. destruct (rev v) as [|c l] eqn:E.
    { apply (f_equal (@rev Z)) in E. by rewrite rev_involutive in E. }
    cbn. split; [done|]. unfold numeric in Hr. cbn in Hr. apply andb_true_iff in Hr as [Hc _]. lia.
  - destruct (rev v) as [|c l] eqn:E; [apply (f_equal (@rev Z)) in E; by rewrite rev_involutive in E|].
    by apply numeric_stops in Hr.
Qed.

(** A key the configuration uses. *)
Definition key_ok (k : cstring) : bool :=
  (length k <=? 100)%nat && forallb plain k && word k && negb (strchr k 61) && negb (strchr [35; 59; 91] (default 0 (head k))).

Lemma numeric_line k v : key_ok k = true -> v <> [] -> numeric v = true -> (length v <= 100)%nat -> line_ok (value_line k v) = true.
Proof.
  unfold key_ok. rewrite !andb_true_iff. intros ((((Hl & Hp) & Hw) & H61) & Hh) Hne Hv Hlen. apply Nat.leb_le in Hl.
  unfold line_ok, value_line. cbn [line_text app]. rewrite app_nil_r.
  change (32 :: 61 :: 32 :: v) with ([32; 61; 32] ++ v). rewrite (app_assoc k).
  destruct (numeric_last (k ++ [32; 61; 32]) v Hne Hv) as [-> H92].
  pose proof (numeric_stops v Hv). pose proof (numeric_stops (rev v)). unfold trimmed.
  assert (numeric (rev v) = true) as Hrev by (unfold numeric; by rewrite forallb_rev).
  rewrite !andb_true_iff. repeat split; try done; try (by apply numeric_stops); try (by apply negb_true_iff, numeric_no).
  - apply Nat.leb_le. rewrite !length_app. cbn [length]. lia.
  - rewrite !forallb_app, Hp. cbn [andb]. apply forallb_forall. intros c Hc. unfold numeric in Hv.
    rewrite forallb_forall in Hv. specialize (Hv c Hc). unfold plain. lia.
  - by apply negb_true_iff, Z.eqb_neq.
  - apply negb_true_iff. destruct v as [|c v]; [done|]. unfold numeric in Hv.
    cbn [forallb head default from_option id strchr existsb] in *. apply andb_true_iff in Hv as [Hc _]. lia.
Qed.

Lemma dec_loop_length fuel n acc : (length (dec_loop fuel n acc) <= fuel + length acc)%nat.
Proof.
  revert n acc. induction fuel as [|fuel IH]; intros n acc; [done|]. cbn [dec_loop]. destruct (n <? 10); cbn [length]; [lia|].
  specialize (IH (n / 10) (48 + n mod 10 :: acc)). cbn [length] in IH. lia.
Qed.

Lemma dec_text n : dec n <> [] /\ numeric (dec n) = true /\ (length (dec n) <= 19)%nat.
Proof.
  split; [|split].
  - unfold dec. assert (forall fuel n acc, acc <> [] -> dec_loop fuel n acc <> []) as H.
    { induction fuel as [|fuel IH]; intros m acc Ha; [done|]. cbn [dec_loop]. destruct (m <? 10); [done|by apply IH]. }
    assert (forall fuel, dec_loop (S fuel) n [] <> []) as H1; [|apply (H1 18%nat)].
    intros fuel. cbn [dec_loop]. destruct (n <? 10); [done|by apply H].
  - pose proof (dec_digits 19 n [] eq_refl) as Hd. fold (dec n) in Hd. unfold numeric. rewrite forallb_forall in Hd |- *.
    intros c Hc. specialize (Hd c Hc). unfold digit in Hd. lia.
  - pose proof (dec_loop_length 19 n []) as H. cbn [length] in H. unfold dec. lia.
Qed.

Lemma ip_text_ok c : dc_ip_text c <> [] /\ numeric (dc_ip_text c) = true /\ (length (dc_ip_text c) <= 100)%nat.
Proof.
  unfold dc_ip_text. destruct (dc_ip c) as [ [ [p q] r] s]. unfold ipv4_text.
  destruct (dec_text p) as (H1 & N1 & L1), (dec_text q) as (_ & N2 & L2), (dec_text r) as (_ & N3 & L3), (dec_text s) as (_ & N4 & L4).
  split; [|split].
  - intros E. apply H1. by destruct (dec p).
  - unfold numeric in *. rewrite !forallb_app, N1, N2, N3, N4. done.
  - rewrite !length_app. cbn [length]. lia.
Qed.

Lemma conf_lines_ok c : conf_ok c -> Forall (fun l => line_ok l = true) (conf_lines c).
Proof.
  intros H. destruct (ip_text_ok c) as (I1 & I2 & I3).
  assert (forall k n, key_ok k = true -> line_ok (value_line k (dec n)) = true) as Hdec.
  { intros k n Hk. destruct (dec_text n) as (D1 & D2 & D3). apply numeric_line; (done || lia). }
  unfold conf_lines, conf_values. cbn [List.map app].
  repeat apply Forall_cons_2; try apply Forall_nil_2; try done; try apply H; try (by apply Hdec); by apply numeric_line.
Qed.

(** ** What the file means *)

Definition conf_bindings (c : dev_conf) : list (cstring * option cstring) :=
  (dc_name c, None) :: List.map (fun '(k, v) => (dc_name c ++ [58] ++ k, Some v)) (conf_values c).
Definition file_bindings (cs : list dev_conf) : list (cstring * option cstring) := mjoin (conf_bindings <$> cs).

Lemma values_effect name l acc :
  fold_left line_effect (List.map (fun '(k, v) => value_line k v) l) (name, acc) =
  (name, inserts (List.map (fun '(k, v) => (name ++ [58] ++ k, Some v)) l) acc).
Proof. revert acc. induction l as [|[k v] l IH]; intros acc; [done|]. cbn [List.map fold_left line_effect value_line fst snd]. by rewrite IH. Qed.

Lemma conf_effect c x acc : fold_left line_effect (conf_lines c) (x, acc) = (dc_name c, inserts (conf_bindings c) acc).
Proof.
  unfold conf_lines, conf_bindings. change (fold_left line_effect (?a :: ?b) ?s) with (fold_left line_effect b (line_effect s a)).
  rewrite fold_left_app. cbn [line_effect snd]. rewrite values_effect. done.
Qed.

Lemma inserts_app a b acc : inserts (a ++ b) acc = inserts b (inserts a acc).
Proof. apply fold_left_app. Qed.

Lemma file_meaning cs : ini_meaning (mjoin (conf_lines <$> cs)) = inserts (file_bindings cs) ∅.
Proof.
  unfold ini_meaning. generalize (@nil Z) (∅ : gmap cstring (option cstring)). induction cs as [|c cs IH]; intros x m; [done|].
  change (mjoin (conf_lines <$> c :: cs)) with (conf_lines c ++ mjoin (conf_lines <$> cs)).
  change (file_bindings (c :: cs)) with (conf_bindings c ++ file_bindings cs).
  by rewrite fold_left_app, conf_effect, IH, inserts_app.
Qed.

Lemma inserts_notin l acc k : k ∉ l.*1 -> inserts l acc !! k = acc !! k.
Proof.
  revert acc. induction l as [|[k' v] l IH]; intros acc; [done|]. cbn [fmap list_fmap fst]. rewrite not_elem_of_cons. intros [Hne Hl].
  change (inserts ((k', v) :: l) acc) with (inserts l (<[k' := v]> acc)). rewrite IH by done. by apply lookup_insert_ne.
Qed.

(** With distinct keys the insertions are the map. *)
Lemma inserts_distinct l k v : NoDup l.*1 -> inserts l ∅ !! k = Some v <-> (k, v) ∈ l.
Proof.
  assert (forall acc : gmap cstring (option cstring), NoDup l.*1 -> k ∉ l.*1 \/ acc !! k = None ->
          inserts l acc !! k = Some v <-> (k, v) ∈ l \/ acc !! k = Some v) as H.
  { induction l as [|[k' v'] l IH]; intros acc; cbn [fmap list_fmap fst].
    { intros _ _. change (inserts [] acc) with acc. split; [by right|]. intros [H%elem_of_nil|]; done. }
    rewrite NoDup_cons, not_elem_of_cons. intros [Hk Hl] Hd. change (inserts ((k', v') :: l) acc) with (inserts l (<[k' := v']> acc)).
    rewrite elem_of_cons. destruct (decide (k = k')) as [->|Hne].
    - rewrite inserts_notin, lookup_insert_eq by done. destruct Hd as [ [? _]|Hd]; [done|]. rewrite Hd. split.
      + intros [= ->]. auto.
      + intros [ [ [= ->]|Hin]|?]; [done| |done]. destruct Hk. apply list_elem_of_fmap. by exists (k', v).
    - rewrite IH, lookup_insert_ne; [|done|done|rewrite lookup_insert_ne by done; tauto]. split; [tauto|].
      intros [ [ [= -> ->]|?]|?]; tauto. }
  intros Hl. rewrite (H ∅), lookup_empty; [|done|right; apply lookup_empty]. split; [intros [|]; done|auto].
Qed.

(** The keys of one device, and of two devices, are distinct. *)
Lemma conf_keys_prefix c k : k ∈ (conf_bindings c).*1 -> k = dc_name c \/ take (length (dc_name c) + 1) k = dc_name c ++ [58].
Proof.
  unfold conf_bindings. cbn [fmap list_fmap fst]. rewrite elem_of_cons. intros [->|H]; [by left|right].
  apply list_elem_of_fmap in H as ([k' v'] & -> & H). apply list_elem_of_In, in_map_iff in H as ([k v] & [= <- <-] & _). cbn [fst].
  change (58 :: k) with ([58] ++ k). rewrite app_assoc, firstn_app, take_ge by (rewrite length_app; cbn; lia). rewrite length_app. cbn [length].
  by rewrite Nat.sub_diag, take_0, app_nil_r.
Qed.

Lemma conf_keys_distinct c : is_section (dc_name c) = true -> NoDup (conf_bindings c).*1.
Proof.
  intros Hs. unfold conf_bindings. cbn [fmap list_fmap fst]. apply NoDup_cons. split.
  - intros H. apply list_elem_of_fmap in H as ([k' v'] & E & H). apply list_elem_of_In, in_map_iff in H as ([k v] & [= <- <-] & _).
    cbn [fst] in E. unfold is_section in Hs. rewrite E, strchr_app in Hs. cbn in Hs. by rewrite orb_true_r in Hs.
  - replace ((List.map _ _).*1) with ((fun k => dc_name c ++ [58] ++ k) <$> (conf_values c).*1).
    + apply NoDup_fmap_2; [intros x y E; apply app_inv_head in E; by injection E|].
      apply (bool_decide_unpack (NoDup (conf_values c).*1)). vm_compute. exact I.
    + generalize (conf_values c) as l. induction l as [|[k v] l IH]; [done|].
      cbn [List.map fmap list_fmap fst]. by f_equal.
Qed.

Definition names (cs : list dev_conf) : list cstring := dc_name <$> cs.

Lemma file_keys_distinct cs : Forall conf_ok cs -> NoDup (names cs) -> NoDup (file_bindings cs).*1.
Proof.
  induction cs as [|c cs IH]; intros Hok Hn; [apply NoDup_nil_2|]. apply Forall_cons in Hok as [Hc Hok].
  apply NoDup_cons in Hn as [Hnot Hn]. change (file_bindings (c :: cs)) with (conf_bindings c ++ file_bindings cs).
  rewrite fmap_app. apply NoDup_app. split; [by apply conf_keys_distinct, Hc|]. split; [|by apply IH].
  intros k Hk Hk'. apply list_elem_of_fmap in Hk' as ([k1 v1] & -> & Hk'). cbn [fst] in *.
  apply list_elem_of_join in Hk' as (l & Hl & Hin). apply list_elem_of_fmap in Hin as (c' & -> & Hin).
  assert (is_section (dc_name c') = true) as Hs' by (rewrite Forall_forall in Hok; by apply Hok).
  assert (dc_name c <> dc_name c') as Hne.
  { intros E. apply Hnot. rewrite E. apply list_elem_of_fmap. by exists c'. }
  assert (k1 ∈ (conf_bindings c').*1) as Hk1 by (apply list_elem_of_fmap; by exists (k1, v1)).
  pose proof (co_colon _ Hc) as Hs. apply conf_keys_prefix in Hk as [->|H1], Hk1 as [E2|H2]; [done| | |].
  - apply not_section in H2. congruence.
  - subst k1. apply not_section in H1. congruence.
  - apply Hne. by apply (section_unique _ _ k1).
Qed.

(** ** The order of the file *)

Definition add_keys (l : list cstring) (ks : list cstring) : list cstring := fold_left (fun ks k => add_key k ks) l ks.

Lemma add_keys_distinct l ks : NoDup (ks ++ l) -> add_keys l ks = ks ++ l.
Proof.
  revert ks. induction l as [|k l IH]; intros ks H; [by rewrite app_nil_r|].
  change (add_keys (k :: l) ks) with (add_keys l (add_key k ks)). unfold add_key.
  rewrite decide_False; [by rewrite IH; rewrite <- app_assoc|]. apply NoDup_app in H as (_ & H & _).
  intros Hk. apply (H k Hk). by left.
Qed.

Lemma conf_line_keys c x ks : fold_left line_keys (conf_lines c) (x, ks) = (dc_name c, add_keys (conf_bindings c).*1 ks).
Proof. done. Qed.

Lemma file_line_keys cs x ks : snd (fold_left line_keys (mjoin (conf_lines <$> cs)) (x, ks)) = add_keys (file_bindings cs).*1 ks.
Proof.
  revert x ks. induction cs as [|c cs IH]; intros x ks; [done|].
  change (mjoin (conf_lines <$> c :: cs)) with (conf_lines c ++ mjoin (conf_lines <$> cs)).
  change (file_bindings (c :: cs)) with (conf_bindings c ++ file_bindings cs).
  rewrite fold_left_app, conf_line_keys, IH, fmap_app. unfold add_keys. by rewrite fold_left_app.
Qed.

Lemma sections_filled d ks : filled d ks -> sections d = List.filter is_section ks.
Proof.
  intros [E _]. unfold sections. rewrite E, omap_app. generalize (d_size d - length ks)%nat as n. intros n.
  assert (omap id (Some <$> ks) = ks) as -> by (clear; induction ks as [|k ks IH]; [done|]; cbn; by f_equal).
  assert (omap id (replicate n (@None cstring)) = []) as -> by (by induction n). by rewrite app_nil_r.
Qed.

Lemma conf_sections cs : Forall conf_ok cs -> List.filter is_section (file_bindings cs).*1 = names cs.
Proof.
  induction 1 as [|c cs Hc _ IH]; [done|]. change (file_bindings (c :: cs)) with (conf_bindings c ++ file_bindings cs).
  rewrite fmap_app, List.filter_app, IH. change (names (c :: cs)) with ([dc_name c] ++ names cs). f_equal.
  unfold conf_bindings. cbn [fmap list_fmap fst List.filter]. rewrite (co_colon _ Hc). f_equal.
  assert (forall l, List.filter is_section (List.map (fun '(k, v) => (dc_name c ++ [58] ++ k, Some v)) l : list (cstring * option cstring)).*1 = []) as H; [|apply H].
  induction l as [|[k v] l IHl]; [done|]. cbn [List.map fmap list_fmap fst List.filter]. unfold is_section at 1.
  rewrite !strchr_app. cbn [strchr existsb Z.eqb]. rewrite orb_true_r. cbn [negb]. apply IHl.
Qed.

(** The table loaded from a description. *)
Lemma load_conf new env cs :
  new_available new -> (forall j, mem_available (env j)) -> Forall conf_ok cs -> NoDup (names cs) ->
  exists d, iniparser_load new env (Some (conf_file cs)) = Done (Some d) /\ dict_wf d /\
  represents d (inserts (file_bindings cs) ∅) /\ sections d = names cs /\ valued d.
Proof.
  intros Hn Hm Hok Hnd. destruct (load_order new env (mjoin (conf_lines <$> cs)) Hn Hm) as (d & Hd & Hw & Hr & Hf).
  { apply Forall_join, Forall_fmap. eapply Forall_impl; [exact Hok|]. intros c Hc. by apply conf_lines_ok. }
  rewrite file_meaning in Hr. unfold ini_keys in Hf. rewrite file_line_keys in Hf.
  pose proof (file_keys_distinct cs Hok Hnd) as Hk. rewrite add_keys_distinct in Hf by done. cbn [app] in Hf.
  exists d. split; [done|]. split; [done|]. split; [done|]. split; [by rewrite (sections_filled d _ Hf), conf_sections|].
  intros k Hb. apply Hr, inserts_distinct in Hb; [|done]. apply list_elem_of_join in Hb as (l & Hl & Hin).
  apply list_elem_of_fmap in Hin as (c & -> & Hin). rewrite Forall_forall in Hok.
  apply elem_of_cons in Hl as [ [= ->]|Hl]; [by apply Hok|]. by apply list_elem_of_In, in_map_iff in Hl as ([k' v'] & [= _ _] & _).
Qed.

(** ** The device a description stands for *)

Definition device_of (env : hs_env) (i : nat) (c : dev_conf) : HighSpeedNetDevice :=
  {| hs_dev_id := dc_id c; dev_type := dc_type c; ns_name := Some (dc_ns c);
     ns_id := he_open env (snprintf 256 (lit "/var/run/netns/" ++ dc_ns c)); dev_status := dc_status c;
     dev_name := dc_name c; udp_node_queue := []; tcp_node_queue := [];
     free_node_queue := omap (he_node env i) (seq 0 MAX_SESS_NODE_NUM); dev_address := dc_ip_bytes c ++ replicate 12 0;
     tcp_listening_port := dc_port c; tcp_listener := -1 |}.

Section Read.
Context (d : dictionary) (cs : list dev_conf) (Hw : dict_wf d) (Hr : represents d (inserts (file_bindings cs) ∅)).
Context (Hok : Forall conf_ok cs) (Hnd : NoDup (names cs)).

Lemma read_key c k v : c ∈ cs -> (k, v) ∈ conf_values c ->
  inserts (file_bindings cs) ∅ !! lookup_key (dev_pro_item (dc_name c) (58 :: k)) = Some (Some v).
Proof using Hok Hnd.
  intros Hc Hk. assert (conf_ok c) as H by (rewrite Forall_forall in Hok; by apply Hok).
  destruct (section_line_ok _ (co_name _ H)) as [Hword _]. apply word_spec in Hword as (_ & _ & Hlow).
  assert (forallb (fun x => plain x && negb (upper x)) k = true /\ (length k <= 18)%nat) as [Hkl Hklen].
  { unfold conf_values in Hk. repeat (apply elem_of_cons in Hk as [ [= -> _]|Hk]; [split; [vm_compute; reflexivity|vm_compute; lia]|]).
    by apply not_elem_of_nil in Hk. }
  assert (lookup_key (dev_pro_item (dc_name c) (58 :: k)) = dc_name c ++ [58] ++ k) as ->.
  { pose proof (co_len _ H). unfold dev_pro_item, snprintf, lookup_key, MAX_DEV_NAME, MAX_DEVICE_PROPERTY_NAME_LENGTH.
    rewrite take_ge by (rewrite length_app; cbn [length]; lia). apply strlwc_word.
    - change (58 :: k) with ([58] ++ k). by rewrite !forallb_app, Hlow, Hkl.
    - rewrite !length_app. cbn [length]. unfold ASCIILINESZ. lia. }
  apply inserts_distinct; [by apply file_keys_distinct|]. apply list_elem_of_join. exists (conf_bindings c).
  split; [|apply list_elem_of_fmap; by exists c]. right. apply list_elem_of_In, in_map_iff. exists (k, v). split; [done|by apply list_elem_of_In].
Qed.

Lemma read_string c n k v def : c ∈ cs -> conf_values c !! n = Some (k, v) ->
  iniparser_getstring (Some d) (dev_pro_item (dc_name c) (58 :: k)) def = Done (Some v).
Proof using Hok Hnd Hw Hr.
  intros Hc Hk%list_elem_of_lookup_2. by rewrite (getstring_spec d _ _ _ Hw Hr), (read_key c k v).
Qed.

Lemma read_int c i k n def : c ∈ cs -> conf_values c !! i = Some (k, dec n) -> 0 <= n < 2 ^ 31 ->
  iniparser_getint (Some d) (dev_pro_item (dc_name c) (58 :: k)) def = Done n.
Proof using Hok Hnd Hw Hr.
  intros Hc Hk%list_elem_of_lookup_2 Hn. rewrite (getint_spec d _ _ _ (dec n) Hw Hr) by (by apply read_key).
  rewrite strtol0_dec by (unfold LONG_MAX; lia). by rewrite int_of_long_id by lia.
Qed.

(** The nodes of a device when every malloc succeeds. *)
Lemma nodes_exact env cnt w :
  nodes_fresh env (w_node w) cnt -> (forall j, (j < MAX_SESS_NODE_NUM)%nat -> is_Some (he_node env cnt j)) ->
  exists w', make_nodes (he_node env cnt) MAX_SESS_NODE_NUM 0 w [] = Done (Some (omap (he_node env cnt) (seq 0 MAX_SESS_NODE_NUM)), w').
Proof.
  intros [Hf Hu] Ha. destruct (make_nodes_spec (he_node env cnt) MAX_SESS_NODE_NUM 0 w w []) as (q & w' & -> & _ & Hq); try done.
  { apply NoDup_nil_2. } { by destruct w. } { intros n Hin. by apply not_elem_of_nil in Hin. }
  { intros i n _ _. apply not_elem_of_nil. }
  exists w'. destruct q as [q|]; [|destruct Hq as (_ & i & Hi & E); destruct (Ha i) as [x Hx]; [lia|congruence] ].
  destruct Hq as (_ & Hl & _ & _ & Hq & _). do 3 f_equal. cbn [length Nat.add] in *.
  unfold MAX_SESS_NODE_NUM in *. do 11 (destruct q as [|? q]; [cbn in Hl; try lia|]); cbn in Hl; try lia. clear Ha Hf Hu Hl.
  cbn. by do 10 (erewrite (Hq _); [cbn|lia]).
Qed.

Context (env : hs_env) (Hopen : forall c, c ∈ cs -> 0 <= he_open env (snprintf 256 (lit "/var/run/netns/" ++ dc_ns c))).
Context (Hnodes : forall i j, (i < length cs)%nat -> (j < MAX_SESS_NODE_NUM)%nat -> is_Some (he_node env i j)).

Lemma ns_exact i c w :
  cs !! i = Some c -> nodes_fresh env (w_node w) i ->
  exists w', init_hs_dev_ns env d i (dc_name c) (dc_ip_bytes c ++ replicate 12 0) (dc_id c) (dc_type c) (dc_status c) w =
    Done (Some (device_of env i c), w').
Proof using Hok Hnd Hw Hr Hopen Hnodes.
  intros Hi Hf. assert (c ∈ cs) as Hc by (by eapply list_elem_of_lookup_2).
  assert (conf_ok c) as H by (rewrite Forall_forall in Hok; by apply Hok). pose proof (co_len _ H). pose proof (co_port _ H).
  unfold init_hs_dev_ns. change (lit ":ns_name") with (58 :: lit "ns_name").
  rewrite (read_string c 4 _ (dc_ns c)) by done. cbn [mbind outcome_bind]. unfold open_named_netns. pose proof (Hopen c Hc).
  rewrite (proj2 (Z.ltb_ge _ 0)) by done. rewrite (proj2 (Z.eqb_neq _ ERROR_NAMESPACE_ID)) by (unfold ERROR_NAMESPACE_ID; lia).
  change (lit ":tcp_listening_port") with (58 :: lit "tcp_listening_port").
  rewrite (read_int c 5 _ (dc_port c)) by done. cbn [mbind outcome_bind].
  destruct (nodes_exact env i w) as [w' ->]; [done|intros j Hj; apply Hnodes; [by eapply lookup_lt_Some|done]|].
  exists w'. cbn [mbind outcome_bind fst snd option_map]. unfold device_of, snprintf, MAX_DEV_NAME.
  rewrite (take_ge (dc_name c)) by lia. replace (if 0 <? dc_port c then dc_port c else 0) with (dc_port c); [done|].
  destruct (Z.ltb_spec 0 (dc_port c)); lia.
Qed.

Lemma ids_exact i c w :
  cs !! i = Some c -> nodes_fresh env (w_node w) i ->
  exists w', init_hs_dev_ids env d i (dc_name c) (dc_ip_bytes c ++ replicate 12 0) w = Done (Some (device_of env i c), w').
Proof using Hok Hnd Hw Hr Hopen Hnodes.
  intros Hi Hf. assert (c ∈ cs) as Hc by (by eapply list_elem_of_lookup_2).
  assert (conf_ok c) as [_ _ _ _ Hid Hty Hst _ _] by (rewrite Forall_forall in Hok; by apply Hok).
  unfold init_hs_dev_ids. change (lit ":dev_id") with (58 :: lit "dev_id").
  rewrite (read_int c 1 _ (dc_id c)) by done. cbn [mbind outcome_bind].
  rewrite (proj2 (Z.eqb_neq (dc_id c) (-1))) by lia. change (lit ":dev_type") with (58 :: lit "dev_type").
  rewrite (read_int c 2 _ (dc_type c)) by (done || lia). cbn [mbind outcome_bind].
  assert (IS_VALID_HS_NET_DEV_TYPE (dc_type c) = true) as ->
    by (unfold IS_VALID_HS_NET_DEV_TYPE, TRADITIONAL_ETHERNET, TSN, WIFI, LTE_MODULE, NR_MODULE; lia).
  cbn [negb]. change (lit ":dev_status") with (58 :: lit "dev_status").
  rewrite (read_int c 3 _ (dc_status c)) by (done || (destruct Hst as [-> | ->]; done)). cbn [mbind outcome_bind].
  assert (IS_VALID_HS_NET_DEV_STATUS (dc_status c) = true) as -> by (destruct Hst as [-> | ->]; done). cbn [negb].
  apply ns_exact; [done|]. by destruct (dc_status c =? HS_NET_DEV_ACTIVE).
Qed.

Lemma dev_exact i c w :
  cs !! i = Some c -> nodes_fresh env (w_node w) i -> exists w', init_hs_dev env d i (dc_name c) w = Done (Some (device_of env i c), w').
Proof using Hok Hnd Hw Hr Hopen Hnodes.
  intros Hi Hf. assert (c ∈ cs) as Hc by (by eapply list_elem_of_lookup_2).
  assert (conf_ok c) as H by (rewrite Forall_forall in Hok; by apply Hok). pose proof (co_len _ H). pose proof (co_ip _ H) as Hip.
  unfold init_hs_dev, MAX_DEV_NAME. rewrite (proj2 (Nat.ltb_ge 32 (length (dc_name c)))) by lia.
  change (lit ":ip_addr") with (58 :: lit "ip_addr"). rewrite (read_string c 0 _ (dc_ip_text c)) by done. cbn [mbind outcome_bind option_bind].
  assert (dev_ip_address (he_pton6 env) (dc_ip_text c) (dev_address zero_dev) = Some (dc_ip_bytes c ++ replicate 12 0)) as ->.
  { unfold dc_ip_text, dc_ip_bytes in *. destruct (dc_ip c) as [ [ [o1 o2] o3] o4]. rewrite !Forall_cons in Hip.
    destruct Hip as (I1 & I2 & I3 & I4 & _). unfold dev_ip_address, DEV_IP_TYPE. rewrite pton4_text by done.
    rewrite COPY_IN_bytes_of by done. done. }
  by apply ids_exact.
Qed.

Context (Hsec : sections d = names cs) (Hp6 : pton6_ok (he_pton6 env)).
Context (N : gmap Z (option Z)) (Hfresh : malloc_fresh env N) (Hlen : (length cs <= 16)%nat).

Definition described (set : list HighSpeedNetDevice) (n : nat) : Prop :=
  forall i c, (i < n)%nat -> cs !! i = Some c -> set !! i = Some (device_of env i c).

Lemma loop_exact fuel cnt set w :
  (cnt + fuel = length cs)%nat -> table_ok N cnt set (active_mask (w_eng w)) (w_node w) -> from_malloc env cnt set ->
  described set cnt ->
  exists w', init_hs_loop env d fuel cnt set w = Done (PROCESS_OK, w') /\ dev_num (w_eng w') = Z.of_nat (length cs) /\
  described (w_devs w') (length cs).
Proof using Hok Hnd Hw Hr Hopen Hnodes Hsec Hp6 Hfresh Hlen.
  revert cnt set w. induction fuel as [|fuel IH]; intros cnt set w Hc T Hfm Hd.
  { exists (set_dev_set w set (Z.of_nat cnt)). rewrite Nat.add_0_r in Hc. subst cnt. done. }
  cbn [init_hs_loop]. rewrite getsecname_spec, Hsec by done. unfold names. rewrite list_lookup_fmap.
  destruct (lookup_lt_is_Some_2 cs cnt) as [c Hi]; [lia|]. rewrite Hi. cbn [fmap option_fmap option_map mbind outcome_bind].
  assert (nodes_fresh env (w_node w) cnt) as Hf by (by eapply fresh_now).
  destruct (dev_exact cnt c w Hi Hf) as [w1 E]. rewrite E. cbn [mbind outcome_bind fst snd].
  assert (dev_result env cnt w w1 (Some (device_of env cnt c))) as Hres.
  { destruct (dev_spec env d cnt (dc_name c) w) as [([r w1'] & E' & Hres)|[E' _] ]; try done; [lia| |congruence].
    rewrite E in E'. by injection E' as <- <-. }
  destruct (table_step env N cnt set w w1 (device_of env cnt c)) as [T1 Hfm1]; try done; [lia|].
  apply IH; [lia|done|done|]. intros i c' Hlt Hi'. destruct (decide (i = cnt)) as [->|Hne].
  - rewrite Hi in Hi'. injection Hi' as <-. apply list_lookup_insert_eq. rewrite (tk_len _ _ _ _ _ T). lia.
  - rewrite list_lookup_insert_ne by done. apply Hd; [lia|done].
Qed.
End Read.

(** The device table is the one the file describes: for a list of one to
    sixteen devices with distinct names, start-up on the file that describes
    them, in order, succeeds and device [i] of the table has the [i]-th name,
    address, id, type, state, namespace and port, and ten session nodes; bit
    [i] of [active_mask] is set exactly when the [i]-th device is active. *)
Lemma hs_net_dev_file_read env cs w :
  Forall conf_ok cs -> NoDup (names cs) -> (1 <= length cs <= 16)%nat ->
  he_set env = true -> he_file env = Some (conf_file cs) -> new_available (he_new env) -> (forall j, mem_available (he_lines env j)) ->
  pton6_ok (he_pton6 env) -> (forall c, c ∈ cs -> 0 <= he_open env (snprintf 256 (lit "/var/run/netns/" ++ dc_ns c))) ->
  malloc_fresh env (w_node w) -> (forall i j, (i < length cs)%nat -> (j < MAX_SESS_NODE_NUM)%nat -> is_Some (he_node env i j)) ->
  exists w', engine_init_hs_net_dev env w = Done (PROCESS_OK, w') /\ dev_num (w_eng w') = Z.of_nat (length cs) /\
  (forall i c, cs !! i = Some c -> w_devs w' !! i = Some (device_of env i c)) /\
  (forall i c, cs !! i = Some c -> Z.testbit (active_mask (w_eng w')) (Z.of_nat i) = true <-> dc_status c = HS_NET_DEV_ACTIVE) /\
  init_result w w' PROCESS_OK.
Proof.
  intros Hok Hnd Hlen Hset Hfile Hnew Hmem Hp Hopen Hfresh Hnodes. unfold engine_init_hs_net_dev. rewrite Hset, Hfile. cbn [negb].
  destruct (load_conf _ _ _ Hnew Hmem Hok Hnd) as (d & -> & Hw & Hr & Hsec & _). cbn [mbind outcome_bind].
  assert (length (sections d) = length cs) as Hls by (rewrite Hsec; apply length_fmap).
  rewrite getnsec_spec, Hls by done. cbn [mbind outcome_bind].
  rewrite (proj2 (Z.eqb_neq _ 0)), (proj2 (Z.ltb_ge MAX_HS_DEV_NUM _)) by (unfold MAX_HS_DEV_NUM; lia). rewrite Nat2Z.id.
  destruct (empty_table env (w_node w)) as [Hfm Ha]. set (w0 := set_active_mask w 0).
  assert (table_ok (w_node w) 0 (replicate 16 zero_dev) (active_mask (w_eng w0)) (w_node w0)) as T by (by apply start_table).
  destruct (loop_exact d cs Hw Hr Hok Hnd env Hopen Hnodes Hsec Hp (w_node w) Hfresh (proj2 Hlen) (length cs) 0
    (replicate 16 zero_dev) w0) as (w' & E & Hn & Hd); [done|done|done|intros i c Hi; lia|].
  assert (init_result w w' PROCESS_OK) as Hres.
  { destruct (loop_spec env d (w_node w) w (length cs) 0 (replicate 16 zero_dev) w0) as [(r & E' & _ & Hres)|[E' _] ];
      try done; [lia|lia|by exists 0; destruct w| |congruence]. rewrite E in E'. by injection E' as <-. }
  change (Z.to_nat MAX_HS_DEV_NUM) with 16%nat.
  exists w'. split; [exact E|]. split; [done|]. pose proof Hres as [(n & Hn' & T') _].
  assert (n = length cs) as -> by lia. split; [intros i c Hi; apply Hd; [by eapply lookup_lt_Some|done]|].
  split; [|done]. intros i c Hi. pose proof (lookup_lt_Some _ _ _ Hi). pose proof (Hd i c ltac:(lia) Hi) as Hdev.
  rewrite (tk_mask _ _ _ _ _ T') by lia. rewrite Nat2Z.id, Hdev. split.
  - by intros (x & [= <-] & _ & Hs).
  - intros Hs. exists (device_of env i c). repeat split; [lia|done].
Qed.

(** ** Witnesses *)

Lemma ipv4_text_to_bind_witness :
  exists addr, dev_ip_address (fun _ => None) (ipv4_text 192 168 137 2) (replicate 16 0) = Some addr /\ take 4 addr = [192; 168; 137; 2].
Proof.
  destruct (ipv4_text_to_bind (fun _ => None) 192 168 137 2 5 8000) as (addr & H1 & H2 & _); unfold is_byte; try lia.
  exists addr. split; [exact H1|exact H2].
Defined.

Definition demo_confs : list dev_conf :=
  [{| dc_name := lit "ens01"; dc_ip := (192, 168, 137, 2); dc_id := 0; dc_type := 0; dc_status := 1; dc_ns := lit "ns1"; dc_port := 8000 |};
   {| dc_name := lit "wlan0"; dc_ip := (10, 0, 0, 255); dc_id := 1; dc_type := 2; dc_status := 0; dc_ns := lit "ns2"; dc_port := 0 |}].

Lemma demo_confs_ok : Forall conf_ok demo_confs /\ NoDup (names demo_confs).
Proof.
  split.
  - repeat apply Forall_cons_2; try apply Forall_nil_2; split; try (vm_compute; reflexivity); try (cbn; lia);
      try (vm_compute; lia); try (cbn; unfold is_byte; repeat apply Forall_cons_2; try apply Forall_nil_2; lia); (by left) || (by right).
  - apply (bool_decide_unpack (NoDup (names demo_confs))). vm_compute. exact I.
Qed.
