(* ===== verification/Endpoint.v ===== *)
(** * Endpoint: the text macros of include/session.h

    IPV4_STR_TO_ADDR and IPV4_PORT_STR_TO_TUPLE, which turn the text of an
    endpoint into the structure a create request carries.  %u is glibc's: an
    optional sign and decimal digits, converted by strtoul (64 bits, saturating)
    and stored in an unsigned int. *)

From S2P Require Import Prelude Bytes HyperampQueueLemmas CString Dictionary DictionarySpec IniParser IniParserSpec DevConfig DevConfigSpec DevConfigFile.
From stdpp Require Import base list numbers option strings.
From Stdlib Require Import ZArith Lia.
#[local] Open Scope Z_scope.

(** ** Model *)

Definition ULONG_MAX : Z := 2 ^ 64 - 1.
Definition isdigit (c : Z) : bool := (48 <=? c) && (c <=? 57).

(** strtoul of the digits [s], base 10, assigned to an unsigned int. *)
Definition uint_of_digits (neg : bool) (s : cstring) : Z :=
  let v := digits_val 10 0 s in
  u32 (if ULONG_MAX <? v then ULONG_MAX else if neg then u64 (- v) else v).

Definition scan_sign (s : cstring) : bool * cstring :=
  match s with
  | c :: s' => if c =? 45 then (true, s') else if c =? 43 then (false, s') else (false, s)
  | [] => (false, s)
  end.

(** [%u]: the value and what is left, or a matching failure. *)
Definition scan_u (s : cstring) : option (Z * cstring) :=
  let '(neg, s) := scan_sign (drop_while isspace s) in
  match take_while isdigit s with
  | [] => None
  | ds => Some (uint_of_digits neg ds, drop_while isdigit s)
  end.

Definition scan_char (c : Z) (s : cstring) : option cstring :=
  match s with c' :: s => if c' =? c then Some s else None | [] => None end.

(** [%n\[^c\]]: at most [n] characters up to the first [c]. *)
Definition scan_upto (n : nat) (c : Z) (s : cstring) : option (cstring * cstring) :=
  match take n (take_while (fun x => negb (x =? c)) s) with
  | [] => None
  | t => Some (t, drop (length t) s)
  end.

(** sscanf(ip_str, "%u.%u.%u.%u", ...) == 4. *)
Definition scan_quad (s : cstring) : option (Z * Z * Z * Z) :=
  '(a, s) ← scan_u s; s ← scan_char 46 s;
  '(b, s) ← scan_u s; s ← scan_char 46 s;
  '(c, s) ← scan_u s; s ← scan_char 46 s;
  '(d, _) ← scan_u s; Some (a, b, c, d).

(** [data]: the four bytes before; a refused text leaves them. *)
Definition IPV4_STR_TO_ADDR (ip_str : cstring) (data : list Z) : list Z :=
  match scan_quad ip_str with
  | Some (a, b, c, d) =>
      if (a <=? 255) && (b <=? 255) && (c <=? 255) && (d <=? 255) then [u8 a; u8 b; u8 c; u8 d] else data
  | None => data
  end.

Record IPv4PortTuple := { ipv4_addr : list Z; tuple_port : Z }.

(** sscanf(ip_port_str, "%15[^:]:%u", ip_str, &port) == 2. *)
Definition scan_endpoint (s : cstring) : option (cstring * Z) :=
  '(ip, s) ← scan_upto 15 58 s; s ← scan_char 58 s; '(port, _) ← scan_u s; Some (ip, port).

Definition IPV4_PORT_STR_TO_TUPLE (ip_port_str : cstring) (t : IPv4PortTuple) : IPv4PortTuple :=
  match scan_endpoint ip_port_str with
  | Some (ip_str, port) =>
      {| ipv4_addr := IPV4_STR_TO_ADDR ip_str (ipv4_addr t);
         tuple_port := if 65535 <? port then tuple_port t else u16 port |}
  | None => t
  end.

(** ** Properties *)

(** The text of an endpoint. *)
Definition endpoint_text (a b c d port : Z) : cstring := ipv4_text a b c d ++ [58] ++ dec port.

Example endpoint_text_ex : endpoint_text 192 168 137 2 8888 = lit "192.168.137.2:8888".
Proof. reflexivity. Qed.

(** A text that no address has: glibc wraps the sign into an octet. *)
Example negative_octet : IPV4_STR_TO_ADDR (lit "-4294967295.+2. 3.4x") [0; 0; 0; 0] = [1; 2; 3; 4].
Proof. reflexivity. Qed.

Example wrapped_port : tuple_port (IPV4_PORT_STR_TO_TUPLE (lit "1.2.3.4:-4294967216") {| ipv4_addr := []; tuple_port := 0 |}) = 80.
Proof. reflexivity. Qed.

(** The digits of a number read back by %u. *)
Lemma dec_loop_nonempty fuel n acc : acc <> [] -> dec_loop fuel n acc <> [].
Proof. revert n acc. induction fuel as [|fuel IH]; intros n acc Ha; [done|]. cbn [dec_loop]. case_match; [done|by apply IH]. Qed.

Lemma dec_loop_cons fuel n : dec_loop (S fuel) n [] <> [].
Proof. cbn [dec_loop]. case_match; [done|by apply dec_loop_nonempty]. Qed.

Lemma dec_cons n : exists c l, dec n = c :: l /\ isdigit c = true.
Proof.
  pose proof (dec_digits 19 n [] eq_refl) as H. fold (dec n) in H. destruct (dec n) as [|c l] eqn:E.
  - by apply dec_loop_cons in E.
  - exists c, l. cbn in H. apply andb_true_iff in H. tauto.
Qed.

Lemma scan_u_dec n rest :
  0 <= n < 2 ^ 32 -> stops isdigit rest = true -> scan_u (dec n ++ rest) = Some (n, rest).
Proof.
  intros Hn Hr. destruct (dec_cons n) as (c & l & E & Hc). unfold scan_u.
  assert (isspace c = false /\ c <> 45 /\ c <> 43) as (Hs & Hm & Hp) by (unfold isdigit, isspace in *; lia).
  assert (drop_while isspace (dec n ++ rest) = dec n ++ rest) as ->.
  { apply drop_while_stop. rewrite E. cbn. by rewrite Hs. }
  assert (scan_sign (dec n ++ rest) = (false, dec n ++ rest)) as ->.
  { rewrite E. cbn. by rewrite (proj2 (Z.eqb_neq c 45)), (proj2 (Z.eqb_neq c 43)). }
  assert (forallb isdigit (dec n) = true) as Hd by (by apply (dec_digits 19)).
  rewrite take_while_span, drop_while_span by done. rewrite E. cbv iota beta. rewrite <- E. do 2 f_equal. unfold uint_of_digits, ULONG_MAX.
  destruct (digits_dec 19 n []) as (k & _ & Hv); [change (10 ^ Z.of_nat 19) with 10000000000000000000; lia|].
  specialize (Hv 0). rewrite Z.mul_0_l, Z.add_0_l in Hv. fold (dec n) in Hv. cbn [digits_val] in Hv.
  rewrite Hv, (proj2 (Z.ltb_ge _ _)) by lia. apply u32_id. lia.
Qed.

Lemma octet_length o : 0 <= o < 256 -> (length (dec o) <= 3)%nat.
Proof.
  intros Ho. unfold dec. cbn [dec_loop]. destruct (o <? 10); [cbn; lia|]. destruct (o / 10 <? 10); [cbn; lia|].
  rewrite (proj2 (Z.ltb_lt (o / 10 / 10) 10)) by (Z.to_euclidean_division_equations; lia). cbn. lia.
Qed.

Lemma scan_quad_text a b c d :
  is_byte a -> is_byte b -> is_byte c -> is_byte d -> scan_quad (ipv4_text a b c d) = Some (a, b, c, d).
Proof.
  unfold is_byte. intros Ha Hb Hc Hd. unfold scan_quad, ipv4_text.
  do 3 (rewrite scan_u_dec by (done || lia); cbn [mbind option_bind app scan_char Z.eqb Pos.eqb]).
  rewrite <- (app_nil_r (dec d)), scan_u_dec by (done || lia). done.
Qed.

(** The text of an IPv4 address holds no colon and fits the sixteen bytes of
    the macro's buffer. *)
Lemma ipv4_text_plain a b c d :
  is_byte a -> is_byte b -> is_byte c -> is_byte d ->
  (length (ipv4_text a b c d) <= 15)%nat /\ forallb (fun x => negb (x =? 58)) (ipv4_text a b c d) = true /\
  exists x l, ipv4_text a b c d = x :: l.
Proof.
  unfold is_byte. intros Ha Hb Hc Hd. unfold ipv4_text. split; [|split].
  - rewrite !length_app. cbn [length]. pose proof (octet_length a Ha). pose proof (octet_length b Hb).
    pose proof (octet_length c Hc). pose proof (octet_length d Hd). lia.
  - assert (forall n, forallb (fun x => negb (x =? 58)) (dec n) = true) as H.
    { intros n. pose proof (dec_digits 19 n [] eq_refl) as Hf. fold (dec n) in Hf.
      rewrite forallb_forall in *. intros x Hx. specialize (Hf x Hx). unfold digit in Hf. lia. }
    rewrite !forallb_app, !H. done.
  - destruct (dec_cons a) as (x & l & -> & _). by eexists _, _.
Qed.

(** C35. An endpoint survives its text: for every address and port,
    IPV4_PORT_STR_TO_TUPLE reads from "a.b.c.d:port" exactly the four octets
    and the port, whatever the structure held before. *)
Theorem endpoint_roundtrip a b c d port t :
  is_byte a -> is_byte b -> is_byte c -> is_byte d -> 0 <= port < 65536 ->
  IPV4_PORT_STR_TO_TUPLE (endpoint_text a b c d port) t = {| ipv4_addr := [a; b; c; d]; tuple_port := port |}.
Proof.
  intros Ha Hb Hc Hd Hp. destruct (ipv4_text_plain a b c d) as (Hlen & Hcolon & x & l & E); [done..|].
  unfold IPV4_PORT_STR_TO_TUPLE, scan_endpoint, scan_upto, endpoint_text.
  rewrite take_while_span, take_ge by (done || lia).
  rewrite E. cbv iota beta. rewrite <- E, drop_app_length. cbn [mbind option_bind app scan_char]. rewrite Z.eqb_refl. cbn [mbind option_bind].
  rewrite <- (app_nil_r (dec port)), scan_u_dec by (done || lia). cbn [mbind option_bind].
  rewrite (proj2 (Z.ltb_ge 65535 port)), u16_id by lia. f_equal.
  unfold IPV4_STR_TO_ADDR. rewrite scan_quad_text by done. unfold is_byte in *.
  rewrite !(proj2 (Z.leb_le _ 255)), !u8_id by lia. done.
Qed.

(** Whatever the text, the octets are bytes and the port a uint16_t when they
    were before. *)
Lemma tuple_typed s t :
  length (ipv4_addr t) = 4%nat -> Forall is_byte (ipv4_addr t) -> 0 <= tuple_port t < 65536 ->
  let t' := IPV4_PORT_STR_TO_TUPLE s t in
  length (ipv4_addr t') = 4%nat /\ Forall is_byte (ipv4_addr t') /\ 0 <= tuple_port t' < 65536.
Proof.
  intros Hl Hb Hp. cbn zeta. unfold IPV4_PORT_STR_TO_TUPLE. destruct (scan_endpoint s) as [[ip port]|]; [|done]. cbn.
  assert (0 <= (if 65535 <? port then tuple_port t else u16 port) < 65536) as Hport by (case_match; [done|apply u16_range]).
  unfold IPV4_STR_TO_ADDR. destruct (scan_quad ip) as [ [ [ [a b] c] d]|]; [|by (split; [|split])]. destruct ((a <=? 255) && (b <=? 255) && (c <=? 255) && (d <=? 255)); [|by (split; [|split])].
  split; [done|]. split; [|done]. repeat constructor; apply u8_range.
Qed.

Lemma endpoint_roundtrip_witness :
  IPV4_PORT_STR_TO_TUPLE (lit "192.168.137.2:8888") {| ipv4_addr := [9; 9; 9; 9]; tuple_port := 9 |} =
  {| ipv4_addr := [192; 168; 137; 2]; tuple_port := 8888 |}.
Proof.
  rewrite <- endpoint_text_ex. apply (endpoint_roundtrip 192 168 137 2 8888); unfold is_byte; lia.
Defined.
