(* ===== verification/LinkStats.v ===== *)
(** * LinkStats: interface statistics (src/ethtool_stats.c)

    get_ethtool_stats reads what [ethtool -S] prints, line by line, into the
    global [stats].  What popen and malloc answer is an argument; the program
    goes on after printing that one of them failed. *)

From S2P Require Import Prelude CString IniParser IniParserSpec DevConfigFile.
From stdpp Require Import base list numbers option.
From Stdlib Require Import ZArith Lia String.
#[local] Open Scope Z_scope.

(** ** Model *)

Definition BUFFER_SIZE : nat := 256.
Definition DEFAULT_INTERVAL : Z := 2.

Record NetworkStats := {
  ns_name : cstring; rx_bytes : Z; rx_packets : Z; tx_bytes : Z; tx_packets : Z; errors : Z; tx_dropped : Z }.

Definition no_stats : NetworkStats :=
  {| ns_name := []; rx_bytes := 0; rx_packets := 0; tx_bytes := 0; tx_packets := 0; errors := 0; tx_dropped := 0 |}.

(** Whether [strstr(s, t)] finds something. *)
Fixpoint strstr (s t : cstring) : bool :=
  bool_decide (take (List.length t) s = t) || match s with [] => false | _ :: s => strstr s t end.

Definition ULONG_MAX : Z := 2 ^ 64 - 1.

(** [strtoul(s, NULL, 10)]: a minus sign negates modulo 2^64. *)
Definition strtoul10 (s : cstring) : Z :=
  let value l := digits_val 10 0 l in
  match drop_while isspace s with
  | c :: s' =>
      if c =? 45 then if value s' <=? ULONG_MAX then u64 (- value s') else ULONG_MAX
      else Z.min ULONG_MAX (value (if c =? 43 then s' else c :: s'))
  | [] => 0
  end.

(** The statistic a key stands for: the first text it contains, in this order. *)
Definition record_stat (st : NetworkStats) (key : cstring) (v : Z) : NetworkStats :=
  let '{| ns_name := n; rx_bytes := rb; rx_packets := rp; tx_bytes := tb; tx_packets := tp; errors := e; tx_dropped := d |} := st in
  if strstr key (lit "rx_bytes") then {| ns_name := n; rx_bytes := v; rx_packets := rp; tx_bytes := tb; tx_packets := tp; errors := e; tx_dropped := d |}
  else if strstr key (lit "rx_packets") then {| ns_name := n; rx_bytes := rb; rx_packets := v; tx_bytes := tb; tx_packets := tp; errors := e; tx_dropped := d |}
  else if strstr key (lit "tx_bytes") then {| ns_name := n; rx_bytes := rb; rx_packets := rp; tx_bytes := v; tx_packets := tp; errors := e; tx_dropped := d |}
  else if strstr key (lit "tx_packets") then {| ns_name := n; rx_bytes := rb; rx_packets := rp; tx_bytes := tb; tx_packets := v; errors := e; tx_dropped := d |}
  else if strstr key (lit "errors") then {| ns_name := n; rx_bytes := rb; rx_packets := rp; tx_bytes := tb; tx_packets := tp; errors := v; tx_dropped := d |}
  else if strstr key (lit "tx_dropped") then {| ns_name := n; rx_bytes := rb; rx_packets := rp; tx_bytes := tb; tx_packets := tp; errors := e; tx_dropped := v |}
  else st.

Definition not_colon (c : Z) : bool := negb (c =? 58).
Definition blank (c : Z) : bool := (c =? 32) || (c =? 9).

(** One line; it ends at its first NUL. *)
Definition stat_line (st : NetworkStats) (result : list Z) : NetworkStats :=
  let line := up_to_nul result in
  if negb (strchr line 58) then st else
  let key := take_while not_colon line in
  let value := drop_while blank (tail (drop_while not_colon line)) in
  record_stat st key (strtoul10 value).

(** Every turn reads at least one byte of the pipe. *)
Fixpoint read_stats (fuel : nat) (pipe : list Z) (st : NetworkStats) : outcome NetworkStats :=
  match fuel with
  | O => Spin
  | S fuel =>
      let '(result, rest, _) := fgets (BUFFER_SIZE - 1) pipe in
      match result with
      | [] => Done st
      | _ => read_stats fuel rest (stat_line st result)
      end
  end.

Definition set_name (st : NetworkStats) (n : cstring) : NetworkStats :=
  {| ns_name := n; rx_bytes := rx_bytes st; rx_packets := rx_packets st; tx_bytes := tx_bytes st;
     tx_packets := tx_packets st; errors := errors st; tx_dropped := tx_dropped st |}.

(** What the environment answers: the output of the command, if popen
    succeeded, and the two calls of malloc. *)
Record stats_env := { se_pipe : option (list Z); se_result : bool; se_name : bool }.

Definition get_ethtool_stats (env : stats_env) (stats : option NetworkStats) (interface : cstring) : outcome NetworkStats :=
  _ ← require (se_result env) NullDeref;
  match stats, se_pipe env with
  | Some st, Some pipe =>
      _ ← require (se_name env) NullDeref;
      read_stats (S (List.length pipe)) pipe (set_name st interface)
  | _, _ => Fault NullDeref
  end.

Definition atoi (s : cstring) : Z :=
  match drop_while isspace s with
  | c :: s' =>
      int_of_long (if c =? 45 then Z.max LONG_MIN (- digits_val 10 0 s')
                   else Z.min LONG_MAX (digits_val 10 0 (if c =? 43 then s' else c :: s')))
  | [] => 0
  end.

(** The interval of the arguments [argv[1..]]. *)
Definition stats_interval (args : list cstring) : Z :=
  match args with
  | [a] => if atoi a <=? 0 then DEFAULT_INTERVAL else atoi a
  | _ => DEFAULT_INTERVAL
  end.

(** The first [n] turns of the monitoring loop of ethtool_stats, which has no
    end; [alloc] is malloc of [stats]. *)
Fixpoint monitor (n : nat) (env : nat -> stats_env) (st : NetworkStats) : outcome NetworkStats :=
  match n with
  | O => Done st
  | S n => st ← get_ethtool_stats (env n) (Some st) (lit "ens33"); monitor n env st
  end.

Definition ethtool_stats (alloc : bool) (n : nat) (env : nat -> stats_env) : outcome NetworkStats :=
  _ ← require alloc NullDeref; monitor n env no_stats.

(** ** Reading a report back *)

(** A line of [ethtool -S]: the key, a colon, a space, the number. *)
Definition render (e : cstring * Z) : list Z := e.1 ++ [58; 32] ++ dec e.2 ++ [10].

Definition key_byte (c : Z) : bool := negb (c =? 58) && negb (c =? 10) && negb (c =? 0).
Definition entry_ok (e : cstring * Z) : Prop :=
  forallb key_byte e.1 = true /\ (List.length e.1 <= 230)%nat /\ 0 <= e.2 < 10 ^ 19.

Lemma span_key k l : forallb key_byte k = true ->
  take_while not_colon (k ++ 58 :: l) = k /\ drop_while not_colon (k ++ 58 :: l) = 58 :: l.
Proof.
  induction k as [|c k IH]; intros Hk; [done|]. cbn in Hk. apply andb_true_iff in Hk as [Hc Hk].
  unfold key_byte in Hc. cbn. unfold not_colon at 1 3. rewrite !andb_true_iff, !negb_true_iff in Hc.
  destruct Hc as [ [-> _] _]. cbn [negb]. destruct (IH Hk) as [-> ->]. done.
Qed.

Lemma key_plain k : forallb key_byte k = true -> forallb plain k = true.
Proof. rewrite !forallb_forall. intros Hk c Hc. specialize (Hk _ Hc). unfold key_byte in Hk. unfold plain. lia. Qed.

Lemma dec_bytes n : forallb digit (dec n) = true.
Proof. by apply dec_digits. Qed.

Lemma dec_plain n : forallb plain (dec n) = true.
Proof. pose proof (dec_bytes n) as Hd. rewrite forallb_forall in *. intros c Hc. specialize (Hd _ Hc). unfold digit in Hd. unfold plain. lia. Qed.

Lemma text_plain e : entry_ok e -> forallb plain (e.1 ++ 58 :: 32 :: dec e.2) = true.
Proof. intros (Hk & _ & _). rewrite forallb_app, (key_plain _ Hk). apply dec_plain. Qed.

Lemma length_dec_loop fuel n acc : (List.length (dec_loop fuel n acc) <= fuel + List.length acc)%nat.
Proof.
  revert n acc. induction fuel as [|fuel IH]; intros n acc; [done|]. cbn [dec_loop]. case_match; [cbn; lia|].
  etransitivity; [apply IH|cbn; lia].
Qed.

Lemma dec_loop_app fuel n a b : dec_loop fuel n (a ++ b) = dec_loop fuel n a ++ b.
Proof. revert n a. induction fuel as [|fuel IH]; intros n a; [done|]. cbn [dec_loop]. case_match; [done|]. by rewrite <- (IH _ (_ :: a)). Qed.

Lemma strtoul_dec n : 0 <= n < 10 ^ 19 -> strtoul10 (dec n ++ [10]) = n.
Proof.
  intros Hn. unfold dec. rewrite <- dec_loop_app. destruct (digits_dec 19 n ([] ++ [10])) as (k & _ & Hd); [exact Hn|].
  specialize (Hd 0). rewrite Z.mul_0_l, Z.add_0_l in Hd. rewrite dec_loop_app in *.
  pose proof (dec_bytes n) as Hb. unfold dec in Hb. unfold strtoul10.
  destruct (dec_loop 19 n []) as [|c l] eqn:E.
  - exfalso. cbn [dec_loop] in E. destruct (n <? 10); [done|]. revert E.
    assert (Hne : forall f m a, a <> [] -> dec_loop f m a <> []).
    { clear. intros f. induction f as [|f IH]; intros m a Ha; [done|]. cbn [dec_loop]. case_match; [done|by apply IH]. }
    by apply (Hne 18%nat).
  - cbn [forallb] in Hb. apply andb_true_iff in Hb as [Hc _]. unfold digit in Hc. cbn [app drop_while].
    assert (isspace c = false) as -> by (unfold isspace; lia).
    rewrite (proj2 (Z.eqb_neq c 45)), (proj2 (Z.eqb_neq c 43)) by lia. cbn [app] in Hd. rewrite Hd. cbn [digits_val hex_digit].
    unfold ULONG_MAX. cbn. lia.
Qed.

Lemma drop_blank_dec n : drop_while blank (32 :: dec n ++ [10]) = dec n ++ [10].
Proof.
  cbn [drop_while blank Z.eqb Pos.eqb orb]. pose proof (dec_bytes n) as Hb. destruct (dec n) as [|c l]; [done|].
  cbn [forallb] in Hb. apply andb_true_iff in Hb as [Hc _]. unfold digit in Hc. cbn [app drop_while].
  assert (blank c = false) as -> by (unfold blank; lia). done.
Qed.

Lemma stat_line_render st e : entry_ok e -> stat_line st (render e) = record_stat st e.1 e.2.
Proof.
  intros He. pose proof He as (Hk & _ & Hn). unfold stat_line, render.
  replace (e.1 ++ [58; 32] ++ dec e.2 ++ [10]) with ((e.1 ++ 58 :: 32 :: dec e.2) ++ [10]) by (rewrite <- app_assoc; done).
  rewrite up_to_nul_plain by by apply text_plain.
  rewrite <- app_assoc. cbn [app]. destruct (span_key e.1 (32 :: dec e.2 ++ [10]) Hk) as [-> ->].
  assert (strchr (e.1 ++ 58 :: 32 :: dec e.2 ++ [10]) 58 = true) as ->.
  { apply existsb_exists. exists 58. split; [|done]. apply in_or_app. right. by left. }
  cbn [negb tail]. by rewrite drop_blank_dec, strtoul_dec.
Qed.

Lemma read_stats_report es rest fuel st :
  Forall entry_ok es -> (List.length (List.concat (map render es) ++ rest) < fuel)%nat ->
  exists fuel', (List.length rest < fuel')%nat /\
  read_stats fuel (List.concat (map render es) ++ rest) st = read_stats fuel' rest (fold_left (fun st e => record_stat st e.1 e.2) es st).
Proof.
  intros Hes. revert fuel st. induction Hes as [|e es He Hes IH]; intros fuel st Hf; [by exists fuel|].
  cbn [map List.concat fold_left] in *. rewrite <- app_assoc in *. set (tl := List.concat (map render es) ++ rest) in *.
  destruct fuel as [|fuel]; [lia|]. cbn [read_stats]. pose proof He as (Hk & Hl & Hn).
  replace (render e ++ tl) with ((e.1 ++ 58 :: 32 :: dec e.2) ++ 10 :: tl) by (unfold render; rewrite <- !app_assoc; done).
  rewrite fgets_line.
  2:{ pose proof (length_dec_loop 19 e.2 []) as Hd. unfold dec, BUFFER_SIZE. rewrite length_app. cbn [List.length] in *. lia. }
  2:{ by apply text_plain. }
  replace ((e.1 ++ 58 :: 32 :: dec e.2) ++ [10]) with (render e) by (unfold render; rewrite <- !app_assoc; done).
  rewrite (stat_line_render _ _ He). rewrite length_app in Hf.
  assert (render e <> []) as Hne by (unfold render; destruct e.1; done).
  destruct (render e) as [|c l] eqn:Er; [done|]. apply IH. cbn in Hf. fold tl. lia.
Qed.

(** A report of [ethtool -S] is read back entry by entry: each line
    [key: number] sets the statistic its key stands for, later lines replace
    earlier ones, and everything else is kept. *)
Theorem report_read_back es st name :
  Forall entry_ok es ->
  get_ethtool_stats {| se_pipe := Some (List.concat (map render es)); se_result := true; se_name := true |} (Some st) name
  = Done (fold_left (fun st e => record_stat st e.1 e.2) es (set_name st name)).
Proof.
  intros Hes. unfold get_ethtool_stats. cbn [se_pipe se_result se_name require mbind outcome_bind].
  destruct (read_stats_report es [] (S (List.length (List.concat (map render es)))) (set_name st name) Hes) as (f & Hf & E).
  { rewrite app_nil_r. lia. }
  rewrite app_nil_r in E. rewrite E. destruct f as [|f]; [cbn in Hf; lia|]. done.
Qed.

(** popen failed, or one of the allocations: the program prints a message and
    then uses the NULL pointer. *)
Lemma stats_failures_fault env stats name :
  se_pipe env = None \/ se_result env = false \/ se_name env = false \/ stats = None ->
  get_ethtool_stats env stats name = Fault NullDeref.
Proof.
  unfold get_ethtool_stats. intros H. destruct (se_result env), stats, (se_pipe env), (se_name env); try done.
  by destruct H as [H|[H|[H|H] ] ].
Qed.

Definition demo_report : list (cstring * Z) :=
  [(lit "     rx_packets", 12); (lit "     tx_bytes", 18446744073709551615 / 2); (lit "     rx_errors", 3); (lit "     tx_errors", 1)].

Lemma report_read_back_witness : exists st, 
  get_ethtool_stats {| se_pipe := Some (List.concat (map render demo_report)); se_result := true; se_name := true |} (Some no_stats) (lit "ens33")
  = Done st /\ rx_packets st = 12 /\ tx_bytes st = 2 ^ 63 - 1 /\ errors st = 1.
Proof.
  eexists. split.
  - apply (report_read_back demo_report no_stats). unfold demo_report. repeat (apply Forall_cons; [split; [reflexivity|split; vm_compute; [lia|done] ]|]).
    by apply Forall_nil.
  - by vm_compute.
Defined.

Example nic_report : ethtool_stats true 1 (fun _ => {| se_pipe := Some (lit "NIC statistics:
     rx_bytes:   77
     tx_dropped: -1
"); se_result := true; se_name := true |})
  = Done {| ns_name := lit "ens33"; rx_bytes := 77; rx_packets := 0; tx_bytes := 0; tx_packets := 0; errors := 0; tx_dropped := 2 ^ 64 - 1 |}.
Proof. by vm_compute. Qed.
