(* ===== verification/IotConfig.v ===== *)
(** * IotConfig: the IoT devices read from iot_dev.ini, and their sessions

    src/engine.c 1015-1035 (names to enumerations), 1061-1447 (the attribute
    parsers), 1468-1677 ([engine_init_iot_devices]), 1701-1896
    ([engine_init_iot_sessions]) and 1905-1929 (clean-up).  A parser returns
    the attributes, or [None] for BACKEND_PROXY_PROCESS_ERROR (the caller then
    clears the device).  A string pointer that is NULL where the code passes it
    to strcmp or sscanf is the fault [NullDeref]. *)

From S2P Require Import Prelude Message CString Dictionary IniParser Iot Proto DevConfig.
From stdpp Require Import base list numbers option gmap strings pretty.
From Stdlib Require Import ZArith Lia.
#[local] Open Scope Z_scope.

Definition MAX_IOT_DEV_NUM : nat := 16.
Definition IOT_DEV_TYPE_UNKNOWN : Z := 0.
Definition IOT_DEV_STATUS_OFFLINE : Z := 0.
Definition IOT_DEV_STATUS_ONLINE : Z := 1.
Definition IOT_DEV_STATUS_ERROR : Z := 2.
Definition IOT_DEV_STATUS_CONFIGURING : Z := 3.

(** ** Names and numbers *)

Definition dev_type_str_to_enum (type_str : cstring) : Z :=
  if strcmp_eq type_str (lit "bluetooth") then IOT_PROTO_TYPE_BLUETOOTH
  else if strcmp_eq type_str (lit "can") then IOT_PROTO_TYPE_CAN
  else if strcmp_eq type_str (lit "zigbee") then IOT_PROTO_TYPE_ZIGBEE
  else if strcmp_eq type_str (lit "lora") then IOT_PROTO_TYPE_LORA
  else IOT_DEV_TYPE_UNKNOWN.

Definition dev_status_str_to_enum (status_str : cstring) : Z :=
  if strcmp_eq status_str (lit "online") then IOT_DEV_STATUS_ONLINE
  else if strcmp_eq status_str (lit "offline") then IOT_DEV_STATUS_OFFLINE
  else if strcmp_eq status_str (lit "error") then IOT_DEV_STATUS_ERROR
  else if strcmp_eq status_str (lit "configuring") then IOT_DEV_STATUS_CONFIGURING
  else IOT_DEV_STATUS_OFFLINE.

(** [key] is a buffer of 128 bytes. *)
Definition iot_key (section property : cstring) : cstring := snprintf 128 (section ++ property).

Definition iot_int (ini : dictionary) (section : cstring) (property : string) (def : Z) : outcome Z :=
  iniparser_getint (Some ini) (iot_key section (lit property)) def.

Definition iot_str (ini : dictionary) (section : cstring) (property : string) (def : string) : outcome cstring :=
  r ← iniparser_getstring (Some ini) (iot_key section (lit property)) (Some (lit def));
  match r with Some s => Done s | None => Fault NullDeref end.

(** "%02hhx:...:%02hhx" with [n] bytes. *)
Fixpoint mac_format (n : nat) : list directive :=
  match n with
  | O => []
  | S O => [Hex2]
  | S n => Hex2 :: Char 58 :: mac_format n
  end.

(** The number of conversions, and the array of [n] bytes after them. *)
Definition scan_mac (n : nat) (s : cstring) : nat * list Z :=
  let bs := omap (fun c => match c with Byte b => Some b | Str _ => None end) (sscanf (mac_format n) s) in
  (length bs, bs ++ replicate (n - length bs) 0).

(** ** Attributes *)

Record BluetoothDevAttr := { bt_port : Z; bt_mac : list Z; bt_version : Z; conn_interval : Z }.
Record CANDevAttr := { can_port : Z; can_bitrate : Z; can_mode : Z; can_filter_id : Z }.
Record ZigbeeDevAttr := { zigbee_pan_id : Z; zigbee_channel : Z; zigbee_mac : list Z; zigbee_role : Z }.
Record LoRaDevAttr := { lora_port : Z; lora_freq_band : Z; lora_sf : Z; lora_cr : Z; lora_dev_eui : Z }.
Record PowerLinkDevAttr := {
  plk_port : Z; plk_mac : list Z; plk_node_id : Z; plk_role : Z; plk_cycle_ms : Z; plk_rx_pdo_len : Z; plk_tx_pdo_len : Z }.
Record ModbusTCPDevAttr := {
  mb_port : Z; mb_mac : list Z; mb_unit_id : Z; mb_proto_ver : Z; mb_timeout_ms : Z; mb_retry_cnt : Z }.

(** The union: the member last written. *)
Inductive IotDevSpecificAttr :=
  | no_attr
  | bt_attr (a : BluetoothDevAttr)
  | can_attr (a : CANDevAttr)
  | zigbee_attr (a : ZigbeeDevAttr)
  | lora_attr (a : LoRaDevAttr)
  | plk_attr (a : PowerLinkDevAttr)
  | mb_attr (a : ModbusTCPDevAttr).

(** The number of conversions is not looked at. *)
Definition parse_bluetooth_attr (ini : dictionary) (section : cstring) : outcome (option BluetoothDevAttr) :=
  port ← iot_int ini section ":bt_port" 0;
  version ← iot_int ini section ":bt_version" 5;
  interval ← iot_int ini section ":conn_interval" 50;
  mac_str ← iot_str ini section ":bt_mac" "00:00:00:00:00:00";
  Done (Some {| bt_port := u16 port; bt_mac := snd (scan_mac 6 mac_str); bt_version := u8 version; conn_interval := u16 interval |}).

Definition can_mode_of (s : cstring) : option Z :=
  if strcmp_eq s (lit "loopback") then Some 2
  else if strcmp_eq s (lit "silent") then Some 3
  else if strcmp_eq s (lit "normal") then Some 1 else None.

Definition parse_can_attr (ini : dictionary) (section : cstring) : outcome (option CANDevAttr) :=
  port ← iot_int ini section ":can_port" 0;
  bitrate ← iot_int ini section ":can_bitrate" 500000;
  let bitrate := u32 bitrate in
  if negb (bitrate =? 125000) && negb (bitrate =? 250000) && negb (bitrate =? 500000) && negb (bitrate =? 1000000)
  then Done None else
  mode_str ← iot_str ini section ":can_mode" "normal";
  match can_mode_of mode_str with
  | None => Done None
  | Some mode =>
      filter_id ← iot_int ini section ":can_filter_id" 0;
      Done (Some {| can_port := u16 port; can_bitrate := bitrate; can_mode := mode; can_filter_id := u32 filter_id |})
  end.

Definition zigbee_role_of (s : cstring) : option Z :=
  if strcmp_eq s (lit "router") then Some 2
  else if strcmp_eq s (lit "enddevice") then Some 3
  else if strcmp_eq s (lit "coordinator") then Some 1 else None.

(** The channel is cut to eight bits before its range is checked. *)
Definition parse_zigbee_attr (ini : dictionary) (section : cstring) : outcome (option ZigbeeDevAttr) :=
  pan_id ← iot_int ini section ":zigbee_pan_id" 0x1234;
  channel ← iot_int ini section ":zigbee_channel" 18;
  let channel := u8 channel in
  if (channel <? 11) || (26 <? channel) then Done None else
  role_str ← iot_str ini section ":zigbee_role" "coordinator";
  match zigbee_role_of role_str with
  | None => Done None
  | Some role =>
      mac_str ← iot_str ini section ":zigbee_mac" "00:00:00:00:00:00:00:00";
      let '(n, mac) := scan_mac 8 mac_str in
      if negb (n =? 8)%nat then Done None else
      Done (Some {| zigbee_pan_id := u16 pan_id; zigbee_channel := channel; zigbee_mac := mac; zigbee_role := role |})
  end.

Definition lora_band_of (s : cstring) : option Z :=
  if strcmp_eq s (lit "US915") then Some 2
  else if strcmp_eq s (lit "CN470") then Some 3
  else if strcmp_eq s (lit "EU868") then Some 1 else None.

Definition parse_lora_attr (ini : dictionary) (section : cstring) : outcome (option LoRaDevAttr) :=
  port ← iot_int ini section ":lora_port" 2;
  freq_str ← iot_str ini section ":lora_freq_band" "EU868";
  match lora_band_of freq_str with
  | None => Done None
  | Some band =>
      sf ← iot_int ini section ":lora_sf" 9;
      let sf := u8 sf in
      if (sf <? 7) || (12 <? sf) then Done None else
      cr ← iot_int ini section ":lora_cr" 1;
      let cr := u8 cr in
      if (cr <? 1) || (4 <? cr) then Done None else
      eui ← iot_int ini section ":lora_dev_eui" 0;
      Done (Some {| lora_port := u16 port; lora_freq_band := band; lora_sf := sf; lora_cr := cr; lora_dev_eui := u32 eui |})
  end.

Definition plk_role_of (s : cstring) : option Z :=
  if strcmp_eq s (lit "mn") then Some 0 else if strcmp_eq s (lit "cn") then Some 1 else None.

Definition parse_powerlink_attr (ini : dictionary) (section : cstring) : outcome (option PowerLinkDevAttr) :=
  port ← iot_int ini section ":plk_port" 0;
  node_id ← iot_int ini section ":plk_node_id" 1;
  let node_id := u16 node_id in
  if (node_id <? 1) || (240 <? node_id) then Done None else
  role_str ← iot_str ini section ":plk_role" "mn";
  match plk_role_of role_str with
  | None => Done None
  | Some role =>
      cycle ← iot_int ini section ":plk_cycle_ms" 1;
      let cycle := u32 cycle in
      if (cycle <? 1) || (10 <? cycle) then Done None else
      rx ← iot_int ini section ":plk_rx_pdo_len" 64;
      tx ← iot_int ini section ":plk_tx_pdo_len" 64;
      mac_str ← iot_str ini section ":plk_mac" "00:00:00:00:00:00";
      let '(n, mac) := scan_mac 6 mac_str in
      if negb (n =? 6)%nat then Done None else
      Done (Some {| plk_port := u16 port; plk_mac := mac; plk_node_id := node_id; plk_role := role; plk_cycle_ms := cycle;
                    plk_rx_pdo_len := u16 rx; plk_tx_pdo_len := u16 tx |})
  end.

Definition mb_proto_of (s : cstring) : option Z :=
  if strcmp_eq s (lit "rtu_over_tcp") || strcmp_eq s (lit "rtu") then Some 1
  else if strcmp_eq s (lit "tcp") then Some 0 else None.

Definition parse_modbustcp_attr (ini : dictionary) (section : cstring) : outcome (option ModbusTCPDevAttr) :=
  port ← iot_int ini section ":mb_port" 502;
  unit_id_val ← iot_int ini section ":mb_unit_id" 1;
  if (unit_id_val <? 0) || (255 <? unit_id_val) then Done None else
  proto_str ← iot_str ini section ":mb_proto_ver" "tcp";
  match mb_proto_of proto_str with
  | None => Done None
  | Some ver =>
      timeout ← iot_int ini section ":mb_timeout_ms" 1000;
      let timeout := if u32 timeout =? 0 then 1000 else u32 timeout in
      retry_val ← iot_int ini section ":mb_retry_cnt" 0;
      let retry_val := if retry_val <? 0 then 0 else retry_val in
      mac_str ← iot_str ini section ":mb_mac" "00:00:00:00:00:00";
      let '(n, mac) := scan_mac 6 mac_str in
      if negb (n =? 6)%nat then Done None else
      Done (Some {| mb_port := u16 port; mb_mac := mac; mb_unit_id := u8 unit_id_val; mb_proto_ver := ver;
                    mb_timeout_ms := timeout; mb_retry_cnt := u8 retry_val |})
  end.

(** ** Devices *)

Record IotDevConfig := { working_mode : Z; config_path : cstring; auto_connect : Z }.

Record IotDevice := {
  iot_dev_id : Z;
  iot_dev_type : Z;
  iot_ns_name : option cstring;
  iot_dev_status : Z;
  iot_name : cstring;
  iot_config : IotDevConfig;
  specific_attr : IotDevSpecificAttr;
  iot_sess_id : Z;
  physical_port : Z;
  iot_fd : Z }.

(** After [memset(dev, 0, ...)]. *)
Definition zero_iot_dev : IotDevice :=
  {| iot_dev_id := 0; iot_dev_type := 0; iot_ns_name := None; iot_dev_status := 0; iot_name := [];
     iot_config := {| working_mode := 0; config_path := []; auto_connect := 0 |}; specific_attr := no_attr;
     iot_sess_id := 0; physical_port := 0; iot_fd := 0 |}.

(** The defaults set before parsing, with the id read. *)
Definition started_iot_dev (id : Z) : IotDevice :=
  {| iot_dev_id := id; iot_dev_type := IOT_DEV_TYPE_UNKNOWN; iot_ns_name := None; iot_dev_status := IOT_DEV_STATUS_OFFLINE;
     iot_name := []; iot_config := {| working_mode := 0; config_path := []; auto_connect := 0 |}; specific_attr := no_attr;
     iot_sess_id := -1; physical_port := -1; iot_fd := -1 |}.

Definition iot_type_of (s : cstring) : option Z :=
  if strcasecmp_eq s (lit "bluetooth") then Some IOT_PROTO_TYPE_BLUETOOTH
  else if strcasecmp_eq s (lit "zigbee") then Some IOT_PROTO_TYPE_ZIGBEE
  else if strcasecmp_eq s (lit "can") then Some IOT_PROTO_TYPE_CAN
  else if strcasecmp_eq s (lit "lora") then Some IOT_PROTO_TYPE_LORA
  else if strcasecmp_eq s (lit "powerlink") then Some IOT_PROTO_TYPE_POWERLINK
  else if strcasecmp_eq s (lit "modbustcp") then Some IOT_PROTO_TYPE_MODBUSTCP else None.

Definition iot_status_of (s : cstring) : Z :=
  if strcasecmp_eq s (lit "online") then IOT_DEV_STATUS_ONLINE
  else if strcasecmp_eq s (lit "error") then IOT_DEV_STATUS_ERROR
  else if strcasecmp_eq s (lit "configuring") then IOT_DEV_STATUS_CONFIGURING else IOT_DEV_STATUS_OFFLINE.

(** "%d" *)
Definition int_text (z : Z) : cstring := lit (pretty z).

(** Whether each of the two strdup calls gets its memory. *)
Definition dup_ns_name (dup : bool * bool) (ns : cstring) : option cstring :=
  if (0 <? length ns)%nat
  then if fst dup then Some ns else if snd dup then Some [] else None
  else if snd dup then Some [] else None.

Definition parse_attr (ini : dictionary) (section : cstring) (type : Z) : outcome (option IotDevSpecificAttr) :=
  if type =? IOT_PROTO_TYPE_BLUETOOTH then a ← parse_bluetooth_attr ini section; Done (option_map bt_attr a)
  else if type =? IOT_PROTO_TYPE_CAN then a ← parse_can_attr ini section; Done (option_map can_attr a)
  else if type =? IOT_PROTO_TYPE_ZIGBEE then a ← parse_zigbee_attr ini section; Done (option_map zigbee_attr a)
  else if type =? IOT_PROTO_TYPE_LORA then a ← parse_lora_attr ini section; Done (option_map lora_attr a)
  else if type =? IOT_PROTO_TYPE_POWERLINK then a ← parse_powerlink_attr ini section; Done (option_map plk_attr a)
  else if type =? IOT_PROTO_TYPE_MODBUSTCP then a ← parse_modbustcp_attr ini section; Done (option_map mb_attr a)
  else Done None.

(** The body of the loop for a section that names a device: whether it was
    parsed, and what is left in the slot. *)
Definition init_iot_device (ini : dictionary) (section : cstring) (dup : bool * bool) : outcome (bool * IotDevice) :=
  id ← iot_int ini section ":dev_id" (-1);
  if id =? -1 then Done (false, started_iot_dev id) else
  type_str ← iot_str ini section ":dev_type" "unknown";
  match iot_type_of type_str with
  | None => Done (false, started_iot_dev id)
  | Some type =>
      ns ← iot_str ini section ":ns_name" "";
      status_str ← iot_str ini section ":dev_status" "offline";
      name ← iot_str ini section ":name" "";
      mode ← iot_str ini section ":working_mode" "client";
      cfg_path ← iot_str ini section ":config_path" "";
      auto ← iot_int ini section ":auto_connect" 0;
      port ← iot_int ini section ":physical_port" (-1);
      attr ← parse_attr ini section type;
      match attr with
      | None => Done (false, zero_iot_dev)
      | Some a =>
          Done (true,
            {| iot_dev_id := id; iot_dev_type := type; iot_ns_name := dup_ns_name dup ns; iot_dev_status := iot_status_of status_str;
               iot_name := take (MAX_DEV_NAME - 1) (if (0 <? length name)%nat then name else lit "device_" ++ int_text id);
               iot_config := {| working_mode := if strcasecmp_eq mode (lit "gateway") || strcasecmp_eq mode (lit "server") then 1 else 0;
                                config_path := take 255 (if (0 <? length cfg_path)%nat then cfg_path
                                                         else lit "/etc/iot/dev_" ++ int_text id ++ lit ".conf");
                                auto_connect := auto |};
               specific_attr := a; iot_sess_id := -1; physical_port := port; iot_fd := -1 |})
      end
  end.

(** What the environment answers. *)
Record iot_dev_env := {
  id_calloc : bool;
  id_file : option (list Z);
  id_new : new_env;
  id_lines : nat -> line_env;
  id_dup : nat -> bool * bool }.

(** The loop over the sections [i], ..., with [fuel] left; the counters of
    parsed and failed devices. *)
Fixpoint iot_devices_loop (env : iot_dev_env) (ini : dictionary) (fuel i : nat) (devs : list IotDevice) (parsed failed : nat)
  : outcome (list IotDevice * nat * nat) :=
  match fuel with
  | O => Done (devs, parsed, failed)
  | S fuel =>
      if negb (parsed <? MAX_IOT_DEV_NUM)%nat then Done (devs, parsed, failed) else
      section ← iniparser_getsecname (Some ini) (Z.of_nat i);
      match section with
      | None => iot_devices_loop env ini fuel (S i) devs parsed failed
      | Some section =>
          if negb (strncmp_eq section (lit "device_") 7) then iot_devices_loop env ini fuel (S i) devs parsed failed else
          r ← init_iot_device ini section (id_dup env i);
          match r with
          | (true, dev) => iot_devices_loop env ini fuel (S i) (<[parsed := dev]> devs) (S parsed) failed
          | (false, dev) => iot_devices_loop env ini fuel (S i) (<[parsed := dev]> devs) parsed (S failed)
          end
      end
  end.

(** [iot_dev_set] ([None] for NULL) and [iot_dev_num] of the engine. *)
Record iot_engine := { iot_dev_set : option (list IotDevice); iot_dev_num : Z }.

Definition engine_init_iot_devices (env : iot_dev_env) (e : iot_engine) : outcome (status * iot_engine) :=
  let set := match iot_dev_set e with
             | Some s => Some s
             | None => if id_calloc env then Some (replicate MAX_IOT_DEV_NUM zero_iot_dev) else None
             end in
  match set with
  | None => Done (PROCESS_ERROR, e)
  | Some set =>
      let e := {| iot_dev_set := Some set; iot_dev_num := iot_dev_num e |} in
      ini ← iniparser_load (id_new env) (id_lines env) (id_file env);
      match ini with
      | None => Done (PROCESS_ERROR, e)
      | Some ini =>
          total_sections ← iniparser_getnsec (Some ini);
          r ← iot_devices_loop env ini (Z.to_nat total_sections) 0 set 0 0;
          let '(set, parsed, failed) := r in
          let e := {| iot_dev_set := Some set; iot_dev_num := iot_dev_num e |} in
          if (parsed =? 0)%nat then Done (PROCESS_ERROR, e) else
          if (0 <? failed)%nat then Done (PROCESS_ERROR, e) else
          Done (PROCESS_OK, {| iot_dev_set := Some set; iot_dev_num := u16 (Z.of_nat parsed) |})
      end
  end.

(** ** Sessions *)

(** For the device at an index: the memory malloc gives for its session, and
    what the calls of its initialisation answer. *)
Record iot_sess_env := {
  is_malloc : option IoTBackendSession; is_bt : bt_env; is_can : can_env; is_new_tcp : bool; is_connect : bool }.

Definition no_iot_sessions : iot_sessions :=
  {| backend_bluetooth_sess := None; backend_can_sess := None; backend_zigbee_sess := None; backend_lora_sess := None;
     backend_powerlink_sess := None; backend_modbustcp_sess := None |}.

(** [memset(sess, 0, ...)]. *)
Definition zero_iot_sess : IoTBackendSession :=
  {| iot_sess_type := 0; iot_sess_state := 0; iot_working_mode := 0; iot_bound_dev := false; iot_dev_fd := 0; iot_listen_fd := 0;
     iot_sock_list := []; iot_pri_data := false; send_to_remote := None; recv_from_remote := None |}.

(** One case of the switch: [cur] is the global pointer.  The new pointer, the
    descriptors closed, and whether [success_count] grows. *)
Definition iot_session_case (cur : option IoTBackendSession) (malloc : option IoTBackendSession)
    (init : IoTBackendSession -> option iot_init_result) : option IoTBackendSession * list Z * bool :=
  match cur with
  | Some s => (Some s, [], false)
  | None =>
      match malloc with
      | None => (None, [], false)
      | Some m =>
          match init m with
          | Some (PROCESS_OK, s, closed) => (Some s, closed, true)
          | Some (_, _, closed) => (None, closed, false)
          | None => (None, [], false)
          end
      end
  end.

Definition init_of_type (type : Z) (mode : Z) (env : iot_sess_env) (m : IoTBackendSession) : option iot_init_result :=
  if type =? IOT_PROTO_TYPE_BLUETOOTH then engine_init_bluetooth_session (Some mode) (Some m) (is_bt env)
  else if type =? IOT_PROTO_TYPE_CAN then engine_init_can_session (Some mode) (Some m) (is_can env)
  else if type =? IOT_PROTO_TYPE_ZIGBEE then engine_init_zigbee_session (Some mode) (Some m)
  else if type =? IOT_PROTO_TYPE_LORA then engine_init_lora_session (Some mode) (Some m)
  else if type =? IOT_PROTO_TYPE_POWERLINK then engine_init_powerlink_session (Some mode) (Some m)
  else engine_init_modbustcp_session (Some mode) (Some zero_iot_sess) (is_new_tcp env) (is_connect env).

Definition iot_sess_of (x : iot_sessions) (type : Z) : option IoTBackendSession :=
  if type =? IOT_PROTO_TYPE_BLUETOOTH then backend_bluetooth_sess x
  else if type =? IOT_PROTO_TYPE_CAN then backend_can_sess x
  else if type =? IOT_PROTO_TYPE_ZIGBEE then backend_zigbee_sess x
  else if type =? IOT_PROTO_TYPE_LORA then backend_lora_sess x
  else if type =? IOT_PROTO_TYPE_POWERLINK then backend_powerlink_sess x
  else if type =? IOT_PROTO_TYPE_MODBUSTCP then backend_modbustcp_sess x else None.

Definition set_iot_sess (x : iot_sessions) (type : Z) (s : option IoTBackendSession) : iot_sessions :=
  {| backend_bluetooth_sess := if type =? IOT_PROTO_TYPE_BLUETOOTH then s else backend_bluetooth_sess x;
     backend_can_sess := if type =? IOT_PROTO_TYPE_CAN then s else backend_can_sess x;
     backend_zigbee_sess := if type =? IOT_PROTO_TYPE_ZIGBEE then s else backend_zigbee_sess x;
     backend_lora_sess := if type =? IOT_PROTO_TYPE_LORA then s else backend_lora_sess x;
     backend_powerlink_sess := if type =? IOT_PROTO_TYPE_POWERLINK then s else backend_powerlink_sess x;
     backend_modbustcp_sess := if type =? IOT_PROTO_TYPE_MODBUSTCP then s else backend_modbustcp_sess x |}.

Definition known_iot_type (type : Z) : bool := (1 <=? type) && (type <=? 6).

Fixpoint iot_sessions_loop (env : nat -> iot_sess_env) (devs : list IotDevice) (fuel cnt : nat) (x : iot_sessions)
    (closed : list Z) (success_count : nat) : outcome (iot_sessions * list Z * nat) :=
  match fuel with
  | O => Done (x, closed, success_count)
  | S fuel =>
      match devs !! cnt with
      | None => Fault OutOfBounds
      | Some dev =>
          let type := iot_dev_type dev in
          if (iot_dev_status dev =? IOT_DEV_STATUS_ONLINE) && known_iot_type type then
            let '(s, cl, ok) := iot_session_case (iot_sess_of x type) (is_malloc (env cnt))
                                  (init_of_type type (working_mode (iot_config dev)) (env cnt)) in
            iot_sessions_loop env devs fuel (S cnt) (set_iot_sess x type s) (closed ++ cl) (if ok then S success_count else success_count)
          else iot_sessions_loop env devs fuel (S cnt) x closed success_count
      end
  end.

(** The session pointers are reset before the arguments are checked. *)
Definition engine_init_iot_sessions (env : nat -> iot_sess_env) (e : option iot_engine)
  : outcome (status * iot_sessions * list Z) :=
  match e with
  | Some {| iot_dev_set := Some devs; iot_dev_num := n |} =>
      r ← iot_sessions_loop env devs (Z.to_nat n) 0 no_iot_sessions [] 0;
      let '(x, closed, success_count) := r in
      Done (if (0 <? success_count)%nat || (n =? 0) then PROCESS_OK else PROCESS_ERROR, x, closed)
  | _ => Done (PROCESS_ERROR, no_iot_sessions, [])
  end.

(** ** Clean-up *)

(** The descriptors closed, in order. *)
Definition engine_cleanup_iot_devices (e : option iot_engine) : option iot_engine * list Z :=
  match e with
  | Some {| iot_dev_set := Some devs; iot_dev_num := n |} =>
      (Some {| iot_dev_set := None; iot_dev_num := n |}, List.filter (fun fd => 0 <=? fd) (iot_fd <$> take MAX_IOT_DEV_NUM devs))
  | e => (e, [])
  end.
