(* ===== verification/IotConfigSpec.v ===== *)
(** * IotConfigSpec: the IoT devices and sessions after start-up

    Whatever iot_dev.ini holds, the devices that start-up accepts are well
    typed: every attribute is in the range of its protocol.  Sessions: for each
    protocol the first online device whose initialisation succeeds is bound. *)

From S2P Require Import Prelude Bytes Message CString Dictionary DictionarySpec IniParser IniParserSpec Iot Proto DevConfig DevConfigSpec IotConfig.
From stdpp Require Import base list numbers option gmap strings pretty.
From Stdlib Require Import ZArith Lia.
#[local] Open Scope Z_scope.

(** ** Getters *)

(** What can go wrong: a key without a value, or a section name that does not
    fit the 128-byte key buffer with the colon behind it. *)
Definition bad_section (ini : dictionary) (section : cstring) : Prop := valueless ini \/ (127 <= length section)%nat.

Section Parse.
Context (ini : dictionary) (section : cstring) (Hw : dict_wf ini).

Lemma iot_key_colon p : (length section <= 126)%nat -> is_section (lookup_key (iot_key section (58 :: p))) = false.
Proof using Type.
  intros Hs. unfold is_section, lookup_key, iot_key, strlwc, snprintf. rewrite take_take.
  set (n := (_ `min` _)%nat). assert (n = 127)%nat as -> by (vm_compute; reflexivity).
  change (58 :: p) with ([58] ++ p). rewrite app_assoc, firstn_app, (take_ge (section ++ [58])) by (rewrite length_app; cbn; lia).
  rewrite !List.map_app, !strchr_app. cbn. by rewrite orb_true_r.
Qed.

Lemma iot_key_missing p : binds ini (lookup_key (iot_key section (58 :: p))) None -> bad_section ini section.
Proof using Type.
  intros H. destruct (decide (127 <= length section)%nat) as [|Hs]; [by right|left].
  eexists. split; [exact H|]. apply iot_key_colon. lia.
Qed.

(** Property names begin with a colon. *)
Definition colon (p : string) : Prop := exists q, lit p = 58 :: q.

Lemma iot_int_or_null p def : colon p -> returns_or_null (bad_section ini section) (iot_int ini section p def) int_range.
Proof using Hw.
  intros [q E]. unfold iot_int. rewrite E. eapply or_null_weaken; [by apply getint_or_null|apply iot_key_missing|done].
Qed.

Lemma iot_str_or_null p def : colon p -> returns_or_null (bad_section ini section) (iot_str ini section p def) (fun _ => True).
Proof using Hw.
  intros [q E]. unfold iot_str. rewrite E. pose proof (represents_dict_map ini Hw) as Hr.
  rewrite (getstring_spec ini (dict_map ini)) by done. cbn [mbind outcome_bind].
  destruct (dict_map ini !! lookup_key (iot_key section (58 :: q))) as [ [s|]|] eqn:El; cbn; [by apply or_null_done| |by apply or_null_done].
  right. split; [done|]. by apply (iot_key_missing q), Hr.
Qed.

End Parse.

(** ** Hardware addresses *)

Lemma hex_digit_range c d : hex_digit c = Some d -> 0 <= d < 16.
Proof.
  unfold hex_digit. destruct (Z.leb_spec 48 c), (Z.leb_spec c 57), (Z.leb_spec 97 c), (Z.leb_spec c 102), (Z.leb_spec 65 c), (Z.leb_spec c 70);
    cbn [andb]; intros [= <-]; lia.
Qed.

Lemma scan_hex2_byte s b r : scan_hex2 s = Some (b, r) -> is_byte b.
Proof.
  unfold scan_hex2, is_byte. destruct (drop_while isspace s) as [|c s']; [done|].
  destruct (hex_digit c) as [d|] eqn:E; [apply hex_digit_range in E|].
  - destruct s' as [|c' s'']; [intros [= <- _]; lia|]. destruct (hex_digit c') as [d'|] eqn:E'; [apply hex_digit_range in E'|].
    + intros [= <- _]. lia.
    + destruct ((c =? 48) && _); [done|]. intros [= <- _]. lia.
  - destruct ((c =? 43) || (c =? 45)); [|done]. destruct s' as [|c' s'']; [done|].
    destruct (hex_digit c') as [d|] eqn:E'; [apply hex_digit_range in E'|done]. intros [= <- _].
    destruct (c =? 45); [|lia]. apply (u8_range (- d)).
Qed.

Lemma mac_conversions n s : (length (sscanf (mac_format n) s) <= n)%nat /\ Forall (fun c => exists b, c = Byte b /\ is_byte b) (sscanf (mac_format n) s).
Proof.
  revert s. induction n as [|[|n] IH]; intros s; [by split; [|apply Forall_nil_2]| |].
  - cbn [mac_format sscanf]. destruct (scan_hex2 s) as [ [b r]|] eqn:E; [|split; [cbn; lia|apply Forall_nil_2] ].
    split; [cbn; lia|]. apply Forall_singleton. exists b. split; [done|by eapply scan_hex2_byte].
  - change (mac_format (S (S n))) with (Hex2 :: Char 58 :: mac_format (S n)). cbn [sscanf].
    destruct (scan_hex2 s) as [ [b r]|] eqn:E; [|split; [cbn; lia|apply Forall_nil_2] ]. apply scan_hex2_byte in E.
    assert (exists l, (match r with [] => [] | c' :: s' => if c' =? 58 then sscanf (mac_format (S n)) s' else [] end) = l /\
            (length l <= S n)%nat /\ Forall (fun c => exists b, c = Byte b /\ is_byte b) l) as (l & -> & Hl & Hf).
    { eexists. split; [reflexivity|]. destruct r as [|c' s']; [split; [cbn; lia|apply Forall_nil_2]|].
      destruct (c' =? 58); [apply IH|split; [cbn; lia|apply Forall_nil_2] ]. }
    split; [cbn [length]; lia|]. apply Forall_cons_2; [eauto|done].
Qed.

Lemma scan_mac_typed n s : length (snd (scan_mac n s)) = n /\ Forall is_byte (snd (scan_mac n s)).
Proof.
  unfold scan_mac. destruct (mac_conversions n s) as [Hl Hf]. cbn [snd]. set (l := sscanf (mac_format n) s) in *.
  assert (length (omap (fun c => match c with Byte b => Some b | Str _ => None end) l) = length l /\
          Forall is_byte (omap (fun c => match c with Byte b => Some b | Str _ => None end) l)) as [E Hb].
  { clear Hl. induction Hf as [|c l (b & -> & Hb) _ [IH1 IH2] ]; [by split; [|apply Forall_nil_2]|].
    cbn. split; [by rewrite IH1|by apply Forall_cons_2]. }
  split; [rewrite length_app, length_replicate, E; lia|]. apply Forall_app_2; [done|].
  apply Forall_replicate. unfold is_byte. lia.
Qed.

(** ** Attributes *)

Definition half (z : Z) : Prop := 0 <= z < 65536.
Definition mac_ok (n : nat) (l : list Z) : Prop := length l = n /\ Forall is_byte l.

(** The type of the attributes of a protocol. *)
Definition attr_ok (type : Z) (a : IotDevSpecificAttr) : Prop :=
  match a with
  | no_attr => False
  | bt_attr a => type = IOT_PROTO_TYPE_BLUETOOTH /\
      half (bt_port a) /\ is_byte (bt_version a) /\ half (conn_interval a) /\ mac_ok 6 (bt_mac a)
  | can_attr a => type = IOT_PROTO_TYPE_CAN /\
      half (can_port a) /\ can_bitrate a ∈ [125000; 250000; 500000; 1000000] /\ 1 <= can_mode a <= 3 /\ 0 <= can_filter_id a < 2 ^ 32
  | zigbee_attr a => type = IOT_PROTO_TYPE_ZIGBEE /\
      half (zigbee_pan_id a) /\ 11 <= zigbee_channel a <= 26 /\ 1 <= zigbee_role a <= 3 /\ mac_ok 8 (zigbee_mac a)
  | lora_attr a => type = IOT_PROTO_TYPE_LORA /\
      half (lora_port a) /\ 1 <= lora_freq_band a <= 3 /\ 7 <= lora_sf a <= 12 /\ 1 <= lora_cr a <= 4 /\ 0 <= lora_dev_eui a < 2 ^ 32
  | plk_attr a => type = IOT_PROTO_TYPE_POWERLINK /\
      half (plk_port a) /\ 1 <= plk_node_id a <= 240 /\ 0 <= plk_role a <= 1 /\ 1 <= plk_cycle_ms a <= 10 /\
      half (plk_rx_pdo_len a) /\ half (plk_tx_pdo_len a) /\ mac_ok 6 (plk_mac a)
  | mb_attr a => type = IOT_PROTO_TYPE_MODBUSTCP /\
      half (mb_port a) /\ is_byte (mb_unit_id a) /\ 0 <= mb_proto_ver a <= 1 /\ 0 < mb_timeout_ms a < 2 ^ 32 /\
      is_byte (mb_retry_cnt a) /\ mac_ok 6 (mb_mac a)
  end.

(** One getter of a parser: it answers, or the section is a bad one. *)
Ltac iot_get :=
  match goal with
  | |- returns_or_null _ (mbind _ (iot_int _ _ _ _)) _ =>
      eapply or_null_bind; [apply iot_int_or_null; [done|by eexists]|]; let z := fresh "z" in let Hz := fresh "Hz" in intros z Hz;
      unfold int_range in Hz; cbv beta zeta
  | |- returns_or_null _ (mbind _ (iot_str _ _ _ _)) _ =>
      eapply or_null_bind; [apply iot_str_or_null; [done|by eexists]|]; let s := fresh "s" in intros s _; cbv beta zeta
  end.

(** The range check fails and the parser returns an error. *)
Ltac iot_reject := match goal with |- returns_or_null _ (if ?b then Done None else _) _ => destruct b eqn:?; [by apply or_null_done|] end.

(** The fields of the record just built. *)
Ltac iot_fields :=
  cbn [attr_ok bt_port bt_mac bt_version conn_interval can_port can_bitrate can_mode can_filter_id zigbee_pan_id zigbee_channel
       zigbee_mac zigbee_role lora_port lora_freq_band lora_sf lora_cr lora_dev_eui plk_port plk_mac plk_node_id plk_role
       plk_cycle_ms plk_rx_pdo_len plk_tx_pdo_len mb_port mb_mac mb_unit_id mb_proto_ver mb_timeout_ms mb_retry_cnt].

Section Attributes.
Context (ini : dictionary) (section : cstring) (Hw : dict_wf ini).

(** A parser returns, unless the section is a bad one, and what it accepts is
    typed. *)
Definition parses {A} (o : outcome (option A)) (P : A -> Prop) : Prop :=
  returns_or_null (bad_section ini section) o (fun r => match r with None => True | Some a => P a end).

Lemma bluetooth_typed : parses (parse_bluetooth_attr ini section) (fun a => attr_ok IOT_PROTO_TYPE_BLUETOOTH (bt_attr a)).
Proof using Hw.
  unfold parses, parse_bluetooth_attr. repeat iot_get. apply or_null_done. iot_fields. split; [done|].
  split; [apply u16_range|]. split; [apply u8_range|]. split; [apply u16_range|apply scan_mac_typed].
Qed.

Lemma can_typed : parses (parse_can_attr ini section) (fun a => attr_ok IOT_PROTO_TYPE_CAN (can_attr a)).
Proof using Hw.
  unfold parses, parse_can_attr. do 2 iot_get. iot_reject. iot_get.
  destruct (can_mode_of s) as [mode|] eqn:Em; [|by apply or_null_done]. iot_get. apply or_null_done. iot_fields. split; [done|].
  split; [apply u16_range|]. split; [|split; [|apply u32_range] ].
  - rewrite !elem_of_cons. lia.
  - unfold can_mode_of in Em. repeat (case_match; [injection Em as <-; lia|]). done.
Qed.

Lemma zigbee_typed : parses (parse_zigbee_attr ini section) (fun a => attr_ok IOT_PROTO_TYPE_ZIGBEE (zigbee_attr a)).
Proof using Hw.
  unfold parses, parse_zigbee_attr. do 2 iot_get. iot_reject. iot_get.
  destruct (zigbee_role_of s) as [role|] eqn:Em; [|by apply or_null_done]. iot_get.
  pose proof (scan_mac_typed 8 s0) as Hm. destruct (scan_mac 8 s0) as [n mac]. iot_reject. apply or_null_done. iot_fields.
  split; [done|]. split; [apply u16_range|]. split; [lia|]. split; [|done].
  unfold zigbee_role_of in Em. repeat (case_match; [injection Em as <-; lia|]). done.
Qed.

Lemma lora_typed : parses (parse_lora_attr ini section) (fun a => attr_ok IOT_PROTO_TYPE_LORA (lora_attr a)).
Proof using Hw.
  unfold parses, parse_lora_attr. do 2 iot_get. destruct (lora_band_of s) as [band|] eqn:Em; [|by apply or_null_done].
  iot_get. iot_reject. iot_get. iot_reject. iot_get. apply or_null_done. iot_fields. split; [done|]. split; [apply u16_range|].
  split; [|split; [lia|split; [lia|apply u32_range] ] ]. unfold lora_band_of in Em. repeat (case_match; [injection Em as <-; lia|]). done.
Qed.

Lemma powerlink_typed : parses (parse_powerlink_attr ini section) (fun a => attr_ok IOT_PROTO_TYPE_POWERLINK (plk_attr a)).
Proof using Hw.
  unfold parses, parse_powerlink_attr. do 2 iot_get. iot_reject. iot_get.
  destruct (plk_role_of s) as [role|] eqn:Em; [|by apply or_null_done]. iot_get. iot_reject. repeat iot_get.
  pose proof (scan_mac_typed 6 s0) as Hm. destruct (scan_mac 6 s0) as [n mac]. iot_reject. apply or_null_done. iot_fields.
  split; [done|]. split; [apply u16_range|]. split; [lia|].
  split; [|split; [lia|split; [apply u16_range|split; [apply u16_range|done] ] ] ].
  unfold plk_role_of in Em. repeat (case_match; [injection Em as <-; lia|]). done.
Qed.

Lemma modbustcp_typed : parses (parse_modbustcp_attr ini section) (fun a => attr_ok IOT_PROTO_TYPE_MODBUSTCP (mb_attr a)).
Proof using Hw.
  unfold parses, parse_modbustcp_attr. do 2 iot_get. iot_reject. iot_get.
  destruct (mb_proto_of s) as [ver|] eqn:Em; [|by apply or_null_done]. repeat iot_get.
  pose proof (scan_mac_typed 6 s0) as Hm. destruct (scan_mac 6 s0) as [n mac]. iot_reject. apply or_null_done. iot_fields.
  split; [done|]. split; [apply u16_range|]. split; [apply u8_range|]. split; [|split; [|split; [apply u8_range|done] ] ].
  - unfold mb_proto_of in Em. repeat (case_match; [injection Em as <-; lia|]). done.
  - match goal with |- context [u32 ?t =? 0] => pose proof (u32_range t); destruct (Z.eqb_spec (u32 t) 0) end; lia.
Qed.

Lemma parse_attr_typed type : parses (parse_attr ini section type) (attr_ok type).
Proof using Hw.
  unfold parse_attr. repeat (match goal with |- context [type =? ?t] => destruct (Z.eqb_spec type t) as [->|_] end;
    [eapply or_null_bind;
       [first [apply bluetooth_typed|apply can_typed|apply zigbee_typed|apply lora_typed|apply powerlink_typed|apply modbustcp_typed]|];
     intros r H; apply or_null_done; by destruct r|]).
  by apply or_null_done.
Qed.
End Attributes.

(** ** Devices *)

Record iot_dev_ok (d : IotDevice) : Prop := {
  io_id : - 2 ^ 31 <= iot_dev_id d < 2 ^ 31 /\ iot_dev_id d <> -1;
  io_type : 1 <= iot_dev_type d <= 6;
  io_status : 0 <= iot_dev_status d <= 3;
  io_name : (length (iot_name d) < MAX_DEV_NAME)%nat;
  io_mode : 0 <= working_mode (iot_config d) <= 1;
  io_path : (length (config_path (iot_config d)) < 256)%nat;
  io_attr : attr_ok (iot_dev_type d) (specific_attr d);
  io_fd : iot_fd d = -1 /\ iot_sess_id d = -1 }.

Lemma iot_type_range s t : iot_type_of s = Some t -> 1 <= t <= 6.
Proof. unfold iot_type_of. repeat (case_match; [intros [= <-]; vm_compute; split; discriminate|]). done. Qed.

Lemma iot_status_range s : 0 <= iot_status_of s <= 3.
Proof. unfold iot_status_of. repeat (case_match; [vm_compute; split; discriminate|]). vm_compute; split; discriminate. Qed.

Lemma device_typed ini section dup :
  dict_wf ini ->
  returns_or_null (bad_section ini section) (init_iot_device ini section dup) (fun r => fst r = true -> iot_dev_ok (snd r)).
Proof.
  intros Hw. unfold init_iot_device. iot_get. destruct (Z.eqb_spec z (-1)); [by apply or_null_done|]. iot_get.
  destruct (iot_type_of s) as [type|] eqn:Et; [|by apply or_null_done]. apply iot_type_range in Et. repeat iot_get.
  eapply or_null_bind; [by apply (parse_attr_typed ini section Hw type)|]. intros r Ha.
  destruct r as [a|]; [|by apply or_null_done]. apply or_null_done. intros _. cbn [snd].
  split; cbn [iot_dev_id iot_dev_type iot_dev_status iot_name iot_config working_mode config_path specific_attr iot_fd iot_sess_id];
    try done.
  - apply iot_status_range.
  - rewrite length_take. unfold MAX_DEV_NAME. lia.
  - case_match; lia.
  - rewrite length_take. lia.
Qed.

(** The sections that name devices. *)
Definition is_device (s : cstring) : bool := strncmp_eq s (lit "device_") 7.
Definition device_sections (d : dictionary) : list cstring := List.filter is_device (sections d).

(** What the loop leaves. *)
Definition loop_result (ini : dictionary) (i p f : nat) (r : list IotDevice * nat * nat) : Prop :=
  let '(devs', p', f') := r in
  length devs' = MAX_IOT_DEV_NUM /\ (p <= p' <= MAX_IOT_DEV_NUM)%nat /\
  (forall j d, (j < p')%nat -> devs' !! j = Some d -> iot_dev_ok d) /\ (f <= f')%nat /\
  (f' = f -> p' = MAX_IOT_DEV_NUM `min` (p + length (List.filter is_device (drop i (sections ini)))))%nat.

(** A section of the table is a bad one. *)
Definition bad_table (ini : dictionary) : Prop := exists s, s ∈ sections ini /\ bad_section ini s.

Lemma devices_loop env ini fuel i devs p f :
  dict_wf ini -> length devs = MAX_IOT_DEV_NUM -> (p <= MAX_IOT_DEV_NUM)%nat -> (i + fuel = length (sections ini))%nat ->
  (forall j d, (j < p)%nat -> devs !! j = Some d -> iot_dev_ok d) ->
  returns_or_null (bad_table ini) (iot_devices_loop env ini fuel i devs p f) (loop_result ini i p f).
Proof.
  intros Hw. revert i devs p f. induction fuel as [|fuel IH]; intros i devs p f Hd Hp Hi Hok.
  { apply or_null_done. unfold loop_result. rewrite drop_ge by lia. cbn [List.filter length]. split_and!; first [done|lia|intros; lia]. }
  cbn [iot_devices_loop]. destruct (Nat.ltb_spec p MAX_IOT_DEV_NUM) as [Hlt|Hge]; cbn [negb].
  2:{ apply or_null_done. unfold loop_result. split_and!; first [done|lia|intros; lia]. }
  rewrite getsecname_spec by done. destruct (lookup_lt_is_Some_2 (sections ini) i) as [s Hsec]; [lia|]. rewrite Hsec.
  cbn [mbind outcome_bind]. unfold loop_result. rewrite (drop_S _ s) by done. cbn [List.filter]. change (strncmp_eq s (lit "device_") 7) with (is_device s).
  destruct (is_device s); cbn [negb]; [|by apply IH; try done; lia].
  eapply or_null_bind.
  { eapply or_null_weaken; [by apply (device_typed ini s (id_dup env i))| |by intros ? H; exact H].
    intros Hb. exists s. split; [by eapply list_elem_of_lookup_2|done]. }
  intros [ok d] Hdev. cbn [fst snd] in Hdev. destruct ok.
  - eapply or_null_weaken; [apply (IH (S i) (<[p := d]> devs) (S p) f); [by rewrite length_insert|lia|lia|]|done|].
    + intros j d' Hj. destruct (decide (j = p)) as [->|Hne].
      * rewrite list_lookup_insert_eq by lia. intros [= <-]. by apply Hdev.
      * rewrite list_lookup_insert_ne by done. apply Hok. lia.
    + intros [ [devs' p'] f'] (H1 & H2 & H3 & H4 & H5). split_and!; try first [done|lia]. intros E. rewrite (H5 E). cbn [length]. lia.
  - eapply or_null_weaken; [apply (IH (S i) (<[p := d]> devs) p (S f)); [by rewrite length_insert|lia|lia|]|done|].
    + intros j d' Hj. rewrite list_lookup_insert_ne by lia. by apply Hok.
    + intros [ [devs' p'] f'] (H1 & H2 & H3 & H4 & H5). split_and!; first [done|lia|intros; lia].
Qed.

(** Start-up reports an error. *)
Ltac refused := apply or_null_done; split; [by right|done].

(** What start-up of the IoT devices leaves, in every case. *)
Definition iot_result (env : iot_dev_env) (st : status) (e' : iot_engine) : Prop :=
  (st = PROCESS_OK \/ st = PROCESS_ERROR) /\
  (st = PROCESS_OK -> exists d devs,
     iniparser_load (id_new env) (id_lines env) (id_file env) = Done (Some d) /\ iot_dev_set e' = Some devs /\
     length devs = MAX_IOT_DEV_NUM /\ 0 < iot_dev_num e' /\
     iot_dev_num e' = Z.of_nat (MAX_IOT_DEV_NUM `min` length (device_sections d)) /\
     forall j x, Z.of_nat j < iot_dev_num e' -> devs !! j = Some x -> iot_dev_ok x).

(** The file has a section header with a colon in it, or a name that leaves no
    room for the colon of a key. *)
Definition iot_file_bad (env : iot_dev_env) : Prop :=
  exists d s, iniparser_load (id_new env) (id_lines env) (id_file env) = Done (Some d) /\ s ∈ sections d /\ bad_section d s.

Lemma iot_devices_run env e :
  new_available (id_new env) -> match iot_dev_set e with None => True | Some s => length s = MAX_IOT_DEV_NUM end ->
  returns_or_null (iot_file_bad env) (engine_init_iot_devices env e) (fun r => iot_result env (fst r) (snd r)).
Proof.
  intros Hn Hset. unfold iot_result. unfold engine_init_iot_devices.
  destruct (match iot_dev_set e with Some s => Some s | None => _ end) as [set|] eqn:Es; [|refused].
  assert (length set = MAX_IOT_DEV_NUM) as Hl
    by (destruct (iot_dev_set e); [by injection Es as <-|destruct (id_calloc env); [by injection Es as <-|done] ]).
  assert (exists r, iniparser_load (id_new env) (id_lines env) (id_file env) = Done r /\ forall d, r = Some d -> dict_wf d) as (ini & El & Hw).
  { destruct (id_file env) as [f|]; [|by exists None]. destruct (load_start (id_new env) (id_lines env) f Hn) as (d & Hwd & _ & _ & ->).
    apply load_loop_total; [done|lia|lia]. }
  unfold iot_file_bad. rewrite El. cbn [mbind outcome_bind]. destruct ini as [ini|]; [|refused].
  specialize (Hw ini eq_refl). rewrite getnsec_spec by done. cbn [mbind outcome_bind]. rewrite Nat2Z.id.
  eapply or_null_bind.
  { eapply or_null_weaken; [apply (devices_loop env ini (length (sections ini)) 0 set 0 0); try done; [unfold MAX_IOT_DEV_NUM; lia|intros; lia]
      |intros (s & Hs & Hb); by exists ini, s|by intros ? H; exact H]. }
  intros [ [devs p] f] (H1 & H2 & H3 & H4 & H5). destruct (Nat.eqb_spec p 0) as [|Hp]; [refused|].
  destruct (Nat.ltb_spec 0 f) as [|Hf]; [refused|].
  apply or_null_done. cbn [fst snd]. split; [by left|]. intros _. exists ini, devs. cbn [iot_dev_set iot_dev_num].
  unfold MAX_IOT_DEV_NUM in *. rewrite u16_id by lia. assert (f = 0)%nat as -> by lia. specialize (H5 eq_refl). rewrite drop_0 in H5.
  split; [done|]. split; [done|]. split; [done|]. split; [lia|]. split; [by rewrite H5|].
  intros j x Hj. apply H3. lia.
Qed.

(** A file without such a section. *)
Definition iot_file_ok (env : iot_dev_env) : Prop :=
  new_available (id_new env) /\
  forall d, iniparser_load (id_new env) (id_lines env) (id_file env) = Done (Some d) ->
    valued d /\ forall s, s ∈ sections d -> (length s <= 126)%nat.

Lemma iot_file_ok_not_bad env : iot_file_ok env -> ~ iot_file_bad env.
Proof.
  intros [_ H] (d & s & Hd & Hs & [(k & Hk & Hk')|Hl]); destruct (H d Hd) as [Hv Hlen]; [|specialize (Hlen s Hs); lia].
  apply Hv in Hk. congruence.
Qed.


(** ** Sessions *)

(** The session that the device at index [i] would get. *)
Definition attempt (env : nat -> iot_sess_env) (i : nat) (dev : IotDevice) : option IoTBackendSession :=
  if (iot_dev_status dev =? IOT_DEV_STATUS_ONLINE) && known_iot_type (iot_dev_type dev) then
    match is_malloc (env i) ≫= init_of_type (iot_dev_type dev) (working_mode (iot_config dev)) (env i) with
    | Some (PROCESS_OK, s, _) => Some s
    | _ => None
    end
  else None.

(** The sessions of protocol [t] that could be set up, in device order. *)
Fixpoint candidates (env : nat -> iot_sess_env) (t : Z) (i : nat) (devs : list IotDevice) : list IoTBackendSession :=
  match devs with
  | [] => []
  | dev :: devs =>
      match (if iot_dev_type dev =? t then attempt env i dev else None) with
      | Some s => s :: candidates env t (S i) devs
      | None => candidates env t (S i) devs
      end
  end.

Lemma candidates_snoc env t i devs dev :
  candidates env t i (devs ++ [dev]) =
  candidates env t i devs ++ option_list (if iot_dev_type dev =? t then attempt env (i + length devs) dev else None).
Proof.
  revert i. induction devs as [|d devs IH]; intros i; cbn [candidates app length].
  - rewrite Nat.add_0_r. by destruct (if _ =? t then _ else _).
  - rewrite IH. replace (S i + length devs)%nat with (i + S (length devs))%nat by lia.
    by destruct (if iot_dev_type d =? t then _ else _).
Qed.

Lemma iot_sess_of_set x t t' s : known_iot_type t = true -> known_iot_type t' = true ->
  iot_sess_of (set_iot_sess x t' s) t = if t' =? t then s else iot_sess_of x t.
Proof.
  unfold known_iot_type. intros H H'. assert (t = 1 \/ t = 2 \/ t = 3 \/ t = 4 \/ t = 5 \/ t = 6) as Ht by lia.
  assert (t' = 1 \/ t' = 2 \/ t' = 3 \/ t' = 4 \/ t' = 5 \/ t' = 6) as Ht' by lia. clear H H'.
  repeat destruct Ht as [->|Ht]; subst; repeat destruct Ht' as [->|Ht']; subst; reflexivity.
Qed.

(** One case of the switch keeps a session, or takes the candidate. *)
Lemma session_case env i dev cur :
  (iot_dev_status dev =? IOT_DEV_STATUS_ONLINE) && known_iot_type (iot_dev_type dev) = true ->
  exists cl, iot_session_case cur (is_malloc (env i)) (init_of_type (iot_dev_type dev) (working_mode (iot_config dev)) (env i)) =
  (match cur with Some s => Some s | None => attempt env i dev end, cl,
   bool_decide (cur = None /\ is_Some (attempt env i dev))).
Proof.
  intros Hon. unfold iot_session_case, attempt. rewrite Hon. destruct cur as [s|].
  { eexists. rewrite bool_decide_eq_false_2; [done|]. by intros [ [=] _]. }
  destruct (is_malloc (env i)) as [m|]; cbn [mbind option_bind].
  2:{ eexists. rewrite bool_decide_eq_false_2; [done|]. by intros [_ [? [=] ] ]. }
  destruct (init_of_type _ _ _ m) as [ [ [ [] s] cl]|]; eexists;
    first [rewrite bool_decide_eq_true_2; [done|by eauto]|rewrite bool_decide_eq_false_2; [done|by intros [_ [? [=] ] ] ] ].
Qed.

(** The sessions after the first [cnt] devices, and the count of successes. *)
Definition bound_first (env : nat -> iot_sess_env) (devs : list IotDevice) (x : iot_sessions) (count : nat) : Prop :=
  (forall t, known_iot_type t = true -> iot_sess_of x t = head (candidates env t 0 devs)) /\
  ((0 < count)%nat <-> exists t, known_iot_type t = true /\ is_Some (iot_sess_of x t)).

Lemma bound_step env devs x count dev :
  bound_first env devs x count ->
  (iot_dev_status dev =? IOT_DEV_STATUS_ONLINE) && known_iot_type (iot_dev_type dev) = true ->
  let cur := iot_sess_of x (iot_dev_type dev) in
  let s := match cur with Some s => Some s | None => attempt env (length devs) dev end in
  bound_first env (devs ++ [dev]) (set_iot_sess x (iot_dev_type dev) s)
    (if bool_decide (cur = None /\ is_Some (attempt env (length devs) dev)) then S count else count).
Proof.
  intros [H1 H2] Hon cur s. apply andb_true_iff in Hon as [_ Hk]. split.
  - intros t Ht. rewrite candidates_snoc, iot_sess_of_set by done. cbn [Nat.add].
    destruct (Z.eqb_spec (iot_dev_type dev) t) as [E|E]; [|rewrite (H1 t Ht); by rewrite app_nil_r].
    unfold s, cur. rewrite E, (H1 t Ht). destruct (candidates env t 0 devs); cbn; [by destruct (attempt _ _ _)|done].
  - case_bool_decide as Hd.
    + split; [|lia]. intros _. exists (iot_dev_type dev). split; [done|]. rewrite iot_sess_of_set, Z.eqb_refl by done.
      unfold s. by destruct Hd as [-> ?].
    + rewrite H2. split; intros (t & Ht & Hs); exists t; (split; [done|]); rewrite iot_sess_of_set in * by done;
        destruct (Z.eqb_spec (iot_dev_type dev) t) as [E|E]; try done; subst t; unfold s, cur in *;
        destruct (iot_sess_of x (iot_dev_type dev)); [by eauto|by destruct Hs| by eauto|].
      destruct Hd. eauto.
Qed.

Lemma sessions_loop env devs done_ fuel x closed count rest :
  devs = done_ ++ rest -> (fuel <= length rest)%nat -> bound_first env done_ x count ->
  exists x' closed' count', iot_sessions_loop env devs fuel (length done_) x closed count = Done (x', closed', count') /\
  bound_first env (done_ ++ take fuel rest) x' count'.
Proof.
  revert done_ x closed count rest. induction fuel as [|fuel IH]; intros done_ x closed count rest E Hf Hb.
  { exists x, closed, count. by rewrite take_0, app_nil_r. }
  destruct rest as [|dev rest]; [cbn in Hf; lia|]. cbn [length] in Hf. cbn [iot_sessions_loop take].
  rewrite E, list_lookup_middle by done. rewrite <- E. assert (devs = (done_ ++ [dev]) ++ rest) as E' by (by rewrite <- app_assoc).
  specialize (IH (done_ ++ [dev])). rewrite length_app, Nat.add_1_r in IH.
  replace (done_ ++ dev :: take fuel rest) with ((done_ ++ [dev]) ++ take fuel rest) by (by rewrite <- app_assoc).
  destruct ((iot_dev_status dev =? IOT_DEV_STATUS_ONLINE) && known_iot_type (iot_dev_type dev)) eqn:Hon.
  - destruct (session_case env (length done_) dev (iot_sess_of x (iot_dev_type dev)) Hon) as [cl ->].
    apply IH; [done|lia|]. by apply bound_step.
  - apply IH; [done|lia|]. destruct Hb as [H1 H2]. split; [|done]. intros t Ht. rewrite candidates_snoc, (H1 t Ht).
    unfold attempt. rewrite Hon. destruct (iot_dev_type dev =? t); by rewrite app_nil_r.
Qed.

(** C31. Each protocol gets at most one session, and the first device wins:
    after start-up of the IoT sessions, the session of a protocol is that of
    the first online device of the protocol whose initialisation succeeds, and
    there is none when there is no such device; start-up reports success
    exactly when some session exists or no device is configured. *)
Theorem engine_init_iot_sessions_first env devs n :
  0 <= n <= Z.of_nat (length devs) ->
  exists st x closed, engine_init_iot_sessions env (Some {| iot_dev_set := Some devs; iot_dev_num := n |}) = Done (st, x, closed) /\
  (forall t, known_iot_type t = true -> iot_sess_of x t = head (candidates env t 0 (take (Z.to_nat n) devs))) /\
  (st = PROCESS_OK <-> n = 0 \/ exists t, known_iot_type t = true /\ is_Some (iot_sess_of x t)).
Proof.
  intros Hn. unfold engine_init_iot_sessions.
  destruct (sessions_loop env devs [] (Z.to_nat n) no_iot_sessions [] 0 devs) as (x & closed & count & E & H1 & H2); [done|lia| |].
  { split; [intros t Ht; unfold iot_sess_of; by repeat case_match|]. split; [lia|].
    intros (t & Ht & Hs). unfold iot_sess_of in Hs. repeat case_match; by destruct Hs. }
  cbn [length] in E. rewrite E. cbn [mbind outcome_bind]. eexists _, _, _. split; [reflexivity|]. split; [done|].
  rewrite <- H2. destruct (Nat.ltb_spec 0 count), (Z.eqb_spec n 0); cbn [orb]; split; try done; try tauto; intros [|]; lia.
Qed.

(** ** The file of the repository *)

(** iot_dev.ini *)
Definition iot_dev_ini : cstring := lit "; Bluetooth device (dev_id=101)
[device_101]
dev_id = 101
dev_type = bluetooth  ; Enumeration values: bluetooth/can/zigbee/lora/powerlink
ns_name = iot_bluetooth
dev_status = online
name = ble_sensor_01
working_mode = client  ; 0=client mode, 1=server/gateway mode
config_path = /etc/iot/dev_101.conf
auto_connect = 1       ; 0=manual connect, 1=auto connect on startup
physical_port = 0
; Bluetooth specific parameters
bt_port = 18
bt_version = 5.0
conn_interval = 50     ; BLE connection interval (ms)
bt_mac = 00:12:34:56:78:9A

; CAN device (dev_id=102)
[device_102]
dev_id = 102
dev_type = can
ns_name = iot_can
dev_status = online
name = can_bus_01
working_mode = client
config_path = /etc/iot/dev_102.conf
auto_connect = 1
physical_port = 1
; CAN specific parameters
can_port = 0
can_bitrate = 500000   ; CAN bus bitrate (bps)
can_mode = normal      ; normal/loopback/silent
can_filter_id = 0x12345678

; Zigbee device (dev_id=103)
[device_103]
dev_id = 103
dev_type = zigbee
ns_name = iot_zigbee
dev_status = online
name = zigbee_coordinator_01
working_mode = gateway
config_path = /etc/iot/dev_103.conf
auto_connect = 1
physical_port = 2
; Zigbee specific parameters
zigbee_pan_id = 0x1234
zigbee_channel = 18    ; Zigbee channel (11-26)
zigbee_role = coordinator  ; coordinator/router/enddevice
zigbee_mac = 00:12:34:56:78:9A:BC:DE

; LoRa device (dev_id=104)
[device_104]
dev_id = 104
dev_type = lora
ns_name = iot_lora
dev_status = online
name = lora_endnode_01
working_mode = client
config_path = /etc/iot/dev_104.conf
auto_connect = 1
physical_port = 3
; LoRa specific parameters
lora_port = 2
lora_freq_band = EU868 ; EU868/US915/CN470
lora_sf = 9            ; LoRa spreading factor (7-12)
lora_cr = 1            ; LoRa coding rate (1-4, 4/5 ~ 4/8)
lora_dev_eui = 0011223344556677


; OpenPowerLink device (dev_id=105)
[device_105]
dev_id = 105
dev_type = powerlink  ; Enumeration values: bluetooth/can/zigbee/lora/powerlink
ns_name = iot_powerlink
dev_status = online
name = powerlink_mn_01
working_mode = client  ; 0=client mode, 1=server/gateway mode
config_path = /etc/iot/dev_105.conf
auto_connect = 1       ; 0=manual connect, 1=auto connect on startup
physical_port = 4
; OpenPowerLink specific parameters
plk_port = 0           ; POWERLINK port number (Ethernet interface)
plk_node_id = 1        ; POWERLINK NodeID (1-240)
plk_role = mn          ; mn (Managing Node)/cn (Controlled Node)
plk_cycle_ms = 1       ; Real-time cycle (ms, 1~10ms)
plk_rx_pdo_len = 64    ; Received PDO length
plk_tx_pdo_len = 64    ; Transmitted PDO length
plk_mac = 00:12:34:56:78:9B ; POWERLINK device MAC address


; ModbusTCP device (dev_id=106)
[device_106]
dev_id = 106
dev_type = modbustcp      ; New type supported
ns_name = iot_modbus
dev_status = online
name = modbus_tcp_slave_01
working_mode = client     ; Typically client when connecting to a PLC/Server
config_path = /etc/iot/dev_106.conf
auto_connect = 1
physical_port = 5         ; Logical port mapping if needed

; ModbusTCP specific parameters
mb_port = 502             ; Standard ModbusTCP port
mb_unit_id = 1            ; Slave ID (1-247 usually, 0 is broadcast)
mb_proto_ver = tcp        ; 'tcp' for standard ModbusTCP, 'rtu_over_tcp' for RTU framing
mb_timeout_ms = 1000      ; Connection/Response timeout in ms
mb_retry_cnt = 3          ; Number of retries on failure
mb_mac = 00:12:34:56:78:9C ; Device MAC address
".

Definition demo_iot_file (file : list Z) : iot_dev_env :=
  {| id_calloc := true; id_file := Some file; id_new := demo_new; id_lines := fun _ => demo_line_env; id_dup := fun _ => (true, true) |}.

Definition demo_iot_env : iot_dev_env := demo_iot_file iot_dev_ini.


(** The header of the first section looks like a key of the second. *)
Example colon_device_faults :
  engine_init_iot_devices (demo_iot_file (lit "[device_1:dev_id]
[device_1]
")) {| iot_dev_set := None; iot_dev_num := 0 |} = Fault NullDeref.
Proof. vm_compute. reflexivity. Qed.

(** The key buffer has no room for the colon: the key read is the section. *)
Example long_device_faults :
  engine_init_iot_devices (demo_iot_file (lit "[device_" ++ replicate 120 97 ++ lit "]
")) {| iot_dev_set := None; iot_dev_num := 0 |} = Fault NullDeref.
Proof. vm_compute. reflexivity. Qed.

(** Two Bluetooth devices, the socket of the first cannot be created. *)
Definition demo_bt_dev : IotDevice :=
  {| iot_dev_id := 1; iot_dev_type := IOT_PROTO_TYPE_BLUETOOTH; iot_ns_name := None; iot_dev_status := IOT_DEV_STATUS_ONLINE;
     iot_name := []; iot_config := {| working_mode := 0; config_path := []; auto_connect := 0 |}; specific_attr := no_attr;
     iot_sess_id := -1; physical_port := -1; iot_fd := -1 |}.

Definition demo_sess_env (i : nat) : iot_sess_env :=
  {| is_malloc := Some zero_iot_sess;
     is_bt := {| be_socket := Z.of_nat i - 1; be_bind := true; be_listen := true; be_connect := true; be_getfl := true; be_setfl := true |};
     is_can := {| cae_socket := -1; cae_getflags := None; cae_getindex := true; cae_bind := true; cae_getfl := true; cae_setfl := true |};
     is_new_tcp := true; is_connect := true |}.

Lemma engine_init_iot_sessions_first_witness :
  exists st x closed, engine_init_iot_sessions demo_sess_env
    (Some {| iot_dev_set := Some [demo_bt_dev; demo_bt_dev; demo_bt_dev]; iot_dev_num := 3 |}) = Done (st, x, closed) /\
  (iot_dev_fd <$> iot_sess_of x IOT_PROTO_TYPE_BLUETOOTH) = Some 0 /\ st = PROCESS_OK.
Proof.
  destruct (engine_init_iot_sessions_first demo_sess_env [demo_bt_dev; demo_bt_dev; demo_bt_dev] 3) as (st & x & closed & E & H1 & H2).
  - cbn. lia.
  - exists st, x, closed. split; [exact E|]. rewrite (H1 IOT_PROTO_TYPE_BLUETOOTH eq_refl). split; [reflexivity|].
    apply H2. right. exists IOT_PROTO_TYPE_BLUETOOTH. split; [reflexivity|]. rewrite (H1 IOT_PROTO_TYPE_BLUETOOTH eq_refl). eexists. reflexivity.
Defined.
