(* ===== verification/Netns.v ===== *)
(** * Netns: sockets in the network namespaces of devices

    src/netns_socket.c: [create_socket_netns] enters the namespace of a device,
    creates the socket and returns to the namespace it came from;
    [connect_socket_netns] connects the socket to the requested endpoint.  What
    the system calls do is written on the process's view of the kernel: the
    namespace it is in and what its descriptors refer to; whether a call
    succeeds and the descriptor it answers are arguments. *)

From S2P Require Import Prelude Bytes Mem ByteStore Message Build Session Device Responses SessionPool CString Dictionary DevConfig.
From stdpp Require Import base list numbers option gmap strings.
From Stdlib Require Import ZArith Lia.
#[local] Open Scope Z_scope.

(** ** The kernel as the process sees it *)

Definition AF_INET : Z := 2.
Definition AF_INET6 : Z := 10.
Definition SOCK_STREAM : Z := 1.
Definition SOCK_DGRAM : Z := 2.
Definition IPPROTO_TCP : Z := 6.
Definition IPPROTO_UDP : Z := 17.
Definition O_NONBLOCK : Z := 2048.

(** [sin_port] as it lies in memory and the bytes of the address. *)
Record UniSockAddr := { family : Z; sa_addr_len : Z; sin_port : Z; sin_addr : list Z }.

Record socket_obj := {
  so_ns : Z; so_domain : Z; so_type : Z; so_protocol : Z;
  so_peer : option UniSockAddr; so_flags : Z; so_rcvtimeo : Z }.

(** What a descriptor refers to. *)
Inductive file := NsFile (ns : Z) | SockFile (s : socket_obj).

(** [k_sent]: the datagrams sent, with the namespace they left from. *)
Record kernel := { k_netns : Z; k_fds : gmap Z file; k_sent : list (Z * UniSockAddr * list Z) }.

Definition with_fds (k : kernel) (fds : gmap Z file) : kernel := {| k_netns := k_netns k; k_fds := fds; k_sent := k_sent k |}.

Definition sys_close (k : kernel) (fd : Z) : kernel := with_fds k (delete fd (k_fds k)).

(** open("/proc/self/ns/net") *)
Definition sys_open_netns (k : kernel) (fd : Z) : kernel := with_fds k (<[fd := NsFile (k_netns k)]> (k_fds k)).

(** setns fails on a descriptor that is not a namespace. *)
Definition sys_setns (k : kernel) (ok : bool) (fd : Z) : bool * kernel :=
  match k_fds k !! fd with
  | Some (NsFile ns) => if ok then (true, {| k_netns := ns; k_fds := k_fds k; k_sent := k_sent k |}) else (false, k)
  | _ => (false, k)
  end.

(** A socket belongs to the namespace it is created in. *)
Definition new_socket (k : kernel) (domain type protocol : Z) : socket_obj :=
  {| so_ns := k_netns k; so_domain := domain; so_type := type; so_protocol := protocol; so_peer := None; so_flags := 0; so_rcvtimeo := 0 |}.

Definition sys_socket (k : kernel) (fd domain type protocol : Z) : kernel :=
  with_fds k (<[fd := SockFile (new_socket k domain type protocol)]> (k_fds k)).

Definition on_socket (k : kernel) (fd : Z) (f : socket_obj -> socket_obj) : kernel :=
  match k_fds k !! fd with
  | Some (SockFile s) => with_fds k (<[fd := SockFile (f s)]> (k_fds k))
  | _ => k
  end.

Definition set_rcvtimeo (secs : Z) (s : socket_obj) : socket_obj :=
  {| so_ns := so_ns s; so_domain := so_domain s; so_type := so_type s; so_protocol := so_protocol s; so_peer := so_peer s;
     so_flags := so_flags s; so_rcvtimeo := secs |}.

Definition set_peer (a : UniSockAddr) (s : socket_obj) : socket_obj :=
  {| so_ns := so_ns s; so_domain := so_domain s; so_type := so_type s; so_protocol := so_protocol s; so_peer := Some a;
     so_flags := so_flags s; so_rcvtimeo := so_rcvtimeo s |}.

Definition add_flags (fl : Z) (s : socket_obj) : socket_obj :=
  {| so_ns := so_ns s; so_domain := so_domain s; so_type := so_type s; so_protocol := so_protocol s; so_peer := so_peer s;
     so_flags := Z.lor (so_flags s) fl; so_rcvtimeo := so_rcvtimeo s |}.

(** ** The UDP probe *)

Definition target_addr (ip : list Z) : UniSockAddr :=
  {| family := AF_INET; sa_addr_len := 16; sin_port := htons 8888; sin_addr := ip |}.

Record udp_env := { ue_sendto : bool; ue_setsockopt : bool }.

(** The reply is received into a local buffer and only printed; both outcomes
    of recvfrom return 0. *)
Definition test_udp_connectivity (env : udp_env) (fd : Z) (k : kernel) : Z * kernel :=
  match inet_pton4 (lit "192.168.137.2") with
  | None => (-1, k)
  | Some ip =>
      if negb (ue_sendto env) then (-1, k) else
      let ns := match k_fds k !! fd with Some (SockFile s) => so_ns s | _ => k_netns k end in
      let k := {| k_netns := k_netns k; k_fds := k_fds k; k_sent := k_sent k ++ [(ns, target_addr ip, lit "test msg")] |} in
      if negb (ue_setsockopt env) then (-1, k) else
      (0, on_socket k fd (set_rcvtimeo 1))
  end.

(** ** Creating a socket *)

Record netns_env := {
  ne_open : option Z;        (** open *)
  ne_setns : bool;           (** setns into the namespace of the device *)
  ne_socket : option Z;      (** socket *)
  ne_back : bool;            (** setns back *)
  ne_udp1 : udp_env; ne_udp2 : udp_env }.

Definition __create_socket_netns (env : netns_env) (ns_id domain type protocol : Z) (k : kernel) : Z * kernel :=
  match ne_open env with
  | None => (ERROR_SOCKET_FD, k)
  | Some orig_netns =>
      let k := sys_open_netns k orig_netns in
      let '(ok, k) := sys_setns k (ne_setns env) ns_id in
      if negb ok then (ERROR_SOCKET_FD, sys_close k orig_netns) else
      match ne_socket env with
      | None => (ERROR_SOCKET_FD, sys_close (snd (sys_setns k (ne_back env) orig_netns)) orig_netns)
      | Some newfd =>
          let udp := (domain =? AF_INET) && (type =? SOCK_DGRAM) in
          let k := sys_socket k newfd domain type protocol in
          let k := if udp then snd (test_udp_connectivity (ne_udp1 env) newfd k) else k in
          let '(ok, k) := sys_setns k (ne_back env) orig_netns in
          if negb ok then (ERROR_SOCKET_FD, sys_close (sys_close k orig_netns) newfd) else
          let k := sys_close k orig_netns in
          (newfd, if udp then snd (test_udp_connectivity (ne_udp2 env) newfd k) else k)
      end
  end.

(** [*fd] is left as it was. *)
Definition create_socket_fastpath (fd : option Z) : status * option Z := (PROCESS_OK, fd).

(** [para] and [fd] NULL: reported, but the function goes on.  [fd]: what the
    pointer points to. *)
Definition create_socket_netns (env : netns_env) (ns_id : Z) (para : option SessMsgPara) (fd : option Z) (k : kernel)
  : outcome (status * option Z * kernel) :=
  match para with
  | None => Fault NullDeref
  | Some para =>
      let domain := if para_ip_version para =? SESS_IPV4_PROTO then Some AF_INET
                    else if para_ip_version para =? SESS_IPV6_PROTO then Some AF_INET6 else None in
      match domain with
      | None => Done (PROCESS_ERROR, fd, k)
      | Some domain =>
          let create type protocol :=
            let '(new_fd, k) := __create_socket_netns env ns_id domain type protocol k in
            if new_fd =? ERROR_SOCKET_FD then Done (PROCESS_ERROR, fd, k) else
            match fd with None => Fault NullDeref | Some _ => Done (PROCESS_OK, Some new_fd, k) end in
          if para_trans_proto para =? SESS_TCP_PROTO then create SOCK_STREAM IPPROTO_TCP
          else if para_trans_proto para =? SESS_UDP_PROTO then create SOCK_DGRAM IPPROTO_UDP
          else if para_trans_proto para =? SESS_FASTPATH_PROTO then Done (create_socket_fastpath fd, k)
          else Done (PROCESS_ERROR, fd, k)
      end
  end.

(** ** Connecting it *)

Definition set_nonblocking (k : kernel) (fd : Z) : kernel := on_socket k fd (add_flags O_NONBLOCK).

(** The address given to connect: [IPv4PortTuple] and [IPv6PortTuple] are the
    address bytes and a two-byte port. *)
Definition endpoint_addr (para : SessMsgPara) : option UniSockAddr :=
  if para_ip_version para =? SESS_IPV4_PROTO then
    match para_ip_port para with
    | a :: b :: c :: d :: p0 :: p1 :: _ =>
        Some {| family := AF_INET; sa_addr_len := 16; sin_port := htons (le_val [p0; p1]); sin_addr := le_bytes 4 (COPY_IPV4_TO_IN a b c d) |}
    | _ => None
    end
  else
    match drop 16 (para_ip_port para) with
    | p0 :: p1 :: _ =>
        Some {| family := AF_INET6; sa_addr_len := 28; sin_port := htons (le_val [p0; p1]); sin_addr := take 16 (para_ip_port para) |}
    | _ => None
    end.

(** [None] from [endpoint_addr]: the union is shorter than the tuple read. *)
Definition connect_socket_netns (connect : bool) (fd : Z) (para : SessMsgPara) (k : kernel) : outcome (status * kernel) :=
  if negb ((para_ip_version para =? SESS_IPV4_PROTO) || (para_ip_version para =? SESS_IPV6_PROTO)) then Done (PROCESS_ERROR, k) else
  match endpoint_addr para with
  | None => Fault OutOfBounds
  | Some a => if negb connect then Done (PROCESS_ERROR, k) else Done (PROCESS_OK, set_nonblocking (on_socket k fd (set_peer a)) fd)
  end.

(** The two answers session creation takes from here: [ce_socket] and
    [ce_connect], as session_pool.c obtains them (266-292). *)
Definition session_socket (env : netns_env) (connect : bool) (ns_id : Z) (para : SessMsgPara) (k : kernel)
  : outcome (option Z * bool * kernel) :=
  r ← create_socket_netns env ns_id (Some para) (Some ERROR_SOCKET_FD) k;
  let '(st, fd, k) := r in
  match st, fd with
  | PROCESS_OK, Some fd => r ← connect_socket_netns connect fd para k; Done (Some fd, bool_decide (fst r = PROCESS_OK), snd r)
  | _, _ => Done (None, false, k)
  end.
