(* ===== verification/NetnsSpec.v ===== *)
(** * NetnsSpec: sockets end up in the right namespace, and nothing else does

    No path of [create_socket_netns] leaves a descriptor behind, the process
    returns to its namespace, and a session's socket is in its device's
    namespace, connected to the requested endpoint. *)

From S2P Require Import Prelude Bytes Mem ByteStore Message Build Session Device Responses SessionPool CString Dictionary DevConfig DevConfigSpec DevConfigFile Netns.
From stdpp Require Import base list numbers option gmap.
From Stdlib Require Import ZArith Lia.
#[local] Open Scope Z_scope.

(** ** System calls *)

Lemma on_socket_fds k fd s f : k_fds k !! fd = Some (SockFile s) ->
  k_fds (on_socket k fd f) = <[fd := SockFile (f s)]> (k_fds k) /\ k_netns (on_socket k fd f) = k_netns k /\
  k_sent (on_socket k fd f) = k_sent k.
Proof. intros H. unfold on_socket. by rewrite H. Qed.

(** The same socket but for the receive timeout. *)
Definition same_socket (s s' : socket_obj) : Prop := exists secs, s' = set_rcvtimeo secs s.

Lemma same_socket_refl s : same_socket s s.
Proof. exists (so_rcvtimeo s). by destruct s. Qed.

Lemma same_socket_trans s t u : same_socket s t -> same_socket t u -> same_socket s u.
Proof. intros [a ->] [b ->]. by exists b. Qed.

Lemma udp_probe_frame env fd k s : k_fds k !! fd = Some (SockFile s) ->
  exists s', let k' := snd (test_udp_connectivity env fd k) in
  same_socket s s' /\ k_fds k' = <[fd := SockFile s']> (k_fds k) /\ k_netns k' = k_netns k.
Proof.
  intros H. unfold test_udp_connectivity. destruct (inet_pton4 _); [|exists s; by rewrite insert_id by done; split; [apply same_socket_refl|]].
  destruct (ue_sendto env); cbn [negb]; [|exists s; by rewrite insert_id by done; split; [apply same_socket_refl|] ].
  destruct (ue_setsockopt env); cbn [negb]; [|exists s; cbn; by rewrite insert_id by done; split; [apply same_socket_refl|] ].
  exists (set_rcvtimeo 1 s). cbn [snd]. set (k0 := {| k_netns := _ |}). destruct (on_socket_fds k0 fd s (set_rcvtimeo 1) H) as (-> & -> & _). split; [by exists 1|done].
Qed.

Lemma probe_frame (udp : bool) env fd k s : k_fds k !! fd = Some (SockFile s) ->
  exists k' s', (if udp then snd (test_udp_connectivity env fd k) else k) = k' /\
  same_socket s s' /\ k_fds k' = <[fd := SockFile s']> (k_fds k) /\ k_netns k' = k_netns k.
Proof.
  intros H. destruct udp.
  - destruct (udp_probe_frame env fd k s H) as (s' & Hs). eauto.
  - exists k, s. rewrite insert_id by done. split; [done|]. split; [apply same_socket_refl|done].
Qed.

(** The namespace descriptor is closed, the socket stays. *)
Lemma close_under (m : gmap Z file) o f x y : m !! o = None -> f <> o -> delete o (<[f := x]> (<[o := y]> m)) = <[f := x]> m.
Proof. intros H Hne. by rewrite delete_insert_ne, delete_insert_id by done. Qed.

(** ** Creating a socket *)

(** The kernel hands out unused descriptors. *)
Record fds_fresh (env : netns_env) (k : kernel) : Prop := {
  ff_open : forall o, ne_open env = Some o -> k_fds k !! o = None;
  ff_socket : forall f, ne_socket env = Some f -> k_fds k !! f = None /\ 0 <= f;
  ff_distinct : forall o f, ne_open env = Some o -> ne_socket env = Some f -> f <> o }.

Definition calls_ok (env : netns_env) : bool :=
  bool_decide (is_Some (ne_open env)) && ne_setns env && bool_decide (is_Some (ne_socket env)) && ne_back env.

(** The socket is in the table, in namespace [n]; nothing else changed. *)
Definition created (k k' : kernel) (fd n domain type protocol : Z) : Prop :=
  exists s, same_socket {| so_ns := n; so_domain := domain; so_type := type; so_protocol := protocol; so_peer := None; so_flags := 0; so_rcvtimeo := 0 |} s /\
  k_fds k' = <[fd := SockFile s]> (k_fds k) /\ k_netns k' = k_netns k.

Lemma create_socket_cases env ns_id domain type protocol k n :
  k_fds k !! ns_id = Some (NsFile n) -> fds_fresh env k ->
  exists fd k', __create_socket_netns env ns_id domain type protocol k = (fd, k') /\
  (k_netns k' = k_netns k \/ k_netns k' = n /\ ne_back env = false) /\
  if calls_ok env then ne_socket env = Some fd /\ created k k' fd n domain type protocol
  else fd = ERROR_SOCKET_FD /\ k_fds k' = k_fds k.
Proof.
  intros Hns [F1 F2 F3]. unfold __create_socket_netns, calls_ok. destruct (ne_open env) as [o|]; [|by eexists _, _; split; [reflexivity|]; split; [left|] ].
  specialize (F1 o eq_refl). assert (ns_id <> o) as Hne by congruence.
  unfold sys_setns at 1. cbn [sys_open_netns with_fds k_fds k_netns k_sent]. rewrite lookup_insert_ne, Hns by done.
  destruct (ne_setns env); cbn [negb].
  2:{ eexists _, _. split; [reflexivity|]. split; [by left|]. rewrite andb_false_r. split; [done|]. by apply delete_insert_id. }
  rewrite (bool_decide_eq_true_2 (is_Some (Some o))) by done. cbn [andb].
  destruct (ne_socket env) as [f|] eqn:Hf.
  2:{ unfold sys_setns. cbn [k_fds]. rewrite lookup_insert_eq, bool_decide_eq_false_2 by (by intros []). cbn [andb].
      destruct (ne_back env); eexists _, _; (split; [reflexivity|]; split; [auto|split; [done|by apply delete_insert_id] ]). }
  rewrite (bool_decide_eq_true_2 (is_Some (Some f))) by done. cbn [andb].
  destruct (F2 f eq_refl) as [Hff _]. pose proof (F3 o f eq_refl eq_refl) as Hfo.
  set (ks := sys_socket _ _ _ _ _). set (udp := (domain =? AF_INET) && (type =? SOCK_DGRAM)).
  destruct (probe_frame udp (ne_udp1 env) f ks (new_socket {| k_netns := n; k_fds := ∅; k_sent := [] |} domain type protocol))
    as (k1 & s1 & -> & S1 & E1 & N1); [apply lookup_insert_eq|].
  cbn [ks sys_socket with_fds k_fds] in E1. rewrite insert_insert_eq in E1.
  unfold sys_setns. rewrite E1, lookup_insert_ne, lookup_insert_eq by done. destruct (ne_back env); cbn [negb].
  - set (k2 := sys_close _ o). assert (k_fds k2 = <[f := SockFile s1]> (k_fds k)) as E2 by (cbn; by apply close_under).
    destruct (probe_frame udp (ne_udp2 env) f k2 s1) as (k3 & s3 & -> & S3 & E3 & N3); [rewrite E2; apply lookup_insert_eq|].
    eexists _, _. split; [reflexivity|]. rewrite E2, insert_insert_eq in E3. split; [by left|]. split; [done|].
    exists s3. split; [by eapply same_socket_trans|]. split; [done|]. by rewrite N3.
  - eexists _, _. split; [reflexivity|]. split; [by right; cbn; rewrite N1|]. split; [done|]. cbn. rewrite E1, close_under by done. by apply delete_insert_id.
Qed.

Definition transport_ok (para : SessMsgPara) : Prop :=
  para_trans_proto para = SESS_TCP_PROTO \/ para_trans_proto para = SESS_UDP_PROTO.

Definition version_ok (para : SessMsgPara) : Prop :=
  para_ip_version para = SESS_IPV4_PROTO \/ para_ip_version para = SESS_IPV6_PROTO.

(** What a caller may rely on.  For TCP and UDP a reported socket is a new
    descriptor for a socket of namespace [n]; for the fast path OK is reported
    with nothing done at all; on an error the descriptors and [*fd] are those
    from before; the process is in its own namespace unless the kernel refused
    the way back. *)
Record isolated (env : netns_env) (k : kernel) (para : SessMsgPara) (fd0 n : Z) (st : status) (fd : Z) (k' : kernel) : Prop := {
  is_when : st = PROCESS_OK <->
    version_ok para /\ (para_trans_proto para = SESS_FASTPATH_PROTO \/ transport_ok para /\ calls_ok env = true);
  is_ok : st = PROCESS_OK -> transport_ok para -> exists s, ne_socket env = Some fd /\ k_fds k !! fd = None /\
    k_fds k' = <[fd := SockFile s]> (k_fds k) /\ so_ns s = n /\ so_peer s = None /\ k_netns k' = k_netns k;
  is_fastpath : para_trans_proto para = SESS_FASTPATH_PROTO -> fd = fd0 /\ k' = k;
  is_error : st <> PROCESS_OK -> fd = fd0 /\ k_fds k' = k_fds k;
  is_home : k_netns k' = k_netns k \/ k_netns k' = n /\ ne_back env = false }.

(** The branches of TCP and UDP. *)
Lemma create_branch env ns_id domain type protocol para fd0 k n :
  k_fds k !! ns_id = Some (NsFile n) -> fds_fresh env k -> version_ok para -> transport_ok para ->
  exists st fd k', (let '(new_fd, k) := __create_socket_netns env ns_id domain type protocol k in
      if new_fd =? ERROR_SOCKET_FD then Done (PROCESS_ERROR, Some fd0, k) else Done (PROCESS_OK, Some new_fd, k)) = Done (st, Some fd, k') /\
  isolated env k para fd0 n st fd k'.
Proof.
  intros Hns Hf Hv Ht. assert (para_trans_proto para <> SESS_FASTPATH_PROTO) as Hfast by (intros E; destruct Ht as [E'|E']; rewrite E' in E; discriminate E).
  destruct (create_socket_cases env ns_id domain type protocol k n Hns Hf) as (fd & k' & -> & Hk & Hc).
  destruct (calls_ok env) eqn:Ec.
  - destruct Hc as (Hfd & s & [secs ->] & Hs & Hk'). destruct (ff_socket _ _ Hf fd Hfd) as [Hfr Hpos].
    rewrite (proj2 (Z.eqb_neq fd ERROR_SOCKET_FD)) by (unfold ERROR_SOCKET_FD; lia).
    eexists _, _, _. split; [reflexivity|]. split; [by split; auto|intros _ _; by eexists|done|done|done].
  - destruct Hc as [-> Hs]. rewrite Z.eqb_refl. eexists _, _, _. split; [reflexivity|]. split; [|done|done|done|done].
    split; [done|]. rewrite Ec. by intros [_ [?|[_ ?] ] ].
Qed.

(** C28. Creating the socket of a session leaks nothing and comes home, for
    every request and whatever the system calls answer ([ns_id] is the open
    descriptor of a namespace, the pointers are not NULL, the kernel hands out
    unused descriptors).  It answers OK exactly for IPv4 and IPv6 when every
    call succeeds (TCP and UDP) or the request is for the fast path.  For the
    fast path OK means nothing: no socket is created and [*fd] keeps its value.
    *)
Theorem create_socket_isolated env ns_id para fd0 k n :
  k_fds k !! ns_id = Some (NsFile n) -> fds_fresh env k ->
  exists st fd k', create_socket_netns env ns_id (Some para) (Some fd0) k = Done (st, Some fd, k') /\ isolated env k para fd0 n st fd k'.
Proof.
  intros Hns Hf. unfold create_socket_netns.
  assert (~ (version_ok para /\ (para_trans_proto para = SESS_FASTPATH_PROTO \/ transport_ok para)) ->
    exists st fd k', Done (PROCESS_ERROR, Some fd0, k) = Done (st, Some fd, k') /\ isolated env k para fd0 n st fd k') as Herr.
  { intros H. eexists _, _, _. split; [reflexivity|]. split; [split; [done|tauto]|done|done|done|by left]. }
  assert (version_ok para -> para_trans_proto para = SESS_FASTPATH_PROTO ->
    exists st fd k', Done (PROCESS_OK, Some fd0, k) = Done (st, Some fd, k') /\ isolated env k para fd0 n st fd k') as Hfast.
  { intros Hv E. eexists _, _, _. split; [reflexivity|]. split; [tauto| |done|done|by left]. intros _ Ht. unfold transport_ok in Ht.
    rewrite E in Ht. destruct Ht as [H|H]; discriminate H. }
  pose proof (create_branch env ns_id) as Hc. unfold version_ok, transport_ok in *.
  repeat match goal with |- context [?x =? ?y] => destruct (Z.eqb_spec x y) end;
    first [by apply Hc; auto|by apply Hfast; auto|by apply Herr; intuition congruence].
Qed.

(** ** The endpoint *)

(** The wire form of an endpoint: address bytes and port. *)
Definition endpoint_ok (version : Z) (addr : list Z) (port : Z) : Prop :=
  (version = SESS_IPV4_PROTO /\ length addr = 4%nat \/ version = SESS_IPV6_PROTO /\ length addr = 16%nat) /\ Forall is_byte addr /\ 0 <= port < 65536.

Definition domain_of (version : Z) : Z := if version =? SESS_IPV4_PROTO then AF_INET else AF_INET6.
Definition addr_len_of (version : Z) : Z := if version =? SESS_IPV4_PROTO then 16 else 28.
Definition kind_of (proto : Z) : Z * Z := if proto =? SESS_TCP_PROTO then (SOCK_STREAM, IPPROTO_TCP) else (SOCK_DGRAM, IPPROTO_UDP).

Lemma endpoint_decoded para addr port :
  endpoint_ok (para_ip_version para) addr port -> para_ip_port para = addr ++ le_bytes 2 port ->
  endpoint_addr para = Some {| family := domain_of (para_ip_version para); sa_addr_len := addr_len_of (para_ip_version para);
                               sin_port := htons port; sin_addr := addr |}.
Proof.
  intros (Hv & Hb & Hp) E. unfold endpoint_addr, domain_of, addr_len_of. rewrite E.
  assert (le_val (le_bytes 2 port) = port) as Hport by (rewrite le_val_bytes; by apply Z.mod_small).
  assert (exists p0 p1, le_bytes 2 port = [p0; p1]) as (p0 & p1 & Eb) by (by eexists _, _). rewrite Eb in Hport |- *.
  destruct Hv as [ [-> Hl]|[-> Hl] ].
  - destruct addr as [|a [|b [|c [|d [|] ] ] ] ]; try discriminate Hl. rewrite !Forall_cons in Hb. destruct Hb as (Ha & Hb & Hc & Hd & _).
    change (SESS_IPV4_PROTO =? SESS_IPV4_PROTO) with true. cbv iota. cbn [app]. rewrite COPY_IPV4_to_in, Hport by done.
    pose proof (le_bytes_val [a; b; c; d]) as Ev. cbn [length] in Ev. rewrite Ev by (by repeat apply Forall_cons_2; try apply Forall_nil_2). done.
  - change (SESS_IPV6_PROTO =? SESS_IPV4_PROTO) with false. cbv iota. rewrite <- Hl, drop_app_length, take_app_length.
    by rewrite Hport.
Qed.

Lemma create_socket_success env ns_id para fd0 k n :
  k_fds k !! ns_id = Some (NsFile n) -> fds_fresh env k -> calls_ok env = true ->
  para_ip_version para = SESS_IPV4_PROTO \/ para_ip_version para = SESS_IPV6_PROTO -> transport_ok para ->
  exists fd k', create_socket_netns env ns_id (Some para) (Some fd0) k = Done (PROCESS_OK, Some fd, k') /\ k_fds k !! fd = None /\
  created k k' fd n (domain_of (para_ip_version para)) (kind_of (para_trans_proto para)).1 (kind_of (para_trans_proto para)).2.
Proof.
  intros Hns Hf Hok Hv Ht. set (v := para_ip_version para) in *. set (t := para_trans_proto para).
  destruct (create_socket_cases env ns_id (domain_of v) (kind_of t).1 (kind_of t).2 k n Hns Hf) as (fd & k1 & E & _ & Hc).
  rewrite Hok in Hc. destruct Hc as (Hfd & Hc). destruct (ff_socket _ _ Hf fd Hfd) as [Hfr Hpos].
  exists fd, k1. split; [|done]. unfold create_socket_netns. fold v t. unfold transport_ok in Ht. fold t in Ht. unfold domain_of, kind_of in E.
  destruct Hv as [Ev|Ev], Ht as [Et|Et]; rewrite Ev, Et in E |- *;
    unfold SESS_IPV4_PROTO, SESS_IPV6_PROTO, SESS_TCP_PROTO, SESS_UDP_PROTO in E |- *; cbn [Z.eqb Pos.eqb fst snd] in E |- *;
    rewrite E; by rewrite (proj2 (Z.eqb_neq fd ERROR_SOCKET_FD)) by (unfold ERROR_SOCKET_FD; lia).
Qed.

(** C29. The socket of a session: when the system calls succeed, session
    creation gets a new descriptor for a non-blocking socket of the device's
    namespace, of the requested family and transport, connected to exactly the
    endpoint of the request, its port in network order; no other descriptor
    changes and the process is back in its own namespace. *)
Theorem session_socket_connected env ns_id para addr port k n :
  k_fds k !! ns_id = Some (NsFile n) -> fds_fresh env k -> calls_ok env = true ->
  endpoint_ok (para_ip_version para) addr port -> para_ip_port para = addr ++ le_bytes 2 port ->
  transport_ok para ->
  exists fd s k', session_socket env true ns_id para k = Done (Some fd, true, k') /\
  k_fds k !! fd = None /\ k_fds k' = <[fd := SockFile s]> (k_fds k) /\ k_netns k' = k_netns k /\
  so_ns s = n /\ so_domain s = domain_of (para_ip_version para) /\ (so_type s, so_protocol s) = kind_of (para_trans_proto para) /\
  so_flags s = O_NONBLOCK /\
  so_peer s = Some {| family := domain_of (para_ip_version para); sa_addr_len := addr_len_of (para_ip_version para);
                      sin_port := htons port; sin_addr := addr |}.
Proof.
  intros Hns Hf Hok Hep Hpara Htp. pose proof (endpoint_decoded para addr port Hep Hpara) as Hd. unfold session_socket.
  destruct (create_socket_success env ns_id para ERROR_SOCKET_FD k n Hns Hf Hok) as (fd & k1 & -> & Hfr & s & [secs ->] & Hs & Hk);
    [destruct Hep as ([ []|[] ] & _); auto|done|].
  cbn [mbind outcome_bind]. unfold connect_socket_netns. rewrite Hd.
  assert ((para_ip_version para =? SESS_IPV4_PROTO) || (para_ip_version para =? SESS_IPV6_PROTO) = true) as ->
    by (by destruct Hep as ([ [-> _]|[-> _] ] & _)).
  cbn [negb mbind outcome_bind fst snd]. rewrite bool_decide_eq_true_2 by done.
  destruct (on_socket_fds k1 fd _ (set_peer {| family := domain_of (para_ip_version para); sa_addr_len := addr_len_of (para_ip_version para);
    sin_port := htons port; sin_addr := addr |}) ltac:(rewrite Hs; apply lookup_insert_eq)) as (E2 & N2 & _). set (k2 := on_socket k1 _ _) in *.
  unfold set_nonblocking. destruct (on_socket_fds k2 fd _ (add_flags O_NONBLOCK) ltac:(rewrite E2; apply lookup_insert_eq)) as (E3 & N3 & _).
  eexists fd, _, _. split; [reflexivity|]. split; [done|]. rewrite E3, E2, Hs, !insert_insert_eq, N3, N2.
  split_and!; try done. cbn. by destruct (kind_of _).
Qed.

(** ** Witnesses *)

(** The process is in namespace 1; descriptor 3 is the device's namespace 7. *)
Definition demo_kernel : kernel := {| k_netns := 1; k_fds := {[ 3 := NsFile 7 ]}; k_sent := [] |}.

Definition demo_netns_env (back : bool) : netns_env :=
  {| ne_open := Some 4; ne_setns := true; ne_socket := Some 5; ne_back := back;
     ne_udp1 := {| ue_sendto := true; ue_setsockopt := true |}; ne_udp2 := {| ue_sendto := false; ue_setsockopt := true |} |}.

Definition demo_endpoint : SessMsgPara :=
  {| para_frontend_sess_id := 9; para_dev_id := 0; para_ip_version := SESS_IPV4_PROTO; para_trans_proto := SESS_UDP_PROTO;
     para_ip_port := [10; 0; 0; 1; 80; 0] |}.

Lemma demo_fds_fresh back : fds_fresh (demo_netns_env back) demo_kernel.
Proof. split; [by intros o [= <-]|intros f [= <-]; split; [done|lia]|by intros o f [= <-] [= <-] ]. Qed.

(** The kernel refuses the way back. *)
Lemma create_socket_isolated_witness :
  exists st fd k', create_socket_netns (demo_netns_env false) 3 (Some demo_endpoint) (Some (-1)) demo_kernel = Done (st, Some fd, k') /\
  k_fds k' = k_fds demo_kernel.
Proof.
  destruct (create_socket_isolated (demo_netns_env false) 3 demo_endpoint (-1) demo_kernel 7) as (st & fd & k' & H & [_ _ _ Herr _]).
  - reflexivity.
  - apply demo_fds_fresh.
  - exists st, fd, k'. split; [exact H|]. revert H. vm_compute create_socket_netns. intros [= <- <- <-]. reflexivity.
Defined.

Lemma session_socket_connected_witness :
  exists fd s k', session_socket (demo_netns_env true) true 3 demo_endpoint demo_kernel = Done (Some fd, true, k') /\
  k_fds k' = <[fd := SockFile s]> (k_fds demo_kernel) /\ so_ns s = 7.
Proof.
  destruct (session_socket_connected (demo_netns_env true) 3 demo_endpoint [10; 0; 0; 1] 80 demo_kernel 7)
    as (fd & s & k' & H1 & _ & H2 & _ & H3 & _).
  - reflexivity.
  - apply demo_fds_fresh.
  - reflexivity.
  - split; [by left|]. split; [by repeat apply Forall_cons_2; try apply Forall_nil_2|lia].
  - reflexivity.
  - by right.
  - exists fd, s, k'. split; [exact H1|]. split; [exact H2|exact H3].
Defined.
