(* ===== verification/Scenario.v ===== *)
(** * Scenario: the test client linked into the proxy

    src/senario_src/senario_test.c plays the frontend: it builds a device, a
    strategy, a session and a data message, puts them on the receive queue over
    the shared memory pool ([SharedMemIO]), reads them back through the engine's
    port ([PoolPort]) into the dispatcher, and walks the work queues once.  The
    buffers of the engine's fields are part of [scenario]; uninitialised locals
    are arguments named [junk]. *)

From S2P Require Import Prelude Bytes Mem HyperampLinux SharedMemIO ByteStore Message PoolPort Build Session Device Responses SessionPool SessionData Iot Proto Engine CString DevConfig Endpoint.
From stdpp Require Import base list numbers option gmap strings.
From Stdlib Require Import ZArith Lia.
#[local] Open Scope Z_scope.

(** The backend, and the engine's [rx_queue] over the pool. *)
Record scenario := { sn_px : proxy; sn_rx : option SharedMemoryPoolQueue }.

Definition sn_world (s : scenario) : world := px_world (sn_px s).

(** ** The headers of the four messages (52-124) *)

Definition no_iot_addr : IotAddr := {| addr_type := 0; addr_info := replicate 20 0 |}.

Definition sizeof_DevMsgMask : Z := 2.
Definition sizeof_DevMsgReport : Z := 4.
Definition sizeof_StrgyCMDEnableMessage : Z := 2.
Definition sizeof_SessIPv4Params : Z := 10.

Definition dev_enable_msg_hdr : GeneralProxyMsgHeader :=
  {| outer_header := {| pmh_version := PROXY_PROTO_VERSION_1; pmh_type := PROXY_MSG_TYPE_DEV;
                        pmh_frontend_sess_id := FRONTEND_ADMIN_SESSION_ID; pmh_backend_sess_id := BACKEND_ADMIN_SESSION_ID;
                        pmh_payload_len := sizeof_DevMsgHeader + sizeof_DevMsgMask |};
     inner_header := {| iw0 := PROXY_PROTO_DEV_VERSION_1; iw1 := DEV_MSG_ENABLE; iw2 := 0; iw3 := ACTION_TYPE_COMMAND;
                        iw4 := sizeof_DevMsgMask; iw5 := 0 |};
     iot_addr := no_iot_addr; iot_addr_len := 0 |}.

Definition strgy_set_msg_hdr : GeneralProxyMsgHeader :=
  {| outer_header := {| pmh_version := PROXY_PROTO_VERSION_1; pmh_type := PROXY_MSG_TYPE_STRGY;
                        pmh_frontend_sess_id := FRONTEND_ADMIN_SESSION_ID; pmh_backend_sess_id := BACKEND_ADMIN_SESSION_ID;
                        pmh_payload_len := sizeof_StrgyMsgHeader + sizeof_StrgyCMDEnableMessage |};
     inner_header := {| iw0 := PROXY_PROTO_STRGY_VERSION_1; iw1 := STRGY_MSG_SET; iw2 := 0; iw3 := ACTION_TYPE_COMMAND;
                        iw4 := sizeof_StrgyCMDEnableMessage; iw5 := 0 |};
     iot_addr := no_iot_addr; iot_addr_len := 0 |}.

Definition sess_create_msg_hdr : GeneralProxyMsgHeader :=
  {| outer_header := {| pmh_version := PROXY_PROTO_VERSION_1; pmh_type := PROXY_MSG_TYPE_SESS; pmh_frontend_sess_id := 1;
                        pmh_backend_sess_id := BACKEND_HANDOVER_SESSION_ID;
                        pmh_payload_len := sizeof_SessMsgHeader + sizeof_SessIPv4Params |};
     inner_header := {| iw0 := PROXY_PROTO_SESS_VERSION_1; iw1 := SESS_MSG_CREATE; iw2 := ACTION_TYPE_COMMAND;
                        iw3 := SESS_IPV4_PROTO; iw4 := sizeof_SessIPv4Params; iw5 := 0 |};
     iot_addr := no_iot_addr; iot_addr_len := 0 |}.

(** [len]: data_msg_inject writes the payload length into the global. *)
Definition proxy_data_msg_hdr (len : Z) : GeneralProxyMsgHeader :=
  {| outer_header := {| pmh_version := PROXY_PROTO_VERSION_1; pmh_type := PROXY_MSG_TYPE_DATA; pmh_frontend_sess_id := 1;
                        pmh_backend_sess_id := 1; pmh_payload_len := len |};
     inner_header := {| iw0 := 0; iw1 := 0; iw2 := 0; iw3 := 0; iw4 := 0; iw5 := 0 |};
     iot_addr := no_iot_addr; iot_addr_len := 0 |}.

(** ** Injection (186-231) *)

(** [alloc_mode] is [None] for an integer that is no constant of the enum;
    [result_msg] and [result_desc] tell whether the pointers are not NULL.
    [engine->rx_queue] is the ring the builder allocates from. *)
Definition scenario_msg_inject (malloc : Z -> option (list Z)) (engine : bool) (msg_header : option GeneralProxyMsgHeader)
    (msg_payload : option (list Z)) (msg_payload_len : Z) (alloc_mode : option MemoryAllocMode)
    (result_msg result_desc : bool) (desc_len : Z) (s : scenario) : outcome (status * option msg_ptr * scenario) :=
  if negb engine then Done (PROCESS_ERROR, None, s) else
  if bool_decide (sn_rx s = None) then Done (PROCESS_ERROR, None, s) else
  if bool_decide (msg_header = None) then Done (PROCESS_ERROR, None, s) else
  if negb result_msg then Done (PROCESS_ERROR, None, s) else
  if negb result_desc then Done (PROCESS_ERROR, None, s) else
  if bool_decide (msg_payload = None) && (0 <? msg_payload_len) then Done (PROCESS_ERROR, None, s) else
  match alloc_mode with
  | None => Done (PROCESS_ERROR, None, s)
  | Some mode =>
      if desc_len =? 0 then Done (PROCESS_ERROR, None, s) else
      let w := sn_world s in
      r ← build_proxy_general_message malloc (Some (eng_tx (w_eng w))) msg_header msg_payload msg_payload_len
            result_msg mode (with_tx_ring (w_tx w) (sn_rx s));
      let '(ret, ptr, t) := r in
      Done (ret, ptr, {| sn_px := with_world (sn_px s) (with_tx w (with_tx_ring t (tx_ring (w_tx w)))); sn_rx := tx_ring t |})
  end.

(** The callers pass a descriptor buffer of 100 bytes. *)
Definition inject (h : GeneralProxyMsgHeader) (payload : list Z) (len : Z) (mode : MemoryAllocMode) (s : scenario)
  : outcome (status * scenario) :=
  r ← scenario_msg_inject (fun _ => None) true (Some h) (Some payload) len (Some mode) true true 100 s;
  Done (fst (fst r), snd r).

Definition device_msg_inject (s : scenario) : outcome (status * scenario) :=
  inject dev_enable_msg_hdr (le_bytes 2 0xFF) sizeof_DevMsgMask MEMORY_ALLOC_SHARED s.

Definition strategy_msg_inject (s : scenario) : outcome (status * scenario) :=
  inject strgy_set_msg_hdr (le_bytes 2 0) sizeof_StrgyCMDEnableMessage MEMORY_ALLOC_SHARED s.

(** The bytes of [SessIPv4Params]. *)
Definition SessIPv4Params_bytes (device_selection transport_layer_proto : Z) (dest : IPv4PortTuple) : list Z :=
  le_bytes 2 device_selection ++ le_bytes 2 transport_layer_proto ++ ipv4_addr dest ++ le_bytes 2 (tuple_port dest).

(** [junk]: the endpoint before the macro. *)
Definition session_msg_inject (junk : IPv4PortTuple) (s : scenario) : outcome (status * scenario) :=
  let dest := IPV4_PORT_STR_TO_TUPLE (lit "192.168.137.2:8888") junk in
  inject sess_create_msg_hdr (SessIPv4Params_bytes 0xFF SESS_UDP_PROTO dest) sizeof_SessIPv4Params MEMORY_ALLOC_SHARED s.

Definition data_buf : list Z := lit "test msg" ++ replicate 92 0.

Definition data_msg_inject (s : scenario) : outcome (status * scenario) :=
  let len := blen (up_to_nul data_buf) in
  inject (proxy_data_msg_hdr len) data_buf len MEMORY_ALLOC_SHARED s.

(** [DevMsgReport] has four bytes, the header says two. *)
Definition device_msg_inject_backend_hyperamp (s : scenario) : outcome (status * scenario) :=
  inject dev_enable_msg_hdr ([SESS_OP_STATUS_SUCCESS; SESS_OP_CODE_SUCCESS] ++ le_bytes 2 0xFF) sizeof_DevMsgReport
    MEMORY_ALLOC_AMPQUEUE s.

Definition test_proxy_scenario_multi_type_msg_build (junk : IPv4PortTuple) (s : scenario) : outcome (status * scenario) :=
  r ← device_msg_inject s;
  r ← strategy_msg_inject (snd r);
  r ← session_msg_inject junk (snd r);
  r ← data_msg_inject (snd r);
  Done (PROCESS_OK, snd r).

(** ** Reading the queue (464-505) *)

(** The 4096 bytes of the block at [a], as the dispatcher sees them. *)
Definition block_at (m : mem) (a : Z) : list Z := mread m a (Z.to_nat PROXY_MSG_HDR_PLUS_MAX_SIZE).

(** backend_engine_rx_queue_get on the engine's queue, then the dispatcher on
    the message [proxy_msg] points to; a get that finds nothing leaves
    [proxy_msg] as it is.  The dispatcher gets the 4096 bytes there: no handler
    reads the message after writing to shared memory. *)
Definition get_and_process (env : msg_env) (proxy_msg : option Z) (s : scenario) : outcome (status * option Z * scenario) :=
  let m := tx_mem (w_tx (sn_world s)) in
  r ← backend_engine_rx_queue_get m (sn_rx s) true PROXY_MSG_HDR_PLUS_MAX_SIZE true;
  let '(ret, buf, _, rx) := r in
  let proxy_msg := match buf with Some a => Some a | None => proxy_msg end in
  match proxy_msg with
  | None => Fault NullDeref
  | Some a =>
      p ← backend_proxy_msg_process (sn_px s) (block_at m a) env;
      Done (ret, Some a, {| sn_px := snd p; sn_rx := rx |})
  end.

(** [ret]: of the last get. *)
Definition test_proxy_scenario_msg_read_from_rx_queue (env : nat -> msg_env) (s : scenario) : outcome (status * scenario) :=
  if bool_decide (sn_rx s = None) then Done (PROCESS_ERROR, s) else
  r ← get_and_process (env 0%nat) None s;
  r ← get_and_process (env 1%nat) (snd (fst r)) (snd r);
  r ← get_and_process (env 2%nat) (snd (fst r)) (snd r);
  r ← get_and_process (env 3%nat) (snd (fst r)) (snd r);
  Done (fst (fst r), snd r).

(** ** The work queues (518-706) *)

(** [ret] is the local variable: uninitialised before the first session. *)
Fixpoint f2b_pass (env : Z -> f2b_env) (todo : list Z) (ret : Z) (w : world) : outcome (Z * world) :=
  match todo with
  | [] => Done (ret, w)
  | p :: todo =>
      r ← high_speed_data_process_f2b w p (fe_sndbuf (env p)) (fe_send (env p));
      let '(st, _, w) := r in
      w ← match st with
          | PROCESS_OK => retire_sess w p F2B
          | PROCESS_ERROR => drop_sess w p F2B (fe_epoll (env p))
          | PROCESS_AGAIN => Done w
          end;
      f2b_pass env todo (status_code st) w
  end.

Definition test_proxy_scenario_process_active_f2b_sess_queue (env : Z -> f2b_env) (junk : Z) (w : world) : outcome (Z * world) :=
  f2b_pass env (queue_f2b (w_pool w)) junk w.

Definition test_proxy_scenario_msg_read_from_poller (ready : option (list poll_event)) (w : world) : outcome world :=
  poller_run ready w.

Fixpoint b2f_pass (todo : list Z) (ret : Z) (w : world) : outcome (Z * world) :=
  match todo with
  | [] => Done (ret, w)
  | p :: todo =>
      r ← high_speed_data_process_b2f w p;
      w ← match fst r with PROCESS_OK => retire_sess (snd r) p B2F | _ => Done (snd r) end;
      b2f_pass todo (status_code (fst r)) w
  end.

(** The error branch stands behind the loop, where [cur_sess] is NULL. *)
Definition test_proxy_scenario_process_active_b2f_sess_queue (junk : Z) (w : world) : outcome (status * world) :=
  r ← b2f_pass (queue_b2f (w_pool w)) junk w;
  let '(ret, w) := r in
  if ret =? status_code PROCESS_ERROR then Fault NullDeref else Done (PROCESS_OK, w).

(** ** The results a message pointer may have (1-47) *)

Inductive ResultMsgStatus := RESULT_MSG_VALID_SHARED | RESULT_MSG_VALID_CALLER | RESULT_MSG_INVALID_FULL | RESULT_MSG_INVALID_FAILED.

(** MEMORY_ALLOC_SHARED and MEMORY_ALLOC_CALLER are 0 and 1; their union is 1. *)
Record ResultMsgSupportedItem := {
  rm_status : ResultMsgStatus; rm_addr_value : Z; rm_status_desc : cstring; rm_applicable_mode : Z }.

Definition g_result_msg_supported_values : list ResultMsgSupportedItem :=
  [{| rm_status := RESULT_MSG_VALID_SHARED; rm_addr_value := 0x0000000000000001;
      rm_status_desc := lit "Valid message address located in the shared memory FIFO ring buffer."; rm_applicable_mode := 0 |};
   {| rm_status := RESULT_MSG_VALID_CALLER; rm_addr_value := 0x1000000000000001;
      rm_status_desc := lit "Valid message address located in the caller-preallocated buffer."; rm_applicable_mode := 1 |};
   {| rm_status := RESULT_MSG_INVALID_FULL; rm_addr_value := 2 ^ 64 - 1;
      rm_status_desc := lit "Invalid address (set to UINT64_MAX) caused by full shared memory queue."; rm_applicable_mode := 0 |};
   {| rm_status := RESULT_MSG_INVALID_FAILED; rm_addr_value := 0;
      rm_status_desc := lit "Invalid address (NULL-like) caused by message construction failure."; rm_applicable_mode := Z.lor 0 1 |}].
Definition g_result_msg_supported_count : Z := Z.of_nat (length g_result_msg_supported_values).
