(* ===== verification/ScenarioSpec.v ===== *)
(** * ScenarioSpec: what the test client shows when it runs

    Messages injected in the pool's receive queue are held by its blocks and
    come back in order; the four messages of the client take a fresh backend to
    a connected session with the data pending; what the client's drivers do
    beyond that. *)

From stdpp Require Import base list numbers option gmap strings.
From Stdlib Require Import ZArith Lia.
From S2P Require Import Prelude Bytes Mem HyperampQueue HyperampQueueLemmas HyperampQueueSpec HyperampLinux ByteStore Message PoolPort Build BuildSpec Session Device Responses SessionPool SessionPoolSpec SessionPoolRun SessionData SessionDataSpec Iot Proto ProtoSpec Engine EngineSpec Channel CString DevConfig Netns Endpoint Scenario SharedMemIO.
#[local] Open Scope Z_scope.

(** ** A message in a block of the pool *)

Lemma block_at_length m a : blen (block_at m a) = 4096.
Proof. unfold block_at, blen. by rewrite mread_length. Qed.

Lemma block_at_ext m m' a : (forall x, a <= x < a + 4096 -> m' x = m x) -> block_at m' a = block_at m a.
Proof. intros H. apply mread_ext. intros x Hx. apply H. unfold PROXY_MSG_HDR_PLUS_MAX_SIZE, PROXY_MSG_HDR_SIZE, PROXY_MSG_MAX_SIZE in Hx. lia. Qed.

Lemma block_bread m a o k : 0 <= o -> 0 <= k -> o + k <= 4096 -> bread (block_at m a) o k = st_read m (a + o) k.
Proof.
  intros Ho Hk Hok. rewrite bread_ok by (rewrite ?block_at_length; lia). cbn. f_equal. unfold block_at.
  replace (Z.to_nat PROXY_MSG_HDR_PLUS_MAX_SIZE) with (Z.to_nat o + (Z.to_nat k + (4096 - Z.to_nat o - Z.to_nat k)))%nat
    by (unfold PROXY_MSG_HDR_PLUS_MAX_SIZE, PROXY_MSG_HDR_SIZE, PROXY_MSG_MAX_SIZE; lia).
  rewrite !mread_app, drop_app_length', take_app_length', Z2Nat.id by (rewrite ?mread_length; lia). done.
Qed.

Lemma block_gets ws m a off :
  0 <= off -> off + total_width ws <= 4096 -> st_gets ws (block_at m a) off = st_gets ws m (a + off).
Proof.
  revert off. induction ws as [|w ws IH]; intros off Ho Hl; [done|].
  cbn [total_width fold_right] in Hl. fold (total_width ws) in Hl.
  assert (0 <= total_width ws) by (unfold total_width; clear; induction ws; cbn; lia). cbn [st_gets].
  assert (st_get w (block_at m a) off = st_get w m (a + off)) as ->.
  { unfold st_get. change (st_read (block_at m a)) with (bread (block_at m a)). by rewrite block_bread by lia. }
  destruct (st_get w m (a + off)); cbn; [|done..]. rewrite IH by lia. by rewrite Z.add_assoc.
Qed.

(** A message of the protocol that fits a block. *)
Record message := { msg_header : GeneralProxyMsgHeader; msg_payload : list Z; msg_len : Z }.

Record sendable (x : message) : Prop := {
  se_header : header_ok (msg_header x) = true;
  se_fits : payload_fits (msg_header x) (msg_len x) = true;
  se_len : 0 <= msg_len x <= blen (msg_payload x);
  se_block : 8 + inner_size (msg_header x) + msg_len x <= 4096;
  se_bytes : Forall is_byte (msg_payload x) }.

Definition held (m : mem) (a : Z) (x : message) : Prop := holds_message (msg_header x) (msg_payload x) (msg_len x) (block_at m a).

Lemma held_ext m m' a x : (forall y, a <= y < a + 4096 -> m' y = m y) -> held m a x -> held m' a x.
Proof. intros H. unfold held. by rewrite (block_at_ext m m'). Qed.

Lemma inner_size_nonneg h : 0 <= inner_size h.
Proof. unfold inner_size. destruct (_ =? _); lia. Qed.

Lemma message_built m a x : sendable x -> mem_bytes m ->
  exists total m', fill_message (msg_header x) (msg_payload x) (msg_len x) m a = Done (Some total, m') /\
  mem_bytes m' /\ held m' a x /\ forall y, y < a \/ a + 4096 <= y -> m' y = m y.
Proof.
  intros [Hh Hf Hl Hb Hp] Hm. pose proof (inner_size_nonneg (msg_header x)).
  destruct (fill_message_ok (msg_header x) (msg_payload x) (msg_len x) m a) as (total & m' & E & _); try done; try lia.
  pose proof (payload_fits_type _ _ Hf) as Ht.
  destruct (fill_message_spec _ _ _ _ _ _ _ Hh Ht E) as (_ & Ho & Hw & Hr). exists total, m'. split; [done|].
  split; [by eapply fill_message_mem_bytes|]. split.
  - unfold held, holds_message. split; [|split].
    + unfold get_ProxyMsgHeader in *. rewrite block_gets by (cbn; lia). rewrite Z.add_0_r, Ho, u16_id by lia. done.
    + intros Hd. specialize (Hw Hd). unfold get_words5 in *. by rewrite block_gets by (cbn; lia).
    + rewrite block_bread, Z.add_assoc, Hr, bread_ok by lia. done.
  - intros y Hy. pose proof (fill_message_frame _ _ _ _ _ _ _ y 1 Ht (proj1 Hl) E ltac:(lia)) as Hfr.
    cbn in Hfr. by injection Hfr.
Qed.

(** ** The pool's queue of messages *)

(** The blocks of a queue of 4096-byte slots. *)
Definition in_pool (q : SharedMemoryPoolQueue) (x : Z) : Prop :=
  virt_addr1 q + 4096 <= x < virt_addr1 q + (capacity q + 1) * 4096.

(** [q] is a queue of the engine's configuration whose pending blocks hold the
    messages [xs], oldest first. *)
Record queued (m : mem) (q : SharedMemoryPoolQueue) (xs : list message) : Prop := {
  qd_wf : spq_wf q;
  qd_bs : block_size q = PROXY_MSG_HDR_PLUS_MAX_SIZE;
  qd_held : Forall2 (held m) (pending q) xs }.

Lemma pending_slot q a : spq_wf q -> a ∈ pending q ->
  exists k, (k < Z.to_nat (ring_len q))%nat /\ a = slot_address q ((tail q + Z.of_nat k) mod capacity q).
Proof.
  intros Hw Ha. unfold pending in Ha. apply list_elem_of_fmap in Ha as (k & -> & Hk%elem_of_seq). exists k. split; [lia|done].
Qed.

Lemma slot_index_range q k : spq_wf q -> 0 <= (tail q + k) mod capacity q < capacity q.
Proof. intros []. apply Z.mod_pos_bound. lia. Qed.

Lemma slot_in_pool q i x :
  block_size q = PROXY_MSG_HDR_PLUS_MAX_SIZE -> 0 <= i < capacity q ->
  slot_address q i <= x < slot_address q i + 4096 -> in_pool q x.
Proof. intros Hb Hi. unfold slot_address, in_pool. rewrite Hb. unfold PROXY_MSG_HDR_PLUS_MAX_SIZE, PROXY_MSG_HDR_SIZE, PROXY_MSG_MAX_SIZE. lia. Qed.

(** The next block is none of the pending ones. *)
Lemma next_slot_free q a : spq_wf q -> block_size q = PROXY_MSG_HDR_PLUS_MAX_SIZE -> a ∈ pending q ->
  a + 4096 <= slot_address q (header q) \/ slot_address q (header q) + 4096 <= a.
Proof.
  intros Hw Hb Ha. destruct (pending_slot q a Hw Ha) as (k & Hk & ->). pose proof (ring_len_range q Hw) as Hr.
  assert ((tail q + Z.of_nat k) mod capacity q <> header q) as Hne.
  { intros E. rewrite <- (header_mod q Hw) in E. destruct (spq_cap q Hw), (spq_tail q Hw).
    assert (Z.of_nat k < ring_len q) by lia.
    destruct (Z.lt_ge_cases (tail q + Z.of_nat k) (capacity q)), (Z.lt_ge_cases (tail q + ring_len q) (capacity q));
      rewrite ?(Z.mod_small (tail q + Z.of_nat k)), ?(Z.mod_small (tail q + ring_len q)),
        ?(mod_wrap_once (tail q + Z.of_nat k)), ?(mod_wrap_once (tail q + ring_len q)) in E by lia; lia. }
  unfold slot_address. rewrite Hb. unfold PROXY_MSG_HDR_PLUS_MAX_SIZE, PROXY_MSG_HDR_SIZE, PROXY_MSG_MAX_SIZE. lia.
Qed.

Lemma queued_frame m m' q xs : (forall x, in_pool q x -> m' x = m x) -> queued m q xs -> queued m' q xs.
Proof.
  intros Hx [Hw Hb Hh]. split; [done|done|]. apply Forall2_same_length_lookup in Hh as [Hl Hh].
  apply Forall2_same_length_lookup. split; [done|]. intros i a x Ha Hxi. apply (held_ext m); [|by eapply Hh].
  intros y Hy. destruct (pending_slot q a Hw) as (k & _ & ->); [by eapply list_elem_of_lookup_2|].
  apply Hx. eapply slot_in_pool; [done|by apply slot_index_range|exact Hy].
Qed.

(** Injecting a message in shared memory appends it to the queue, unless
    [capacity - 1] blocks are pending. *)
Definition injected (s : scenario) (q : SharedMemoryPoolQueue) (m' : mem) (q' : SharedMemoryPoolQueue) : scenario :=
  {| sn_px := with_world (sn_px s) (rx_world (sn_world s) m'); sn_rx := Some q' |}.

Lemma inject_shared s q xs x :
  sn_rx s = Some q -> queued (tx_mem (w_tx (sn_world s))) q xs -> sendable x ->
  mem_bytes (tx_mem (w_tx (sn_world s))) -> eng_mem_pool (eng_tx (w_eng (sn_world s))) <> 0 ->
  (length xs < Z.to_nat (capacity q - 1))%nat ->
  exists m' q', inject (msg_header x) (msg_payload x) (msg_len x) MEMORY_ALLOC_SHARED s = Done (PROCESS_OK, injected s q m' q') /\
  queued m' q' (xs ++ [x]) /\ mem_bytes m' /\ capacity q' = capacity q /\ virt_addr1 q' = virt_addr1 q /\
  (forall y, ~ in_pool q y -> m' y = tx_mem (w_tx (sn_world s)) y) /\ SHM_POOL_QUEUE_HEAD_ROLLBACK (Some q') = Some q.
Proof.
  intros Hq [Hw Hb Hh] Hx Hm Hp Hroom. pose proof (Forall2_length _ _ _ Hh) as Hlen. rewrite pending_length in Hlen.
  pose proof (ring_len_range q Hw) as Hr. set (a := slot_address q (header q)).
  set (q1 := set_header q ((header q + 1) mod capacity q)).
  assert (SHM_POOL_QUEUE_ALLOC_FROM_HEADER (Some q) = Done (Some a, Some q1)) as Ealloc.
  { unfold SHM_POOL_QUEUE_ALLOC_FROM_HEADER. destruct (spq_cap q Hw), (spq_header q Hw). pose proof (wrap_range (header q) (capacity q)).
    pose proof (slot_u64 q Hw) as Hs. rewrite require_true by (apply negb_true_iff, Z.eqb_neq; lia). cbn [mbind outcome_bind].
    rewrite u16_id by lia. rewrite (proj2 (Z.eqb_neq _ (tail q))) by (rewrite full_ring by done; lia).
    rewrite (spq_mode q Hw), Z.eqb_refl, int_mul_ok by (done || lia). cbn [mbind outcome_bind]. by rewrite Hs. }
  destruct (pending_push q Hw) as [Hw1 Hpend]; [lia|]. fold q1 a in Hw1, Hpend.
  destruct (message_built (tx_mem (w_tx (sn_world s))) a x Hx Hm) as (total & m' & Efill & Hm' & Hheld & Hout).
  assert (forall y, ~ in_pool q y -> m' y = tx_mem (w_tx (sn_world s)) y) as Hpool.
  { intros y Hy. apply Hout. destruct (Z.lt_ge_cases y a), (Z.lt_ge_cases y (a + 4096)); try lia.
    exfalso. apply Hy. apply (slot_in_pool q (header q)); [done|apply (spq_header q Hw)|fold a; lia]. }
  assert (a <> ERROR_SHARED_MEM_ADDR) as Ha.
  { unfold a, slot_address, ERROR_SHARED_MEM_ADDR. destruct (spq_addr q Hw), (spq_header q Hw). rewrite Hb in *.
    unfold PROXY_MSG_HDR_PLUS_MAX_SIZE, PROXY_MSG_HDR_SIZE, PROXY_MSG_MAX_SIZE in *. nia. }
  exists m', q1. split; [|split; [split|]].
  - unfold inject, scenario_msg_inject. rewrite Hq. rewrite !bool_decide_false by done. cbn [negb andb Z.eqb].
    unfold build_proxy_general_message. rewrite (proj2 (Z.eqb_neq _ _) Hp). unfold build_general_shared.
    cbn [tx_ring with_tx_ring]. rewrite Ealloc. cbn [mbind outcome_bind fst snd default]. unfold id.
    rewrite (proj2 (Z.eqb_neq _ _) Ha). cbn [tx_mem with_tx_ring]. rewrite Efill. reflexivity.
  - done.
  - done.
  - rewrite Hpend. apply Forall2_app; [|constructor; [exact Hheld|constructor] ].
    apply Forall2_same_length_lookup in Hh as [Hl Hh]. apply Forall2_same_length_lookup. split; [done|].
    intros i b z Hbi Hzi. apply (held_ext (tx_mem (w_tx (sn_world s)))); [|by eapply Hh]. intros y Hy. apply Hout.
    destruct (next_slot_free q b Hw Hb); [by eapply list_elem_of_lookup_2|lia..].
  - split_and!; [done..|]. by apply (alloc_rollback_roundtrip q a).
Qed.

(** The pool's blocks and the ring do not overlap. *)
Definition apart (g : geometry) (q : SharedMemoryPoolQueue) : Prop := forall x, in_pool q x -> ~ in_control g x /\ ~ in_blocks g x.

(** A queue over the same blocks. *)
Definition same_blocks (q q' : SharedMemoryPoolQueue) : Prop := capacity q' = capacity q /\ virt_addr1 q' = virt_addr1 q.

Lemma same_in_pool q q' x : same_blocks q q' -> in_pool q' x <-> in_pool q x.
Proof. unfold in_pool. intros [-> ->]. done. Qed.

Lemma same_apart g q q' : same_blocks q q' -> apart g q -> apart g q'.
Proof. intros Hq Ha x Hx. apply Ha. by apply (same_in_pool q q'). Qed.

Lemma same_trans q1 q2 q3 : same_blocks q1 q2 -> same_blocks q2 q3 -> same_blocks q1 q3.
Proof. unfold same_blocks. intros [-> ->] [-> ->]. done. Qed.

Lemma recv_pending q a l : spq_wf q -> pending q = a :: l ->
  let q' := set_tail q ((tail q + 1) mod capacity q) in
  shared_mem_pool_queue_recv_zc (Some q) true true = Done (PROCESS_OK, Some a, Some q') /\ spq_wf q' /\ pending q' = l.
Proof.
  intros Hw Hp q'. destruct (spq_cap q Hw), (spq_tail q Hw), (spq_bs q Hw).
  assert (tail q <> header q) as Hne.
  { intros E. apply (f_equal length) in Hp. rewrite pending_length in Hp. unfold ring_len in Hp.
    rewrite E, Z.leb_refl, Z.sub_diag in Hp. done. }
  destruct (pending_pop q Hw Hne) as [Hw' Hp']. fold q' in Hw', Hp'. rewrite Hp' in Hp. injection Hp as <- <-.
  split; [|done]. unfold shared_mem_pool_queue_recv_zc, SHMP_QUEUE_DEQUEUE. cbn [negb orb].
  rewrite (proj2 (Z.eqb_neq (block_size q) 0)), (proj2 (Z.eqb_neq (header q) (tail q))) by (done || lia).
  rewrite int_mul_ok by (done || lia). cbn [mbind outcome_bind]. rewrite (proj2 (Z.eqb_neq (tail q) (header q))), bump_mod by done. done.
Qed.

Lemma bind_done {A B} (f : A -> outcome B) (a : A) : (x ← Done a; f x) = f a.
Proof. reflexivity. Qed.

(** The header of a held message, read where it lies. *)
Lemma block_header m a : get_ProxyMsgHeader (block_at m a) 0 = get_ProxyMsgHeader m a.
Proof. unfold get_ProxyMsgHeader. rewrite block_gets, Z.add_0_r by (change (total_width _) with 8; lia). reflexivity. Qed.

Lemma held_header m a x : held m a x ->
  exists h, get_ProxyMsgHeader m a = Done h /\ pmh_payload_len h = msg_len x + inner_size (msg_header x).
Proof. intros [Hhdr _]. rewrite block_header in Hhdr. eexists. split; [exact Hhdr|reflexivity]. Qed.

(** The engine's port hands out the oldest message with its length. *)
Lemma pool_get m q x xs :
  queued m q (x :: xs) -> sendable x ->
  exists a q', held m a x /\
  backend_engine_rx_queue_get m (Some q) true PROXY_MSG_HDR_PLUS_MAX_SIZE true
    = Done (PROCESS_OK, Some a, Some (msg_len x + inner_size (msg_header x)), Some q') /\
  queued m q' xs /\ same_blocks q q'.
Proof.
  intros [Hw Hb Hh] Hx. apply Forall2_cons_inv_r in Hh as (a & l & Ha & Hl & Hp).
  destruct (recv_pending q a l Hw Hp) as (E & Hw' & Hp'). set (q' := set_tail q _) in *.
  exists a, q'. split; [done|]. split; [|split; [split; [done|done|by rewrite Hp'] |done] ].
  destruct (held_header m a x Ha) as (h & Hget & Hn). pose proof (se_block x Hx) as Hblk.
  unfold backend_engine_rx_queue_get. rewrite bool_decide_false by done. cbn [orb negb]. rewrite E, bind_done.
  change (default 0 (Some a)) with a. rewrite Hget.
  cbn [status_code Z.eqb Pos.eqb Z.opp].
  rewrite bind_done, Hn.
  rewrite (proj2 (Z.ltb_ge PROXY_MSG_HDR_PLUS_MAX_SIZE _)); [reflexivity|].
  change PROXY_MSG_HDR_PLUS_MAX_SIZE with 4096. change PROXY_MSG_HDR_SIZE with 8. lia.
Qed.

(** The dispatcher is called on the oldest message. *)
Lemma get_queued x q y ys env pm :
  queued (tx_mem (w_tx (px_world x))) q (y :: ys) -> sendable y ->
  exists a q', held (tx_mem (w_tx (px_world x))) a y /\
  get_and_process env pm {| sn_px := x; sn_rx := Some q |} =
    (p ← backend_proxy_msg_process x (block_at (tx_mem (w_tx (px_world x))) a) env;
     Done (PROCESS_OK, Some a, {| sn_px := snd p; sn_rx := Some q' |})) /\
  queued (tx_mem (w_tx (px_world x))) q' ys /\ same_blocks q q'.
Proof.
  intros Hqd Hy. destruct (pool_get _ q y ys Hqd Hy) as (a & q' & Ha & E & Hr). exists a, q'.
  split; [done|]. split; [|done]. unfold get_and_process, sn_world. cbn [sn_px sn_rx]. rewrite E, bind_done. reflexivity.
Qed.

(** ** The pool and the HyperAMP ring *)

(** A ring only depends on its control block and its blocks. *)
Lemma ring_contents_ext g m m' :
  qwf g m -> (forall x, in_control g x \/ in_blocks g x -> m' x = m x) -> contents g m' = contents g m.
Proof.
  intros Hw Hx. pose proof (geometry_ok_spec g (qwf_geo _ _ Hw)) as Hgeo.
  assert (forall f, qget f m' (g_queue g) = qget f m (g_queue g)) as Hf by (intros f; apply qget_ext; intros x ?; apply Hx; by left).
  unfold contents, qlength, qheader, qtail. rewrite !Hf. apply map_ext. intros k. unfold ring_block, ring_index. apply mread_ext.
  intros x Hxs. apply Hx. right. unfold slot in Hxs. rewrite Z2Nat.id in Hxs by lia.
  pose proof (Z.mod_pos_bound (qget F_tail m (g_queue g) + Z.of_nat k) (g_cap g)). unfold in_blocks. nia.
Qed.

Lemma tx_ok_frame g w m' :
  tx_ok g w -> mem_bytes m' -> (forall x, in_control g x \/ in_blocks g x -> m' x = tx_mem (w_tx w) x) ->
  tx_ok g (rx_world w m') /\ sent_messages g (rx_world w m') = sent_messages g w.
Proof.
  intros [Hw Hq Hb Hp Hs] Hm Hx. split; [|by apply ring_contents_ext]. split; try done.
  apply qwf_ring. split; [|done]. apply (ring_frame g (tx_mem (w_tx w))); [by apply qwf_ring|]. intros x Hc. apply Hx. by left.
Qed.

(** What the pool's queue holds is safe from a backend that writes the ring. *)
Lemma queued_ring_written g m m' q xs :
  apart g q -> ring_written g m m' -> queued m q xs -> queued m' q xs.
Proof. intros Ha [_ Hx]. apply queued_frame. intros x Hp. destruct (Ha x Hp). by apply Hx. Qed.

(** ** The client's messages *)

Definition enable_message : message :=
  {| msg_header := dev_enable_msg_hdr; msg_payload := le_bytes 2 0xFF; msg_len := 2 |}.
Definition strategy_message : message :=
  {| msg_header := strgy_set_msg_hdr; msg_payload := le_bytes 2 0; msg_len := 2 |}.
Definition client_endpoint : IPv4PortTuple := {| ipv4_addr := [192; 168; 137; 2]; tuple_port := 8888 |}.
Definition create_message : message :=
  {| msg_header := sess_create_msg_hdr; msg_payload := SessIPv4Params_bytes 0xFF SESS_UDP_PROTO client_endpoint; msg_len := 10 |}.
Definition test_message : message :=
  {| msg_header := proxy_data_msg_hdr 8; msg_payload := data_buf; msg_len := 8 |}.

Lemma client_endpoint_scanned junk : IPV4_PORT_STR_TO_TUPLE (lit "192.168.137.2:8888") junk = client_endpoint.
Proof. destruct junk. vm_compute. reflexivity. Qed.

Definition sendableb (x : message) : bool :=
  header_ok (msg_header x) && payload_fits (msg_header x) (msg_len x) &&
  (0 <=? msg_len x) && (msg_len x <=? blen (msg_payload x)) &&
  (8 + inner_size (msg_header x) + msg_len x <=? 4096) && bytesb (msg_payload x).

Lemma sendableb_ok x : sendableb x = true -> sendable x.
Proof.
  unfold sendableb. rewrite !andb_true_iff, !Z.leb_le. intros [ [ [ [ [Hh Hf] H0] Hl] Hb] Hp].
  split; [done|done|done|done|by apply bytesb_ok].
Qed.

Lemma enable_sendable : sendable enable_message.
Proof. by apply sendableb_ok; vm_compute. Qed.
Lemma strategy_sendable : sendable strategy_message.
Proof. by apply sendableb_ok; vm_compute. Qed.
Lemma create_sendable : sendable create_message.
Proof. by apply sendableb_ok; vm_compute. Qed.
Lemma test_sendable : sendable test_message.
Proof. by apply sendableb_ok; vm_compute. Qed.

(** ** What the dispatcher does with each *)

Lemma enable_processed x m a env :
  held m a enable_message -> backend_proxy_msg_process x (block_at m a) env = Done (PROCESS_OK, x).
Proof.
  intros (Hh & Hw & _). specialize (Hw ltac:(discriminate)). unfold backend_proxy_msg_process. rewrite Hh, bind_done.
  unfold backend_proxy_dev_msg_process, get_DevMsgHeader, PROXY_MSG_HDR_SIZE. rewrite Hw. reflexivity.
Qed.

Lemma strategy_processed x m a env :
  held m a strategy_message -> backend_proxy_msg_process x (block_at m a) env = Done (PROCESS_OK, x).
Proof.
  intros (Hh & Hw & _). specialize (Hw ltac:(discriminate)). unfold backend_proxy_msg_process. rewrite Hh, bind_done.
  unfold backend_proxy_strgy_msg_process, get_StrgyMsgHeader, PROXY_MSG_HDR_SIZE. rewrite Hw. reflexivity.
Qed.

(** The parameters of the session the client asks for, on the device [dev]. *)
Definition client_para (dev : Z) : SessMsgPara :=
  {| para_frontend_sess_id := 1; para_dev_id := dev; para_ip_version := SESS_IPV4_PROTO;
     para_trans_proto := SESS_UDP_PROTO; para_ip_port := [192; 168; 137; 2] ++ le_bytes 2 8888 |}.

Lemma create_processed x m a env :
  held m a create_message ->
  backend_proxy_msg_process x (block_at m a) env =
  on_world x (r ← high_speed_create_sess_active (px_world x) (client_para DEV_ID_AUTO_HANDOVER) (me_create env);
              Done (fst (fst r), snd r)).
Proof.
  unfold held. generalize (block_at m a). intros b (Hh & Hw & Hr). specialize (Hw ltac:(discriminate)).
  rewrite (create_decoded x b env _ (sess_hdr (words (inner_header sess_create_msg_hdr))) 0xFF SESS_UDP_PROTO
             [192; 168; 137; 2] 8888 4 Hh); [reflexivity|reflexivity|reflexivity| |reflexivity..|by left|reflexivity|reflexivity|done|done|done|exact Hr].
  unfold get_SessMsgHeader, PROXY_MSG_HDR_SIZE. rewrite Hw. reflexivity.
Qed.

(** ** A session on a device the selector chooses *)

(** A selector reads the engine, the devices and its last position, and writes
    only the last. *)
Definition framed {A} (f : world -> outcome (A * world)) : Prop :=
  forall w r w1, f w = Done (r, w1) -> exists pos, w1 = with_last_pos w pos /\
  forall w', w_eng w' = w_eng w -> w_devs w' = w_devs w -> w_last_pos w' = w_last_pos w -> f w' = Done (r, with_last_pos w' pos).

Lemma framed_constant {A} (r : A) : framed (fun w => Done (r, w)).
Proof.
  intros w r' w1 [= <- <-]. exists (w_last_pos w). split; [by destruct w|]. intros w' _ _ <-. by destruct w'.
Qed.

Lemma framed_round_robin : framed choose_dev_round_robin.
Proof.
  intros w r w1. unfold choose_dev_round_robin. destruct (dev_num (w_eng w) =? 0) eqn:En.
  { intros E. destruct (framed_constant (PROCESS_ERROR, None : option Z) w _ _ E) as (pos & -> & Hf). exists pos. split; [done|].
    intros w' E1 E2 E3. rewrite E1, En. by apply Hf. }
  destruct (if w_last_pos w =? -1 then _ else _) as [ [pos|] lp] eqn:Ef; intros E.
  - destruct (get_dev (with_last_pos w lp) pos) as [d| |] eqn:Ed; [|done..]. rewrite bind_done in E. injection E as <- <-.
    exists lp. split; [done|]. intros w' E1 E2 E3. rewrite E1, En, E3, Ef. unfold get_dev in *. cbn [w_devs with_last_pos] in *.
    by rewrite E2, Ed.
  - injection E as <- <-. exists lp. split; [done|]. intros w' E1 E2 E3. by rewrite E1, En, E3, Ef.
Qed.

Lemma choose_frame d : framed (fun w => choose_hs_net_dev w d).
Proof.
  intros w r w1. unfold choose_hs_net_dev. destruct (hs_dev_sel !! _) as [f|] eqn:Ef; [|done].
  assert (framed f) as Hfr.
  { unfold hs_dev_sel in Ef. destruct (Z.to_nat _) as [|[|[|k] ] ]; cbn in Ef; simplify_eq;
      [apply framed_round_robin|apply framed_constant..]. }
  destruct (f w) as [ [r1 w2]| |] eqn:E; [|done..]. destruct (Hfr _ _ _ E) as (pos & -> & Hf). rewrite bind_done. intros E'.
  exists pos. split; [destruct r1 as [ [] ?]; repeat case_match; congruence|]. intros w' E1 E2 E3.
  rewrite E1, Ef, Hf, bind_done by done. cbn [w_eng with_last_pos] in *. rewrite E1. destruct r1 as [ [] ?]; repeat case_match; congruence.
Qed.

Definition on_device (para : SessMsgPara) (dev : Z) : SessMsgPara :=
  {| para_frontend_sess_id := para_frontend_sess_id para; para_dev_id := dev; para_ip_version := para_ip_version para;
     para_trans_proto := para_trans_proto para; para_ip_port := para_ip_port para |}.

(** An automatic session is a session of the chosen device. *)
Lemma create_auto w para env p junk id q dev w1 :
  para_dev_id para = DEV_ID_AUTO_HANDOVER -> ce_malloc env = Some (p, junk) -> id_queue (w_pool w) = id :: q -> id <> 0 ->
  dev_num (w_eng w) <> 0 -> choose_hs_net_dev w DEV_ID_AUTO_HANDOVER = Done (PROCESS_OK, dev, w1) -> dev <> DEV_ID_AUTO_HANDOVER ->
  high_speed_create_sess_active w para env = high_speed_create_sess_active w1 (on_device para dev) env.
Proof.
  intros Hp Hm Hq Hid Hn Hc Hd. destruct (choose_frame _ _ _ _ Hc) as (pos & -> & Hf).
  unfold high_speed_create_sess_active. rewrite Hm, Hp. cbn [w_pool put_sess with_sess with_last_pos]. rewrite Hq. cbn [allocate_id].
  rewrite (proj2 (Z.eqb_neq _ _) Hid). cbn [w_eng put_sess with_sess with_last_pos with_pool]. rewrite (proj2 (Z.eqb_neq _ _) Hn).
  unfold request_device. cbn [para_dev_id on_device]. rewrite Z.eqb_refl, (proj2 (Z.eqb_neq _ _) Hd), Hf by done. reflexivity.
Qed.

(** ** Building the four messages *)

Definition with_pool_mem (s : scenario) (m : mem) (q : SharedMemoryPoolQueue) : scenario :=
  {| sn_px := with_world (sn_px s) (rx_world (sn_world s) m); sn_rx := Some q |}.

Definition client_messages : list message := [enable_message; strategy_message; create_message; test_message].

(** What a number of injections leaves. *)
Definition filled (s : scenario) (q : SharedMemoryPoolQueue) (xs : list message) (m' : mem) (q' : SharedMemoryPoolQueue) : Prop :=
  queued m' q' xs /\ mem_bytes m' /\ same_blocks q q' /\ forall y, ~ in_pool q y -> m' y = tx_mem (w_tx (sn_world s)) y.

Lemma inject_filled s q xs m1 q1 x :
  filled s q xs m1 q1 -> sendable x -> eng_mem_pool (eng_tx (w_eng (sn_world s))) <> 0 ->
  (length xs < Z.to_nat (capacity q - 1))%nat ->
  exists m2 q2, inject (msg_header x) (msg_payload x) (msg_len x) MEMORY_ALLOC_SHARED (with_pool_mem s m1 q1)
    = Done (PROCESS_OK, with_pool_mem s m2 q2) /\ filled s q (xs ++ [x]) m2 q2.
Proof.
  intros (Hqd & Hm & Hsb & Hout) Hx Hp Hl.
  destruct (inject_shared (with_pool_mem s m1 q1) q1 xs x) as (m2 & q2 & E & Hqd2 & Hm2 & Hc & Hv & Hout2 & _); try done.
  { by rewrite (proj1 Hsb). }
  exists m2, q2. split; [exact E|]. split; [done|]. split; [done|]. split; [by apply (same_trans q q1)|].
  intros y Hy. rewrite Hout2; [by apply Hout|]. by rewrite (same_in_pool q q1).
Qed.

(** The builder puts all four on an empty queue with room for them. *)
Lemma messages_built junk s q :
  sn_rx s = Some q -> queued (tx_mem (w_tx (sn_world s))) q [] -> mem_bytes (tx_mem (w_tx (sn_world s))) ->
  eng_mem_pool (eng_tx (w_eng (sn_world s))) <> 0 -> 5 <= capacity q ->
  exists m' q', test_proxy_scenario_multi_type_msg_build junk s = Done (PROCESS_OK, with_pool_mem s m' q') /\
  filled s q client_messages m' q'.
Proof.
  intros Hq Hqd Hm Hp Hc. destruct (inject_shared s q [] enable_message Hq Hqd enable_sendable Hm Hp) as
    (m1 & q1 & E1 & Hqd1 & Hm1 & Hc1 & Hv1 & Hout1 & _); [cbn; lia|].
  assert (filled s q [enable_message] m1 q1) as F1 by done.
  destruct (inject_filled _ _ _ _ _ strategy_message F1 strategy_sendable Hp) as (m2 & q2 & E2 & F2); [cbn; lia|].
  destruct (inject_filled _ _ _ _ _ create_message F2 create_sendable Hp) as (m3 & q3 & E3 & F3); [cbn; lia|].
  destruct (inject_filled _ _ _ _ _ test_message F3 test_sendable Hp) as (m4 & q4 & E4 & F4); [cbn; lia|].
  exists m4, q4. split; [|exact F4].
  unfold test_proxy_scenario_multi_type_msg_build.
  change (device_msg_inject s) with (inject (msg_header enable_message) (msg_payload enable_message) (msg_len enable_message) MEMORY_ALLOC_SHARED s).
  rewrite E1, bind_done. cbn [snd].
  change (strategy_msg_inject ?t) with (inject (msg_header strategy_message) (msg_payload strategy_message) (msg_len strategy_message) MEMORY_ALLOC_SHARED t).
  change (injected s q m1 q1) with (with_pool_mem s m1 q1). rewrite E2, bind_done. cbn [snd].
  unfold session_msg_inject. rewrite client_endpoint_scanned. cbv zeta.
  change (inject sess_create_msg_hdr _ _ _ ?t) with (inject (msg_header create_message) (msg_payload create_message) (msg_len create_message) MEMORY_ALLOC_SHARED t).
  rewrite E3, bind_done. cbn [snd].
  assert (data_msg_inject (with_pool_mem s m3 q3) = inject (msg_header test_message) (msg_payload test_message) (msg_len test_message) MEMORY_ALLOC_SHARED (with_pool_mem s m3 q3)) as ->.
  { unfold data_msg_inject. replace (blen (up_to_nul data_buf)) with 8 by (vm_compute; reflexivity). reflexivity. }
  rewrite E4, bind_done. reflexivity.
Qed.

(** ** Reading them back *)

(** A backend that can serve the client: the selector chooses [dev], and the
    next session takes the id 1 and the object [p]. *)
Record client_ready (g : geometry) (s : scenario) (q : SharedMemoryPoolQueue) (env : create_env) (p : Z) (junk : BackendSession)
    (ids : list Z) (dev : Z) (w1 : world) (d : HighSpeedNetDevice) (fd n : Z) (fq : list Z) : Prop := {
  cl_rx : sn_rx s = Some q;
  cl_empty : queued (tx_mem (w_tx (sn_world s))) q [];
  cl_room : 5 <= capacity q;
  cl_apart : apart g q;
  cl_choose : choose_hs_net_dev (sn_world s) DEV_ID_AUTO_HANDOVER = Done (PROCESS_OK, dev, w1);
  cl_dev : dev <> DEV_ID_AUTO_HANDOVER;
  cl_create : create_ready g (sn_world s) (client_para dev) env p junk 1 ids d;
  cl_devs : dev_num (w_eng (sn_world s)) <> 0;
  cl_socket : ce_socket env = Some fd;
  cl_connect : ce_connect env = true;
  cl_epoll : ce_epoll_add env = true;
  cl_free : free_node_queue d = n :: fq;
  cl_node : n ∉ proto_queue SESS_UDP_PROTO d;
  cl_tx_room : tx_room g (sn_world s);
  cl_f2b : bit0 (state_f2b junk) = false;
  cl_b2f : bit0 (state_b2f junk) = false }.

(** The session the client is given. *)
Definition client_session (s : BackendSession) (fd n : Z) : Prop :=
  backend_sess_id s = 1 /\ frontend_sess_id s = 1 /\ sock_fd s = fd /\ proto_type s = SESS_UDP_PROTO /\
  establish_mode s = SESS_ESTABLISH_ACTIVE /\ sess_node s = Some n.

(** The session message is served with the pool's queue in shared memory. *)
Lemma client_connected g s q env p junk ids dev w1 d fd n fq m' :
  client_ready g s q env p junk ids dev w1 d fd n fq -> mem_bytes m' ->
  (forall y, ~ in_pool q y -> m' y = tx_mem (w_tx (sn_world s)) y) ->
  exists w' t blk, high_speed_create_sess_active (rx_world (sn_world s) m') (client_para DEV_ID_AUTO_HANDOVER) env = Done (PROCESS_OK, Some p, w') /\
  pool_inv w' /\ high_speed_search_sess w' 1 = Some p /\ w_sess w' = <[p := t]> (w_sess (sn_world s)) /\ client_session t fd n /\
  msg_f2b t = [] /\ msg_b2f t = [] /\ w_eng w' = w_eng (sn_world s) /\ tx_ok g w' /\
  sent_messages g w' = sent_messages g (sn_world s) ++ [blk] /\
  holds_message (response_header 1 1 SESS_IPV4_PROTO SESS_MSG_CREATE) (SessOpRespData_bytes success_resp) 2 blk.
Proof.
  intros H Hm Hout. destruct H. pose proof cl_create0 as [cr_inv0 cr_tx0 cr_fsid0 cr_malloc0 cr_fresh0 cr_ids0 cr_dev0 cr_hsdev0 cr_active0 cr_ns0]. destruct (choose_frame _ _ _ _ cl_choose0) as (pos & -> & Hf).
  destruct (tx_ok_frame g (sn_world s) m' cr_tx0 Hm) as [Htx Hsent].
  { intros x Hx. apply Hout. intros Hp. destruct (cl_apart0 x Hp). tauto. }
  rewrite (create_auto _ _ env p junk 1 ids dev (with_last_pos (rx_world (sn_world s) m') pos)); try done; [|by apply Hf].
  set (w2 := with_last_pos (rx_world (sn_world s) m') pos).
  destruct (create_active_ok g w2 (client_para dev) env p junk 1 ids d fd n fq) as (w' & t & blk & E & Hi & _ & Hsr & _ & Hs & Hr); try done.
  { split; try done. by apply (pool_inv_ext (sn_world s)). by destruct Htx. }
  { unfold tx_room in *. change (sent_messages g w2) with (sent_messages g (rx_world (sn_world s) m')). by rewrite Hsent. }
  change (sent_messages g w2) with (sent_messages g (rx_world (sn_world s) m')) in Hr. rewrite Hsent in Hr.
  destruct Hr as (? & ? & ? & ? & ? & ? & ? & ? & ? & ? & ? & ? & ? & ? & ? & ? & ?).
  exists w', t, blk. by split_and!.
Qed.

(** The data message, once the session 1 is in the table. *)
Lemma test_processed x a env p t d :
  held (tx_mem (w_tx (px_world x))) a test_message -> mem_bytes (tx_mem (w_tx (px_world x))) ->
  eng_mem_pool (eng_tx (w_eng (px_world x))) <> 0 -> pool_inv (px_world x) ->
  high_speed_search_sess (px_world x) 1 = Some p -> w_sess (px_world x) !! p = Some t -> msg_f2b t = [] ->
  me_seg env = true -> me_data env = Some d -> blen d = 8 ->
  exists w' t', backend_proxy_msg_process x (block_at (tx_mem (w_tx (px_world x))) a) env = Done (PROCESS_OK, with_world x w') /\
  w_sess w' !! p = Some t' /\ msg_f2b t' = [data_seg (lit "test msg")] /\ (p ∈ queue_f2b (w_pool w')) /\ pool_inv w' /\
  w_tx w' = w_tx (px_world x) /\ w_eng w' = w_eng (px_world x) /\ forall fd n, client_session t fd n -> client_session t' fd n.
Proof.
  intros (Hh & _ & Hr) Hm Hp Hi Hid Ht Hnil Hseg Hd Hdl.
  set (m := tx_mem (w_tx (px_world x))) in *.
  change (get_ProxyMsgHeader (block_at m a) 0 = Done {| pmh_version := 1; pmh_type := PROXY_MSG_TYPE_DATA;
            pmh_frontend_sess_id := 1; pmh_backend_sess_id := 1; pmh_payload_len := 8 |}) in Hh.
  assert (received (block_at m a)) as Hrec by (split; [apply block_at_length|by apply mread_bytes]).
  assert (8 <= PROXY_MSG_MAX_SIZE) as Hle by done.
  destruct (data_message_spec x (block_at m a) env _ p t d Hrec Hh eq_refl Hle Hp Hi Hid Ht Hseg Hd Hdl) as
    (w' & t' & bytes & E & Hb & Hs & Hq & Hf & Hi' & _ & Htx & Heng & _ & _ & v & Hv).
  assert (bytes = lit "test msg") as ->.
  { change (bread (block_at m a) 8 8 = Done bytes) in Hb. change (bread (block_at m a) 8 8 = Done (lit "test msg")) in Hr. congruence. }
  exists w', t'. split; [done|]. split; [rewrite Hs; apply lookup_insert_eq|]. rewrite Hq, Hnil.
  split; [reflexivity|]. split; [exact Hf|]. split; [exact Hi'|]. split; [exact Htx|]. split; [exact Heng|].
  intros fd n Hc. rewrite Hv. exact Hc.
Qed.

(** A message handled on the channel writes nothing but the ring. *)
Lemma message_written g x msg env st x' :
  tx_ok g (px_world x) -> backend_proxy_msg_process x msg env = Done (st, x') ->
  ring_written g (tx_mem (w_tx (px_world x))) (tx_mem (w_tx (px_world x'))).
Proof.
  intros [Hw Hq Hb _ _] E.
  assert (kept_px g (eng_tx (w_eng (px_world x))) (tx_mem (w_tx (px_world x))) (st, x')) as [_ H]; [|exact H].
  apply (message_confined g _ _ Hq Hb x msg env); [|exact E]. split; [done|]. apply ring_written_refl. by apply qwf_ring.
Qed.

(** What the client leaves behind when its four messages are served. *)
Record client_served (g : geometry) (s s' : scenario) (q q' : SharedMemoryPoolQueue) (p fd n : Z) (t : BackendSession) : Prop := {
  sv_inv : pool_inv (sn_world s');
  sv_sess : w_sess (sn_world s') !! p = Some t;
  sv_client : client_session t fd n;
  sv_data : msg_f2b t = [data_seg (lit "test msg")];
  sv_queued : p ∈ queue_f2b (w_pool (sn_world s'));
  sv_eng : w_eng (sn_world s') = w_eng (sn_world s);
  sv_tx : tx_ok g (sn_world s');
  sv_rx : sn_rx s' = Some q';
  sv_same : same_blocks q q';
  sv_read : queued (tx_mem (w_tx (sn_world s'))) q' [];
  sv_sent : exists blk, sent_messages g (sn_world s') = sent_messages g (sn_world s) ++ [blk] /\
    holds_message (response_header 1 1 SESS_IPV4_PROTO SESS_MSG_CREATE) (SessOpRespData_bytes success_resp) 2 blk }.

Lemma tx_ok_ext g w w' : w_tx w' = w_tx w -> w_eng w' = w_eng w -> tx_ok g w -> tx_ok g w' /\ sent_messages g w' = sent_messages g w.
Proof. unfold sent_messages. intros E1 E2 []. split; [split; by rewrite ?E1, ?E2|by rewrite E1]. Qed.

Lemma messages_read g s q env p junk ids dev w1 d fd n fq m4 q4 dbuf :
  client_ready g s q (me_create (env 2%nat)) p junk ids dev w1 d fd n fq ->
  filled s q client_messages m4 q4 ->
  me_seg (env 3%nat) = true -> me_data (env 3%nat) = Some dbuf -> blen dbuf = 8 ->
  exists s' q' t, test_proxy_scenario_msg_read_from_rx_queue env (with_pool_mem s m4 q4) = Done (PROCESS_OK, s') /\
  client_served g s s' q q' p fd n t.
Proof.
  intros H (Hqd & Hm & Hsb & Hout) Hseg Hd Hdl. pose proof (cr_tx _ _ _ _ _ _ _ _ _ (cl_create _ _ _ _ _ _ _ _ _ _ _ _ _ H)) as Htx.
  set (x0 := with_world (sn_px s) (rx_world (sn_world s) m4)).
  assert (tx_ok g (px_world x0) /\ sent_messages g (px_world x0) = sent_messages g (sn_world s)) as Htx0.
  { apply tx_ok_frame; [done|done|]. intros y Hy. apply Hout. intros Hp. destruct (cl_apart _ _ _ _ _ _ _ _ _ _ _ _ _ H y Hp). tauto. }
  destruct (get_queued x0 q4 _ _ (env 0%nat) None Hqd enable_sendable) as (a1 & q5 & Ha1 & E1 & Hqd5 & Hs5).
  rewrite (enable_processed _ _ _ _ Ha1), bind_done in E1.
  destruct (get_queued x0 q5 _ _ (env 1%nat) (Some a1) Hqd5 strategy_sendable) as (a2 & q6 & Ha2 & E2 & Hqd6 & Hs6).
  rewrite (strategy_processed _ _ _ _ Ha2), bind_done in E2.
  destruct (get_queued x0 q6 _ _ (env 2%nat) (Some a2) Hqd6 create_sendable) as (a3 & q7 & Ha3 & E3 & Hqd7 & Hs7).
  destruct (client_connected _ _ _ _ _ _ _ _ _ _ _ _ _ m4 H Hm Hout) as (w' & t & blk & Ec & Hi & Hid & Hsess & Hcl & Hf & _ & Heng & Htx' & Hsent & Hblk).
  pose proof (create_processed x0 _ _ (env 2%nat) Ha3) as Ep. change (px_world x0) with (rx_world (sn_world s) m4) in Ep at 2.
  rewrite Ec, bind_done in Ep. set (x1 := with_world x0 w').
  change (on_world x0 _) with (Done (PROCESS_OK, x1)) in Ep. rewrite Ep, bind_done in E3. cbn [snd] in E3.
  assert (queued (tx_mem (w_tx (px_world x1))) q7 [test_message]) as Hqd7'.
  { apply (queued_ring_written g m4); [|by apply (message_written g x0 _ _ _ _ (proj1 Htx0) Ep) |exact Hqd7].
    apply (same_apart g q q7); [|apply H]. do 3 (eapply same_trans; [|eassumption]). done. }
  destruct (get_queued x1 q7 _ _ (env 3%nat) (Some a3) Hqd7' test_sendable) as (a4 & q8 & Ha4 & E4 & Hqd8 & Hs8).
  assert (eng_mem_pool (eng_tx (w_eng w')) <> 0) as Hpool by (rewrite Heng; apply Htx).
  assert (w_sess w' !! p = Some t) as Ht by (rewrite Hsess; apply lookup_insert_eq).
  destruct (test_processed x1 a4 (env 3%nat) p t dbuf Ha4 (qwf_bytes _ _ (txo_wf _ _ Htx')) Hpool Hi Hid Ht Hf Hseg Hd Hdl)
    as (w8 & t8 & Ed & Ht8 & Hf8 & Hq8 & Hi8 & Htx8 & Heng8 & Hcl8).
  rewrite Ed, bind_done in E4. cbn [snd] in E4. exists {| sn_px := with_world x1 w8; sn_rx := Some q8 |}, q8, t8.
  destruct (tx_ok_ext g w' w8 Htx8 Heng8 Htx') as [Htx9 Hsent9]. split.
  - unfold test_proxy_scenario_msg_read_from_rx_queue. rewrite bool_decide_false by done.
    change (with_pool_mem s m4 q4) with {| sn_px := x0; sn_rx := Some q4 |}.
    rewrite E1, bind_done. cbn [fst snd]. rewrite E2, bind_done. cbn [fst snd]. rewrite E3, bind_done. cbn [fst snd].
    rewrite E4, bind_done. reflexivity.
  - constructor; [exact Hi8|exact Ht8|exact (Hcl8 _ _ Hcl)|exact Hf8|exact Hq8| |exact Htx9|reflexivity| | |].
    + change (w_eng w8 = w_eng (sn_world s)). by rewrite Heng8.
    + do 4 (eapply same_trans; [|eassumption]). done.
    + change (queued (tx_mem (w_tx w8)) q8 []). by rewrite Htx8.
    + exists blk. split; [|exact Hblk]. change (sent_messages g w8 = sent_messages g (sn_world s) ++ [blk]). by rewrite Hsent9.
Qed.

(** ** The whole run *)

(** C12. The test client from end to end.  Against a backend that can serve one more
    session under the id 1, the four messages it builds and reads back - device,
    strategy, session on an automatically chosen device, data - leave an active
    UDP session for frontend 1 in the table, with the success response on the TX
    ring, "test msg" queued on the session and the session on the f2b work
    queue, the receive queue empty; one pass over that session hands the socket
    exactly these eight bytes. *)
Theorem scenario_end_to_end g s q endpoint env p junk ids dev w1 d fd n fq dbuf :
  client_ready g s q (me_create (env 2%nat)) p junk ids dev w1 d fd n fq ->
  me_seg (env 3%nat) = true -> me_data (env 3%nat) = Some dbuf -> blen dbuf = 8 ->
  exists s1 s2 q' t,
  test_proxy_scenario_multi_type_msg_build endpoint s = Done (PROCESS_OK, s1) /\
  test_proxy_scenario_msg_read_from_rx_queue env s1 = Done (PROCESS_OK, s2) /\
  client_served g s s2 q q' p fd n t /\
  forall buf send, 8 < buf -> send 0%nat <> -1 ->
  high_speed_data_process_f2b (sn_world s2) p (Some buf) send =
    Done (PROCESS_OK, [(lit "test msg", send 0%nat)], put_sess (sn_world s2) p (set_msgs F2B t [])).
Proof.
  intros H Hseg Hd Hdl. pose proof (cr_tx _ _ _ _ _ _ _ _ _ (cl_create _ _ _ _ _ _ _ _ _ _ _ _ _ H)) as Htx.
  destruct (messages_built endpoint s q (cl_rx _ _ _ _ _ _ _ _ _ _ _ _ _ H) (cl_empty _ _ _ _ _ _ _ _ _ _ _ _ _ H)
              (qwf_bytes _ _ (txo_wf _ _ Htx)) (txo_pool _ _ Htx) (cl_room _ _ _ _ _ _ _ _ _ _ _ _ _ H)) as (m4 & q4 & E1 & Hf).
  destruct (messages_read g s q env p junk ids dev w1 d fd n fq m4 q4 dbuf H Hf Hseg Hd Hdl) as (s2 & q' & t & E2 & Hs).
  exists (with_pool_mem s m4 q4), s2, q', t. split; [exact E1|]. split; [exact E2|]. split; [exact Hs|].
  intros buf send Hbuf Hsend. unfold high_speed_data_process_f2b, get_sess. rewrite (sv_sess _ _ _ _ _ _ _ _ _ Hs), bind_done, (sv_data _ _ _ _ _ _ _ _ _ Hs).
  unfold data_seg. cbn [f2b_loop seg_data seg_len]. change (blen (lit "test msg")) with 8. cbn [Z.ltb Z.compare].
  rewrite (proj2 (Z.ltb_lt 8 buf)) by done. change (bread (lit "test msg") 0 8) with (Done (lit "test msg")). rewrite bind_done.
  rewrite (proj2 (Z.eqb_neq _ _) Hsend). reflexivity.
Qed.

(** ** The drivers and the engine *)

Lemma f2b_pass_walk env todo ret w : (r ← f2b_pass env todo ret w; Done (snd r)) = engine_f2b_walk env todo w.
Proof.
  revert ret w. induction todo as [|p todo IH]; intros ret w; cbn [f2b_pass engine_f2b_walk]; [reflexivity|].
  rewrite bind_assoc. destruct (high_speed_data_process_f2b _ _ _ _) as [ [ [st sent] w1]| |]; [|done..]. rewrite !bind_done.
  destruct st; rewrite bind_assoc.
  - destruct (retire_sess _ _ _) as [w2| |]; [rewrite !bind_done; apply IH|done..].
  - destruct (drop_sess _ _ _ _) as [w2| |]; [rewrite !bind_done; apply IH|done..].
  - rewrite bind_done. apply IH.
Qed.

(** The client's pass over the sessions with data for the network is step 2 of
    the event loop: same world, same faults, whatever the uninitialised [ret]. *)
Theorem f2b_driver_is_step2 env junk w :
  (r ← test_proxy_scenario_process_active_f2b_sess_queue env junk w; Done (snd r)) = engine_f2b_walk env (queue_f2b (w_pool w)) w.
Proof. apply f2b_pass_walk. Qed.

(** A read on an empty queue has no message to dispatch. *)
Lemma read_empty_faults env s q :
  sn_rx s = Some q -> spq_wf q -> pending q = [] -> test_proxy_scenario_msg_read_from_rx_queue env s = Fault NullDeref.
Proof.
  intros Hq Hw Hp. unfold test_proxy_scenario_msg_read_from_rx_queue, get_and_process. rewrite Hq, bool_decide_false by done.
  pose proof (get_pending (tx_mem (w_tx (sn_world s))) q PROXY_MSG_HDR_PLUS_MAX_SIZE Hw) as E. rewrite Hp in E. rewrite E, bind_done.
  reflexivity.
Qed.

(** With no session to serve, the b2f driver tests what [ret] happens to hold. *)
Lemma b2f_driver_junk junk w : queue_b2f (w_pool w) = [] ->
  test_proxy_scenario_process_active_b2f_sess_queue junk w = if junk =? -1 then Fault NullDeref else Done (PROCESS_OK, w).
Proof. intros Hq. unfold test_proxy_scenario_process_active_b2f_sess_queue. rewrite Hq. reflexivity. Qed.

(** The backend's device report: refused after the header was built, and the
    refusal takes the newest message off the receive queue. *)
Theorem report_refused_drops_newest s q xs :
  sn_rx s = Some q -> queued (tx_mem (w_tx (sn_world s))) q xs -> mem_bytes (tx_mem (w_tx (sn_world s))) ->
  eng_mem_pool (eng_tx (w_eng (sn_world s))) <> 0 -> hyper_tx_queue (eng_ports (eng_tx (w_eng (sn_world s)))) <> 0 ->
  (length xs < Z.to_nat (capacity q - 1))%nat ->
  exists s1 q1 s2, device_msg_inject s = Done (PROCESS_OK, s1) /\
  sn_rx s1 = Some q1 /\ queued (tx_mem (w_tx (sn_world s1))) q1 (xs ++ [enable_message]) /\
  device_msg_inject_backend_hyperamp s1 = Done (PROCESS_ERROR, s2) /\ sn_rx s2 = Some q /\
  tx_mem (w_tx (sn_world s2)) = tx_mem (w_tx (sn_world s1)).
Proof.
  intros Hq Hqd Hm Hp Ht Hl.
  destruct (inject_shared s q xs enable_message Hq Hqd enable_sendable Hm Hp Hl) as (m1 & q1 & E1 & Hqd1 & _ & _ & _ & _ & Hback).
  destruct (fill_message dev_enable_msg_hdr ([SESS_OP_STATUS_SUCCESS; SESS_OP_CODE_SUCCESS] ++ le_bytes 2 0xFF) sizeof_DevMsgReport
              (replicate (Z.to_nat HYPERAMP_MSG_HDR_PLUS_MAX_SIZE) 0) 0) as [ [r buf]| |] eqn:Ef; [|exfalso; revert Ef; vm_compute; discriminate..].
  assert (r = None) as ->.
  { assert ((r ← fill_message dev_enable_msg_hdr ([SESS_OP_STATUS_SUCCESS; SESS_OP_CODE_SUCCESS] ++ le_bytes 2 0xFF) sizeof_DevMsgReport
       (replicate (Z.to_nat HYPERAMP_MSG_HDR_PLUS_MAX_SIZE) 0) 0; Done (fst r)) = Done None) as E by (vm_compute; reflexivity).
    rewrite Ef in E. by injection E. }
  exists (injected s q m1 q1), q1.
  eexists. split; [exact E1|]. split; [reflexivity|]. split; [exact Hqd1|].
  split; [|split; [|] ].
  - unfold device_msg_inject_backend_hyperamp, inject, scenario_msg_inject. cbn [sn_rx injected]. rewrite !bool_decide_false by done.
    cbn [negb andb Z.eqb]. unfold build_proxy_general_message.
    change (w_eng (sn_world (injected s q m1 q1))) with (w_eng (sn_world s)). rewrite (proj2 (Z.eqb_neq _ _) Hp).
    unfold build_general_amp. rewrite (proj2 (Z.eqb_neq _ _) Ht), Ef, bind_done. cbn [fst snd tx_ring with_tx_buf with_tx_ring].
    change (ring_after_failure dev_enable_msg_hdr (Some q1)) with (SHM_POOL_QUEUE_HEAD_ROLLBACK (Some q1)). rewrite Hback. reflexivity.
  - reflexivity.
  - reflexivity.
Qed.

(** ** A concrete client *)

Definition demo_rx : SharedMemoryPoolQueue :=
  default demo_junk (PoolPort.create (set_conf_pool high_speed_net_rx_queue_config 1) (demo_alloc 0x400000)).
Definition demo_scenario : scenario :=
  {| sn_px := {| px_world := demo_start demo_tx; px_iot := demo_iots; px_out := [] |}; sn_rx := Some demo_rx |}.
Definition demo_client_env (k : nat) : msg_env :=
  {| me_create := demo_create_env true; me_seg := true; me_data := Some (replicate 8 0); me_epoll := true; me_write := true |}.

Lemma demo_rx_queued m : queued m demo_rx [].
Proof. split; [by split; vm_compute|done|]. assert (pending demo_rx = []) as -> by (vm_compute; reflexivity). constructor. Qed.

Lemma demo_apart : apart demo_tx_geo demo_rx.
Proof.
  assert (virt_addr1 demo_rx = 0x400000 /\ capacity demo_rx = 256 /\ g_queue demo_tx_geo = 69632 /\ g_base demo_tx_geo = 73728 /\
          g_bs demo_tx_geo = 4096 /\ g_cap demo_tx_geo = 253 /\ sizeof_HyperampShmQueue <= 4096) as (Ev & Ec & Eq & Eb & Es & Eg & Hz)
    by (by vm_compute).
  intros x. unfold in_pool, in_control, in_blocks. rewrite Ev, Ec, Eq, Eb, Es, Eg. lia.
Qed.

Lemma demo_client_ready :
  client_ready demo_tx_geo demo_scenario demo_rx (demo_create_env true) 500 SessionPoolRun.demo_junk (map Z.of_nat (seq 2 1023)) 0
    (with_last_pos (demo_start demo_tx) 0) (demo_dev 0 [10; 11]) 5 10 [11].
Proof.
  assert (tx_ok demo_tx_geo (demo_start demo_tx)) as Htx by (by apply demo_tx_ok).
  assert (create_ready demo_tx_geo (demo_start demo_tx) (client_para 0) (demo_create_env true) 500 SessionPoolRun.demo_junk 1
            (map Z.of_nat (seq 2 1023)) (demo_dev 0 [10; 11])) as Hc.
  { destruct (demo_create_ready _ _ true Htx) as [Hi _ _ Hm Hf Hq _ Hd Ha Hn]. constructor; [exact Hi|exact Htx|by vm_compute|exact Hm|exact Hf|exact Hq|by vm_compute|exact Hd|exact Ha|exact Hn]. }
  constructor; [reflexivity|apply demo_rx_queued|by vm_compute|exact demo_apart|vm_compute; reflexivity|discriminate|exact Hc
    |discriminate|reflexivity|reflexivity|reflexivity|reflexivity|apply not_elem_of_nil|by apply demo_tx_room
    |vm_compute; reflexivity|vm_compute; reflexivity].
Qed.

Lemma scenario_end_to_end_witness : exists s1 s2 q' t w,
  test_proxy_scenario_multi_type_msg_build client_endpoint demo_scenario = Done (PROCESS_OK, s1) /\
  test_proxy_scenario_msg_read_from_rx_queue demo_client_env s1 = Done (PROCESS_OK, s2) /\
  client_served demo_tx_geo demo_scenario s2 demo_rx q' 500 5 10 t /\
  high_speed_data_process_f2b (sn_world s2) 500 (Some 100) (fun _ => 8) = Done (PROCESS_OK, [(lit "test msg", 8)], w).
Proof.
  destruct (scenario_end_to_end demo_tx_geo demo_scenario demo_rx client_endpoint demo_client_env 500 SessionPoolRun.demo_junk
              (map Z.of_nat (seq 2 1023)) 0 (with_last_pos (demo_start demo_tx) 0) (demo_dev 0 [10; 11]) 5 10 [11] (replicate 8 0)
              demo_client_ready eq_refl eq_refl eq_refl) as (s1 & s2 & q' & t & E1 & E2 & Hs & Hf).
  do 5 eexists. split; [exact E1|]. split; [exact E2|]. split; [exact Hs|]. apply (Hf 100 (fun _ => 8)); [reflexivity|discriminate].
Defined.

Lemma report_refused_drops_newest_witness : exists s1 s2,
  device_msg_inject demo_scenario = Done (PROCESS_OK, s1) /\ sn_rx s1 <> sn_rx demo_scenario /\
  device_msg_inject_backend_hyperamp s1 = Done (PROCESS_ERROR, s2) /\ sn_rx s2 = sn_rx demo_scenario.
Proof.
  destruct (report_refused_drops_newest demo_scenario demo_rx [] eq_refl) as (s1 & q1 & s2 & E1 & Hq1 & Hqd & E2 & Hq2 & _).
  - apply demo_rx_queued.
  - apply (qwf_bytes demo_tx_geo). exact (txo_wf _ _ (demo_tx_ok (demo_start demo_tx) eq_refl eq_refl)).
  - discriminate.
  - discriminate.
  - vm_compute. lia.
  - exists s1, s2. split; [exact E1|]. split; [|split; [exact E2|exact Hq2] ]. rewrite Hq1. intros [= ->].
    pose proof (Forall2_length _ _ _ (qd_held _ _ _ Hqd)) as Hl. rewrite pending_length in Hl. revert Hl. vm_compute. discriminate.
Defined.
