(* ===== verification/EngineInit.v ===== *)
(** * EngineInit: start-up and shutdown of the engine

    [engine_init] (src/engine.c 2170-2265) with the small initialisation steps it
    calls (209-217, 333-359, 1977-2112), [poller_init], [poller_destory] and the
    channel functions of src/poller.c, and [engine_destory] (3517-3624).  The
    functions return void or a status; what the environment answers is an
    argument. *)

From S2P Require Import Prelude Bytes Mem HyperampQueue HyperampLinux SharedMemIO ByteStore Message Build Session Device Responses SessionPool CString Dictionary IniParser Iot Proto Engine DevConfig IotConfig.
From stdpp Require Import base list numbers option gmap.
From Stdlib Require Import ZArith Lia.
#[local] Open Scope Z_scope.

(** ** The poller *)

(** The descriptor stored in [reactor->epfd], and the status; [epfd] is what
    epoll_create answers.  [None]: a NULL reactor. *)
Definition poller_init (reactor : bool) (epfd : Z) : status * option Z :=
  if negb reactor then (PROCESS_ERROR, None)
  else (if epfd <=? 0 then PROCESS_ERROR else PROCESS_OK, Some epfd).

Definition poller_destory (w : world) (epfd : Z) : status * world := (PROCESS_OK, close_fd w epfd).

(** The callback and the poller pointer of a channel are not modelled. *)
Definition channel_set (ch : NetChannel) (fd : Z) : NetChannel :=
  {| ch_sock_fd := fd; ch_events := 0; ch_status := ch_status ch; ch_sess := ch_sess ch |}.

Definition channel_set_sess (ch : NetChannel) (sess : Z) : NetChannel :=
  {| ch_sock_fd := ch_sock_fd ch; ch_events := ch_events ch; ch_status := ch_status ch; ch_sess := sess |}.

(** The operation asked of epoll_ctl. *)
Inductive epoll_op := EPOLL_CTL_ADD | EPOLL_CTL_MOD | EPOLL_CTL_DEL.

(** [ctl] answers epoll_ctl. *)
Definition event_add (ctl : epoll_op -> bool) (events : Z) (ch : NetChannel) : status * epoll_op * NetChannel :=
  let op := if ch_status ch =? 1 then EPOLL_CTL_MOD else EPOLL_CTL_ADD in
  let ch := {| ch_sock_fd := ch_sock_fd ch; ch_events := events; ch_status := 1; ch_sess := ch_sess ch |} in
  (if ctl op then PROCESS_OK else PROCESS_ERROR, op, ch).

(** [None]: epoll_ctl is not called. *)
Definition event_del (ch : NetChannel) : status * option epoll_op * NetChannel :=
  if negb (ch_status ch =? 1) then (PROCESS_ERROR, None, ch) else
  (PROCESS_OK, Some EPOLL_CTL_DEL,
   {| ch_sock_fd := ch_sock_fd ch; ch_events := ch_events ch; ch_status := 0; ch_sess := ch_sess ch |}).

(** The older callbacks of poller.c.  [answers]: what recv returns, call by
    call; after the last one the socket has nothing to say and the loop goes on.
    An error other than EAGAIN calls exit, which does not come back. *)
Inductive recv_answer := RecvData (l : list Z) | RecvClosed | RecvAgain | RecvError.

Definition EPOLLOUT : Z := 4.
Definition EPOLLET : Z := 2 ^ 31.
Definition RECV_CB_BUFFER : Z := 5.

Definition send_cb : Z := -1.

(** The loop: what is written to standard output, the channel, the closed
    descriptor and the calls of epoll_ctl. *)
Fixpoint recv_loop (answers : list recv_answer) (fd : Z) (ch : NetChannel) (out : list Z)
  : outcome (list Z * NetChannel * list Z * list epoll_op) :=
  match answers with
  | [] => Spin
  | RecvData l :: answers => recv_loop answers fd ch (out ++ take (Z.to_nat RECV_CB_BUFFER) l)
  | RecvClosed :: _ =>
      let '(_, op, ch) := event_del ch in
      Done (out, ch, [fd], match op with Some o => [o] | None => [] end)
  | RecvAgain :: _ => Done (out, ch, [], [])
  | RecvError :: _ => Spin
  end.

(** The outer [len], which is returned, is never assigned. *)
Definition recv_cb (ctl : epoll_op -> bool) (answers : list recv_answer) (fd : Z) (ch : NetChannel) (w : world)
  : outcome (Z * list Z * NetChannel * world * list epoll_op) :=
  r ← recv_loop answers fd ch [];
  let '(out, ch, closed, ops) := r in
  let w := foldl close_fd w closed in
  let '(_, op, ch) := event_add ctl (Z.lor EPOLLOUT EPOLLET) (channel_set ch fd) in
  Done (-1, out, ch, w, ops ++ [op]).

(** ** Steps of start-up *)

Record init_env := {
  bo_hs : hs_env;
  bo_pool : bool;                 (** malloc of the session pool *)
  bo_mem_pool : option Z;         (** malloc of the memory pool *)
  bo_lock : bool;                 (** malloc of its lock *)
  bo_epfd : Z;                    (** epoll_create *)
  bo_map : MapEnv;
  bo_iot : iot_dev_env;
  bo_sess : nat -> iot_sess_env }.

(** The process: the engine and its session state, the HyperAMP context, the
    IoT devices, the poller, and whether [dev_set] and [sess_pool] are set. *)
Record process := {
  pr_proxy : proxy;
  pr_ctx : HyperampLinuxContext;
  pr_iot : iot_engine;
  pr_epfd : Z;
  pr_dev_set : bool;
  pr_sess_pool : bool }.

Definition set_world (x : process) (w : world) : process :=
  {| pr_proxy := with_world (pr_proxy x) w; pr_ctx := pr_ctx x; pr_iot := pr_iot x; pr_epfd := pr_epfd x;
     pr_dev_set := pr_dev_set x; pr_sess_pool := pr_sess_pool x |}.

Definition set_eng (w : world) (e : BackendEngine) : world :=
  {| w_sess := w_sess w; w_node := w_node w; w_devs := w_devs w; w_pool := w_pool w; w_eng := e;
     w_last_pos := w_last_pos w; w_tx := w_tx w; w_closed := w_closed w |}.

(** [memset(p_g_bk_eng, 0, sizeof(BackendEngine))]; no device can be reached
    through the NULL [dev_set]. *)
Definition zero_engine : BackendEngine :=
  {| eng_tx := {| eng_mem_pool := 0; eng_ports := {| hyper_rx_queue := 0; hyper_tx_queue := 0; hyper_amp_data_region := 0 |} |};
     dev_num := 0; active_mask := 0; selector_id := 0 |}.

Definition clear_engine (x : process) : process :=
  {| pr_proxy := with_world (pr_proxy x) (set_eng (with_devs (px_world (pr_proxy x)) []) zero_engine); pr_ctx := pr_ctx x;
     pr_iot := {| iot_dev_set := None; iot_dev_num := 0 |}; pr_epfd := 0; pr_dev_set := false; pr_sess_pool := false |}.

(** [eng->ops] is a constant table. *)
Definition engine_init_eng_ops (eng : bool) : status := if eng then PROCESS_OK else PROCESS_ERROR.

Definition engine_init_selector (e : BackendEngine) : status * BackendEngine :=
  (PROCESS_OK, {| eng_tx := eng_tx e; dev_num := dev_num e; active_mask := active_mask e; selector_id := 0 |}).

Definition engine_init_sess_pool (malloc : bool) (w : world) : status * world :=
  if negb malloc then (PROCESS_ERROR, w) else (PROCESS_OK, with_pool w high_speed_init_pool).

Definition init_shared_mem_pool_lock : status := PROCESS_OK.

Definition engine_init_shared_mem_pool (malloc : option Z) (e : BackendEngine) : status * BackendEngine :=
  match malloc with
  | None => (PROCESS_ERROR, e)
  | Some mem_pool =>
      if negb (bool_decide (init_shared_mem_pool mem_pool = PROCESS_OK)) then (PROCESS_ERROR, e) else
      (PROCESS_OK, {| eng_tx := {| eng_mem_pool := mem_pool; eng_ports := eng_ports (eng_tx e) |}; dev_num := dev_num e;
                      active_mask := active_mask e; selector_id := selector_id e |})
  end.

(** The lock is allocated and initialised, but not stored in the engine. *)
Definition engine_init_shared_mem_pool_lock (malloc : bool) : status :=
  if negb malloc then PROCESS_ERROR else
  if negb (bool_decide (init_shared_mem_pool_lock = PROCESS_OK)) then PROCESS_ERROR else PROCESS_OK.

Definition set_ports (e : BackendEngine) (p : hyper_ports) : BackendEngine :=
  {| eng_tx := {| eng_mem_pool := eng_mem_pool (eng_tx e); eng_ports := p |}; dev_num := dev_num e;
     active_mask := active_mask e; selector_id := selector_id e |}.

(** ** Start-up *)

(** The IoT steps, last. *)
Definition engine_init_iot (env : init_env) (x : process) : outcome process :=
  r ← engine_init_iot_devices (bo_iot env) (pr_iot x);
  let x := {| pr_proxy := pr_proxy x; pr_ctx := pr_ctx x; pr_iot := snd r; pr_epfd := pr_epfd x;
              pr_dev_set := pr_dev_set x; pr_sess_pool := pr_sess_pool x |} in
  if negb (bool_decide (fst r = PROCESS_OK)) then Done x else
  r ← engine_init_iot_sessions (bo_sess env) (Some (pr_iot x));
  let '(_, iot, closed) := r in
  let w := fold_left close_fd closed (px_world (pr_proxy x)) in
  Done {| pr_proxy := {| px_world := w; px_iot := iot; px_out := px_out (pr_proxy x) |}; pr_ctx := pr_ctx x; pr_iot := pr_iot x;
          pr_epfd := pr_epfd x; pr_dev_set := pr_dev_set x; pr_sess_pool := pr_sess_pool x |}.

(** From the poller on. *)
Definition engine_init_io (env : init_env) (x : process) : outcome process :=
  let '(st, epfd) := poller_init true (bo_epfd env) in
  let x := {| pr_proxy := pr_proxy x; pr_ctx := pr_ctx x; pr_iot := pr_iot x; pr_epfd := default (pr_epfd x) epfd;
              pr_dev_set := pr_dev_set x; pr_sess_pool := pr_sess_pool x |} in
  if negb (bool_decide (st = PROCESS_OK)) then Done x else
  let w := px_world (pr_proxy x) in
  let '(st, ports, c, m) := engine_init_hyperamp_queue (bo_map env) (pr_ctx x) (tx_mem (w_tx w)) (eng_ports (eng_tx (w_eng w))) in
  let w := set_eng (with_tx w (with_tx_mem (w_tx w) m)) (set_ports (w_eng w) ports) in
  let x := {| pr_proxy := with_world (pr_proxy x) w; pr_ctx := c; pr_iot := pr_iot x; pr_epfd := pr_epfd x;
              pr_dev_set := pr_dev_set x; pr_sess_pool := pr_sess_pool x |} in
  if negb (bool_decide (st = PROCESS_OK)) then Done x else
  engine_init_iot env x.

(** A step that fails ends the function; what was set up stays. *)
Definition engine_init (env : init_env) (x : process) : outcome process :=
  let x := clear_engine x in
  r ← engine_init_hs_net_dev (bo_hs env) (px_world (pr_proxy x));
  let x := set_world x (snd r) in
  if negb (bool_decide (fst r = PROCESS_OK)) then Done x else
  let x := {| pr_proxy := pr_proxy x; pr_ctx := pr_ctx x; pr_iot := pr_iot x; pr_epfd := pr_epfd x; pr_dev_set := true;
              pr_sess_pool := pr_sess_pool x |} in
  if negb (bool_decide (engine_init_eng_ops true = PROCESS_OK)) then Done x else
  let w := px_world (pr_proxy x) in
  let w := set_eng w (snd (engine_init_selector (w_eng w))) in
  let '(st, w) := engine_init_sess_pool (bo_pool env) w in
  if negb (bool_decide (st = PROCESS_OK)) then Done (set_world x w) else
  let x := {| pr_proxy := pr_proxy x; pr_ctx := pr_ctx x; pr_iot := pr_iot x; pr_epfd := pr_epfd x; pr_dev_set := true;
              pr_sess_pool := true |} in
  let '(st, e) := engine_init_shared_mem_pool (bo_mem_pool env) (w_eng w) in
  let x := set_world x (set_eng w e) in
  if negb (bool_decide (st = PROCESS_OK)) then Done x else
  if negb (bool_decide (engine_init_shared_mem_pool_lock (bo_lock env) = PROCESS_OK)) then Done x else
  engine_init_io env x.

(** ** Shutdown *)

(** The loop over [tcp_node_queue] or [udp_node_queue] of device [i]: [todo] are
    the nodes still to be visited. *)
Fixpoint destory_queue (epoll_ok : Z -> bool) (i proto : Z) (todo : list Z) (w : world) : outcome world :=
  match todo with
  | [] => Done w
  | n :: todo =>
      d ← get_dev w i;
      q ← tailq_remove n (proto_queue proto d);
      let w := put_dev w i (set_proto_queue proto d q) in
      np ← get_node w n;
      match np with
      | None => Fault NullDeref
      | Some p =>
          s ← get_sess w p;
          let w := put_sess w p (set_link_state s (Z.land (sess_dev_link_state s) (Z.lnot BACKEND_SESS_LINKED_TO_DEV_NODE))) in
          r ← high_speed_delete_sess w p (epoll_ok p);
          destory_queue epoll_ok i proto todo (with_node (snd r) (delete n (w_node (snd r))))
      end
  end.

Fixpoint destory_free_nodes (i : Z) (todo : list Z) (w : world) : outcome world :=
  match todo with
  | [] => Done w
  | n :: todo =>
      d ← get_dev w i;
      q ← tailq_remove n (free_node_queue d);
      _ ← get_node w n;
      destory_free_nodes i todo (with_node (put_dev w i (set_free_nodes d q)) (delete n (w_node w)))
  end.

(** The body of the loop over the devices; TAILQ_INIT empties each list. *)
Definition destory_device (epoll_ok : Z -> bool) (i : Z) (w : world) : outcome world :=
  d ← get_dev w i;
  let w := if (0 <? tcp_listening_port d) && negb (tcp_listener d =? -1) then close_fd w (tcp_listener d) else w in
  w ← destory_queue epoll_ok i SESS_TCP_PROTO (tcp_node_queue d) w;
  d ← get_dev w i;
  let w := put_dev w i (set_proto_queue SESS_TCP_PROTO d []) in
  w ← destory_queue epoll_ok i SESS_UDP_PROTO (udp_node_queue d) w;
  d ← get_dev w i;
  let w := put_dev w i (set_proto_queue SESS_UDP_PROTO d []) in
  w ← destory_free_nodes i (free_node_queue d) w;
  d ← get_dev w i;
  Done (put_dev w i (set_free_nodes d [])).

Fixpoint destory_devices (epoll_ok : Z -> bool) (fuel cnt : nat) (w : world) : outcome world :=
  match fuel with
  | O => Done w
  | S fuel => w ← destory_device epoll_ok (Z.of_nat cnt) w; destory_devices epoll_ok fuel (S cnt) w
  end.

Definition engine_destory_hs_net_dev (epoll_ok : Z -> bool) (x : process) : outcome process :=
  if negb (pr_dev_set x && pr_sess_pool x) then Done x else
  w ← destory_devices epoll_ok (Z.to_nat (dev_num (w_eng (px_world (pr_proxy x))))) 0 (px_world (pr_proxy x));
  Done (set_world x (close_fd w (pr_epfd x))).

Definition engine_destory (epoll_ok : Z -> bool) (x : process) : outcome process :=
  x ← engine_destory_hs_net_dev epoll_ok x; Done (clear_engine x).

(** ** The main program *)

Definition with_proxy (x : process) (p : proxy) : process :=
  {| pr_proxy := p; pr_ctx := pr_ctx x; pr_iot := pr_iot x; pr_epfd := pr_epfd x; pr_dev_set := pr_dev_set x; pr_sess_pool := pr_sess_pool x |}.

(** The guards before the loop (engine.c 3256-3297).  [engine_init] has
    set the pointer to the engine; the queues of the pool are NULL exactly when
    [sess_pool] is, and its [ops] are set with it. *)
Definition engine_run_ready (x : process) : bool :=
  let p := eng_ports (eng_tx (w_eng (px_world (pr_proxy x)))) in
  negb ((hyper_rx_queue p =? 0) || (hyper_tx_queue p =? 0) || (hyper_amp_data_region p =? 0)) && pr_sess_pool x.

(** [None]: the function has returned; the loop has no end of its own, so
    [Some x] is the state after the turns of [steps].  When a guard fails, the
    process is as before. *)
Definition engine_run_hyperamp (fuel : nat) (steps : list turn_step) (buf : list Z) (x : process)
  : outcome (option process * list Z) :=
  if negb (engine_run_ready x) then Done (None, buf) else
  r ← run_turns fuel steps buf (pr_proxy x);
  Done (option_map (with_proxy x) (fst r), snd r).
