(* ===== verification/EngineInitSpec.v ===== *)
(** * EngineInitSpec: a started engine can serve sessions

    Composition of the start-up steps: with a described device file, memory and
    the mapped channel, [engine_init] leaves the state from which sessions are
    created, whatever becomes of the IoT devices. *)

From S2P Require Import Prelude Bytes Mem HyperampQueue HyperampQueueSpec HyperampLinux ByteStore Message Build BuildSpec Session Device Responses SessionPool SessionPoolSpec SessionPoolRun CString Dictionary IniParser IniParserSpec Iot Proto IotMessages DevConfig DevConfigSpec DevConfigFile IotConfig IotConfigSpec Engine Channel EngineInit.
From stdpp Require Import base list numbers option gmap strings.
From Stdlib Require Import ZArith Lia.
#[local] Open Scope Z_scope.

(** The device file is the one that describes [cs], namespaces open and memory
    is available. *)
Record described_by (env : hs_env) (cs : list dev_conf) (N : gmap Z (option Z)) : Prop := {
  db_conf : Forall conf_ok cs;
  db_names : NoDup (names cs);
  db_count : (1 <= length cs <= 16)%nat;
  db_set : he_set env = true;
  db_file : he_file env = Some (conf_file cs);
  db_new : new_available (he_new env);
  db_mem : forall j, mem_available (he_lines env j);
  db_pton6 : pton6_ok (he_pton6 env);
  db_open : forall c, c ∈ cs -> 0 <= he_open env (snprintf 256 (lit "/var/run/netns/" ++ dc_ns c));
  db_fresh : malloc_fresh env N;
  db_nodes : forall i j, (i < length cs)%nat -> (j < MAX_SESS_NODE_NUM)%nat -> is_Some (he_node env i j) }.

(** ** The IoT steps only close descriptors *)

Definition only_closed (w w' : world) : Prop := exists l, w' = fold_left close_fd l w.

Lemma only_closed_same w w' : only_closed w w' ->
  w_sess w' = w_sess w /\ w_node w' = w_node w /\ w_devs w' = w_devs w /\ w_pool w' = w_pool w /\ w_eng w' = w_eng w /\ w_tx w' = w_tx w.
Proof. intros [l ->]. revert w. induction l as [|fd l IH]; intros w; [done|]. cbn [fold_left]. apply (IH (close_fd w fd)). Qed.

(** A session that was set up holds the handlers of its protocol. *)
Lemma attempt_driven env i dev s d : attempt env i dev = Some s -> driver_of (iot_dev_type dev) d -> driven d s.
Proof.
  unfold attempt. intros E Hd. destruct (_ && _); [|done]. destruct (is_malloc (env i)) as [m|]; [|done]. cbn [mbind option_bind] in E.
  destruct (init_of_type _ _ _ _) as [ [ [ [] s'] cl]|] eqn:Ei; try discriminate E. injection E as ->.
  destruct Hd as [ [Ht ->]|[ [Ht ->]|[Ht ->] ] ]; rewrite Ht in Ei; cbv beta iota delta [init_of_type Z.eqb Pos.eqb IOT_PROTO_TYPE_BLUETOOTH
    IOT_PROTO_TYPE_CAN IOT_PROTO_TYPE_ZIGBEE IOT_PROTO_TYPE_LORA IOT_PROTO_TYPE_POWERLINK IOT_PROTO_TYPE_MODBUSTCP] in Ei;
    unfold engine_init_bluetooth_session, engine_init_can_session, engine_init_modbustcp_session in Ei;
    repeat (case_match; try discriminate Ei); injection Ei as <- <-; done.
Qed.

Lemma candidates_driven env t d devs i s : s ∈ candidates env t i devs -> driver_of t d -> driven d s.
Proof.
  intros Hs Hd. revert i Hs. induction devs as [|dev devs IH]; intros i Hs; cbn [candidates] in Hs; [by apply elem_of_nil in Hs|].
  destruct (Z.eqb_spec (iot_dev_type dev) t) as [<-|]; [|by eapply IH]. destruct (attempt env i dev) as [s'|] eqn:E; [|by eapply IH].
  apply elem_of_cons in Hs as [->|Hs]; [by eapply attempt_driven|by eapply IH].
Qed.

Lemma bound_ready env devs x count : bound_first env devs x count -> iot_ready x.
Proof.
  intros [H _]. assert (forall t d s, known_iot_type t = true -> driver_of t d -> iot_sess_of x t = Some s -> driven d s) as Hd.
  { intros t d s Ht Hdr Hs. rewrite (H t Ht) in Hs. destruct (candidates env t 0 devs) as [|s' l] eqn:E; [discriminate Hs|].
    injection Hs as ->. eapply candidates_driven; [rewrite E; by left|done]. }
  split; intros s Hs.
  - apply (Hd IOT_PROTO_TYPE_BLUETOOTH); [done|by left|done].
  - apply (Hd IOT_PROTO_TYPE_CAN); [done|right; by left|done].
  - apply (Hd IOT_PROTO_TYPE_MODBUSTCP); [done|right; by right|done].
Qed.

Lemma iot_steps env x :
  iot_file_ok (bo_iot env) -> pr_iot x = {| iot_dev_set := None; iot_dev_num := 0 |} ->
  exists x', engine_init_iot env x = Done x' /\ only_closed (px_world (pr_proxy x)) (px_world (pr_proxy x')) /\
  pr_dev_set x' = pr_dev_set x /\ pr_sess_pool x' = pr_sess_pool x /\ (iot_ready (px_iot (pr_proxy x)) -> iot_ready (px_iot (pr_proxy x'))).
Proof.
  intros Hf Hx. unfold engine_init_iot. destruct (iot_devices_run (bo_iot env) (pr_iot x)) as [([st e] & -> & Hst & Hok)|[_ Hb] ];
    [apply Hf|by rewrite Hx| |by destruct (iot_file_ok_not_bad _ Hf)]. cbn [fst snd] in Hst, Hok.
  cbn [mbind outcome_bind fst snd]. destruct (decide (st = PROCESS_OK)) as [->|Hne].
  2:{ rewrite bool_decide_eq_false_2 by done. eexists. split; [reflexivity|]. split; [by exists []|done]. }
  rewrite bool_decide_eq_true_2 by done. cbn [negb pr_iot pr_proxy]. destruct (Hok eq_refl) as (d & devs & _ & Hs & Hl & Hn & Hmin & _).
  destruct e as [set n]. cbn [iot_dev_set iot_dev_num] in Hs, Hn, Hmin. subst set. unfold engine_init_iot_sessions.
  destruct (sessions_loop (bo_sess env) devs [] (Z.to_nat n) no_iot_sessions [] 0 devs) as (y & closed & count & E & Hbf); [done| | |].
  { unfold MAX_IOT_DEV_NUM in *. lia. }
  { split; [intros t Ht; unfold iot_sess_of; by repeat case_match|]. split; [lia|].
    intros (t & Ht & Hs). unfold iot_sess_of in Hs. repeat case_match; by destruct Hs. }
  cbn [length] in E. rewrite E. cbn [mbind outcome_bind]. eexists. split; [reflexivity|]. split; [by exists closed|]. split; [done|]. split; [done|]. intros _. by eapply bound_ready.
Qed.

(** ** The poller and the channel *)

Lemma io_steps env x mapped :
  iot_file_ok (bo_iot env) -> pr_iot x = {| iot_dev_set := None; iot_dev_num := 0 |} ->
  0 < bo_epfd env -> initialized (pr_ctx x) = false -> 0 <= env_open (bo_map env) -> env_mmap (bo_map env) = Some mapped ->
  let base := mapped + Z.land SHM_CH1_PADDR (env_page_size (bo_map env) - 1) in
  exists x', engine_init_io env x = Done x' /\
  only_closed (set_eng (px_world (pr_proxy x)) (set_ports (w_eng (px_world (pr_proxy x)))
     {| hyper_rx_queue := base; hyper_tx_queue := base + SHM_QUEUE_SIZE; hyper_amp_data_region := base + 2 * SHM_QUEUE_SIZE |}))
    (px_world (pr_proxy x')) /\ pr_dev_set x' = pr_dev_set x /\ pr_sess_pool x' = pr_sess_pool x /\
  (iot_ready (px_iot (pr_proxy x)) -> iot_ready (px_iot (pr_proxy x'))).
Proof.
  intros Hf Hx Hep Hi Ho Hm base. unfold engine_init_io, poller_init. rewrite (proj2 (Z.leb_gt (bo_epfd env) 0)) by lia.
  cbn [negb from_option id]. rewrite bool_decide_eq_true_2 by done. cbn [negb pr_proxy pr_ctx pr_iot].
  unfold engine_init_hyperamp_queue, hyperamp_linux_init. rewrite Hi.
  change (SHM_CH1_PADDR =? 0) with false. cbv iota. unfold map_physical_memory. cbn [set_fd fd_mem].
  rewrite (proj2 (Z.ltb_ge _ 0)) by done. rewrite Hm. cbn [set_initialized set_queues rx_queue tx_queue data_region set_mapping shm_base].
  rewrite bool_decide_eq_true_2 by done. cbn [negb]. fold base. set (w := px_world (pr_proxy x)).
  set (x1 := {| pr_proxy := _ |}). destruct (iot_steps env x1 Hf) as (x' & -> & Hc & Hpr); [done|].
  exists x'. split; [done|]. split; [|exact Hpr]. destruct Hc as [l ->]. exists l. f_equal. unfold x1. cbn. unfold w. by destruct (px_world (pr_proxy x)) as [? ? ? ? ? ? [] ].
Qed.

(** A start under good conditions: a described device file, memory, the poller
    and the mapped channel; an empty ring where the TX ring is mapped. *)
Record good_start (env : init_env) (cs : list dev_conf) (x : process) (mapped mem_pool : Z) : Prop := {
  gs_devs : described_by (bo_hs env) cs (w_node (px_world (pr_proxy x)));
  gs_pool : bo_pool env = true;
  gs_mem_pool : bo_mem_pool env = Some mem_pool /\ mem_pool <> 0;
  gs_lock : bo_lock env = true;
  gs_epfd : 0 < bo_epfd env;
  gs_fresh : initialized (pr_ctx x) = false;
  gs_map : 0 <= env_open (bo_map env) /\ env_mmap (bo_map env) = Some mapped;
  gs_iot : iot_file_ok (bo_iot env) }.

Definition channel_base (env : init_env) (mapped : Z) : Z := mapped + Z.land SHM_CH1_PADDR (env_page_size (bo_map env) - 1).
Definition init_geometry (env : init_env) (mapped : Z) : geometry := tx_geometry (channel_base env mapped) SHM_CH1_PADDR.

Definition init_rx_geometry (env : init_env) (mapped : Z) : geometry := rx_geometry (channel_base env mapped) SHM_CH1_PADDR.

(** The state a good start leaves. *)
Record started (env : init_env) (cs : list dev_conf) (x x' : process) (g gr : geometry) : Prop := {
  st_sess : w_sess (px_world (pr_proxy x')) = w_sess (px_world (pr_proxy x));
  st_pool : w_pool (px_world (pr_proxy x')) = high_speed_init_pool;
  st_num : dev_num (w_eng (px_world (pr_proxy x'))) = Z.of_nat (length cs);
  st_devs : forall i c, cs !! i = Some c -> w_devs (px_world (pr_proxy x')) !! i = Some (device_of (bo_hs env) i c);
  st_table : exists mask, table_ok (w_node (px_world (pr_proxy x))) (length cs) (w_devs (px_world (pr_proxy x'))) mask (w_node (px_world (pr_proxy x')));
  st_tx : tx_ok g (px_world (pr_proxy x'));
  st_ring : sent_messages g (px_world (pr_proxy x')) = sent_messages g (px_world (pr_proxy x));
  st_ports : ports_are g gr (eng_tx (w_eng (px_world (pr_proxy x'))));
  st_iot : iot_ready (px_iot (pr_proxy x)) -> iot_ready (px_iot (pr_proxy x'));
  st_flags : pr_dev_set x' = true /\ pr_sess_pool x' = true }.

Lemma good_start_starts env cs x mapped mem_pool :
  good_start env cs x mapped mem_pool -> qwf (init_geometry env mapped) (tx_mem (w_tx (px_world (pr_proxy x)))) ->
  exists x', engine_init env x = Done x' /\ started env cs x x' (init_geometry env mapped) (init_rx_geometry env mapped).
Proof.
  intros [ [D1 D2 D3 D4 D5 D6 D7 D8 D9 D10 D11] Hpool [Hmp Hnz] Hlock Hep Hi [Ho Hm] Hiot] Hq. unfold engine_init.
  set (w0 := px_world (pr_proxy (clear_engine x))).
  destruct (hs_net_dev_file_read (bo_hs env) cs w0) as (w1 & -> & Hn & Hd & _ & [(k & Hk & Htab) (S1 & S2 & S3 & S4)]); try done.
  cbn [mbind outcome_bind fst snd]. rewrite bool_decide_eq_true_2 by done.
  cbn [negb engine_init_eng_ops engine_init_selector engine_init_sess_pool pr_proxy set_world with_world px_world snd].
  unfold engine_init_sess_pool, engine_init_shared_mem_pool, engine_init_shared_mem_pool_lock. rewrite Hpool, Hmp, Hlock.
  repeat first [rewrite bool_decide_eq_true_2 by done|progress cbn [negb]].
  set (x1 := set_world _ _). destruct (io_steps env x1 mapped Hiot) as (x' & -> & Hc & Hf1 & Hf2 & Hio); try done.
  exists x'. split; [done|]. apply only_closed_same in Hc as (C1 & C2 & C3 & C4 & C5 & C6). cbn in C1, C2, C3, C4, C5, C6.
  assert (k = length cs) as -> by lia. split.
  - by rewrite C1, S1.
  - exact C4.
  - by rewrite C5.
  - rewrite C3. exact Hd.
  - rewrite C2, C3. by eexists.
  - split; rewrite ?C5, ?C6; cbn [set_ports eng_tx eng_ports eng_mem_pool hyper_tx_queue hyper_amp_data_region]; try done.
    rewrite S3. exact Hq.
  - unfold sent_messages. by rewrite C6, S3.
  - rewrite C5. done.
  - exact Hio.
  - by rewrite Hf1, Hf2.
Qed.



(** ** The older receive callback

    When the peer closes, recv_cb closes the descriptor and then registers it
    again: whatever was received, the answer is -1, the received bytes went to
    the standard output, at most five per call, and the channel ends registered
    for a descriptor that is closed. *)
Lemma recv_loop_data chunks answers fd ch out :
  recv_loop (map RecvData chunks ++ answers) fd ch out = recv_loop answers fd ch (out ++ mjoin (map (take 5) chunks)).
Proof.
  revert out. induction chunks as [|c chunks IH]; intros out; cbn [map app recv_loop]; [by rewrite app_nil_r|].
  rewrite IH. cbn. by rewrite <- app_assoc.
Qed.

Theorem recv_cb_reregisters_closed ctl chunks rest fd ch w :
  ch_status ch = 1 -> exists ch',
  recv_cb ctl (map RecvData chunks ++ RecvClosed :: rest) fd ch w =
    Done (-1, mjoin (map (take 5) chunks), ch', close_fd w fd, [EPOLL_CTL_DEL; EPOLL_CTL_ADD]) /\
  ch_status ch' = 1 /\ ch_sock_fd ch' = fd /\ fd ∈ w_closed (close_fd w fd).
Proof.
  intros Hs. unfold recv_cb. rewrite recv_loop_data. cbn [recv_loop app]. unfold event_del. rewrite Hs. cbn.
  eexists. split; [done|]. split; [done|]. split; [done|]. by left.
Qed.

(** ** Witnesses *)

Definition demo_process : process :=
  {| pr_proxy := {| px_world := {| w_sess := ∅; w_node := ∅; w_devs := []; w_pool := high_speed_init_pool; w_eng := zero_engine;
                                   w_last_pos := -1; w_tx := demo_tx; w_closed := [] |};
                    px_iot := no_iot_sessions; px_out := [] |};
     pr_ctx := g_ctx_initial; pr_iot := {| iot_dev_set := None; iot_dev_num := 0 |}; pr_epfd := 0; pr_dev_set := false; pr_sess_pool := false |}.

(** The channel is mapped at 0x10000; there is no iot_dev.ini. *)
Definition demo_init_env : init_env :=
  {| bo_hs := demo_hs_env (conf_file demo_confs); bo_pool := true; bo_mem_pool := Some 64; bo_lock := true; bo_epfd := 4;
     bo_map := {| env_open := 3; env_page_size := 4096; env_mmap := Some 0x10000 |};
     bo_iot := {| id_calloc := true; id_file := None; id_new := demo_new; id_lines := fun _ => demo_line_env; id_dup := fun _ => (true, true) |};
     bo_sess := demo_sess_env |}.

Lemma demo_described : described_by (demo_hs_env (conf_file demo_confs)) demo_confs ∅.
Proof.
  destruct demo_confs_ok as [H1 H2]. split; try done; [cbn; lia|apply (demo_malloc_fresh _ 0 0)|].
  intros i j _ Hj. unfold demo_hs_env. cbn [he_node]. rewrite (proj2 (Nat.ltb_lt j 10)) by exact Hj. by eexists.
Qed.

Lemma demo_good_start : good_start demo_init_env demo_confs demo_process 0x10000 64.
Proof. split; [exact demo_described|done|done|done|done|done|done|]. split; [done|]. intros d Hd. discriminate Hd. Qed.


(** A namespace that does not exist. *)
Definition demo_no_ns : init_env :=
  {| bo_hs := {| he_set := true; he_file := Some (conf_file demo_confs); he_new := demo_new; he_lines := fun _ => demo_line_env;
                 he_pton6 := fun _ => None; he_open := fun _ => -1; he_node := he_node (demo_hs_env []) |};
     bo_pool := true; bo_mem_pool := Some 64; bo_lock := true; bo_epfd := 4; bo_map := bo_map demo_init_env;
     bo_iot := bo_iot demo_init_env; bo_sess := demo_sess_env |}.

Definition demo_no_ns_world : world :=
  match engine_init_hs_net_dev (bo_hs demo_no_ns) (px_world (pr_proxy (clear_engine demo_process))) with
  | Done (_, w) => w | _ => px_world (pr_proxy demo_process) end.

