(* ===== verification/ShutdownSpec.v ===== *)
(** * ShutdownSpec: what shutdown deletes, closes and frees

    [engine_destory] walks the node lists of every configured device.  When the
    nodes on those lists hold sessions of the table, every such session is
    deleted with its socket closed, and every node is freed; when they hold all
    sessions of the table, the pool ends as it began. *)

From S2P Require Import Prelude Bytes Mem HyperampQueue HyperampQueueSpec HyperampLinux ByteStore Message Build BuildSpec Session Device Responses SessionPool SessionPoolSpec SessionPoolRun Proto DevConfig DevConfigSpec IotConfig EngineInit.
From stdpp Require Import base list numbers option gmap.
From Stdlib Require Import ZArith Lia.
#[local] Open Scope Z_scope.

(** ** Deleting a session whose node is not given back

    It is not linked, or its [dev_id] names no device. *)

Lemma delete_unlinked g w p s id ep :
  pool_inv w -> tx_ok g w -> htable (w_pool w) !! id = Some p -> w_sess w !! p = Some s ->
  bit0 (sess_dev_link_state s) = false \/ dev_id s < 0 \/ MAX_HS_DEV_NUM <= dev_id s -> 0 <= frontend_sess_id s < 65536 ->
  exists w', high_speed_delete_sess w p ep = Done (PROCESS_OK, w') /\ pool_inv w' /\ tx_ok g w' /\ (ids_accounted w -> ids_accounted w') /\
  w_sess w' = delete p (w_sess w) /\ htable (w_pool w') = delete id (htable (w_pool w)) /\
  w_node w' = w_node w /\ w_devs w' = w_devs w /\ w_eng w' = w_eng w /\ w_closed w' = sock_fd s :: w_closed w.
Proof.
  intros Hi Htx Hid Hs Hb Hf.
  destruct (delete_detach w p s id ep Hi Hid Hs)
    as (w4 & s4 & qf & qb & Hk & E1 & Hpl & E2 & E3 & E4 & E5 & E6 & E7 & Hnf & Hnb & Hqf & Hqb).
  unfold high_speed_delete_sess. assert (get_sess w p = Done s) as -> by (unfold get_sess; by rewrite Hs).
  cbn [mbind outcome_bind]. rewrite Hk. cbn [mbind outcome_bind].
  assert (delete_unlink_node w4 p = Done w4) as ->.
  { unfold delete_unlink_node, get_sess. rewrite E1, lookup_insert_eq. cbn [mbind outcome_bind].
    destruct Hpl as (-> & -> & _). destruct ((dev_id s <? 0) || (MAX_HS_DEV_NUM <=? dev_id s)) eqn:Er; [done|].
    apply orb_false_iff in Er as [E8%Z.ltb_ge E9%Z.leb_gt]. destruct Hb as [Hb|]; [|lia].
    unfold BACKEND_SESS_LINKED_TO_DEV_NODE. by rewrite land1_bit0, Hb. }
  cbn [mbind outcome_bind].
  destruct (send_standalone_spec g (free_sess w4 p) (frontend_sess_id s) (backend_sess_id s) (ip_version s)
              SESS_MSG_CLOSE success_resp) as (st & w' & -> & Hresp); [|done|done|].
  { destruct Htx. split; cbn; rewrite ?E4, ?E5; done. }
  pose proof (responded_frame _ _ _ _ _ _ _ _ _ Hresp) as (W1 & W2 & W3 & W4 & W5 & W6 & W7).
  cbn [mbind outcome_bind fst snd]. exists w'. split; [done|]. cbn in W1, W2, W3, W4, W5, W6.
  assert (w_sess w' = delete p (w_sess w)) as Hheap by (rewrite W1, E1; apply delete_insert_eq).
  split; [by eapply detached_inv; [exact Hi|exact Hid|exact Hheap|rewrite W4; exact E7|..]|].
  unfold ids_accounted. rewrite W2, W3, W4, W5, W6, E2, E3, E5, E6, E7. cbn [id_queue htable]. split_and!; try done.
  rewrite length_app, <- (size_delete _ _ _ Hid). cbn [length]. lia.
Qed.

(** ** Nodes that hold sessions of the table *)

Definition holds_session (w : world) (n p : Z) : Prop :=
  exists s id, w_node w !! n = Some (Some p) /\ w_sess w !! p = Some s /\ htable (w_pool w) !! id = Some p /\
  0 <= frontend_sess_id s < 65536.

Record live_nodes (g : geometry) (w : world) (L : list Z) : Prop := {
  ln_inv : pool_inv w;
  ln_tx : tx_ok g w;
  ln_nodup : NoDup L;
  ln_holds : forall n, n ∈ L -> exists p, holds_session w n p;
  ln_inj : forall n n' p, n ∈ L -> n' ∈ L -> w_node w !! n = Some (Some p) -> w_node w !! n' = Some (Some p) -> n = n' }.

(** What deleting the sessions on the nodes [l] and freeing the nodes [fr] as
    well changes. *)
Record walked (w w' : world) (l fr : list Z) : Prop := {
  wk_table : (size (htable (w_pool w')) + length l = size (htable (w_pool w)))%nat;
  wk_ids : ids_accounted w -> ids_accounted w';
  wk_node : forall k, w_node w' !! k = if decide (k ∈ l ++ fr) then None else w_node w !! k;
  wk_closed : forall fd, fd ∈ w_closed w -> fd ∈ w_closed w';
  wk_socks : forall n p s, n ∈ l -> w_node w !! n = Some (Some p) -> w_sess w !! p = Some s ->
    sock_fd s ∈ w_closed w' /\ w_sess w' !! p = None;
  wk_other : forall p, (forall n, n ∈ l -> w_node w !! n <> Some (Some p)) -> w_sess w' !! p = w_sess w !! p }.

Lemma walked_nil w : walked w w [] [].
Proof. split; try done; first [cbn; lia|intros n p s Hn; by apply not_elem_of_nil in Hn]. Qed.

Lemma walked_close w fd : walked w (close_fd w fd) [] [].
Proof. split; try done; first [cbn; lia|intros fd' H; by right|intros n p s Hn; by apply not_elem_of_nil in Hn]. Qed.

Lemma walked_app w w1 w' l1 l2 f1 f2 :
  walked w w1 l1 f1 -> walked w1 w' l2 f2 -> (forall k, k ∈ l2 -> k ∉ l1 ++ f1) ->
  (forall n n' p, n ∈ l1 -> n' ∈ l2 -> w_node w !! n = Some (Some p) -> w_node w !! n' <> Some (Some p)) ->
  walked w w' (l1 ++ l2) (f1 ++ f2).
Proof.
  intros [A1 A2 A3 A5 A6 A7] [B1 B2 B3 B5 B6 B7] Hd Hp.
  assert (forall k, k ∈ l2 -> w_node w1 !! k = w_node w !! k) as Hk by (intros k Hk; rewrite A3, decide_False; auto).
  split.
  - rewrite length_app. lia.
  - auto.
  - intros k. rewrite B3, A3. clear.
    destruct (decide (k ∈ l2 ++ f2)) as [E|E], (decide (k ∈ l1 ++ f1)) as [E1|E1], (decide (k ∈ (l1 ++ l2) ++ f1 ++ f2)) as [E2|E2];
      first [done|exfalso; rewrite !elem_of_app in *; tauto].
  - auto.
  - intros n p s [Hn|Hn]%elem_of_app Hn' Hs.
    + destruct (A6 n p s) as [H1 H2]; try done. split; [by apply B5|]. rewrite B7; [done|].
      intros k Hkl. rewrite Hk by done. by apply (Hp n).
    + apply (B6 n); [done|by rewrite Hk|]. rewrite A7; [done|]. intros k Hkl E. by apply (Hp k n p).
  - intros p H. rewrite B7, A7; [done| |].
    + intros k Hkl. apply H. apply elem_of_app. by left.
    + intros k Hkl. rewrite Hk by done. apply H. apply elem_of_app. by right.
Qed.

(** Along the walk nodes that come later hold other sessions. *)
Lemma live_walked_app g w w1 w' l1 l2 f1 f2 L :
  live_nodes g w (l1 ++ l2 ++ L) -> (forall k, k ∈ f1 -> k ∉ l2) -> walked w w1 l1 f1 -> walked w1 w' l2 f2 ->
  walked w w' (l1 ++ l2) (f1 ++ f2).
Proof.
  intros [_ _ Hnd _ Hinj] Hf H1 H2. apply NoDup_app in Hnd as (_ & Hd & _). apply (walked_app w w1); try done.
  - intros k Hk [H|H]%elem_of_app; [apply (Hd k H), elem_of_app; by left|by apply (Hf k)].
  - intros n n' p Hn Hn' E E'. apply (Hd n Hn). rewrite (Hinj n n' p); set_solver.
Qed.

(** ** One node *)

Lemma set_proto_twice proto d q q' : set_proto_queue proto (set_proto_queue proto d q) q' = set_proto_queue proto d q'.
Proof. unfold set_proto_queue. cbn. by destruct (proto =? SESS_UDP_PROTO). Qed.

Lemma proto_queue_set proto d q : proto_queue proto (set_proto_queue proto d q) = q.
Proof. unfold proto_queue, set_proto_queue. by destruct (proto =? SESS_UDP_PROTO). Qed.

Lemma set_proto_same proto d : set_proto_queue proto d (proto_queue proto d) = d.
Proof. unfold set_proto_queue, proto_queue. destruct d. cbn. by destruct (proto =? SESS_UDP_PROTO). Qed.

Lemma node_step g w n L i proto d q ep todo :
  live_nodes g w (n :: L) -> 0 <= i -> w_devs w !! Z.to_nat i = Some d -> proto_queue proto d = n :: q ->
  exists w1, destory_queue ep i proto (n :: todo) w = destory_queue ep i proto todo w1 /\ live_nodes g w1 L /\ walked w w1 [n] [] /\
  w_devs w1 = <[Z.to_nat i := set_proto_queue proto d q]> (w_devs w).
Proof.
  intros [L1 L2 L3 L4 L5] Hi Hd Hq. destruct (L4 n) as (p & s & id & Hn & Hs & Hid & Hf); [by left|].
  cbn [destory_queue]. rewrite (get_dev_lookup _ _ d) by done. cbn [mbind outcome_bind]. rewrite Hq, tailq_remove_ok by (by left).
  cbn [mbind outcome_bind remove_first]. rewrite Z.eqb_refl. set (wd := put_dev w i (set_proto_queue proto d q)).
  unfold get_node. change (w_node wd) with (w_node w). rewrite Hn. cbn [mbind outcome_bind]. unfold get_sess.
  change (w_sess wd) with (w_sess w). rewrite Hs. cbn [mbind outcome_bind]. set (s' := set_link_state s _).
  assert (bit0 (sess_dev_link_state s') = false) as Hb by apply bit0_clear.
  destruct (delete_unlinked g (put_sess wd p s') p s' id (ep p)) as (w' & -> & W1 & W2 & W3 & W4 & W5 & W6 & W7 & W8 & W9).
  { apply (pool_inv_put_same wd p s s'); [done|done|]. by apply (pool_inv_frame w). }
  { destruct L2. by split. } { done. } { apply lookup_insert_eq. } { by left. } { done. }
  cbn [mbind outcome_bind snd]. eexists. split; [reflexivity|]. cbn in W4, W5, W6, W7, W8, W9. rewrite delete_insert_eq in W4.
  apply NoDup_cons in L3 as [Hnl HL].
  assert (forall n', n' ∈ L -> w_node w !! n' <> Some (Some p)) as Hother.
  { intros n' Hn' E. apply Hnl. rewrite (L5 n n' p); [done|by left|by right|done|done]. }
  split; [|split; [|exact W7] ].
  - split; [by apply (pool_inv_frame w')|destruct W2; by split|done| |].
    + intros n' Hn'. destruct (L4 n') as (p' & t & id' & A1 & A2 & A3 & A4); [by right|].
      assert (p' <> p) by (intros ->; by apply (Hother n')). assert (id' <> id) by congruence. exists p', t, id'. cbn.
      rewrite W4, W5, W6, !lookup_delete_ne; try done. intros ->. done.
    + intros a b x Ha Hb'. cbn. rewrite W6, !lookup_delete_ne by (intros ->; done). apply L5; by right.
  - split; cbn [with_node w_pool w_node w_eng w_closed w_sess length app]; try done.
    + rewrite W5. rewrite <- (size_delete _ _ _ Hid). lia.
    + intros k. rewrite W6. destruct (decide (k = n)) as [->|Hne].
      * by rewrite lookup_delete_eq, decide_True by (by left).
      * rewrite lookup_delete_ne by done. rewrite decide_False; [done|]. by intros ->%list_elem_of_singleton.
    + intros fd Hfd. rewrite W9. by right.
    + intros n' p' t ->%list_elem_of_singleton. rewrite Hn. intros [= <-]. rewrite Hs. intros [= <-].
      rewrite W9, W4. split; [by left|apply lookup_delete_eq].
    + intros p' H. rewrite W4. apply lookup_delete_ne. intros ->. by apply (H n); [left|].
Qed.

(** ** The lists of a device *)

Lemma queue_walk g ep i proto todo L w d :
  live_nodes g w (todo ++ L) -> 0 <= i -> w_devs w !! Z.to_nat i = Some d -> proto_queue proto d = todo ->
  exists w', destory_queue ep i proto todo w = Done w' /\ live_nodes g w' L /\ walked w w' todo [] /\
  w_devs w' = <[Z.to_nat i := set_proto_queue proto d []]> (w_devs w).
Proof.
  intros HL Hi. revert w d HL. induction todo as [|n todo IH]; intros w d HL Hd Hq.
  { exists w. split; [done|]. split; [done|]. split; [apply walked_nil|]. rewrite <- Hq, set_proto_same. symmetry. by apply list_insert_id. }
  cbn [app] in HL. destruct (node_step g w n (todo ++ L) i proto d todo ep todo HL Hi Hd Hq) as (w1 & -> & HL1 & Hw1 & Hd1).
  assert (Z.to_nat i < length (w_devs w))%nat as Hlt by (by eapply lookup_lt_Some).
  destruct (IH w1 (set_proto_queue proto d todo) HL1) as (w' & -> & HL' & Hw' & Hd').
  { rewrite Hd1. by apply list_lookup_insert_eq. } { apply proto_queue_set. }
  exists w'. split; [done|]. split; [done|]. split; [|by rewrite Hd', Hd1, list_insert_insert_eq, set_proto_twice].
  apply (live_walked_app g w w1 w' [n] todo [] [] L); try done. intros k H. by apply not_elem_of_nil in H.
Qed.

(** Freed nodes hold no session of the list. *)
Lemma free_walk i todo w d :
  0 <= i -> w_devs w !! Z.to_nat i = Some d -> free_node_queue d = todo -> NoDup todo -> (forall n, n ∈ todo -> is_Some (w_node w !! n)) ->
  exists w', destory_free_nodes i todo w = Done w' /\
  w' = with_node (with_devs w (<[Z.to_nat i := set_free_nodes d []]> (w_devs w))) (w_node w') /\
  forall k, w_node w' !! k = if decide (k ∈ todo) then None else w_node w !! k.
Proof.
  intros Hi. revert w d. induction todo as [|n todo IH]; intros w d Hd Hq Hnd Hl.
  { exists w. split; [done|]. split; [|intros k; by rewrite decide_False by apply not_elem_of_nil].
    replace (set_free_nodes d []) with d; [|rewrite <- Hq; by destruct d]. rewrite list_insert_id by done. by destruct w. }
  cbn [destory_free_nodes]. rewrite (get_dev_lookup _ _ d) by done. cbn [mbind outcome_bind]. rewrite Hq, tailq_remove_ok by (by left).
  cbn [mbind outcome_bind remove_first]. rewrite Z.eqb_refl. destruct (Hl n) as [x Hx]; [by left|]. unfold get_node. rewrite Hx.
  cbn [mbind outcome_bind]. apply NoDup_cons in Hnd as [Hn Hnd]. set (w1 := with_node _ _).
  assert (Z.to_nat i < length (w_devs w))%nat as Hlt by (by eapply lookup_lt_Some).
  destruct (IH w1 (set_free_nodes d todo)) as (w' & -> & E & Hk).
  { by apply list_lookup_insert_eq. } { done. } { done. }
  { intros k Hk. cbn. rewrite lookup_delete_ne; [apply Hl; by right|]. intros ->. done. }
  exists w'. split; [done|]. split.
  - rewrite E at 1. unfold w1. cbn. by rewrite list_insert_insert_eq.
  - intros k. rewrite Hk. cbn. destruct (decide (k ∈ todo)) as [H|H]; [by rewrite decide_True by (by right)|].
    destruct (decide (k = n)) as [->|Hne].
    + rewrite lookup_delete_eq. by rewrite decide_True by (by left).
    + rewrite lookup_delete_ne by done. rewrite decide_False; [done|]. by rewrite elem_of_cons; intros [|].
Qed.

(** ** The devices *)

Definition sess_nodes (d : HighSpeedNetDevice) : list Z := tcp_node_queue d ++ udp_node_queue d.

Definition nodes_of (ds : list HighSpeedNetDevice) : list Z := concat (map sess_nodes ds).
Definition spare_of (ds : list HighSpeedNetDevice) : list Z := concat (map free_node_queue ds).

Definition listens (d : HighSpeedNetDevice) : bool := (0 <? tcp_listening_port d) && negb (tcp_listener d =? -1).

Lemma live_frame g w w' L :
  w_sess w' = w_sess w -> w_pool w' = w_pool w -> w_node w' = w_node w -> w_eng w' = w_eng w -> w_tx w' = w_tx w ->
  live_nodes g w L -> live_nodes g w' L.
Proof.
  intros E1 E2 E3 E4 E5 [L1 L2 L3 L4 L5]. split; [by apply (pool_inv_frame w)| |done| |].
  - destruct L2. split; by rewrite ?E4, ?E5.
  - intros n Hn. unfold holds_session. rewrite E1, E2, E3. by apply L4.
  - by rewrite E3.
Qed.

(** Freeing spare nodes keeps the sessions still to come. *)
Lemma live_spare g w w' L (F : list Z) :
  live_nodes g w L -> (forall k, k ∈ F -> k ∉ L) -> w_sess w' = w_sess w -> w_pool w' = w_pool w -> w_eng w' = w_eng w -> w_tx w' = w_tx w ->
  (forall k, w_node w' !! k = if decide (k ∈ F) then None else w_node w !! k) -> live_nodes g w' L.
Proof.
  intros [L1 L2 L3 L4 L5] Hd E1 E2 E4 E5 Hk.
  assert (forall n, n ∈ L -> w_node w' !! n = w_node w !! n) as Hs.
  { intros n Hn. rewrite Hk, decide_False; [done|]. intros H. by apply (Hd n). }
  split; [by apply (pool_inv_frame w)| |done| |].
  - destruct L2. split; by rewrite ?E4, ?E5.
  - intros n Hn. unfold holds_session. rewrite E1, E2, Hs by done. by apply L4.
  - intros n n' p Hn Hn'. rewrite !Hs by done. by apply L5.
Qed.

Lemma walked_spare w w' (F : list Z) :
  w_sess w' = w_sess w -> w_pool w' = w_pool w -> w_closed w' = w_closed w ->
  (forall k, w_node w' !! k = if decide (k ∈ F) then None else w_node w !! k) -> walked w w' [] F.
Proof.
  intros E1 E2 E3 Hk. split; try done; unfold ids_accounted; rewrite ?E1, ?E2, ?E3; try done;
    first [cbn; lia|intros n p s Hn; by apply not_elem_of_nil in Hn].
Qed.

(** TAILQ_INIT of a list that the walk emptied. *)
Lemma put_dev_same w i d : w_devs w !! Z.to_nat i = Some d -> put_dev w i d = w.
Proof. intros H. unfold put_dev. rewrite list_insert_id by done. by destruct w. Qed.

(** The sessions of both lists, then the spare nodes. *)
Lemma sessions_walk g ep i w d L :
  live_nodes g w (sess_nodes d ++ L) -> 0 <= i -> w_devs w !! Z.to_nat i = Some d ->
  exists w' d', destory_device ep i w =
    (w1 ← destory_free_nodes i (free_node_queue d) w'; d1 ← get_dev w1 i; Done (put_dev w1 i (set_free_nodes d1 []))) /\
  live_nodes g w' L /\ walked w w' (sess_nodes d) [] /\ (listens d = true -> tcp_listener d ∈ w_closed w') /\
  free_node_queue d' = free_node_queue d /\ w_devs w' = <[Z.to_nat i := d']> (w_devs w).
Proof.
  intros HL Hi Hd. unfold destory_device. rewrite (get_dev_lookup _ _ d) by done. cbn [mbind outcome_bind].
  fold (listens d). set (w0 := if listens d then _ else w).
  assert (walked w w0 [] [] /\ w_devs w0 = w_devs w /\ (listens d = true -> tcp_listener d ∈ w_closed w0)) as (K0 & D0 & C0).
  { unfold w0. destruct (listens d); split_and!; try done; [apply walked_close|intros _; by left|apply walked_nil]. }
  assert (live_nodes g w0 (tcp_node_queue d ++ udp_node_queue d ++ L)) as H0.
  { rewrite app_assoc. apply (live_frame g w); try done; unfold w0; by destruct (listens d). }
  destruct (queue_walk g ep i SESS_TCP_PROTO _ _ w0 d H0 Hi) as (w1 & -> & H1 & K1 & D1); [by rewrite D0|done|].
  cbn [mbind outcome_bind]. assert (Z.to_nat i < length (w_devs w))%nat as Hlt by (by eapply lookup_lt_Some).
  rewrite (get_dev_lookup w1 i (set_proto_queue SESS_TCP_PROTO d [])) by (try done; rewrite D1, D0; by apply list_lookup_insert_eq).
  cbn [mbind outcome_bind]. rewrite set_proto_twice, put_dev_same by (rewrite D1, D0; by apply list_lookup_insert_eq).
  set (d1 := set_proto_queue SESS_TCP_PROTO d []) in *. change (udp_node_queue d1) with (udp_node_queue d).
  destruct (queue_walk g ep i SESS_UDP_PROTO (udp_node_queue d) L w1 d1 H1 Hi) as (w2 & -> & H2 & K2 & D2);
    [rewrite D1, D0; by apply list_lookup_insert_eq|done|].
  cbn [mbind outcome_bind]. set (d2 := set_proto_queue SESS_UDP_PROTO d1 []) in *.
  rewrite D1, D0, list_insert_insert_eq in D2.
  assert (w_devs w2 !! Z.to_nat i = Some d2) as E2 by (rewrite D2; by apply list_lookup_insert_eq).
  rewrite (get_dev_lookup w2 i d2) by done. cbn [mbind outcome_bind].
  replace (set_proto_queue SESS_UDP_PROTO d2 []) with d2 by (symmetry; apply set_proto_twice). rewrite put_dev_same by done.
  exists w2, d2. split; [done|]. split; [done|]. split; [|split; [intros Hl; by apply (wk_closed _ _ _ _ K2), (wk_closed _ _ _ _ K1), C0|done] ].
  apply (live_walked_app g w w1 w2 (tcp_node_queue d) (udp_node_queue d) [] [] L).
  - unfold sess_nodes in HL. by rewrite <- app_assoc in HL.
  - intros k H. by apply not_elem_of_nil in H.
  - apply (walked_app w w0 w1 [] _ [] []); try done; [by intros k _ H; apply not_elem_of_nil in H|].
    intros n n' p H. by apply not_elem_of_nil in H.
  - done.
Qed.

Lemma device_walk g ep i w d L :
  live_nodes g w (sess_nodes d ++ L) -> 0 <= i -> w_devs w !! Z.to_nat i = Some d -> NoDup (free_node_queue d) ->
  (forall k, k ∈ free_node_queue d -> is_Some (w_node w !! k) /\ k ∉ sess_nodes d ++ L) ->
  exists w', destory_device ep i w = Done w' /\ live_nodes g w' L /\ walked w w' (sess_nodes d) (free_node_queue d) /\
  (listens d = true -> tcp_listener d ∈ w_closed w') /\ exists d', w_devs w' = <[Z.to_nat i := d']> (w_devs w).
Proof.
  intros HL Hi Hd Hnd Hfr. destruct (sessions_walk g ep i w d L HL Hi Hd) as (w2 & d2 & -> & H2 & K & C2 & Hq & D2).
  assert (Z.to_nat i < length (w_devs w))%nat as Hlt by (by eapply lookup_lt_Some).
  assert (w_devs w2 !! Z.to_nat i = Some d2) as E2 by (rewrite D2; by apply list_lookup_insert_eq).
  assert (forall k, k ∈ free_node_queue d -> (k ∉ L) /\ (k ∉ sess_nodes d)) as Hout.
  { intros k Hk. destruct (Hfr k Hk) as [_ Hn]. split; intros H; apply Hn, elem_of_app; auto. }
  destruct (free_walk i (free_node_queue d) w2 d2 Hi E2) as (w3 & -> & E3 & Hk3); [done|done| |].
  { intros k Hk. rewrite (wk_node _ _ _ _ K), app_nil_r, decide_False; [by apply Hfr|by apply Hout]. }
  cbn [mbind outcome_bind]. set (d3 := set_free_nodes d2 []) in *.
  assert (w_devs w3 !! Z.to_nat i = Some d3) as E4 by (rewrite E3; apply list_lookup_insert_eq; by eapply lookup_lt_Some).
  rewrite (get_dev_lookup w3 i d3) by done. cbn [mbind outcome_bind]. change (set_free_nodes d3 []) with d3. rewrite put_dev_same by done.
  exists w3. split; [done|]. split; [apply (live_spare g w2 w3 L (free_node_queue d)); try done; first [by rewrite E3|intros k Hk; by apply Hout]|].
  split; [|split; [intros Hl; rewrite E3; by apply C2|exists d3; rewrite E3; cbn; by rewrite D2, list_insert_insert_eq] ].
  rewrite <- (app_nil_r (sess_nodes d)). apply (walked_app w w2 w3 (sess_nodes d) [] [] (free_node_queue d)); [done| | |].
  - apply walked_spare; try done; by rewrite E3.
  - intros k H. by apply not_elem_of_nil in H.
  - intros n n' p _ H. by apply not_elem_of_nil in H.
Qed.

(** What the walk over the devices [ds] relies on: their nodes hold sessions
    of the table, their spare nodes are allocated and on no other list. *)
Record owned (g : geometry) (w : world) (ds : list HighSpeedNetDevice) : Prop := {
  ow_live : live_nodes g w (nodes_of ds);
  ow_nodup : NoDup (spare_of ds);
  ow_spare : forall k, k ∈ spare_of ds -> is_Some (w_node w !! k) /\ k ∉ nodes_of ds }.

Lemma devices_walk g ep ds rest cnt w :
  owned g w ds -> drop cnt (w_devs w) = ds ++ rest ->
  exists w', destory_devices ep (length ds) cnt w = Done w' /\ walked w w' (nodes_of ds) (spare_of ds) /\ pool_inv w' /\
  forall d, d ∈ ds -> listens d = true -> tcp_listener d ∈ w_closed w'.
Proof.
  revert cnt w. induction ds as [|d ds IH]; intros cnt w [HL Hnd Hsp] Hds.
  { exists w. split; [done|]. split; [apply walked_nil|]. split; [by destruct HL|]. intros d H. by apply not_elem_of_nil in H. }
  cbn [length destory_devices nodes_of spare_of map concat] in *. fold (nodes_of ds) (spare_of ds) in *.
  apply NoDup_app in Hnd as (Hnd1 & Hdis & Hnd2).
  assert (w_devs w !! Z.to_nat (Z.of_nat cnt) = Some d) as Hd by (rewrite Nat2Z.id, <- (Nat.add_0_r cnt), <- lookup_drop, Hds; done).
  destruct (device_walk g ep (Z.of_nat cnt) w d (nodes_of ds) HL) as (w1 & -> & H1 & K1 & C1 & d' & D1); try done; [lia| |].
  { intros k Hk. apply Hsp, elem_of_app. by left. }
  cbn [mbind outcome_bind]. rewrite Nat2Z.id in D1.
  assert (forall k, k ∈ spare_of ds -> is_Some (w_node w !! k) /\ k ∉ sess_nodes d ++ nodes_of ds) as Hsp2 by (intros k Hk; apply Hsp, elem_of_app; by right).
  destruct (IH (S cnt) w1) as (w' & -> & K' & Hi' & C').
  { split; [done|done|]. intros k Hk. destruct (Hsp2 k Hk) as [Hs Hn]. rewrite elem_of_app in Hn. split; [|tauto].
    rewrite (wk_node _ _ _ _ K1), decide_False; [done|]. rewrite elem_of_app. intros [?|H]; [tauto|by apply (Hdis k)]. }
  { rewrite D1, drop_insert_lt by lia. replace (S cnt) with (cnt + 1)%nat by lia. by rewrite <- drop_drop, Hds. }
  exists w'. split; [done|]. split; [|split; [done|] ].
  - apply (live_walked_app g w w1 w' (sess_nodes d) (nodes_of ds) (free_node_queue d) (spare_of ds) []); [by rewrite app_nil_r| |done|done].
    intros k Hk. destruct (Hsp k) as [_ Hn]; [apply elem_of_app; by left|]. intros H. apply Hn, elem_of_app. by right.
  - intros d0 [->|H]%elem_of_cons Hl; [by apply (wk_closed _ _ _ _ K'), C1|by apply C'].
Qed.

(** Shutdown releases what the proxy holds.  When every session of the
    table is on a node of a configured device, [engine_destory] returns; the
    table is then empty and every session id free again, every session is
    freed with its socket closed, every node of the configured devices is
    freed, and the listeners and the poller's descriptor are closed. *)
Theorem engine_destory_releases g ep x ds rest :
  pr_dev_set x = true -> pr_sess_pool x = true ->
  let w := px_world (pr_proxy x) in
  w_devs w = ds ++ rest -> dev_num (w_eng w) = Z.of_nat (length ds) -> owned g w ds -> ids_accounted w ->
  size (htable (w_pool w)) = length (nodes_of ds) ->
  exists x', engine_destory ep x = Done x' /\
  let w' := px_world (pr_proxy x') in
  htable (w_pool w') = ∅ /\ length (id_queue (w_pool w')) = 1024%nat /\ pool_inv w' /\
  (forall k, k ∈ nodes_of ds ++ spare_of ds -> w_node w' !! k = None) /\
  (forall n p s, n ∈ nodes_of ds -> w_node w !! n = Some (Some p) -> w_sess w !! p = Some s ->
     sock_fd s ∈ w_closed w' /\ w_sess w' !! p = None) /\
  (forall d, d ∈ ds -> listens d = true -> tcp_listener d ∈ w_closed w') /\
  pr_epfd x ∈ w_closed w' /\ w_eng w' = zero_engine.
Proof.
  intros Hset Hpool w Hds Hnum Hown Hids Hall. unfold engine_destory, engine_destory_hs_net_dev. rewrite Hset, Hpool. cbn [negb andb].
  fold w. rewrite Hnum, Nat2Z.id. destruct (devices_walk g ep ds rest 0 w Hown Hds) as (w1 & -> & K & Hi & C).
  cbn [mbind outcome_bind]. eexists. split; [reflexivity|]. cbn.
  pose proof (wk_table _ _ _ _ K) as Ht. pose proof (wk_ids _ _ _ _ K Hids) as Ha.
  assert (htable (w_pool w1) = ∅) as He by (apply map_size_empty_iff; lia).
  split; [exact He|]. split; [unfold ids_accounted in Ha; rewrite He, map_size_empty in Ha; lia|].
  split; [by apply (pool_inv_frame w1)|]. split; [intros k Hk; by rewrite (wk_node _ _ _ _ K), decide_True|].
  split; [|split; [intros d Hd Hl; right; by apply C|split; [by left|done] ] ].
  intros n p s Hn Hnp Hs. destruct (wk_socks _ _ _ _ K n p s Hn Hnp Hs) as [H1 H2]. split; [by right|done].
Qed.

(** C33. A session created on request never gets its [dev_id] set: the member
    keeps malloc's bytes.  When they name no device, closing the session still
    answers OK and frees it, but its node stays on the list of its device and
    points at the freed session, and walking that list at shutdown reads freed
    memory. *)
Theorem closed_session_dangles g w p s id n i d proto ep ep' todo :
  pool_inv w -> tx_ok g w -> htable (w_pool w) !! id = Some p -> w_sess w !! p = Some s -> 0 <= frontend_sess_id s < 65536 ->
  dev_id s < 0 \/ MAX_HS_DEV_NUM <= dev_id s ->
  0 <= i -> w_devs w !! Z.to_nat i = Some d -> n ∈ proto_queue proto d -> w_node w !! n = Some (Some p) ->
  exists w', high_speed_delete_sess w p ep = Done (PROCESS_OK, w') /\ w_sess w' !! p = None /\
  w_devs w' = w_devs w /\ w_node w' !! n = Some (Some p) /\ destory_queue ep' i proto (n :: todo) w' = Fault UseAfterFree.
Proof.
  intros Hi Htx Hid Hs Hf Hdev Hpos Hd Hn Hnode.
  destruct (delete_unlinked g w p s id ep Hi Htx Hid Hs (or_intror Hdev) Hf) as (w' & E & _ & _ & _ & W1 & _ & W2 & W3 & _).
  assert (w_sess w' !! p = None) as Hfree by (rewrite W1; apply lookup_delete_eq).
  exists w'. split; [exact E|]. split; [exact Hfree|]. split; [done|]. rewrite W2. split; [done|].
  cbn [destory_queue]. rewrite (get_dev_lookup _ _ d) by (done || by rewrite W3). cbn [mbind outcome_bind].
  rewrite tailq_remove_ok by done. cbn [mbind outcome_bind]. unfold get_node. cbn [w_node put_dev with_devs]. rewrite W2, Hnode.
  cbn [mbind outcome_bind]. unfold get_sess. cbn [w_sess put_dev with_devs]. by rewrite Hfree.
Qed.

(** ** Witness *)

(** One device with one session on its TCP list and one spare node. *)
Definition demo_running : process :=
  {| pr_proxy := {| px_world := demo_live; px_iot := no_iot_sessions; px_out := [] |};
     pr_ctx := g_ctx_initial; pr_iot := {| iot_dev_set := None; iot_dev_num := 0 |}; pr_epfd := 4; pr_dev_set := true; pr_sess_pool := true |}.

Lemma engine_destory_releases_witness :
  exists x', engine_destory (fun _ => true) demo_running = Done x' /\ htable (w_pool (px_world (pr_proxy x'))) = ∅ /\
  w_sess (px_world (pr_proxy x')) !! 500 = None.
Proof.
  destruct (engine_destory_releases demo_tx_geo (fun _ => true) demo_running (w_devs demo_live) []) as (x' & H1 & H2 & _ & _ & _ & H3 & _).
  - reflexivity.
  - reflexivity.
  - reflexivity.
  - reflexivity.
  - split; [|apply (NoDup_singleton 11)|].
    + split; [apply demo_live_inv|by apply demo_tx_ok|apply (NoDup_singleton 10)| |].
      * intros n ->%list_elem_of_singleton. exists 500, demo_session, 1. split_and!; [reflexivity|reflexivity|reflexivity|cbn; lia|cbn; lia].
      * intros n n' p ->%list_elem_of_singleton ->%list_elem_of_singleton. done.
    + intros k ->%list_elem_of_singleton. split; [by eexists|]. by intros H%list_elem_of_singleton.
  - reflexivity.
  - reflexivity.
  - exists x'. split; [exact H1|]. split; [exact H2|]. apply (H3 10 500 demo_session); [by left|reflexivity|reflexivity].
Defined.

(** The running proxy, but the bytes malloc returned held 77 where [dev_id] lies. *)
Definition demo_stray_session : BackendSession :=
  {| proto_type := proto_type demo_session; dev_id := 77; establish_mode := establish_mode demo_session; sock_fd := sock_fd demo_session;
     ip_version := ip_version demo_session; frontend_sess_id := frontend_sess_id demo_session; backend_sess_id := backend_sess_id demo_session;
     state_f2b := state_f2b demo_session; state_b2f := state_b2f demo_session; sess_dev_link_state := sess_dev_link_state demo_session;
     msg_f2b := []; msg_b2f := []; sess_eng := true; sess_node := sess_node demo_session; net_channel := net_channel demo_session |}.

Definition demo_stray : world := with_sess demo_live {[ 500 := demo_stray_session ]}.

Lemma closed_session_dangles_witness :
  exists w', high_speed_delete_sess demo_stray 500 true = Done (PROCESS_OK, w') /\ w_sess w' !! 500 = None /\
  destory_queue (fun _ => true) 0 SESS_TCP_PROTO [10] w' = Fault UseAfterFree.
Proof.
  destruct (closed_session_dangles demo_tx_geo demo_stray 500 demo_stray_session 1 10 0
              (device_linked (demo_dev 0 [10; 11]) (para_trans_proto demo_para) 10 [11]) SESS_TCP_PROTO true (fun _ => true) [])
    as (w' & H1 & H2 & _ & _ & H3).
  - by apply (single_pool_inv _ 500 demo_stray_session).
  - by apply demo_tx_ok.
  - reflexivity.
  - reflexivity.
  - cbn. lia.
  - right. vm_compute. discriminate.
  - lia.
  - reflexivity.
  - by left.
  - reflexivity.
  - exists w'. split; [exact H1|]. split; [exact H2|exact H3].
Defined.
