(* ===== verification/Lifecycle.v ===== *)
(** * Lifecycle: the invariant of the running proxy

    [proxy_inv] ties the session pool to the devices: the nodes on the protocol
    lists of the configured devices hold exactly the sessions of the table, and
    every session knows its node.  (Not its device: [dev_id] of a session
    created on request is never set.)  Start-up establishes it, the messages of
    the frontend keep it unless they meet a defect of the code
    ([message_meets_defect]), and shutdown needs it. *)

From S2P Require Import Prelude Bytes Mem HyperampQueue HyperampQueueSpec HyperampLinux ByteStore Message Build BuildSpec Session Device Responses SessionPool SessionPoolSpec SessionData SessionDataSpec Iot Proto ProtoSpec IotMessages DevConfig DevConfigSpec ScenarioSpec EngineInit ShutdownSpec.
From stdpp Require Import base list numbers option gmap.
From Stdlib Require Import ZArith Lia.
#[local] Open Scope Z_scope.

(** ** Lists of nodes when one device changes *)

Lemma concat_update {A B} (f : A -> list B) (l : list A) i x y : l !! i = Some x ->
  concat (map f l) ≡ₚ f x ++ concat (map f (delete i l)) /\ concat (map f (<[i := y]> l)) ≡ₚ f y ++ concat (map f (delete i l)).
Proof.
  intros H. split.
  - rewrite (delete_Permutation l i x H) at 1. done.
  - assert (<[i := y]> l ≡ₚ y :: delete i l) as E.
    { rewrite (delete_Permutation (<[i := y]> l) i y); [|apply list_lookup_insert_eq; by eapply lookup_lt_Some].
      rewrite !delete_take_drop, take_insert_ge, drop_insert_lt by lia. done. }
    rewrite E. done.
Qed.

Lemma concat_index {A B} (f : A -> list B) (l : list A) i j x y b :
  NoDup (concat (map f l)) -> l !! i = Some x -> l !! j = Some y -> b ∈ f x -> b ∈ f y -> i = j.
Proof.
  intros Hnd Hi Hj Hx Hy. destruct (decide (i = j)) as [|Hne]; [done|exfalso].
  rewrite (proj1 (concat_update f l i x x Hi)) in Hnd. apply NoDup_app in Hnd as (_ & Hd & _). apply (Hd b Hx).
  apply list_elem_of_In, in_concat. exists (f y). split; [|by apply list_elem_of_In]. apply in_map, list_elem_of_In.
  destruct (decide (j < i)%nat).
  - apply (list_elem_of_lookup_2 _ j). by rewrite list_lookup_delete_lt by lia.
  - apply (list_elem_of_lookup_2 _ (j - 1)). rewrite list_lookup_delete_ge by lia. by replace (S (j - 1)) with j by lia.
Qed.

(** ** The invariant *)

Section Invariant.
Context (g : geometry) (nd : nat) (N : gmap Z (option Z)).

(** The configured devices.  [N]: the nodes allocated before the proxy's. *)
Definition configured (w : world) : list HighSpeedNetDevice := take nd (w_devs w).

(** Node [n] holds session [p] of protocol [proto], and both know it. *)
Definition at_node (w : world) (proto n p : Z) : Prop :=
  exists s id, w_node w !! n = Some (Some p) /\ w_sess w !! p = Some s /\ htable (w_pool w) !! id = Some p /\
  proto_type s = proto /\ sess_node s = Some n /\ bit0 (sess_dev_link_state s) = true /\
  0 <= frontend_sess_id s < 65536.

(** What can be moved: segments inside their buffers, towards the frontend as
    the TX ring takes them; and every session was created on request. *)
Definition sess_ok (s : BackendSession) : Prop :=
  Forall seg_sound (msg_f2b s) /\ Forall (seg_ready g) (msg_b2f s) /\ establish_mode s = SESS_ESTABLISH_ACTIVE.

Record proxy_inv (w : world) : Prop := {
  pv_pool : pool_inv w;
  pv_tx : tx_ok g w;
  pv_ids : ids_accounted w;
  pv_num : dev_num (w_eng w) = Z.of_nat nd;
  pv_max : (1 <= nd <= 16)%nat /\ (nd <= length (w_devs w))%nat;
  pv_nodup : NoDup (nodes_of (configured w) ++ spare_of (configured w));
  pv_few : (length (nodes_of (configured w) ++ spare_of (configured w)) < 1024)%nat;
  pv_spare : forall n, n ∈ spare_of (configured w) -> is_Some (w_node w !! n);
  pv_node : forall i d proto n, configured w !! i = Some d -> node_proto proto = true -> n ∈ proto_queue proto d ->
    exists p, at_node w proto n p;
  pv_all : forall id p, htable (w_pool w) !! id = Some p -> exists n, n ∈ nodes_of (configured w) /\ w_node w !! n = Some (Some p);
  pv_size : size (htable (w_pool w)) = length (nodes_of (configured w));
  pv_heap : forall p, is_Some (w_sess w !! p) -> exists id, htable (w_pool w) !! id = Some p;
  pv_sess : forall p s, w_sess w !! p = Some s -> sess_ok s;
  pv_new : forall k, k ∈ nodes_of (configured w) ++ spare_of (configured w) -> N !! k = None;
  pv_rest : forall k, k ∉ nodes_of (configured w) ++ spare_of (configured w) -> w_node w !! k = N !! k }.

Lemma nodes_of_elem ds n :
  n ∈ nodes_of ds <-> exists i d proto, ds !! i = Some d /\ node_proto proto = true /\ n ∈ proto_queue proto d.
Proof.
  unfold nodes_of. rewrite list_elem_of_In, in_concat. split.
  - intros (l & (d & <- & Hd%list_elem_of_In)%in_map_iff & Hn%list_elem_of_In). apply list_elem_of_lookup in Hd as [i Hi].
    unfold sess_nodes in Hn. apply elem_of_app in Hn as [Hn|Hn]; [by exists i, d, SESS_TCP_PROTO|by exists i, d, SESS_UDP_PROTO].
  - intros (i & d & proto & Hi & Hp & Hn). exists (sess_nodes d). split; [apply in_map, list_elem_of_In; by eapply list_elem_of_lookup_2|].
    apply list_elem_of_In, elem_of_app. unfold proto_queue in Hn. destruct (proto =? SESS_UDP_PROTO); auto.
Qed.

Lemma spare_of_elem ds n : n ∈ spare_of ds <-> exists i d, ds !! i = Some d /\ n ∈ free_node_queue d.
Proof.
  unfold spare_of. rewrite list_elem_of_In, in_concat. split.
  - intros (l & (d & <- & Hd%list_elem_of_In)%in_map_iff & Hn%list_elem_of_In). apply list_elem_of_lookup in Hd as [i Hi]. by exists i, d.
  - intros (i & d & Hi & Hn). exists (free_node_queue d). split; [apply in_map, list_elem_of_In; by eapply list_elem_of_lookup_2|].
    by apply list_elem_of_In.
Qed.

(** A session of the table is at its node. *)
Lemma session_placed w id p : proxy_inv w -> htable (w_pool w) !! id = Some p ->
  exists i d proto n, configured w !! i = Some d /\ node_proto proto = true /\ (n ∈ proto_queue proto d) /\ at_node w proto n p.
Proof.
  intros H Hid. destruct (pv_all w H id p Hid) as (n & Hn & Hnp). apply nodes_of_elem in Hn as (i & d & proto & Hi & Hp & Hn).
  destruct (pv_node w H i d proto n Hi Hp Hn) as (p' & s & id' & E & Hat).
  exists i, d, proto, n. split; [done|]. split; [done|]. split; [done|]. exists s, id'. rewrite Hnp in E. injection E as <-. done.
Qed.

(** What shutdown asks for. *)
Lemma inv_owned w : proxy_inv w -> owned g w (configured w).
Proof.
  intros H. pose proof (pv_nodup w H) as (Hn & Hd & Hs)%NoDup_app. split; [|done|].
  - assert (forall n, n ∈ nodes_of (configured w) -> exists proto p, at_node w proto n p) as Hat.
    { intros n (i & d & proto & Hi & Hp & Hq)%nodes_of_elem. destruct (pv_node w H i d proto n Hi Hp Hq) as [p Hp']. by exists proto, p. }
    split; [apply H|apply H|done| |].
    + intros n (proto & p & s & id & H1 & H2 & H3 & _ & _ & _ & H4)%Hat. exists p, s, id. done.
    + intros n n' p (proto & q & s & id & H1 & H2 & _ & _ & H3 & _)%Hat (proto' & q' & s' & id' & H1' & H2' & _ & _ & H3' & _)%Hat E E'.
      rewrite H1 in E. injection E as ->. rewrite H1' in E'. injection E' as ->. congruence.
  - intros k Hk. split; [by apply (pv_spare w H)|]. intros Hk'. by apply (Hd k).
Qed.

(** ** Nodes change lists *)

(** Node [n] goes from the spare nodes to those that hold sessions. *)
Definition moved_up (n : Z) (nodes spare nodes' spare' : list Z) : Prop := nodes' ≡ₚ n :: nodes /\ spare ≡ₚ n :: spare'.

Lemma moved_up_all n nodes spare nodes' spare' : moved_up n nodes spare nodes' spare' -> nodes' ++ spare' ≡ₚ nodes ++ spare.
Proof. intros [-> ->]. cbn. apply Permutation_middle. Qed.

Lemma update_moves ds i d d' n : ds !! i = Some d -> moved_up n (sess_nodes d) (free_node_queue d) (sess_nodes d') (free_node_queue d') ->
  moved_up n (nodes_of ds) (spare_of ds) (nodes_of (<[i := d']> ds)) (spare_of (<[i := d']> ds)).
Proof.
  intros Hi [H1 H2]. destruct (concat_update sess_nodes ds i d d' Hi) as [A1 A2]. destruct (concat_update free_node_queue ds i d d' Hi) as [B1 B2].
  unfold moved_up, nodes_of, spare_of. rewrite A2, B2, A1, B1, H1, H2. done.
Qed.

Lemma configured_insert w w' i d' : w_devs w' = <[i := d']> (w_devs w) -> (i < nd)%nat -> configured w' = <[i := d']> (configured w).
Proof. intros E Hi. unfold configured. rewrite E. by rewrite take_insert_lt. Qed.

Lemma configured_lookup w i d : configured w !! i = Some d -> (i < nd)%nat /\ w_devs w !! i = Some d.
Proof. unfold configured. rewrite lookup_take_Some. tauto. Qed.

(** The two moves. *)
Lemma linked_nodes d proto n fq : node_proto proto = true -> free_node_queue d = n :: fq ->
  let d' := device_linked d proto n fq in moved_up n (sess_nodes d) (free_node_queue d) (sess_nodes d') (free_node_queue d') /\
  (forall proto', node_proto proto' = true -> forall k, k ∈ proto_queue proto' d' <-> k ∈ proto_queue proto' d \/ proto' = proto /\ k = n).
Proof.
  intros Hp Hf d'. unfold moved_up, d', device_linked, sess_nodes, node_proto, proto_queue, set_proto_queue, set_free_nodes in *. cbn. rewrite Hf.
  unfold SESS_UDP_PROTO, SESS_TCP_PROTO in *. apply orb_true_iff in Hp as [->%Z.eqb_eq| ->%Z.eqb_eq]; cbn [Z.eqb]; split_and!; try done;
    try (intros proto' [->%Z.eqb_eq| ->%Z.eqb_eq]%orb_true_iff k; cbn [Z.eqb]; rewrite ?elem_of_app, ?list_elem_of_singleton; intuition lia).
  - rewrite app_assoc. apply (Permutation_app_comm _ [n]).
  - rewrite <- app_assoc. symmetry. apply Permutation_middle.
Qed.

Definition device_unlinked (d : HighSpeedNetDevice) (proto n : Z) : HighSpeedNetDevice :=
  set_free_nodes (set_proto_queue proto d (remove_first n (proto_queue proto d))) (free_node_queue d ++ [n]).

Lemma remove_first_perm x l : x ∈ l -> l ≡ₚ x :: remove_first x l.
Proof.
  induction l as [|y l IH]; [by intros ?%not_elem_of_nil|]. cbn. intros H. destruct (x =? y) eqn:E.
  - apply Z.eqb_eq in E as ->. by rewrite ?Z.eqb_refl.
  - apply Z.eqb_neq in E. apply elem_of_cons in H as [->|H]; [done|]. rewrite (IH H) at 1. rewrite ?(proj2 (Z.eqb_neq y x)) by done. apply Permutation_swap.
Qed.

Lemma unlinked_nodes d proto n : node_proto proto = true -> n ∈ proto_queue proto d ->
  let d' := device_unlinked d proto n in moved_up n (sess_nodes d') (free_node_queue d') (sess_nodes d) (free_node_queue d).
Proof.
  intros Hp Hn d'. pose proof (remove_first_perm n _ Hn) as Hr.
  unfold moved_up, d', device_unlinked, sess_nodes, node_proto, proto_queue, set_proto_queue, set_free_nodes in *. cbn.
  split; [|apply (Permutation_app_comm _ [n])].
  unfold SESS_UDP_PROTO, SESS_TCP_PROTO in *. apply orb_true_iff in Hp as [->%Z.eqb_eq| ->%Z.eqb_eq]; cbn [Z.eqb] in *; rewrite Hr at 1; [|done].
  symmetry. apply Permutation_middle.
Qed.

Lemma unlinked_queue d proto proto' n k : NoDup (proto_queue proto d) -> node_proto proto = true -> node_proto proto' = true ->
  k ∈ proto_queue proto' (device_unlinked d proto n) -> k ∈ proto_queue proto' d /\ (proto' = proto -> k <> n).
Proof.
  intros Hnd Hp Hp'. unfold device_unlinked, node_proto, proto_queue, set_proto_queue, set_free_nodes in *. cbn.
  unfold SESS_UDP_PROTO, SESS_TCP_PROTO in *.
  apply orb_true_iff in Hp as [->%Z.eqb_eq| ->%Z.eqb_eq], Hp' as [->%Z.eqb_eq| ->%Z.eqb_eq]; cbn [Z.eqb] in *;
    rewrite ?remove_first_elem by done; intuition lia.
Qed.

(** ** Creating and deleting sessions *)

(** A node names one place. *)
Lemma at_node_place w proto proto' n p p' : at_node w proto n p -> at_node w proto' n p' -> proto' = proto /\ p' = p.
Proof.
  intros (s & id & A1 & A2 & _ & A4 & _) (s' & id' & B1 & B2 & _ & B4 & _). assert (p' = p) as -> by congruence.
  assert (s' = s) as -> by congruence. split; [congruence|done].
Qed.

Lemma at_node_session w proto proto' n n' p : at_node w proto n p -> at_node w proto' n' p -> n' = n.
Proof. intros (s & id & A1 & A2 & _ & _ & A3 & _) (s' & id' & B1 & B2 & _ & _ & B3 & _). congruence. Qed.

(** A node is on the lists of one device. *)
Lemma node_device w i j d d' proto proto' n : proxy_inv w -> configured w !! i = Some d -> configured w !! j = Some d' ->
  n ∈ proto_queue proto d -> n ∈ proto_queue proto' d' -> j = i.
Proof.
  intros H Hi Hj Hn Hn'. pose proof (pv_nodup w H) as (Hnd & _)%NoDup_app.
  assert (forall pr dd, n ∈ proto_queue pr dd -> n ∈ sess_nodes dd) as Hq
    by (intros pr dd Hin; unfold proto_queue in Hin; apply elem_of_app; destruct (pr =? SESS_UDP_PROTO); auto).
  symmetry. by apply (concat_index sess_nodes (configured w) i j d d' n); eauto.
Qed.

Lemma inv_created w w' i d proto n fq id p s :
  proxy_inv w -> pool_inv w' -> tx_ok g w' -> ids_accounted w' -> configured w !! i = Some d -> node_proto proto = true ->
  free_node_queue d = n :: fq -> w_devs w' = <[i := device_linked d proto n fq]> (w_devs w) -> w_eng w' = w_eng w ->
  w_node w' = <[n := Some p]> (w_node w) -> w_sess w' = <[p := s]> (w_sess w) -> w_sess w !! p = None ->
  htable (w_pool w') = <[id := p]> (htable (w_pool w)) -> htable (w_pool w) !! id = None ->
  proto_type s = proto -> sess_node s = Some n -> bit0 (sess_dev_link_state s) = true ->
  0 <= frontend_sess_id s < 65536 -> sess_ok s -> proxy_inv w'.
Proof.
  intros H Hp Ht Ha Hi Hpr Hf Hd He Hn Hs Hfr Hh Hid S2 S3 S4 S5 S6. destruct (configured_lookup _ _ _ Hi) as [Hlt Hdi].
  pose proof (configured_insert w w' i _ Hd Hlt) as Hc. destruct (linked_nodes d proto n fq Hpr Hf) as (Hmv & Hq).
  apply (update_moves _ i d _ n Hi) in Hmv. rewrite <- Hc in Hmv. pose proof (moved_up_all _ _ _ _ _ Hmv) as Hall. destruct Hmv as [Hnodes Hspare].
  pose proof (pv_nodup w H) as (_ & Hdis & _)%NoDup_app.
  assert (n ∉ nodes_of (configured w)) as Hnn by (intros Hn'; apply (Hdis n Hn'); rewrite Hspare; by left).
  assert (forall pr k q, at_node w pr k q -> k <> n -> at_node w' pr k q) as Hkeep.
  { intros pr k q (t & id' & A1 & A2 & A3 & A) Hk. exists t, id'. rewrite Hn, Hs, Hh, !lookup_insert_ne by congruence. done. }
  split; try done.
  - by rewrite He, (pv_num w H).
  - rewrite Hd, length_insert. apply H.
  - rewrite Hall. apply H.
  - rewrite Hall. apply H.
  - intros k Hk. rewrite Hn. destruct (decide (k = n)) as [->|Hne]; [by rewrite lookup_insert_eq|]. rewrite lookup_insert_ne by done.
    apply (pv_spare w H). rewrite Hspare. by right.
  - intros j dj pr k Hj Hpr' Hk. rewrite Hc in Hj.
    assert (k = n /\ j = i /\ pr = proto \/ exists dj, configured w !! j = Some dj /\ k ∈ proto_queue pr dj) as [(-> & -> & ->)|(dj' & Hj' & Hk')].
    { destruct (decide (j = i)) as [->|Hne]; [|rewrite list_lookup_insert_ne in Hj by done; eauto].
      rewrite list_lookup_insert_eq in Hj by (by eapply lookup_lt_Some). injection Hj as <-. apply (Hq pr Hpr') in Hk as [Hk|[-> ->] ]; eauto. }
    + exists p, s, id. rewrite Hn, Hs, Hh, !lookup_insert_eq. done.
    + destruct (pv_node w H j dj' pr k Hj' Hpr' Hk') as [q Hat]. exists q. apply Hkeep; [done|]. intros ->. apply Hnn, nodes_of_elem. by exists j, dj', pr.
  - intros id' q. rewrite Hh. intros [ [<- <-]|[Hne Hq'] ]%lookup_insert_Some.
    + exists n. rewrite Hn, lookup_insert_eq, Hnodes. split; [by left|done].
    + destruct (pv_all w H id' q Hq') as (k & Hk & Hkq). exists k. rewrite Hnodes. split; [by right|].
      rewrite Hn, lookup_insert_ne; [done|]. intros <-. done.
  - rewrite Hh, Hnodes, map_size_insert_None by done. cbn. by rewrite (pv_size w H).
  - intros q. rewrite Hs, Hh. destruct (decide (p = q)) as [<-|Hpq]; [intros _; exists id; by rewrite lookup_insert_eq|].
    rewrite lookup_insert_ne by done. intros (id' & Hq')%(pv_heap w H). exists id'. rewrite lookup_insert_ne; [done|]. congruence.
  - intros q t. rewrite Hs. intros [ [<- <-]|[_ Hqt] ]%lookup_insert_Some; [done|by eapply (pv_sess w H)].
  - intros k. rewrite Hall. apply (pv_new w H).
  - intros k. rewrite Hall, Hn. intros Hk. rewrite lookup_insert_ne; [by apply (pv_rest w H)|]. intros <-. apply Hk, elem_of_app. rewrite Hspare. right. by left.
Qed.

Lemma queue_nodup w i d proto : proxy_inv w -> configured w !! i = Some d -> NoDup (proto_queue proto d).
Proof.
  intros H Hi. pose proof (pv_nodup w H) as (Hn & _)%NoDup_app. unfold nodes_of in Hn. rewrite (proj1 (concat_update sess_nodes _ i d d Hi)) in Hn.
  apply NoDup_app in Hn as (Hn & _). unfold sess_nodes in Hn. apply NoDup_app in Hn as (? & _ & ?). unfold proto_queue. by destruct (_ =? _).
Qed.

Lemma inv_deleted w w' i d proto n id p :
  proxy_inv w -> pool_inv w' -> tx_ok g w' -> ids_accounted w' -> configured w !! i = Some d -> node_proto proto = true ->
  n ∈ proto_queue proto d -> at_node w proto n p -> htable (w_pool w) !! id = Some p ->
  w_devs w' = <[i := device_unlinked d proto n]> (w_devs w) -> w_eng w' = w_eng w -> w_node w' = <[n := None]> (w_node w) ->
  w_sess w' = delete p (w_sess w) -> htable (w_pool w') = delete id (htable (w_pool w)) -> proxy_inv w'.
Proof.
  intros H Hp Ht Ha Hi Hpr Hnq Hat Hid Hd He Hn Hs Hh. destruct (configured_lookup _ _ _ Hi) as [Hlt Hdi].
  pose proof (configured_insert w w' i _ Hd Hlt) as Hc. pose proof (unlinked_nodes d proto n Hpr Hnq) as Hmv.
  assert (configured w' !! i = Some (device_unlinked d proto n)) as Hi' by (rewrite Hc; apply list_lookup_insert_eq; by eapply lookup_lt_Some).
  apply (update_moves _ i _ _ n Hi') in Hmv. rewrite Hc, list_insert_insert_eq, (list_insert_id (configured w) i d) in Hmv by done. rewrite <- Hc in Hmv.
  pose proof (moved_up_all _ _ _ _ _ Hmv) as Hall. destruct Hmv as [Hnodes Hspare].
  pose proof (pv_nodup w H) as (Hnd & Hdis & _)%NoDup_app.
  pose proof (queue_nodup w i d proto H Hi) as Hndq.
  rewrite Hnodes in Hnd. apply NoDup_cons in Hnd as [Hnn _].
  assert (forall pr k q, at_node w pr k q -> k <> n -> at_node w' pr k q) as Hkeep.
  { intros pr k q Hq Hk. assert (q <> p) as Hqp by (intros ->; apply Hk; by apply (at_node_session w proto pr n k p)).
    destruct Hq as (t & id' & A1 & A2 & A3 & A). exists t, id'. rewrite Hn, Hs, Hh, lookup_insert_ne, !lookup_delete_ne by congruence. done. }
  split; try done.
  - by rewrite He, (pv_num w H).
  - rewrite Hd, length_insert. apply H.
  - rewrite <- Hall. apply H.
  - rewrite <- Hall. apply H.
  - intros k Hk. rewrite Hn. destruct (decide (k = n)) as [->|Hne]; [by rewrite lookup_insert_eq|]. rewrite lookup_insert_ne by done.
    apply (pv_spare w H). rewrite Hspare in Hk. by apply elem_of_cons in Hk as [|].
  - intros j dj pr k Hj Hpr' Hk. rewrite Hc in Hj.
    assert (exists dj, configured w !! j = Some dj /\ k ∈ proto_queue pr dj /\ (j = i -> pr = proto -> k <> n)) as (dj' & Hj' & Hk' & Hkn).
    { destruct (decide (j = i)) as [->|Hne]; [|rewrite list_lookup_insert_ne in Hj by done; by exists dj].
      rewrite list_lookup_insert_eq in Hj by (by eapply lookup_lt_Some). injection Hj as <-.
      destruct (unlinked_queue d proto pr n k) as [Hk1 Hk2]; try done. exists d. auto. }
    destruct (pv_node w H j dj' pr k Hj' Hpr' Hk') as [q Hq]. exists q. apply Hkeep; [done|]. intros ->.
    destruct (at_node_place w proto pr n p q Hat Hq) as (-> & _). apply Hkn; [|done|done]. by eapply (node_device w i j).
  - intros id' q. rewrite Hh. intros [Hne Hq]%lookup_delete_Some. destruct (pv_all w H id' q Hq) as (k & Hk & Hkq).
    assert (k <> n) as Hkn.
    { intros ->. destruct Hat as (s & _ & A1 & _). assert (q = p) as -> by congruence. apply Hne.
      destruct (pi_table _ (pv_pool w H) _ _ Hid) as (_ & t & Ht1 & <- & _), (pi_table _ (pv_pool w H) _ _ Hq) as (_ & t' & Ht2 & <- & _). congruence. }
    exists k. rewrite Hn, lookup_insert_ne by done. split; [|done]. rewrite Hnodes in Hk. by apply elem_of_cons in Hk as [|].
  - rewrite Hh. pose proof (size_delete _ _ _ Hid) as E. rewrite (pv_size w H), Hnodes in E. cbn in E. lia.
  - intros q. rewrite Hs, Hh. intros [t [Hqp Ht']%lookup_delete_Some]. destruct (pv_heap w H q) as [id' Hq']; [by exists t|]. exists id'.
    rewrite lookup_delete_ne; [done|]. congruence.
  - intros q t. rewrite Hs. intros [_ Hq]%lookup_delete_Some. by eapply (pv_sess w H).
  - intros k. rewrite <- Hall. apply (pv_new w H).
  - intros k. rewrite <- Hall, Hn. intros Hk. rewrite lookup_insert_ne; [by apply (pv_rest w H)|]. intros <-. apply Hk, elem_of_app. rewrite Hnodes. left. by left.
Qed.


(** ** Closing a session *)

Lemma unlink_node_exact w p s n d :
  w_sess w !! p = Some s -> sess_node s = Some n -> w_node w !! n = Some (Some p) -> 0 <= dev_id s < MAX_HS_DEV_NUM ->
  w_devs w !! Z.to_nat (dev_id s) = Some d -> node_proto (proto_type s) = true -> n ∈ proto_queue (proto_type s) d ->
  n ∉ free_node_queue d -> bit0 (sess_dev_link_state s) = true ->
  exists w' s', delete_unlink_node w p = Done w' /\ w_sess w' = <[p := s']> (w_sess w) /\ w_node w' = <[n := None]> (w_node w) /\
  w_devs w' = <[Z.to_nat (dev_id s) := device_unlinked d (proto_type s) n]> (w_devs w) /\
  w_pool w' = w_pool w /\ w_tx w' = w_tx w /\ w_eng w' = w_eng w /\ w_closed w' = w_closed w.
Proof.
  intros Hs Hsn Hnode Hdev Hd Hpr Hin Hout Hbit. unfold delete_unlink_node, get_sess. rewrite Hs. cbn [mbind outcome_bind].
  rewrite (proj2 (Z.ltb_ge _ _)), (proj2 (Z.leb_gt _ _)) by lia. cbn [orb].
  unfold BACKEND_SESS_LINKED_TO_DEV_NODE. rewrite land1_bit0, Hbit. cbn [Z.b2z Z.eqb]. rewrite Hsn.
  unfold get_node. rewrite Hnode. cbn [mbind outcome_bind]. rewrite Hs. cbn [mbind outcome_bind].
  unfold HIGH_SPEED_NET_DEV_REMOVE_SESSION_NODE, get_node, get_sess. rewrite Hnode. cbn [mbind outcome_bind].
  rewrite Hpr, Hs. cbn [mbind outcome_bind]. unfold BACKEND_SESS_LINKED_TO_DEV_NODE. rewrite land1_bit0, Hbit.
  cbn [Z.b2z Z.eqb]. rewrite (get_dev_lookup _ _ d) by (done || lia). cbn [mbind outcome_bind].
  rewrite tailq_remove_ok by done. cbn [mbind outcome_bind]. unfold HIGH_SPEED_NET_DEV_PUSH_FREE_SESSION_NODE.
  set (d1 := set_proto_queue _ _ _).
  rewrite (get_dev_lookup _ _ d1); [|lia|cbn; apply list_lookup_insert_eq; by eapply lookup_lt_Some].
  cbn [mbind outcome_bind]. rewrite tailq_insert_ok by done. cbn [mbind outcome_bind].
  eexists _, _. split; [reflexivity|]. cbn. rewrite list_insert_insert_eq. split_and!; reflexivity.
Qed.

(** Does the session's [dev_id] name the device that has its node?  Creation on
    request never sets it (session_pool.c:560). *)
Definition knows_device (w : world) (p : Z) : bool :=
  match w_sess w !! p with
  | None => true
  | Some s =>
      match sess_node s, configured w !! Z.to_nat (dev_id s) with
      | Some n, Some d => (0 <=? dev_id s) && bool_decide (n ∈ proto_queue (proto_type s) d)
      | _, _ => false
      end
  end.

Lemma delete_keeps w id p ep : proxy_inv w -> htable (w_pool w) !! id = Some p -> knows_device w p = true ->
  exists w', high_speed_delete_sess w p ep = Done (PROCESS_OK, w') /\ proxy_inv w'.
Proof.
  intros H Hid Hknow. destruct (session_placed w id p H Hid) as (i & d & proto & n & Hi & Hpr & Hnq & Hat).
  pose proof Hat as (s & id' & A1 & A2 & _ & A5 & A6 & A7 & A8).
  destruct (configured_lookup _ _ _ Hi) as [Hlt Hdi]. pose proof (pv_max w H) as [Hmax _].
  assert (dev_id s = Z.of_nat i) as A4.
  { unfold knows_device in Hknow. rewrite A2, A6 in Hknow. destruct (configured w !! Z.to_nat (dev_id s)) as [d'|] eqn:Hd'; [|done].
    apply andb_true_iff in Hknow as [Hpos%Z.leb_le Hin%bool_decide_eq_true].
    pose proof (node_device w i _ d d' _ _ n H Hi Hd' Hnq Hin). lia. }
  destruct (delete_detach w p s id ep (pv_pool w H) Hid A2)
    as (w4 & s4 & qf & qb & Hk & E1 & (P1 & P2 & P3 & P4) & E2 & E3 & E4 & E5 & E6 & E7 & Hnf & Hnb & Hqf & Hqb).
  unfold high_speed_delete_sess. assert (get_sess w p = Done s) as -> by (unfold get_sess; by rewrite A2).
  cbn [mbind outcome_bind]. rewrite Hk. cbn [mbind outcome_bind].
  assert (Z.to_nat (dev_id s4) = i) as Edev by (rewrite P1, A4; lia).
  destruct (unlink_node_exact w4 p s4 n d) as (w5 & s5 & -> & D1 & D2 & D3 & D4 & D5 & D6 & D7); rewrite ?P1, ?P2, ?P3, ?P4, ?E2, ?E3; try done.
  { rewrite E1. apply lookup_insert_eq. } { unfold MAX_HS_DEV_NUM. lia. } { rewrite A4, Nat2Z.id. done. } { by rewrite A5. } { by rewrite A5. }
  { intros Hf. pose proof (pv_nodup w H) as (_ & Hdis & _)%NoDup_app. apply (Hdis n); [apply nodes_of_elem; by exists i, d, proto|].
    apply spare_of_elem. by exists i, d. }
  cbn [mbind outcome_bind].
  destruct (send_standalone_spec g (free_sess w5 p) (frontend_sess_id s) (backend_sess_id s) (ip_version s)
              SESS_MSG_CLOSE success_resp) as (st & w' & -> & Hresp); [|done|done|].
  { destruct (pv_tx w H). split; cbn; rewrite ?D5, ?D6, ?E4, ?E5; done. }
  apply responded_frame in Hresp as (W1 & W2 & W3 & W4 & W5 & W6 & W7). cbn in W1, W2, W3, W4, W5.
  cbn [mbind outcome_bind fst snd]. exists w'. split; [done|]. rewrite D1, E1, insert_insert_eq, delete_insert_eq in W1.
  rewrite D4, E7 in W4. rewrite D2, E2 in W2. rewrite D3, E3, Edev, P4, A5 in W3. rewrite D6, E5 in W5.
  apply (inv_deleted w w' i d proto n id p); try done.
  - by eapply detached_inv; [apply H|exact Hid|exact W1|exact W4|..].
  - pose proof (pv_ids w H) as Ha. unfold ids_accounted in *. rewrite W4. cbn [id_queue htable]. rewrite length_app, <- (size_delete _ _ _ Hid) in *. cbn. lia.
  - by rewrite W4.
Qed.

(** ** Creating a session *)

(** An id is always available: there are fewer nodes than ids. *)
Lemma id_available w : proxy_inv w -> exists id q, id_queue (w_pool w) = id :: q.
Proof.
  intros H. pose proof (pv_ids w H) as Ha. pose proof (pv_few w H) as Hf. unfold ids_accounted in Ha. rewrite (pv_size w H) in Ha.
  rewrite length_app in Hf. destruct (id_queue (w_pool w)) as [|id q]; [cbn in Ha; lia|eauto].
Qed.

(** What is asked of malloc: memory that is not in use.  Nothing is asked of
    its bytes, nor of the sockets. *)
Definition create_env_ok (w : world) (env : create_env) : Prop :=
  forall p junk, ce_malloc env = Some (p, junk) -> w_sess w !! p = None.

(** The device [dev], if it is an active one of the configuration. *)
Definition active_device (w : world) (dev : Z) : option HighSpeedNetDevice :=
  match configured w !! Z.to_nat dev with
  | Some d => if (0 <=? dev) && (dev_status d =? HS_NET_DEV_ACTIVE) then Some d else None
  | None => None
  end.

(** Every call up to the publication of the session succeeds. *)
Definition publishes (d : HighSpeedNetDevice) (para : SessMsgPara) (env : create_env) : bool :=
  negb (ns_id d =? ERROR_NAMESPACE_ID) && bool_decide (is_Some (ce_socket env)) && ce_connect env &&
  bool_decide (free_node_queue d <> []) && node_proto (para_trans_proto para) && ce_epoll_add env.

(** The defects of session creation.  malloc fails, and the id that is given
    back was never set (session_pool.c:680); the device is not an active one of
    the configuration, and GET_NS_ID aborts (dev.h:124), or its choice by the
    selector goes wrong already; the session is published while the bytes of malloc have a queue flag set (line 563), or
    when the TX ring has no room for the answer (line 646). *)
Definition create_meets_defect (w : world) (para : SessMsgPara) (env : create_env) : bool :=
  match ce_malloc env, request_device w (para_dev_id para) with
  | None, _ => negb (ce_junk_id env =? 0)
  | Some (_, junk), Done (PROCESS_OK, dev, _) =>
      match active_device w dev with
      | None => true
      | Some d => publishes d para env && (bit0 (state_f2b junk) || bit0 (state_b2f junk) || bool_decide (~ tx_room g w))
      end
  | Some _, Done _ => false
  | Some _, _ => true
  end.

(** *** Attempts that fail *)

Lemma inv_undone w w' id q : proxy_inv w -> rolled_back w id q w' -> id_queue (w_pool w) = id :: q -> w_devs w' = w_devs w ->
  w_node w' = w_node w -> tx_ok g w' -> w_eng w' = w_eng w -> proxy_inv w'.
Proof.
  intros H (R1 & R2 & R3 & R4 & R5) Hid Hd Hn Ht He.
  assert (configured w' = configured w) as Hc by (unfold configured; by rewrite Hd).
  assert (forall proto n p, at_node w proto n p -> at_node w' proto n p) as Hat.
  { intros proto n p (s & x & A). exists s, x. by rewrite Hn, R1, R2. }
  split; rewrite ?Hc, ?Hn, ?R2, ?R1; try done; try apply H.
  - pose proof (pv_ids w H) as Ha. unfold ids_accounted in *. rewrite R4, R2. rewrite Hid in Ha. rewrite length_app. cbn in *. lia.
  - by rewrite He, (pv_num w H).
  - rewrite Hd. apply H.
  - intros i d proto n Hi Hp Hq. destruct (pv_node w H i d proto n Hi Hp Hq) as [p Hp']. exists p. by apply Hat.
Qed.

(** A node was taken off the free list and is back at its end. *)
Lemma inv_rotated w w' i d n fq :
  proxy_inv w -> configured w !! i = Some d -> free_node_queue d = n :: fq ->
  w_devs w' = <[i := set_free_nodes d (fq ++ [n])]> (w_devs w) -> w_node w' = <[n := None]> (w_node w) ->
  w_sess w' = w_sess w -> w_pool w' = w_pool w -> w_tx w' = w_tx w -> w_eng w' = w_eng w -> proxy_inv w'.
Proof.
  intros H Hi Hf Hd Hn Hs Hp Ht He. destruct (configured_lookup _ _ _ Hi) as [Hlt Hdi]. set (d' := set_free_nodes d (fq ++ [n])) in *.
  pose proof (configured_insert w w' i _ Hd Hlt) as Hc.
  assert (nodes_of (configured w') ≡ₚ nodes_of (configured w)) as En.
  { unfold nodes_of. rewrite Hc, (proj2 (concat_update sess_nodes _ i d d' Hi)), (proj1 (concat_update sess_nodes _ i d d' Hi)). done. }
  assert (spare_of (configured w') ≡ₚ spare_of (configured w)) as Es.
  { unfold spare_of. rewrite Hc, (proj2 (concat_update free_node_queue _ i d d' Hi)), (proj1 (concat_update free_node_queue _ i d d' Hi)).
    cbn [d' set_free_nodes free_node_queue]. by rewrite Hf, <- Permutation_cons_append. }
  assert (n ∈ spare_of (configured w)) as Hsp by (apply spare_of_elem; exists i, d; rewrite Hf; split; [done|by left]).
  pose proof (pv_nodup w H) as (_ & Hdis & _)%NoDup_app.
  assert (forall proto k p, at_node w proto k p -> k <> n -> at_node w' proto k p) as Hat.
  { intros proto k p (s & x & A) Hk. exists s, x. rewrite Hn, Hs, Hp, lookup_insert_ne by done. done. }
  split; rewrite ?En, ?Es, ?Hp, ?Hs; try apply H.
  - apply (pool_inv_frame w); [done..|apply H].
  - destruct (pv_tx w H). split; by rewrite ?Ht, ?He.
  - unfold ids_accounted. rewrite Hp. apply H.
  - by rewrite He, (pv_num w H).
  - rewrite Hd, length_insert. apply H.
  - intros k Hk. rewrite Hn. destruct (decide (k = n)) as [->|Hne]; [by rewrite lookup_insert_eq|]. rewrite lookup_insert_ne by done.
    by apply (pv_spare w H); rewrite <- Es.
  - intros j dj proto k Hj Hpr Hk. rewrite Hc in Hj.
    assert (exists dj, configured w !! j = Some dj /\ k ∈ proto_queue proto dj) as (dj' & Hj' & Hk').
    { destruct (decide (j = i)) as [->|Hne]; [|rewrite list_lookup_insert_ne in Hj by done; eauto].
      rewrite list_lookup_insert_eq in Hj by (by eapply lookup_lt_Some). injection Hj as <-. by exists d. }
    destruct (pv_node w H j dj' proto k Hj' Hpr Hk') as [p Hp']. exists p. apply Hat; [done|]. intros ->.
    apply (Hdis n); [apply nodes_of_elem; by exists j, dj', proto|done].
  - intros id p Hid. destruct (pv_all w H id p Hid) as (k & Hk & Hkp). exists k. rewrite Hn, lookup_insert_ne; [by rewrite En|].
    intros <-. by apply (Hdis n).
  - intros k. rewrite En, Es. apply (pv_new w H).
  - intros k. rewrite En, Es, Hn. intros Hk. rewrite lookup_insert_ne; [by apply (pv_rest w H)|]. intros <-. apply Hk, elem_of_app. by right.
Qed.

(** Label [create_sess_error] with the id [id] taken and the object [p]
    allocated; [w0] is what the devices and nodes are by then. *)
Lemma error_keeps w w0 para p s id q fd resp :
  proxy_inv w -> id_queue (w_pool w) = id :: q -> w_sess w !! p = None -> 0 <= para_frontend_sess_id para < 65536 ->
  w_sess w0 = <[p := s]> (w_sess w) -> w_pool w0 = set_id_queue (w_pool w) q -> w_tx w0 = w_tx w -> w_eng w0 = w_eng w ->
  (w_devs w0 = w_devs w /\ w_node w0 = w_node w) \/
  (exists i d n fq, configured w !! i = Some d /\ free_node_queue d = n :: fq /\
     w_devs w0 = <[i := set_free_nodes d (fq ++ [n])]> (w_devs w) /\ w_node w0 = <[n := None]> (w_node w)) ->
  exists w', create_sess_error w0 para (Some p) id fd resp = Done (PROCESS_ERROR, None, w') /\ proxy_inv w'.
Proof.
  intros H Hq Hfr Hf Hs Hp Ht He Hdn. pose proof (pi_range _ (pv_pool w H) id) as Hid. rewrite Hq in Hid. specialize (Hid ltac:(by left)).
  destruct (create_sess_error_spec g w0 para p id fd resp) as (w' & E & W1 & W2 & W3 & W4 & _ & W5 & W6); [|done|].
  { destruct (pv_tx w H). split; by rewrite ?Ht, ?He. }
  exists w'. split; [exact E|]. rewrite Hs, delete_insert_eq, delete_id in W1 by done.
  rewrite Hp in W4. unfold pool_with_released in W4. rewrite (proj2 (Z.eqb_neq id 0)) in W4 by lia. rewrite He in W6.
  (* the devices and nodes first, then the id *)
  set (w1 := {| w_sess := w_sess w; w_node := w_node w0; w_devs := w_devs w0; w_pool := w_pool w; w_eng := w_eng w;
                w_last_pos := w_last_pos w; w_tx := w_tx w; w_closed := w_closed w |}).
  assert (proxy_inv w1) as H1.
  { destruct Hdn as [ [Ed En]|(i & d & n & fq & Hi & Hfq & Ed & En)]; [|by apply (inv_rotated w w1 i d n fq)].
    assert (w1 = {| w_sess := w_sess w; w_node := w_node w; w_devs := w_devs w; w_pool := w_pool w; w_eng := w_eng w;
                    w_last_pos := w_last_pos w; w_tx := w_tx w; w_closed := w_closed w |}) as -> by (unfold w1; by rewrite Ed, En).
    by destruct w. }
  apply (inv_undone w1 w' id q H1); try done. apply id_given_back; try done. apply H1.
Qed.

(** malloc failed. *)
Lemma nothing_allocated_keeps w para resp : proxy_inv w -> 0 <= para_frontend_sess_id para < 65536 ->
  exists w', create_sess_error w para None 0 ERROR_SOCKET_FD resp = Done (PROCESS_ERROR, None, w') /\ proxy_inv w'.
Proof.
  intros H Hf. unfold create_sess_error.
  destruct (send_standalone_spec g w (para_frontend_sess_id para) BACKEND_HANDOVER_SESSION_ID (para_ip_version para) SESS_MSG_CREATE resp
    (pv_tx w H) Hf eq_refl) as (st & w1 & -> & tx & -> & Htx & _).
  cbn [mbind outcome_bind fst snd Z.eqb]. eexists. split; [reflexivity|].
  destruct H. split; try done. by apply (pool_inv_frame w).
Qed.

(** *** The device of the request *)

Lemma request_framed dev : framed (fun w => request_device w dev).
Proof.
  intros w r w1. unfold request_device. destruct (dev =? DEV_ID_AUTO_HANDOVER); [apply choose_frame|].
  intros E. by apply (framed_constant (PROCESS_OK, dev)).
Qed.

Lemma inv_last_pos w pos : proxy_inv w -> proxy_inv (with_last_pos w pos).
Proof. intros []. split; try done. by apply (pool_inv_frame w). destruct pv_tx0. by split. Qed.

(** Up to the choice of the device. *)
Lemma create_requested w para env p junk id q st dev pos :
  ce_malloc env = Some (p, junk) -> id_queue (w_pool w) = id :: q -> id <> 0 -> dev_num (w_eng w) <> 0 ->
  request_device w (para_dev_id para) = Done (st, dev, with_last_pos w pos) ->
  high_speed_create_sess_active w para env =
  let w0 := with_last_pos (reserved w p junk q) pos in
  if bool_decide (st = PROCESS_OK) then
    create_sess_socket w0 para env p id dev (fail_resp_status SESS_OP_CODE_NETWORK_UNREACHABLE (ce_junk_code env))
      (fun w fd => create_active_connected w para env p id dev junk fd)
  else create_sess_error w0 para (Some p) id ERROR_SOCKET_FD (fail_resp SESS_OP_CODE_DEVICE_ERROR).
Proof.
  intros Hm Hq Hid Hn Hr. destruct (request_framed _ _ _ _ Hr) as (pos' & Ep & Hf).
  unfold high_speed_create_sess_active. rewrite Hm. cbn [w_pool put_sess with_sess]. rewrite Hq. cbn [allocate_id].
  rewrite (proj2 (Z.eqb_neq _ _) Hid). cbn [w_eng put_sess with_sess with_pool]. rewrite (proj2 (Z.eqb_neq _ _) Hn).
  assert (pos' = pos) as -> by (apply (f_equal w_last_pos) in Ep; by cbn in Ep).
  rewrite Hf by done. cbn [mbind outcome_bind].
  by destruct (bool_decide (st = PROCESS_OK)).
Qed.

(** *** A request for an active device *)

(** Device [i] of the configuration is asked for and active; malloc gives the
    free object [p]; [id] is the next id. *)
Record device_request (w : world) (para : SessMsgPara) (env : create_env) (p : Z) (junk : BackendSession) (id : Z) (q : list Z)
    (i : nat) (d : HighSpeedNetDevice) : Prop := {
  dr_inv : proxy_inv w;
  dr_fsid : 0 <= para_frontend_sess_id para < 65536;
  dr_malloc : ce_malloc env = Some (p, junk);
  dr_fresh : w_sess w !! p = None;
  dr_ids : id_queue (w_pool w) = id :: q;
  dr_dev : para_dev_id para = Z.of_nat i;
  dr_conf : configured w !! i = Some d;
  dr_active : dev_status d = HS_NET_DEV_ACTIVE }.

Section Request.
Context (w : world) (para : SessMsgPara) (env : create_env) (p : Z) (junk : BackendSession) (id : Z) (q : list Z)
  (i : nat) (d : HighSpeedNetDevice) (Hreq : device_request w para env p junk id q i d).

Lemma request_slot : 0 <= para_dev_id para < MAX_HS_DEV_NUM /\ w_devs w !! Z.to_nat (para_dev_id para) = Some d /\
  Z.to_nat (para_dev_id para) = i.
Proof.
  destruct Hreq. destruct (configured_lookup _ _ _ dr_conf0) as [Hlt Hdi]. pose proof (pv_max w dr_inv0) as [Hmax _].
  rewrite dr_dev0, Nat2Z.id. unfold MAX_HS_DEV_NUM. split; [lia|done].
Qed.

Lemma request_ready : ns_id d <> ERROR_NAMESPACE_ID -> create_ready g w para env p junk id q d.
Proof. intros Hn. destruct request_slot as (H1 & H2 & _), Hreq. split; try done; apply dr_inv0. Qed.

Lemma request_dev_num : dev_num (w_eng w) <> 0.
Proof. destruct Hreq. rewrite (pv_num w dr_inv0). pose proof (pv_max w dr_inv0). lia. Qed.

(** The device's free nodes are on none of its session lists. *)
Lemma request_node n fq : free_node_queue d = n :: fq -> (n ∉ proto_queue (para_trans_proto para) d) /\ (n ∉ fq).
Proof.
  intros Hf. destruct Hreq. pose proof (pv_nodup w dr_inv0) as (_ & Hdis & Hnd)%NoDup_app.
  unfold spare_of in Hnd. rewrite (proj1 (concat_update free_node_queue _ i d d dr_conf0)), Hf in Hnd.
  apply NoDup_app in Hnd as (Hnd & _). apply NoDup_cons in Hnd as [Hnf _]. split; [|done]. intros Hq.
  assert (n ∈ sess_nodes d) as Hs. { unfold proto_queue in Hq. apply elem_of_app. destruct (_ =? _); auto. }
  apply (Hdis n); [|apply spare_of_elem; exists i, d; rewrite Hf; split; [done|by left] ].
  unfold nodes_of. rewrite (proj1 (concat_update sess_nodes _ i d d dr_conf0)). apply elem_of_app. by left.
Qed.

Lemma request_error w0 s fd resp :
  w_sess w0 = <[p := s]> (w_sess w) -> w_pool w0 = set_id_queue (w_pool w) q -> w_tx w0 = w_tx w -> w_eng w0 = w_eng w ->
  (w_devs w0 = w_devs w /\ w_node w0 = w_node w) \/
  (exists n fq, free_node_queue d = n :: fq /\ w_devs w0 = <[i := set_free_nodes d (fq ++ [n])]> (w_devs w) /\
     w_node w0 = <[n := None]> (w_node w)) ->
  exists st sess w', create_sess_error w0 para (Some p) id fd resp = Done (st, sess, w') /\ proxy_inv w'.
Proof.
  intros Hs Hp Ht He Hdn. destruct Hreq. destruct (error_keeps w w0 para p s id q fd resp) as (w' & E & Hi); try done.
  - destruct Hdn as [|(n & fq & ?)]; [by left|right]. by exists i, d, n, fq.
  - by exists PROCESS_ERROR, None, w'.
Qed.

(** The device has no free node. *)
Lemma no_node_keeps fd : free_node_queue d = [] ->
  exists st sess w', create_active_connected (reserved w p junk q) para env p id (para_dev_id para) junk fd = Done (st, sess, w') /\
  proxy_inv w'.
Proof.
  intros Hf. destruct request_slot as (Hdev & Hd & _). unfold create_active_connected, HIGH_SPEED_NET_DEV_POP_FREE_SESSION_NODE.
  rewrite (get_dev_lookup _ _ d) by (done || lia). cbn [mbind outcome_bind]. rewrite Hf. cbn [mbind outcome_bind].
  eapply request_error; try reflexivity; [apply insert_insert_eq|by left].
Qed.

(** The transport protocol is neither TCP nor UDP: the node goes back. *)
Lemma bad_proto_keeps fd : node_proto (para_trans_proto para) = false -> (exists n fq, free_node_queue d = n :: fq) ->
  exists st sess w', create_active_connected (reserved w p junk q) para env p id (para_dev_id para) junk fd = Done (st, sess, w') /\
  proxy_inv w'.
Proof.
  intros Hpr (n & fq & Hf). destruct request_slot as (Hdev & Hd & Hi). destruct (request_node n fq Hf) as [_ Hnf].
  assert (i < length (w_devs w))%nat as Hlen by (rewrite <- Hi; by eapply lookup_lt_Some).
  unfold create_active_connected, HIGH_SPEED_NET_DEV_POP_FREE_SESSION_NODE.
  rewrite (get_dev_lookup _ _ d) by (done || lia). cbn [mbind outcome_bind]. rewrite Hf. cbn [mbind outcome_bind].
  unfold HIGH_SPEED_NET_DEV_INSERT_SESSION_NODE, get_node. cbn [w_node put_sess with_sess set_node_sess with_node]. rewrite lookup_insert_eq.
  cbn [mbind outcome_bind proto_type set_sess_node set_link_state common_session]. rewrite Hpr. cbn [mbind outcome_bind].
  rewrite bool_decide_false by done. cbn [negb]. unfold HIGH_SPEED_NET_DEV_PUSH_FREE_SESSION_NODE.
  rewrite (get_dev_lookup _ _ (set_free_nodes d fq)); [|lia|cbn; rewrite Hi; by apply list_lookup_insert_eq].
  cbn [mbind outcome_bind]. rewrite tailq_insert_ok by done. cbn [mbind outcome_bind]. eapply request_error; try reflexivity.
  - cbn. by rewrite !insert_insert_eq.
  - right. exists n, fq. split; [done|]. cbn. by rewrite Hi, list_insert_insert_eq, insert_insert_eq.
Qed.

Lemma remove_last n l : n ∉ l -> remove_first n (l ++ [n]) = l.
Proof.
  induction l as [|x l IH]; cbn; [by rewrite Z.eqb_refl|]. intros [Hx Hl]%not_elem_of_cons.
  destruct (Z.eqb_spec x n) as [->|Hne]; [done|]. by rewrite (IH Hl).
Qed.

Lemma linked_recycled n fq proto : n ∉ proto_queue proto d -> let d' := device_linked d proto n fq in
  set_free_nodes (set_proto_queue proto d' (remove_first n (proto_queue proto d'))) (free_node_queue d' ++ [n]) = set_free_nodes d (fq ++ [n]).
Proof.
  intros Hn d'. unfold d'. rewrite proto_queue_linked, remove_last by done.
  unfold device_linked, set_proto_queue, set_free_nodes, proto_queue. cbn. by destruct (proto =? SESS_UDP_PROTO).
Qed.

(** epoll_ctl fails: the node is recycled. *)
Lemma epoll_refused_keeps fd n fq : ns_id d <> ERROR_NAMESPACE_ID -> ce_socket env = Some fd -> ce_connect env = true ->
  ce_epoll_add env = false -> free_node_queue d = n :: fq -> node_proto (para_trans_proto para) = true ->
  exists st sess w', high_speed_create_sess_active w para env = Done (st, sess, w') /\ proxy_inv w'.
Proof.
  intros Hns Hs Hc He Hf Hpr. destruct (request_node n fq Hf) as [Hnq Hnf]. destruct request_slot as (Hdev & Hd & Hi).
  destruct (create_active_links g w para env p junk id q d fd n fq) as (w4 & -> & E1 & E2 & E3 & E4 & E5 & E6 & _); try done.
  { by apply request_ready. } { apply request_dev_num. }
  assert (i < length (w_devs w))%nat as Hlen by (rewrite <- Hi; by eapply lookup_lt_Some).
  unfold create_active_publish, get_sess. rewrite E1, lookup_insert_eq. cbn [mbind outcome_bind]. rewrite He.
  set (s4 := active_session junk para id fd p n). unfold BACKEND_SESS_REGISTER_EPOLL.
  change (ch_status (net_channel s4)) with EPOLL_REG_STATUS_UNREGISTERED. cbn [Z.eqb orb]. rewrite Z.eqb_refl. cbn [orb].
  rewrite bool_decide_false by done. cbn [negb]. set (s5 := set_channel s4 _).
  destruct (recycle_sess_node_ok (put_sess w4 p s5) (para_dev_id para) n p s5 (device_linked d (para_trans_proto para) n fq))
    as (w6 & s6 & -> & F1 & F2 & F3 & F4 & F5 & F6); cbn [put_sess with_sess w_sess w_node w_devs]; rewrite ?E2, ?E3, ?Hi; try done.
  { apply lookup_insert_eq. } { apply lookup_insert_eq. } { lia. } { by apply list_lookup_insert_eq. }
  { apply bit0_lor1. } { change (proto_type s5) with (para_trans_proto para). rewrite proto_queue_linked. apply elem_of_app. right. by left. }
  cbn [mbind outcome_bind]. eapply request_error.
  - rewrite F1. cbn. by rewrite E1, !insert_insert_eq.
  - by rewrite F2.
  - by rewrite F3.
  - by rewrite F4.
  - right. exists n, fq. split; [done|]. rewrite F5, F6. cbn [put_sess with_sess w_node w_devs]. rewrite E2, E3, Hi, list_insert_insert_eq, insert_insert_eq.
    split; [|done]. f_equal. by apply linked_recycled.
Qed.

(** Nothing fails. *)
Lemma success_keeps fd n fq : ns_id d <> ERROR_NAMESPACE_ID -> ce_socket env = Some fd -> ce_connect env = true ->
  ce_epoll_add env = true -> free_node_queue d = n :: fq -> node_proto (para_trans_proto para) = true ->
  bit0 (state_f2b junk) = false -> bit0 (state_b2f junk) = false -> tx_room g w ->
  exists st sess w', high_speed_create_sess_active w para env = Done (st, sess, w') /\ proxy_inv w'.
Proof.
  intros Hns Hs Hc He Hf Hpr Hb1 Hb2 Hroom. destruct (request_node n fq Hf) as [Hnq _]. destruct request_slot as (_ & _ & Hi).
  pose proof (request_ready Hns) as Hr. pose proof request_dev_num as Hdn. destruct (create_ready_id _ _ _ _ _ _ _ _ _ Hr) as (_ & Hfree & _).
  destruct Hreq.
  destruct (create_active_ok g w para env p junk id q d fd n fq)
    as (w' & s & blk & E & I1 & I2 & I3 & I4 & I5 & I6 & I7 & I8 & I9 & I10 & I11 & I12 & I13 & I14 & I15 & _ & I17 & _ & _ & I18 & I19 & I20); try done.
  exists PROCESS_OK, (Some p), w'. split; [exact E|].
  apply (inv_created w w' i d (para_trans_proto para) n fq id p s); try done.
  - apply I2, dr_inv0.
  - by rewrite I12, Hi.
  - by rewrite I7.
  - unfold sess_ok. rewrite I18, I19, I20. split_and!; done.
Qed.

Lemma socket_keeps :
  (publishes d para env = true -> bit0 (state_f2b junk) = false /\ bit0 (state_b2f junk) = false /\ tx_room g w) ->
  exists st sess w', create_sess_socket (reserved w p junk q) para env p id (para_dev_id para)
    (fail_resp_status SESS_OP_CODE_NETWORK_UNREACHABLE (ce_junk_code env))
    (fun w fd => create_active_connected w para env p id (para_dev_id para) junk fd) = Done (st, sess, w') /\ proxy_inv w'.
Proof.
  intros Hpub. destruct request_slot as (Hdev & Hd & Hi). pose proof request_dev_num as Hdn.
  unfold create_sess_socket. rewrite (get_ns_ok _ _ d) by (done || apply Hreq). cbn [mbind outcome_bind].
  destruct (Z.eqb_spec (ns_id d) ERROR_NAMESPACE_ID) as [Hns|Hns]; [eapply request_error; try reflexivity; by left|].
  destruct (ce_socket env) as [fd|] eqn:Es; [|eapply request_error; try reflexivity; by left].
  destruct (ce_connect env) eqn:Ec; cbn [negb]; [|eapply request_error; try reflexivity; by left].
  destruct (free_node_queue d) as [|n fq] eqn:Ef; [by apply no_node_keeps|].
  destruct (node_proto (para_trans_proto para)) eqn:Epr; [|apply bad_proto_keeps; eauto].
  pose proof (request_ready Hns) as Hr. replace (create_active_connected _ _ _ _ _ _ _ _) with (high_speed_create_sess_active w para env).
  2:{ rewrite (create_active_unfold _ _ _ _ _ _ _ _ _ Hr Hdn). unfold create_sess_socket. rewrite (get_ns_ok _ _ d) by (done || apply Hreq).
      cbn [mbind outcome_bind]. by rewrite (proj2 (Z.eqb_neq _ _) Hns), Es, Ec. }
  unfold publishes in Hpub. rewrite (proj2 (Z.eqb_neq _ _) Hns), Es, Ec, Ef, Epr in Hpub.
  destruct (ce_epoll_add env) eqn:Ee; [|by apply (epoll_refused_keeps fd n fq)].
  destruct Hpub as (B1 & B2 & B3); [done|]. by apply (success_keeps fd n fq).
Qed.

End Request.

(** A creation that meets none of the defects keeps the invariant, whichever
    step fails and whatever malloc left in its memory. *)
Lemma create_keeps w para env : proxy_inv w -> 0 <= para_frontend_sess_id para < 65536 -> create_env_ok w env ->
  create_meets_defect w para env = false ->
  exists st sess w', high_speed_create_sess_active w para env = Done (st, sess, w') /\ proxy_inv w'.
Proof.
  intros H Hf Hm. unfold create_meets_defect. destruct (ce_malloc env) as [ [p junk]|] eqn:Em.
  2:{ intros Hj%negb_false_iff%Z.eqb_eq. unfold high_speed_create_sess_active. rewrite Em, Hj.
      destruct (nothing_allocated_keeps w para (fail_resp SESS_OP_CODE_RESOURCE_INSUFFICIENT) H Hf) as (w' & E & Hi). by exists PROCESS_ERROR, None, w'. }
  specialize (Hm p junk Em). destruct (id_available w H) as (id & q & Hid).
  assert (dev_num (w_eng w) <> 0) as Hdn by (rewrite (pv_num w H); pose proof (pv_max w H); lia).
  assert (id <> 0) as Hid0. { pose proof (pi_range _ (pv_pool w H) id) as Hr. rewrite Hid in Hr. specialize (Hr ltac:(by left)). lia. }
  destruct (request_device w (para_dev_id para)) as [ [ [st dev] w1]| |] eqn:Er; [|done..].
  destruct (request_framed _ _ _ _ Er) as (pos & -> & _). pose proof (inv_last_pos w pos H) as H1.
  rewrite (create_requested w para env p junk id q st dev pos) by done. intros Hdef.
  destruct st; try by (rewrite bool_decide_false by done;
    destruct (error_keeps (with_last_pos w pos) (with_last_pos (reserved w p junk q) pos) para p junk id q ERROR_SOCKET_FD
      (fail_resp SESS_OP_CODE_DEVICE_ERROR)) as (w' & E & Hi); try done; [by left|]; by exists PROCESS_ERROR, None, w').
  rewrite bool_decide_true by done.
  unfold active_device in Hdef. destruct (configured w !! Z.to_nat dev) as [d|] eqn:Hd; [|done].
  destruct (0 <=? dev) eqn:Hdev, (dev_status d =? HS_NET_DEV_ACTIVE) eqn:Hact; try done. cbn [andb] in Hdef.
  apply Z.leb_le in Hdev. apply Z.eqb_eq in Hact.
  apply (socket_keeps (with_last_pos w pos) (on_device para dev) env p junk id q (Z.to_nat dev) d); [split; try done; cbn; lia|].
  intros Epub. change (publishes d (on_device para dev) env) with (publishes d para env) in Epub. rewrite Epub in Hdef. cbn [andb] in Hdef.
  apply orb_false_iff in Hdef as [ [B1 B2]%orb_false_iff Hroom%bool_decide_eq_false]. split_and!; [done|done|].
  destruct (decide (tx_room g w)) as [Hr|]; [exact Hr|tauto].
Qed.

(** ** Operations that leave nodes and ids alone *)

Record calm (w w' : world) : Prop := {
  cm_node : w_node w' = w_node w;
  cm_devs : w_devs w' = w_devs w;
  cm_eng : w_eng w' = w_eng w;
  cm_table : htable (w_pool w') = htable (w_pool w);
  cm_ids : id_queue (w_pool w') = id_queue (w_pool w);
  cm_sess : forall p s, w_sess w !! p = Some s -> exists s', w_sess w' !! p = Some s' /\ same_place s s' /\ frontend_sess_id s' = frontend_sess_id s;
  cm_dom : forall p, is_Some (w_sess w' !! p) -> is_Some (w_sess w !! p) }.

Lemma calm_refl w : calm w w.
Proof. split; try done. intros p s Hs. by exists s. Qed.

Lemma calm_trans w w1 w2 : calm w w1 -> calm w1 w2 -> calm w w2.
Proof.
  intros [A1 A2 A3 A4 A5 A6 A7] [B1 B2 B3 B4 B5 B6 B7]. split; try congruence; [|auto]. intros p s Hs. destruct (A6 p s Hs) as (s1 & H1 & (P1 & P2 & P3 & P4) & F1).
  destruct (B6 p s1 H1) as (s2 & H2 & (Q1 & Q2 & Q3 & Q4) & F2). exists s2. split; [done|]. split; [split_and!|]; congruence.
Qed.

Lemma calm_put w p s s' : w_sess w !! p = Some s -> same_place s s' -> frontend_sess_id s' = frontend_sess_id s -> calm w (put_sess w p s').
Proof.
  intros Hs Hp Hf. split; try done.
  - intros q t Hq. cbn. destruct (decide (p = q)) as [<-|Hne].
    + rewrite lookup_insert_eq. exists s'. by assert (t = s) as -> by congruence.
    + rewrite lookup_insert_ne by done. by exists t.
  - intros q. cbn. destruct (decide (p = q)) as [<-|Hne]; [intros _; by exists s|by rewrite lookup_insert_ne].
Qed.

Lemma calm_link w p dir w' : BACKEND_SESS_LINK_TO_QUEUE w p dir = Done w' -> calm w w'.
Proof.
  unfold BACKEND_SESS_LINK_TO_QUEUE, get_sess. destruct (w_sess w !! p) as [s|] eqn:Hs; [|done]. cbn [mbind outcome_bind].
  destruct (negb (sess_eng s)); [intros [= <-]; apply calm_refl|].
  destruct (_ =? 0); [|intros [= <-]; apply calm_refl]. destruct (tailq_insert _ _) as [q| |]; cbn [mbind outcome_bind]; [|done|done].
  intros [= <-]. eapply calm_trans; [by apply (calm_put w p s (set_state dir s (Z.lor (sess_state dir s) BACKEND_SESS_LINKED_TO_QUEUE))); destruct dir|].
  split; try done; try (by destruct dir). intros x t Hx. by exists t.
Qed.

Lemma calm_keeps w w' : proxy_inv w -> calm w w' -> pool_inv w' -> tx_ok g w' ->
  (forall p s, w_sess w' !! p = Some s -> sess_ok s) -> proxy_inv w'.
Proof.
  intros H [C1 C2 C3 C4 C5 C6 C7] Hp Ht Hok. assert (configured w' = configured w) as Hc by (unfold configured; by rewrite C2).
  split; rewrite ?Hc, ?C1, ?C4; try done; try apply H.
  - unfold ids_accounted. rewrite C4, C5. apply H.
  - by rewrite C3, (pv_num w H).
  - rewrite C2. apply H.
  - intros i d proto n Hi Hpr Hq. destruct (pv_node w H i d proto n Hi Hpr Hq) as (p & s & id & A1 & A2 & A3 & A4 & A5 & A6 & A7).
    destruct (C6 p s A2) as (s' & B1 & (B2 & B3 & B4 & B5) & B6). exists p, s', id. rewrite C1, C4, B3, B4, B5, B6. done.
  - intros p Hp'. by apply (pv_heap w H), C7.
Qed.

Lemma data_calm w bsid len msg off env st w' : backend_proxy_data_msg_process w bsid len msg off env = Done (st, w') -> calm w w'.
Proof.
  unfold backend_proxy_data_msg_process. destruct (_ =? 0); [intros [= <- <-]; apply calm_refl|].
  destruct (high_speed_search_sess w bsid) as [p|]; [|intros [= <- <-]; apply calm_refl].
  destruct (sess_msg_seg_alloc _ _ _ _ _ _) as [seg|]; [|intros [= <- <-]; apply calm_refl].
  destruct (bread _ _ _) as [bytes| |]; [|done|done]. cbn [mbind outcome_bind].
  destruct (bwrite _ _ _) as [d| |]; [|done|done]. cbn [mbind outcome_bind]. unfold get_sess.
  destruct (w_sess w !! p) as [s|] eqn:Hs; [|done]. cbn [mbind outcome_bind].
  destruct (BACKEND_SESS_LINK_TO_QUEUE _ _ _) as [w1| |] eqn:E; [|done|done]. cbn [mbind outcome_bind]. intros [= <- <-].
  eapply calm_trans; [|by apply calm_link in E]. by apply (calm_put w p s).
Qed.

(** ** Messages *)

(** What the create command [msg] asks for, when its sizes agree. *)
Definition requested (msg : list Z) (h : ProxyMsgHeader) (sh : SessMsgHeader) : option SessMsgPara :=
  let para n := match get_sess_para msg 18 n (pmh_frontend_sess_id h) (semh_ip_version sh) with Done para => Some para | _ => None end in
  if negb (pmh_backend_sess_id h =? BACKEND_HANDOVER_SESSION_ID) then None
  else if (semh_ip_version sh =? SESS_IPV4_PROTO) && (semh_payload_len sh =? sizeof_SessParaIPv4) then para 4
  else if (semh_ip_version sh =? SESS_IPV6_PROTO) && (semh_payload_len sh =? sizeof_SessParaIPv6) then para 16
  else None.

(** The defects a session message meets: those of creation, and the closing of
    a session whose [dev_id] names another device. *)
Definition sess_meets_defect (w : world) (msg : list Z) (h : ProxyMsgHeader) (env : msg_env) : bool :=
  match get_SessMsgHeader msg PROXY_MSG_HDR_SIZE with
  | Done sh =>
      if semh_msg_type sh =? SESS_MSG_CREATE then
        match requested msg h sh with Some para => create_meets_defect w para (me_create env) | None => false end
      else if semh_msg_type sh =? SESS_MSG_CLOSE then
        match high_speed_search_sess w (pmh_backend_sess_id h) with Some p => negb (knows_device w p) | None => false end
      else false
  | _ => false
  end.

(** A DATA message that claims more than a full payload is copied from beyond
    the receive buffer. *)
Definition data_meets_defect (w : world) (h : ProxyMsgHeader) (env : msg_env) : bool :=
  bool_decide (is_Some (high_speed_search_sess w (pmh_backend_sess_id h))) && me_seg env && bool_decide (is_Some (me_data env)) &&
  (PROXY_MSG_MAX_SIZE <? pmh_payload_len h).

Definition message_meets_defect (w : world) (msg : list Z) (env : msg_env) : bool :=
  match get_ProxyMsgHeader msg 0 with
  | Done h =>
      if pmh_type h =? PROXY_MSG_TYPE_SESS then sess_meets_defect w msg h env
      else if pmh_type h =? PROXY_MSG_TYPE_DATA then data_meets_defect w h env
      else false
  | _ => false
  end.

(** What processing a message asks of malloc; nothing is asked of the
    message. *)
Record admissible (w : world) (msg : list Z) (env : msg_env) : Prop := {
  ad_create : forall h sh para, get_ProxyMsgHeader msg 0 = Done h -> pmh_type h = PROXY_MSG_TYPE_SESS ->
    get_SessMsgHeader msg PROXY_MSG_HDR_SIZE = Done sh -> requested msg h sh = Some para -> create_env_ok w (me_create env);
  ad_data : forall h d, get_ProxyMsgHeader msg 0 = Done h -> pmh_type h = PROXY_MSG_TYPE_DATA -> me_data env = Some d ->
    blen d = pmh_payload_len h }.

(** A handler returns and the invariant holds again. *)
Definition sess_handled (o : outcome (status * world)) : Prop := exists st w', o = Done (st, w') /\ proxy_inv w'.

Lemma sess_handled_same w st : proxy_inv w -> sess_handled (Done (st, w)).
Proof. intros H. by exists st, w. Qed.

Lemma para_total msg n fsid ipv : received msg -> n = 4 \/ n = 16 -> exists para, get_sess_para msg 18 n fsid ipv = Done para.
Proof.
  intros [Hl _] Hn. unfold HYPERAMP_MSG_HDR_PLUS_MAX_SIZE in Hl. unfold get_sess_para.
  destruct (bget_ok 2 msg 18) as [a ->]; [lia|cbn; lia|]. destruct (bget_ok 2 msg (18 + 2)) as [b ->]; [lia|cbn; lia|].
  destruct (bget_ok 2 msg (18 + 4 + n)) as [c E]; [lia|cbn; lia|]. cbn [mbind outcome_bind]. rewrite bread_ok by lia. cbn [mbind outcome_bind].
  rewrite E. by eexists.
Qed.

Lemma header_fsid_range msg h :
  Forall is_byte msg -> get_ProxyMsgHeader msg 0 = Done h -> 0 <= pmh_frontend_sess_id h < 65536.
Proof.
  intros Hb Hh. unfold get_ProxyMsgHeader in Hh. outcome_inv. apply st_gets_range in Ho; [|done].
  repeat (apply Forall2_cons_inv_l in Ho as (? & ? & ? & Ho & ->)). apply Forall2_nil_inv_l in Ho as ->.
  cbn in Hk. injection Hk as <-. done.
Qed.

(** Creation on request, whatever the sizes claimed. *)
Lemma active_create_keeps w msg h sh env :
  received msg -> proxy_inv w -> get_ProxyMsgHeader msg 0 = Done h -> pmh_backend_sess_id h = BACKEND_HANDOVER_SESSION_ID ->
  (forall para, requested msg h sh = Some para -> create_env_ok w (me_create env) /\ create_meets_defect w para (me_create env) = false) ->
  sess_handled (backend_proxy_sess_msg_process_active_create_ver1 w (pmh_frontend_sess_id h) (semh_ip_version sh)
                  (semh_payload_len sh) msg 18 (me_create env)).
Proof.
  intros Hm H Hh Hb Hdef. unfold backend_proxy_sess_msg_process_active_create_ver1. unfold requested in Hdef.
  rewrite (proj2 (Z.eqb_eq _ _) Hb) in Hdef. cbn [negb] in Hdef.
  assert (forall n ipv para, get_sess_para msg 18 n (pmh_frontend_sess_id h) ipv = Done para ->
    create_env_ok w (me_create env) /\ create_meets_defect w para (me_create env) = false ->
    sess_handled (para ← get_sess_para msg 18 n (pmh_frontend_sess_id h) ipv;
                  r ← high_speed_create_sess_active w para (me_create env); Done (fst (fst r), snd r))) as Hgo.
  { intros n ipv para Hp [Henv Hd]. rewrite Hp, bind_done. destruct (create_keeps w para (me_create env) H) as (st & s & w' & -> & H'); [|done|done|].
    - assert (para_frontend_sess_id para = pmh_frontend_sess_id h) as -> by (unfold get_sess_para in Hp; outcome_inv; by simplify_eq). apply (header_fsid_range msg); [apply Hm|done].
    - by exists st, w'. }
  destruct (Z.eqb_spec (semh_ip_version sh) SESS_IPV4_PROTO) as [E4|E4]; cbn [andb] in Hdef.
  { destruct (semh_payload_len sh =? sizeof_SessParaIPv4) eqn:El; [|by apply sess_handled_same]. cbn [negb]. rewrite E4 in *.
    destruct (para_total msg 4 (pmh_frontend_sess_id h) SESS_IPV4_PROTO Hm) as [para Hp]; [tauto|]. rewrite Hp in Hdef. by eapply Hgo; eauto. }
  destruct (Z.eqb_spec (semh_ip_version sh) SESS_IPV6_PROTO) as [E6|E6]; [|by apply sess_handled_same]. cbn [andb] in Hdef.
  destruct (semh_payload_len sh =? sizeof_SessParaIPv6) eqn:El; [|by apply sess_handled_same]. cbn [negb]. rewrite E6 in *.
  destruct (para_total msg 16 (pmh_frontend_sess_id h) SESS_IPV6_PROTO Hm) as [para Hp]; [tauto|]. rewrite Hp in Hdef. by eapply Hgo; eauto.
Qed.

(** A response to a creation is refused: no session of the table was accepted
    from the network. *)
Lemma passive_response_refused w bsid ok : proxy_inv w ->
  backend_proxy_sess_msg_process_passive_create_ver1 w bsid ok = Done (PROCESS_ERROR, w).
Proof.
  intros H. unfold backend_proxy_sess_msg_process_passive_create_ver1. case_match; [done|].
  destruct (high_speed_search_sess w bsid) as [p|] eqn:E; [|done]. destruct (pi_table _ (pv_pool _ H) _ _ E) as (_ & s & Hs & _).
  unfold get_sess. rewrite Hs. cbn [mbind outcome_bind]. destruct (pv_sess _ H _ _ Hs) as (_ & _ & ->). done.
Qed.

Lemma sess_message_keeps w msg h env :
  received msg -> proxy_inv w -> get_ProxyMsgHeader msg 0 = Done h ->
  (forall sh para, get_SessMsgHeader msg PROXY_MSG_HDR_SIZE = Done sh -> requested msg h sh = Some para -> create_env_ok w (me_create env)) ->
  sess_meets_defect w msg h env = false ->
  sess_handled (backend_proxy_sess_msg_process w (pmh_frontend_sess_id h) (pmh_backend_sess_id h) msg PROXY_MSG_HDR_SIZE env).
Proof.
  intros Hm H Hh. unfold backend_proxy_sess_msg_process, sess_meets_defect, get_SessMsgHeader.
  destruct (words_total msg PROXY_MSG_HDR_SIZE Hm) as [ws Hw]; [by vm_compute|]. rewrite Hw, !bind_done. intros Ha Hdef.
  destruct (_ && _); [by apply sess_handled_same|]. destruct (_ =? PROXY_PROTO_SESS_VERSION_1); [|by apply sess_handled_same].
  change (PROXY_MSG_HDR_SIZE + sizeof_SessMsgHeader) with 18. unfold backend_proxy_sess_msg_process_ver1.
  destruct (_ || _); [by apply sess_handled_same|]. destruct (semh_msg_type (sess_hdr ws) =? SESS_MSG_CREATE).
  - destruct (Z.eqb_spec (pmh_backend_sess_id h) BACKEND_HANDOVER_SESSION_ID) as [Hb|]; cbn [negb].
    + apply active_create_keeps; try done. intros para Hp. rewrite Hp in Hdef. split; [by eapply Ha|done].
    + destruct (negb _); [by apply sess_handled_same|]. rewrite passive_response_refused by done. by apply sess_handled_same.
  - destruct (semh_msg_type (sess_hdr ws) =? SESS_MSG_CLOSE); [|by apply sess_handled_same]. unfold backend_proxy_sess_msg_process_close_ver1, high_speed_search_sess in *.
    destruct (htable (w_pool w) !! pmh_backend_sess_id h) as [p|] eqn:Hid; [|by apply sess_handled_same].
    destruct (delete_keeps w _ p (me_epoll env) H Hid) as (w' & -> & H'); [by apply negb_false_iff|]. by exists PROCESS_OK, w'.
Qed.

Lemma data_message_keeps w msg h env :
  received msg -> proxy_inv w -> get_ProxyMsgHeader msg 0 = Done h -> pmh_type h = PROXY_MSG_TYPE_DATA ->
  (forall d, me_data env = Some d -> blen d = pmh_payload_len h) -> data_meets_defect w h env = false ->
  sess_handled (backend_proxy_data_msg_process w (pmh_backend_sess_id h) (pmh_payload_len h) msg PROXY_MSG_HDR_SIZE env).
Proof.
  intros Hm H Hh Ht Hd Hdef. pose proof (txo_pool _ _ (pv_tx _ H)) as Hpool. unfold data_meets_defect in Hdef.
  destruct (high_speed_search_sess w (pmh_backend_sess_id h)) as [p|] eqn:Hid.
  2:{ unfold backend_proxy_data_msg_process. rewrite Hid. case_match; by apply sess_handled_same. }
  destruct (me_seg env) eqn:Eseg, (me_data env) as [d|] eqn:Ed;
    try (unfold backend_proxy_data_msg_process; rewrite Hid, Eseg, ?Ed, (proj2 (Z.eqb_neq _ _) Hpool); by apply sess_handled_same).
  cbn [andb] in Hdef. rewrite !bool_decide_true in Hdef by done. apply Z.ltb_ge in Hdef as Hlen.
  destruct (pi_table _ (pv_pool _ H) _ _ Hid) as (_ & s & Hs & _).
  set (x := {| px_world := w; px_iot := {| backend_bluetooth_sess := None; backend_can_sess := None; backend_zigbee_sess := None;
               backend_lora_sess := None; backend_powerlink_sess := None; backend_modbustcp_sess := None |}; px_out := [] |}).
  destruct (data_message_spec x msg env h p s d) as (w' & s' & bytes & E & _ & Hw' & Hf' & _ & Hi & _ & Htx & He & Hb' & Hm' & _);
    try done; [apply (pv_pool _ H)|by apply Hd|].
  rewrite (dispatch_data x msg env h) in E by done. cbn [px_world x] in *.
  destruct (backend_proxy_data_msg_process w _ _ _ _ _) as [ [st w1]| |] eqn:Eb; [|discriminate E|discriminate E].
  cbn in E. injection E as -> ->. exists PROCESS_OK, w'. split; [done|]. apply data_calm in Eb. apply (calm_keeps w); try done.
  - destruct (pv_tx _ H). split; by rewrite ?Htx, ?He.
  - intros q t. rewrite Hw'. intros [ [<- <-]|[_ Hq] ]%lookup_insert_Some; [|by eapply (pv_sess _ H)].
    destruct (pv_sess _ H _ _ Hs) as (H1 & H2 & H3). unfold sess_ok. rewrite Hf', Hb', Hm'. split; [|done].
    apply Forall_app. split; [done|]. apply Forall_singleton. intros d' [= <-]. cbn. lia.
Qed.

Lemma dev_total msg : received msg -> exists st, backend_proxy_dev_msg_process msg PROXY_MSG_HDR_SIZE = Done st.
Proof.
  intros Hm. unfold backend_proxy_dev_msg_process, get_DevMsgHeader. destruct (words_total msg PROXY_MSG_HDR_SIZE Hm) as [ws ->]; [by vm_compute|].
  cbn [mbind outcome_bind]. repeat case_match; by eexists.
Qed.

Lemma strgy_total msg : received msg -> exists st, backend_proxy_strgy_msg_process msg PROXY_MSG_HDR_SIZE = Done st.
Proof.
  intros Hm. unfold backend_proxy_strgy_msg_process, get_StrgyMsgHeader. destruct (words_total msg PROXY_MSG_HDR_SIZE Hm) as [ws ->]; [by vm_compute|].
  cbn [mbind outcome_bind]. repeat case_match; by eexists.
Qed.

(** The whole backend. *)
Definition backend_inv (x : proxy) : Prop := proxy_inv (px_world x) /\ iot_ready (px_iot x).

Definition handled (o : outcome (status * proxy)) : Prop := exists st x', o = Done (st, x') /\ backend_inv x'.

Lemma on_world_handled x r : iot_ready (px_iot x) -> sess_handled r -> handled (on_world x r).
Proof. intros Hi (st & w' & -> & H). by exists st, (with_world x w'). Qed.

(** Every received message that meets no defect is handled. *)
Lemma message_keeps x msg env : backend_inv x -> received msg -> admissible (px_world x) msg env ->
  message_meets_defect (px_world x) msg env = false -> handled (backend_proxy_msg_process x msg env).
Proof.
  intros [H Hi] Hm [Hc Ha]. assert (forall st, handled (Done (st, x))) as Hsame by (intros st; by exists st, x).
  unfold backend_proxy_msg_process, message_meets_defect. destruct (header_total msg Hm) as [h Hh]. rewrite Hh, bind_done. intros Hdef.
  assert (pmh_type h = PROXY_MSG_TYPE_SESS -> sess_meets_defect (px_world x) msg h env = false) as Hsess by (intros E; by rewrite E in Hdef).
  assert (pmh_type h = PROXY_MSG_TYPE_DATA -> data_meets_defect (px_world x) h env = false) as Hdata by (intros E; by rewrite E in Hdef).
  clear Hdef.
  destruct (negb _); [done|]. destruct (negb _); [done|].
  destruct (Z.eqb_spec (pmh_type h) PROXY_MSG_TYPE_DEV); [case_match; [done|]; destruct (dev_total msg Hm) as [st ->]; apply Hsame|].
  destruct (Z.eqb_spec (pmh_type h) PROXY_MSG_TYPE_STRGY); [case_match; [done|]; destruct (strgy_total msg Hm) as [st ->]; apply Hsame|].
  destruct (Z.eqb_spec (pmh_type h) PROXY_MSG_TYPE_SESS) as [Ht|]; [apply on_world_handled, sess_message_keeps; eauto|].
  destruct (Z.eqb_spec (pmh_type h) PROXY_MSG_TYPE_DATA) as [Ht|]; [case_match; [done|]; apply on_world_handled, data_message_keeps; eauto|].
  case_match; [|done]. destruct (iot_message_total x (pmh_payload_len h) msg env Hm Hi) as (st & x' & -> & Hw & Hi').
  exists st, x'. split; [done|]. split; [by rewrite Hw|done].
Qed.

End Invariant.

