(* ===== verification/Turn.v ===== *)
(** * Turn: a turn of the event loop keeps the invariant

    [engine_turn] under [backend_inv]: the receive loop with any mixture of
    messages, the walks over the work queues, the socket events and the IoT
    polls all return and keep the invariant, unless the turn meets one of the
    defects that [turn_meets_defect] decides. *)

From S2P Require Import Prelude Bytes Mem HyperampQueue HyperampQueueLemmas HyperampQueueSpec HyperampLinux ByteStore Message Build BuildSpec Session Device Responses SessionPool SessionPoolSpec SessionData SessionDataSpec Iot Proto ProtoSpec IotMessages Engine EngineSpec Channel IotPolls Lifecycle.
From stdpp Require Import base list numbers option gmap.
From Stdlib Require Import ZArith Lia.
#[local] Open Scope Z_scope.

Section Turn.
Context (g gr : geometry) (nd : nat) (N : gmap Z (option Z)).
Context (Htwin : twin_rings g gr) (Hbase : g_base g <> 0) (Hbs : g_bs g = HYPERAMP_MSG_HDR_PLUS_MAX_SIZE).

Abbreviation inv := (proxy_inv g nd N).

(** ** Small steps under the invariant *)

Lemma inv_put w p s s' : inv w -> w_sess w !! p = Some s -> same_place s s' -> frontend_sess_id s' = frontend_sess_id s ->
  same_key s s' -> sess_ok g s' -> inv (put_sess w p s').
Proof using Type.
  intros H Hs Hp Hf Hk Hok. apply (calm_keeps g nd N w); [done|by apply (calm_put w p s)|by apply (pool_inv_put_same w p s); [..|apply H]| |].
  - destruct (pv_tx _ _ _ _ H). by split.
  - intros q t. cbn. intros [ [<- <-]|[_ Hq] ]%lookup_insert_Some; [done|by eapply (pv_sess _ _ _ _ H)].
Qed.

Lemma inv_tx w t : inv w -> tx_ok g (with_tx w t) -> inv (with_tx w t).
Proof using Type.
  intros H Ht. apply (calm_keeps g nd N w); [done| |apply (pool_inv_frame w); [done..|apply H]|done|exact (pv_sess _ _ _ _ H)].
  split; try done. intros p s Hs. by exists s.
Qed.

Lemma calm_tx w t : calm w (with_tx w t).
Proof using Type. split; try done. intros p s Hs. by exists s. Qed.

Lemma calm_retire w p dir w' : retire_sess w p dir = Done w' -> calm w w'.
Proof using Type.
  unfold retire_sess, dequeue_sess. intros E. outcome_inv. subst. unfold get_sess in Ho0. cbn in Ho0. destruct (w_sess w !! p) as [s|] eqn:Hs; [|discriminate Ho0].
  injection Ho0 as <-. eapply calm_trans; [|eapply calm_put; [exact Hs|by destruct dir..] ].
  split; try done; try (by destruct dir). intros q t Ht. by exists t.
Qed.

(** What the walks leave alone. *)
Record kept_by (w w' : world) : Prop := {
  kb_inv : inv w';
  kb_calm : calm w w' }.

Lemma kept_refl w : inv w -> kept_by w w.
Proof using Type. intros H. split; [done|apply calm_refl]. Qed.

Lemma kept_trans w w1 w2 : kept_by w w1 -> kept_by w1 w2 -> kept_by w w2.
Proof using Type. intros [_ H1] [H2 H3]. split; [done|by eapply calm_trans]. Qed.

Lemma queued_session w dir p : inv w -> p ∈ pool_queue dir (w_pool w) ->
  exists id s, htable (w_pool w) !! id = Some p /\ w_sess w !! p = Some s /\ sess_ok g s /\ sess_ids_ok s.
Proof using Type.
  intros H (id & s & Hid & Hs & _)%(pi_queue _ (pv_pool _ _ _ _ H)). exists id, s. split; [done|]. split; [done|].
  split; [by eapply (pv_sess _ _ _ _ H)|]. destruct (session_placed _ _ _ _ _ _ H Hid) as (i & d & proto & n & _ & _ & _ & s' & id' & _ & Hs' & _ & _ & _ & _ & Hf).
  assert (s' = s) as -> by congruence. split; [done|]. destruct (pi_table _ (pv_pool _ _ _ _ H) _ _ Hid) as (Hr & t & Ht & Hb & _).
  assert (t = s) as -> by congruence. lia.
Qed.

Lemma retire_keeps w p dir : inv w -> p ∈ pool_queue dir (w_pool w) ->
  exists w', retire_sess w p dir = Done w' /\ kept_by w w' /\ (forall q, q ∈ pool_queue dir (w_pool w') <-> q ∈ pool_queue dir (w_pool w) /\ q <> p) /\
  (forall q, q <> p -> w_sess w' !! q = w_sess w !! q) /\ w_tx w' = w_tx w.
Proof using Type.
  intros H Hp. destruct (queued_session w dir p H Hp) as (id & s & _ & Hs & Hok & _).
  destruct (retire_spec w p s dir (pv_pool _ _ _ _ H) Hs Hp) as (w' & v & E & Hi & Hw & Hq & Ht & He).
  exists w'. split; [done|]. pose proof (calm_retire _ _ _ _ E) as Hc. split; [split; [|done] |].
  - apply (calm_keeps g nd N w); try done.
    + destruct (pv_tx _ _ _ _ H). split; by rewrite ?Ht, ?He.
    + intros q t. rewrite Hw. intros [ [<- <-]|[_ Hq'] ]%lookup_insert_Some; [by destruct dir|by eapply (pv_sess _ _ _ _ H)].
  - split; [done|]. split; [|done]. intros q Hne. rewrite Hw. by apply lookup_insert_ne.
Qed.

(** ** Step 2 *)

(** The socket of session [p] fails: the session is taken off the queue with
    its flag still set, and its deletion takes it off again (engine.c:3392). *)
Definition f2b_fails (env : Z -> f2b_env) (w : world) (p : Z) : bool :=
  match w_sess w !! p with Some s => bool_decide (f2b_status (env p) (msg_f2b s) = PROCESS_ERROR) | None => false end.

Definition f2b_fine (env : Z -> f2b_env) (w : world) (p : Z) : Prop :=
  forall s, w_sess w !! p = Some s -> f2b_status (env p) (msg_f2b s) <> PROCESS_ERROR.

Lemma f2b_fails_fine env w p : f2b_fails env w p = false -> f2b_fine env w p.
Proof using Type. unfold f2b_fails. intros H s Hs. rewrite Hs in H. by apply bool_decide_eq_false in H. Qed.

Lemma f2b_process_keeps env w p s : inv w -> w_sess w !! p = Some s -> f2b_fine env w p ->
  exists sent q, high_speed_data_process_f2b w p (fe_sndbuf (env p)) (fe_send (env p)) =
    Done (f2b_status (env p) (msg_f2b s), sent, put_sess w p (set_msgs F2B s q)) /\ kept_by w (put_sess w p (set_msgs F2B s q)).
Proof using Type.
  intros H Hs Hne. specialize (Hne s Hs). destruct (pv_sess _ _ _ _ H _ _ Hs) as (H1 & H2 & H3).
  unfold high_speed_data_process_f2b, get_sess, f2b_status in *. rewrite Hs. cbn [mbind outcome_bind].
  destruct (fe_sndbuf (env p)) as [b|]; [|done].
  destruct (f2b_loop_spec (fe_send (env p)) (msg_f2b s) 0 b H1) as (st & q & sent & dn & -> & Eq & _). cbn [mbind outcome_bind].
  exists sent, q. split; [done|]. split; [|by apply (calm_put w p s)]. apply (inv_put w p s); try done. split; [|done].
  rewrite Eq in H1. by apply Forall_app in H1 as [_ H1].
Qed.

Lemma f2b_walk_keeps env todo : forall w, inv w -> NoDup todo -> (forall p, p ∈ todo -> (p ∈ queue_f2b (w_pool w)) /\ f2b_fine env w p) ->
  exists w', engine_f2b_walk env todo w = Done w' /\ kept_by w w'.
Proof using Type.
  induction todo as [|p todo IH]; intros w H Hnd Hall; [exists w; split; [done|by apply kept_refl]|].
  apply NoDup_cons in Hnd as [Hp Hnd]. destruct (Hall p ltac:(left)) as [Hpq Hfine].
  destruct (queued_session w F2B p H Hpq) as (id & s & _ & Hs & _ & _).
  destruct (f2b_process_keeps env w p s H Hs Hfine) as (sent & q & Ef & Hk1). cbn [engine_f2b_walk]. rewrite Ef. cbn [mbind outcome_bind].
  set (w1 := put_sess w p _) in *. assert (forall r, r <> p -> w_sess w1 !! r = w_sess w !! r) as Hother1 by (intros; by apply lookup_insert_ne).
  assert (exists w2, match f2b_status (env p) (msg_f2b s) with PROCESS_OK => w2 ← retire_sess w1 p F2B; engine_f2b_walk env todo w2
            | PROCESS_ERROR => w2 ← drop_sess w1 p F2B (fe_epoll (env p)); engine_f2b_walk env todo w2 | PROCESS_AGAIN => engine_f2b_walk env todo w1 end
            = engine_f2b_walk env todo w2 /\ kept_by w w2 /\ forall r, r <> p -> w_sess w2 !! r = w_sess w !! r /\ (r ∈ queue_f2b (w_pool w2) <-> r ∈ queue_f2b (w_pool w))) as (w2 & -> & Hk2 & Hr).
  { destruct (f2b_status (env p) (msg_f2b s)) eqn:Est; [|by destruct (Hfine s Hs)|exists w1; split; [done|]; split; [done|]; intros r Hr; by rewrite Hother1].
    destruct (retire_keeps w1 p F2B (kb_inv _ _ Hk1) Hpq) as (w2 & -> & Hk2 & Hq2 & Ho2 & _). exists w2. split; [done|]. split; [by eapply kept_trans|].
    intros r Hr. rewrite Ho2, Hother1 by done. split; [done|]. cbn [pool_queue] in Hq2. rewrite Hq2. tauto. }
  destruct (IH w2 (kb_inv _ _ Hk2) Hnd) as (w' & E & Hk').
  { intros r Hrt. assert (r <> p) as Hne by (intros ->; done). destruct (Hall r ltac:(by right)) as [Hrq Hrf]. destruct (Hr r Hne) as [E1 E2].
    split; [by apply E2|]. intros t. rewrite E1. apply Hrf. }
  exists w'. split; [done|by eapply kept_trans].
Qed.

(** ** Step 4 *)

Lemma b2f_process_keeps w p s : inv w -> w_sess w !! p = Some s ->
  exists st q m, let w' := with_tx (put_sess w p (set_msgs B2F s q)) (with_tx_mem (w_tx w) m) in
  high_speed_data_process_b2f w p = Done (st, w') /\ st <> PROCESS_ERROR /\ kept_by w w'.
Proof using Hbase.
  intros H Hs. destruct (pv_tx _ _ _ _ H) as [Tw Tq Tb Tp Ts]. destruct (pv_sess _ _ _ _ H _ _ Hs) as (H1 & H2 & H3).
  unfold high_speed_data_process_b2f, get_sess. rewrite Hs. cbn [mbind outcome_bind].
  destruct (b2f_loop_spec g _ Tq Tb) with (segs := msg_b2f s) (m := tx_mem (w_tx w)) as (m' & blks & -> & Hw' & _); [by rewrite <- Tb|done|done|].
  cbn [mbind outcome_bind]. eexists _, _, m'. split; [reflexivity|]. split; [by case_decide|].
  assert (inv (put_sess w p (set_msgs B2F s (drop (tx_space g (tx_mem (w_tx w))) (msg_b2f s))))) as H'.
  { apply (inv_put w p s); try done. split; [done|]. split; [by apply Forall_drop|done]. }
  split; [apply inv_tx; [done|by split]|]. eapply calm_trans; [eapply (calm_put w p s (set_msgs B2F s (drop (tx_space g (tx_mem (w_tx w))) (msg_b2f s)))); done|apply calm_tx].
Qed.

Lemma b2f_walk_keeps ep todo : forall w, inv w -> NoDup todo -> (forall p, p ∈ todo -> p ∈ queue_b2f (w_pool w)) ->
  exists w', engine_b2f_walk ep todo w = Done w' /\ kept_by w w'.
Proof using Hbase.
  induction todo as [|p todo IH]; intros w H Hnd Hall; [exists w; split; [done|by apply kept_refl]|].
  apply NoDup_cons in Hnd as [Hp Hnd]. pose proof (Hall p ltac:(left)) as Hpq.
  destruct (queued_session w B2F p H Hpq) as (id & s & _ & Hs & _ & _).
  destruct (b2f_process_keeps w p s H Hs) as (st & q & m & Ef & Hst & Hk1). cbn [engine_b2f_walk]. rewrite Ef. cbn [mbind outcome_bind].
  set (w1 := with_tx _ _) in *. destruct st; [|done|by exists w1].
  destruct (retire_keeps w1 p B2F (kb_inv _ _ Hk1) Hpq) as (w2 & -> & Hk2 & Hq2 & _). cbn [mbind outcome_bind].
  destruct (IH w2 (kb_inv _ _ Hk2) Hnd) as (w' & E & Hk').
  { intros r Hrt. cbn [pool_queue] in Hq2. apply Hq2. split; [by apply (Hall r); right|by intros ->]. }
  exists w'. split; [done|]. eapply kept_trans; [by eapply kept_trans|done].
Qed.

(** ** Step 3 *)

(** The reads of an event end: each brings at most a full message, and they go
    on until the announced bytes are covered, malloc fails or read fails. *)
Fixpoint reads_end (avail : Z) (reads : list read_env) : Prop :=
  avail <= 0 \/
  match reads with
  | [] => False
  | e :: reads =>
      match sess_msg_seg_alloc (re_seg e) (re_data e) PROXY_MSG_HDR_PLUS_MAX_SIZE SESS_MSG_SEG_DYNAMIC_ALLOC None 0 with
      | None => True
      | Some _ => match re_read e with None => True | Some data => chunk_fits data /\ reads_end (avail - blen data) reads end
      end
  end.

Definition buffers_fresh (reads : list read_env) : Prop := Forall (fun e => forall d, re_data e = Some d -> fresh_buffer d) reads.

Lemma nns_loop_runs reads : forall avail s, sess_ids_ok s -> buffers_fresh reads -> reads_end avail reads ->
  exists early segs, nns_loop reads avail s = Done (early, set_msgs B2F s (msg_b2f s ++ segs)) /\ Forall (seg_ready g) segs.
Proof using Hbs.
  induction reads as [|e reads IH]; intros avail s Hids Hb He.
  { destruct He as [He|[] ]. exists None, []. unfold nns_loop. rewrite (proj2 (Z.leb_le avail 0)) by done. rewrite app_nil_r. by destruct s. }
  apply Forall_cons_1 in Hb as [Hb1 Hb]. cbn [nns_loop]. destruct (Z.leb_spec avail 0) as [|Hav].
  { exists None, []. rewrite app_nil_r. by destruct s. }
  destruct He as [He|He]; [lia|]. destruct (sess_msg_seg_alloc _ _ _ _ _ _) as [sg|] eqn:Ea.
  2:{ exists (Some PROCESS_AGAIN), []. rewrite app_nil_r. by destruct s. }
  destruct (re_read e) as [data|]; [|exists (Some PROCESS_ERROR), []; rewrite app_nil_r; by destruct s].
  destruct He as [Hc He]. unfold sess_msg_seg_alloc in Ea. destruct (negb (re_seg e)); [done|]. destruct (re_data e) as [d|]; [|done].
  injection Ea as <-. cbn [seg_data default]. unfold id. destruct (Hb1 d eq_refl) as [Hdl Hdb].
  destruct (nns_segment_spec s d data Hids Hdl Hdb Hc) as (seg & -> & Hseg). cbn [mbind outcome_bind].
  destruct (IH (avail - blen data) (SESS_MSG_SEG_INSERT_QUEUE s seg B2F)) as (early & segs & -> & Hf); try done.
  exists early, (seg :: segs). unfold SESS_MSG_SEG_INSERT_QUEUE. rewrite set_msgs_msgs. cbn [sess_msgs msg_b2f set_msgs].
  rewrite <- app_assoc. split; [done|]. constructor; [|done]. eapply (data_segment_ready g s data); [rewrite Hbs; done|done|done].
Qed.

(** An event of a session of the pool whose reads end. *)
Definition event_ok (w : world) (e : poll_event) : Prop :=
  is_Some (w_sess w !! pe_sess e) /\ buffers_fresh (pe_reads e) /\ forall n, pe_ioctl e = Some n -> reads_end n (pe_reads e).

Lemma nns_keeps w e : inv w -> event_ok w e ->
  exists st w', high_speed_data_process_nns w (pe_sess e) (pe_ioctl e) (pe_reads e) = Done (st, w') /\ kept_by w w'.
Proof using Hbs.
  intros H ([s Hs] & Hb & Hr). set (p := pe_sess e) in *. destruct (pv_heap _ _ _ _ H p) as [id Hid]; [by exists s|].
  unfold high_speed_data_process_nns, get_sess. rewrite Hs. cbn [mbind outcome_bind].
  destruct (pe_ioctl e) as [n|]; [|exists PROCESS_ERROR, w; split; [done|by apply kept_refl] ].
  assert (sess_ids_ok s) as Hids.
  { destruct (session_placed _ _ _ _ _ _ H Hid) as (i & d & proto & k & _ & _ & _ & s' & id' & _ & Hs' & _ & _ & _ & _ & Hf).
    assert (s' = s) as -> by congruence. split; [done|]. destruct (pi_table _ (pv_pool _ _ _ _ H) _ _ Hid) as (Hrg & t & Ht & Hbk & _).
    assert (t = s) as -> by congruence. lia. }
  destruct (nns_loop_runs (pe_reads e) n s Hids Hb (Hr n eq_refl)) as (early & segs & -> & Hsegs). cbn [mbind outcome_bind].
  set (s1 := set_msgs B2F s _). destruct (pv_sess _ _ _ _ H _ _ Hs) as (H1 & H2 & H3).
  assert (kept_by w (put_sess w p s1)) as Hk.
  { split; [|by apply (calm_put w p s)]. apply (inv_put w p s); try done. split; [done|]. split; [|done]. by apply Forall_app. }
  destruct early as [st|]; [by exists st, (put_sess w p s1)|].
  destruct (link_spec (put_sess w p s1) p s1 id B2F) as (w' & E & Hi' & _ & _ & [v Hs'] & Ht & He); [apply (kb_inv _ _ Hk)|done|apply lookup_insert_eq|].
  rewrite E. cbn [mbind outcome_bind]. exists PROCESS_OK, w'. split; [done|]. eapply kept_trans; [exact Hk|].
  apply calm_link in E. split; [|done]. apply (calm_keeps g nd N (put_sess w p s1)); [apply Hk|done|done| |].
  - destruct (pv_tx _ _ _ _ (kb_inv _ _ Hk)). split; by rewrite ?Ht, ?He.
  - intros q t. rewrite Hs'. intros [ [<- <-]|[_ Hq] ]%lookup_insert_Some; [|by eapply (pv_sess _ _ _ _ (kb_inv _ _ Hk))].
    split; [done|]. split; [|done]. by apply Forall_app.
Qed.

Lemma event_ok_calm w w' e : calm w w' -> event_ok w e -> event_ok w' e.
Proof using Type. intros Hc ([s Hs] & H). split; [|done]. destruct (cm_sess _ _ Hc _ _ Hs) as (s' & Hs' & _). by exists s'. Qed.

Lemma poller_keeps events : forall w, inv w -> Forall (event_ok w) events -> exists w', poller_events events w = Done w' /\ kept_by w w'.
Proof using Hbs.
  induction events as [|e events IH]; intros w H Hall; [exists w; split; [done|by apply kept_refl]|].
  apply Forall_cons_1 in Hall as [He Hall]. cbn [poller_events]. case_match; [by apply IH|].
  pose proof He as ([s Hs] & _). unfold get_sess at 1. rewrite Hs. cbn [mbind outcome_bind]. case_match; [|by apply IH].
  destruct (nns_keeps w e H He) as (st & w1 & -> & Hk1). cbn [mbind outcome_bind snd].
  destruct (IH w1 (kb_inv _ _ Hk1)) as (w' & -> & Hk'); [|exists w'; split; [done|by eapply kept_trans] ].
  eapply Forall_impl; [exact Hall|]. intros e'. apply event_ok_calm, Hk1.
Qed.

(** ** Step 5 *)

Record iot_ends (env : iot_env) (i : iot_sessions) : Prop := {
  ie_bt_ends : forall s, backend_bluetooth_sess i = Some s -> polls_end BluetoothDriver (ie_bluetooth env) s;
  ie_can_ends : forall s, backend_can_sess i = Some s -> polls_end CanDriver (ie_can env) s;
  ie_mb_ends : forall s, backend_modbustcp_sess i = Some s -> polls_end ModbusTcpDriver (ie_modbus env) s }.

Lemma iot_poll_keeps proto d envs sess x :
  backend_inv g nd N x -> driver_of proto d -> (forall s, sess = Some s -> driven d s /\ polls_end d envs s) ->
  exists x', iot_poll proto envs sess x = Done x' /\ backend_inv g nd N x' /\ calm (px_world x) (px_world x') /\
  (proto <> IOT_PROTO_TYPE_BLUETOOTH -> backend_bluetooth_sess (px_iot x') = backend_bluetooth_sess (px_iot x)) /\
  (proto <> IOT_PROTO_TYPE_CAN -> backend_can_sess (px_iot x') = backend_can_sess (px_iot x)) /\
  (proto <> IOT_PROTO_TYPE_MODBUSTCP -> backend_modbustcp_sess (px_iot x') = backend_modbustcp_sess (px_iot x)).
Proof using Hbs.
  intros [H Hi] Hd Hs. unfold iot_poll. destruct sess as [s|]; [|exists x; split; [done|]; split; [done|]; split; [apply calm_refl|done] ].
  destruct (Hs s eq_refl) as [Hdr He]. destruct (pv_tx _ _ _ _ H) as [Tw Tq Tb Tp Ts].
  destruct (iot_run_ends g _ Tq Tb Tp Hbs proto d envs Hd s (w_tx (px_world x)) Hdr He Tw) as (s' & tx & -> & Hdr' & Hw). cbn [mbind outcome_bind fst snd].
  eexists. split; [reflexivity|]. split; [split|].
  - apply inv_tx; [done|by split].
  - by apply (set_iot_ready x proto d s' None).
  - split; [apply calm_tx|]. cbn. split; [|split]; intros Hp; by rewrite (proj2 (Z.eqb_neq _ _) Hp).
Qed.

Lemma iot_dev_keeps env x : backend_inv g nd N x -> iot_ends env (px_iot x) ->
  exists x', engine_iot_dev_run env x = Done x' /\ backend_inv g nd N x' /\ calm (px_world x) (px_world x').
Proof using Hbs.
  intros H [E1 E2 E3]. unfold engine_iot_dev_run.
  destruct (iot_poll_keeps IOT_PROTO_TYPE_BLUETOOTH BluetoothDriver (ie_bluetooth env) (backend_bluetooth_sess (px_iot x)) x H) as (x1 & -> & H1 & C1 & _ & F1 & G1); [by left| |].
  { intros s Hs. split; [by apply (ir_bluetooth _ (proj2 H))|by apply E1]. }
  cbn [mbind outcome_bind]. specialize (F1 ltac:(done)). specialize (G1 ltac:(done)).
  destruct (iot_poll_keeps IOT_PROTO_TYPE_CAN CanDriver (ie_can env) (backend_can_sess (px_iot x1)) x1 H1) as (x2 & -> & H2 & C2 & _ & _ & G2); [right; by left| |].
  { rewrite F1. intros s Hs. split; [by apply (ir_can _ (proj2 H))|by apply E2]. }
  cbn [mbind outcome_bind]. specialize (G2 ltac:(done)).
  destruct (iot_poll_keeps IOT_PROTO_TYPE_MODBUSTCP ModbusTcpDriver (ie_modbus env) (backend_modbustcp_sess (px_iot x2)) x2 H2) as (x3 & -> & H3 & C3 & _); [right; by right| |].
  { rewrite G2, G1. intros s Hs. split; [by apply (ir_modbus _ (proj2 H))|by apply E3]. }
  exists x3. split; [done|]. split; [done|]. eapply calm_trans; [exact C1|]. by eapply calm_trans.
Qed.

(** ** Steps 2 to 5 *)

(** What epoll, read and the IoT devices do once the receive loop is done: the
    events are of sessions that are there, their reads end, the polls end. *)
Record rest_ok (env : turn_env) (x : proxy) : Prop := {
  ro_events : forall events, te_poll env = Some events -> Forall (event_ok (px_world x)) events;
  ro_iot : iot_ends (te_iot env) (px_iot x) }.

Lemma rest_keeps env x : backend_inv g nd N x -> rest_ok env x ->
  (forall p, p ∈ queue_f2b (w_pool (px_world x)) -> f2b_fails (te_f2b env) (px_world x) p = false) ->
  exists x', turn_rest env x = Done x' /\ backend_inv g nd N x' /\ calm (px_world x) (px_world x').
Proof using Hbase Hbs.
  intros [H Hi] [R2 R3] R1. unfold turn_rest. pose proof (pi_qnodup _ (pv_pool _ _ _ _ H)) as Hn.
  destruct (f2b_walk_keeps (te_f2b env) (queue_f2b (w_pool (px_world x))) (px_world x) H (Hn F2B)) as (w1 & -> & [H1 C1]);
    [intros p Hp; split; [done|by apply f2b_fails_fine, R1]|]. cbn [mbind outcome_bind].
  assert (exists w2, poller_run (te_poll env) w1 = Done w2 /\ kept_by w1 w2) as (w2 & -> & [H2 C2]).
  { unfold poller_run. destruct (te_poll env) as [events|]; [|exists w1; split; [done|by apply kept_refl] ].
    apply poller_keeps; [done|]. eapply Forall_impl; [by apply R2|]. intros e. by apply event_ok_calm. }
  cbn [mbind outcome_bind]. destruct (b2f_walk_keeps (te_b2f env) (queue_b2f (w_pool w2)) w2 H2) as (w3 & -> & [H3 C3]);
    [apply (pi_qnodup _ (pv_pool _ _ _ _ H2) B2F)|done|]. cbn [mbind outcome_bind].
  destruct (iot_dev_keeps (te_iot env) (with_world x w3)) as (x' & -> & H' & C'); [by split|done|].
  exists x'. split; [done|]. split; [done|]. eapply calm_trans; [exact C1|]. eapply calm_trans; [exact C2|]. by eapply calm_trans.
Qed.

(** ** Step 1 *)

Definition turn_inv (x : proxy) : Prop := backend_inv g nd N x /\ on_channel g gr x.

Lemma turn_rx_ok x : turn_inv x -> rx_ok gr (px_world x).
Proof using Htwin Hbase Hbs.
  intros [ [H _] ( [P1 P2 P3] & Ht & Hr)]. pose proof (pv_tx _ _ _ _ H) as [Tw Tq Tb Tp Ts]. destruct Htwin as [T1 T2 T3 T4].
  split; try done; [by apply qwf_ring; split; [|apply Tw] |by rewrite T1|by rewrite T1|by rewrite T3].
Qed.

(** Messages leave the receive ring's length alone. *)
Lemma message_pending x msg env st x' : on_channel g gr x -> backend_proxy_msg_process x msg env = Done (st, x') ->
  length (contents gr (tx_mem (w_tx (px_world x')))) = length (contents gr (tx_mem (w_tx (px_world x)))).
Proof using Htwin.
  intros H E. pose proof (message_confined g _ _ (pa_tx _ _ _ (proj1 H)) (pa_base _ _ _ (proj1 H)) x msg env (on_confined g gr x H) _ E) as [_ Hw].
  cbn [snd] in Hw. destruct H as (_ & _ & Hr). rewrite !contents_length. unfold qlength, qheader, qtail.
  rewrite !(qget_ext _ (tx_mem (w_tx (px_world x'))) (tx_mem (w_tx (px_world x)))); [done|..]; intros a Ha; by apply (tx_written_control g gr Htwin).
Qed.

(** The world in which a message is processed: the block is off the ring. *)
Definition taken (x : proxy) (d : dequeued) : proxy := with_world x (with_tx (px_world x) (with_tx_mem (w_tx (px_world x)) (dq_mem d))).

(** A message met by the loop meets a defect ([n] bounds the messages looked
    at). *)
Fixpoint rx_meets_defect (n : nat) (env : nat -> msg_env) (k : nat) (buf : list Z) (x : proxy) : bool :=
  match n with
  | O => false
  | S n =>
      match backend_engine_hyperamp_rx_queue_get (Some (eng_ports (eng_tx (w_eng (px_world x))))) (tx_mem (w_tx (px_world x)))
              HYPERAMP_MSG_HDR_PLUS_MAX_SIZE (Some buf) true with
      | Done d =>
          bool_decide (dq_status d = PROCESS_OK) &&
          (message_meets_defect g nd (px_world (taken x d)) (dq_data d) (env k) ||
           match backend_proxy_msg_process (taken x d) (dq_data d) (env k) with
           | Done (_, x') => rx_meets_defect n env (S k) (dq_data d) x'
           | _ => false
           end)
      | _ => false
      end
  end.

(** Every message is admissible when the loop comes to it, as long as none has
    met a defect. *)
Fixpoint rx_admissible (n : nat) (env : nat -> msg_env) (k : nat) (buf : list Z) (x : proxy) : Prop :=
  match n with
  | O => True
  | S n => forall d,
      backend_engine_hyperamp_rx_queue_get (Some (eng_ports (eng_tx (w_eng (px_world x))))) (tx_mem (w_tx (px_world x)))
        HYPERAMP_MSG_HDR_PLUS_MAX_SIZE (Some buf) true = Done d -> dq_status d = PROCESS_OK ->
      admissible (px_world (taken x d)) (dq_data d) (env k) /\
      (message_meets_defect g nd (px_world (taken x d)) (dq_data d) (env k) = false ->
       forall st x', backend_proxy_msg_process (taken x d) (dq_data d) (env k) = Done (st, x') ->
         rx_admissible n env (S k) (dq_data d) x')
  end.

(** One receive. *)
Lemma take_keeps x buf : turn_inv x -> blen buf = HYPERAMP_MSG_HDR_PLUS_MAX_SIZE ->
  exists d, backend_engine_hyperamp_rx_queue_get (Some (eng_ports (eng_tx (w_eng (px_world x))))) (tx_mem (w_tx (px_world x)))
              HYPERAMP_MSG_HDR_PLUS_MAX_SIZE (Some buf) true = Done d /\
  turn_inv (taken x d) /\ blen (dq_data d) = HYPERAMP_MSG_HDR_PLUS_MAX_SIZE /\
  match contents gr (tx_mem (w_tx (px_world x))) with
  | [] => dq_status d = PROCESS_AGAIN /\ contents gr (dq_mem d) = []
  | _ :: s => dq_status d = PROCESS_OK /\ contents gr (dq_mem d) = s /\ received (dq_data d)
  end.
Proof using Htwin Hbase Hbs.
  intros H Hbuf. pose proof H as [ [Hi Hio] (Hp & Ht & Hr)].
  destruct (rx_get gr (px_world x) buf (turn_rx_ok x H) Hbuf) as (d & Ed & Hrx & Hcase). exists d. split; [exact Ed|].
  pose proof (get_written g gr Htwin _ _ _ _ _ Hp Ht Hr _ Ed) as [C1 C2 _]. split.
  - split; [split; [|done]|by split; [|split] ]. apply inv_tx; [done|]. destruct (pv_tx _ _ _ _ Hi). split; try done.
    apply qwf_ring. split; [done|apply (rxo_wf _ _ Hrx)].
  - destruct (contents gr (tx_mem (w_tx (px_world x)))) as [|b s]; [destruct Hcase as (? & ? & ->); done|].
    destruct Hcase as (? & ? & <- & Hrec). split; [apply Hrec|done].
Qed.

Lemma rx_loop_keeps env n : forall fuel k buf x,
  turn_inv x -> blen buf = HYPERAMP_MSG_HDR_PLUS_MAX_SIZE -> (length (contents gr (tx_mem (w_tx (px_world x)))) <= n)%nat -> (n < fuel)%nat ->
  rx_admissible n env k buf x -> rx_meets_defect n env k buf x = false ->
  exists x' buf', engine_rx_loop fuel env k buf x = Done (Some x', buf') /\ turn_inv x' /\ blen buf' = HYPERAMP_MSG_HDR_PLUS_MAX_SIZE /\
  contents gr (tx_mem (w_tx (px_world x'))) = [].
Proof using Htwin Hbase Hbs.
  induction n as [|n IH]; intros fuel k buf x H Hbuf Hlen Hf Ha Hdef; (destruct fuel as [|fuel]; [lia|]); cbn [engine_rx_loop];
    destruct (take_keeps x buf H Hbuf) as (d & Ed & H1 & Hd & Hcase); rewrite Ed; cbn [mbind outcome_bind]; fold (taken x d);
    destruct (contents gr (tx_mem (w_tx (px_world x)))) as [|b s]; try (cbn in Hlen; lia);
    try (destruct Hcase as [-> Hc]; by exists (taken x d), (dq_data d)).
  destruct Hcase as (Hst & Hc & Hrec). rewrite Hst. destruct (Ha d Ed Hst) as [Had Hnext].
  cbn [rx_meets_defect] in Hdef. rewrite Ed, bool_decide_true in Hdef by done. apply orb_false_iff in Hdef as [Hd1 Hd2].
  destruct (message_keeps g nd N (taken x d) (dq_data d) (env k) (proj1 H1) Hrec Had Hd1) as (st & x2 & E2 & H2). rewrite E2 in Hd2 |- *. cbn [mbind outcome_bind snd].
  pose proof (message_within g gr Htwin _ _ _ (proj2 H1) _ E2) as Hw. pose proof (message_pending _ _ _ _ _ (proj2 H1) E2) as Hl2.
  apply IH; [split; [done|exact (within_on g gr _ _ (proj2 H1) Hw)]|done| |lia|by eapply Hnext|done].
  rewrite Hl2. cbn in Hlen |- *. rewrite Hc. lia.
Qed.

(** ** The whole turn *)

(** A turn meets a defect: one of its messages does, or the socket of a session
    that has data for it fails. *)
Definition turn_meets_defect (fuel : nat) (env : turn_env) (buf : list Z) (x : proxy) : bool :=
  rx_meets_defect (length (contents gr (tx_mem (w_tx (px_world x))))) (te_msgs env) 0 buf x ||
  match engine_rx_loop fuel (te_msgs env) 0 buf x with
  | Done (Some x', _) => existsb (f2b_fails (te_f2b env) (px_world x')) (queue_f2b (w_pool (px_world x')))
  | _ => false
  end.

(** What a turn asks of its surroundings. *)
Record turn_ok (fuel : nat) (env : turn_env) (buf : list Z) (x : proxy) : Prop := {
  to_msgs : rx_admissible (length (contents gr (tx_mem (w_tx (px_world x))))) (te_msgs env) 0 buf x;
  to_rest : forall x' buf', engine_rx_loop fuel (te_msgs env) 0 buf x = Done (Some x', buf') -> rest_ok env x' }.

Lemma turn_keeps fuel env buf x :
  turn_inv x -> blen buf = HYPERAMP_MSG_HDR_PLUS_MAX_SIZE -> (length (contents gr (tx_mem (w_tx (px_world x)))) < fuel)%nat -> turn_ok fuel env buf x ->
  turn_meets_defect fuel env buf x = false ->
  exists x' buf', engine_turn fuel env buf x = Done (Some x', buf') /\ turn_inv x' /\ blen buf' = HYPERAMP_MSG_HDR_PLUS_MAX_SIZE.
Proof using Htwin Hbase Hbs.
  intros H Hbuf Hf [Ha Hr] [Hdef Hsend]%orb_false_iff. rewrite turn_unfold.
  destruct (rx_loop_keeps (te_msgs env) _ fuel 0 buf x H Hbuf (Nat.le_refl _) Hf Ha Hdef) as (x1 & buf1 & E1 & H1 & Hb1 & _).
  rewrite E1 in Hsend |- *. cbn [mbind outcome_bind fst snd].
  destruct (rest_keeps env x1 (proj1 H1) (Hr _ _ E1)) as (x2 & E2 & H2 & _).
  { intros p Hp. destruct (f2b_fails _ _ p) eqn:Ef; [|done]. rewrite <- Hsend. symmetry. apply existsb_exists. exists p.
    split; [by apply list_elem_of_In|done]. }
  rewrite E2. cbn [mbind outcome_bind].
  exists x2, buf1. split; [done|]. split; [|done]. split; [done|]. eapply within_on; [apply H1|]. by apply (rest_within g gr Htwin env x1 (proj2 H1)).
Qed.

(** ** Turn after turn *)

(** The frontend leaves both rings well formed, and every turn finds what it
    asks for, as long as none has met a defect. *)
Fixpoint steps_ok (fuel : nat) (steps : list turn_step) (buf : list Z) (x : proxy) : Prop :=
  match steps with
  | [] => True
  | s :: steps => let x0 := frontend_acts x (ts_mem s) in
      qwf g (ts_mem s) /\ qwf gr (ts_mem s) /\ turn_ok fuel (ts_env s) buf x0 /\
      (turn_meets_defect fuel (ts_env s) buf x0 = false ->
       forall x' buf', engine_turn fuel (ts_env s) buf x0 = Done (Some x', buf') -> steps_ok fuel steps buf' x')
  end.

Lemma frontend_keeps x m : backend_inv g nd N x -> ports_are g gr (eng_tx (w_eng (px_world x))) -> qwf g m -> qwf gr m -> turn_inv (frontend_acts x m).
Proof using Type.
  intros [H Hi] Hp [Ht Hm]%qwf_ring [Hr _]%qwf_ring. split; [split; [|done]|by split; [|split] ].
  apply inv_tx; [done|]. destruct (pv_tx _ _ _ _ H). split; try done. by apply qwf_ring.
Qed.

(** The turns run up to the first that meets a defect. *)
Lemma turns_keep fuel steps : (Z.to_nat (g_cap gr) <= fuel)%nat -> forall buf x,
  backend_inv g nd N x -> ports_are g gr (eng_tx (w_eng (px_world x))) -> blen buf = HYPERAMP_MSG_HDR_PLUS_MAX_SIZE -> steps_ok fuel steps buf x ->
  exists k x' buf', run_turns fuel (take k steps) buf x = Done (Some x', buf') /\ backend_inv g nd N x' /\
  (take k steps = steps \/ exists s, steps !! k = Some s /\ turn_meets_defect fuel (ts_env s) buf' (frontend_acts x' (ts_mem s)) = true).
Proof using Htwin Hbase Hbs.
  intros Hf. induction steps as [|s steps IH]; intros buf x H Hp Hbuf Hok; [exists O, x, buf; split; [done|]; split; [done|by left]|].
  destruct Hok as (Hg & Hr & Ht & Hnext). pose proof (frontend_keeps x (ts_mem s) H Hp Hg Hr) as H1.
  destruct (turn_meets_defect fuel (ts_env s) buf (frontend_acts x (ts_mem s))) eqn:Hdef.
  { exists O, x, buf. split; [done|]. split; [done|]. right. by exists s. }
  destruct (turn_keeps fuel (ts_env s) buf (frontend_acts x (ts_mem s)) H1 Hbuf) as (x' & buf' & E & H' & Hb'); [|done|done|].
  { change (tx_mem (w_tx (px_world (frontend_acts x (ts_mem s))))) with (ts_mem s). rewrite contents_length.
    pose proof (qlength_range gr (ts_mem s) Hr). lia. }
  destruct (IH buf' x') as (k & x2 & buf2 & E2 & H2 & Hend); [apply H'|apply H'|done|by apply Hnext|].
  exists (S k), x2, buf2. cbn [take run_turns]. rewrite E. cbn [mbind outcome_bind fst snd]. split; [exact E2|]. split; [done|].
  destruct Hend as [->|Hend]; [by left|by right].
Qed.

End Turn.
