(* ===== verification/TurnCheck.v ===== *)
(** * TurnCheck: deciding what a run of turns asks of its surroundings

    [steps_ok] of Turn quantifies over the states a run goes through.  Here is
    an executable check that follows the run and a proof that it is enough, so
    that a concrete run is admissible by evaluation. *)

From S2P Require Import Prelude Bytes Mem HyperampQueue HyperampQueueLemmas HyperampQueueSpec HyperampLinux ByteStore Message Build BuildSpec Session Device Responses SessionPool SessionPoolSpec SessionData SessionDataSpec Iot Proto ProtoSpec IotMessages Engine EngineSpec Channel IotPolls Lifecycle Turn.
From stdpp Require Import base list numbers option gmap.
From Stdlib Require Import ZArith Lia.
#[local] Open Scope Z_scope.

Section Check.
Context (g gr : geometry) (nd : nat).

(** ** Messages *)

Definition create_checked (w : world) (env : create_env) : bool :=
  match ce_malloc env with Some (p, _) => bool_decide (w_sess w !! p = None) | None => true end.

Lemma create_checked_ok w env : create_checked w env = true -> create_env_ok w env.
Proof using Type. unfold create_checked. intros H p junk Hp. rewrite Hp in H. by apply bool_decide_eq_true in H. Qed.

Definition message_checked (w : world) (msg : list Z) (env : msg_env) : bool :=
  match get_ProxyMsgHeader msg 0 with
  | Done h =>
      match get_SessMsgHeader msg PROXY_MSG_HDR_SIZE with
      | Done sh => negb (pmh_type h =? PROXY_MSG_TYPE_SESS) || bool_decide (requested msg h sh = None) || create_checked w (me_create env)
      | _ => true
      end &&
      match me_data env with Some d => negb (pmh_type h =? PROXY_MSG_TYPE_DATA) || (blen d =? pmh_payload_len h) | None => true end
  | _ => true
  end.

Lemma message_checked_ok w msg env : message_checked w msg env = true -> admissible w msg env.
Proof using Type.
  unfold message_checked. intros H. split.
  - intros h sh para Hh Ht Hs Hr. rewrite Hh, Hs, Ht, Hr, bool_decide_false in H by done. apply andb_true_iff in H as [H _]. by apply create_checked_ok.
  - intros h d Hh Ht Hd. rewrite Hh, Hd, Ht in H. apply andb_true_iff in H as [_ H]. by apply Z.eqb_eq in H.
Qed.

Fixpoint rx_checked (n : nat) (env : nat -> msg_env) (k : nat) (buf : list Z) (x : proxy) : bool :=
  match n with
  | O => true
  | S n =>
      match backend_engine_hyperamp_rx_queue_get (Some (eng_ports (eng_tx (w_eng (px_world x))))) (tx_mem (w_tx (px_world x)))
              HYPERAMP_MSG_HDR_PLUS_MAX_SIZE (Some buf) true with
      | Done d =>
          bool_decide (dq_status d <> PROCESS_OK) ||
          (message_checked (px_world (taken x d)) (dq_data d) (env k) &&
           match backend_proxy_msg_process (taken x d) (dq_data d) (env k) with
           | Done (_, x') => rx_checked n env (S k) (dq_data d) x'
           | _ => true
           end)
      | _ => true
      end
  end.

Lemma rx_checked_ok n env : forall k buf x, rx_checked n env k buf x = true -> rx_admissible g nd n env k buf x.
Proof using Type.
  induction n as [|n IH]; intros k buf x H; [done|]. cbn [rx_checked] in H. intros d Ed Hst. rewrite Ed in H.
  apply orb_true_iff in H as [H%bool_decide_eq_true|H]; [done|]. apply andb_true_iff in H as [H1 H2].
  split; [by apply message_checked_ok|]. intros _ st x' E. rewrite E in H2. by apply IH.
Qed.

(** ** The rest of the turn *)

Fixpoint reads_checked (avail : Z) (reads : list read_env) : bool :=
  (avail <=? 0) ||
  match reads with
  | [] => false
  | e :: reads =>
      match sess_msg_seg_alloc (re_seg e) (re_data e) PROXY_MSG_HDR_PLUS_MAX_SIZE SESS_MSG_SEG_DYNAMIC_ALLOC None 0 with
      | None => true
      | Some _ =>
          match re_read e with
          | None => true
          | Some data => (blen data <=? PROXY_MSG_MAX_SIZE) && bytesb data && reads_checked (avail - blen data) reads
          end
      end
  end.

Lemma reads_checked_ok reads : forall avail, reads_checked avail reads = true -> reads_end avail reads.
Proof using Type.
  induction reads as [|e reads IH]; intros avail; cbn [reads_checked reads_end]; (intros [H%Z.leb_le|H]%orb_true_iff; [by left|]); [done|].
  right. destruct (sess_msg_seg_alloc _ _ _ _ _ _); [|done]. destruct (re_read e) as [data|]; [|done].
  rewrite !andb_true_iff, Z.leb_le in H. destruct H as [ [H1 H2%bytesb_ok] H3]. split; [done|by apply IH].
Qed.

Definition buffer_checked (e : read_env) : bool :=
  match re_data e with None => true | Some d => (blen d =? PROXY_MSG_HDR_PLUS_MAX_SIZE) && bytesb d end.

Definition event_checked (w : world) (e : poll_event) : bool :=
  bool_decide (is_Some (w_sess w !! pe_sess e)) && forallb buffer_checked (pe_reads e) &&
  match pe_ioctl e with None => true | Some n => reads_checked n (pe_reads e) end.

Lemma event_checked_ok w e : event_checked w e = true -> event_ok w e.
Proof using Type.
  unfold event_checked. rewrite !andb_true_iff. intros [ [H1%bool_decide_eq_true H2] H3]. split; [done|]. split.
  - apply Forall_forall. intros r Hr d Hd. rewrite forallb_forall in H2. specialize (H2 r (proj1 (list_elem_of_In _ _) Hr)).
    unfold buffer_checked in H2. rewrite Hd in H2. apply andb_true_iff in H2 as [?%Z.eqb_eq ?%bytesb_ok]. by split.
  - intros n Hn. rewrite Hn in H3. by apply reads_checked_ok.
Qed.

Definition no_iot (i : iot_sessions) : bool :=
  match backend_bluetooth_sess i, backend_can_sess i, backend_modbustcp_sess i with None, None, None => true | _, _, _ => false end.

Definition rest_checked (env : turn_env) (x : proxy) : bool :=
  forallb (event_checked (px_world x)) (default [] (te_poll env)) && no_iot (px_iot x).

Lemma rest_checked_ok env x : rest_checked env x = true -> rest_ok env x.
Proof using Type.
  unfold rest_checked. rewrite !andb_true_iff, !forallb_forall. intros [H2 H3]. split.
  - intros events He. rewrite He in H2. apply Forall_forall. intros e Hin. apply event_checked_ok, H2. by apply list_elem_of_In.
  - unfold no_iot in H3. split; intros s Hs; rewrite Hs in H3; by repeat case_match.
Qed.

(** ** The run *)

Definition turn_checked (fuel : nat) (env : turn_env) (buf : list Z) (x : proxy) : bool :=
  rx_checked (length (contents gr (tx_mem (w_tx (px_world x))))) (te_msgs env) 0 buf x &&
  match engine_rx_loop fuel (te_msgs env) 0 buf x with Done (Some x', _) => rest_checked env x' | _ => true end.

Lemma turn_checked_ok fuel env buf x : turn_checked fuel env buf x = true -> turn_ok g gr nd fuel env buf x.
Proof using Type.
  intros [H1 H2]%andb_true_iff. split; [by apply rx_checked_ok|]. intros x' buf' E. rewrite E in H2. by apply rest_checked_ok.
Qed.

Fixpoint steps_checked (fuel : nat) (steps : list turn_step) (buf : list Z) (x : proxy) : bool :=
  match steps with
  | [] => true
  | s :: steps =>
      turn_checked fuel (ts_env s) buf (frontend_acts x (ts_mem s)) &&
      match engine_turn fuel (ts_env s) buf (frontend_acts x (ts_mem s)) with
      | Done (Some x', buf') => steps_checked fuel steps buf' x'
      | _ => true
      end
  end.

Lemma steps_checked_ok fuel steps : Forall (fun s => qwf g (ts_mem s) /\ qwf gr (ts_mem s)) steps ->
  forall buf x, steps_checked fuel steps buf x = true -> steps_ok g gr nd fuel steps buf x.
Proof using Type.
  induction 1 as [|s steps [Hg Hr] _ IH]; intros buf x; [done|]. intros [H1 H2]%andb_true_iff.
  split; [done|]. split; [done|]. split; [by apply turn_checked_ok|]. intros _ x' buf' E. rewrite E in H2. by apply IH.
Qed.

End Check.
