(* ===== verification/LifecycleSpec.v ===== *)
(** * LifecycleSpec: from start-up to shutdown

    The whole life of the proxy: [engine_init] establishes the invariant of
    Lifecycle, [engine_run_hyperamp] keeps it up to the first turn that meets
    one of the code's known defects, and [engine_destory] then gives back
    everything the proxy ever allocated. *)

From S2P Require Import Prelude Bytes Mem HyperampQueue HyperampQueueLemmas HyperampQueueSpec HyperampLinux ByteStore Message Build BuildSpec Session Device Responses SessionPool SessionPoolSpec SessionPoolRun SessionData CString Dictionary IniParser IniParserSpec Iot Proto ProtoSpec IotMessages Engine EngineSpec Channel DevConfig DevConfigSpec DevConfigFile IotConfig IotConfigSpec EngineInit EngineInitSpec ShutdownSpec Lifecycle Turn TurnCheck.
From stdpp Require Import base list numbers option gmap strings.
From Stdlib Require Import ZArith Lia.
#[local] Open Scope Z_scope.

(** ** Start-up *)

Lemma idle_nodes ds : (forall d, d ∈ ds -> hs_dev_ok d) -> nodes_of ds = [] /\ length (spare_of ds) = (MAX_SESS_NODE_NUM * length ds)%nat.
Proof.
  induction ds as [|d ds IH]; intros H; [done|]. destruct IH as [IH1 IH2]; [intros d' Hd'; apply H; by right|].
  destruct (H d) as [_ _ _ _ _ _ _ [Hu Ht] Hf]; [by left|]. unfold nodes_of, spare_of, sess_nodes in *. cbn.
  rewrite Hu, Ht, IH1, length_app, IH2, Hf. split; [done|unfold MAX_SESS_NODE_NUM; lia].
Qed.

Lemma table_nodes_spare ds : table_nodes ds = spare_of ds.
Proof.
  induction ds as [|d ds IH]; [done|]. change (free_node_queue d ++ table_nodes ds = free_node_queue d ++ spare_of ds). by rewrite IH.
Qed.

Lemma started_inv env cs x x' g gr :
  started env cs x x' g gr -> (1 <= length cs <= 16)%nat -> w_sess (px_world (pr_proxy x)) = ∅ ->
  proxy_inv g (length cs) (w_node (px_world (pr_proxy x))) (px_world (pr_proxy x')).
Proof.
  intros [S1 S2 S3 S4 (mask & T) S6 _ _ _ _] Hn Hs. set (w' := px_world (pr_proxy x')) in *.
  assert (forall d, d ∈ configured (length cs) w' -> hs_dev_ok d) as Hok.
  { intros d (i & Hi)%list_elem_of_lookup. unfold configured in Hi. apply lookup_take_Some in Hi as [Hi Hlt].
    pose proof (tk_dev _ _ _ _ _ T i d Hi) as Hd. by rewrite decide_True in Hd. }
  destruct (idle_nodes _ Hok) as [Hnodes Hspare]. pose proof (tk_distinct _ _ _ _ _ T) as Hdist. pose proof (tk_new _ _ _ _ _ T) as Hnew.
  pose proof (tk_nodes _ _ _ _ _ T) as Hadd. rewrite !table_nodes_spare in *. fold (configured (length cs) w') in *.
  assert (length (configured (length cs) w') = length cs) as Hl by (unfold configured; rewrite length_take, (tk_len _ _ _ _ _ T); lia).
  split; rewrite ?Hnodes, ?S2; cbn [app]; try done.
  - by apply init_pool_inv.
  - unfold ids_accounted. by rewrite S2.
  - rewrite (tk_len _ _ _ _ _ T). lia.
  - rewrite Hspare, Hl. unfold MAX_SESS_NODE_NUM. lia.
  - intros n Hn'. rewrite Hadd, decide_True by done. by eexists.
  - intros i d proto n Hi Hp Hq. exfalso. assert (n ∈ nodes_of (configured (length cs) w')) as Hin by (apply nodes_of_elem; by exists i, d, proto).
    rewrite Hnodes in Hin. by apply not_elem_of_nil in Hin.
  - intros p Hp. rewrite S1, Hs in Hp. destruct Hp as [? Hp]. discriminate Hp.
  - intros p s Hp. rewrite S1, Hs in Hp. discriminate Hp.
  - intros k Hk. by rewrite Hadd, decide_False.
Qed.

(** ** Shutdown *)

(** Nothing of the proxy is left: no session object, no node beyond those of
    before the start, an empty table with every id free; the listeners and the
    poller closed. *)
Record all_released (nd : nat) (N : gmap Z (option Z)) (w w' : world) (epfd : Z) : Prop := {
  ar_sess : w_sess w' = ∅;
  ar_node : w_node w' = N;
  ar_table : htable (w_pool w') = ∅ /\ length (id_queue (w_pool w')) = 1024%nat;
  ar_socks : forall p s, w_sess w !! p = Some s -> sock_fd s ∈ w_closed w';
  ar_listeners : forall d, d ∈ configured nd w -> listens d = true -> tcp_listener d ∈ w_closed w';
  ar_epfd : epfd ∈ w_closed w' }.

Lemma destory_all g nd N ep x :
  pr_dev_set x = true -> pr_sess_pool x = true -> proxy_inv g nd N (px_world (pr_proxy x)) ->
  exists x', engine_destory ep x = Done x' /\ all_released nd N (px_world (pr_proxy x)) (px_world (pr_proxy x')) (pr_epfd x).
Proof.
  intros Hset Hpool H. set (w := px_world (pr_proxy x)) in *. unfold engine_destory, engine_destory_hs_net_dev. rewrite Hset, Hpool. cbn [negb andb].
  fold w. pose proof (pv_max _ _ _ _ H) as [Hmax Hlen]. rewrite (pv_num _ _ _ _ H), Nat2Z.id.
  assert (length (configured nd w) = nd) as Hl by (unfold configured; rewrite length_take; lia).
  destruct (devices_walk g ep (configured nd w) (drop nd (w_devs w)) 0 w) as (w1 & E & K & Hi & C).
  { by apply (inv_owned g nd N). } { unfold configured. by rewrite take_drop. }
  rewrite Hl in E. rewrite E. cbn [mbind outcome_bind]. eexists. split; [reflexivity|].
  pose proof (wk_table _ _ _ _ K) as Ht. rewrite (pv_size _ _ _ _ H) in Ht. pose proof (wk_ids _ _ _ _ K (pv_ids _ _ _ _ H)) as Ha.
  assert (htable (w_pool w1) = ∅) as He by (apply map_size_empty_iff; lia).
  assert (forall p s, w_sess w !! p = Some s -> sock_fd s ∈ w_closed w1 /\ w_sess w1 !! p = None) as Hsock.
  { intros p s Hs. destruct (pv_heap _ _ _ _ H p) as [id Hid]; [by exists s|]. destruct (pv_all _ _ _ _ H id p Hid) as (n & Hn & Hnp).
    by apply (wk_socks _ _ _ _ K n). }
  split; cbn.
  - apply map_eq. intros p. rewrite lookup_empty. destruct (w_sess w !! p) as [s|] eqn:Hs; [by apply (Hsock p s)|].
    rewrite (wk_other _ _ _ _ K); [done|]. intros n (i & d & proto & A1 & A2 & A3)%nodes_of_elem Hn.
    destruct (pv_node _ _ _ _ H i d proto n A1 A2 A3) as (q & s & id & B1 & B2 & _). congruence.
  - apply map_eq. intros k. rewrite (wk_node _ _ _ _ K). case_decide as Hk; [symmetry; by apply (pv_new _ _ _ _ H)|by apply (pv_rest _ _ _ _ H)].
  - split; [exact He|]. unfold ids_accounted in Ha. rewrite He, map_size_empty in Ha. lia.
  - intros p s Hs. right. by apply (Hsock p s).
  - intros d Hd Hl'. right. by apply C.
  - by left.
Qed.

(** ** The whole life *)

(** The rings of a started engine. *)
Lemma init_rings env mapped m : qwf (init_geometry env mapped) m ->
  twin_rings (init_geometry env mapped) (init_rx_geometry env mapped) /\ g_base (init_geometry env mapped) <> 0.
Proof.
  intros [Hgeo%ro_geo%geometry_ok_spec _]%qwf_ring. split; [apply channel_twins|].
  change (g_queue (init_geometry env mapped)) with (channel_base env mapped + 4096) in *.
  change (g_base (init_geometry env mapped)) with (channel_base env mapped + 8192). lia.
Qed.

(** The guards in front of the loop let a started engine through. *)
Lemma started_ready env cs x x1 mapped : started env cs x x1 (init_geometry env mapped) (init_rx_geometry env mapped) -> 0 < mapped ->
  engine_run_ready x1 = true.
Proof.
  intros Hst Hm. destruct (st_ports _ _ _ _ _ _ Hst) as [P1 P2 P3], (st_flags _ _ _ _ _ _ Hst) as [_ F].
  change (g_queue (init_geometry env mapped)) with (channel_base env mapped + 4096) in P1.
  change (g_queue (init_rx_geometry env mapped)) with (channel_base env mapped) in P2.
  change (g_base (init_geometry env mapped)) with (channel_base env mapped + 8192) in P3.
  assert (0 <= Z.land SHM_CH1_PADDR (env_page_size (bo_map env) - 1)) by (apply Z.land_nonneg; left; done). unfold channel_base in *.
  unfold engine_run_ready. rewrite <- P1, <- P2, <- P3, F, !(proj2 (Z.eqb_neq _ 0)) by lia. done.
Qed.


(** ** Witness *)

(** Three turns: a create command for the first device; data for the session
    while its socket has three bytes; a close command. *)
Definition demo_step (msg : list Z) (events : list poll_event) : turn_step :=
  {| ts_mem := mwrite demo_channel 0x13000 (take 40 msg);
     ts_env := {| te_msgs := fun _ => demo_env_msg [7; 8]; te_f2b := demo_send_env (Some 100); te_poll := Some events;
                  te_b2f := fun _ => true; te_iot := {| ie_bluetooth := []; ie_can := []; ie_modbus := [] |} |} |}.

Definition demo_steps : list turn_step :=
  [demo_step (demo_received PROXY_MSG_TYPE_SESS 9 0xFFFF 20 demo_create) [];
   demo_step (demo_received PROXY_MSG_TYPE_DATA 9 1 2 [7; 8])
     [{| pe_sess := 500; pe_flags := EPOLLIN; pe_ioctl := Some 3;
         pe_reads := [{| re_seg := true; re_data := Some (replicate 4096 0); re_read := Some [1; 2; 3] |}] |}];
   demo_step (demo_received PROXY_MSG_TYPE_SESS 9 1 10 demo_close) []].

Definition demo_started : process :=
  match engine_init demo_init_env demo_process with Done x => x | _ => demo_process end.

Lemma demo_step_rings msg events : received msg ->
  qwf demo_tx_geo (ts_mem (demo_step msg events)) /\ qwf demo_rx_geo (ts_mem (demo_step msg events)).
Proof.
  intros [_ Hb]. destruct demo_channel_qwf as [Hr Ht]. change (ts_mem (demo_step msg events)) with (mwrite demo_channel 0x13000 (take 40 msg)).
  pose proof (mwrite_bytes demo_channel 0x13000 (take 40 msg) demo_channel_bytes ltac:(by apply Forall_take)) as Hm.
  split; apply qwf_ring; (split; [|exact Hm]); [apply qwf_ring in Ht as [Ht _]; apply (ring_frame _ demo_channel _ Ht)
    |apply qwf_ring in Hr as [Hr _]; apply (ring_frame _ demo_channel _ Hr)]; intros a Ha; apply mwrite_out; left;
    unfold in_control in Ha; rewrite sizeof_queue in Ha.
  - change (g_queue (tx_geometry 65536 SHM_CH1_PADDR)) with 69632 in Ha. lia.
  - change (g_queue (rx_geometry 65536 SHM_CH1_PADDR)) with 65536 in Ha. lia.
Qed.

Lemma demo_steps_ok : steps_ok demo_tx_geo demo_rx_geo 2 253 demo_steps (replicate 4096 0) (pr_proxy demo_started).
Proof.
  apply steps_checked_ok; [|vm_compute; reflexivity].
  apply Forall_cons; split; [|apply Forall_cons; split; [|apply Forall_cons; split; [|by apply Forall_nil] ] ];
    apply demo_step_rings, demo_received_ok; try reflexivity; cbn; lia.
Qed.

(** The turn after the first [k]. *)
Definition demo_defect_after (k : nat) : bool :=
  match engine_run_hyperamp 253 (take k demo_steps) (replicate 4096 0) demo_started, demo_steps !! k with
  | Done (Some x, buf), Some s => turn_meets_defect demo_tx_geo demo_rx_geo 2 253 (ts_env s) buf (frontend_acts (pr_proxy x) (ts_mem s))
  | _, _ => false
  end.

