(* ===== verification/Dump.v ===== *)
(** * Dump: what the proxy prints about messages

    The dump functions of src/common_utils.c and the macros of
    include/common_utils.h.  A call of printf is recorded as its format string
    (as written in the source, escapes not interpreted) with its arguments; what
    matters beyond the text is which bytes of the message it reads, because the
    code runs these functions on every block it sends or receives.  Reads are
    bounds-checked like all others. *)

From S2P Require Import Prelude Bytes Mem CString ByteStore Message.
From stdpp Require Import base list numbers option.
From Stdlib Require Import ZArith Lia String.
#[local] Open Scope string_scope.
#[local] Open Scope Z_scope.

(** ** Printing *)

(** An argument: a number, a string of the program, the bytes of a string in
    memory. *)
Inductive parg := PZ (z : Z) | PS (s : string) | PB (b : list Z).

Definition print : Type := string * list parg.

(** A computation that prints. *)
Record pr (A : Type) := Pr { run : outcome (list print * A) }.
Arguments Pr {A} run.
Arguments run {A} p.

#[export] Instance pr_ret : MRet pr := fun A a => Pr (Done ([], a)).
#[export] Instance pr_bind : MBind pr := fun A B f p =>
  Pr (r ← run p; r' ← run (f (snd r)); Done ((fst r ++ fst r')%list, snd r')).

Definition say (fmt : string) (args : list parg) : pr unit := Pr (Done ([(fmt, args)], ())).
Definition lift {A} (o : outcome A) : pr A := Pr (a ← o; Done ([], a)).
Definition rd (n : nat) (buf : list Z) (off : Z) : pr Z := lift (bget n buf off).

(** A for loop from [i] over [n] values. *)
Fixpoint for_ (n : nat) (i : Z) (f : Z -> pr unit) : pr unit :=
  match n with O => mret () | S n => _ ← f i; for_ n (i + 1) f end.

(** [%s] on memory: the read goes on to the first NUL. *)
Definition pct_s (buf : list Z) (off : Z) : pr parg :=
  lift (let l := drop (Z.to_nat off) buf in if bool_decide (0%Z ∈ l) then Done (PB (up_to_nul l)) else Fault OutOfBounds).

Definition error_print (error : string) : pr unit := say "%s\n" [PS error].

(** Debugging is enabled; vprintf of a NULL format is refused. *)
Definition debug_print (format : option string) (args : list parg) : pr (option Z) :=
  match format with
  | None => mret (Some (-1))
  | Some f => _ ← say f args; mret None
  end.

(** [DUMP_BUFFER_CONTENT(buf + off, size, format)]. *)
Definition DUMP_BUFFER_CONTENT (buf : list Z) (off size : Z) (format : string) : pr unit :=
  if size =? 0 then say "Buffer is empty (size = 0)\n" [] else
  _ ← for_ (Z.to_nat size) 0 (fun i => b ← rd 1 buf (off + i); say format [PZ b]);
  say "\n" [].

Definition DUMP_PROXY_MSG_HEADER (buf : option (list Z)) : pr unit :=
  match buf with
  | None => say "[ProxyMsgHeader] Error: Input buffer pointer is NULL!\n" []
  | Some buf =>
      h ← lift (get_ProxyMsgHeader buf 0);
      _ ← say "============= ProxyMsgHeader =============\n" [];
      _ ← say "version:          %u (0x%02X)\n" [PZ (pmh_version h); PZ (pmh_version h)];
      _ ← say "proxy_msg_type:   %u (0x%02X) -> " [PZ (pmh_type h); PZ (pmh_type h)];
      _ ← (if pmh_type h =? 0 then say "device message\n" []
           else if pmh_type h =? 1 then say "strategy message\n" []
           else if pmh_type h =? 2 then say "session message\n" []
           else if pmh_type h =? 3 then say "data message\n" []
           else say "unknown message type\n" []);
      _ ← say "frontend_sess_id: %u (0x%04X)\n" [PZ (pmh_frontend_sess_id h); PZ (pmh_frontend_sess_id h)];
      _ ← say "backend_sess_id:  %u (0x%04X)\n" [PZ (pmh_backend_sess_id h); PZ (pmh_backend_sess_id h)];
      _ ← say "payload_len:      %u (0x%04X) bytes\n" [PZ (pmh_payload_len h); PZ (pmh_payload_len h)];
      _ ← (if (pmh_payload_len h <? 1) || (4088 <? pmh_payload_len h)
           then say "⚠️  Warning: payload_len (%u) is out of valid range (1~4088)!\n" [PZ (pmh_payload_len h)] else mret ());
      say "===========================================\n" []
  end.

(** ** Names *)

Definition get_proxy_type_str (t : Z) : string :=
  if t =? PROXY_MSG_TYPE_DEV then "DEV (Device)" else if t =? PROXY_MSG_TYPE_STRGY then "STRGY (Strategy)"
  else if t =? PROXY_MSG_TYPE_SESS then "SESS (Session)" else if t =? PROXY_MSG_TYPE_DATA then "DATA (Data)" else "UNKNOWN".

Definition get_dev_msg_type_str (t : Z) : string :=
  if t =? DEV_MSG_DISABLE then "DISABLE" else if t =? DEV_MSG_ENABLE then "ENABLE" else if t =? DEV_MSG_QUERY then "QUERY" else "UNKNOWN".

Definition get_action_type_str (t : Z) : string :=
  if t =? ACTION_TYPE_COMMAND then "COMMAND" else if t =? ACTION_TYPE_RESPONSE then "RESPONSE" else "UNKNOWN".

Definition get_strgy_msg_type_str (t : Z) : string :=
  if t =? STRGY_MSG_SET then "SET" else if t =? STRGY_MSG_QUERY then "QUERY" else "UNKNOWN".

Definition STRGY_PARAM_ROUND_ROBIN : Z := 0.
Definition STRGY_PARAM_MAX_BANDWIDTH : Z := 1.
Definition STRGY_PARAM_MIN_LATENCY : Z := 2.

Definition get_strgy_param_str (t : Z) : string :=
  if t =? STRGY_PARAM_ROUND_ROBIN then "Round Robin" else if t =? STRGY_PARAM_MAX_BANDWIDTH then "Max Bandwidth"
  else if t =? STRGY_PARAM_MIN_LATENCY then "Min Latency" else "Unknown Param".

Definition get_sess_msg_type_str (t : Z) : string :=
  if t =? SESS_MSG_CLOSE then "CLOSE" else if t =? SESS_MSG_CREATE then "CREATE" else "UNKNOWN".

Definition get_sess_ip_version_str (t : Z) : string :=
  if t =? SESS_NON_IP_PROTO then "Non-IP" else if t =? SESS_IPV4_PROTO then "IPv4" else if t =? SESS_IPV6_PROTO then "IPv6" else "Unknown".

Definition get_sess_trans_proto_str (t : Z) : string :=
  if t =? SESS_UDP_PROTO then "UDP" else if t =? SESS_TCP_PROTO then "TCP"
  else if t =? SESS_FASTPATH_PROTO then "FastPath (XDP/eBPF)" else "Unknown Proto".

Definition get_sess_op_status_str (t : Z) : string :=
  if t =? SESS_OP_STATUS_SUCCESS then "SUCCESS" else if t =? SESS_OP_STATUS_FAIL then "FAIL" else "UNKNOWN".

Definition SESS_OP_CODE_NO_PERMISSION : Z := 1.

Definition get_sess_op_code_str (t : Z) : string :=
  if t =? SESS_OP_CODE_SUCCESS then "Success" else if t =? SESS_OP_CODE_NO_PERMISSION then "No Permission"
  else if t =? SESS_OP_CODE_DEVICE_ERROR then "Device Error" else if t =? SESS_OP_CODE_RESOURCE_INSUFFICIENT then "Resource Insufficient"
  else if t =? SESS_OP_CODE_NETWORK_UNREACHABLE then "Network Unreachable" else "Unknown Code".

(** ** Bytes and masks *)

Definition print_hex_block (label : string) (buf : list Z) (off len : Z) : pr unit :=
  if len =? 0 then mret () else
  _ ← say "  %s: " [PS label];
  _ ← for_ (Z.to_nat len) 0 (fun i =>
        b ← rd 1 buf (off + i);
        _ ← say "%02X " [PZ b];
        if (i + 1) mod 16 =? 0 then say "\n             " [] else mret ());
  say "\n" [].

(** Sixteen binary digits, the highest bit first. *)
Fixpoint print_bits (n : nat) (mask : Z) : pr unit :=
  match n with
  | O => mret ()
  | S n =>
      _ ← say "%d" [PZ (Z.land (Z.shiftr mask (Z.of_nat n)) 1)];
      _ ← (if (n =? 8)%nat then say " " [] else mret ());
      print_bits n mask
  end.

Definition print_binary_mask (label : string) (mask : Z) : pr unit :=
  _ ← say "  %s: 0x%04X (" [PS label; PZ mask];
  _ ← print_bits 16 mask;
  say ")\n" [].

(** ** The dumps of one message *)

(** Device messages: the payload starts at offset 18. *)
Definition proxy_dev_msg_content_dump (buf : list Z) : pr unit :=
  h ← lift (get_ProxyMsgHeader buf 0);
  if pmh_payload_len h <? sizeof_DevMsgHeader then say "  [ERROR] Proxy payload too short for DevMsgHeader\n" [] else
  d ← lift (get_DevMsgHeader buf PROXY_MSG_HDR_SIZE);
  let available := u16 (pmh_payload_len h - sizeof_DevMsgHeader) in
  let pay := PROXY_MSG_HDR_SIZE + sizeof_DevMsgHeader in
  let m := dmh_msg_type d in
  let a := dmh_action_type d in
  _ ← say "  --- Device Message Details ---\n" [];
  _ ← say "  [Link] Frontend Session: %u, Backend Session: %u\n" [PZ (pmh_frontend_sess_id h); PZ (pmh_backend_sess_id h)];
  _ ← say "  Dev Version: %u\n" [PZ (dmh_version d)];
  _ ← say "  Msg Type: %s (%u)\n" [PS (get_dev_msg_type_str m); PZ m];
  _ ← say "  Msg ID: %u\n" [PZ (dmh_msg_id d)];
  _ ← say "  Action Type: %s (%u)\n" [PS (get_action_type_str a); PZ a];
  _ ← say "  Dev Payload Len: %u\n" [PZ (dmh_payload_len d)];
  _ ← (if available <? dmh_payload_len d
       then say "  [WARNING] Declared payload len (%u) > Available space (%u). Truncating read.\n" [PZ (dmh_payload_len d); PZ available]
       else mret ());
  let read_len := if dmh_payload_len d <? available then dmh_payload_len d else available in
  let finish := say "  ------------------------------\n" [] in
  if a =? ACTION_TYPE_COMMAND then
    _ ← (if (m =? DEV_MSG_DISABLE) || (m =? DEV_MSG_ENABLE) then
           _ ← say "  [CMD] Operation: %s Device(s)\n" [PS (if m =? DEV_MSG_DISABLE then "Disable" else "Enable")];
           if 2 <=? read_len then mask ← rd 2 buf pay; print_binary_mask "Device Mask" mask
           else say "  [ERROR] Payload too short for Mask (Need 2 bytes)\n" []
         else if m =? DEV_MSG_QUERY then
           _ ← say "  [CMD] Operation: Query Devices\n" [];
           if 0 <? read_len then
             _ ← say "  [WARNING] Query CMD should have 0 payload, but found %u bytes.\n" [PZ read_len];
             print_hex_block "Unexpected Data" buf pay read_len
           else say "  [INFO] Payload is empty (Correct)\n" []
         else mret ());
    finish
  else if a =? ACTION_TYPE_RESPONSE then
    if read_len <? 2 then say "  [ERROR] Response payload too short (Need Result+Error)\n" [] else
    result ← rd 1 buf pay;
    err ← rd 1 buf (pay + 1);
    _ ← say "  [RSP] Result: %s (0x%02X)\n" [PS (if result =? 1 then "SUCCESS" else "FAILED"); PZ result];
    _ ← say "  [RSP] Error Code: 0x%02X\n" [PZ err];
    _ ← (if (m =? DEV_MSG_DISABLE) || (m =? DEV_MSG_ENABLE) then
           _ ← say "  [RSP] Context: Enable/Disable Response\n" [];
           if 2 <? read_len then print_hex_block "Extra Data" buf (pay + 2) (read_len - 2) else mret ()
         else if m =? DEV_MSG_QUERY then
           _ ← say "  [RSP] Context: Query Response\n" [];
           if 4 <=? read_len then
             active ← rd 2 buf (pay + 2);
             _ ← print_binary_mask "Active Devices" active;
             if 4 <? read_len then print_hex_block "Extra Data" buf (pay + 4) (read_len - 4) else mret ()
           else say "  [ERROR] Query Response payload too short (Need 4 bytes)\n" []
         else mret ());
    finish
  else finish.

Definition proxy_strgy_msg_content_dump (buf : list Z) : pr unit :=
  h ← lift (get_ProxyMsgHeader buf 0);
  if pmh_payload_len h <? sizeof_StrgyMsgHeader then say "  [ERROR] Proxy payload too short for StrgyMsgHeader\n" [] else
  d ← lift (get_StrgyMsgHeader buf PROXY_MSG_HDR_SIZE);
  let available := u16 (pmh_payload_len h - sizeof_StrgyMsgHeader) in
  let pay := PROXY_MSG_HDR_SIZE + sizeof_StrgyMsgHeader in
  let m := stmh_msg_type d in
  let a := stmh_action_type d in
  _ ← say "  --- Strategy Message Details ---\n" [];
  _ ← say "  [Link] Frontend Session: %u, Backend Session: %u\n" [PZ (pmh_frontend_sess_id h); PZ (pmh_backend_sess_id h)];
  _ ← say "  Strgy Version: %u\n" [PZ (stmh_version d)];
  _ ← say "  Msg Type: %s (%u)\n" [PS (get_strgy_msg_type_str m); PZ m];
  _ ← say "  Msg ID: %u\n" [PZ (stmh_msg_id d)];
  _ ← say "  Action Type: %s (%u)\n" [PS (get_action_type_str a); PZ a];
  _ ← say "  Strgy Payload Len: %u\n" [PZ (stmh_payload_len d)];
  _ ← (if available <? stmh_payload_len d
       then say "  [WARNING] Declared payload len (%u) > Available space (%u). Truncating read.\n" [PZ (stmh_payload_len d); PZ available]
       else mret ());
  let read_len := if stmh_payload_len d <? available then stmh_payload_len d else available in
  let finish := say "  ------------------------------\n" [] in
  if a =? ACTION_TYPE_COMMAND then
    _ ← (if m =? STRGY_MSG_SET then
           _ ← say "  [CMD] Operation: Set Strategy\n" [];
           if 2 <=? read_len then
             para ← rd 2 buf pay;
             _ ← say "  [CMD] Strategy Parameter: %s (%u)\n" [PS (get_strgy_param_str para); PZ para];
             if 2 <? read_len then print_hex_block "Extra Data" buf (pay + 2) (read_len - 2) else mret ()
           else say "  [ERROR] Payload too short for Set Command (Need 2 bytes)\n" []
         else if m =? STRGY_MSG_QUERY then
           _ ← say "  [CMD] Operation: Query Strategy\n" [];
           if 0 <? read_len then
             _ ← say "  [WARNING] Query CMD should have 0 payload, but found %u bytes.\n" [PZ read_len];
             print_hex_block "Unexpected Data" buf pay read_len
           else say "  [INFO] Payload is empty (Correct)\n" []
         else say "  [UNKNOWN] Unknown Strategy Msg Type in CMD: %u\n" [PZ m]);
    finish
  else if a =? ACTION_TYPE_RESPONSE then
    if read_len <? 2 then say "  [ERROR] Response payload too short (Need Result+Error)\n" [] else
    result ← rd 1 buf pay;
    err ← rd 1 buf (pay + 1);
    _ ← say "  [RSP] Result: %s (0x%02X)\n" [PS (if result =? 1 then "SUCCESS" else "FAILED"); PZ result];
    _ ← say "  [RSP] Error Code: 0x%02X\n" [PZ err];
    _ ← (if m =? STRGY_MSG_SET then
           _ ← say "  [RSP] Context: Set Strategy Response\n" [];
           if 2 <? read_len then print_hex_block "Extra Data" buf (pay + 2) (read_len - 2) else mret ()
         else if m =? STRGY_MSG_QUERY then
           _ ← say "  [RSP] Context: Query Strategy Response\n" [];
           if 4 <=? read_len then
             id ← rd 2 buf (pay + 2);
             _ ← say "  [RSP] Current Active Strategy: %s (%u)\n" [PS (get_strgy_param_str id); PZ id];
             if 4 <? read_len then print_hex_block "Extra Data" buf (pay + 4) (read_len - 4) else mret ()
           else say "  [ERROR] Query Response payload too short (Need 4 bytes: Result+Error+StrgyID)\n" []
         else say "  [UNKNOWN] Unknown Strategy Msg Type in RSP: %u\n" [PZ m]);
    finish
  else _ ← say "  [ERROR] Unknown Action Type: %u\n" [PZ a]; finish.

Definition sizeof_SessParaIPv4 : Z := 10.
Definition sizeof_SessParaIPv6 : Z := 22.

(** The four bytes of an address, dotted; [off] is where they are. *)
Definition print_ipv4 (fmt : string) (buf : list Z) (off : Z) : pr unit :=
  a ← rd 1 buf off; b ← rd 1 buf (off + 1); c ← rd 1 buf (off + 2); d ← rd 1 buf (off + 3);
  say fmt [PZ a; PZ b; PZ c; PZ d].

Definition print_ipv6 (buf : list Z) (off : Z) : pr unit :=
  for_ 8 0 (fun i =>
    a ← rd 1 buf (off + 2 * i); b ← rd 1 buf (off + 2 * i + 1);
    _ ← say "%02x%02x" [PZ a; PZ b];
    if 2 * i <? 14 then say ":" [] else mret ()).

(** Parameters of a create command: the device, the transport, the address of
    [n] bytes, the port. *)
Definition print_sess_para (buf : list Z) (pay n : Z) (address : pr unit) (read_len : Z) : pr unit :=
  dev ← rd 2 buf pay;
  proto ← rd 2 buf (pay + 2);
  _ ← say "  [CMD] Device ID: %u\n" [PZ dev];
  _ ← say "  [CMD] Transport: %s (%u)\n" [PS (get_sess_trans_proto_str proto); PZ proto];
  _ ← address;
  port ← rd 2 buf (pay + 4 + n);
  _ ← say "  [CMD] Port: %u\n" [PZ port];
  if 6 + n <? read_len then print_hex_block "Extra Data" buf (pay + 6 + n) (read_len - (6 + n)) else mret ().

Definition proxy_sess_msg_content_dump (buf : list Z) : pr unit :=
  h ← lift (get_ProxyMsgHeader buf 0);
  if pmh_payload_len h <? sizeof_SessMsgHeader then say "  [ERROR] Proxy payload too short for SessMsgHeader\n" [] else
  d ← lift (get_SessMsgHeader buf PROXY_MSG_HDR_SIZE);
  let available := u16 (pmh_payload_len h - sizeof_SessMsgHeader) in
  let pay := PROXY_MSG_HDR_SIZE + sizeof_SessMsgHeader in
  let m := semh_msg_type d in
  let a := semh_action_type d in
  let ipv := semh_ip_version d in
  _ ← say "  --- Session Message Details ---\n" [];
  _ ← say "  [Link] Frontend Session: %u, Backend Session: %u\n" [PZ (pmh_frontend_sess_id h); PZ (pmh_backend_sess_id h)];
  _ ← say "  Sess Version: %u\n" [PZ (semh_version d)];
  _ ← say "  Msg Type: %s (%u)\n" [PS (get_sess_msg_type_str m); PZ m];
  _ ← say "  Action Type: %s (%u)\n" [PS (get_action_type_str a); PZ a];
  _ ← say "  IP Version: %s (%u)\n" [PS (get_sess_ip_version_str ipv); PZ ipv];
  _ ← say "  Sess Payload Len: %u\n" [PZ (semh_payload_len d)];
  _ ← (if available <? semh_payload_len d
       then say "  [WARNING] Declared payload len (%u) > Available space (%u). Truncating read.\n" [PZ (semh_payload_len d); PZ available]
       else mret ());
  let read_len := if semh_payload_len d <? available then semh_payload_len d else available in
  let finish := say "  ------------------------------\n" [] in
  if ipv =? SESS_NON_IP_PROTO then
    _ ← say "  [INFO] Non-IP Protocol detected. No further payload interpretation performed.\n" [];
    _ ← (if 0 <? read_len then print_hex_block "Raw Non-IP Payload" buf pay read_len else mret ());
    finish
  else if a =? ACTION_TYPE_COMMAND then
    if m =? SESS_MSG_CREATE then
      _ ← say "  [CMD] Operation: Create Session\n" [];
      if ipv =? SESS_IPV4_PROTO then
        if read_len <? sizeof_SessParaIPv4
        then say "  [ERROR] Payload too short for IPv4 Create Params (Need %zu bytes)\n" [PZ sizeof_SessParaIPv4]
        else _ ← print_sess_para buf pay 4 (print_ipv4 "  [CMD] IPv4 Address: %u.%u.%u.%u\n" buf (pay + 4)) read_len; finish
      else if ipv =? SESS_IPV6_PROTO then
        if read_len <? sizeof_SessParaIPv6
        then say "  [ERROR] Payload too short for IPv6 Create Params (Need %zu bytes)\n" [PZ sizeof_SessParaIPv6]
        else
          _ ← print_sess_para buf pay 16 (_ ← say "  [CMD] IPv6 Address: " []; _ ← print_ipv6 buf (pay + 4); say "\n" []) read_len;
          finish
      else _ ← say "  [ERROR] Unknown IP Version %u for Create Command\n" [PZ ipv]; finish
    else if m =? SESS_MSG_CLOSE then
      _ ← say "  [CMD] Operation: Close Session\n" [];
      _ ← (if 0 <? read_len then
             _ ← say "  [WARNING] Close CMD should have 0 payload, but found %u bytes.\n" [PZ read_len];
             print_hex_block "Unexpected Data" buf pay read_len
           else say "  [INFO] Payload is empty (Correct)\n" []);
      finish
    else _ ← say "  [UNKNOWN] Unknown Session Msg Type in CMD: %u\n" [PZ m]; finish
  else if a =? ACTION_TYPE_RESPONSE then
    if (m =? SESS_MSG_CREATE) || (m =? SESS_MSG_CLOSE) then
      _ ← say "  [RSP] Context: %s Session Response\n" [PS (if m =? SESS_MSG_CREATE then "Create" else "Close")];
      if read_len <? sizeof_SessOpRespData then say "  [ERROR] Response payload too short (Need Status+Code)\n" [] else
      st ← rd 1 buf pay;
      code ← rd 1 buf (pay + 1);
      _ ← say "  [RSP] Status: %s (%u)\n" [PS (get_sess_op_status_str st); PZ st];
      _ ← say "  [RSP] Code: %s (%u)\n" [PS (get_sess_op_code_str code); PZ code];
      _ ← (if sizeof_SessOpRespData <? read_len
           then print_hex_block "Extra Data" buf (pay + sizeof_SessOpRespData) (read_len - sizeof_SessOpRespData) else mret ());
      finish
    else _ ← say "  [UNKNOWN] Unknown Session Msg Type in RSP: %u\n" [PZ m]; finish
  else _ ← say "  [ERROR] Unknown Action Type: %u\n" [PZ a]; finish.

Definition proxy_data_msg_content_dump (buf : list Z) : pr unit :=
  h ← lift (get_ProxyMsgHeader buf 0);
  let len := pmh_payload_len h in
  _ ← say "  --- Data Message (Transparent) ---\n" [];
  _ ← say "  [Link] Session IDs: FE=%u, BE=%u\n" [PZ (pmh_frontend_sess_id h); PZ (pmh_backend_sess_id h)];
  if 0 <? len then
    _ ← print_hex_block "Data Preview" buf PROXY_MSG_HDR_SIZE (if 32 <? len then 32 else len);
    if 32 <? len then say "  ... (%u bytes total)\n" [PZ len] else mret ()
  else mret ().

Definition proxy_msg_content_dump (header : option (list Z)) : pr unit :=
  match header with
  | None => say "[ERROR] Null pointer provided.\n" []
  | Some buf =>
      h ← lift (get_ProxyMsgHeader buf 0);
      let t := pmh_type h in
      _ ← say "\n>>> PROXY MESSAGE DUMP <<<\n" [];
      _ ← say "Version: %u\n" [PZ (pmh_version h)];
      _ ← say "Type   : %s (%u)\n" [PS (get_proxy_type_str t); PZ t];
      _ ← say "FE Ses : %u\n" [PZ (pmh_frontend_sess_id h)];
      _ ← say "BE Ses : %u\n" [PZ (pmh_backend_sess_id h)];
      _ ← say "Payload: %u bytes\n" [PZ (pmh_payload_len h)];
      if t =? PROXY_MSG_TYPE_DEV then proxy_dev_msg_content_dump buf
      else if t =? PROXY_MSG_TYPE_STRGY then proxy_strgy_msg_content_dump buf
      else if t =? PROXY_MSG_TYPE_SESS then proxy_sess_msg_content_dump buf
      else if t =? PROXY_MSG_TYPE_DATA then proxy_data_msg_content_dump buf
      else say "  [ERROR] Unknown message type %u\n" [PZ t]
  end.

(** ** parse_proxy_protocol_and_print

    Run on every block that is enqueued or dequeued (hyperamp_shm_queue.c). *)

(** [n] values from byte [off] on, each after the other. *)
Definition print_bytes (fmt : string) (buf : list Z) (off : Z) (n : Z) : pr unit :=
  for_ (Z.to_nat n) 0 (fun i => b ← rd 1 buf (off + i); say fmt [PZ b]).

Definition parse_err (fmt : string) (args : list parg) : pr status := _ ← say fmt args; mret PROCESS_ERROR.
Definition parse_done : pr status := _ ← say "===========================\n" []; mret PROCESS_OK.

Definition parse_dev (buf : list Z) (payload_len : Z) : pr status :=
  if payload_len <? sizeof_DevMsgHeader then parse_err "[PROXY_PARSE_ERR] Device message payload too short.\n" [] else
  d ← lift (get_DevMsgHeader buf PROXY_MSG_HDR_SIZE);
  let m := dmh_msg_type d in
  let a := dmh_action_type d in
  let type_str := if m =? DEV_MSG_DISABLE then "DISABLE" else if m =? DEV_MSG_ENABLE then "ENABLE" else "QUERY" in
  let action_str := if a =? ACTION_TYPE_COMMAND then "CMD" else "RESP" in
  _ ← say "[DEVICE MSG] Type=%s(%u), Action=%s(%u), MsgID=%u, SubLen=%u\n"
        [PS type_str; PZ m; PS action_str; PZ a; PZ (dmh_msg_id d); PZ (dmh_payload_len d)];
  let content_len := u16 (payload_len - sizeof_DevMsgHeader) in
  let content := PROXY_MSG_HDR_SIZE + sizeof_DevMsgHeader in
  _ ← (if 0 <? content_len then
         _ ← say "  Content Hex: " [];
         _ ← print_bytes "%02X " buf content (Z.min content_len 16);
         _ ← (if 16 <? content_len then say "..." [] else mret ());
         _ ← say "\n" [];
         if (a =? ACTION_TYPE_RESPONSE) && (2 <=? content_len) then
           r ← rd 1 buf content; e ← rd 1 buf (content + 1);
           say "  -> Result: Success=%u, ErrCode=%u\n" [PZ r; PZ e]
         else mret ()
       else say "  Content: (Empty)\n" []);
  parse_done.

Definition parse_strgy (buf : list Z) (payload_len : Z) : pr status :=
  if payload_len <? sizeof_StrgyMsgHeader then parse_err "[PROXY_PARSE_ERR] Strategy message payload too short.\n" [] else
  d ← lift (get_StrgyMsgHeader buf PROXY_MSG_HDR_SIZE);
  let type_str := if stmh_msg_type d =? STRGY_MSG_SET then "SET" else "QUERY" in
  let action_str := if stmh_action_type d =? ACTION_TYPE_COMMAND then "CMD" else "RESP" in
  _ ← say "[STRATEGY MSG] Type=%s(%u), Action=%s(%u), MsgID=%u, SubLen=%u\n"
        [PS type_str; PZ (stmh_msg_type d); PS action_str; PZ (stmh_action_type d); PZ (stmh_msg_id d); PZ (stmh_payload_len d)];
  parse_done.

(** The session header is read field by field. *)
Definition parse_sess (buf : list Z) (payload_len : Z) : pr status :=
  if payload_len <? sizeof_SessMsgHeader then parse_err "[PROXY_PARSE_ERR] Session message payload too short.\n" [] else
  m ← rd 2 buf (PROXY_MSG_HDR_SIZE + 2);
  a ← rd 2 buf (PROXY_MSG_HDR_SIZE + 4);
  ipv ← rd 2 buf (PROXY_MSG_HDR_SIZE + 6);
  if negb (ipv =? SESS_IPV4_PROTO) && negb (ipv =? SESS_IPV6_PROTO)
  then parse_err "[PROXY_PARSE_ERR] Invalid IP Version: %u (Must be 4 or 6).\n" [PZ ipv] else
  let type_str := if m =? SESS_MSG_CREATE then "CREATE" else "CLOSE" in
  let action_str := if a =? ACTION_TYPE_COMMAND then "CMD" else "RESP" in
  let ip_str := if ipv =? SESS_IPV4_PROTO then "IPv4" else "IPv6" in
  _ ← say "[SESSION MSG] Type=%s(%u), Action=%s(%u), IP=%s(%u)\n" [PS type_str; PZ m; PS action_str; PZ a; PS ip_str; PZ ipv];
  let inner_len := u16 (payload_len - sizeof_SessMsgHeader) in
  let inner := PROXY_MSG_HDR_SIZE + sizeof_SessMsgHeader in
  if (m =? SESS_MSG_CREATE) && (a =? ACTION_TYPE_COMMAND) then
    if ipv =? SESS_IPV4_PROTO then
      if inner_len <? sizeof_SessParaIPv4 then parse_err "[PROXY_PARSE_ERR] IPv4 Create payload incomplete.\n" [] else
      dev ← rd 2 buf inner; proto ← rd 2 buf (inner + 2);
      x ← rd 1 buf (inner + 4); y ← rd 1 buf (inner + 5); z ← rd 1 buf (inner + 6); w ← rd 1 buf (inner + 7); port ← rd 2 buf (inner + 8);
      _ ← say "  -> Target: DevID=%u, Proto=%u, Addr=%u.%u.%u.%u:%u\n" [PZ dev; PZ proto; PZ x; PZ y; PZ z; PZ w; PZ port];
      parse_done
    else
      if inner_len <? sizeof_SessParaIPv6 then parse_err "[PROXY_PARSE_ERR] IPv6 Create payload incomplete.\n" [] else
      dev ← rd 2 buf inner; proto ← rd 2 buf (inner + 2);
      x ← rd 1 buf (inner + 4); y ← rd 1 buf (inner + 5);
      _ ← say "  -> Target: DevID=%u, Proto=%u, Addr=IPv6(%02x%02x:...)\n" [PZ dev; PZ proto; PZ x; PZ y];
      parse_done
  else if a =? ACTION_TYPE_RESPONSE then
    if inner_len <? 2 then parse_err "[PROXY_PARSE_ERR] Session Response payload too short.\n" [] else
    r ← rd 1 buf inner; e ← rd 1 buf (inner + 1);
    _ ← say "  -> Result: Success=%u, ErrCode=%u\n" [PZ r; PZ e];
    parse_done
  else _ ← say "  -> Content: (Empty or Command Close)\n" []; parse_done.

Definition parse_data (buf : list Z) (payload_len : Z) : pr status :=
  _ ← say "[DATA MSG] Raw Data Length: %u bytes\n" [PZ payload_len];
  _ ← (if 0 <? payload_len then
         _ ← say "  First 16 bytes: " [];
         _ ← print_bytes "%02X " buf PROXY_MSG_HDR_SIZE (if payload_len <? 16 then payload_len else 16);
         say "\n" []
       else mret ());
  parse_done.

(** The address inside an IoT message, by protocol, at [off]. *)
Definition parse_iot_addr (buf : list Z) (proto off : Z) : pr unit :=
  if proto =? IOT_PROTO_TYPE_BLUETOOTH then
    mac ← lift (bread buf off 18); port ← rd 2 buf (off + 18);
    say "MAC=%s, Port=%u\n" [PB (up_to_nul mac); PZ port]
  else if proto =? IOT_PROTO_TYPE_CAN then
    port ← rd 2 buf off; can_id ← rd 4 buf (off + 2); bus_id ← rd 1 buf (off + 6);
    say "BusID=%u, CanID=0x%X, Port=%u\n" [PZ bus_id; PZ can_id; PZ port]
  else if proto =? IOT_PROTO_TYPE_ZIGBEE then
    pan_id ← rd 2 buf (off + 8); endpoint ← rd 1 buf (off + 10);
    _ ← say "PAN=0x%04X, EP=%u, MAC=" [PZ pan_id; PZ endpoint];
    _ ← print_bytes "%02X" buf off 8;
    say "\n" []
  else if proto =? IOT_PROTO_TYPE_LORA then
    dev_eui ← rd 8 buf off; port ← rd 2 buf (off + 8); freq_band ← rd 1 buf (off + 10);
    say "DevEUI=%llu, Port=%u, Band=%u\n" [PZ dev_eui; PZ port; PZ freq_band]
  else if proto =? IOT_PROTO_TYPE_POWERLINK then
    node_id ← rd 2 buf off; pdo_id ← rd 2 buf (off + 8);
    _ ← say "NodeID=%u, PDO=%u, MAC=" [PZ node_id; PZ pdo_id];
    _ ← print_bytes "%02X" buf (off + 2) 6;
    say "\n" []
  else
    _ ← print_ipv4 "IP=%u.%u.%u.%u" buf off; port ← rd 2 buf (off + 4);
    _ ← say ", Port=%u\n" [PZ port];
    unit_id ← rd 1 buf (off + 6); reg_addr ← rd 2 buf (off + 7); reg_num ← rd 2 buf (off + 9);
    say "    UnitID=%u, RegAddr=%hu, RegNum=%hu\n" [PZ unit_id; PZ reg_addr; PZ reg_num].

Definition iot_proto_str (proto : Z) : string :=
  if proto =? IOT_PROTO_TYPE_BLUETOOTH then "BLUETOOTH" else if proto =? IOT_PROTO_TYPE_ZIGBEE then "ZIGBEE"
  else if proto =? IOT_PROTO_TYPE_CAN then "CAN" else if proto =? IOT_PROTO_TYPE_LORA then "LORA"
  else if proto =? IOT_PROTO_TYPE_POWERLINK then "POWERLINK" else if proto =? IOT_PROTO_TYPE_MODBUSTCP then "MODBUS_TCP" else "UNKNOWN".

(** The length of the payload counts the address; the bytes printed start
    behind it. *)
Definition parse_iot (buf : list Z) (payload_len : Z) : pr status :=
  if payload_len <? sizeof_IotMsgHeader then parse_err "[PROXY_PARSE_ERR] IoT message payload too short for header.\n" [] else
  proto ← rd 2 buf (PROXY_MSG_HDR_SIZE + 2);
  opcode ← rd 2 buf (PROXY_MSG_HDR_SIZE + 4);
  port_id ← rd 2 buf (PROXY_MSG_HDR_SIZE + 6);
  iot_len ← rd 2 buf (PROXY_MSG_HDR_SIZE + 8);
  _ ← say "[IOT MSG] Proto=%s(%u), Opcode=%u, PortID=%u, PayloadLen=%u\n" [PS (iot_proto_str proto); PZ proto; PZ opcode; PZ port_id; PZ iot_len];
  let addr_size := get_iot_addr_length proto in
  if addr_size =? 0 then parse_err "[PROXY_PARSE_ERR] Unknown IoT Protocol Type: %u\n" [PZ proto] else
  if payload_len <? sizeof_IotMsgHeader + iot_len then parse_err "[PROXY_PARSE_ERR] IoT message internal length mismatch.\n" [] else
  let addr := PROXY_MSG_HDR_SIZE + sizeof_IotMsgHeader in
  _ ← say "  Address Info: " [];
  _ ← parse_iot_addr buf proto addr;
  _ ← (if 0 <? iot_len then
         _ ← say "  IoT Payload (First 16 bytes): " [];
         _ ← print_bytes "%02X " buf (addr + addr_size) (if iot_len <? 16 then iot_len else 16);
         say "\n" []
       else mret ());
  parse_done.

Definition parse_proxy_protocol_and_print (buffer : option (list Z)) : pr status :=
  match buffer with
  | None => parse_err "[PROXY_PARSE_ERR] buffer is NULL.\n" []
  | Some buf =>
      h ← lift (get_ProxyMsgHeader buf 0);
      let t := pmh_type h in
      _ ← say "=== Proxy Packet Received ===\n" [];
      _ ← say "Header: Ver=%u, Type=%u, F-SID=%u, B-SID=%u, PayloadLen=%u\n"
            [PZ (pmh_version h); PZ t; PZ (pmh_frontend_sess_id h); PZ (pmh_backend_sess_id h); PZ (pmh_payload_len h)];
      if t =? PROXY_MSG_TYPE_DEV then parse_dev buf (pmh_payload_len h)
      else if t =? PROXY_MSG_TYPE_STRGY then parse_strgy buf (pmh_payload_len h)
      else if t =? PROXY_MSG_TYPE_SESS then parse_sess buf (pmh_payload_len h)
      else if t =? PROXY_MSG_TYPE_DATA then parse_data buf (pmh_payload_len h)
      else if t =? PROXY_MSG_TYPE_IOT then parse_iot buf (pmh_payload_len h)
      else parse_err "[PROXY_PARSE_ERR] Unknown Proxy Message Type: %u\n" [PZ t]
  end.

(** ** Structures of the program *)

Definition print_mac (buf : list Z) (off n : Z) : pr unit :=
  for_ (Z.to_nat n) 0 (fun i => b ← rd 1 buf (off + i); _ ← say "%02X" [PZ b]; if i <? n - 1 then say ":" [] else mret ()).

(** [%.17s]. *)
Definition pct_17s (l : list Z) : parg := PB (up_to_nul (take 17 l)).

Definition print_iot_addr_details (addr : option IotAddr) : pr unit :=
  match addr with
  | None => mret ()
  | Some a =>
      let t := addr_type a in
      let u := addr_info a in
      _ ← say "  Protocol Type: %u " [PZ t];
      if t =? 0 then say "(UNKNOWN)\n" []
      else if t =? IOT_PROTO_TYPE_BLUETOOTH then
        _ ← say "(BLUETOOTH)\n" [];
        mac ← lift (bread u 0 18); port ← rd 2 u 18;
        _ ← say "  MAC:   %.17s\n" [pct_17s mac]; say "  Port:  %u\n" [PZ port]
      else if t =? IOT_PROTO_TYPE_ZIGBEE then
        _ ← say "(ZIGBEE)\n" [];
        _ ← say "  MAC:     " []; _ ← print_mac u 0 8;
        pan_id ← rd 2 u 8; endpoint ← rd 1 u 10;
        say "\n  PAN ID:  0x%04X\n  Endpoint:%u\n" [PZ pan_id; PZ endpoint]
      else if t =? IOT_PROTO_TYPE_CAN then
        _ ← say "(CAN)\n" [];
        port ← rd 2 u 0; can_id ← rd 4 u 2; bus_id ← rd 1 u 6;
        say "  Port:   %u\n  CAN ID: 0x%08X\n  Bus ID: %u\n" [PZ port; PZ can_id; PZ bus_id]
      else if t =? IOT_PROTO_TYPE_LORA then
        _ ← say "(LORA)\n" [];
        dev_eui ← rd 8 u 0; port ← rd 2 u 8; freq_band ← rd 1 u 10;
        say "  Dev EUI:   0x%016lx\n  Port: %u\n  Freq Band: %u\n" [PZ dev_eui; PZ port; PZ freq_band]
      else if t =? IOT_PROTO_TYPE_POWERLINK then
        _ ← say "(POWERLINK)\n" [];
        node_id ← rd 2 u 0;
        _ ← say "  Node ID: %u\n  MAC: " [PZ node_id]; _ ← print_mac u 2 6;
        pdo_id ← rd 2 u 8;
        say "\n  PDO ID:  %u\n" [PZ pdo_id]
      else if t =? IOT_PROTO_TYPE_MODBUSTCP then
        _ ← say "(MODBUS TCP)\n" [];
        _ ← print_ipv4 "  IP:   %u.%u.%u.%u\n" u 0;
        port ← rd 2 u 4;
        _ ← say "  Port: %u\n" [PZ port];
        unit_id ← rd 1 u 6; reg_addr ← rd 2 u 7; reg_num ← rd 2 u 9;
        say "    UnitID=%u, RegAddr=%hu, RegNum=%hu\n" [PZ unit_id; PZ reg_addr; PZ reg_num]
      else say "(UNSUPPORTED)\n" []
  end.

Definition outer_type_str (t : Z) : string :=
  if t =? PROXY_MSG_TYPE_DEV then "(DEV)\n" else if t =? PROXY_MSG_TYPE_STRGY then "(STRATEGY)\n" else if t =? PROXY_MSG_TYPE_SESS then "(SESSION)\n"
  else if t =? PROXY_MSG_TYPE_DATA then "(DATA)\n" else if t =? PROXY_MSG_TYPE_IOT then "(IOT)\n" else "(UNKNOWN)\n".

Definition inner_type_str (t : Z) : string :=
  if t =? IOT_PROTO_TYPE_BLUETOOTH then "(BLUETOOTH)\n" else if t =? IOT_PROTO_TYPE_ZIGBEE then "(ZIGBEE)\n"
  else if t =? IOT_PROTO_TYPE_CAN then "(CAN)\n" else if t =? IOT_PROTO_TYPE_LORA then "(LORA)\n"
  else if t =? IOT_PROTO_TYPE_POWERLINK then "(POWERLINK)\n" else if t =? IOT_PROTO_TYPE_MODBUSTCP then "(MODBUS TCP)\n" else "(UNKNOWN)\n".

Definition PRINT_SEPARATOR : pr unit := say "--------------------------------------------------\n" [].

Definition print_iot_header (outer : ProxyMsgHeader) (i : IotMsgHeader) (a : IotAddr) : pr unit :=
  _ ← say "[Inner Header: IOT]\n" [];
  _ ← say "  Proto Ver:   %u\n" [PZ (imh_proto_ver i)];
  _ ← say "  Proto Type:  %u " [PZ (imh_proto_type i)];
  _ ← say (inner_type_str (imh_proto_type i)) [];
  _ ← say "  Opcode:      %u\n" [PZ (imh_opcode i)];
  _ ← say "  Dev Port ID: %u\n" [PZ (imh_dev_port_id i)];
  _ ← say "  Payload Len: %u (Includes Addr + Data)\n" [PZ (imh_payload_len i)];
  _ ← say "  Reserve:     %u\n" [PZ (imh_reserve i)];
  let expected := sizeof_IotMsgHeader + imh_payload_len i in
  _ ← (if negb (pmh_payload_len outer =? expected) then
         _ ← say "  [WARNING] Length Mismatch!\n" [];
         _ ← say "            Outer Payload (%u) != IotHeader Size (%zu) + Inner Payload (%u)\n"
               [PZ (pmh_payload_len outer); PZ sizeof_IotMsgHeader; PZ (imh_payload_len i)];
         say "            Expected: %zu, Got: %u\n" [PZ expected; PZ (pmh_payload_len outer)]
       else say "  [OK] Length validation passed.\n" []);
  let min_addr_size := get_iot_addr_length (imh_proto_type i) in
  _ ← (if (0 <? min_addr_size) && (imh_payload_len i <? min_addr_size)
       then say "  [ERROR] Inner Payload (%u) is smaller than minimum Address Size (%zu) for this protocol!\n" [PZ (imh_payload_len i); PZ min_addr_size]
       else mret ());
  _ ← say "[IoT Address Info]\n" [];
  print_iot_addr_details (Some a).

(** The second definition of the file; the first is compiled out. *)
Definition print_general_proxy_msg_header (hdr : option GeneralProxyMsgHeader) : pr unit :=
  match hdr with
  | None => say "[ERROR] Input header pointer is NULL.\n" []
  | Some g =>
      let o := outer_header g in
      let t := pmh_type o in
      _ ← say "=== GeneralProxyMsgHeader Dump ===\n" [];
      _ ← say "[Outer Header]\n" [];
      _ ← say "  Version:          %u\n" [PZ (pmh_version o)];
      _ ← say "  Msg Type:         %u " [PZ t];
      _ ← say (outer_type_str t) [];
      _ ← say "  Frontend Sess ID: %u\n" [PZ (pmh_frontend_sess_id o)];
      _ ← say "  Backend Sess ID:  %u\n" [PZ (pmh_backend_sess_id o)];
      _ ← say "  Payload Len:      %u\n" [PZ (pmh_payload_len o)];
      _ ← (if t =? PROXY_MSG_TYPE_DEV then
             let d := dev_hdr (inner_header g) in
             _ ← say "[Inner Header: DEV]\n" [];
             say "  Version: %u, MsgType: %u, ID: %u, Action: %u, PayLen: %u\n"
               [PZ (dmh_version d); PZ (dmh_msg_type d); PZ (dmh_msg_id d); PZ (dmh_action_type d); PZ (dmh_payload_len d)]
           else if t =? PROXY_MSG_TYPE_STRGY then
             let s := strgy_hdr (inner_header g) in
             _ ← say "[Inner Header: STRATEGY]\n" [];
             say "  Version: %u, MsgType: %u, ID: %u, Action: %u, PayLen: %u\n"
               [PZ (stmh_version s); PZ (stmh_msg_type s); PZ (stmh_msg_id s); PZ (stmh_action_type s); PZ (stmh_payload_len s)]
           else if t =? PROXY_MSG_TYPE_SESS then
             let s := sess_hdr (inner_header g) in
             _ ← say "[Inner Header: SESSION]\n" [];
             say "  Version: %u, MsgType: %u, Action: %u, IPVer: %u, PayLen: %u\n"
               [PZ (semh_version s); PZ (semh_msg_type s); PZ (semh_action_type s); PZ (semh_ip_version s); PZ (semh_payload_len s)]
           else if t =? PROXY_MSG_TYPE_DATA then say "[Inner Header: DATA] (No specific inner header)\n" []
           else if t =? PROXY_MSG_TYPE_IOT then print_iot_header o (iot_hdr (inner_header g)) (iot_addr g)
           else say "[Inner Header]: Unknown type.\n" []);
      PRINT_SEPARATOR
  end.

Definition print_iot_addr (addr : option IotAddr) : pr unit :=
  match addr with
  | None => say "  [Address] NULL\n" []
  | Some a =>
      let t := addr_type a in
      let u := addr_info a in
      _ ← say "  Protocol Type: %u " [PZ t];
      if t =? 0 then _ ← say "(UNKNOWN)\n" []; say "  (No address parsing for UNKNOWN type)\n" []
      else if get_iot_addr_length t =? 0 then
        _ ← say "(UNSUPPORTED)\n" [];
        _ ← say "  Raw Bytes: " [];
        _ ← print_bytes "%02X " u 0 16;
        say "\n" []
      else
        _ ← say (inner_type_str t) [];
        _ ← (if t =? IOT_PROTO_TYPE_BLUETOOTH then
               mac ← lift (bread u 0 18); port ← rd 2 u 18;
               _ ← say "  MAC:   %.17s\n" [pct_17s mac]; say "  Port:  %u\n" [PZ port]
             else if t =? IOT_PROTO_TYPE_ZIGBEE then
               _ ← say "  MAC:     " []; _ ← print_mac u 0 8; _ ← say "\n" [];
               pan_id ← rd 2 u 8; endpoint ← rd 1 u 10;
               _ ← say "  PAN ID:  0x%04X\n" [PZ pan_id]; say "  Endpoint:%u\n" [PZ endpoint]
             else if t =? IOT_PROTO_TYPE_CAN then
               port ← rd 2 u 0; can_id ← rd 4 u 2; bus_id ← rd 1 u 6;
               _ ← say "  Port:   %u\n" [PZ port]; _ ← say "  CAN ID: 0x%08X\n" [PZ can_id]; say "  Bus ID: %u\n" [PZ bus_id]
             else if t =? IOT_PROTO_TYPE_LORA then
               dev_eui ← rd 8 u 0; port ← rd 2 u 8; freq_band ← rd 1 u 10;
               _ ← say "  Dev EUI:   0x%016lx\n" [PZ dev_eui]; _ ← say "  Port:      %u\n" [PZ port]; say "  Freq Band: %u\n" [PZ freq_band]
             else if t =? IOT_PROTO_TYPE_POWERLINK then
               node_id ← rd 2 u 0;
               _ ← say "  Node ID: %u\n" [PZ node_id]; _ ← say "  MAC:     " []; _ ← print_mac u 2 6; _ ← say "\n" [];
               pdo_id ← rd 2 u 8;
               say "  PDO ID:  %u\n" [PZ pdo_id]
             else
               _ ← print_ipv4 "  IP:      %u.%u.%u.%u\n" u 0; port ← rd 2 u 4; say "  Port:    %u\n" [PZ port]);
        say "  (Expected Struct Size: %d bytes)\n" [PZ (get_iot_addr_length t)]
  end.

(** The fields of an IotMsgBuffer the dump reads; pointers are numbers, 0 for
    NULL; [ib_bytes] is what lies behind [data]. *)
Record iot_buffer := { ib_msg_id : Z; ib_timestamp : Z; ib_len : Z; ib_data : Z; ib_bytes : list Z; ib_ext_info : Z; ib_addr : IotAddr }.

Definition print_iot_msg_buffer (buf : option iot_buffer) : pr unit :=
  match buf with
  | None => say "[ERROR] Input IotMsgBuffer pointer is NULL.\n" []
  | Some b =>
      _ ← say "=== IotMsgBuffer Dump ===\n" [];
      _ ← say "[Metadata]\n" [];
      _ ← say "  Message ID:    %u\n" [PZ (ib_msg_id b)];
      _ ← say "  Timestamp:     %lu ms\n" [PZ (ib_timestamp b)];
      _ ← say "  Data Length:   %u bytes\n" [PZ (ib_len b)];
      _ ← say "  Data Pointer:  %p\n" [PZ (ib_data b)];
      _ ← (if (ib_data b =? 0) && (0 <? ib_len b) then say "  [WARNING] Data length is > 0 but data pointer is NULL!\n" [] else mret ());
      _ ← say "[Extended Info]\n" [];
      _ ← (if ib_ext_info b =? 0 then say "  Ptr:           NULL\n" [] else say "  Ptr:           %p (Content not parsed)\n" [PZ (ib_ext_info b)]);
      _ ← say "[Address Information]\n" [];
      _ ← print_iot_addr (Some (ib_addr b));
      _ ← say "[Raw Data Payload]\n" [];
      _ ← (if (ib_data b =? 0) || (ib_len b =? 0) then say "  (No data to display)\n" [] else
             let dump_len := if 64 <? ib_len b then 64 else ib_len b in
             _ ← say "  Showing first %u of %u bytes:\n" [PZ dump_len; PZ (ib_len b)];
             _ ← for_ (Z.to_nat dump_len) 0 (fun i =>
                   _ ← (if i mod 16 =? 0 then say "  %04X: " [PZ i] else mret ());
                   x ← rd 1 (ib_bytes b) i;
                   _ ← say "%02X " [PZ x];
                   if (i + 1) mod 16 =? 0 then say "\n" [] else mret ());
             _ ← (if negb (dump_len mod 16 =? 0) then say "\n" [] else mret ());
             if 64 <? ib_len b then say "  ... (%u bytes omitted)\n" [PZ (ib_len b - 64)] else mret ());
      PRINT_SEPARATOR
  end.

(** ** The traces of the session code

    printf with %s of bytes that are no C strings: backend_proxy_data_msg_process
    prints the received block from the payload on and the segment just filled;
    high_speed_data_process_nns prints what it read from the socket. *)

Definition data_msg_trace (msg : list Z) (off : Z) (seg_data : list Z) : pr unit :=
  a ← pct_s msg off; b ← pct_s seg_data 0;
  say "msg is %s, msg_seg->data is %s\n" [a; b].

Definition nns_trace (seg_data : list Z) : pr unit :=
  a ← pct_s seg_data PROXY_MSG_HDR_SIZE;
  say "msg_data = %s\n" [a].
