(* ===== verification/DumpSpec.v ===== *)
(** * DumpSpec: what the dumps read

    [returns p Q]: the computation comes back, with a value that satisfies [Q].
    The rules follow the program text, so [dump] walks through a dump function
    and leaves what the reads need: that they lie inside the buffer. *)

From S2P Require Import Prelude Bytes ByteStore Message Session Dump.
From stdpp Require Import base list numbers option.
From Stdlib Require Import ZArith Lia String.
#[local] Open Scope Z_scope.

Definition returns {A} (p : pr A) (Q : A -> Prop) : Prop := exists out a, run p = Done (out, a) /\ Q a.

(** ** Rules *)

Section Rules.
Context {A B : Type}.
Implicit Types (p : pr A) (f : A -> pr B).

Lemma returns_ret (a : A) (Q : A -> Prop) : Q a -> returns (mret a) Q.
Proof. intros. by exists [], a. Qed.

Lemma run_bind p f : run (p ≫= f) = (r ← run p; r' ← run (f (snd r)); Done ((fst r ++ fst r')%list, snd r')).
Proof. done. Qed.

Lemma returns_bind p f (Q : B -> Prop) : returns p (fun a => returns (f a) Q) -> returns (p ≫= f) Q.
Proof.
  intros (o1 & a & E1 & o2 & b & E2 & HQ). exists (o1 ++ o2)%list, b.
  split; [|done]. rewrite run_bind, E1. cbn [mbind outcome_bind snd fst]. by rewrite E2.
Qed.

Lemma returns_mono p (Q Q' : A -> Prop) : (forall a, Q a -> Q' a) -> returns p Q -> returns p Q'.
Proof. intros H (o & a & E & HQ). exists o, a. auto. Qed.

Lemma returns_seq p f (Q : B -> Prop) :
  returns p (fun _ => True) -> (forall a, returns (f a) Q) -> returns (p ≫= f) Q.
Proof. intros Hp Hf. apply returns_bind. by apply (returns_mono p (fun _ => True)). Qed.

Lemma returns_if (c : bool) p p' (Q : A -> Prop) :
  (c = true -> returns p Q) -> (c = false -> returns p' Q) -> returns (if c then p else p') Q.
Proof. destruct c; auto. Qed.

Lemma returns_lift (o : outcome A) a (Q : A -> Prop) : o = Done a -> Q a -> returns (lift o) Q.
Proof. intros -> ?. by exists [], a. Qed.
End Rules.

Lemma returns_say fmt args (Q : unit -> Prop) : Q () -> returns (say fmt args) Q.
Proof. intros. by exists [(fmt, args)], (). Qed.

Lemma returns_for n i f :
  (forall j, i <= j < i + Z.of_nat n -> returns (f j) (fun _ => True)) -> returns (for_ n i f) (fun _ => True).
Proof.
  revert i. induction n as [|n IH]; intros i Hf; cbn [for_]; [by apply returns_ret|].
  apply returns_seq; [apply Hf; lia|]. intros _. apply IH. intros j Hj. apply Hf. lia.
Qed.

(** What the reads of [buf] need. *)
Section Reads.
Context (buf : list Z) (Hb : Forall is_byte buf).

Lemma returns_rd n off (Q : Z -> Prop) :
  0 <= off -> off + Z.of_nat n <= blen buf -> (forall v, 0 <= v < 2 ^ (8 * Z.of_nat n) -> Q v) -> returns (rd n buf off) Q.
Proof using Hb.
  intros H0 Hn HQ. destruct (bget_ok n buf off) as [v Hv]; [done..|].
  apply (returns_lift _ v); [done|]. eauto using bget_range.
Qed.

Lemma returns_bytes off n (Q : list Z -> Prop) :
  0 <= off -> 0 <= n -> off + n <= blen buf -> (forall l, Q l) -> returns (lift (bread buf off n)) Q.
Proof using. intros. eapply returns_lift; [by apply bread_ok|done]. Qed.

(** A structure of [ws] fields. *)
Lemma gets_ok ws off :
  0 <= off -> off + total_width ws <= blen buf ->
  exists l, st_gets ws buf off = Done l /\ Forall2 (fun w v => 0 <= v < 2 ^ (8 * Z.of_nat w)) ws l.
Proof using Hb.
  revert off. induction ws as [|w ws IH]; intros off H0 Hw; cbn [st_gets]; [by exists []|].
  cbn [total_width fold_right] in Hw. fold (total_width ws) in Hw.
  assert (Hp : 0 <= total_width ws) by (clear; unfold total_width; induction ws; cbn; lia).
  destruct (bget_ok w buf off) as [v Hv]; [lia..|].
  destruct (IH (off + Z.of_nat w)) as (l & Hl & HF); [lia..|].
  exists (v :: l). unfold st_get. cbn. unfold bget in Hv. rewrite Hv. cbn. rewrite Hl. split; [done|].
  constructor; [|done]. by apply (bget_range w buf off).
Qed.

Lemma get_header_ok :
  8 <= blen buf -> exists h, get_ProxyMsgHeader buf 0 = Done h /\ 0 <= pmh_payload_len h < 65536.
Proof using Hb.
  intros Hl. destruct (gets_ok [1; 1; 2; 2; 2]%nat 0) as (l & E & HF); [lia|exact Hl|].
  unfold get_ProxyMsgHeader. rewrite E.
  repeat (apply Forall2_cons_inv_l in HF as (? & ? & ? & HF & ->)). apply Forall2_nil_inv_l in HF as ->.
  eexists. split; [done|]. done.
Qed.

Lemma words5_ok off :
  0 <= off -> off + 10 <= blen buf ->
  exists w, get_words5 buf off = Done w /\ 0 <= iw4 w < 65536.
Proof using Hb.
  intros H0 Hl. destruct (gets_ok [2; 2; 2; 2; 2]%nat off) as (l & E & HF); [lia|exact Hl|].
  unfold get_words5. rewrite E.
  repeat (apply Forall2_cons_inv_l in HF as (? & ? & ? & HF & ->)). apply Forall2_nil_inv_l in HF as ->.
  eexists. split; [done|]. done.
Qed.

Lemma returns_words5 (A : Type) (g : InnerHeader -> A) off (Q : A -> Prop) :
  0 <= off -> off + 10 <= blen buf -> (forall w, 0 <= iw4 w < 65536 -> Q (g w)) ->
  returns (lift (w ← get_words5 buf off; Done (g w))) Q.
Proof using Hb.
  intros H0 Hl HQ. destruct (words5_ok off) as (w & E & Hw); [done..|].
  apply (returns_lift _ (g w)); [by rewrite E|auto].
Qed.

Lemma returns_header (Q : ProxyMsgHeader -> Prop) :
  8 <= blen buf -> (forall h, get_ProxyMsgHeader buf 0 = Done h -> 0 <= pmh_payload_len h < 65536 -> Q h) ->
  returns (lift (get_ProxyMsgHeader buf 0)) Q.
Proof using Hb. intros Hl HQ. destruct get_header_ok as (h & E & Hh); [done|]. apply (returns_lift _ h); auto. Qed.
End Reads.

Lemma print_bytes_returns buf fmt off n :
  Forall is_byte buf -> 0 <= off -> off + n <= blen buf -> returns (print_bytes fmt buf off n) (fun _ => True).
Proof.
  intros Hb H0 Hn. apply returns_for. intros j Hj. apply returns_bind, returns_rd; [done|lia..|].
  intros. by apply returns_say.
Qed.

Lemma print_hex_block_returns buf label off n :
  Forall is_byte buf -> 0 <= off -> off + n <= blen buf -> returns (print_hex_block label buf off n) (fun _ => True).
Proof.
  intros Hb H0 Hn. apply returns_if; intros _; [by apply returns_ret|]. apply returns_bind, returns_say.
  apply returns_seq; [|intros _; by apply returns_say]. apply returns_for. intros j Hj.
  apply returns_bind, returns_rd; [done|lia..|]. intros v _. apply returns_bind, returns_say.
  apply returns_if; intros _; [by apply returns_say|by apply returns_ret].
Qed.

Lemma print_bits_returns n mask : returns (print_bits n mask) (fun _ => True).
Proof.
  induction n as [|n IH]; cbn [print_bits]; [by apply returns_ret|]. apply returns_bind, returns_say.
  apply returns_seq; [|done]. apply returns_if; intros _; [by apply returns_say|by apply returns_ret].
Qed.

Lemma print_binary_mask_returns label mask : returns (print_binary_mask label mask) (fun _ => True).
Proof.
  unfold print_binary_mask. apply returns_bind, returns_say. apply returns_seq; [apply print_bits_returns|].
  intros _. by apply returns_say.
Qed.

Lemma print_ipv4_returns buf fmt off :
  Forall is_byte buf -> 0 <= off -> off + 4 <= blen buf -> returns (print_ipv4 fmt buf off) (fun _ => True).
Proof.
  intros Hb H0 Hn. unfold print_ipv4. do 4 (apply returns_bind, returns_rd; [done|lia..|intros ? _]). by apply returns_say.
Qed.

Lemma print_ipv6_returns buf off :
  Forall is_byte buf -> 0 <= off -> off + 16 <= blen buf -> returns (print_ipv6 buf off) (fun _ => True).
Proof.
  intros Hb H0 Hn. apply returns_for. intros j Hj.
  do 2 (apply returns_bind, returns_rd; [done|lia..|intros ? _]). apply returns_bind, returns_say.
  apply returns_if; intros _; [by apply returns_say|by apply returns_ret].
Qed.

(** What the parser answers. *)
Definition verdict (st : status) : Prop := st = PROCESS_OK \/ st = PROCESS_ERROR.

Lemma parse_err_returns fmt args : returns (parse_err fmt args) verdict.
Proof. apply returns_bind, returns_say, returns_ret. by right. Qed.

Lemma parse_done_returns : returns parse_done verdict.
Proof. apply returns_bind, returns_say, returns_ret. by left. Qed.

Lemma get_iot_addr_length_range t : 0 <= get_iot_addr_length t <= 20.
Proof. unfold get_iot_addr_length. repeat case_match; by split. Qed.

(** The parts that come back by themselves. *)
Create HintDb dump discriminated.
#[export] Hint Resolve print_bytes_returns print_hex_block_returns print_binary_mask_returns print_ipv4_returns print_ipv6_returns
  parse_err_returns parse_done_returns : dump.

(** One statement of a dump function. *)
Ltac dump_step :=
  match goal with
  | |- returns (mret _) _ => apply returns_ret; try exact I
  | |- returns (say _ _) _ => apply returns_say; try exact I
  | |- returns (if _ then _ else _) _ => apply returns_if; intros ?
  | |- returns (say _ _ ≫= _) _ => apply returns_bind, returns_say
  | |- returns (rd _ _ _ ≫= _) _ => apply returns_bind, returns_rd; [assumption|lia|lia|intros ? ?]
  | |- returns (lift (bread _ _ _) ≫= _) _ => apply returns_bind, returns_bytes; [lia..|intros ?]
  | |- returns (lift (get_DevMsgHeader _ _) ≫= _) _ => apply returns_bind, returns_words5; [assumption|lia|lia|intros ? ?]
  | |- returns (lift (get_StrgyMsgHeader _ _) ≫= _) _ => apply returns_bind, returns_words5; [assumption|lia|lia|intros ? ?]
  | |- returns (lift (get_SessMsgHeader _ _) ≫= _) _ => apply returns_bind, returns_words5; [assumption|lia|lia|intros ? ?]
  | |- returns (lift (get_ProxyMsgHeader _ 0) ≫= _) _ => apply returns_bind, returns_header; [assumption|lia|intros ? ? ?]
  | |- returns (_ ≫= _) _ => apply returns_seq; [|intros _]
  | |- _ => solve [auto with dump lia]
  end.

(** The whole function; sizes are numbers. *)
Ltac sizes :=
  cbv zeta delta [PROXY_MSG_HDR_SIZE sizeof_DevMsgHeader sizeof_StrgyMsgHeader sizeof_SessMsgHeader sizeof_IotMsgHeader
    sizeof_SessParaIPv4 sizeof_SessParaIPv6 sizeof_SessOpRespData].
Ltac dump := sizes; repeat dump_step.

(** ** parse_proxy_protocol_and_print *)

Section Parse.
Context (buf : list Z) (Hb : Forall is_byte buf) (Hlen : 56 <= blen buf).

Lemma parse_dev_returns n : returns (parse_dev buf n) verdict.
Proof using Hb Hlen. unfold parse_dev. dump. Qed.

Lemma parse_strgy_returns n : returns (parse_strgy buf n) verdict.
Proof using Hb Hlen. unfold parse_strgy. dump. Qed.

Lemma parse_sess_returns n : returns (parse_sess buf n) verdict.
Proof using Hb Hlen. unfold parse_sess. dump. Qed.

Lemma parse_data_returns n : returns (parse_data buf n) verdict.
Proof using Hb Hlen. unfold parse_data. dump. case_match; auto with dump lia. Qed.

Lemma parse_iot_addr_returns proto : returns (parse_iot_addr buf proto 20) (fun _ => True).
Proof using Hb Hlen. unfold parse_iot_addr. dump. Qed.

Lemma parse_iot_returns n : returns (parse_iot buf n) verdict.
Proof using Hb Hlen.
  unfold parse_iot. dump; [apply parse_iot_addr_returns|].
  match goal with |- context [get_iot_addr_length ?t] => pose proof (get_iot_addr_length_range t) end.
  apply print_bytes_returns; [done|lia|case_match; lia].
Qed.

End Parse.

(** ** The dumps of one message *)

(** The length given to the reads. *)
Lemma read_len_range (d n : Z) : 0 <= d -> 10 <= n < 65536 ->
  let r := if d <? u16 (n - 10) then d else u16 (n - 10) in 0 <= r <= n - 10.
Proof. intros Hd Hn r. subst r. rewrite u16_id by lia. case_match; lia. Qed.

(** A content dump: after the two headers, the length is a number in range. *)
Ltac content :=
  sizes; dump_step; [repeat dump_step|]; dump_step;
  cbn [dmh_payload_len dev_hdr stmh_payload_len strgy_hdr semh_payload_len sess_hdr];
  match goal with
  | |- context [if ?d <? u16 (?n - 10) then ?d else u16 (?n - 10)] =>
      pose proof (read_len_range d n ltac:(lia) ltac:(lia)) as Hr; cbv zeta in Hr; revert Hr;
      generalize (if d <? u16 (n - 10) then d else u16 (n - 10)); intros ? Hr
  end;
  repeat dump_step.

Section Content.
Context (buf : list Z) (Hb : Forall is_byte buf) (h : ProxyMsgHeader) (Hh : get_ProxyMsgHeader buf 0 = Done h).
Context (Hsize : 8 <= blen buf) (Hlen : 8 + pmh_payload_len h <= blen buf).

Lemma payload_len_range : 0 <= pmh_payload_len h < 65536.
Proof using Hb Hh Hsize. destruct (get_header_ok buf) as (h' & E & Hr); [done..|]. congruence. Qed.

Lemma returns_the_header (A : Type) (f : ProxyMsgHeader -> pr A) (Q : A -> Prop) :
  returns (f h) Q -> returns (lift (get_ProxyMsgHeader buf 0) ≫= f) Q.
Proof using Hh. intros. apply returns_bind. by apply (returns_lift _ h). Qed.

Lemma proxy_data_msg_content_dump_returns : returns (proxy_data_msg_content_dump buf) (fun _ => True).
Proof using Hb Hh Hsize Hlen.
  pose proof payload_len_range. unfold proxy_data_msg_content_dump. apply returns_the_header. dump.
  case_match; auto with dump lia.
Qed.

Lemma proxy_dev_msg_content_dump_returns : returns (proxy_dev_msg_content_dump buf) (fun _ => True).
Proof using Hb Hh Hsize Hlen.
  pose proof payload_len_range. unfold proxy_dev_msg_content_dump. apply returns_the_header. content.
Qed.

Lemma proxy_strgy_msg_content_dump_returns : returns (proxy_strgy_msg_content_dump buf) (fun _ => True).
Proof using Hb Hh Hsize Hlen.
  pose proof payload_len_range. unfold proxy_strgy_msg_content_dump. apply returns_the_header. content.
Qed.

Lemma print_sess_para_returns n address read_len :
  returns address (fun _ => True) -> 0 <= n -> 6 + n <= read_len -> 18 + read_len <= blen buf ->
  returns (print_sess_para buf 18 n address read_len) (fun _ => True).
Proof using Hb.
  intros. unfold print_sess_para. repeat dump_step.
Qed.

Lemma proxy_sess_msg_content_dump_returns : returns (proxy_sess_msg_content_dump buf) (fun _ => True).
Proof using Hb Hh Hsize Hlen.
  pose proof payload_len_range. unfold proxy_sess_msg_content_dump. apply returns_the_header.
  content; apply print_sess_para_returns; repeat dump_step; lia.
Qed.

Lemma proxy_msg_content_dump_returns : returns (proxy_msg_content_dump (Some buf)) (fun _ => True).
Proof using Hb Hh Hsize Hlen.
  unfold proxy_msg_content_dump. apply returns_the_header. dump;
    eauto using proxy_dev_msg_content_dump_returns, proxy_strgy_msg_content_dump_returns, proxy_sess_msg_content_dump_returns,
      proxy_data_msg_content_dump_returns.
Qed.
End Content.

(** C39. Whatever a block holds, the diagnostics read inside it:
    parse_proxy_protocol_and_print, which the queue functions run on each block
    they move, returns on every buffer of at least 56 bytes (theirs have 4096);
    proxy_msg_content_dump returns on every message that is as long as its
    header says, whatever lengths the inner header claims. *)
Theorem dumps_in_bounds buf :
  Forall is_byte buf ->
  (56 <= blen buf -> returns (parse_proxy_protocol_and_print (Some buf)) verdict) /\
  (forall h, 8 <= blen buf -> get_ProxyMsgHeader buf 0 = Done h -> 8 + pmh_payload_len h <= blen buf ->
   returns (proxy_msg_content_dump (Some buf)) (fun _ => True)).
Proof.
  intros Hb. split; [|eauto using proxy_msg_content_dump_returns].
  intros Hlen.   unfold parse_proxy_protocol_and_print. dump;
    auto using parse_dev_returns, parse_strgy_returns, parse_sess_returns, parse_data_returns, parse_iot_returns.
Qed.

(** ** The traces *)

Lemma pct_s_returns buf off (Q : parg -> Prop) :
  0%Z ∈ drop (Z.to_nat off) buf -> (forall a, Q a) -> returns (pct_s buf off) Q.
Proof. intros Hz HQ. unfold pct_s. eapply returns_lift; [by rewrite bool_decide_true|done]. Qed.

Lemma pct_s_faults buf off : 0%Z ∉ drop (Z.to_nat off) buf -> run (pct_s buf off) = Fault OutOfBounds.
Proof. intros Hz. unfold pct_s, lift. cbn [run]. by rewrite bool_decide_false. Qed.

Lemma bread_sub buf off len l x : bread buf off len = Done l -> x ∈ l -> x ∈ drop (Z.to_nat off) buf.
Proof.
  unfold bread. case_match; [|done]. intros [= <-] Hin.
  rewrite <- (take_drop (Z.to_nat len) (drop _ buf)). apply elem_of_app. by left.
Qed.

(** The trace of a data message: the payload is copied into a segment of
    exactly its length and both are printed with %s.  The print comes back
    exactly for payloads that contain a zero byte; for any other payload it
    reads past the segment. *)
Theorem data_trace_needs_a_zero msg len pool d sg bytes d' :
  sess_msg_seg_alloc true (Some d) len SESS_MSG_SEG_DYNAMIC_ALLOC None pool = Some sg -> blen d = len ->
  bread msg PROXY_MSG_HDR_SIZE len = Done bytes -> bwrite (default [] (seg_data sg)) 0 bytes = Done d' ->
  (0%Z ∈ bytes -> returns (data_msg_trace msg PROXY_MSG_HDR_SIZE d') (fun _ => True)) /\
  (0%Z ∉ bytes -> run (data_msg_trace msg PROXY_MSG_HDR_SIZE d') = Fault OutOfBounds).
Proof.
  intros [= <-] Hl Hr. pose proof (bread_length _ _ _ _ Hr) as Hbl. cbn [seg_data default]. unfold id.
  rewrite bwrite_whole by lia. intros [= <-]. unfold data_msg_trace. split; intros Hz.
  - apply returns_bind, pct_s_returns; [by eapply bread_sub|]. intros a.
    apply returns_bind, pct_s_returns; [done|]. intros b. by apply returns_say.
  - rewrite run_bind. destruct (decide (0%Z ∈ drop (Z.to_nat PROXY_MSG_HDR_SIZE) msg)) as [Hm|Hm].
    + destruct (pct_s_returns msg PROXY_MSG_HDR_SIZE (fun _ => True)) as (o & a & -> & _); [done..|].
      cbn [mbind outcome_bind snd fst]. rewrite run_bind. by rewrite (pct_s_faults bytes 0).
    + by rewrite (pct_s_faults _ _ Hm).
Qed.

(** The same for what a socket read filled the segment with. *)
Lemma nns_trace_faults d : 0%Z ∉ drop 8 d -> run (nns_trace d) = Fault OutOfBounds.
Proof. intros Hz. unfold nns_trace. rewrite run_bind. by rewrite (pct_s_faults d PROXY_MSG_HDR_SIZE). Qed.

(** ** Examples *)

(** A data message of 3 bytes, a block of 56 bytes. *)
Definition demo_block : list Z := [1; 3; 7; 0; 9; 0; 3; 0; 65; 66; 67] ++ replicate 45 0.

Lemma dumps_in_bounds_witness : returns (parse_proxy_protocol_and_print (Some demo_block)) verdict /\
  returns (proxy_msg_content_dump (Some demo_block)) (fun _ => True).
Proof.
  destruct (dumps_in_bounds demo_block) as [H1 H2]; [by apply bytesb_ok|].
  split; [apply H1; by vm_compute|by eapply H2; [vm_compute..|]].
Defined.

Lemma data_trace_needs_a_zero_witness : run (data_msg_trace demo_block PROXY_MSG_HDR_SIZE [65; 66; 67]) = Fault OutOfBounds.
Proof.
  destruct (data_trace_needs_a_zero demo_block 3 1 [0; 0; 0]
    {| seg_len := 3; seg_type := SESS_MSG_SEG_DYNAMIC_ALLOC; seg_data := Some [0; 0; 0] |} [65; 66; 67] [65; 66; 67]) as [_ H];
    [reflexivity..|]. apply H. by apply (bool_decide_unpack _).
Defined.

(** 56 bytes are needed: an IoT message of a 55-byte block is read beyond it. *)
Definition short_block : list Z :=
  [1; 4; 0; 0; 0; 0; 48; 0;  1; 0; 1; 0; 1; 0; 0; 0; 36; 0; 0; 0] ++ replicate 35 1.

Example short_block_faults : blen short_block = 55 /\ run (parse_proxy_protocol_and_print (Some short_block)) = Fault OutOfBounds.
Proof. by vm_compute. Qed.

(** The digits printed for a mask are its bits, from the highest down. *)
Definition digit (p : print) : list Z := match p with ("%d"%string, [PZ d]) => [d] | _ => [] end.

Lemma print_bits_digits n mask :
  returns (print_bits n mask) (fun _ => True) /\
  (forall out, run (print_bits n mask) = Done (out, ()) ->
     out ≫= digit = map (fun i => Z.b2z (Z.testbit mask (Z.of_nat i))) (rev (seq 0 n))).
Proof.
  split; [apply print_bits_returns|]. induction n as [|n IH]; intros out; [by intros [= <-]|].
  cbn [print_bits]. rewrite run_bind. cbn [say run mbind outcome_bind snd fst]. rewrite run_bind, seq_S, rev_unit.
  destruct (print_bits_returns n mask) as (o & [] & E & _). specialize (IH o E). cbn [map Nat.add].
  rewrite <- IH, Z.testbit_spec', Z.shiftr_div_pow2, Z.land_ones with (n := 1) by lia.
  destruct (n =? 8)%nat; cbn [say run mret pr_ret mbind outcome_bind snd fst]; rewrite E; cbn [mbind outcome_bind snd fst];
    by intros [= <-].
Qed.

Definition out_digits (mask : Z) : list Z := match run (print_bits 16 mask) with Done (out, _) => out ≫= digit | _ => [] end.

Example mask_digits : out_digits 0x8005 = [1; 0; 0; 0; 0; 0; 0; 0; 0; 0; 0; 0; 0; 1; 0; 1].
Proof. by vm_compute. Qed.
