(* ===== verification/Xsk.v ===== *)
(** * Xsk: the AF_XDP fast path (src/xdp)

    The rings of an AF_XDP socket as the library's header defines them
    (src/lib/libbpfdev-arm64/usr/include/bpf/xsk.h) and the receiver of
    xdp/xdp_redirect_sock_user.c.  The words [*producer] and [*consumer] and the
    slots are shared with the kernel; the cached words are the program's.  All
    words are 32-bit and wrap; slots are found by masking.  The calls into the
    library that set up the memory and the socket are not in this repository:
    the rings they leave are arguments.  [exit_with_error] does not come back
    ([Spin]). *)

From S2P Require Import Prelude Bytes Mem.
From stdpp Require Import base list numbers option.
From Stdlib Require Import ZArith Lia.
#[local] Open Scope Z_scope.

(** ** Rings *)

Record xsk_ring (T : Type) := Ring {
  cached_prod : Z; cached_cons : Z; mask : Z; size : Z;
  producer : Z; consumer : Z; ring : list T }.
Arguments Ring {T}.
Arguments cached_prod {T}.
Arguments cached_cons {T}.
Arguments mask {T}.
Arguments size {T}.
Arguments producer {T}.
Arguments consumer {T}.
Arguments ring {T}.

Record xdp_desc := { xd_addr : Z; xd_len : Z; xd_options : Z }.

Section Ops.
Context {T : Type}.
Implicit Type r : xsk_ring T.

Definition set_cached_prod r v : xsk_ring T := Ring v (cached_cons r) (mask r) (size r) (producer r) (consumer r) (ring r).
Definition set_cached_cons r v : xsk_ring T := Ring (cached_prod r) v (mask r) (size r) (producer r) (consumer r) (ring r).
Definition set_producer r v : xsk_ring T := Ring (cached_prod r) (cached_cons r) (mask r) (size r) v (consumer r) (ring r).
Definition set_consumer r v : xsk_ring T := Ring (cached_prod r) (cached_cons r) (mask r) (size r) (producer r) v (ring r).
Definition set_ring r l : xsk_ring T := Ring (cached_prod r) (cached_cons r) (mask r) (size r) (producer r) (consumer r) l.

(** [&ring[idx & mask]], read and written. *)
Definition slot r (idx : Z) : outcome T :=
  match ring r !! Z.to_nat (Z.land idx (mask r)) with Some v => Done v | None => Fault OutOfBounds end.
Definition put_slot r (idx : Z) (v : T) : outcome (xsk_ring T) :=
  _ ← slot r idx; Done (set_ring r (<[Z.to_nat (Z.land idx (mask r)) := v]> (ring r))).

Definition xsk_prod_nb_free r (nb : Z) : Z * xsk_ring T :=
  let free_entries := u32 (cached_cons r - cached_prod r) in
  if nb <=? free_entries then (free_entries, r) else
  let r := set_cached_cons r (u32 (consumer r + size r)) in
  (u32 (cached_cons r - cached_prod r), r).

Definition xsk_cons_nb_avail r (nb : Z) : Z * xsk_ring T :=
  let entries := u32 (cached_prod r - cached_cons r) in
  let '(entries, r) :=
    if entries =? 0 then let r := set_cached_prod r (producer r) in (u32 (cached_prod r - cached_cons r), r)
    else (entries, r) in
  (if nb <? entries then nb else entries, r).

(** The index is [None] when it is not written. *)
Definition xsk_ring_prod__reserve r (nb : Z) : Z * option Z * xsk_ring T :=
  let '(free, r) := xsk_prod_nb_free r nb in
  if free <? nb then (0, None, r) else
  (nb, Some (cached_prod r), set_cached_prod r (u32 (cached_prod r + nb))).

Definition xsk_ring_prod__submit r (nb : Z) : xsk_ring T := set_producer r (u32 (producer r + nb)).

Definition xsk_ring_cons__peek r (nb : Z) : Z * option Z * xsk_ring T :=
  let '(entries, r) := xsk_cons_nb_avail r nb in
  if 0 <? entries then (entries, Some (cached_cons r), set_cached_cons r (u32 (cached_cons r + entries)))
  else (entries, None, r).

Definition xsk_ring_cons__release r (nb : Z) : xsk_ring T := set_consumer r (u32 (consumer r + nb)).
End Ops.

(** Addresses: 48 bits of base, 16 of offset. *)
Definition XSK_UNALIGNED_BUF_OFFSET_SHIFT : Z := 48.
Definition XSK_UNALIGNED_BUF_ADDR_MASK : Z := 2 ^ 48 - 1.
Definition xsk_umem__extract_addr (addr : Z) : Z := Z.land addr XSK_UNALIGNED_BUF_ADDR_MASK.
Definition xsk_umem__extract_offset (addr : Z) : Z := Z.shiftr addr XSK_UNALIGNED_BUF_OFFSET_SHIFT.
Definition xsk_umem__add_offset_to_addr (addr : Z) : Z := u64 (xsk_umem__extract_addr addr + xsk_umem__extract_offset addr).

Definition XSK_RING_PROD__DEFAULT_NUM_DESCS : Z := 2048.
Definition XSK_RING_CONS__DEFAULT_NUM_DESCS : Z := 2048.
Definition XSK_UMEM__DEFAULT_FRAME_SHIFT : Z := 12.
Definition XSK_UMEM__DEFAULT_FRAME_SIZE : Z := 4096.
Definition NUM_FRAMES : Z := 4 * 1024.
Definition BATCH_SIZE : Z := 64.
Definition opt_xsk_frame_size : Z := XSK_UMEM__DEFAULT_FRAME_SIZE.

(** ** The socket *)

(** [xs_buffer]: the mapped frames, [NUM_FRAMES * opt_xsk_frame_size] bytes from
    address 0.  [xs_out]: the Ethernet headers printed and the lengths. *)
Record xsk_socket_info := {
  xs_rx : xsk_ring xdp_desc; xs_tx : xsk_ring xdp_desc;
  xs_fq : xsk_ring Z; xs_cq : xsk_ring Z;
  xs_buffer : mem;
  rx_npkts : Z; tx_npkts : Z; outstanding_tx : Z;
  xs_out : list (list Z * Z) }.

Definition set_rx (s : xsk_socket_info) (r : xsk_ring xdp_desc) : xsk_socket_info :=
  {| xs_rx := r; xs_tx := xs_tx s; xs_fq := xs_fq s; xs_cq := xs_cq s; xs_buffer := xs_buffer s;
     rx_npkts := rx_npkts s; tx_npkts := tx_npkts s; outstanding_tx := outstanding_tx s; xs_out := xs_out s |}.
Definition set_fq (s : xsk_socket_info) (r : xsk_ring Z) : xsk_socket_info :=
  {| xs_rx := xs_rx s; xs_tx := xs_tx s; xs_fq := r; xs_cq := xs_cq s; xs_buffer := xs_buffer s;
     rx_npkts := rx_npkts s; tx_npkts := tx_npkts s; outstanding_tx := outstanding_tx s; xs_out := xs_out s |}.
Definition set_out (s : xsk_socket_info) (o : list (list Z * Z)) : xsk_socket_info :=
  {| xs_rx := xs_rx s; xs_tx := xs_tx s; xs_fq := xs_fq s; xs_cq := xs_cq s; xs_buffer := xs_buffer s;
     rx_npkts := rx_npkts s; tx_npkts := tx_npkts s; outstanding_tx := outstanding_tx s; xs_out := o |}.
Definition count_rx (s : xsk_socket_info) (n : Z) : xsk_socket_info :=
  {| xs_rx := xs_rx s; xs_tx := xs_tx s; xs_fq := xs_fq s; xs_cq := xs_cq s; xs_buffer := xs_buffer s;
     rx_npkts := u64 (rx_npkts s + n); tx_npkts := tx_npkts s; outstanding_tx := outstanding_tx s; xs_out := xs_out s |}.

(** The addresses given to the fill ring at the start. *)
Fixpoint fill_frames (n : nat) (i idx : Z) (fq : xsk_ring Z) : outcome (xsk_ring Z) :=
  match n with
  | O => Done fq
  | S n => fq ← put_slot fq idx (i * opt_xsk_frame_size); fill_frames n (i + 1) (u32 (idx + 1)) fq
  end.

(** The end of xsk_configure_socket; [rx], [tx] and [fq] are what the library
    left. *)
Definition xsk_configure_socket (rx tx : xsk_ring xdp_desc) (fq cq : xsk_ring Z) (buffer : mem) : outcome xsk_socket_info :=
  let '(ret, idx, fq) := xsk_ring_prod__reserve fq XSK_RING_PROD__DEFAULT_NUM_DESCS in
  if negb (ret =? XSK_RING_PROD__DEFAULT_NUM_DESCS) then Spin else
  fq ← fill_frames (Z.to_nat XSK_RING_PROD__DEFAULT_NUM_DESCS) 0 (default 0 idx) fq;
  Done {| xs_rx := rx; xs_tx := tx; xs_fq := xsk_ring_prod__submit fq XSK_RING_PROD__DEFAULT_NUM_DESCS; xs_cq := cq;
          xs_buffer := buffer; rx_npkts := 0; tx_npkts := 0; outstanding_tx := 0; xs_out := [] |}.

(** ** Receiving *)

(** The 14 bytes of the Ethernet header are read, whatever [len] is. *)
Definition process_packet (buffer : mem) (pkt len : Z) : outcome (list Z * Z) :=
  _ ← require ((0 <=? pkt) && (pkt + 14 <=? NUM_FRAMES * opt_xsk_frame_size)) OutOfBounds;
  Done (mread buffer pkt 14, len).

(** One turn of the loop over the batch. *)
Definition rx_move (s : xsk_socket_info) (idx_rx idx_fq : Z) : outcome xsk_socket_info :=
  d ← slot (xs_rx s) idx_rx;
  let orig := xsk_umem__extract_addr (xd_addr d) in
  let addr := xsk_umem__add_offset_to_addr (xd_addr d) in
  p ← process_packet (xs_buffer s) addr (xd_len d);
  fq ← put_slot (xs_fq s) idx_fq orig;
  Done (set_fq (set_out s (xs_out s ++ [p])) fq).

Fixpoint rx_batch (n : nat) (s : xsk_socket_info) (idx_rx idx_fq : Z) : outcome xsk_socket_info :=
  match n with
  | O => Done s
  | S n => s ← rx_move s idx_rx idx_fq; rx_batch n s (u32 (idx_rx + 1)) (u32 (idx_fq + 1))
  end.

(** The retries of the reservation: [seen] is the fill ring's consumer word
    found by each further attempt. *)
Fixpoint reserve_again (seen : list Z) (fq : xsk_ring Z) (rcvd : Z) : outcome (option Z * xsk_ring Z) :=
  match seen with
  | [] => Spin
  | c :: seen =>
      let '(ret, idx, fq) := xsk_ring_prod__reserve (set_consumer fq c) rcvd in
      if ret =? rcvd then Done (idx, fq) else reserve_again seen fq rcvd
  end.

Definition rx_drop (seen : list Z) (s : xsk_socket_info) : outcome xsk_socket_info :=
  let '(rcvd, idx_rx, rx) := xsk_ring_cons__peek (xs_rx s) BATCH_SIZE in
  let s := set_rx s rx in
  if rcvd =? 0 then Done s else
  let '(ret, idx_fq, fq) := xsk_ring_prod__reserve (xs_fq s) rcvd in
  r ← (if ret =? rcvd then Done (idx_fq, fq) else reserve_again seen fq rcvd);
  s ← rx_batch (Z.to_nat rcvd) (set_fq s (snd r)) (default 0 idx_rx) (default 0 (fst r));
  let s := set_fq s (xsk_ring_prod__submit (xs_fq s) rcvd) in
  let s := set_rx s (xsk_ring_cons__release (xs_rx s) rcvd) in
  Done (count_rx s rcvd).

(** ** The same, one shared access at a time *)

Inductive pc :=
  | Idle
  | Reserving (rcvd idx_rx : Z)
  | Moving (todo rcvd idx_rx idx_fq : Z)
  | Submitting (rcvd : Z)
  | Releasing (rcvd : Z).

Definition rx_step (p : pc) (s : xsk_socket_info) : outcome (pc * xsk_socket_info) :=
  match p with
  | Idle =>
      let '(rcvd, idx_rx, rx) := xsk_ring_cons__peek (xs_rx s) BATCH_SIZE in
      Done (if rcvd =? 0 then Idle else Reserving rcvd (default 0 idx_rx), set_rx s rx)
  | Reserving rcvd idx_rx =>
      let '(ret, idx_fq, fq) := xsk_ring_prod__reserve (xs_fq s) rcvd in
      Done (if ret =? rcvd then Moving rcvd rcvd idx_rx (default 0 idx_fq) else p, set_fq s fq)
  | Moving todo rcvd idx_rx idx_fq =>
      if todo =? 0 then Done (Submitting rcvd, s) else
      s ← rx_move s idx_rx idx_fq; Done (Moving (todo - 1) rcvd (u32 (idx_rx + 1)) (u32 (idx_fq + 1)), s)
  | Submitting rcvd => Done (Releasing rcvd, set_fq s (xsk_ring_prod__submit (xs_fq s) rcvd))
  | Releasing rcvd => Done (Idle, count_rx (set_rx s (xsk_ring_cons__release (xs_rx s) rcvd)) rcvd)
  end.

(** ** Sending *)

(** The frame of the source: Ethernet, IPv4 and UDP headers and 18 bytes. *)
Definition pkt_data : list Z :=
  [0x00; 0x50; 0x56; 0xC0; 0x00; 0x08;  0x00; 0x0C; 0x29; 0xF1; 0x8A; 0x0F;  0x08; 0x00;
   0x45; 0x00; 0x00; 0x2E; 0x00; 0x00; 0x00; 0x00; 0x40; 0x11; 0x7A; 0x8D; 0xC0; 0xA8; 0xB3; 0x89; 0xC0; 0xA8; 0xB3; 0x01;
   0x22; 0xB8; 0x22; 0xB8; 0x00; 0x1A; 0x1E; 0xA5;
   0x34; 0x33; 0x1F; 0x69; 0x40; 0x6B; 0x54; 0x59; 0xB6; 0x14; 0x2D; 0x11; 0x44; 0xBF; 0xAF; 0xD9; 0xBE; 0xAA].

Definition gen_eth_frame (buffer : mem) (addr : Z) : outcome (Z * mem) :=
  _ ← require ((0 <=? addr) && (addr + blen pkt_data <=? NUM_FRAMES * opt_xsk_frame_size)) OutOfBounds;
  Done (blen pkt_data, mwrite buffer addr pkt_data).

(** sendto: whether it succeeded or failed with an error that is ignored. *)
Definition kick_tx (sent : bool) : outcome unit := if sent then Done () else Spin.

Record tx_env := { te_wakeup : bool; te_sent : bool }.

Definition complete_tx_only (env : tx_env) (s : xsk_socket_info) : outcome xsk_socket_info :=
  if outstanding_tx s =? 0 then Done s else
  _ ← (if te_wakeup env then kick_tx (te_sent env) else Done ());
  let '(rcvd, _, cq) := xsk_ring_cons__peek (xs_cq s) BATCH_SIZE in
  Done (if 0 <? rcvd
        then {| xs_rx := xs_rx s; xs_tx := xs_tx s; xs_fq := xs_fq s; xs_cq := xsk_ring_cons__release cq rcvd; xs_buffer := xs_buffer s;
                rx_npkts := rx_npkts s; tx_npkts := u64 (tx_npkts s + rcvd); outstanding_tx := u32 (outstanding_tx s - rcvd); xs_out := xs_out s |}
        else {| xs_rx := xs_rx s; xs_tx := xs_tx s; xs_fq := xs_fq s; xs_cq := cq; xs_buffer := xs_buffer s;
                rx_npkts := rx_npkts s; tx_npkts := tx_npkts s; outstanding_tx := outstanding_tx s; xs_out := xs_out s |}).

Fixpoint tx_descs (n : nat) (i idx frame_nb : Z) (tx : xsk_ring xdp_desc) : outcome (xsk_ring xdp_desc) :=
  match n with
  | O => Done tx
  | S n =>
      d ← slot tx (u32 (idx + i));
      tx ← put_slot tx (u32 (idx + i))
             {| xd_addr := u32 (Z.shiftl (u32 (frame_nb + i)) XSK_UMEM__DEFAULT_FRAME_SHIFT); xd_len := blen pkt_data; xd_options := xd_options d |};
      tx_descs n (i + 1) idx frame_nb tx
  end.

Definition set_tx (s : xsk_socket_info) (r : xsk_ring xdp_desc) (outstanding : Z) : xsk_socket_info :=
  {| xs_rx := xs_rx s; xs_tx := r; xs_fq := xs_fq s; xs_cq := xs_cq s; xs_buffer := xs_buffer s;
     rx_npkts := rx_npkts s; tx_npkts := tx_npkts s; outstanding_tx := outstanding; xs_out := xs_out s |}.

(** [frame_nb] is a copy: what is added to it is lost. *)
Definition tx_only (env : tx_env) (s : xsk_socket_info) (frame_nb : Z) : outcome xsk_socket_info :=
  let '(ret, idx, tx) := xsk_ring_prod__reserve (xs_tx s) BATCH_SIZE in
  s ← (if ret =? BATCH_SIZE then
         tx ← tx_descs (Z.to_nat BATCH_SIZE) 0 (default 0 idx) frame_nb tx;
         Done (set_tx s (xsk_ring_prod__submit tx BATCH_SIZE) (u32 (outstanding_tx s + BATCH_SIZE)))
       else Done (set_tx s tx (outstanding_tx s)));
  complete_tx_only env s.

(** The first [n] turns of the sending loop. *)
Fixpoint tx_turns (n : nat) (env : nat -> tx_env) (s : xsk_socket_info) : outcome xsk_socket_info :=
  match n with O => Done s | S n => s ← tx_only (env n) s 0; tx_turns n env s end.
