(* ===== verification/XskSpec.v ===== *)
(** * XskSpec: no frame is lost on the fast path

    The 32-bit words of a ring stand for unbounded counters; between two
    counters the ring holds a list.  On top of that: whatever the kernel does
    between the accesses of rx_drop, each of the 2048 frames has exactly one
    owner, the reservation never has to be retried, and no access leaves the
    rings or the mapped memory. *)

From stdpp Require Import base list numbers option.
From Stdlib Require Import ZArith Lia.
From S2P Require Import Prelude Bytes Mem Xsk.
#[local] Open Scope Z_scope.

(** ** Words and counters *)

Lemma u32_sub a b : 0 <= a - b < 4294967296 -> u32 (u32 a - u32 b) = a - b.
Proof. intros. unfold u32. rewrite <- Zminus_mod. apply Z.mod_small. exact H. Qed.

Lemma u32_add a n : u32 (u32 a + n) = u32 (a + n).
Proof. unfold u32. by rewrite Zplus_mod_idemp_l. Qed.

Lemma u32_land n : Z.land (u32 n) 2047 = n mod 2048.
Proof.
  change 2047 with (Z.ones 11). rewrite Z.land_ones by lia. unfold u32.
  apply Z.mod_mod_divide. by exists 2097152.
Qed.

Lemma mod_ne n m : n <> m -> - 2048 < n - m < 2048 -> n mod 2048 <> m mod 2048.
Proof. intros. Z.to_euclidean_division_equations. lia. Qed.

(** ** Contents *)

Section Content.
Context {T : Type}.
Implicit Type r : xsk_ring T.

Record shape r : Prop := { sh_mask : mask r = 2047; sh_size : size r = 2048; sh_ring : length (ring r) = 2048%nat }.

(** The slot of counter [n]; the slots from [a] to [b]. *)
Definition cell r (n : Z) : option T := ring r !! Z.to_nat (n mod 2048).
Definition content r (a b : Z) : list T := omap (cell r) (seqZ a (b - a)).

Lemma cell_is_some r n : shape r -> exists v, cell r n = Some v.
Proof.
  intros [_ _ Hl]. apply lookup_lt_is_Some. pose proof (Z.mod_pos_bound n 2048). lia.
Qed.

Lemma cell_u32 r n : cell r (u32 n) = cell r n.
Proof. unfold cell. do 2 f_equal. rewrite <- !u32_land. f_equal. unfold u32. by rewrite Z.mod_mod. Qed.

Lemma slot_cell r n v : shape r -> cell r n = Some v -> slot r (u32 n) = Done v.
Proof. intros [Hm _ _] Hc. unfold slot. rewrite Hm, u32_land. unfold cell in Hc. by rewrite Hc. Qed.

Lemma put_slot_cell r n v : shape r ->
  exists r', put_slot r (u32 n) v = Done r' /\ r' = set_ring r (<[Z.to_nat (n mod 2048) := v]> (ring r)) /\ shape r' /\
  cell r' n = Some v /\ forall m, m mod 2048 <> n mod 2048 -> cell r' m = cell r m.
Proof.
  intros Hs. destruct (cell_is_some r n Hs) as [v0 Hv]. unfold put_slot. rewrite (slot_cell _ _ _ Hs Hv).
  destruct Hs as [Hm Hz Hl]. rewrite Hm, u32_land. eexists. split; [done|]. split; [done|].
  split; [split; [done|done|]; cbn; by rewrite length_insert|]. unfold cell. cbn [ring set_ring].
  pose proof (Z.mod_pos_bound n 2048). split; [apply list_lookup_insert_eq; lia|].
  intros m Hne. pose proof (Z.mod_pos_bound m 2048). apply list_lookup_insert_ne. lia.
Qed.

Lemma content_nil r a : content r a a = [].
Proof. unfold content. by rewrite Z.sub_diag. Qed.

Lemma content_split r a b c : a <= b <= c -> content r a c = content r a b ++ content r b c.
Proof.
  intros. unfold content. replace (c - a) with ((b - a) + (c - b)) by lia. rewrite seqZ_app, omap_app by lia.
  by replace (a + (b - a)) with b by lia.
Qed.

Lemma content_one r a v : cell r a = Some v -> content r a (a + 1) = [v].
Proof. intros Hv. unfold content. replace (a + 1 - a) with 1 by lia. rewrite seqZ_cons by lia. cbn [omap list_omap]. by rewrite Hv. Qed.

Lemma content_cons r a b v : a < b -> cell r a = Some v -> content r a b = v :: content r (a + 1) b.
Proof. intros. rewrite (content_split r a (a + 1) b) by lia. by rewrite (content_one r a v). Qed.

Lemma content_snoc r a b v : a <= b -> cell r b = Some v -> content r a (b + 1) = content r a b ++ [v].
Proof. intros. rewrite (content_split r a b (b + 1)) by lia. by rewrite (content_one r b v). Qed.

Lemma content_ext r r' a b : (forall n, a <= n < b -> cell r n = cell r' n) -> content r a b = content r' a b.
Proof.
  intros H. unfold content. assert (Hin : forall n, n ∈ seqZ a (b - a) -> cell r n = cell r' n).
  { intros n Hn. apply elem_of_seqZ in Hn. apply H. lia. }
  induction (seqZ a (b - a)) as [|n l IH]; [done|]. cbn. rewrite (Hin n) by by left. rewrite IH; [done|].
  intros m Hm. apply Hin. by right.
Qed.

Lemma content_length r a b : shape r -> length (content r a b) = Z.to_nat (b - a).
Proof.
  intros Hs. unfold content. rewrite <- (length_seqZ a (b - a)). generalize (seqZ a (b - a)) as l.
  induction l as [|n l IH]; [done|]. cbn. destruct (cell_is_some r n Hs) as [v ->]. cbn. by rewrite IH.
Qed.

Lemma cell_u32_add r a n : cell r (u32 a + n) = cell r (a + n).
Proof. by rewrite <- cell_u32, u32_add, cell_u32. Qed.

Lemma content_u32 r a n : shape r -> 0 <= n -> content r (u32 a) (u32 a + n) = content r a (a + n).
Proof.
  intros Hs Hn. rewrite <- (Z2Nat.id n) by done. induction (Z.to_nat n) as [|k IH]; [change (Z.of_nat 0) with 0; by rewrite !Z.add_0_r, !content_nil|].
  rewrite Nat2Z.inj_succ, <- Z.add_1_r, !Z.add_assoc. destruct (cell_is_some r (a + Z.of_nat k) Hs) as [v Hv].
  rewrite !(content_snoc _ _ _ v) by (rewrite ?cell_u32_add; done || lia). by rewrite IH.
Qed.
End Content.

(** ** Counters of a ring *)

(** A producer ring: the consumer has taken up to [C], of which the program
    has seen [K]; [P] is published, [R] reserved. *)
Record prod_rep (r : xsk_ring Z) (K C P R : Z) : Prop := {
  pr_shape : shape r;
  pr_producer : producer r = u32 P; pr_consumer : consumer r = u32 C;
  pr_cached_prod : cached_prod r = u32 R; pr_cached_cons : cached_cons r = u32 (K + 2048);
  pr_order : K <= C <= P /\ P <= R <= K + 2048 }.

(** A consumer ring: [C] is released, [H] taken, the producer has written up to
    [P], of which the program has seen [K]. *)
Record cons_rep (r : xsk_ring xdp_desc) (C H K P : Z) : Prop := {
  cr_shape : shape r;
  cr_producer : producer r = u32 P; cr_consumer : consumer r = u32 C;
  cr_cached_prod : cached_prod r = u32 K; cr_cached_cons : cached_cons r = u32 H;
  cr_order : C <= H <= K /\ K <= P <= C + 2048 }.

(** A reservation succeeds exactly when the slots are free. *)
Lemma reserve_spec r K C P R nb : prod_rep r K C P R -> 0 < nb <= 2048 ->
  exists r', ring r' = ring r /\ producer r' = producer r /\ consumer r' = consumer r /\
  if nb <=? C + 2048 - R
  then xsk_ring_prod__reserve r nb = (nb, Some (u32 R), r') /\ exists K', prod_rep r' K' C P (R + nb)
  else xsk_ring_prod__reserve r nb = (0, None, r') /\ prod_rep r' C C P R.
Proof.
  intros [ [Hm Hz Hl] Hp Hc Hcp Hcc Ho] Hn. unfold xsk_ring_prod__reserve, xsk_prod_nb_free.
  rewrite Hcc, Hcp, u32_sub by lia. destruct (Z.leb_spec nb (K + 2048 - R)).
  - rewrite (proj2 (Z.leb_le nb (C + 2048 - R))), (proj2 (Z.ltb_ge (K + 2048 - R) nb)) by lia.
    rewrite Hcp. eexists. split; [|split; [|split; [|split; [done|] ] ] ]; try done. exists K.
    split; cbn; rewrite ?u32_add; try done. lia.
  - cbn [cached_prod cached_cons set_cached_cons]. rewrite Hc, Hz, Hcp, u32_add, u32_sub by lia.
    destruct (Z.leb_spec nb (C + 2048 - R)).
    + rewrite (proj2 (Z.ltb_ge (C + 2048 - R) nb)) by lia.
      eexists. split; [|split; [|split; [|split; [done|] ] ] ]; try done. exists C.
      split; cbn; rewrite ?u32_add; try done. lia.
    + rewrite (proj2 (Z.ltb_lt (C + 2048 - R) nb)) by lia.
      eexists. split; [|split; [|split; [|split; [done|] ] ] ]; try done.
      split; cbn; rewrite ?u32_add; try done. lia.
Qed.

(** Peeking takes at most [nb] of what the producer has written, and something
    whenever there is something. *)
Lemma peek_spec r C H K P nb : cons_rep r C H K P -> 0 < nb <= 2048 ->
  exists n r' K', 0 <= n <= nb /\ (n = 0 <-> P = H) /\ ring r' = ring r /\ producer r' = producer r /\ consumer r' = consumer r /\
  xsk_ring_cons__peek r nb = (n, if n =? 0 then None else Some (u32 H), r') /\ cons_rep r' C (H + n) K' P.
Proof.
  intros [Hs Hp Hc Hcp Hcc Ho] Hn. unfold xsk_ring_cons__peek, xsk_cons_nb_avail.
  rewrite Hcp, Hcc, u32_sub by lia.
  set (K' := if K - H =? 0 then P else K). set (n := if nb <? K' - H then nb else K' - H).
  assert (Hn' : 0 <= n <= nb /\ (n = 0 <-> P = H) /\ K <= K' <= P /\ H + n <= K').
  { subst n K'. destruct (Z.eqb_spec (K - H) 0), (Z.ltb_spec nb (P - H)), (Z.ltb_spec nb (K - H)); lia. }
  exists n. replace (if K - H =? 0 then _ else _) with (K' - H, if K - H =? 0 then set_cached_prod r (producer r) else r).
  2:{ subst K'. destruct (Z.eqb_spec (K - H) 0); [|done]. cbn. by rewrite Hp, Hcc, u32_sub by lia. }
  fold n. set (r0 := if K - H =? 0 then set_cached_prod r (producer r) else r).
  assert (Hr0 : cons_rep r0 C H K' P /\ ring r0 = ring r /\ producer r0 = producer r /\ consumer r0 = consumer r).
  { subst r0 K'. destruct (Z.eqb_spec (K - H) 0); [|split; [by split|done] ].
    split; [|done]. split; cbn; try done; [by destruct Hs|lia]. }
  clearbody r0 n K'. destruct Hn' as (Hn1 & Hn2 & Hn3 & Hn4). destruct Hr0 as ([Hs' Hp' Hc' Hcp' Hcc' Ho'] & E1 & E2 & E3).
  destruct (Z.ltb_spec 0 n).
  - rewrite (proj2 (Z.eqb_neq n 0)), Hcc' by lia. exists (set_cached_cons r0 (u32 (u32 H + n))), K'. do 6 (split; [done|]).
    split; cbn; rewrite ?Hcc', ?u32_add; try done; [by destruct Hs'|lia].
  - assert (n = 0) as -> by lia. rewrite Z.eqb_refl. exists r0, K'. do 6 (split; [done|]).
    rewrite Z.add_0_r. by split.
Qed.

(** ** Ownership of the frames *)

Definition frame (a : Z) : Z := a / opt_xsk_frame_size.
Definition frame_of (d : xdp_desc) : Z := frame (xd_addr d).

(** What lies between the shared words of a ring. *)
Definition window {T} (r : xsk_ring T) : list T :=
  content r (consumer r) (consumer r + u32 (producer r - consumer r)).

(** After publishing the batch on the fill ring, before releasing it from the
    receive ring, the first entries of the latter are dead. *)
Definition dead (p : pc) : Z := match p with Releasing n => n | _ => 0 end.

Definition fill_owned (s : xsk_socket_info) : list Z := map frame (window (xs_fq s)).
Definition rx_owned (p : pc) (s : xsk_socket_info) : list Z := map frame_of (drop (Z.to_nat (dead p)) (window (xs_rx s))).

(** A descriptor was put on the receive ring and published. *)
Definition received (s : xsk_socket_info) (rx : xsk_ring xdp_desc) (buffer : mem) : xsk_socket_info :=
  {| xs_rx := set_producer rx (u32 (producer rx + 1)); xs_tx := xs_tx s; xs_fq := xs_fq s; xs_cq := xs_cq s; xs_buffer := buffer;
     rx_npkts := rx_npkts s; tx_npkts := tx_npkts s; outstanding_tx := outstanding_tx s; xs_out := xs_out s |}.

(** The kernel, as AF_XDP documents it for aligned frames: it takes addresses
    from the fill ring, of which only the frame matters, and hands a frame it
    holds back on the receive ring, with a packet of at least an Ethernet header
    somewhere inside the frame. *)
Inductive kernel_step : xsk_socket_info * list Z -> xsk_socket_info * list Z -> Prop :=
  | kernel_take s ks a :
      consumer (xs_fq s) <> producer (xs_fq s) -> slot (xs_fq s) (consumer (xs_fq s)) = Done a ->
      kernel_step (s, ks) (set_fq s (set_consumer (xs_fq s) (u32 (consumer (xs_fq s) + 1))), ks ++ [frame a])
  | kernel_receive s ks1 f ks2 off len opts buffer rx :
      0 <= off -> 14 <= len -> off + len <= opt_xsk_frame_size ->
      u32 (producer (xs_rx s) - consumer (xs_rx s)) < size (xs_rx s) ->
      put_slot (xs_rx s) (producer (xs_rx s)) {| xd_addr := f * opt_xsk_frame_size + off; xd_len := len; xd_options := opts |} = Done rx ->
      kernel_step (s, ks1 ++ f :: ks2)
        (received s rx buffer, ks1 ++ ks2).

(** Program and kernel take turns in any order. *)
Inductive reachable (s0 : xsk_socket_info) : pc -> xsk_socket_info -> list Z -> Prop :=
  | reach_start : reachable s0 Idle s0 []
  | reach_program p s ks p' s' : reachable s0 p s ks -> rx_step p s = Done (p', s') -> reachable s0 p' s' ks
  | reach_kernel p s ks s' ks' : reachable s0 p s ks -> kernel_step (s, ks) (s', ks') -> reachable s0 p s' ks'.

(** ** The invariant *)

(** How far the counters are ahead in each phase. *)
Definition phase (p : pc) (P R C H : Z) : Prop :=
  match p with
  | Idle => R = P /\ H = C
  | Reserving n i => 0 < n <= 64 /\ i = u32 C /\ R = P /\ H = C + n
  | Moving t n i j => 0 < n <= 64 /\ 0 <= t <= n /\ i = u32 (C + (n - t)) /\ j = u32 (P + (n - t)) /\ R = P + n /\ H = C + n
  | Submitting n => 0 < n <= 64 /\ R = P + n /\ H = C + n
  | Releasing n => 0 < n <= 64 /\ R = P /\ H = C + n
  end.

Definition moved (p : pc) : Z := match p with Moving t n _ _ => n - t | Submitting n => n | _ => 0 end.

(** A descriptor points into the mapped memory, with room for the header. *)
Definition desc_ok (d : xdp_desc) : Prop := 0 <= xd_addr d /\ xd_addr d + 14 <= NUM_FRAMES * opt_xsk_frame_size.

Record inv_at (p : pc) (s : xsk_socket_info) (ks : list Z) (Kf Cf Pf Rf C H K P : Z) : Prop := {
  i_fq : prod_rep (xs_fq s) Kf Cf Pf Rf;
  i_rx : cons_rep (xs_rx s) C H K P;
  i_phase : phase p Pf Rf C H;
  i_moved : map frame (content (xs_fq s) Pf (Pf + moved p)) = map frame_of (content (xs_rx s) C (C + moved p));
  i_frames : map frame (content (xs_fq s) Cf Pf) ++ ks ++ map frame_of (content (xs_rx s) (C + dead p) P) ≡ₚ seqZ 0 2048;
  i_descs : Forall desc_ok (content (xs_rx s) C P) }.

Definition inv (p : pc) (s : xsk_socket_info) (ks : list Z) : Prop :=
  exists Kf Cf Pf Rf C H K P, inv_at p s ks Kf Cf Pf Rf C H K P.

Lemma content_ring {T} (r r' : xsk_ring T) a b : ring r' = ring r -> content r' a b = content r a b.
Proof. intros E. apply content_ext. intros n _. unfold cell. by rewrite E. Qed.

(** The room in the fill ring: the frames on the receive ring are missing from it. *)
Lemma room p s ks Kf Cf Pf Rf C H K P :
  inv_at p s ks Kf Cf Pf Rf C H K P -> (Pf - Cf) + Z.of_nat (length ks) + (P - C - dead p) = 2048.
Proof.
  intros [Hf Hr Hph _ Hp _]. apply Permutation_length in Hp.
  rewrite !length_app, !length_map, !content_length, length_seqZ in Hp by (by apply Hf || by apply Hr).
  destruct Hf as [_ _ _ _ _ Ho], Hr as [_ _ _ _ _ Ho']. destruct p; cbn in *; lia.
Qed.

Lemma inv_idle s ks : inv Idle s ks -> exists p' s', rx_step Idle s = Done (p', s') /\ inv p' s' ks.
Proof.
  intros (Kf & Cf & Pf & Rf & C & H & K & P & I). pose proof I as [Hf Hr [HR HH] Hm Hp Hd]. subst H Rf.
  destruct (peek_spec _ _ _ _ _ BATCH_SIZE Hr) as (n & r' & K' & Hn & _ & Er & _ & _ & E & Hr'); [done|].
  cbn [rx_step]. rewrite E. do 2 eexists. split; [done|]. exists Kf, Cf, Pf, Pf, C, (C + n), K', P.
  cbn [xs_fq xs_rx set_rx moved dead] in *.
  destruct (Z.eqb_spec n 0) as [->|Hne]; split; cbn [moved dead phase xs_fq xs_rx default]; rewrite ?(content_ring _ _ _ _ Er);
    unfold BATCH_SIZE in Hn; try done; unfold id; lia.
Qed.

Lemma inv_reserving n i s ks : inv (Reserving n i) s ks ->
  exists j s', rx_step (Reserving n i) s = Done (Moving n n i j, s') /\ inv (Moving n n i j) s' ks.
Proof.
  intros (Kf & Cf & Pf & Rf & C & H & K & P & I). pose proof (room _ _ _ _ _ _ _ _ _ _ _ I) as Hroom.
  pose proof I as [Hf Hr (Hn & Hi & HR & HH) Hm Hp Hd]. subst H Rf i. cbn [dead moved] in *.
  assert (Hnf : n <= Cf + 2048 - Pf) by (destruct Hr as [_ _ _ _ _ Ho]; lia).
  destruct (reserve_spec _ _ _ _ _ n Hf) as (r' & Er & _ & _ & E); [lia|]. rewrite (proj2 (Z.leb_le _ _) Hnf) in E.
  destruct E as [E [K' Hf'] ]. cbn [rx_step]. rewrite E, Z.eqb_refl. do 2 eexists. split; [done|].
  exists K', Cf, Pf, (Pf + n), C, (C + n), K, P.
  split; cbn [moved dead phase xs_fq xs_rx set_fq default]; rewrite ?(content_ring _ _ _ _ Er); try done.
  - unfold id. rewrite Z.sub_diag, !Z.add_0_r. split_and!; try done; lia.
  - rewrite Z.sub_diag. by rewrite !Z.add_0_r, !content_nil.
Qed.

Lemma extract_small a : 0 <= a < 2 ^ 48 -> xsk_umem__extract_addr a = a /\ xsk_umem__add_offset_to_addr a = a.
Proof.
  intros Ha. assert (E : xsk_umem__extract_addr a = a).
  { unfold xsk_umem__extract_addr, XSK_UNALIGNED_BUF_ADDR_MASK. change (2 ^ 48 - 1) with (Z.ones 48).
    rewrite Z.land_ones by lia. by apply Z.mod_small. }
  split; [done|]. unfold xsk_umem__add_offset_to_addr, xsk_umem__extract_offset, XSK_UNALIGNED_BUF_OFFSET_SHIFT.
  rewrite E, Z.shiftr_div_pow2, Z.div_small, Z.add_0_r by lia. apply u64_id. lia.
Qed.

(** Moving one entry. *)
Lemma rx_move_spec s d (i j : Z) :
  shape (xs_rx s) -> shape (xs_fq s) -> cell (xs_rx s) i = Some d -> desc_ok d ->
  exists s', rx_move s (u32 i) (u32 j) = Done s' /\ xs_rx s' = xs_rx s /\
    xs_out s' = xs_out s ++ [(mread (xs_buffer s) (xd_addr d) 14, xd_len d)] /\ rx_npkts s' = rx_npkts s /\
    put_slot (xs_fq s) (u32 j) (xd_addr d) = Done (xs_fq s').
Proof.
  intros Hr Hf Hc [Ha1 Ha2]. unfold rx_move. rewrite (slot_cell _ _ _ Hr Hc). cbn [mbind outcome_bind].
  change (NUM_FRAMES * opt_xsk_frame_size) with 16777216 in Ha2.
  destruct (extract_small (xd_addr d)) as [E1 E2]; [change (2 ^ 48) with 281474976710656; lia|]. rewrite E1, E2. unfold process_packet.
  change (NUM_FRAMES * opt_xsk_frame_size) with 16777216.
  rewrite require_true by (rewrite andb_true_iff, !Z.leb_le; lia). cbn [mbind outcome_bind].
  destruct (put_slot_cell (xs_fq s) j (xd_addr d) Hf) as (r' & E & _). rewrite E. cbn [mbind outcome_bind].
  eexists. split; [done|]. done.
Qed.

Lemma inv_moving t n i j s ks : inv (Moving t n i j) s ks ->
  exists p' s', rx_step (Moving t n i j) s = Done (p', s') /\ inv p' s' ks /\
  p' = if t =? 0 then Submitting n else Moving (t - 1) n (u32 (i + 1)) (u32 (j + 1)).
Proof.
  intros (Kf & Cf & Pf & Rf & C & H & K & P & I).
  pose proof I as [Hf Hr (Hn & Ht & Hi & Hj & HR & HH) Hm Hp Hd]. subst H Rf i j. cbn [rx_step moved dead] in *.
  destruct (Z.eqb_spec t 0) as [->|Hne].
  { do 2 eexists. split; [done|]. split; [|done]. exists Kf, Cf, Pf, (Pf + n), C, (C + n), K, P.
    rewrite Z.sub_0_r in Hm. by split; cbn [moved dead phase]. }
  pose proof Hf as [Hfs Hfp Hfc Hfcp Hfcc Hfo]. pose proof Hr as [Hrs _ _ _ _ Hro]. remember (n - t) as m eqn:Em.
  destruct (cell_is_some (xs_rx s) (C + m) Hrs) as [d Hc].
  assert (Hdok : desc_ok d).
  { rewrite (content_split _ C (C + m) P), (content_cons _ (C + m) P d) in Hd by (done || lia).
    apply Forall_app in Hd as [_ Hd]. by apply Forall_cons_1 in Hd as [? _]. }
  destruct (rx_move_spec s d (C + m) (Pf + m) Hrs Hfs Hc Hdok) as (s' & E & Er & _ & _ & Ef).
  destruct (put_slot_cell (xs_fq s) (Pf + m) (xd_addr d) Hfs) as (fq' & Ef' & Efq & Hfs' & Hcell & Hothers).
  rewrite Ef in Ef'. injection Ef' as Ef'. rewrite E. cbn [mbind outcome_bind]. do 2 eexists. split; [done|]. split; [|done].
  exists Kf, Cf, Pf, (Pf + n), C, (C + n), K, P. rewrite !u32_add.
  assert (Hold : forall a b, a <= b -> Cf <= a -> b <= Pf + m -> content fq' a b = content (xs_fq s) a b).
  { intros a b ? ? ?. apply content_ext. intros k Hk. apply Hothers, mod_ne; lia. }
  assert (Hmoved : moved (Moving (t - 1) n (u32 (C + m + 1)) (u32 (Pf + m + 1))) = m + 1) by (cbn; lia).
  split; rewrite ?Hmoved; cbn [dead phase]; rewrite ?Er, ?Ef'; try done.
  - split; [done|by rewrite ?Efq..].
  - split_and!; try lia; f_equal; lia.
  - rewrite !Z.add_assoc, (content_snoc _ Pf (Pf + m) _ ltac:(lia) Hcell), (content_snoc _ C (C + m) _ ltac:(lia) Hc).
    rewrite !map_app, Hold, Hm by lia. done.
  - rewrite Hold by lia. done.
Qed.

Lemma inv_submitting n s ks : inv (Submitting n) s ks ->
  exists s', rx_step (Submitting n) s = Done (Releasing n, s') /\ inv (Releasing n) s' ks.
Proof.
  intros (Kf & Cf & Pf & Rf & C & H & K & P & I).
  pose proof I as [Hf Hr (Hn & HR & HH) Hm Hp Hd]. subst H Rf. cbn [rx_step moved dead] in *.
  eexists. split; [done|]. exists Kf, Cf, (Pf + n), (Pf + n), C, (C + n), K, P.
  destruct Hf as [Hfs Hfp Hfc Hfcp Hfcc Hfo]. pose proof Hr as [_ _ _ _ _ Hro].
  assert (Hsame : forall a b, content (xsk_ring_prod__submit (xs_fq s) n) a b = content (xs_fq s) a b).
  { intros. by apply content_ring. }
  split; cbn [moved dead phase xs_fq xs_rx set_fq]; rewrite ?Hsame; try done.
  - split; cbn; rewrite ?Hfp, ?u32_add; try done; [by destruct Hfs|lia].
  - by rewrite !Z.add_0_r, !content_nil.
  - rewrite <- Hp, Z.add_0_r. rewrite (content_split _ Cf Pf (Pf + n)), (content_split (xs_rx s) C (C + n) P) by lia.
    rewrite !map_app, Hm. solve_Permutation.
Qed.

Lemma inv_releasing n s ks : inv (Releasing n) s ks ->
  exists s', rx_step (Releasing n) s = Done (Idle, s') /\ inv Idle s' ks.
Proof.
  intros (Kf & Cf & Pf & Rf & C & H & K & P & I).
  pose proof I as [Hf Hr (Hn & HR & HH) Hm Hp Hd]. subst H Rf. cbn [rx_step moved dead] in *.
  eexists. split; [done|]. exists Kf, Cf, Pf, Pf, (C + n), (C + n), K, P.
  destruct Hr as [Hrs Hrp Hrc Hrcp Hrcc Hro].
  assert (Hsame : forall a b, content (xsk_ring_cons__release (xs_rx s) n) a b = content (xs_rx s) a b).
  { intros. by apply content_ring. }
  split; cbn [moved dead phase xs_fq xs_rx count_rx set_rx]; rewrite ?Hsame; try done.
  - split; cbn; rewrite ?Hrc, ?u32_add; try done; [by destruct Hrs|lia].
  - by rewrite !Z.add_0_r, !content_nil.
  - by rewrite Z.add_0_r.
  - rewrite (content_split _ C (C + n) P) in Hd by lia. by apply Forall_app in Hd as [_ ?].
Qed.

Lemma inv_take p s ks a :
  inv p s ks -> consumer (xs_fq s) <> producer (xs_fq s) -> slot (xs_fq s) (consumer (xs_fq s)) = Done a ->
  inv p (set_fq s (set_consumer (xs_fq s) (u32 (consumer (xs_fq s) + 1)))) (ks ++ [frame a]).
Proof.
  intros (Kf & Cf & Pf & Rf & C & H & K & P & I) Hne Hs. pose proof I as [Hf Hr Hph Hm Hp Hd].
  destruct Hf as [Hfs Hfp Hfc Hfcp Hfcc Hfo]. rewrite Hfp, Hfc in Hne.
  assert (Cf < Pf) by (destruct (Z.eq_dec Cf Pf) as [->|]; [done|lia]).
  destruct (cell_is_some (xs_fq s) Cf Hfs) as [a' Ha]. rewrite Hfc, (slot_cell _ _ _ Hfs Ha) in Hs. injection Hs as ->.
  exists Kf, (Cf + 1), Pf, Rf, C, H, K, P.
  assert (Hsame : forall a b, content (set_consumer (xs_fq s) (u32 (consumer (xs_fq s) + 1))) a b = content (xs_fq s) a b).
  { intros. by apply content_ring. }
  split; cbn [xs_fq xs_rx set_fq]; rewrite ?Hsame; try done.
  - split; cbn; rewrite ?Hfc, ?u32_add; try done; [by destruct Hfs|lia].
  - rewrite <- Hp, (content_cons (xs_fq s) Cf Pf a) by done. cbn [map]. solve_Permutation.
Qed.

Lemma frame_desc f off : 0 <= off < opt_xsk_frame_size -> frame (f * opt_xsk_frame_size + off) = f.
Proof. intros. unfold frame. rewrite Z.div_add_l, Z.div_small; unfold opt_xsk_frame_size, XSK_UMEM__DEFAULT_FRAME_SIZE in *; lia. Qed.

Lemma inv_receive p s ks1 f ks2 off len opts buffer rx :
  inv p s (ks1 ++ f :: ks2) -> 0 <= off -> 14 <= len -> off + len <= opt_xsk_frame_size ->
  u32 (producer (xs_rx s) - consumer (xs_rx s)) < size (xs_rx s) ->
  put_slot (xs_rx s) (producer (xs_rx s)) {| xd_addr := f * opt_xsk_frame_size + off; xd_len := len; xd_options := opts |} = Done rx ->
  inv p (received s rx buffer) (ks1 ++ ks2).
Proof.
  intros (Kf & Cf & Pf & Rf & C & H & K & P & I) Ho Hl Hol Hsz Hput. pose proof I as [Hf Hr Hph Hm Hp Hd].
  pose proof Hf as [_ _ _ _ _ Hfo]. destruct Hr as [Hrs Hrp Hrc Hrcp Hrcc Hro]. rewrite Hrp, Hrc, u32_sub, (sh_size _ Hrs) in Hsz by lia.
  set (d := {| xd_addr := f * opt_xsk_frame_size + off; xd_len := len; xd_options := opts |}) in *. rewrite Hrp in Hput.
  destruct (put_slot_cell (xs_rx s) P d Hrs) as (rx' & Hput' & Erx & Hrs' & Hcell & Hothers).
  rewrite Hput in Hput'. injection Hput' as <-.
  assert (Hf2048 : 0 <= f < 2048).
  { assert (Hin : f ∈ seqZ 0 2048) by (rewrite <- Hp, !elem_of_app, elem_of_cons; auto). apply elem_of_seqZ in Hin. lia. }
  assert (Hdead : 0 <= dead p <= P - C) by (destruct p; cbn in *; lia).
  assert (Hmv : 0 <= moved p <= P - C) by (destruct p; cbn in *; lia).
  assert (Hsame : forall a b, C <= a -> b <= P -> content (set_producer rx (u32 (producer rx + 1))) a b = content (xs_rx s) a b).
  { intros a b ? ?. rewrite (content_ring rx) by done. apply content_ext. intros k Hk. apply Hothers, mod_ne; lia. }
  assert (Hnew : forall a, C <= a <= P -> content (set_producer rx (u32 (producer rx + 1))) a (P + 1) = content (xs_rx s) a P ++ [d]).
  { intros a Ha. rewrite (content_snoc _ a P d) by (done || lia). rewrite Hsame by lia. done. }
  exists Kf, Cf, Pf, Rf, C, H, K, (P + 1).
  split; cbn [xs_fq xs_rx received]; rewrite ?Hsame, ?Hnew by lia; try done.
  - split; cbn; rewrite ?Erx; cbn; rewrite ?Hrp, ?u32_add; try done; [by rewrite Erx in Hrs'; destruct Hrs'|lia].
  - rewrite <- Hp, map_app. cbn [map]. unfold frame_of at 2. cbn [xd_addr d].
    rewrite frame_desc by (unfold opt_xsk_frame_size, XSK_UMEM__DEFAULT_FRAME_SIZE in *; lia). solve_Permutation.
  - apply Forall_app. split; [done|]. constructor; [|done]. unfold desc_ok. cbn [xd_addr d].
    unfold NUM_FRAMES, opt_xsk_frame_size, XSK_UMEM__DEFAULT_FRAME_SIZE in *. lia.
Qed.

(** ** Start *)

(** What the library leaves: empty rings of 2048 slots. *)
Definition fresh_prod (r : xsk_ring Z) (b : Z) : Prop :=
  shape r /\ producer r = u32 b /\ consumer r = u32 b /\ cached_prod r = u32 b /\ cached_cons r = u32 (b + 2048).
Definition fresh_cons (r : xsk_ring xdp_desc) (b : Z) : Prop :=
  shape r /\ producer r = u32 b /\ consumer r = u32 b /\ cached_prod r = u32 b /\ cached_cons r = u32 b.

Lemma fill_frames_spec n : forall i b fq, shape fq -> (n <= 2048)%nat ->
  exists fq', fill_frames n i (u32 b) fq = Done fq' /\ shape fq' /\ producer fq' = producer fq /\ consumer fq' = consumer fq /\
  cached_prod fq' = cached_prod fq /\ cached_cons fq' = cached_cons fq /\
  content fq' b (b + Z.of_nat n) = map (fun k => k * opt_xsk_frame_size) (seqZ i (Z.of_nat n)) /\
  forall m, b + Z.of_nat n - 2048 <= m < b -> cell fq' m = cell fq m.
Proof.
  induction n as [|n IH]; intros i b fq Hs Hn.
  { exists fq. cbn [fill_frames]. do 6 (split; [done|]). split; [|done]. change (Z.of_nat 0) with 0. by rewrite Z.add_0_r, content_nil. }
  cbn [fill_frames]. destruct (put_slot_cell fq b (i * opt_xsk_frame_size) Hs) as (fq1 & E1 & Ef1 & Hs1 & Hc1 & Ho1).
  rewrite E1, u32_add. cbn [mbind outcome_bind].
  destruct (IH (i + 1) (b + 1) fq1 Hs1) as (fq' & E & Hs' & Hp & Hc & Hcp & Hcc & Hcon & Hother); [lia|].
  exists fq'. split; [done|]. split; [done|]. rewrite Hp, Hc, Hcp, Hcc, Ef1. do 4 (split; [done|]). split.
  - rewrite (content_cons _ b _ (i * opt_xsk_frame_size)) by (rewrite ?Hother by lia; done || lia).
    rewrite seqZ_cons by lia. cbn [map]. f_equal.
    replace (b + Z.of_nat (S n)) with (b + 1 + Z.of_nat n) by lia. rewrite Hcon. do 2 f_equal; lia.
  - intros m Hm. rewrite Hother by lia. apply Ho1, mod_ne; lia.
Qed.

Lemma configured rx tx fq cq buffer b c :
  fresh_prod fq b -> fresh_cons rx c -> 
  exists s, xsk_configure_socket rx tx fq cq buffer = Done s /\ inv Idle s [].
Proof.
  intros (Hs & Hp & Hc & Hcp & Hcc) (Hs' & Hp' & Hc' & Hcp' & Hcc').
  assert (Hrep : prod_rep fq b b b b) by (split; try done; lia). unfold xsk_configure_socket, XSK_RING_PROD__DEFAULT_NUM_DESCS.
  destruct (reserve_spec fq b b b b 2048 Hrep) as (r' & _ & _ & _ & E); [lia|]. rewrite (proj2 (Z.leb_le 2048 _)) in E by lia.
  destruct E as (E & K' & Hrep'). rewrite E. cbn [Z.eqb Pos.eqb negb default]. unfold id.
  destruct Hrep' as [Hs1 Hp1 Hc1 Hcp1 Hcc1 Ho1].
  destruct (fill_frames_spec 2048 0 b r' Hs1) as (fq' & Ef & Hs2 & Hp2 & Hc2 & Hcp2 & Hcc2 & Hcon & _); [lia|].
  change (Z.to_nat 2048) with 2048%nat. rewrite Ef. cbn [mbind outcome_bind]. eexists. split; [done|].
  change (Z.of_nat 2048) with 2048 in Hcon. exists K', b, (b + 2048), (b + 2048), c, c, c, c.
  split; cbn [xs_fq xs_rx moved dead phase]; try done.
  - split; cbn; rewrite ?Hp2, ?Hp1, ?u32_add, ?Hc2, ?Hcp2, ?Hcc2; try done; [by destruct Hs2|lia].
  - split; try done; lia.
  - by rewrite !Z.add_0_r, !content_nil.
  - rewrite (content_ring fq') by done. rewrite Hcon, Z.add_0_r, content_nil, map_map. cbn [map app]. rewrite app_nil_r.
    erewrite map_ext; [by rewrite map_id|]. intros k. unfold frame. by rewrite Z.div_mul.
  - rewrite content_nil. constructor.
Qed.

(** ** Windows *)

Lemma window_fq r K C P R : prod_rep r K C P R -> window r = content r C P.
Proof.
  intros [Hs Hp Hc _ _ Ho]. unfold window. rewrite Hp, Hc, u32_sub by lia. rewrite content_u32 by (done || lia). f_equal. lia.
Qed.

Lemma window_rx r C H K P : cons_rep r C H K P -> window r = content r C P.
Proof.
  intros [Hs Hp Hc _ _ Ho]. unfold window. rewrite Hp, Hc, u32_sub by lia. rewrite content_u32 by (done || lia). f_equal. lia.
Qed.

Lemma drop_content {T} (r : xsk_ring T) a b n : shape r -> 0 <= n -> a + n <= b -> drop (Z.to_nat n) (content r a b) = content r (a + n) b.
Proof.
  intros Hs Hn Hb. rewrite (content_split r a (a + n) b) by lia. apply drop_app_length'. rewrite content_length by done. lia.
Qed.

Lemma take_content {T} (r : xsk_ring T) a b n : shape r -> 0 <= n -> a + n <= b -> take (Z.to_nat n) (content r a b) = content r a (a + n).
Proof.
  intros Hs Hn Hb. rewrite (content_split r a (a + n) b) by lia. apply take_app_length'. rewrite content_length by done. lia.
Qed.

Lemma inv_owners p s ks : inv p s ks -> fill_owned s ++ ks ++ rx_owned p s ≡ₚ seqZ 0 2048.
Proof.
  intros (Kf & Cf & Pf & Rf & C & H & K & P & I). pose proof I as [Hf Hr Hph _ Hp _].
  unfold fill_owned, rx_owned. rewrite (window_fq _ _ _ _ _ Hf), (window_rx _ _ _ _ _ Hr).
  destruct Hr as [Hrs _ _ _ _ Hro]. rewrite drop_content; [done|done|destruct p; cbn in *; lia..].
Qed.

Lemma inv_reachable s0 p s ks : inv Idle s0 [] -> reachable s0 p s ks -> inv p s ks.
Proof.
  intros H0 Hr. induction Hr as [|p s ks p' s' Hr IH E|p s ks s' ks' Hr IH Hk]; [done| |].
  - destruct p as [|n i|t n i j|n|n].
    + destruct (inv_idle _ _ IH) as (? & ? & E' & ?). congruence.
    + destruct (inv_reserving _ _ _ _ IH) as (? & ? & E' & ?). congruence.
    + destruct (inv_moving _ _ _ _ _ _ IH) as (? & ? & E' & ? & _). congruence.
    + destruct (inv_submitting _ _ _ IH) as (? & E' & ?). congruence.
    + destruct (inv_releasing _ _ _ IH) as (? & E' & ?). congruence.
  - inversion Hk; subst; [by apply inv_take|by eapply inv_receive].
Qed.

(** ** A batch without interference *)

Definition packet (b : mem) (d : xdp_desc) : list Z * Z := (mread b (xd_addr d) 14, xd_len d).

Lemma rx_batch_spec m : forall s i j,
  shape (xs_rx s) -> shape (xs_fq s) -> (m <= 64)%nat -> Forall desc_ok (content (xs_rx s) i (i + Z.of_nat m)) ->
  exists s', rx_batch m s (u32 i) (u32 j) = Done s' /\ xs_rx s' = xs_rx s /\ rx_npkts s' = rx_npkts s /\
  xs_out s' = xs_out s ++ map (packet (xs_buffer s)) (content (xs_rx s) i (i + Z.of_nat m)) /\
  shape (xs_fq s') /\ producer (xs_fq s') = producer (xs_fq s) /\ consumer (xs_fq s') = consumer (xs_fq s) /\
  content (xs_fq s') j (j + Z.of_nat m) = map xd_addr (content (xs_rx s) i (i + Z.of_nat m)) /\
  forall k, j + Z.of_nat m - 2048 <= k < j -> cell (xs_fq s') k = cell (xs_fq s) k.
Proof.
  induction m as [|m IH]; intros s i j Hr Hf Hm Hd.
  { exists s. change (Z.of_nat 0) with 0. rewrite !Z.add_0_r, !content_nil. cbn. rewrite app_nil_r. done. }
  destruct (cell_is_some (xs_rx s) i Hr) as [d Hc].
  rewrite (content_cons _ i _ d) in Hd |- * by (done || lia). apply Forall_cons_1 in Hd as [Hd0 Hd].
  destruct (rx_move_spec s d i j Hr Hf Hc Hd0) as (s1 & E1 & Er1 & Eo1 & En1 & Ef1).
  destruct (put_slot_cell (xs_fq s) j (xd_addr d) Hf) as (fq1 & E' & Efq & Hs1 & Hc1 & Ho1). rewrite Ef1 in E'. injection E' as E'.
  assert (Eb : xs_buffer s1 = xs_buffer s).
  { revert E1. unfold rx_move. intros E1. outcome_inv. by subst s1. }
  replace (i + Z.of_nat (S m)) with (i + 1 + Z.of_nat m) in * by lia. replace (j + Z.of_nat (S m)) with (j + 1 + Z.of_nat m) by lia.
  destruct (IH s1 (i + 1) (j + 1)) as (s' & E & Er & En & Eo & Hs' & Ep & Ec & Econ & Eother);
    [by rewrite Er1|by rewrite E'|lia|by rewrite Er1|].
  exists s'. cbn [rx_batch]. rewrite E1, !u32_add. cbn [mbind outcome_bind]. rewrite Er1, Eb in *. rewrite E' in *.
  split; [done|]. split; [done|]. split; [by rewrite En|]. split.
  { rewrite Eo, Eo1, <- app_assoc. done. }
  split; [done|]. rewrite Ep, Ec, Efq. do 2 (split; [done|]). split.
  - rewrite (content_cons _ j _ (xd_addr d)); [by rewrite Econ|lia|]. by rewrite Eother by lia.
  - intros k Hk. rewrite Eother by lia. apply Ho1, mod_ne; lia.
Qed.

(** The program alone, [k] accesses. *)
Fixpoint run_steps (k : nat) (p : pc) (s : xsk_socket_info) : outcome (pc * xsk_socket_info) :=
  match k with
  | O => Done (p, s)
  | S k => r ← rx_step p s; run_steps k (fst r) (snd r)
  end.

Lemma run_steps_S k p s : run_steps (S k) p s = (r ← rx_step p s; run_steps k (fst r) (snd r)).
Proof. done. Qed.

Lemma batch_runs m k n : forall s i j,
  run_steps (S m + k) (Moving (Z.of_nat m) n i j) s = (s' ← rx_batch m s i j; run_steps k (Submitting n) s').
Proof.
  induction m as [|m IH]; intros s i j; [done|]. cbn [Nat.add run_steps rx_step rx_batch].
  rewrite (proj2 (Z.eqb_neq (Z.of_nat (S m)) 0)) by lia. destruct (rx_move s i j) as [s1| |]; try done. cbn [mbind outcome_bind fst snd].
  replace (Z.of_nat (S m) - 1) with (Z.of_nat m) by lia. apply IH.
Qed.

(** One call of rx_drop between two visits of the kernel: a batch of at most 64
    received frames, not empty when something was received, goes from the front
    of the receive ring to the end of the fill ring, in order and with the
    same addresses, and each packet is looked at once. *)
Record batch_moved (n : Z) (s s' : xsk_socket_info) : Prop := {
  bm_rx : window (xs_rx s) = take (Z.to_nat n) (window (xs_rx s)) ++ window (xs_rx s');
  bm_fq : window (xs_fq s') = window (xs_fq s) ++ map xd_addr (take (Z.to_nat n) (window (xs_rx s)));
  bm_out : xs_out s' = xs_out s ++ map (packet (xs_buffer s)) (take (Z.to_nat n) (window (xs_rx s)));
  bm_count : rx_npkts s' = if n =? 0 then rx_npkts s else u64 (rx_npkts s + n) }.

Lemma rx_drop_moves seen s ks : inv Idle s ks ->
  exists n s', 0 <= n <= BATCH_SIZE /\ (n = 0 -> window (xs_rx s) = []) /\
  rx_drop seen s = Done s' /\ batch_moved n s s' /\ exists k, run_steps k Idle s = Done (Idle, s').
Proof.
  intros (Kf & Cf & Pf & Rf & C & H & K & P & I). pose proof (room _ _ _ _ _ _ _ _ _ _ _ I) as Hroom.
  pose proof I as [Hf Hr [HR HH] _ _ Hd]. subst H Rf. cbn [dead] in Hroom. unfold rx_drop.
  pose proof (window_rx _ _ _ _ _ Hr) as Hwr. pose proof (window_fq _ _ _ _ _ Hf) as Hwf.
  pose proof Hr as [Hrs Hrp Hrc _ _ Hro].
  destruct (peek_spec _ _ _ _ _ BATCH_SIZE Hr) as (n & r' & K' & Hn & Hn0 & Er & Erp & Erc & E & Hr'); [done|]. exists n. rewrite E.
  assert (HnP : C + n <= P) by (destruct Hr'; lia).
  assert (Hwin : window r' = window (xs_rx s)) by (rewrite (window_rx _ _ _ _ _ Hr'), Hwr; by apply content_ring).
  destruct (Z.eqb_spec n 0) as [->|Hne].
  { exists (set_rx s r'). split; [done|]. rewrite Hwr. replace P with C by lia. rewrite content_nil. split; [done|]. split; [done|]. split.
    - split; cbn [xs_rx xs_fq set_rx xs_out rx_npkts]; rewrite ?Hwin, ?app_nil_r; done.
    - exists 1%nat. cbn [run_steps rx_step]. rewrite E. done. }
  unfold BATCH_SIZE in Hn. assert (Hnf : n <= Cf + 2048 - Pf) by (destruct Hr as [_ _ _ _ _ ?]; lia). cbn [xs_fq set_rx].
  destruct (reserve_spec _ _ _ _ _ n Hf) as (f' & Ef & Efp & Efc & E2); [lia|]. rewrite (proj2 (Z.leb_le _ _) Hnf) in E2.
  destruct E2 as [E2 [K2 Hf'] ]. rewrite E2, Z.eqb_refl. cbn [mbind outcome_bind fst snd default]. unfold id.
  destruct Hf' as [Hfs Hfp Hfc _ _ Hfo].
  destruct (rx_batch_spec (Z.to_nat n) (set_fq (set_rx s r') f') C Pf) as (s1 & E3 & Er1 & En1 & Eo1 & Hs1 & Ep1 & Ec1 & Econ & Eother);
    [by destruct Hr'|done|lia|cbn [xs_rx set_fq set_rx]; rewrite (content_ring _ _ _ _ Er), Z2Nat.id by lia|].
  { rewrite (content_split _ C (C + n) P) in Hd by lia. by apply Forall_app in Hd as [? _]. }
  cbn [xs_rx xs_fq xs_buffer set_fq set_rx rx_npkts xs_out] in *. rewrite Z2Nat.id in * by lia.
  rewrite (content_ring _ _ _ _ Er) in *. rewrite E3. cbn [mbind outcome_bind]. eexists. split; [done|]. split; [done|]. split; [done|]. split.
  - split; cbn [xs_rx xs_fq count_rx set_rx set_fq rx_npkts xs_out]; rewrite ?Er1, ?Hwr, ?take_content by (done || lia).
    + rewrite (content_split _ C (C + n) P) at 1 by lia. f_equal.
      rewrite (window_rx _ (C + n) (C + n) K' P); [symmetry; by apply content_ring|].
      destruct Hr' as [Hrs' Hrp' Hrc' Hrcp' Hrcc' Hro']. split; cbn; rewrite ?Hrc', ?u32_add; try done; [by destruct Hrs'|lia].
    + rewrite Hwf. unfold window. cbn [producer consumer xsk_ring_prod__submit set_producer]. rewrite Ep1, Ec1, Hfp, Hfc, u32_add.
      rewrite u32_sub, (content_ring (xs_fq s1)) by (done || lia). rewrite content_u32 by (done || lia).
      rewrite (content_split _ Cf Pf) by lia. f_equal; [|rewrite <- Econ; f_equal; lia].
      rewrite <- (content_ring _ _ _ _ Ef). apply content_ext. intros k Hk. apply Eother. lia.
    + by rewrite Eo1.
    + by rewrite (proj2 (Z.eqb_neq n 0)), En1 by done.
  - exists (S (S (S (Z.to_nat n) + 2))). rewrite !run_steps_S. cbn [rx_step]. rewrite E. cbn [mbind outcome_bind fst snd default].
    rewrite (proj2 (Z.eqb_neq n 0)) by done. unfold id. rewrite run_steps_S. cbn [rx_step xs_fq set_rx]. rewrite E2, Z.eqb_refl.
    cbn [mbind outcome_bind fst snd default]. unfold id.
    pose proof (batch_runs (Z.to_nat n) 2 n (set_fq (set_rx s r') f') (u32 C) (u32 Pf)) as Hb.
    rewrite Z2Nat.id, E3 in Hb by lia. exact Hb.
Qed.

(** ** Theorems *)

(** Accesses left until the batch is finished. *)
Definition steps_left (p : pc) : Z :=
  match p with Idle => 0 | Reserving n _ => n + 4 | Moving t _ _ _ => t + 3 | Submitting _ => 2 | Releasing _ => 1 end.

Section FromStart.
Context (rx tx : xsk_ring xdp_desc) (fq cq : xsk_ring Z) (buffer : mem) (b c : Z) (s0 : xsk_socket_info).
Context (Hfq : fresh_prod fq b) (Hrx : fresh_cons rx c) (Hs0 : xsk_configure_socket rx tx fq cq buffer = Done s0).

Lemma start_inv : inv Idle s0 [].
Proof using Hfq Hrx Hs0. destruct (configured rx tx fq cq buffer b c Hfq Hrx) as (s & E & I). congruence. Qed.

(** C17. No frame is lost on the fast path: from a configured socket, however
    the accesses of rx_drop and the kernel's are interleaved, and across the
    wrap-around of the 32-bit ring words, each of the 2048 frames is owned
    exactly once - by the fill ring, by the kernel or by the receive ring - and
    the program's next access never leaves a ring or the mapped frames. *)
Theorem frames_conserved p s ks :
  reachable s0 p s ks ->
  fill_owned s ++ ks ++ rx_owned p s ≡ₚ seqZ 0 2048 /\ exists p' s', rx_step p s = Done (p', s').
Proof using Hfq Hrx Hs0.
  intros Hr. pose proof (inv_reachable _ _ _ _ start_inv Hr) as I. split; [by apply inv_owners|].
  destruct p as [|n i|t n i j|n|n].
  - destruct (inv_idle _ _ I) as (p' & s' & E & _). eauto.
  - destruct (inv_reserving _ _ _ _ I) as (j & s' & E & _). eauto.
  - destruct (inv_moving _ _ _ _ _ _ I) as (p' & s' & E & _). eauto.
  - destruct (inv_submitting _ _ _ I) as (s' & E & _). eauto.
  - destruct (inv_releasing _ _ _ I) as (s' & E & _). eauto.
Qed.

(** C23. A batch finishes: once frames have been taken, every access of the
    program brings the end of the batch nearer, whatever the kernel does; in
    particular the reservation in the fill ring succeeds at the first attempt
    and its retry loop is never entered.  At most 68 accesses are left. *)
Theorem batch_completes p s ks :
  reachable s0 p s ks -> p <> Idle ->
  0 < steps_left p <= 68 /\ exists p' s', rx_step p s = Done (p', s') /\ steps_left p' = steps_left p - 1.
Proof using Hfq Hrx Hs0.
  intros Hr Hp. pose proof (inv_reachable _ _ _ _ start_inv Hr) as I. pose proof I as (Kf & Cf & Pf & Rf & C & H & K & P & J).
  pose proof (i_phase _ _ _ _ _ _ _ _ _ _ _ J) as Hph. destruct p as [|n i|t n i j|n|n]; [done|..]; cbn [steps_left phase] in *.
  - split; [lia|]. destruct (inv_reserving _ _ _ _ I) as (j & s' & E & _). do 2 eexists. split; [done|]. cbn. lia.
  - split; [lia|]. destruct (inv_moving _ _ _ _ _ _ I) as (p' & s' & E & _ & ->). do 2 eexists. split; [done|].
    destruct (Z.eqb_spec t 0) as [->|]; cbn; lia.
  - split; [lia|]. destruct (inv_submitting _ _ _ I) as (s' & E & _). do 2 eexists. split; [done|]. done.
  - split; [lia|]. destruct (inv_releasing _ _ _ I) as (s' & E & _). do 2 eexists. split; [done|]. done.
Qed.

(** C18. What a call of rx_drop does when the kernel does not interfere: it
    returns without retrying, equals the program's accesses one after the other,
    and moves a batch of at most 64 received frames (at least one when there is
    any) from the front of the receive ring to the end of the fill ring, with
    order and addresses kept, looking at each packet once. *)
Theorem rx_drop_moves_a_batch seen s ks :
  reachable s0 Idle s ks ->
  exists n s', 0 <= n <= BATCH_SIZE /\ (n = 0 -> window (xs_rx s) = []) /\
  rx_drop seen s = Done s' /\ batch_moved n s s' /\ exists k, run_steps k Idle s = Done (Idle, s').
Proof using Hfq Hrx Hs0.
  intros Hr. apply (rx_drop_moves seen s ks). by eapply inv_reachable; [apply start_inv|].
Qed.
End FromStart.

(** ** A run *)

(** Rings just before their words wrap around. *)
Definition demo_base : Z := 2 ^ 32 - 3.
Definition demo_fq : xsk_ring Z := Ring demo_base (u32 (demo_base + 2048)) 2047 2048 demo_base demo_base (replicate 2048 0).
Definition demo_rx : xsk_ring xdp_desc :=
  Ring demo_base demo_base 2047 2048 demo_base demo_base (replicate 2048 {| xd_addr := 0; xd_len := 0; xd_options := 0 |}).

Definition done_or {A} (d : A) (o : outcome A) : A := match o with Done a => a | _ => d end.
Definition demo_dummy : xsk_socket_info :=
  {| xs_rx := demo_rx; xs_tx := demo_rx; xs_fq := demo_fq; xs_cq := demo_fq; xs_buffer := fun _ => 0;
     rx_npkts := 0; tx_npkts := 0; outstanding_tx := 0; xs_out := [] |}.

Definition demo_s0 : xsk_socket_info :=
  {| xs_rx := demo_rx; xs_tx := demo_rx;
     xs_fq := Ring (u32 (demo_base + 2048)) (u32 (demo_base + 2048)) 2047 2048 (u32 (demo_base + 2048)) demo_base
                (map (fun k => (k + 3) mod 2048 * opt_xsk_frame_size) (seqZ 0 2048));
     xs_cq := demo_fq; xs_buffer := fun _ => 0; rx_npkts := 0; tx_npkts := 0; outstanding_tx := 0; xs_out := [] |}.

(** The kernel takes frame 0 and hands it back with a packet of 60 bytes. *)
Definition demo_s1 : xsk_socket_info := set_fq demo_s0 (set_consumer (xs_fq demo_s0) (u32 (consumer (xs_fq demo_s0) + 1))).
Definition demo_rx2 : xsk_ring xdp_desc :=
  done_or demo_rx (put_slot (xs_rx demo_s1) (producer (xs_rx demo_s1)) {| xd_addr := 0 * opt_xsk_frame_size + 256; xd_len := 60; xd_options := 0 |}).
Definition demo_s2 : xsk_socket_info := received demo_s1 demo_rx2 (fun x => x mod 256).
Definition demo_s3 : pc * xsk_socket_info := done_or (Idle, demo_dummy) (rx_step Idle demo_s2).

Lemma demo_fresh : fresh_prod demo_fq demo_base /\ fresh_cons demo_rx demo_base.
Proof. repeat split. Qed.

Lemma demo_start : xsk_configure_socket demo_rx demo_rx demo_fq demo_fq (fun _ => 0) = Done demo_s0.
Proof. by vm_compute. Qed.

Lemma demo_reach2 : reachable demo_s0 Idle demo_s2 [].
Proof.
  eapply (reach_kernel _ _ demo_s1 [0]).
  - apply (reach_kernel _ _ demo_s0 []); [apply reach_start|]. apply (kernel_take demo_s0 [] 0); by vm_compute.
  - refine (kernel_receive demo_s1 [] 0 [] 256 60 0 (fun x => x mod 256) demo_rx2 _ _ _ _ _); vm_compute; (reflexivity || discriminate).
Qed.

Lemma demo_reach3 : reachable demo_s0 (fst demo_s3) (snd demo_s3) [].
Proof. eapply reach_program; [apply demo_reach2|]. by vm_compute. Qed.

Lemma frames_conserved_witness : exists p s, p <> Idle /\ reachable demo_s0 p s [] /\ fill_owned s ++ [] ++ rx_owned p s ≡ₚ seqZ 0 2048.
Proof.
  exists (fst demo_s3), (snd demo_s3). split; [by vm_compute|]. split; [exact demo_reach3|].
  apply (frames_conserved demo_rx demo_rx demo_fq demo_fq (fun _ => 0) demo_base demo_base demo_s0 (proj1 demo_fresh) (proj2 demo_fresh) demo_start _ _ _ demo_reach3).
Defined.

Lemma batch_completes_witness : exists p' s', rx_step (fst demo_s3) (snd demo_s3) = Done (p', s') /\ steps_left p' = 4.
Proof.
  destruct (batch_completes demo_rx demo_rx demo_fq demo_fq (fun _ => 0) demo_base demo_base demo_s0 (proj1 demo_fresh) (proj2 demo_fresh) demo_start _ _ _ demo_reach3)
    as [_ (p' & s' & E & Hs)]; [by vm_compute|].
  exists p', s'. split; [exact E|]. rewrite Hs. clear. vm_compute. reflexivity.
Defined.

Lemma rx_drop_moves_a_batch_witness : exists s', rx_drop [] demo_s2 = Done s' /\ rx_npkts s' = 1 /\ map fst (xs_out s') = [map Z.of_nat (seq 0 14)].
Proof.
  destruct (rx_drop_moves_a_batch demo_rx demo_rx demo_fq demo_fq (fun _ => 0) demo_base demo_base demo_s0 (proj1 demo_fresh) (proj2 demo_fresh) demo_start [] _ _ demo_reach2)
    as (n & s' & _ & _ & E & _). exists s'. split; [exact E|].
  assert (Hs : s' = done_or demo_dummy (rx_drop [] demo_s2)) by (by rewrite E). rewrite Hs. clear. split; vm_compute; reflexivity.
Defined.

(** ** Sending *)

(** [frame_nb] is never advanced: two calls of tx_only with room in the ring
    queue the same 64 frames twice, while the first are still outstanding. *)
Definition sent_addresses (o : outcome xsk_socket_info) : list Z :=
  match o with Done s => map xd_addr (content (xs_tx s) demo_base (demo_base + 128)) | _ => [] end.

Definition demo_tx_socket : xsk_socket_info :=
  set_tx demo_dummy (Ring demo_base (u32 (demo_base + 2048)) 2047 2048 demo_base demo_base (ring demo_rx)) 0.

Example frames_sent_twice :
  sent_addresses (tx_turns 2 (fun _ => {| te_wakeup := true; te_sent := true |}) demo_tx_socket) =
  map (fun k => k * 4096) (seqZ 0 64 ++ seqZ 0 64).
Proof. vm_compute. reflexivity. Qed.

(** The Internet checksum of a header: 0 when the field is right. *)
Fixpoint sum16 (l : list Z) : Z := match l with a :: b :: l => 256 * a + b + sum16 l | [a] => 256 * a | [] => 0 end.
Definition fold16 (z : Z) : Z := z mod 65536 + z / 65536.
Definition ip_checksum (l : list Z) : Z := 65535 - fold16 (fold16 (sum16 l)).

(** The frame's IPv4 header carries 0x7A8D where 0x92E3 belongs. *)
Example header_checksum_is_wrong :
  ip_checksum (take 20 (drop 14 pkt_data)) <> 0 /\
  ip_checksum (take 10 (drop 14 pkt_data) ++ [0; 0] ++ take 8 (drop 26 pkt_data)) = 0x92E3.
Proof. by vm_compute. Qed.
