(* ===== verification/XskSetup.v ===== *)
(** * XskSetup: starting and stopping the AF_XDP program (src/xdp)

    main of xdp/xdp_redirect_sock_user.c up to the receive loop, the removal of
    the program from the interface, and the program of xdp_redirect_sock_kern.c.
    What the system and libbpf answer is a [setup_env]; the rings a new socket
    has are arguments, as in [Xsk]. *)

From stdpp Require Import base list numbers option.
From Stdlib Require Import ZArith Lia Permutation.
From S2P Require Import Prelude Bytes Mem Xsk XskSpec.
#[local] Open Scope Z_scope.

(** ** Model *)

(** The id of the program on the interface (0: none), the global [prog_id], and
    what is held: the mapping, the umem, the socket. *)
Record link := { lk_prog : Z; prog_id : Z; lk_mapped : bool; lk_umem : bool; lk_socket : bool }.

Definition set_prog (l : link) (p : Z) : link :=
  {| lk_prog := p; prog_id := prog_id l; lk_mapped := lk_mapped l; lk_umem := lk_umem l; lk_socket := lk_socket l |}.
Definition set_prog_id (l : link) (p : Z) : link :=
  {| lk_prog := lk_prog l; prog_id := p; lk_mapped := lk_mapped l; lk_umem := lk_umem l; lk_socket := lk_socket l |}.
Definition set_held (l : link) (mapped umem socket : bool) : link :=
  {| lk_prog := lk_prog l; prog_id := prog_id l; lk_mapped := mapped; lk_umem := umem; lk_socket := socket |}.

(** [query]: does bpf_get_link_xdp_id answer?  The first component is the code
    of the exit it makes itself. *)
Definition remove_xdp_program (query : bool) (l : link) : option Z * link :=
  if negb query then (Some 1, l) else
  if prog_id l =? lk_prog l then (None, set_prog l 0) else (None, l).

(** Both exits have the code EXIT_FAILURE. *)
Definition exit_with_error (query : bool) (l : link) : Z * link := (1, snd (remove_xdp_program query l)).

Definition int_exit (query : bool) (l : link) : Z * link :=
  let l := set_held l (lk_mapped l) false false in
  match remove_xdp_program query l with
  | (Some code, l) => (code, l)
  | (None, l) => (0, set_held l false (lk_umem l) (lk_socket l))
  end.

(** [se_socket]: the program on the interface once xsk_socket__create has
    succeeded, and the rings of the socket; [se_query], [se_last_query]: whether
    the program's id can be read, in xsk_configure_socket and on the way out. *)
Record setup_env := {
  se_ifindex : Z;
  se_mmap : bool;
  se_umem_calloc : bool;
  se_umem_create : bool;
  se_socket_calloc : bool;
  se_socket : option (Z * xsk_ring xdp_desc * xsk_ring xdp_desc * xsk_ring Z * xsk_ring Z * mem);
  se_query : bool;
  se_last_query : bool }.

(** What is printed; parse_params goes on in either case. *)
Definition parse_params (ifindex frame_size : Z) (unaligned : bool) : bool * bool :=
  (ifindex =? 0, negb (Z.land frame_size (frame_size - 1) =? 0) && negb unaligned).

(** A step of the set-up: the process has ended, or goes on. *)
Definition step_result (A : Type) : Type := Z * link + A * link.

Definition xsk_configure_umem (e : setup_env) (l : link) : step_result unit :=
  if negb (se_umem_calloc e) then inl (exit_with_error (se_last_query e) l) else
  if negb (se_umem_create e) then inl (exit_with_error (se_last_query e) l) else
  inr (tt, set_held l (lk_mapped l) true (lk_socket l)).

Definition xsk_configure (e : setup_env) (l : link) : outcome (step_result xsk_socket_info) :=
  if negb (se_socket_calloc e) then Done (inl (exit_with_error (se_last_query e) l)) else
  match se_socket e with
  | None => Done (inl (exit_with_error (se_last_query e) l))
  | Some (prog, rx, tx, fq, cq, buffer) =>
      let l := set_prog (set_held l (lk_mapped l) (lk_umem l) true) prog in
      if negb (se_query e) then Done (inl (exit_with_error (se_last_query e) l)) else
      let l := set_prog_id l prog in
      match xsk_configure_socket rx tx fq cq buffer with
      | Done s => Done (inr (s, l))
      | Spin => Done (inl (exit_with_error (se_last_query e) l))
      | Fault f => Fault f
      end
  end.

(** [inr]: the receive loop is reached, with this socket. *)
Definition xsk_main (e : setup_env) (l : link) : outcome (step_result xsk_socket_info) :=
  if negb (se_mmap e) then Done (inl (1, l)) else
  let l := set_held l true (lk_umem l) (lk_socket l) in
  match xsk_configure_umem e l with
  | inl r => Done (inl r)
  | inr (_, l) => xsk_configure e l
  end.

(** The program in the kernel: a queue with a socket in the map is redirected.
    [xsks_map] has four entries. *)
Inductive xdp_action := XDP_PASS | XDP_REDIRECT (queue : Z).
Definition XSKS_MAP_SOCKS : Z := 4.

Definition xdp_sock_prog (xsks_map : Z -> option Z) (rx_queue_index : Z) : xdp_action :=
  if (0 <=? rx_queue_index) && (rx_queue_index <? XSKS_MAP_SOCKS) && bool_decide (is_Some (xsks_map rx_queue_index))
  then XDP_REDIRECT rx_queue_index else XDP_PASS.

(** ** Properties *)

Definition link_start (prog : Z) : link :=
  {| lk_prog := prog; prog_id := 0; lk_mapped := false; lk_umem := false; lk_socket := false |}.

Lemma remove_foreign query l : prog_id l = 0 -> lk_prog (snd (remove_xdp_program query l)) = lk_prog l.
Proof.
  intros H. unfold remove_xdp_program. destruct query; [|done]. cbn [negb]. rewrite H. destruct (Z.eqb_spec 0 (lk_prog l)) as [E|]; [|done].
  cbn. congruence.
Qed.

(** When every step succeeds and the library's rings are fresh, the receive loop
    starts with the program registered and everything held, each of the 2048
    frames belongs to one ring, and a first turn of the loop runs. *)
Theorem xsk_main_serves e prog0 prog rx tx fq cq buffer b c :
  se_mmap e = true -> se_umem_calloc e = true -> se_umem_create e = true -> se_socket_calloc e = true -> se_query e = true ->
  se_socket e = Some (prog, rx, tx, fq, cq, buffer) -> fresh_prod fq b -> fresh_cons rx c ->
  exists s, xsk_main e (link_start prog0) =
    Done (inr (s, {| lk_prog := prog; prog_id := prog; lk_mapped := true; lk_umem := true; lk_socket := true |})) /\
  fill_owned s ++ rx_owned Idle s ≡ₚ seqZ 0 2048 /\ exists s', rx_step Idle s = Done s'.
Proof.
  intros H1 H2 H3 H4 H5 Hs Hf Hr. destruct (configured rx tx fq cq buffer b c Hf Hr) as (s & E & I). exists s. split.
  - unfold xsk_main, xsk_configure_umem, xsk_configure. rewrite H1, H2, H3, H4, H5, Hs. cbn [negb]. rewrite E. reflexivity.
  - split.
    + exact (inv_owners _ _ _ I).
    + destruct (inv_idle _ _ I) as (p' & s' & E' & _). eauto.
Qed.

(** A start that fails before the socket exists leaves the interface's program
    alone. *)
Theorem failed_setup_keeps_program e prog0 code l :
  se_socket e = None \/ se_socket_calloc e = false \/ se_umem_create e = false \/ se_umem_calloc e = false \/ se_mmap e = false ->
  xsk_main e (link_start prog0) = Done (inl (code, l)) -> lk_prog l = prog0 /\ code = 1.
Proof.
  intros H. unfold xsk_main, xsk_configure_umem, xsk_configure, exit_with_error.
  destruct (se_mmap e) eqn:E1; cbn [negb]; [|by intros [= <- <-] ].
  destruct (se_umem_calloc e) eqn:E2; cbn [negb]; [|intros [= <- <-]; by rewrite remove_foreign].
  destruct (se_umem_create e) eqn:E3; cbn [negb]; [|intros [= <- <-]; by rewrite remove_foreign].
  destruct (se_socket_calloc e) eqn:E4; cbn [negb]; [|intros [= <- <-]; by rewrite remove_foreign].
  destruct (se_socket e) eqn:E5; [|intros [= <- <-]; by rewrite remove_foreign].
  by destruct H as [H|[H|[H|[H|H] ] ] ].
Qed.

(** But when the id of the program the new socket brought cannot be read, the
    process ends with that program still on the interface. *)
Theorem failed_query_leaves_program e prog0 prog rx tx fq cq buffer :
  se_mmap e = true -> se_umem_calloc e = true -> se_umem_create e = true -> se_socket_calloc e = true -> se_query e = false ->
  se_socket e = Some (prog, rx, tx, fq, cq, buffer) ->
  exists l, xsk_main e (link_start prog0) = Done (inl (1, l)) /\ lk_prog l = prog.
Proof.
  intros H1 H2 H3 H4 H5 Hs. eexists. split.
  - unfold xsk_main, xsk_configure_umem, xsk_configure. rewrite H1, H2, H3, H4, H5, Hs. cbn [negb]. reflexivity.
  - by rewrite remove_foreign.
Qed.

(** Leaving through int_exit takes the program, the socket, the memory away. *)
Theorem int_exit_releases l : prog_id l = lk_prog l ->
  int_exit true l = (0, {| lk_prog := 0; prog_id := prog_id l; lk_mapped := false; lk_umem := false; lk_socket := false |}).
Proof.
  destruct l as [lp id m u k]. cbn [prog_id lk_prog]. intros ->. unfold int_exit, remove_xdp_program. cbn. by rewrite Z.eqb_refl.
Qed.

(** The kernel's program redirects exactly the queues that have a socket. *)
Lemma redirect_iff m q : xdp_sock_prog m q = XDP_REDIRECT q <-> 0 <= q < 4 /\ is_Some (m q).
Proof.
  unfold xdp_sock_prog, XSKS_MAP_SOCKS. destruct (bool_decide_reflect (is_Some (m q))); rewrite ?andb_true_r, ?andb_false_r.
  - destruct (Z.leb_spec 0 q), (Z.ltb_spec q 4); cbn; (split; [intros|]; try done; try lia); by intros [? ?]; lia.
  - split; [done|tauto].
Qed.
