(* ===== verification/Peers.v ===== *)
(** * Peers: the programs the proxy is tried out with

    The CAN server and client (src/can), the L2CAP server and client (src/bt) and
    the HTTP probe (src/src/rtt_stats.c) as interaction trees over the system
    calls they make; several of them run until a signal or the other side ends
    them.  [run] gives the calls a meaning: a script of what read answers, and a
    record of what was written, shown and is open. *)

From ITree Require Import ITree ITreeFacts.
From ITree Require Import Events.State Events.StateFacts.
From stdpp Require Import base list numbers strings.
From Stdlib Require Import ZArith Lia.
From S2P Require Import Prelude Bytes Mem CString Session Iot.
#[local] Open Scope Z_scope.

(** Sequencing of trees; stdpp's arrow is the monad of outcomes. *)
Notation "x ⇐ t ; k" := (ITree.bind t (fun x => k)) (at level 20, t at level 100, k at level 200, right associativity).
Notation "t ≈ u" := (eutt eq t u) (at level 70).

(** ** System calls *)

(** Calls whose only answer is success. *)
Variant os_call :=
  F_SETFL | CAN_RAW_RECV_OWN_MSGS | CAN_RAW_FILTER | SIOCGIFINDEX | SO_REUSEADDR | BIND | LISTEN | CONNECT
  | GETHOSTBYNAME | SO_RCVTIMEO | SO_SNDTIMEO | TCP_INFO | FOPEN.

(** [Running] reads the flag the signal handler clears; [Show] prints bytes that
    came from the other side; [Fwrite] appends to the probe's output file. *)
Variant osE : Type -> Type :=
| Socket : osE (option Z)
| Call (c : os_call) (fd : Z) : osE bool
| Accept (fd : Z) : osE (option Z)
| Read (fd n : Z) : osE read_result
| Write (fd : Z) (buf : list Z) : osE Z
| Close (fd : Z) : osE unit
| Running : osE bool
| Show (text : list Z) : osE unit
| Fwrite (buf : list Z) : osE unit.

Definition program : Type := itree osE Z.

(** [perror(...); close(fd); return 1;] *)
Definition bail (fd : Z) : program := _ ⇐ ITree.trigger (Close fd); Ret 1.

(** [if (call(fd) < 0) { perror(...); close(fd); return 1; }] *)
Definition must (c : os_call) (fd : Z) (k : program) : program :=
  ok ⇐ ITree.trigger (Call c fd); if ok : bool then k else bail fd.

(** ** CAN *)

(** [struct can_frame]; [pad] are its three reserved bytes, which the programs
    leave uninitialised in the frames they build. *)
Definition can_frame_of (can_id : Z) (pad data : list Z) (can_dlc : Z) : list Z :=
  le_bytes 4 can_id ++ [can_dlc] ++ pad ++ data.
Definition frame_dlc (frame : list Z) : Z := nth 4 frame 0.
Definition frame_data (frame : list Z) : list Z := drop 8 frame.

(** The ASCII line: at most eight bytes, a dot for what cannot be printed. *)
Definition ascii_line (frame : list Z) : list Z :=
  map (fun b => if (32 <=? b) && (b <=? 126) then b else 46)
    (take (Z.to_nat (Z.min (frame_dlc frame) 8)) (frame_data frame)).

Definition hello_frame (pad : list Z) : list Z := can_frame_of 0x123 pad (lit "Hello" ++ [0; 0; 0]) 5.
Definition world_frame (pad : list Z) : list Z := can_frame_of 0x124 pad (lit "World" ++ [0; 0; 0]) 5.

(** [frame.can_dlc > 0 && frame.data[0] == 'H'] *)
Definition greets (frame : list Z) : bool := (0 <? frame_dlc frame) && (nth 0 (frame_data frame) 0 =? 72).

(** One turn of [while (running)]. *)
Definition can_server_turn (fd : Z) (pad : list Z) (_ : unit) : itree osE (unit + unit) :=
  running ⇐ ITree.trigger Running;
  if negb running then Ret (inr tt) else
  r ⇐ ITree.trigger (Read fd sizeof_can_frame);
  match r with
  | ReadAgain | ReadFailed => Ret (inl tt)
  | ReadBytes frame =>
      if blen frame <? sizeof_can_frame then Ret (inl tt) else
      _ ⇐ ITree.trigger (Show (ascii_line frame));
      if greets frame then _ ⇐ ITree.trigger (Write fd (world_frame pad)); Ret (inl tt) else Ret (inl tt)
  end.

Definition can_server (pad : list Z) : program :=
  s ⇐ ITree.trigger Socket;
  match s with
  | None => Ret 1
  | Some fd =>
      _ ⇐ ITree.trigger (Call F_SETFL fd);
      _ ⇐ ITree.trigger (Call CAN_RAW_RECV_OWN_MSGS fd);
      must CAN_RAW_FILTER fd (must SIOCGIFINDEX fd (must BIND fd (
        _ ⇐ ITree.iter (can_server_turn fd pad) tt;
        _ ⇐ ITree.trigger (Close fd); Ret 0)))
  end.

(** A read that fails or is short ends the client without a close. *)
Definition can_client (pad : list Z) : program :=
  s ⇐ ITree.trigger Socket;
  match s with
  | None => Ret 1
  | Some fd =>
      must SIOCGIFINDEX fd (must BIND fd (
        n ⇐ ITree.trigger (Write fd (hello_frame pad));
        if negb (n =? sizeof_can_frame) then bail fd else
        r ⇐ ITree.trigger (Read fd sizeof_can_frame);
        match r with
        | ReadAgain | ReadFailed => Ret 1
        | ReadBytes frame =>
            if blen frame <? sizeof_can_frame then Ret 1 else
            _ ⇐ ITree.trigger (Show (ascii_line frame));
            _ ⇐ ITree.trigger (Close fd); Ret 0
        end))
  end.

(** ** L2CAP *)

(** One turn of the echo loop; [inr] ends it. *)
Definition bt_echo_turn (fd : Z) (_ : unit) : itree osE (unit + unit) :=
  r ⇐ ITree.trigger (Read fd 1023);
  match r with
  | ReadBytes ((_ :: _) as buf) =>
      _ ⇐ ITree.trigger (Show buf);
      n ⇐ ITree.trigger (Write fd buf);
      if n =? blen buf then Ret (inl tt) else Ret (inr tt)
  | _ => Ret (inr tt)
  end.

Definition bt_server : program :=
  s ⇐ ITree.trigger Socket;
  match s with
  | None => Ret 1
  | Some server_sock =>
      must SO_REUSEADDR server_sock (must BIND server_sock (must LISTEN server_sock (
        c ⇐ ITree.trigger (Accept server_sock);
        match c with
        | None => bail server_sock
        | Some client_sock =>
            _ ⇐ ITree.iter (bt_echo_turn client_sock) tt;
            _ ⇐ ITree.trigger (Close client_sock);
            _ ⇐ ITree.trigger (Close server_sock); Ret 0
        end)))
  end.

Definition bt_message : list Z := lit "Hello, L2CAP!".

(** [dest]: is there an argument? *)
Definition bt_client (dest : bool) : program :=
  if negb dest then Ret 1 else
  s ⇐ ITree.trigger Socket;
  match s with
  | None => Ret 1
  | Some sk =>
      must BIND sk (must CONNECT sk (
        n ⇐ ITree.trigger (Write sk bt_message);
        _ ⇐ (if 0 <? n then
           r ⇐ ITree.trigger (Read sk 1023);
           match r with
           | ReadBytes ((_ :: _) as buf) => ITree.trigger (Show buf)
           | _ => Ret tt
           end
         else Ret tt);
        _ ⇐ ITree.trigger (Close sk); Ret 0))
  end.

(** ** The HTTP probe *)

Definition crlf : list Z := [13; 10].
Definition HTTP_REQUEST : list Z :=
  lit "GET / HTTP/1.1" ++ crlf ++ lit "Host: www.baidu.com" ++ crlf ++ lit "Connection: keep-alive" ++ crlf ++ crlf.

(** Where [strstr(buffer, "\r\n\r\n")] points, from the start of the buffer. *)
Fixpoint header_end (s : list Z) : option Z :=
  if bool_decide (take 4 s = crlf ++ crlf) then Some 0 else
  match s with [] => None | _ :: s => (fun n => n + 1) <$> header_end s end.

(** What a piece of a response makes the probe print. *)
Definition show_header (header_found : bool) (total_bytes : Z) (l : list Z) : itree osE bool :=
  if header_found then Ret true else
  let text := up_to_nul l in
  match header_end text with
  | Some n => _ ⇐ ITree.trigger (Show (take (Z.to_nat (Z.min (n + 4) 500)) l)); Ret true
  | None => if total_bytes <? 500 then _ ⇐ ITree.trigger (Show text); Ret false else Ret false
  end.

(** One turn of [while (1)]: read until a timeout, an error or the end.  [file]:
    is [output_file] not NULL? *)
Definition response_turn (fd : Z) (file : bool) (st : Z * bool) : itree osE (Z * bool + unit) :=
  r ⇐ ITree.trigger (Read fd 4095);
  match r with
  | ReadBytes ((_ :: _) as l) =>
      let total_bytes := fst st + blen l in
      _ ⇐ (if file then ITree.trigger (Fwrite l) else Ret tt);
      header_found ⇐ show_header (snd st) total_bytes l;
      _ ⇐ ITree.trigger (Call TCP_INFO fd);
      Ret (inl (total_bytes, header_found))
  | _ => Ret (inr tt)
  end.

(** One turn of [while (cnt ++ < 50)]; [inr false]: the write failed. *)
Definition request_turn (fd : Z) (file : bool) (cnt : Z) : itree osE (Z + bool) :=
  if cnt <? 50 then
    n ⇐ ITree.trigger (Write fd HTTP_REQUEST);
    if n <? 0 then Ret (inr false) else
    _ ⇐ ITree.iter (response_turn fd file) (0, false);
    Ret (inl (cnt + 1))
  else Ret (inr true).

(** [error(...)] leaves the process. *)
Definition or_exit (c : os_call) (fd : Z) (k : itree osE (outcome Z)) : itree osE (outcome Z) :=
  ok ⇐ ITree.trigger (Call c fd); if ok : bool then k else Ret (Done 1).

Definition rtt_stats : itree osE (outcome Z) :=
  or_exit GETHOSTBYNAME (-1) (
    s ⇐ ITree.trigger Socket;
    match s with
    | None => Ret (Done 1)
    | Some sockfd =>
        or_exit SO_RCVTIMEO sockfd (or_exit SO_SNDTIMEO sockfd (or_exit CONNECT sockfd (
          file ⇐ ITree.trigger (Call FOPEN (-1));
          all ⇐ ITree.iter (request_turn sockfd file) 0;
          if negb all then Ret (Done 1) else
          _ ⇐ ITree.trigger (Close sockfd);
          Ret (if file : bool then Done 0 else Fault NullDeref))))
    end).

(** ** The system *)

(** What the calls answer: the descriptors, which calls succeed, and what the
    [k]-th write of [buf] returns. *)
Record os_env := {
  e_socket : option Z;
  e_accept : option Z;
  e_call : os_call -> bool;
  e_write : nat -> list Z -> Z }.

(** What read will answer, what was handed to write, shown and appended to the
    file, the open descriptors. *)
Record os_state := {
  os_reads : list read_result;
  os_sent : list (Z * list Z);
  os_shown : list (list Z);
  os_file : list Z;
  os_open : list Z }.

Definition os_start (reads : list read_result) : os_state :=
  {| os_reads := reads; os_sent := []; os_shown := []; os_file := []; os_open := [] |}.

Definition with_open (s : os_state) (l : list Z) : os_state :=
  {| os_reads := os_reads s; os_sent := os_sent s; os_shown := os_shown s; os_file := os_file s; os_open := l |}.
Definition with_reads (s : os_state) (l : list read_result) : os_state :=
  {| os_reads := l; os_sent := os_sent s; os_shown := os_shown s; os_file := os_file s; os_open := os_open s |}.
Definition sending (s : os_state) (fd : Z) (buf : list Z) : os_state :=
  {| os_reads := os_reads s; os_sent := os_sent s ++ [(fd, buf)]; os_shown := os_shown s; os_file := os_file s; os_open := os_open s |}.
Definition showing (s : os_state) (t : list Z) : os_state :=
  {| os_reads := os_reads s; os_sent := os_sent s; os_shown := os_shown s ++ [t]; os_file := os_file s; os_open := os_open s |}.
Definition appending (s : os_state) (t : list Z) : os_state :=
  {| os_reads := os_reads s; os_sent := os_sent s; os_shown := os_shown s; os_file := os_file s ++ t; os_open := os_open s |}.

(** read stores at most [n] bytes. *)
Definition clip (n : Z) (r : read_result) : read_result :=
  match r with ReadBytes l => ReadBytes (take (Z.to_nat n) l) | _ => r end.

(** When the script is over, read reports the end of the stream, and the signal
    has arrived. *)
Definition os_step (e : os_env) : osE ~> Monads.stateT os_state (itree void1) :=
  fun _ ev s =>
    match ev with
    | Socket => Ret (with_open s (option_list (e_socket e) ++ os_open s), e_socket e)
    | Call c _ => Ret (s, e_call e c)
    | Accept _ => Ret (with_open s (option_list (e_accept e) ++ os_open s), e_accept e)
    | Read _ n =>
        match os_reads s with
        | [] => Ret (s, ReadBytes [])
        | r :: l => Ret (with_reads s l, clip n r)
        end
    | Write fd buf => Ret (sending s fd buf, e_write e (length (os_sent s)) buf)
    | Close fd => Ret (with_open s (remove_first fd (os_open s)), tt)
    | Running => Ret (s, bool_decide (os_reads s <> []))
    | Show t => Ret (showing s t, tt)
    | Fwrite t => Ret (appending s t, tt)
    end.

Definition run (e : os_env) {A} (t : itree osE A) (s : os_state) : itree void1 (os_state * A) := interp_state (os_step e) t s.
