(* ===== verification/PeersSpec.v ===== *)
(** * PeersSpec: what the trial programs do

    Each program run against every script: which bytes it hands to the other
    side, that it ends, and which descriptors it leaves open; the client and the
    server of a pair against each other. *)

From ITree Require Import ITree ITreeFacts.
From ITree Require Import Events.State Events.StateFacts.
From stdpp Require Import base list numbers strings.
From Stdlib Require Import ZArith Lia.
From S2P Require Import Prelude Bytes Mem CString Message Session Iot IotSpec Peers.
#[local] Open Scope Z_scope.

(** ** Running a program *)

Section Run.
Context (e : os_env).

Lemma run_ret {A} (r : A) s : run e (Ret r) s ≈ Ret (s, r).
Proof. unfold run. rewrite interp_state_ret. reflexivity. Qed.

Lemma run_sequence {A B} (t : itree osE A) (k : A -> itree osE B) s :
  run e (x ⇐ t; k x) s ≈ ITree.bind (run e t s) (fun p => run e (k (snd p)) (fst p)).
Proof. unfold run. rewrite interp_state_bind. reflexivity. Qed.

(** A first part that ends hands its state on. *)
Lemma run_then {A B} (t : itree osE A) (k : A -> itree osE B) s s' a :
  run e t s ≈ Ret (s', a) -> run e (x ⇐ t; k x) s ≈ run e (k a) s'.
Proof. intros H. rewrite run_sequence, H, bind_ret_l. reflexivity. Qed.

Lemma run_trigger {A} (ev : osE A) s s' a : os_step e A ev s = Ret (s', a) -> run e (ITree.trigger ev) s ≈ Ret (s', a).
Proof. intros H. unfold run. rewrite interp_state_trigger, H. reflexivity. Qed.

Lemma run_event {A B} (ev : osE A) (k : A -> itree osE B) s s' a :
  os_step e A ev s = Ret (s', a) -> run e (x ⇐ ITree.trigger ev; k x) s ≈ run e (k a) s'.
Proof. intros H. by apply run_then, run_trigger. Qed.

(** One turn of a loop. *)
Lemma run_turn {I R} (body : I -> itree osE (I + R)) i s s' a :
  run e (body i) s ≈ Ret (s', a) ->
  run e (ITree.iter body i) s ≈ match a with inl j => run e (ITree.iter body j) s' | inr r => Ret (s', r) end.
Proof.
  intros H. unfold run in *. rewrite unfold_iter, interp_state_bind, H, bind_ret_l. cbn [fst snd]. destruct a as [j|r].
  - rewrite interp_state_tau, tau_eutt. reflexivity.
  - rewrite interp_state_ret. reflexivity.
Qed.

Lemma run_stop {I R} (body : I -> itree osE (I + R)) i s s' r :
  run e (body i) s ≈ Ret (s', inr r) -> run e (ITree.iter body i) s ≈ Ret (s', r).
Proof. intros H. by rewrite (run_turn _ _ _ _ _ H). Qed.

Lemma run_again {I R} (body : I -> itree osE (I + R)) i s s' j :
  run e (body i) s ≈ Ret (s', inl j) -> run e (ITree.iter body i) s ≈ run e (ITree.iter body j) s'.
Proof. intros H. by rewrite (run_turn _ _ _ _ _ H). Qed.

Lemma run_must c fd k s : run e (must c fd k) s ≈ if e_call e c then run e k s else run e (bail fd) s.
Proof. unfold must. rewrite run_event by reflexivity. by destruct (e_call e c). Qed.

End Run.

(** Perform the first event of the program. *)
Ltac event := rewrite run_event by reflexivity; cbv beta iota.

(** A call of [must] that succeeds by [H]. *)
Ltac passes H := rewrite run_must, H; cbv iota.

(** The program ended: compare the states. *)
Ltac ended :=
  rewrite run_ret;
  cbv beta iota zeta delta [remove_first os_open with_open os_start os_reads os_sent os_shown os_file option_list option_rect from_option app sending showing with_reads appending];
  rewrite ?Z.eqb_refl; reflexivity.

(** ** The CAN server *)

(** What the server makes of one answer. *)
Definition complete (r : read_result) : option (list Z) :=
  match clip sizeof_can_frame r with
  | ReadBytes f => if blen f <? sizeof_can_frame then None else Some f
  | _ => None
  end.

Definition frames (reads : list read_result) : list (list Z) := omap complete reads.

Definition after_answer (fd : Z) (pad : list Z) (s : os_state) (r : read_result) : os_state :=
  match complete r with
  | None => s
  | Some f => if greets f then sending (showing s (ascii_line f)) fd (world_frame pad) else showing s (ascii_line f)
  end.

Lemma can_turn e fd pad r reads s :
  os_reads s = r :: reads ->
  run e (can_server_turn fd pad tt) s ≈ Ret (after_answer fd pad (with_reads s reads) r, inl tt).
Proof.
  intros Hs. unfold can_server_turn, after_answer, complete. event. rewrite Hs, bool_decide_true by done. cbn [negb].
  rewrite (run_event _ _ _ s (with_reads s reads) (clip sizeof_can_frame r)) by (cbn; by rewrite Hs).
  destruct (clip sizeof_can_frame r) as [f| |]; [|apply run_ret..]. destruct (blen f <? sizeof_can_frame); [apply run_ret|].
  event. destruct (greets f); [event|]; apply run_ret.
Qed.

Lemma can_turns e fd pad reads s :
  os_reads s = reads ->
  run e (ITree.iter (can_server_turn fd pad) tt) s ≈
  Ret ({| os_reads := []; os_sent := os_sent s ++ map (fun _ => (fd, world_frame pad)) (filter greets (frames reads));
          os_shown := os_shown s ++ map ascii_line (frames reads); os_file := os_file s; os_open := os_open s |}, tt).
Proof.
  revert s. induction reads as [|r reads IH]; intros s Hs.
  - rewrite run_turn; [|unfold can_server_turn; event; rewrite Hs; cbn; apply run_ret]. cbn. rewrite !app_nil_r.
    destruct s; cbn in *; subst. reflexivity.
  - rewrite run_turn by (by apply can_turn). rewrite IH by (unfold after_answer; repeat case_match; done).
    unfold after_answer, frames. cbn [omap list_omap]. destruct (complete r) as [f|]; [|reflexivity].
    cbn [map]. rewrite filter_cons. destruct (greets f) eqn:Eg; cbn [os_sent os_shown os_file os_open sending showing with_reads map].
    + rewrite decide_True by done. cbn [map]. rewrite <- !app_assoc. reflexivity.
    + rewrite decide_False by (by intros []). rewrite <- !app_assoc. reflexivity.
Qed.

(** Every complete frame that begins with H gets exactly one answer, in order,
    and nothing else is sent; when the signal comes the server ends with its
    socket closed. *)
Theorem can_server_answers e pad fd reads :
  e_socket e = Some fd -> (forall c, e_call e c = true) ->
  run e (can_server pad) (os_start reads) ≈
  Ret ({| os_reads := []; os_sent := map (fun _ => (fd, world_frame pad)) (filter greets (frames reads));
          os_shown := map ascii_line (frames reads); os_file := []; os_open := [] |}, 0).
Proof.
  intros Hs Hc. unfold can_server. event. rewrite Hs. cbv iota. event. event. passes Hc. passes Hc. passes Hc.
  rewrite run_then by (by apply can_turns). event. ended.
Qed.

(** ** The CAN client, and the two together *)

Theorem can_client_runs e pad fd r :
  e_socket e = Some fd -> (forall c, e_call e c = true) -> e_write e 0%nat (hello_frame pad) = sizeof_can_frame ->
  run e (can_client pad) (os_start [r]) ≈
  Ret match complete r with
      | Some f => ({| os_reads := []; os_sent := [(fd, hello_frame pad)]; os_shown := [ascii_line f]; os_file := []; os_open := [] |}, 0)
      | None => ({| os_reads := []; os_sent := [(fd, hello_frame pad)]; os_shown := []; os_file := []; os_open := [fd] |}, 1)
      end.
Proof.
  intros Hs Hc Hw. unfold can_client, complete. event. rewrite Hs. cbv iota. passes Hc. passes Hc. event.
  change (length (os_sent _)) with 0%nat. rewrite Hw, Z.eqb_refl. cbv beta iota delta [negb]. event. destruct (clip sizeof_can_frame r) as [f| |]; [|ended..].
  destruct (blen f <? sizeof_can_frame); [ended|]. event. event. ended.
Qed.

Lemma frame_complete can_id pad data dlc :
  blen pad = 3 -> blen data = 8 -> complete (ReadBytes (can_frame_of can_id pad data dlc)) = Some (can_frame_of can_id pad data dlc).
Proof.
  intros Hp Hd. unfold complete, clip. assert (length (can_frame_of can_id pad data dlc) = 16%nat) as Hl.
  { unfold can_frame_of, blen in *. rewrite !length_app, length_le_bytes. cbn [length]. lia. }
  rewrite take_ge by (rewrite Hl; done). unfold blen, sizeof_can_frame. by rewrite Hl.
Qed.

Lemma frame_fields can_id pad data dlc :
  blen pad = 3 -> frame_dlc (can_frame_of can_id pad data dlc) = dlc /\ frame_data (can_frame_of can_id pad data dlc) = data.
Proof.
  intros Hp. unfold frame_dlc, frame_data, can_frame_of.
  assert (length (le_bytes 4 can_id) = 4%nat) as Hl by apply length_le_bytes. assert (length pad = 3%nat) as Hp' by (unfold blen in Hp; lia).
  rewrite app_nth2, Hl by lia. split; [done|]. rewrite !app_assoc. apply drop_app_length'. rewrite !length_app, Hl, Hp'. done.
Qed.

(** Client and server against each other, whatever their uninitialised bytes:
    each reads the frame the other wrote, the server shows Hello, the client
    World, both end well and leave nothing open. *)
Theorem can_conversation e1 e2 pad1 pad2 fd1 fd2 :
  e_socket e1 = Some fd1 -> (forall c, e_call e1 c = true) -> e_write e1 0%nat (hello_frame pad1) = sizeof_can_frame ->
  e_socket e2 = Some fd2 -> (forall c, e_call e2 c = true) -> blen pad1 = 3 -> blen pad2 = 3 ->
  exists hello world,
  run e1 (can_client pad1) (os_start [ReadBytes world]) ≈
    Ret ({| os_reads := []; os_sent := [(fd1, hello)]; os_shown := [lit "World"]; os_file := []; os_open := [] |}, 0) /\
  run e2 (can_server pad2) (os_start [ReadBytes hello]) ≈
    Ret ({| os_reads := []; os_sent := [(fd2, world)]; os_shown := [lit "Hello"]; os_file := []; os_open := [] |}, 0).
Proof.
  intros Hs1 Hc1 Hw Hs2 Hc2 Hp1 Hp2. exists (hello_frame pad1), (world_frame pad2).
  assert (complete (ReadBytes (hello_frame pad1)) = Some (hello_frame pad1)) as Eh by (by apply frame_complete).
  assert (complete (ReadBytes (world_frame pad2)) = Some (world_frame pad2)) as Ew by (by apply frame_complete).
  destruct (frame_fields 0x123 pad1 (lit "Hello" ++ [0; 0; 0]) 5 Hp1) as [Ehl Ehd].
  destruct (frame_fields 0x124 pad2 (lit "World" ++ [0; 0; 0]) 5 Hp2) as [Ewl Ewd]. split.
  - rewrite (can_client_runs e1 pad1 fd1) by done. rewrite Ew.
    replace (ascii_line (world_frame pad2)) with (lit "World") by (unfold ascii_line, world_frame; rewrite Ewl, Ewd; done). reflexivity.
  - rewrite (can_server_answers e2 pad2 fd2) by done.
    replace (frames [ReadBytes (hello_frame pad1)]) with [hello_frame pad1] by (unfold frames; cbn [omap list_omap]; by rewrite Eh).
    cbn [map]. replace (ascii_line (hello_frame pad1)) with (lit "Hello") by (unfold ascii_line, hello_frame; rewrite Ehl, Ehd; done).
    rewrite filter_cons, decide_True, filter_nil by (unfold greets, hello_frame; rewrite Ehl, Ehd; done). reflexivity.
Qed.

(** ** The proxy's CAN session and the server *)

Lemma image_frame data : 0 < blen data <= CAN_MAX_DLEN -> can_image data = can_frame_of 0x123 [0; 0; 0] (data ++ replicate (Z.to_nat (8 - blen data)) 0) (blen data).
Proof.
  intros [H0 H8]. unfold CAN_MAX_DLEN, blen in *.
  destruct data as [|a [|b [|c [|d [|e [|f [|g [|h [|i l] ] ] ] ] ] ] ] ]; try reflexivity; cbn in H0, H8; lia.
Qed.

(** A message for the device that begins with H reaches the server as one frame
    with its data and is answered; taking that answer, the proxy's session reads
    past the end of the frame. *)
Theorem can_session_meets_server s b b' wr data e pad fd peer regs :
  bread (imb_data b) 0 (imb_len b) = Done (72 :: data) -> imb_len b <= CAN_MAX_DLEN ->
  e_socket e = Some fd -> (forall c, e_call e c = true) -> blen pad = 3 ->
  iot_working_mode s = IOT_WORK_MODE_CLIENT -> 6 <= blen (addr_info (imb_addr b')) ->
  exists frame answer,
  can_send_to_remote s b wr = Done (if wr then PROCESS_OK else PROCESS_ERROR, Some (iot_dev_fd s, frame), s) /\
  run e (can_server pad) (os_start [ReadBytes frame]) ≈
    Ret ({| os_reads := []; os_sent := [(fd, answer)]; os_shown := [ascii_line frame]; os_file := []; os_open := [] |}, 0) /\
  can_recv_from_remote s b' {| rv_read := ReadBytes answer; rv_peer := peer; rv_regs := regs |} = Fault OutOfBounds.
Proof.
  intros Hr Hl Hs Hc Hp Hm Ha. pose proof (bread_length _ _ _ _ Hr) as Hn. exists (can_image (72 :: data)), (world_frame pad).
  assert (0 < blen (72 :: data) <= CAN_MAX_DLEN) as Hd by (split; [unfold blen; cbn [length]; lia|lia]).
  assert (complete (ReadBytes (can_image (72 :: data))) = Some (can_image (72 :: data))) as Ef.
  { rewrite image_frame by done. apply frame_complete; [done|]. unfold blen, CAN_MAX_DLEN in *. rewrite length_app, length_replicate. lia. }
  assert (greets (can_image (72 :: data)) = true) as Eg.
  { rewrite image_frame by done. destruct (frame_fields 0x123 [0; 0; 0] ((72 :: data) ++ replicate (Z.to_nat (8 - blen (72 :: data))) 0) (blen (72 :: data)) eq_refl) as [E1 E2].
    unfold greets. rewrite E1, E2, (proj2 (Z.ltb_lt _ _)) by lia. reflexivity. }
  split; [by apply can_send_ok|]. split; [|apply can_recv_reads_past_frame; [done| |done] ].
  - rewrite (can_server_answers e pad fd) by done. replace (frames [ReadBytes (can_image (72 :: data))]) with [can_image (72 :: data)]
      by (unfold frames; cbn [omap list_omap]; by rewrite Ef).
    cbn [map]. rewrite filter_cons, decide_True, filter_nil by (by rewrite Eg). reflexivity.
  - unfold world_frame, can_frame_of, blen in *. rewrite !length_app, length_le_bytes. cbn [length]. unfold sizeof_can_frame. change (length (lit "World")) with 5%nat. lia.
Qed.

(** ** L2CAP *)

(** The echo goes on for as long as the answers are data that is written back
    whole. *)
Lemma echo_turns e fd chunks reads s :
  (forall k b, e_write e k b = blen b) -> Forall (fun c => 0 < blen c <= 1023) chunks -> os_reads s = map ReadBytes chunks ++ reads ->
  run e (ITree.iter (bt_echo_turn fd) tt) s ≈
  run e (ITree.iter (bt_echo_turn fd) tt)
    {| os_reads := reads; os_sent := os_sent s ++ map (fun c => (fd, c)) chunks; os_shown := os_shown s ++ chunks;
       os_file := os_file s; os_open := os_open s |}.
Proof.
  intros Hw. revert s. induction chunks as [|c chunks IH]; intros s Hf Hs.
  - cbn [map app] in *. rewrite !app_nil_r. destruct s; cbn in *; subst. reflexivity.
  - apply Forall_cons_1 in Hf as [Hc Hf]. cbn [map app] in Hs. rewrite run_turn.
    2: { unfold bt_echo_turn. rewrite (run_event _ _ _ s (with_reads s (map ReadBytes chunks ++ reads)) (ReadBytes c)).
         2: { cbn. rewrite Hs. cbn [clip]. unfold blen in Hc. rewrite take_ge by lia. reflexivity. }
         destruct c as [|b c]; [unfold blen in Hc; cbn in Hc; lia|]. event. event. rewrite Hw, Z.eqb_refl. cbv iota. apply run_ret. }
    cbv iota. rewrite IH by done. cbn [os_sent os_shown os_file os_open sending showing with_reads map]. rewrite <- !app_assoc. reflexivity.
Qed.

Lemma echo_loop e fd chunks stop rest s :
  (forall k b, e_write e k b = blen b) -> Forall (fun c => 0 < blen c <= 1023) chunks -> (forall l, stop = ReadBytes l -> l = []) ->
  os_reads s = map ReadBytes chunks ++ stop :: rest ->
  run e (ITree.iter (bt_echo_turn fd) tt) s ≈
  Ret ({| os_reads := rest; os_sent := os_sent s ++ map (fun c => (fd, c)) chunks; os_shown := os_shown s ++ chunks;
          os_file := os_file s; os_open := os_open s |}, tt).
Proof.
  intros Hw Hf Hstop Hs. rewrite (echo_turns e fd chunks (stop :: rest)) by done. set (s1 := {| os_reads := stop :: rest |}).
  apply (run_stop e _ tt s1 (with_reads s1 rest) tt). unfold bt_echo_turn. event.
  destruct stop as [l| |]; [|apply run_ret..]. rewrite (Hstop l eq_refl). cbn [clip]. rewrite take_nil. apply run_ret.
Qed.

(** The echo server: as long as writes are complete it writes back exactly the
    pieces it read, in order, until the other side closes or read fails; both
    sockets are then closed. *)
Theorem bt_server_echoes e server client chunks stop rest :
  e_socket e = Some server -> e_accept e = Some client -> (forall c, e_call e c = true) -> (forall k b, e_write e k b = blen b) ->
  Forall (fun c => 0 < blen c <= 1023) chunks -> (forall l, stop = ReadBytes l -> l = []) ->
  run e bt_server (os_start (map ReadBytes chunks ++ stop :: rest)) ≈
  Ret ({| os_reads := rest; os_sent := map (fun c => (client, c)) chunks; os_shown := chunks; os_file := []; os_open := [] |}, 0).
Proof.
  intros Hs Ha Hc Hw Hf Hstop. unfold bt_server. event. rewrite Hs. cbv iota. passes Hc. passes Hc. passes Hc. event. rewrite Ha. cbv iota.
  rewrite run_then by (by apply (echo_loop e client chunks stop rest)). event. event. ended.
Qed.

(** The client shows what comes back and closes its socket. *)
Theorem bt_client_shows e sk r :
  e_socket e = Some sk -> (forall c, e_call e c = true) -> 0 < e_write e 0%nat bt_message ->
  run e (bt_client true) (os_start [r]) ≈
  Ret ({| os_reads := []; os_sent := [(sk, bt_message)];
          os_shown := match clip 1023 r with ReadBytes ((_ :: _) as l) => [l] | _ => [] end; os_file := []; os_open := [] |}, 0).
Proof.
  intros Hs Hc Hw. unfold bt_client. cbv iota delta [negb]. event. rewrite Hs. cbv iota. passes Hc. passes Hc. event.
  change (length (os_sent _)) with 0%nat. rewrite (proj2 (Z.ltb_lt _ _) Hw). cbv iota.
  rewrite (run_then e _ _ _ {| os_reads := []; os_sent := [(sk, bt_message)];
          os_shown := match clip 1023 r with ReadBytes ((_ :: _) as l) => [l] | _ => [] end; os_file := []; os_open := [sk] |} tt).
  - event. ended.
  - event. destruct (clip 1023 r) as [ [|b l]| |]; [apply run_ret| |apply run_ret..]. apply run_trigger. reflexivity.
Qed.

(** ** The HTTP probe *)

(** The pieces of one response, up to a timeout, an error or the end, and the
    answers behind it. *)
Fixpoint take_response (reads : list read_result) : list Z * list read_result :=
  match reads with
  | [] => ([], [])
  | r :: l =>
      match clip 4095 r with
      | ReadBytes ((_ :: _) as b) => let '(bs, rest) := take_response l in (b ++ bs, rest)
      | _ => ([], l)
      end
  end.

Fixpoint take_responses (n : nat) (reads : list read_result) : list Z * list read_result :=
  match n with
  | O => ([], reads)
  | S n => let '(b, rest) := take_response reads in let '(bs, rest) := take_responses n rest in (b ++ bs, rest)
  end.

(** A state that differs in what was shown. *)
Definition probed (s : os_state) (reads : list read_result) (sent : list (Z * list Z)) (file : list Z) (s' : os_state) : Prop :=
  os_reads s' = reads /\ os_sent s' = os_sent s ++ sent /\ os_file s' = os_file s ++ file /\ os_open s' = os_open s.

Lemma probed_trans s r1 w1 f1 s1 r2 w2 f2 s2 :
  probed s r1 w1 f1 s1 -> probed s1 r2 w2 f2 s2 -> probed s r2 (w1 ++ w2) (f1 ++ f2) s2.
Proof. intros (_ & E1 & E2 & E3) (E4 & E5 & E6 & E7). unfold probed. rewrite E5, E6, E7, E1, E2, E3, <- !app_assoc. done. Qed.

Lemma show_header_runs e hf total l s : exists s' b, run e (show_header hf total l) s ≈ Ret (s', b) /\ probed s (os_reads s) [] [] s'.
Proof.
  assert (forall b : bool, exists s' b', run e (Ret b) s ≈ Ret (s', b') /\ probed s (os_reads s) [] [] s') as Hret.
  { intros b. exists s, b. split; [apply run_ret|]. unfold probed. by rewrite !app_nil_r. }
  assert (forall t (b : bool), exists s' b', run e (_ ⇐ ITree.trigger (Show t); Ret b) s ≈ Ret (s', b') /\ probed s (os_reads s) [] [] s') as Hshow.
  { intros t b. exists (showing s t), b. split; [event; apply run_ret|]. unfold probed. cbn. by rewrite !app_nil_r. }
  unfold show_header. destruct hf; [apply Hret|]. cbv zeta. destruct (header_end _); [apply Hshow|]. destruct (total <? 500); [apply Hshow|apply Hret].
Qed.

(** A response is read to its end, whatever its pieces. *)
Lemma response_loop e fd file reads st s : os_reads s = reads ->
  exists s', run e (ITree.iter (response_turn fd file) st) s ≈ Ret (s', tt) /\
  probed s (snd (take_response reads)) [] (if file then fst (take_response reads) else []) s'.
Proof.
  revert st s. induction reads as [|r reads IH]; intros st s Hs.
  - exists s. split; [|unfold probed; destruct file; cbn; rewrite !app_nil_r; done]. apply run_stop. unfold response_turn.
    rewrite (run_event _ _ _ s s (ReadBytes [])) by (cbn; by rewrite Hs). apply run_ret.
  - assert (forall r', clip 4095 r = r' -> os_step e _ (Read fd 4095) s = Ret (with_reads s reads, r')) as Hread by (intros r' <-; cbn; by rewrite Hs).
    cbn [take_response]. destruct (clip 4095 r) as [ [|b l]| |] eqn:Er; specialize (Hread _ eq_refl).
    1,3,4: exists (with_reads s reads); (split; [|unfold probed; destruct file; cbn; by rewrite !app_nil_r]); apply run_stop;
      unfold response_turn; rewrite (run_event _ _ _ _ _ _ Hread); apply run_ret.
    set (s1 := with_reads s reads) in *. set (s2 := if file then appending s1 (b :: l) else s1).
    destruct (show_header_runs e (snd st) (fst st + blen (b :: l)) (b :: l) s2) as (s3 & hf & Eh & Hp).
    destruct (IH (fst st + blen (b :: l), hf) s3) as (s4 & E4 & Hp4).
    { rewrite (proj1 Hp). by destruct file. }
    exists s4. split.
    + rewrite run_again; [exact E4|]. unfold response_turn. rewrite (run_event _ _ _ _ _ _ Hread). cbv iota zeta.
      rewrite (run_then e _ _ s1 s2 tt).
      * rewrite (run_then _ _ _ _ _ _ Eh). event. apply run_ret.
      * destruct file; [by apply run_trigger|apply run_ret].
    + destruct (take_response reads) as [bs rest]. cbn [fst snd] in *. destruct Hp4 as (R & S4 & F4 & O4), Hp as (_ & S3 & F3 & O3). unfold probed.
      rewrite S4, F4, O4, S3, F3, O3. destruct file; cbn; rewrite ?app_nil_r, <- ?app_assoc; done.
Qed.

Lemma request_loop e fd file n cnt s : (forall k b, 0 <= e_write e k b) -> cnt = 50 - Z.of_nat n ->
  exists s', run e (ITree.iter (request_turn fd file) cnt) s ≈ Ret (s', true) /\
  probed s (snd (take_responses n (os_reads s))) (replicate n (fd, HTTP_REQUEST)) (if file then fst (take_responses n (os_reads s)) else []) s'.
Proof.
  intros Hw. revert cnt s. induction n as [|n IH]; intros cnt s Hc.
  - exists s. split; [|unfold probed; destruct file; cbn; rewrite !app_nil_r; done]. apply run_stop. unfold request_turn.
    rewrite (proj2 (Z.ltb_ge _ _)) by lia. apply run_ret.
  - set (s1 := sending s fd HTTP_REQUEST). destruct (response_loop e fd file (os_reads s) (0, false) s1 eq_refl) as (s2 & E2 & Hp2).
    destruct (IH (cnt + 1) s2 ltac:(lia)) as (s3 & E3 & Hp3). exists s3. split.
    + rewrite run_again; [exact E3|]. unfold request_turn. rewrite (proj2 (Z.ltb_lt _ _)) by lia. event.
      rewrite (proj2 (Z.ltb_ge _ _)) by apply Hw. cbv iota. fold s1. rewrite (run_then _ _ _ _ _ _ E2). apply run_ret.
    + cbn [take_responses]. rewrite (proj1 Hp2) in Hp3. destruct (take_response (os_reads s)) as [b rest]. cbn [fst snd] in *.
      destruct (take_responses n rest) as [bs rest']. cbn [fst snd] in *. change (replicate (S n) (fd, HTTP_REQUEST)) with ([(fd, HTTP_REQUEST)] ++ replicate n (fd, HTTP_REQUEST)).
      assert (probed s (os_reads s) [(fd, HTTP_REQUEST)] [] s1) as Hp1 by (unfold probed; cbn; rewrite app_nil_r; done).
      pose proof (probed_trans _ _ _ _ _ _ _ _ _ Hp1 (probed_trans _ _ _ _ _ _ _ _ _ Hp2 Hp3)) as H. by destruct file.
Qed.

(** The probe ends on every script: it sends fifty requests, appends all the
    responses to its file, and closes its socket - and when the file could not
    be opened it then passes NULL to fclose. *)
Theorem rtt_stats_runs e fd reads :
  e_socket e = Some fd -> (forall c, c <> FOPEN -> e_call e c = true) -> (forall k b, 0 <= e_write e k b) ->
  exists s', run e rtt_stats (os_start reads) ≈ Ret (s', if e_call e FOPEN then Done 0 else Fault NullDeref) /\
  os_sent s' = replicate 50 (fd, HTTP_REQUEST) /\ os_open s' = [] /\
  os_file s' = if e_call e FOPEN then fst (take_responses 50 reads) else [].
Proof.
  intros Hs Hc Hw. set (s0 := with_open (os_start reads) [fd]).
  destruct (request_loop e fd (e_call e FOPEN) 50 0 s0 Hw ltac:(done)) as (s1 & E1 & _ & Hsent & Hfile & Hopen).
  exists (with_open s1 []). split; [|split; [exact Hsent|split; [done|exact Hfile] ] ].
  unfold rtt_stats, or_exit. event. rewrite Hc by done. cbv iota. event. rewrite Hs. cbv iota. do 3 (event; rewrite Hc by done; cbv iota). event.
  change (with_open (os_start reads) _) with s0. rewrite (run_then _ _ _ _ _ _ E1). cbv iota delta [negb].
  rewrite (run_event e (Close fd) _ s1 (with_open s1 []) tt).
  - apply run_ret.
  - cbn. rewrite Hopen. cbn. by rewrite Z.eqb_refl.
Qed.
